(* ===== verification/_CoqProject ===== *)
-Q . S2P
Prelude.v
GoStrings.v
GoTime.v
Sha256.v
Json.v
Redaction.v
JsonText.v
JsonRoundTrip.v
Effects.v
Http.v
Contracts.v
Secrets.v
Integrations.v
Runs.v
RunTables.v
RunTokens.v
RunOps.v
RunCreate.v
RunMachine.v
RunHandlers.v
RunSafety.v
RunTheorems.v
RunLeases.v
TokenTheorems.v
CreateTheorems.v
HandlerTheorems.v
IntegrationTheorems.v
CliTables.v
LegacyAuth.v
CliWrites.v
CliFacts.v
CliTheorems.v
CliReads.v
Artifacts.v
Migrations.v
MigrationTheorems.v
Config.v
Paging.v
AccountTables.v
Sessions.v
SessionTheorems.v
Accounts.v
AccountHandlers.v
AccountTheorems.v
Hmac.v
Bodies.v
IdentityTables.v
Identity.v
IdentityHandlers.v
IdentitySso.v
IdentityFacts.v
SsoTheorems.v
IdentityTheorems.v
MfaTheorems.v
Sql.v
Catalog.v
CatalogHandlers.v
CatalogTheorems.v
CatalogSafety.v
Workspace.v
WorkspaceHandlers.v
WorkspaceFacts.v
WorkspaceTheorems.v
WorkspaceReads.v
Desk.v
AuditEvents.v
Evidence.v
Results.v
EvidenceFacts.v
EvidenceTheorems.v
EvidenceExports.v
Reviews.v
ReviewTheorems.v
IntegrationAdmin.v
IntegrationAdminTheorems.v
Grid.v
GridTheorems.v
Agents.v
Middleware.v
KeyAdmin.v
