(* ===== verification/Prelude.v ===== *)
(** * The Idelium API in Go: a verification library

    The program is the server behind Idelium test automation (src/): a browser
    API, an API for the command-line client and for runners, and a worker that
    delivers integration events, all over one MySQL database.  This library
    translates its core into executable Rocq functions and proves what makes it
    correct.

    ** Method

    A repository method is a function of type [M D A] ([Effects]): it takes a
    world (the tables [D], the failures the next database calls meet, the bytes
    crypto/rand returns) and gives an outcome and a new world.  One database call
    is one round trip that succeeds or fails without effect; a transaction
    restores the tables when its body or its commit fails.  The theorems quantify
    over every world: every statement may fail.  Row locks serialise transactions on a row,
    so a transaction is one step and concurrent requests are sequences of steps;
    what the code does outside a transaction (consuming a run token before a
    claim, writing an audit row after it) is a separate step.  Identifiers of new rows are fresh.  Integers
    of 64 bits are [Z] with their wrap-around ([wrap64]) where the code computes;
    strings are byte strings; an instant is its nanoseconds.

    ** Files

    - [Prelude]: integers, sorted dictionaries (Go maps), generic lemmas.
    - [GoStrings], [GoTime]: what the code uses of strings, strconv, hex and time;
      the calendar and RFC 3339 both ways.  [Sha256]: crypto/sha256, computed.
    - [Json], [JsonText]: decoded documents ([any]), and the text of encoding/json
      (grammar, escapes, UTF-8 repair, nesting limit, Marshal); [JsonRoundTrip]: what
      Marshal writes is read back.  [float64] conversion (strconv) is the class [Floats].
      The parser's fuel, three per byte plus three, is enough ([value_fuel],
      [object_fuel]).
    - [Redaction]: auditlog.Redact, cliapi.redactJSONValue, mysql.redactEnvironment
      and browserauth.removeSensitiveMetadata.
    - [Effects], [Http], [Contracts]: the monad, its laws, requests and responses,
      what the server compares ([MySQL]), and a calculus of contracts ([wp]) for computations that may fail anywhere.
    - Parallel runs.  [Runs]: worker states, recalculation, display
      (browser_parallel_runs.go), with the arithmetic of counters and verdicts.
      [RunTables]: the tables and statements.  [RunTokens]: IssueParallelRunToken,
      RevokeParallelRunToken, consumeParallelRunToken.
      [RunOps]: ClaimParallelRun, UpdateRunnerWorker, HeartbeatParallelRunWorker,
      CancelParallelRun, ValidateWorkerToken, ListParallelRuns.  [RunCreate]:
      metadata, matrix, snapshot, creation.  [RunHandlers]: the routes of
      internal/browserauth/parallel_runs.go for the browser, API keys and runners.
    - [RunMachine]: the abstract specification, a step relation on the tables
      (create, claim, update, heartbeat, cancel; a token issued, consumed or revoked;
      a record of that in the audit trail), and that every operation, the reads
      among them, refines it ([steps_perform]).  [RunSafety]: the
      invariant of a row and of the table, kept by every step.  Their theorems:
      [RunTheorems], [RunLeases], [TokenTheorems], [CreateTheorems],
      [HandlerTheorems].
    - The command line.  [CliTables]: customers, configuration, results.
      [LegacyAuth]: internal/auth/legacy_key.go and mysql/legacy_key.go.
      [CliWrites]: internal/cliapi/performed*.go and mysql/cli_performed*.go, from
      the bytes of the body to the rows.  [CliReads]: internal/cliapi/handler.go and
      its repositories.  [CliFacts]: the invariant of the result tables.
      [CliTheorems].
    - Integrations.  [Secrets]: internal/integrations/secret.go.  [Integrations]:
      dispatcher.go, destination.go, worker.go, queue_drain.go and their stores.
      [IntegrationTheorems]: deliveries, the worker that empties its queue, and its lease
      (mysql/integration_worker_lease.go).
    - [Artifacts]: internal/artifacts/policy.go.
    - [Migrations]: internal/migrations (manifest and checksum, bridge, upgrade and
      empty-install verdicts) and the transaction of cmd/migrate/main.go around the
      bridge; [MigrationTheorems].
    - [Config]: internal/config/config.go, with time.ParseDuration.
    - Browser sessions and accounts.  [AccountTables]: users, sessions, customers,
      roles, audits.  [Sessions]:
      internal/browserauth/handler.go and the session statements of
      mysql/browser_auth.go; [SessionTheorems].  [Paging]: pages of lists.
      [Accounts], [AccountHandlers]: roles, profile, accounts, invitations and
      customers of browserauth/admin.go and mysql/browser_auth.go, from the request
      to the rows; [AccountTheorems].
    - Identity.  [Hmac]: HMAC over SHA-1 and SHA-256, base32, base64url.  [Bodies]: JSON
      bodies.  [IdentityTables]: providers, sign-on states, nonces, MFA secrets, SCIM
      keys, and the service accounts of internal/serviceaccounts/handler.go and
      mysql/service_accounts.go.  [Identity], [IdentityHandlers], [IdentitySso]:
      internal/identity/handler.go (administration, SCIM, MFA; OIDC, SAML and the
      legacy envelope) over mysql/identity_providers.go, mfa.go, scim.go, sso_state.go.
      [IdentityFacts]; [SsoTheorems], [IdentityTheorems], [MfaTheorems].
    - The platform catalogue.  [Sql]: statements as text with placeholders and their
      arguments, and computations whose statements may be refused.  [Catalog],
      [CatalogHandlers]: internal/platforms (queries, pages, validation, the routes)
      and mysql/platform_catalog.go.  [CatalogTheorems], [CatalogSafety].
    - Projects and resources.  [Workspace]: projects, steps, tests, cycles, plugins,
      environments and their versions, as mysql/browser_projects.go, browser_steps.go,
      browser_plugins.go, browser_environments.go and browser_auth.go keep them.
      [WorkspaceHandlers]: their routes in browserauth/admin.go.  [WorkspaceFacts]: what
      each operation may change; [WorkspaceTheorems]; [WorkspaceReads]: reads and concrete
      runs.
    - The administration.  [Desk]: what its routes share, as a class of states with
      accounts and an audit log (who asks, capabilities, identifiers, bodies, answers,
      events).  [AuditEvents]: the listing of the audit log (mysql/browser_audit.go).
      [Evidence]: artifacts in the browser; [Results]: performed runs, tests and steps,
      and their exports (mysql/browser_auth.go); [EvidenceFacts], [EvidenceTheorems],
      [EvidenceExports].  [Reviews]: versions, impact and reviews of assets
      (mysql/browser_assets.go); [ReviewTheorems].  [IntegrationAdmin]: endpoints, their
      secrets, and deliveries (mysql/browser_integrations.go);
      [IntegrationAdminTheorems].  [Grid]: query snapshots, bulk jobs and their exports;
      [GridTheorems].  [Agents]: browserauth/agents.go and mysql/agents.go, and the claim
      they gate.  [KeyAdmin]: internal/legacyapikeys.
    - [Middleware]: internal/httpx, the chain of internal/app/router.go,
      internal/health.

    ** What the theorems show

    Each claim is numbered in the comment before its theorem.

    - Runs: every operation, on every failure, is a sequence of machine steps for its
      tenant ([perform_refines]); reachable tables satisfy the invariant (counters,
      statuses, verdicts); runs that are over never change; tenants are isolated; a
      new worker respects the concurrency limit; HTTP requests are steps of the
      authenticated tenant ([api_requests_refine], [browser_requests_refine]).
    - Leases: a worker with a valid lease survives what is done to other workers and
      runs, but not the cancellation of its run; a heartbeat after the deadline loses it;
      runs converge.
    - Tokens: run tokens are single use, revocable, accepted when fresh, and absent
      from audits and responses.
    - Creation: idempotent for the key and the combinations, at any later time; a matrix
      is a product, metadata is clean, lists are exact.
    - Command line: keys, isolation and references of results, idempotent creation,
      redaction of what is stored, reads.
    - Sessions and accounts: the life of a session from login to expiry or logout, who
      may switch tenants, and that account requests stay within the authority of their
      sender ([account_requests_governed], [accounts_do_not_escalate]).
    - Integrations: outcomes saved once, attempts settled, order and signature of
      deliveries, and that the worker drains a queue of deliverable rows before the
      cancellation of its context ends it.
    - Migrations and configuration: a bridge that fails is rolled back and can be run
      again until it is through, verdicts are exact, a loaded configuration is valid.
    - Identity: a sign-on state is consumed once, a nonce is accepted once, a token is
      accepted exactly when its parts verify, a completed exchange or callback names a
      user of the provider's tenant, an enrolled MFA secret is stored sealed and accepts its own codes as long as it is
      there.
    - Catalogue: every statement binds as many arguments as it has placeholders, pages
      agree with counts, queries are bounded, requests change only the row that they
      name, by the values that they give ([catalog_requests_confined]).
    - Audit log: the listing is what the filters select, newest first, redacted.
    - Evidence: an artifact that is held is not deleted and a deleted one does not come
      back ([artifact_fate]); documents leave masked; an export does not depend on the
      documents of its run.
    - Reviews: only a review approves, and not by the author ([review_fate]); the impact
      of an asset is exactly what refers to it.
    - Integration administration: a secret that was given signs every delivery until it
      is replaced ([given_secret_signs], through [IntegrationAdmin], [Secrets] and [Integrations]).
    - Grid: a job touches the sender's projects of a fresh snapshot only, counts what it
      did, and its CSV export reads back.
    - Agents and keys: an agent that was not approved claims no run
      ([approval_gates_claims], through [Agents] and [RunOps]); a replaced key opens the
      command line for its customer, unless the row of another customer, one without a
      hash for instance, stands in its way ([key_requests_exact], through [KeyAdmin] and
      [LegacyAuth]).
    - HTTP: the access log says what net/http took (a HEAD request is sent no body, and
      is logged with the bytes of it), every answer has the security headers and
      a valid identifier, a panic is answered ([exchange_logged], [exchange_answered]).
    - Projects: a request, whatever fails, keeps the invariant of the tables and touches
      only the sender's tenant ([work_requests_isolated]); reads return rows of the
      sender's tenant; a deletion takes the project, its resources and the results of
      its cycles, and nothing else (versions, artifacts, runs and endpoints stay); an
      update
      appends the next version.

    The examples and theorems that are no claim of the list include the defects the
    model shows: [reclaim_exceeds_concurrency], [undecodable_body_is_unanswered],
    [runner_claim_full_run_is_500], [orphan_delivery_blocks_queue],
    [reserved_addresses_pass], [keyed_cycle_loses_context], [retention_overflow],
    [null_key_locks_everybody_out], [demoted_user_keeps_foreign_tenant],
    [page_offset_overflow],
    [switch_outlives_its_expiry], [scim_password_known], [captured_payload_accepted],
    [foreign_sign_on], [same_second_update_refused], [anonymous_read],
    [unnamed_target], [success_answered_as_failure], [snapshot_not_redacted],
    [order_of_tests_500], [unknown_project], [reordered_twice],
    [archived_project_listed], [padded_account_id], [restoration_seen_before],
    [results_sorted_by_missing_column], [markdown_line_forged],
    [comment_counted_in_bytes], [rotation_of_null_metadata_panics], [taken_name_fails],
    [rotation_date_redacted], [replayed_dead_letter_has_one_attempt],
    [partial_export_is_not_available], [tag_exported_as_formula], [archived_again],
    [member_replaces_key], [registration_replaces_identity], [approved_twice],
    [audit_identifier_unchecked], [idle_session_ended],
    [provider_named_with_a_number].

    ** Arguments of the model

    Code that is not in the repository is an argument with its documented
    behaviour as class laws: bcrypt ([Bcrypt], [BcryptLaws]), AES-CBC, HMAC and the
    JSON text of an envelope ([Crypto], [CryptoLaws]), the comparisons of the server's
    collation ([MySQL], [MySQLLaws]), what a JSON column gives back ([JsonColumn],
    [JsonColumnLaws], [IntegerColumn]), AES-GCM ([Aead], [AeadLaws]), the column types
    of the installed schema ([Schema], [Columns]), DNS and URL parsing ([Network]), the outgoing
    HTTP client, strings.ToUpper ([toUpper]), the float product of time.ParseDuration.  SHA-256 is
    computed where a claim depends on it (migrations, sessions); the run tokens take it
    as an argument.  Each conditional theorem has a witness on concrete instances.
    The session repository is an interface of the code and an argument of the run
    handlers.

    ** Fuel

    The worker loop [Run] takes the list of its turns (time and clock of each),
    since the code loops until its context ends, and then returns the error of that;
    [trimSpace] strips at most its length ([strip_all_done]); the terms of a duration are
    at most its characters ([duration_loop_fuel]); the JSON parser is covered above.

    ** Not modelled, and why

    Pure I/O and glue: process start and shutdown (internal/server, internal/process,
    cmd), the connection pool and TLS, the health probe command, the streams of the
    logger.  internal/openapicontract is generated, and its routes are data for a test.
    internal/testsupport is for tests.  The run tables compare statuses,
    idempotency keys and what a token names (its identifier, its agent) byte by byte,
    where the collation of the server may find more of them equal; the names of
    registered agents are compared by the collation.  Handlers are
    calls of the writer that do not depend on what the writer answers ([Middleware]).
    Clock skew between the process and the database, rows that disappear while a
    result is being read, and statements of two account requests that interleave
    outside a transaction are outside the model. *)

From stdpp Require Export base strings list gmap.
From Stdlib Require Export ZArith Lia Bool.
From Stdlib Require Ascii String.
Export Stdlib.Strings.Ascii (ascii(..)).
Export (notations) Stdlib.Strings.Ascii.

#[global] Open Scope Z_scope.

(** ** Integers at their width

    Go's [int] and [int64] are 64-bit; the code adds small constants to values
    that come from the database, so additions are written with their
    wrap-around. *)
Definition int64_min : Z := - 2 ^ 63.
Definition int64_max : Z := 2 ^ 63 - 1.
Definition in_int64 (z : Z) : bool := (int64_min <=? z) && (z <=? int64_max).
Definition wrap64 (z : Z) : Z := (z + 2 ^ 63) mod 2 ^ 64 - 2 ^ 63.

Lemma wrap64_id z : in_int64 z = true -> wrap64 z = z.
Proof.
  unfold in_int64, wrap64, int64_min, int64_max.
  intros [H1 H2]%andb_true_iff. apply Z.leb_le in H1, H2.
  rewrite Z.mod_small; lia.
Qed.

Lemma wrap64_in_int64 z : in_int64 (wrap64 z) = true.
Proof.
  unfold in_int64, wrap64, int64_min, int64_max.
  pose proof (Z.mod_pos_bound (z + 2 ^ 63) (2 ^ 64) ltac:(lia)).
  apply andb_true_iff; split; apply Z.leb_le; lia.
Qed.

(** ** Dictionaries: Go's [map[string]T]

    A Go map has no order and no duplicate key.  The model keeps the entries
    sorted by key, so that two equal maps are the same value; [sort.Strings]
    over the keys, which the code does before it iterates, is then the order of
    the list. *)
Definition dict (V : Type) : Type := list (string * V).

Section Dict.
Context {V : Type}.

Fixpoint dget (k : string) (d : dict V) : option V :=
  match d with
  | [] => None
  | (k', v) :: d' => if String.eqb k k' then Some v else dget k d'
  end.

Fixpoint dset (k : string) (v : V) (d : dict V) : dict V :=
  match d with
  | [] => [(k, v)]
  | (k', v') :: d' =>
      match String.compare k k' with
      | Eq => (k, v) :: d'
      | Lt => (k, v) :: (k', v') :: d'
      | Gt => (k', v') :: dset k v d'
      end
  end.

Definition ddel (k : string) (d : dict V) : dict V :=
  List.filter (fun kv => negb (String.eqb k (fst kv))) d.

Definition dkeys (d : dict V) : list string := map fst d.

(** Keys strictly increasing: the representation invariant. *)
Fixpoint dwf (d : dict V) : bool :=
  match d with
  | [] => true
  | (k, _) :: d' =>
      match d' with
      | [] => true
      | (k', _) :: _ => String.ltb k k' && dwf d'
      end
  end.

(** A JSON object read in document order; a repeated key keeps its last value. *)
Definition dict_of_list (l : list (string * V)) : dict V :=
  fold_left (fun d kv => dset (fst kv) (snd kv) d) l [].
End Dict.

Lemma string_compare_refl s : String.compare s s = Eq.
Proof.
  induction s as [|c s IH]; simpl; [done|].
  unfold Ascii.compare. by rewrite N.compare_refl.
Qed.

Section DictLemmas.
Context {V : Type}.
Implicit Types d : dict V.

Lemma dget_dset_eq k v d : dget k (dset k v d) = Some v.
Proof.
  induction d as [|[k' v'] d IH]; simpl; [by rewrite String.eqb_refl|].
  destruct (String.compare k k') eqn:E; simpl; rewrite ?String.eqb_refl; try done.
  destruct (String.eqb_spec k k'); [|done].
  subst. by rewrite string_compare_refl in E.
Qed.

Lemma dget_dset_ne k k' v d : k <> k' -> dget k' (dset k v d) = dget k' d.
Proof.
  intros Hne. induction d as [|[j w] d IH]; simpl.
  - by destruct (String.eqb_spec k' k); [subst|].
  - destruct (String.compare k j) eqn:E; simpl.
    + apply String.compare_eq_iff in E; subst.
      by destruct (String.eqb_spec k' j); [subst|].
    + by destruct (String.eqb_spec k' k); [subst|].
    + by rewrite IH.
Qed.

Lemma dget_dset k k' v d :
  dget k' (dset k v d) = if String.eqb k k' then Some v else dget k' d.
Proof.
  destruct (String.eqb_spec k k') as [->|]; [apply dget_dset_eq|by apply dget_dset_ne].
Qed.

Lemma dget_ddel_eq k d : dget k (ddel k d) = None.
Proof.
  induction d as [|[j w] d IH]; simpl; [done|].
  destruct (String.eqb_spec k j); simpl; [done|].
  by destruct (String.eqb_spec k j).
Qed.

Lemma dget_ddel_ne k k' d : k <> k' -> dget k' (ddel k d) = dget k' d.
Proof.
  intros Hne. induction d as [|[j w] d IH]; simpl; [done|].
  destruct (String.eqb_spec k j) as [->|]; simpl.
  - rewrite IH. by destruct (String.eqb_spec k' j); [subst|].
  - by rewrite IH.
Qed.

Lemma dget_In k v d : dget k d = Some v -> In (k, v) d.
Proof.
  induction d as [|[j w] d IH]; simpl; [done|].
  destruct (String.eqb_spec k j); intros; simplify_eq; auto.
Qed.

Lemma dget_None_keys k d : dget k d = None <-> ~ In k (dkeys d).
Proof.
  induction d as [|[j w] d IH]; simpl; [tauto|].
  destruct (String.eqb_spec k j) as [->|]; [naive_solver|].
  rewrite IH. naive_solver.
Qed.

Lemma dkeys_dset k v d k' : In k' (dkeys (dset k v d)) <-> k' = k \/ In k' (dkeys d).
Proof.
  induction d as [|[j w] d IH]; simpl; [naive_solver|].
  destruct (String.compare k j) eqn:E; simpl; [|naive_solver|].
  - apply String.compare_eq_iff in E; subst. naive_solver.
  - rewrite IH. naive_solver.
Qed.
End DictLemmas.

(** *** Sorted dictionaries *)
Definition slt (a b : string) : Prop := String.compare a b = Lt.

Lemma slt_flip a b : String.compare a b = Gt -> slt b a.
Proof. unfold slt. intros H. rewrite String.compare_antisym, H. done. Qed.

Lemma slt_irrefl a : ~ slt a a.
Proof. unfold slt. by rewrite string_compare_refl. Qed.

Lemma slt_le a b : slt a b -> String.le a b.
Proof. unfold slt, String.le, String.leb. by intros ->. Qed.

Lemma slt_trans a b c : slt a b -> slt b c -> slt a c.
Proof.
  intros H1 H2. pose proof (transitivity (slt_le _ _ H1) (slt_le _ _ H2)) as Hac.
  unfold slt. destruct (String.compare a c) eqn:E; [|done|].
  - apply String.compare_eq_iff in E as ->.
    pose proof (anti_symm String.le _ _ (slt_le _ _ H1) (slt_le _ _ H2)) as ->.
    by apply slt_irrefl in H2.
  - unfold String.le, String.leb in Hac. by rewrite E in Hac.
Qed.

Lemma dwf_cons {V} k (v : V) d :
  dwf ((k, v) :: d) = true <-> Forall (fun kv => slt k (fst kv)) d /\ dwf d = true.
Proof.
  revert k v; induction d as [|[j w] d IH]; intros k v; [split; [by repeat constructor|done]|].
  change (dwf ((k, v) :: (j, w) :: d)) with (String.ltb k j && dwf ((j, w) :: d)).
  rewrite andb_true_iff, (IH j w). unfold String.ltb.
  split.
  - intros [Hlt [HF Hd]]. assert (slt k j) by (unfold slt; by destruct (String.compare k j)).
    split; [|split; done]. constructor; [done|].
    eapply Forall_impl; [exact HF|]. intros ? ?. by eapply slt_trans.
  - intros [HF [Hj Hd]]. inversion HF as [|? ? Hkj]; subst. simpl in Hkj.
    split; [by rewrite Hkj|done].
Qed.

Lemma dwf_dset {V} k (v : V) d : dwf d = true -> dwf (dset k v d) = true.
Proof.
  induction d as [|[j w] d IH]; [done|].
  rewrite dwf_cons. intros [HF Hd]. cbn [dset].
  destruct (String.compare k j) eqn:E; rewrite dwf_cons.
  - apply String.compare_eq_iff in E as ->. done.
  - split; [|by rewrite dwf_cons]. constructor; [done|].
    eapply Forall_impl; [exact HF|]. intros ? ?. by eapply slt_trans.
  - split; [|by apply IH]. apply slt_flip in E. clear IH Hd.
    induction d as [|[i u] d IH]; [by repeat constructor|]. cbn [dset].
    inversion HF; subst. destruct (String.compare k i); constructor; auto.
Qed.

Lemma dwf_ddel {V} k (d : dict V) : dwf d = true -> dwf (ddel k d) = true.
Proof.
  induction d as [|[j w] d IH]; [done|]. rewrite dwf_cons. intros [HF Hd].
  unfold ddel. cbn [List.filter fst]. destruct (String.eqb k j); cbn [negb]; [by apply IH|].
  fold (ddel k d). apply dwf_cons. split; [|by apply IH].
  apply List.Forall_forall. intros x [Hx _]%filter_In. rewrite List.Forall_forall in HF. by apply HF.
Qed.

(** Writing at a new key inserts one entry; at a known key it replaces one. *)
Lemma dset_new {V} k (v : V) d :
  dget k d = None -> exists l1 l2, d = (l1 ++ l2)%list /\ dset k v d = (l1 ++ (k, v) :: l2)%list.
Proof.
  induction d as [|[j w] d IH]; simpl; [by exists [], []|].
  destruct (String.eqb_spec k j) as [->|]; [done|]. intros H.
  destruct (String.compare k j) eqn:E.
  - by apply String.compare_eq_iff in E.
  - by exists [], ((j, w) :: d).
  - destruct (IH H) as (l1 & l2 & -> & ->). by exists ((j, w) :: l1), l2.
Qed.

Lemma dset_known {V} k (v v0 : V) d :
  dwf d = true -> dget k d = Some v0 ->
  exists l1 l2, d = (l1 ++ (k, v0) :: l2)%list /\ dset k v d = (l1 ++ (k, v) :: l2)%list.
Proof.
  induction d as [|[j w] d IH]; [done|]. rewrite dwf_cons. intros [HF Hd]. cbn [dget dset].
  destruct (String.eqb_spec k j) as [->|Hne].
  - intros [= ->]. rewrite string_compare_refl. by exists [], d.
  - intros H. destruct (String.compare k j) eqn:E.
    + by apply String.compare_eq_iff in E.
    + exfalso. apply dget_In in H. rewrite List.Forall_forall in HF.
      apply HF in H. simpl in H. by apply (slt_irrefl k), (slt_trans k j k).
    + destruct (IH Hd H) as (l1 & l2 & -> & ->). by exists ((j, w) :: l1), l2.
Qed.

Lemma dwf_map {V W} (f : string -> V -> W) d :
  dwf (map (fun kv => (fst kv, f (fst kv) (snd kv))) d) = dwf d.
Proof.
  induction d as [|[k v] d IH]; [done|]. cbn [map fst snd].
  destruct d as [|[j w] d]; [done|]. cbn [map fst snd] in *. cbn [dwf] in *. by rewrite IH.
Qed.

(** Sorted dictionaries with the same entries are equal. *)
Lemma dget_below {V} k (d : dict V) : Forall (fun kv => slt k (fst kv)) d -> dget k d = None.
Proof.
  induction 1 as [|[j v] d H _ IH]; simpl; [done|].
  destruct (String.eqb_spec k j) as [->|]; [by apply slt_irrefl in H|done].
Qed.

Lemma dict_ext {V} (d1 d2 : dict V) :
  dwf d1 = true -> dwf d2 = true -> (forall k, dget k d1 = dget k d2) -> d1 = d2.
Proof.
  revert d2. induction d1 as [|[k v] d1 IH]; intros [|[j w] d2].
  - done.
  - intros _ _ H. specialize (H j). simpl in H. by rewrite String.eqb_refl in H.
  - intros _ _ H. specialize (H k). simpl in H. by rewrite String.eqb_refl in H.
  - rewrite !dwf_cons. intros [F1 W1] [F2 W2] H.
    assert (k = j) as ->.
    { destruct (String.compare k j) eqn:C; [by apply String.compare_eq_iff|exfalso..].
      - specialize (H k). simpl in H. rewrite String.eqb_refl in H.
        assert (N : k <> j) by (intros ->; by apply slt_irrefl in C).
        apply String.eqb_neq in N. rewrite N, dget_below in H; [done|].
        eapply Forall_impl; [exact F2|]. intros kv. by apply slt_trans.
      - apply slt_flip in C. specialize (H j). simpl in H. rewrite String.eqb_refl in H.
        assert (N : j <> k) by (intros ->; by apply slt_irrefl in C).
        apply String.eqb_neq in N. rewrite N, dget_below in H; [done|].
        eapply Forall_impl; [exact F1|]. intros kv. by apply slt_trans. }
    pose proof (H j) as Hj. simpl in Hj. rewrite String.eqb_refl in Hj. injection Hj as ->.
    f_equal. apply IH; [done..|]. intros k. specialize (H k). simpl in H.
    destruct (String.eqb_spec k j) as [E|]; [|done]. by rewrite E, !dget_below.
Qed.

(** ** Lists *)
Lemma Forall2_map_self {A} (R : A -> A -> Prop) f l :
  (forall x, R x (f x)) -> Forall2 R l (map f l).
Proof. intros H. induction l; simpl; constructor; auto. Qed.
