(* ===== verification/GoStrings.v ===== *)
(** * Go strings

    A Go string is a sequence of bytes; [string] of the Standard Library is the
    same.  This file holds what the code uses of the packages [strings],
    [strconv] and [encoding/hex]: [TrimSpace], [ToLower], [EqualFold],
    [Contains], [ReplaceAll], [Cut], [TrimRight], [FormatInt], [ParseInt] and
    [hex.EncodeToString]. *)

From S2P Require Import Prelude.

(** ** Lists of bytes *)
Definition chars (s : string) : list ascii := String.list_ascii_of_string s.
Definition of_chars (l : list ascii) : string := String.string_of_list_ascii l.
Definition slen (s : string) : Z := Z.of_nat (String.length s).

Lemma of_chars_chars s : of_chars (chars s) = s.
Proof. apply String.string_of_list_ascii_of_string. Qed.

Lemma chars_of_chars l : chars (of_chars l) = l.
Proof. apply String.list_ascii_of_string_of_list_ascii. Qed.

Lemma chars_app s t : chars (s +:+ t) = (chars s ++ chars t)%list.
Proof. induction s as [|c s IH]; simpl; [done|]. f_equal. apply IH. Qed.

Lemma length_chars s : length (chars s) = String.length s.
Proof. induction s as [|c s IH]; simpl; [done|]. f_equal. apply IH. Qed.

Fixpoint is_prefix (p l : list ascii) : bool :=
  match p, l with
  | [], _ => true
  | _ :: _, [] => false
  | c :: p', d :: l' => Ascii.eqb c d && is_prefix p' l'
  end.

Lemma is_prefix_spec p l : is_prefix p l = true <-> exists r, l = (p ++ r)%list.
Proof.
  revert l; induction p as [|c p IH]; intros l; simpl; [naive_solver|].
  destruct l as [|d l]; [naive_solver|].
  rewrite andb_true_iff, Ascii.eqb_eq, IH. naive_solver.
Qed.

(** [strings.HasPrefix], [strings.Contains]. *)
Definition hasPrefix (s p : string) : bool := is_prefix (chars p) (chars s).

Fixpoint contains_at (l p : list ascii) : bool :=
  is_prefix p l || match l with [] => false | _ :: l' => contains_at l' p end.

Definition contains (s p : string) : bool := contains_at (chars s) (chars p).

Lemma contains_spec s p :
  contains s p = true <-> exists a b, chars s = (a ++ chars p ++ b)%list.
Proof.
  unfold contains. generalize (chars s) (chars p); clear s p.
  intros l p; induction l as [|c l IH]; simpl; rewrite orb_true_iff, is_prefix_spec.
  - split.
    + intros [[r Hr]|]; [|done]. exists [], r. done.
    + intros (a & b & H). left. destruct a; [by exists b|done].
  - rewrite IH. split.
    + intros [[r Hr]|(a & b & ->)]; [by exists [], r|by exists (c :: a), b].
    + intros ([|a0 a] & b & H); simplify_eq/=; [left; by exists b|right; by exists a, b].
Qed.

(** ** White space

    [strings.TrimSpace] removes the UTF-8 encodings of the runes for which
    [unicode.IsSpace] holds: six ASCII bytes, U+0085, U+00A0, U+1680,
    U+2000..U+200A, U+2028, U+2029, U+202F, U+205F and U+3000. *)
Definition byte (n : nat) : ascii := Ascii.ascii_of_nat n.

Definition space_encodings : list (list ascii) :=
  (map (fun b => [byte b]) [9; 10; 11; 12; 13; 32] ++
   map (fun b => [byte 194; byte b]) [133; 160] ++
   [[byte 225; byte 154; byte 128]] ++
   map (fun b => [byte 226; byte 128; byte b])
       [128; 129; 130; 131; 132; 133; 134; 135; 136; 137; 138; 168; 169; 175] ++
   [[byte 226; byte 129; byte 159]; [byte 227; byte 128; byte 128]])%list%nat.

Fixpoint strip_one (enc : list (list ascii)) (l : list ascii) : option (list ascii) :=
  match enc with
  | [] => None
  | e :: enc' => if is_prefix e l then Some (drop (length e) l) else strip_one enc' l
  end.

Fixpoint strip_all (fuel : nat) (enc : list (list ascii)) (l : list ascii) : list ascii :=
  match fuel with
  | O => l
  | S fuel' =>
      match strip_one enc l with
      | Some l' => strip_all fuel' enc l'
      | None => l
      end
  end.

Definition trim_left (enc : list (list ascii)) (l : list ascii) : list ascii :=
  strip_all (length l) enc l.

(** [strings.TrimSpace]: trim on the left, then the mirrored trim on the right. *)
Definition trimSpace (s : string) : string :=
  of_chars (rev (trim_left (map (@rev ascii) space_encodings)
                           (rev (trim_left space_encodings (chars s))))).

(** [strings.TrimRight(s, cutset)] for a set of ASCII bytes. *)
Definition trimRightSet (cutset : list ascii) (s : string) : string :=
  of_chars (rev (trim_left (map (fun c => [c]) cutset) (rev (chars s)))).

Lemma strip_one_shorter enc l l' :
  Forall (fun e => e <> []) enc -> strip_one enc l = Some l' -> (length l' < length l)%nat.
Proof.
  induction 1 as [|e enc He Henc IH]; simpl; [done|].
  destruct (is_prefix e l) eqn:E; [|done]. intros [= <-].
  apply is_prefix_spec in E as [r ->]. rewrite drop_app_length, length_app.
  destruct e; simpl; [done|lia].
Qed.

(** The fuel, the length of the input, is enough: nothing is left to strip. *)
Lemma strip_all_done fuel enc l :
  Forall (fun e => e <> []) enc -> (length l <= fuel)%nat ->
  strip_one enc (strip_all fuel enc l) = None.
Proof.
  intros Henc; revert l; induction fuel as [|fuel IH]; intros l Hl; simpl.
  - destruct l; [|simpl in Hl; lia].
    clear Hl. induction Henc as [|e enc He _ IH]; simpl; [done|].
    by destruct e.
  - destruct (strip_one enc l) as [l'|] eqn:E; [|done].
    apply IH. apply strip_one_shorter in E; [lia|done].
Qed.

Lemma strip_all_id fuel enc l : strip_one enc l = None -> strip_all fuel enc l = l.
Proof. destruct fuel; simpl; [done|]. by intros ->. Qed.

(** Text of printable ASCII characters is not trimmed. *)
Definition visible (c : ascii) : bool := (33 <=? Ascii.nat_of_ascii c)%nat && (Ascii.nat_of_ascii c <=? 126)%nat.

Lemma strip_one_visible enc l :
  forallb (fun e => match e with c :: _ => negb (visible c) | [] => false end) enc = true ->
  forallb visible l = true -> strip_one enc l = None.
Proof.
  intros He Hl. induction enc as [|e enc IH]; [done|]. cbn [forallb strip_one] in *.
  apply andb_true_iff in He as [He1 He]. destruct e as [|c e]; [done|].
  destruct l as [|d l]; cbn [is_prefix]; [by apply IH|].
  destruct (Ascii.eqb_spec c d) as [->|]; [|by apply IH]. cbn [forallb] in Hl.
  by destruct (visible d).
Qed.

Lemma trimSpace_visible s : forallb visible (chars s) = true -> trimSpace s = s.
Proof.
  intros H. unfold trimSpace, trim_left.
  rewrite (strip_all_id _ space_encodings) by (by apply strip_one_visible).
  rewrite strip_all_id; [by rewrite rev_involutive, of_chars_chars|].
  apply strip_one_visible; [reflexivity|]. rewrite forallb_forall in *.
  intros c. rewrite <- in_rev. apply H.
Qed.

(** ** Case mapping

    [strings.ToLower] on the ASCII letters, plus the two non-ASCII runes whose
    lower case is an ASCII letter: U+212A (the Kelvin sign, to [k]) and U+0130
    (to [i]).  Every other rune lower-cases to a non-ASCII rune and is left as
    it is: the code only compares the result with ASCII text. *)
Definition lower_byte (c : ascii) : ascii :=
  let n := Ascii.nat_of_ascii c in
  if (65 <=? n)%nat && (n <=? 90)%nat then Ascii.ascii_of_nat (n + 32) else c.

Fixpoint lower_chars (l : list ascii) : list ascii :=
  match l with
  | [] => []
  | a :: l1 =>
      match l1 with
      | [] => [lower_byte a]
      | b :: l2 =>
          if Ascii.eqb a (byte 196) && Ascii.eqb b (byte 176)
          then byte 105 :: lower_chars l2
          else
            match l2 with
            | c :: l3 =>
                if Ascii.eqb a (byte 226) && Ascii.eqb b (byte 132) && Ascii.eqb c (byte 170)
                then byte 107 :: lower_chars l3
                else lower_byte a :: lower_chars l1
            | [] => lower_byte a :: lower_chars l1
            end
      end
  end.

Definition toLower (s : string) : string := of_chars (lower_chars (chars s)).

(** Folding of letter case, as strings.EqualFold and the field names of
    encoding/json use it, on text compared with ASCII: ASCII letters, U+017F to
    [s] and U+212A to [k]. *)
Fixpoint fold_chars (l : list ascii) : list ascii :=
  match l with
  | [] => []
  | a :: l1 =>
      match l1 with
      | [] => [lower_byte a]
      | b :: l2 =>
          if Ascii.eqb a (byte 197) && Ascii.eqb b (byte 191)
          then byte 115 :: fold_chars l2
          else
            match l2 with
            | c :: l3 =>
                if Ascii.eqb a (byte 226) && Ascii.eqb b (byte 132) && Ascii.eqb c (byte 170)
                then byte 107 :: fold_chars l3
                else lower_byte a :: fold_chars l1
            | [] => lower_byte a :: fold_chars l1
            end
      end
  end.

Definition foldName (s : string) : string := of_chars (fold_chars (chars s)).

(** [strings.EqualFold] where one side is ASCII. *)
Definition equalFold (s t : string) : bool := String.eqb (foldName s) (foldName t).

(** [strings.ReplaceAll(s, old, new)] for a one-byte [old]. *)
Definition replaceByte (old : ascii) (new : string) (s : string) : string :=
  of_chars (flat_map (fun c => if Ascii.eqb c old then chars new else [c]) (chars s)).

(** [strings.Cut(s, sep)] for a one-byte separator. *)
Fixpoint cut_chars (sep : ascii) (l : list ascii) : option (list ascii * list ascii) :=
  match l with
  | [] => None
  | c :: l' =>
      if Ascii.eqb c sep then Some ([], l')
      else match cut_chars sep l' with
           | Some (a, b) => Some (c :: a, b)
           | None => None
           end
  end.

Definition cut (sep : ascii) (s : string) : option (string * string) :=
  match cut_chars sep (chars s) with
  | Some (a, b) => Some (of_chars a, of_chars b)
  | None => None
  end.

Lemma cut_chars_app sep a b :
  ~ In sep a -> cut_chars sep (a ++ sep :: b)%list = Some (a, b).
Proof.
  induction a as [|c a IH]; intros H; simpl.
  - by rewrite Ascii.eqb_refl.
  - destruct (Ascii.eqb_spec c sep) as [->|]; [simpl in H; tauto|].
    rewrite IH; [done|simpl in H; tauto].
Qed.

Lemma cut_app a b :
  ~ In "."%char (chars a) -> cut "."%char (a +:+ "." +:+ b) = Some (a, b).
Proof.
  intros H. unfold cut. rewrite !chars_app.
  change (chars ".") with ["."%char]. simpl.
  by rewrite cut_chars_app, !of_chars_chars.
Qed.

(** ** Hexadecimal *)
Definition hex_digit (n : nat) : ascii :=
  if (n <? 10)%nat then Ascii.ascii_of_nat (48 + n) else Ascii.ascii_of_nat (87 + n).

Definition hex_byte (c : ascii) : list ascii :=
  let n := Ascii.nat_of_ascii c in [hex_digit (n / 16); hex_digit (n mod 16)]%nat.

(** [hex.EncodeToString]. *)
Definition hexEncode (s : string) : string := of_chars (flat_map hex_byte (chars s)).

Definition is_hex (c : ascii) : bool :=
  let n := Ascii.nat_of_ascii c in
  ((48 <=? n) && (n <=? 57) || (97 <=? n) && (n <=? 102))%nat.

Lemma hex_digit_is_hex n : (n < 16)%nat -> is_hex (hex_digit n) = true.
Proof. intros H. do 16 (destruct n as [|n]; [reflexivity|]). lia. Qed.

Lemma hexEncode_hex s : Forall (fun c => is_hex c = true) (chars (hexEncode s)).
Proof.
  unfold hexEncode. rewrite chars_of_chars.
  induction (chars s) as [|c l IH]; [constructor|].
  change (flat_map hex_byte (c :: l)) with (hex_byte c ++ flat_map hex_byte l)%list.
  apply Forall_app; split; [|done].
  pose proof (Ascii.nat_ascii_bounded c). unfold hex_byte.
  repeat apply Forall_cons_2; [..|constructor]; apply hex_digit_is_hex.
  - apply Nat.Div0.div_lt_upper_bound. lia.
  - apply Nat.mod_upper_bound. lia.
Qed.

Lemma hexEncode_no c s : is_hex c = false -> ~ In c (chars (hexEncode s)).
Proof.
  intros H Hin. pose proof (hexEncode_hex s) as F.
  rewrite List.Forall_forall in F. rewrite (F _ Hin) in H. done.
Qed.

Lemma hexEncode_length s : String.length (hexEncode s) = (2 * String.length s)%nat.
Proof.
  unfold hexEncode. rewrite <- !length_chars, chars_of_chars.
  induction (chars s) as [|c l IH]; simpl; [done|]. rewrite IH. lia.
Qed.

(** ** Decimal integers *)
Definition digit_char (d : Z) : ascii := Ascii.ascii_of_nat (Z.to_nat (48 + d)).

Definition char_digit (c : ascii) : option Z :=
  let n := Ascii.nat_of_ascii c in
  if (48 <=? n)%nat && (n <=? 57)%nat then Some (Z.of_nat n - 48) else None.

Lemma char_digit_char d : 0 <= d <= 9 -> char_digit (digit_char d) = Some d.
Proof.
  intros H.
  assert (Hd : d = 0 \/ d = 1 \/ d = 2 \/ d = 3 \/ d = 4 \/ d = 5 \/ d = 6 \/ d = 7
               \/ d = 8 \/ d = 9) by lia.
  repeat (destruct Hd as [->|Hd]; [reflexivity|]). by subst.
Qed.

(** The digits of [strconv.ParseInt] in base 10, most significant first. *)
Fixpoint parse_digits (acc : Z) (l : list ascii) : option Z :=
  match l with
  | [] => Some acc
  | c :: l' =>
      match char_digit c with
      | Some d => parse_digits (10 * acc + d) l'
      | None => None
      end
  end.

(** [strconv.ParseInt(s, 10, 64)] and [strconv.Atoi]: an optional sign, at least
    one digit, and the value in range. *)
Definition parseInt (s : string) : option Z :=
  let parse_abs (l : list ascii) := match l with [] => None | _ => parse_digits 0 l end in
  let checked (v : option Z) :=
    match v with Some z => if in_int64 z then Some z else None | None => None end in
  match chars s with
  | "+"%char :: l => checked (parse_abs l)
  | "-"%char :: l => checked (Z.opp <$> parse_abs l)
  | l => checked (parse_abs l)
  end.

Lemma parse_digits_app acc l1 l2 :
  parse_digits acc (l1 ++ l2)%list =
  match parse_digits acc l1 with Some a => parse_digits a l2 | None => None end.
Proof.
  revert acc; induction l1 as [|c l1 IH]; intros acc; simpl; [done|].
  by destruct (char_digit c).
Qed.

Lemma parseInt_in_int64 s z : parseInt s = Some z -> in_int64 z = true.
Proof.
  unfold parseInt. intros H. repeat case_match; simplify_eq; done.
Qed.

(** ** Splitting *)
(** [strings.Split(s, sep)] for a separator of one byte. *)
Fixpoint split_chars (sep : ascii) (l : list ascii) : list (list ascii) :=
  match l with
  | [] => [[]]
  | c :: l' =>
      if Ascii.eqb c sep then [] :: split_chars sep l'
      else match split_chars sep l' with
           | [] => [[c]]
           | part :: parts => (c :: part) :: parts
           end
  end.

Definition split (sep : ascii) (s : string) : list string := map of_chars (split_chars sep (chars s)).

Lemma split_chars_app sep a l :
  ~ In sep a -> split_chars sep (a ++ sep :: l) = a :: split_chars sep l.
Proof.
  induction a as [|c a IH]; intros N; cbn; [by rewrite Ascii.eqb_refl|].
  destruct (Ascii.eqb_spec c sep) as [->|_]; [by destruct N; left|].
  rewrite IH; [done|]. intros Hin. apply N. by right.
Qed.

Lemma split_chars_none sep a : ~ In sep a -> split_chars sep a = [a].
Proof.
  induction a as [|c a IH]; intros N; cbn; [done|].
  destruct (Ascii.eqb_spec c sep) as [->|_]; [by destruct N; left|].
  rewrite IH; [done|]. intros Hin. apply N. by right.
Qed.

Lemma split_chars_nonempty sep l : split_chars sep l <> [].
Proof. destruct l as [|c l]; cbn; [done|]. case_match; [done|]. by case_match. Qed.


Lemma split_three sep l a b c :
  split_chars sep l = [a; b; c] -> l = (a ++ sep :: b ++ sep :: c)%list.
Proof.
  assert (One : forall l a, split_chars sep l = [a] -> l = a).
  { clear. induction l as [|x l IH]; intros a H; cbn in H; [by simplify_eq|].
    destruct (Ascii.eqb x sep); [by pose proof (split_chars_nonempty sep l); simplify_eq|].
    destruct (split_chars sep l) as [|p ps] eqn:E; [by apply split_chars_nonempty in E|].
    injection H as <- ->. f_equal. by apply IH. }
  assert (Cons : forall l a p ps, split_chars sep l = a :: p :: ps ->
    exists l', l = (a ++ sep :: l')%list /\ split_chars sep l' = p :: ps).
  { clear. induction l as [|x l IH]; intros a p ps H; cbn in H; [done|].
    destruct (Ascii.eqb_spec x sep) as [->|_]; [injection H as <- H; by exists l|].
    destruct (split_chars sep l) as [|q qs] eqn:E; [done|]. injection H as <- ->.
    destruct (IH _ _ _ eq_refl) as (l' & -> & E'). by exists l'. }
  intros H. apply Cons in H as (l1 & -> & H). apply Cons in H as (l2 & -> & H).
  by apply One in H as ->.
Qed.
