(* ===== verification/GoTime.v ===== *)
(** * Go times

    A [time.Time] in UTC is its instant, the number of nanoseconds since
    1970-01-01T00:00:00Z.  The code stores instants as text in two places, with
    the layout ["2006-01-02T15:04:05.000000Z"] (microseconds, truncated), and
    reads them back with [time.Parse(time.RFC3339Nano, _)].  This file models the
    two, and proves that the text of an instant reads back as that instant
    truncated to the microsecond. *)

From stdpp Require Import pretty.
From S2P Require Import Prelude GoStrings.

Definition time : Type := Z.

Definition nanosecond : Z := 1.
Definition microsecond : Z := 1000.
Definition second : Z := 1000000000.
Definition minute : Z := 60 * second.
Definition hour : Z := 60 * minute.

(** [Time.After], [Time.Before], [Time.Add]. *)
Definition after (t u : time) : bool := u <? t.
Definition before (t u : time) : bool := t <? u.

(** ** The proleptic Gregorian calendar *)
Definition leap (y : Z) : bool :=
  (y mod 4 =? 0) && (negb (y mod 100 =? 0) || (y mod 400 =? 0)).

Definition days_in (y m : Z) : Z :=
  if m =? 2 then (if leap y then 29 else 28)
  else if (m =? 4) || (m =? 6) || (m =? 9) || (m =? 11) then 30 else 31.

(** Days since 1970-01-01 to (year, month, day), counting years from March. *)
Definition civil_of_days (z : Z) : Z * Z * Z :=
  let a := z + 719468 in
  let era := a / 146097 in
  let doe := a mod 146097 in
  let c := Z.min 3 (doe / 36524) in
  let r := doe - 36524 * c in
  let q := r / 1461 in
  let r2 := r - 1461 * q in
  let y4 := Z.min 3 (r2 / 365) in
  let doy := r2 - 365 * y4 in
  let mp := (5 * doy + 2) / 153 in
  let d := doy - (153 * mp + 2) / 5 + 1 in
  let m := if mp <? 10 then mp + 3 else mp - 9 in
  let y := 400 * era + 100 * c + 4 * q + y4 in
  ((if m <=? 2 then y + 1 else y), m, d).

Definition days_of_civil (y m d : Z) : Z :=
  let y' := if m <=? 2 then y - 1 else y in
  let era := y' / 400 in
  let yoe := y' mod 400 in
  let mp := if m <=? 2 then m + 9 else m - 3 in
  let doy := (153 * mp + 2) / 5 + d - 1 in
  era * 146097 + (yoe * 365 + yoe / 4 - yoe / 100 + doy) - 719468.

Ltac divmod := Z.to_euclidean_division_equations; lia.

(** The four-level decomposition of a day count, with the bounds each level has. *)
Lemma era_split a :
  exists era c q y4 doy,
    a = 146097 * era + 36524 * c + 1461 * q + 365 * y4 + doy /\
    0 <= c <= 3 /\ 0 <= q <= 24 /\ 0 <= y4 <= 3 /\ 0 <= doy <= 365 /\
    (doy = 365 -> y4 = 3 /\ (q < 24 \/ c = 3)) /\
    a / 146097 = era /\
    Z.min 3 (a mod 146097 / 36524) = c /\
    (a mod 146097 - 36524 * c) / 1461 = q /\
    Z.min 3 ((a mod 146097 - 36524 * c - 1461 * q) / 365) = y4.
Proof.
  set (era := a / 146097). set (doe := a mod 146097).
  assert (Ha : a = 146097 * era + doe /\ 0 <= doe < 146097) by (subst era doe; divmod).
  set (c := Z.min 3 (doe / 36524)).
  assert (Hc : 0 <= c <= 3 /\ 0 <= doe - 36524 * c <= 36524 /\
               (c < 3 -> doe - 36524 * c < 36524)) by (subst c; divmod).
  set (r := doe - 36524 * c) in *. set (q := r / 1461).
  assert (Hq : 0 <= q <= 24 /\ 0 <= r - 1461 * q < 1461) by (subst q; divmod).
  set (r2 := r - 1461 * q) in *. set (y4 := Z.min 3 (r2 / 365)).
  assert (Hy : 0 <= y4 <= 3 /\ 0 <= r2 - 365 * y4 <= 365 /\
               (r2 - 365 * y4 = 365 -> y4 = 3)) by (subst y4; divmod).
  exists era, c, q, y4, (r2 - 365 * y4).
  repeat split; try reflexivity; subst r2 r; lia.
Qed.

Lemma civil_of_days_spec z :
  let '(y, m, d) := civil_of_days z in
  days_of_civil y m d = z /\ 1 <= m <= 12 /\ 1 <= d <= days_in y m.
Proof.
  unfold civil_of_days.
  destruct (era_split (z + 719468))
    as (era & c & q & y4 & doy & Hz & Hc & Hq & Hy & Hd & Hl & E1 & E2 & E3 & E4).
  rewrite E1, E2, E3, E4.
  replace ((z + 719468) mod 146097 - 36524 * c - 1461 * q - 365 * y4) with doy
    by (revert Hz E1; divmod).
  set (mp := (5 * doy + 2) / 153).
  assert (Hmp : 0 <= mp <= 11) by (subst mp; divmod).
  assert (Hday : 1 <= doy - (153 * mp + 2) / 5 + 1 <= 31) by (subst mp; divmod).
  set (yoe := 100 * c + 4 * q + y4).
  assert (Hyoe : 0 <= yoe < 400) by (subst yoe; lia).
  assert (Hdiv : yoe / 4 = 25 * c + q /\ yoe / 100 = c) by (subst yoe; divmod).
  replace (400 * era + 100 * c + 4 * q + y4) with (yoe + era * 400) by (subst yoe; lia).
  unfold days_of_civil. cbv zeta.
  destruct (Z.ltb_spec mp 10) as [L|L].
  - assert (E : (mp + 3 <=? 2) = false) by lia. rewrite E.
    rewrite Z.div_add, Z_mod_plus_full, Z.div_small, Z.mod_small by lia.
    replace (mp + 3 - 3) with mp by lia.
    repeat split; [subst yoe; lia|lia..|].
    unfold days_in. clear -L Hmp Hd Hday. repeat case_match; try lia; subst mp; divmod.
  - assert (E : (mp - 9 <=? 2) = true) by lia. rewrite E.
    replace (yoe + era * 400 + 1 - 1) with (yoe + era * 400) by lia.
    rewrite Z.div_add, Z_mod_plus_full, Z.div_small, Z.mod_small by lia.
    replace (mp - 9 + 9) with mp by lia.
    repeat split; [subst yoe; lia|lia..|].
    unfold days_in. destruct (Z.eqb_spec (mp - 9) 2) as [M|M].
    + destruct (leap (yoe + era * 400 + 1)) eqn:Lp; [subst mp; divmod|].
      assert (doy = 365 -> False).
      { intros D. destruct (Hl D) as [-> [Hq'|Hc']]; revert Lp; unfold leap, yoe;
          rewrite andb_false_iff, orb_false_iff, negb_false_iff, !Z.eqb_neq, Z.eqb_eq;
          divmod. }
      subst mp. divmod.
    + repeat case_match; lia.
Qed.

(** ** Formatting *)
Fixpoint pad_digits (w : nat) (n : Z) : list ascii :=
  match w with
  | O => []
  | S w' => (pad_digits w' (n / 10) ++ [digit_char (n mod 10)])%list
  end.

(** The year of [Time.Format]: at least four digits, with a sign before year 0. *)
Definition year_text (y : Z) : list ascii :=
  if (0 <=? y) && (y <=? 9999) then pad_digits 4 y
  else if 9999 <? y then chars (pretty y)
  else "-"%char :: (if y <? -9999 then chars (pretty (- y)) else pad_digits 4 (- y)).

(** [value.UTC().Format("2006-01-02T15:04:05.000000Z")]. *)
Definition format_micros (t : time) : string :=
  let us := t / microsecond in
  let secs := us / 1000000 in
  let '(y, m, d) := civil_of_days (secs / 86400) in
  let sod := secs mod 86400 in
  of_chars (year_text y ++ "-"%char :: pad_digits 2 m ++ "-"%char :: pad_digits 2 d ++
            "T"%char :: pad_digits 2 (sod / 3600) ++ ":"%char ::
            pad_digits 2 (sod / 60 mod 60) ++ ":"%char :: pad_digits 2 (sod mod 60) ++
            "."%char :: pad_digits 6 (us mod 1000000) ++ ["Z"%char])%list.

(** [value.UTC().Format(time.RFC3339)]: the fraction is dropped. *)
Definition format_seconds (t : time) : string :=
  let secs := t / second in
  let '(y, m, d) := civil_of_days (secs / 86400) in
  let sod := secs mod 86400 in
  of_chars (year_text y ++ "-"%char :: pad_digits 2 m ++ "-"%char :: pad_digits 2 d ++
            "T"%char :: pad_digits 2 (sod / 3600) ++ ":"%char ::
            pad_digits 2 (sod / 60 mod 60) ++ ":"%char :: pad_digits 2 (sod mod 60) ++
            ["Z"%char])%list.

(** ** Parsing *)
Fixpoint num (w : nat) (acc : Z) (l : list ascii) : option (Z * list ascii) :=
  match w with
  | O => Some (acc, l)
  | S w' =>
      match l with
      | c :: l' => match char_digit c with Some d => num w' (10 * acc + d) l' | None => None end
      | [] => None
      end
  end.

Definition expect (c : ascii) (l : list ascii) : option (list ascii) :=
  match l with d :: l' => if Ascii.eqb c d then Some l' else None | [] => None end.

(** The digits of a fraction of a second: nine count, the others are dropped. *)
Fixpoint frac_digits (w : nat) (acc : Z) (l : list ascii) : Z * list ascii :=
  match l with
  | c :: l' =>
      match char_digit c with
      | Some d => match w with
                  | S w' => frac_digits w' (10 * acc + d) l'
                  | O => frac_digits O acc l'
                  end
      | None => (acc * 10 ^ Z.of_nat w, l)
      end
  | [] => (acc * 10 ^ Z.of_nat w, l)
  end.

Definition fraction (l : list ascii) : Z * list ascii :=
  match l with
  | p :: c :: l' =>
      if (Ascii.eqb p "."%char || Ascii.eqb p ","%char) &&
         match char_digit c with Some _ => true | None => false end
      then frac_digits 9 0 (c :: l')
      else (0, l)
  | _ => (0, l)
  end.

(** The hour of the layouts ("15"): one digit or two. *)
Definition hour_num (l : list ascii) : option (Z * list ascii) :=
  match num 2 0 l with Some r => Some r | None => num 1 0 l end.

(** The offset east of UTC, in seconds; 24 hours and 60 minutes are accepted. *)
Definition zone (l : list ascii) : option (Z * list ascii) :=
  match l with
  | "Z"%char :: l' => Some (0, l')
  | s :: l' =>
      if Ascii.eqb s "+"%char || Ascii.eqb s "-"%char then
        '(hh, l1) ← num 2 0 l'; l2 ← expect ":"%char l1; '(mm, l3) ← num 2 0 l2;
        if (hh <=? 24) && (mm <=? 60)
        then Some ((if Ascii.eqb s "-"%char then -1 else 1) * (hh * 3600 + mm * 60), l3)
        else None
      else None
  | [] => None
  end.

(** [time.Parse(time.RFC3339Nano, s)], and [time.RFC3339] too: both accept a
    fraction.  A value out of range (month 13, day 31 of a 30-day month, hour 24)
    is an error, as trailing text is. *)
Definition parseRFC3339 (s : string) : option time :=
  '(y, l) ← num 4 0 (chars s); l ← expect "-"%char l;
  '(m, l) ← num 2 0 l; l ← expect "-"%char l;
  '(d, l) ← num 2 0 l; l ← expect "T"%char l;
  '(hh, l) ← hour_num l; l ← expect ":"%char l;
  '(mi, l) ← num 2 0 l; l ← expect ":"%char l;
  '(ss, l) ← num 2 0 l;
  let '(ns, l) := fraction l in
  '(off, l) ← zone l;
  if (1 <=? m) && (m <=? 12) && (1 <=? d) && (d <=? days_in y m) &&
     (hh <? 24) && (mi <? 60) && (ss <? 60) && match l with [] => true | _ => false end
  then Some ((days_of_civil y m d * 86400 + hh * 3600 + mi * 60 + ss - off) * second + ns)
  else None.

(** [time.Parse("2006-01-02 15:04:05", s)], in UTC. *)
Definition parseDateTime (s : string) : option time :=
  '(y, l) ← num 4 0 (chars s); l ← expect "-"%char l;
  '(m, l) ← num 2 0 l; l ← expect "-"%char l;
  '(d, l) ← num 2 0 l; l ← expect " "%char l;
  '(hh, l) ← hour_num l; l ← expect ":"%char l;
  '(mi, l) ← num 2 0 l; l ← expect ":"%char l;
  '(ss, l) ← num 2 0 l;
  let '(ns, l) := fraction l in
  if (1 <=? m) && (m <=? 12) && (1 <=? d) && (d <=? days_in y m) &&
     (hh <? 24) && (mi <? 60) && (ss <? 60) && match l with [] => true | _ => false end
  then Some ((days_of_civil y m d * 86400 + hh * 3600 + mi * 60 + ss) * second + ns)
  else None.

Lemma num_pad_digits w n acc l :
  0 <= n < 10 ^ Z.of_nat w ->
  num w acc (pad_digits w n ++ l)%list = Some (acc * 10 ^ Z.of_nat w + n, l).
Proof.
  assert (G : forall w n acc l, 0 <= n < 10 ^ Z.of_nat w -> forall w',
    num (w + w') acc (pad_digits w n ++ l)%list = num w' (acc * 10 ^ Z.of_nat w + n) l).
  { clear. induction w as [|w IH]; intros n acc l Hn w'.
    - simpl. f_equal. change (10 ^ Z.of_nat 0) with 1 in Hn |- *. lia.
    - replace (S w + w')%nat with (w + S w')%nat by lia.
      cbn [pad_digits]. rewrite <- app_assoc.
      rewrite Nat2Z.inj_succ, Z.pow_succ_r in Hn by lia.
      rewrite IH by divmod. simpl.
      rewrite char_digit_char by divmod. f_equal.
      rewrite Nat2Z.inj_succ, Z.pow_succ_r by lia. divmod. }
  intros Hn. specialize (G w n acc l Hn O). rewrite Nat.add_0_r in G. done.
Qed.

Lemma num2_pad n l : 0 <= n < 100 -> num 2 0 (pad_digits 2 n ++ l)%list = Some (n, l).
Proof. intros. rewrite num_pad_digits by (simpl Z.of_nat; lia). done. Qed.

Lemma hour_pad n l : 0 <= n < 100 -> hour_num (pad_digits 2 n ++ l)%list = Some (n, l).
Proof. intros. unfold hour_num. by rewrite num2_pad. Qed.

Lemma num4_pad n l : 0 <= n < 10000 -> num 4 0 (pad_digits 4 n ++ l)%list = Some (n, l).
Proof. intros. rewrite num_pad_digits by (simpl Z.of_nat; lia). done. Qed.

Lemma frac_digits_num w w' acc l n l' :
  num w acc l = Some (n, l') -> frac_digits (w + w') acc l = frac_digits w' n l'.
Proof.
  revert acc l; induction w as [|w IH]; intros acc l; simpl; [by intros [= <- <-]|].
  destruct l as [|c l]; [done|]. simpl. destruct (char_digit c); [apply IH|done].
Qed.

Lemma fraction_pad6 n l :
  0 <= n < 1000000 ->
  fraction ("."%char :: pad_digits 6 n ++ "Z"%char :: l)%list = (n * 1000, "Z"%char :: l).
Proof.
  intros Hn.
  pose proof (num_pad_digits 6 n 0 ("Z"%char :: l) ltac:(simpl Z.of_nat; lia)) as H.
  destruct (pad_digits 6 n ++ "Z"%char :: l)%list as [|c l'] eqn:E; [done|].
  assert (Hc : exists d, char_digit c = Some d).
  { simpl in H. destruct (char_digit c); [eauto|done]. }
  destruct Hc as [d Hc]. unfold fraction. rewrite Hc.
  change (frac_digits (6 + 3) 0 (c :: l') = (n * 1000, "Z"%char :: l)).
  by rewrite (frac_digits_num 6 3 0 _ _ _ H).
Qed.

(** The instants of the years 0 to 9999, whose text has four year digits. *)
Definition four_digit_year (t : time) : bool :=
  let '(y, _, _) := civil_of_days (t / microsecond / 1000000 / 86400) in
  (0 <=? y) && (y <=? 9999).

Definition truncate_micros (t : time) : time := t / microsecond * microsecond.

Lemma expect_cons c l : expect c (c :: l) = Some l.
Proof. unfold expect. by rewrite Ascii.eqb_refl. Qed.

Ltac parse_step :=
  first [ rewrite expect_cons | rewrite num2_pad by divmod | rewrite hour_pad by divmod ]; cbn [mbind option_bind].

Lemma parse_format_micros t :
  four_digit_year t = true -> parseRFC3339 (format_micros t) = Some (truncate_micros t).
Proof.
  unfold four_digit_year, format_micros, parseRFC3339, truncate_micros.
  set (us := t / microsecond). set (secs := us / 1000000).
  pose proof (civil_of_days_spec (secs / 86400)) as Hc.
  destruct (civil_of_days (secs / 86400)) as [[y m] d].
  destruct Hc as (Hdays & Hm & Hd). intros Hy.
  unfold year_text. rewrite Hy. apply andb_true_iff in Hy as [Hy1 Hy2].
  apply Z.leb_le in Hy1, Hy2.
  set (sod := secs mod 86400). assert (Hs : 0 <= sod < 86400) by (subst sod; divmod).
  assert (Hd31 : d <= 31) by (revert Hd; unfold days_in; repeat case_match; lia).
  rewrite chars_of_chars, num4_pad by lia. cbn [mbind option_bind].
  repeat parse_step.
  rewrite fraction_pad6 by divmod. cbn [zone mbind option_bind].
  assert (C : (1 <=? m) && (m <=? 12) && (1 <=? d) && (d <=? days_in y m) &&
     (sod / 3600 <? 24) && (sod / 60 mod 60 <? 60) && (sod mod 60 <? 60) && true = true).
  { rewrite !andb_true_iff, !Z.leb_le, !Z.ltb_lt. repeat split; try lia; divmod. }
  rewrite C, Hdays. f_equal. unfold second, microsecond.
  subst sod secs. clearbody us. clear -us. divmod.
Qed.

Lemma parse_format_seconds t :
  four_digit_year t = true -> parseRFC3339 (format_seconds t) = Some (t / second * second).
Proof.
  unfold four_digit_year, format_seconds, parseRFC3339.
  replace (t / microsecond / 1000000) with (t / second)
    by (unfold microsecond, second; rewrite Z.div_div by lia; done).
  set (secs := t / second).
  pose proof (civil_of_days_spec (secs / 86400)) as Hc.
  destruct (civil_of_days (secs / 86400)) as [[y m] d].
  destruct Hc as (Hdays & Hm & Hd). intros Hy.
  unfold year_text. rewrite Hy. apply andb_true_iff in Hy as [Hy1 Hy2].
  apply Z.leb_le in Hy1, Hy2.
  set (sod := secs mod 86400). assert (Hs : 0 <= sod < 86400) by (subst sod; divmod).
  assert (Hd31 : d <= 31) by (revert Hd; unfold days_in; repeat case_match; lia).
  rewrite chars_of_chars, num4_pad by lia. cbn [mbind option_bind].
  repeat parse_step. cbn [fraction zone mbind option_bind].
  assert (C : (1 <=? m) && (m <=? 12) && (1 <=? d) && (d <=? days_in y m) &&
     (sod / 3600 <? 24) && (sod / 60 mod 60 <? 60) && (sod mod 60 <? 60) && true = true).
  { rewrite !andb_true_iff, !Z.leb_le, !Z.ltb_lt. repeat split; try lia; divmod. }
  rewrite C, Hdays. f_equal. unfold second.
  subst sod. clearbody secs. clear. divmod.
Qed.

(** Truncation loses less than a microsecond. *)
Lemma truncate_micros_bounds t : truncate_micros t <= t < truncate_micros t + microsecond.
Proof. unfold truncate_micros, microsecond. divmod. Qed.

Example format_micros_2026 :
  format_micros 1788264000123456789 = "2026-09-01T12:00:00.123456Z".
Proof. reflexivity. Qed.

Example parse_offset :
  parseRFC3339 "2026-09-01T14:00:00.5+02:00" = Some 1788264000500000000.
Proof. reflexivity. Qed.

Example parse_rejects_feb_30 : parseRFC3339 "2026-02-30T00:00:00Z" = None.
Proof. reflexivity. Qed.

Example parse_short_hour : parseRFC3339 "2026-02-03T4:05:06Z" = parseRFC3339 "2026-02-03T04:05:06Z".
Proof. vm_compute. reflexivity. Qed.
Example parse_date_time : parseDateTime "2026-02-03 04:05:06" = parseRFC3339 "2026-02-03T04:05:06Z".
Proof. vm_compute. reflexivity. Qed.
