(* ===== verification/Sha256.v ===== *)
(** * SHA-256 (crypto/sha256)

    The hash of Go's standard library, on byte strings: FIPS 180-4, with 32-bit
    words as [Z] reduced modulo 2^32. *)

From S2P Require Import Prelude GoStrings.

(** ** Words of 32 bits *)
Definition word (z : Z) : Z := Z.land z 4294967295.
Definition wadd (a b : Z) : Z := word (a + b).
Definition rotr (n x : Z) : Z := Z.lor (Z.shiftr x n) (word (Z.shiftl x (32 - n))).

Definition big_sigma0 (x : Z) : Z := Z.lxor (rotr 2 x) (Z.lxor (rotr 13 x) (rotr 22 x)).
Definition big_sigma1 (x : Z) : Z := Z.lxor (rotr 6 x) (Z.lxor (rotr 11 x) (rotr 25 x)).
Definition sigma0 (x : Z) : Z := Z.lxor (rotr 7 x) (Z.lxor (rotr 18 x) (Z.shiftr x 3)).
Definition sigma1 (x : Z) : Z := Z.lxor (rotr 17 x) (Z.lxor (rotr 19 x) (Z.shiftr x 10)).
Definition ch (x y z : Z) : Z := Z.lxor (Z.land x y) (Z.land (Z.lxor x 4294967295) z).
Definition maj (x y z : Z) : Z := Z.lxor (Z.land x y) (Z.lxor (Z.land x z) (Z.land y z)).

(** The constants are the fractional parts of roots of the first primes, 32 bits of
    each; the test vectors below confirm them. *)
Definition is_prime (n : Z) : bool :=
  forallb (fun d => negb (n mod Z.of_nat d =? 0)) (seq 2 (Z.to_nat n - 2)).

Definition primes (n : nat) : list Z :=
  take n (List.filter is_prime (map Z.of_nat (seq 2 400))).

(** The greatest [r] below [base + 2^bits] whose cube is at most [n]. *)
Fixpoint cube_root (bits : nat) (base n : Z) : Z :=
  match bits with
  | O => base
  | S b =>
      let r := base + 2 ^ Z.of_nat b in
      cube_root b (if r * r * r <=? n then r else base) n
  end.

Definition round_constants : list Z :=
  Eval vm_compute in map (fun p => word (cube_root 40 0 (Z.shiftl p 96))) (primes 64).

(** ** The state and its compression *)
Record hash := Hash { h0 : Z; h1 : Z; h2 : Z; h3 : Z; h4 : Z; h5 : Z; h6 : Z; h7 : Z }.

Definition initial_hash : hash :=
  Eval vm_compute in
    let h i := word (Z.sqrt (Z.shiftl (nth i (primes 8) 0) 64)) in
    Hash (h 0%nat) (h 1%nat) (h 2%nat) (h 3%nat) (h 4%nat) (h 5%nat) (h 6%nat) (h 7%nat).

(** One round: the working variables, a constant and a word of the schedule. *)
Definition sha_round (s : hash) (k w : Z) : hash :=
  let '(Hash a b c d e f g h) := s in
  let t1 := wadd h (wadd (big_sigma1 e) (wadd (ch e f g) (wadd k w))) in
  let t2 := wadd (big_sigma0 a) (maj a b c) in
  Hash (wadd t1 t2) a b c (wadd d t1) e f g.

(** The next word of the schedule, from the sixteen before it. *)
Definition next_word (window : list Z) : Z :=
  let at_ i := nth i window 0 in
  wadd (sigma1 (at_ 14%nat)) (wadd (at_ 9%nat) (wadd (sigma0 (at_ 1%nat)) (at_ 0%nat))).

Fixpoint rounds (ks window : list Z) (s : hash) : hash :=
  match ks with
  | [] => s
  | k :: ks' =>
      rounds ks' (tail window ++ [next_word window])%list (sha_round s k (hd 0 window))
  end.

Definition compress (s : hash) (block : list Z) : hash :=
  let '(Hash a b c d e f g h) := rounds round_constants block s in
  Hash (wadd (h0 s) a) (wadd (h1 s) b) (wadd (h2 s) c) (wadd (h3 s) d)
       (wadd (h4 s) e) (wadd (h5 s) f) (wadd (h6 s) g) (wadd (h7 s) h).

(** ** Padding and blocks *)
Definition code_of (c : ascii) : Z := Z.of_N (Ascii.N_of_ascii c).

Fixpoint big_endian (width : nat) (z : Z) : list Z :=
  match width with
  | O => []
  | S w => Z.land (Z.shiftr z (8 * Z.of_nat w)) 255 :: big_endian w z
  end.

Definition padded (l : list Z) : list Z :=
  let n := Z.of_nat (length l) in
  (l ++ 128 :: repeat 0 (Z.to_nat ((55 - n) mod 64)) ++ big_endian 8 (8 * n))%list.

Fixpoint words_of (l : list Z) : list Z :=
  match l with
  | a :: b :: c :: d :: l' =>
      Z.lor (Z.shiftl a 24) (Z.lor (Z.shiftl b 16) (Z.lor (Z.shiftl c 8) d)) :: words_of l'
  | _ => []
  end.

(** One block per sixteen words; [fuel] bounds their number. *)
Fixpoint blocks (fuel : nat) (ws : list Z) (s : hash) : hash :=
  match fuel, ws with
  | S n, _ :: _ => blocks n (drop 16 ws) (compress s (take 16 ws))
  | _, _ => s
  end.

Definition digest_words (s : hash) : list Z :=
  [h0 s; h1 s; h2 s; h3 s; h4 s; h5 s; h6 s; h7 s].

Definition sum256 (s : string) : string :=
  let ws := words_of (padded (map code_of (chars s))) in
  of_chars (map (fun z => Ascii.ascii_of_N (Z.to_N z))
    (flat_map (big_endian 4) (digest_words (blocks (length ws) ws initial_hash)))).

(** The published test vectors. *)
Example sha256_abc :
  hexEncode (sum256 "abc") = "ba7816bf8f01cfea414140de5dae2223b00361a396177a9cb410ff61f20015ad".
Proof. vm_compute. reflexivity. Qed.

Example sha256_empty :
  hexEncode (sum256 "") = "e3b0c44298fc1c149afbf4c8996fb92427ae41e4649b934ca495991b7852b855".
Proof. vm_compute. reflexivity. Qed.

Example sha256_two_blocks :
  hexEncode (sum256 "abcdbcdecdefdefgefghfghighijhijkijkljklmklmnlmnomnopnopq")
  = "248d6a61d20638b8e5c026930c3e6039a33ce45964ff2167f6ecedd419db06c1".
Proof. vm_compute. reflexivity. Qed.

(** A digest is thirty-two bytes. *)
Lemma sum256_length s : String.length (sum256 s) = 32%nat.
Proof.
  unfold sum256. rewrite <- length_chars, chars_of_chars, length_map.
  by destruct (blocks _ _ _).
Qed.
