(* ===== verification/Json.v ===== *)
(** * JSON documents: Go's [any] as [encoding/json] decodes it

    A document decoded into [any] is [nil], a [bool], a [float64], a [string], a
    [[]any] or a [map[string]any].  Type assertions ([v.(string)],
    [v.(map[string]any)]) are the partial projections below; indexing a map at a
    missing key gives [nil]. *)

From stdpp Require Import pretty.
From S2P Require Import Prelude GoStrings.

(** A [float64] is kept as the observations the code makes of it: the integer it
    equals when [x == float64(int64(x))], its text in
    [strconv.FormatFloat(x, 'f', -1, 64)], and its text in [fmt.Sprint]. *)
Record float64 := Float64 {
  f_int : option Z;
  f_plain : string;
  f_print : string;
}.

#[export] Instance float64_eq_dec : EqDecision float64.
Proof. solve_decision. Defined.

Unset Elimination Schemes.
Inductive json :=
| JNull
| JBool (b : bool)
| JNum (x : float64)
| JStr (s : string)
| JArr (l : list json)
| JObj (d : list (string * json)).
Set Elimination Schemes.

(** Induction with the hypothesis for every element and every member. *)
Definition json_ind (P : json -> Prop)
  (Hnull : P JNull) (Hbool : forall b, P (JBool b)) (Hnum : forall x, P (JNum x))
  (Hstr : forall s, P (JStr s)) (Harr : forall l, Forall P l -> P (JArr l))
  (Hobj : forall d, Forall (fun kv => P (snd kv)) d -> P (JObj d)) : forall v, P v :=
  fix go v :=
    match v with
    | JNull => Hnull
    | JBool b => Hbool b
    | JNum x => Hnum x
    | JStr s => Hstr s
    | JArr l =>
        Harr l ((fix gol l := match l return Forall P l with
                              | [] => Forall_nil_2 _
                              | x :: l' => Forall_cons_2 _ _ _ (go x) (gol l')
                              end) l)
    | JObj d =>
        Hobj d ((fix god d := match d return Forall (fun kv => P (snd kv)) d with
                              | [] => Forall_nil_2 _
                              | kv :: d' => Forall_cons_2 (fun kv => P (snd kv)) _ _
                                              (go (snd kv)) (god d')
                              end) d)
    end.

(** An [int] the code puts in a document, as it reads back. *)
Definition jint (z : Z) : json := JNum (Float64 (Some z) (pretty z) (pretty z)).

(** ** Type assertions and indexing *)
Definition as_str (v : json) : option string := match v with JStr s => Some s | _ => None end.
Definition as_obj (v : json) : option (dict json) := match v with JObj d => Some d | _ => None end.
Definition as_arr (v : json) : option (list json) := match v with JArr l => Some l | _ => None end.

(** [x, _ := v.(string)]: the zero value when the assertion fails. *)
Definition str_or_empty (v : json) : string := default "" (as_str v).

(** [m[k]] on a [map[string]any]; a nil map behaves as an empty one. *)
Definition jidx (d : dict json) (k : string) : json := default JNull (dget k d).

(** [v.(map[string]any)] with the [ok] dropped: nil, read as an empty map. *)
Definition obj_or_empty (v : json) : dict json := default [] (as_obj v).

Definition is_null (v : json) : bool := match v with JNull => true | _ => false end.

(** [v == "text"], the comparison of an [any] with a string. *)
Definition is_str (v : json) (s : string) : bool :=
  match v with JStr t => String.eqb t s | _ => false end.

Lemma is_str_spec v s : is_str v s = true <-> v = JStr s.
Proof. destruct v; simpl; try naive_solver. rewrite String.eqb_eq. naive_solver. Qed.

(** [json.Unmarshal(text, &m)] for [m map[string]any] initialised to an empty
    map, with the error dropped: an object replaces it (a repeated member keeps
    its last value), any other document leaves it empty.  A JSON [null] sets the
    map to nil, which reads as an empty one. *)
Fixpoint normalize (v : json) : json :=
  match v with
  | JArr l => JArr (map normalize l)
  | JObj d => JObj (dict_of_list (map (fun kv => (fst kv, normalize (snd kv))) d))
  | _ => v
  end.

(** [fmt.Sprint] of a decoded document. *)
Fixpoint sprint (v : json) : string :=
  match v with
  | JNull => "<nil>"
  | JBool b => if b then "true" else "false"
  | JNum x => f_print x
  | JStr s => s
  | JArr l => "[" +:+ String.concat " " (map sprint l) +:+ "]"
  | JObj d =>
      "map[" +:+ String.concat " " (map (fun kv => fst kv +:+ ":" +:+ sprint (snd kv)) d)
             +:+ "]"
  end.

(** ** Decidable equality *)
Fixpoint json_eqb (a b : json) : bool :=
  match a, b with
  | JNull, JNull => true
  | JBool x, JBool y => Bool.eqb x y
  | JNum x, JNum y => bool_decide (x = y)
  | JStr x, JStr y => String.eqb x y
  | JArr l, JArr m =>
      (fix go l m := match l, m with
                     | [], [] => true
                     | x :: l', y :: m' => json_eqb x y && go l' m'
                     | _, _ => false
                     end) l m
  | JObj l, JObj m =>
      (fix go (l m : list (string * json)) :=
         match l, m with
         | [], [] => true
         | (j, x) :: l', (k, y) :: m' => String.eqb j k && json_eqb x y && go l' m'
         | _, _ => false
         end) l m
  | _, _ => false
  end.

Lemma json_eqb_eq a b : json_eqb a b = true <-> a = b.
Proof.
  revert b; induction a as [| | | |l IH|d IH] using json_ind; intros [| | | |m|e]; simpl;
    try (split; congruence).
  - rewrite Bool.eqb_true_iff. split; congruence.
  - rewrite bool_decide_eq_true. split; congruence.
  - rewrite String.eqb_eq. split; congruence.
  - revert m; induction IH as [|x l Hx _ IHl]; intros [|y m]; try (split; congruence).
    rewrite andb_true_iff, Hx, IHl. split; [intros []; congruence|intros [=]; subst; done].
  - revert e; induction IH as [|[k x] d Hx _ IHd]; intros [|[j y] e]; try (split; congruence).
    simpl in Hx. rewrite !andb_true_iff, String.eqb_eq, Hx, IHd.
    split; [intros [[] ]; congruence|intros [=]; subst; done].
Qed.

#[export] Instance json_eq_dec : EqDecision json.
Proof.
  intros a b. destruct (json_eqb a b) eqn:E.
  - left. by apply json_eqb_eq.
  - right. intros ->. by rewrite (proj2 (json_eqb_eq b b) eq_refl) in E.
Defined.

(** ** Paths into a document *)
Inductive step := Key (k : string) | Index (i : nat).

Definition child (v : json) (s : step) : option json :=
  match s, v with
  | Key k, JObj d => dget k d
  | Index i, JArr l => l !! i
  | _, _ => None
  end.

Fixpoint at_path (v : json) (p : list step) : option json :=
  match p with
  | [] => Some v
  | s :: p' => c ← child v s; at_path c p'
  end.

Lemma dget_map {A B} (f : string -> A -> B) k (d : dict A) :
  dget k (map (fun kv => (fst kv, f (fst kv) (snd kv))) d) = f k <$> dget k d.
Proof.
  induction d as [|[j v] d IH]; simpl; [done|].
  by destruct (String.eqb_spec k j) as [->|].
Qed.

(** ** Reading what was written *)
Lemma obj_or_empty_obj d : obj_or_empty (JObj d) = d.
Proof. done. Qed.

Lemma str_or_empty_str s : str_or_empty (JStr s) = s.
Proof. done. Qed.

Lemma jidx_dset_eq k v d : jidx (dset k v d) k = v.
Proof. unfold jidx. by rewrite dget_dset_eq. Qed.

Lemma jidx_dset_ne k k' v d : k <> k' -> jidx (dset k v d) k' = jidx d k'.
Proof. intros. unfold jidx. by rewrite dget_dset_ne. Qed.

(** Evaluates a lookup of a constant key in a chain of writes to constant keys. *)
Ltac jidx_simpl :=
  rewrite ?obj_or_empty_obj;
  repeat first [ rewrite jidx_dset_eq | rewrite jidx_dset_ne by congruence ].
