(* ===== verification/Redaction.v ===== *)
(** * Redaction of secrets

    Four routines walk a JSON document and hide what is stored under a
    credential-like key: [auditlog.Redact], the CLI's [redactJSONValue], the
    browser API's [redactEnvironment], and [removeSensitiveMetadata], which
    drops the member instead of overwriting it.  [environmentHasInlineSecret]
    is the test that refuses an environment with such a key.  The routines
    differ in their key test and share their recursion. *)

From S2P Require Import Prelude GoStrings Json.

Definition redacted_mark : json := JStr "[REDACTED]".

(** ** The key tests *)
Definition any_marker (markers : list string) (s : string) : bool :=
  existsb (contains s) markers.

(** [auditlog.SensitiveKey]. *)
Definition SensitiveKey (key : string) : bool :=
  let normalized := toLower (replaceByte "_"%char "" key) in
  any_marker ["password"; "passwd"; "secret"; "token"; "apikey"; "authorization";
              "cookie"; "credential"; "session"; "recovery"] normalized.

(** [cliapi.isSensitiveJSONKey]. *)
Definition isSensitiveJSONKey (key : string) : bool :=
  let normalized := toLower (replaceByte "_"%char "-" key) in
  any_marker ["authorization"; "password"; "secret"; "token"; "apikey"; "api-key";
              "session"; "csrf"; "cookie"] normalized.

(** The key test inlined in [redactEnvironment] and [environmentHasInlineSecret]. *)
Definition environmentSecretKey (k : string) : bool :=
  let lk := toLower k in
  contains lk "secret" || contains lk "password" || contains lk "token" ||
  contains lk "cookie".

(** The key test of [removeSensitiveMetadata]. *)
Definition sensitiveMetadataKey (key : string) : bool :=
  any_marker ["password"; "passwd"; "secret"; "token"; "apikey"; "api_key";
              "authorization"; "cookie"; "credential"; "session"] (toLower key).

(** ** The walks *)
Section Walk.
Variable sensitive : string -> bool.

Fixpoint redact_with (v : json) : json :=
  match v with
  | JObj d =>
      JObj (map (fun kv => (fst kv, if sensitive (fst kv) then redacted_mark
                                    else redact_with (snd kv))) d)
  | JArr l => JArr (map redact_with l)
  | _ => v
  end.

Fixpoint remove_with (v : json) : json :=
  match v with
  | JObj d =>
      JObj (List.filter (fun kv => negb (sensitive (fst kv)))
                        (map (fun kv => (fst kv, remove_with (snd kv))) d))
  | JArr l => JArr (map remove_with l)
  | _ => v
  end.

(** Some key of the document, at any depth, is sensitive. *)
Fixpoint has_secret (v : json) : bool :=
  match v with
  | JObj d => existsb (fun kv => sensitive (fst kv) || has_secret (snd kv)) d
  | JArr l => existsb has_secret l
  | _ => false
  end.

(** Every member under a sensitive key, at any depth, is the mark. *)
Fixpoint masked (v : json) : bool :=
  match v with
  | JObj d =>
      forallb (fun kv => if sensitive (fst kv) then json_eqb (snd kv) redacted_mark
                         else masked (snd kv)) d
  | JArr l => forallb masked l
  | _ => true
  end.
End Walk.

(** [auditlog.Redact]. *)
Definition Redact : json -> json := redact_with SensitiveKey.

(** [cliapi.redactJSONValue]. *)
Definition redactJSONValue : json -> json := redact_with isSensitiveJSONKey.

(** [mysql.redactEnvironment]. *)
Definition redactEnvironment : json -> json := redact_with environmentSecretKey.

(** [browserauth.environmentHasInlineSecret]. *)
Definition environmentHasInlineSecret : json -> bool := has_secret environmentSecretKey.

(** [browserauth.removeSensitiveMetadataValue], and [removeSensitiveMetadata] on
    the members of an object. *)
Definition removeSensitiveMetadataValue : json -> json := remove_with sensitiveMetadataKey.

Definition removeSensitiveMetadata (values : dict json) : dict json :=
  List.filter (fun kv => negb (sensitiveMetadataKey (fst kv)))
              (map (fun kv => (fst kv, removeSensitiveMetadataValue (snd kv))) values).

(** ** Properties of the walks *)
Section WalkLemmas.
Variable sensitive : string -> bool.

Lemma redact_with_masked v : masked sensitive (redact_with sensitive v) = true.
Proof.
  induction v as [| | | |l IH|d IH] using json_ind; simpl; try done;
    rewrite forallb_forall; intros x Hx; apply in_map_iff in Hx as [y [<- Hy]].
  - rewrite List.Forall_forall in IH. by apply IH.
  - rewrite List.Forall_forall in IH. simpl.
    destruct (sensitive (fst y)); [done|by apply IH].
Qed.

Lemma redact_with_fixed v : masked sensitive v = true -> redact_with sensitive v = v.
Proof.
  induction v as [| | | |l IH|d IH] using json_ind; simpl; try done.
  - intros H. f_equal. induction IH as [|x l Hx _ IHl]; simpl in *; [done|].
    apply andb_true_iff in H as [H1 H2]. by rewrite Hx, IHl.
  - intros H. f_equal. induction IH as [|[k x] d Hx _ IHd]; simpl in *; [done|].
    apply andb_true_iff in H as [H1 H2]. rewrite IHd by done.
    destruct (sensitive k); [|by rewrite Hx].
    by apply json_eqb_eq in H1 as ->.
Qed.

Lemma redact_with_idem v :
  redact_with sensitive (redact_with sensitive v) = redact_with sensitive v.
Proof. apply redact_with_fixed, redact_with_masked. Qed.

Definition open_path (p : list step) : bool :=
  forallb (fun s => match s with Key k => negb (sensitive k) | Index _ => true end) p.

(** Outside sensitive keys nothing moves: reading along an open path commutes
    with the walk. *)
Lemma redact_with_at_path v p :
  open_path p = true ->
  at_path (redact_with sensitive v) p = redact_with sensitive <$> at_path v p.
Proof.
  revert v; induction p as [|s p IH]; intros v; simpl; [done|].
  intros [Hs Hp]%andb_true_iff.
  assert (E : child (redact_with sensitive v) s = redact_with sensitive <$> child v s).
  { destruct s as [k|i], v; simpl; try done.
    - rewrite (dget_map (fun k v => if sensitive k then redacted_mark
                                    else redact_with sensitive v)).
      destruct (dget k d); simpl; [|done]. by destruct (sensitive k).
    - by rewrite list_lookup_fmap. }
  rewrite E. destruct (child v s) as [c|]; simpl; [by apply IH|done].
Qed.

(** Under a sensitive key, whatever was there is the mark. *)
Lemma redact_with_sensitive v p k w :
  open_path p = true -> sensitive k = true ->
  at_path (redact_with sensitive v) (p ++ [Key k]) = Some w -> w = redacted_mark.
Proof.
  intros Hp Hk. revert v Hp; induction p as [|s p IH]; intros v; simpl.
  - intros _. destruct v; simpl; try done.
    rewrite (dget_map (fun k v => if sensitive k then redacted_mark
                                  else redact_with sensitive v)), Hk.
    destruct (dget k d); naive_solver.
  - intros [Hs Hp]%andb_true_iff H.
    destruct s as [j|i], v; simpl in *; try done.
    + rewrite (dget_map (fun k v => if sensitive k then redacted_mark
                                    else redact_with sensitive v)) in H.
      destruct (dget j d); simpl in H; [|done].
      destruct (sensitive j); [done|]. by eapply IH.
    + rewrite list_lookup_fmap in H. destruct (l !! i); simpl in H; [|done]. by eapply IH.
Qed.

Lemma has_secret_masked v : has_secret sensitive v = false -> masked sensitive v = true.
Proof.
  induction v as [| | | |l IH|d IH] using json_ind; simpl; try done.
  - induction IH as [|x l Hx _ IHl]; simpl; [done|].
    intros [? ?]%orb_false_iff. rewrite Hx, IHl; done.
  - induction IH as [|[k x] d Hx _ IHd]; simpl; [done|].
    intros [[-> ?]%orb_false_iff ?]%orb_false_iff. simpl in Hx. rewrite Hx, IHd; done.
Qed.

Lemma remove_with_no_secret v : has_secret sensitive (remove_with sensitive v) = false.
Proof.
  induction v as [| | | |l IH|d IH] using json_ind; simpl; try done.
  - induction IH as [|x l Hx _ IHl]; simpl; [done|]. by rewrite Hx, IHl.
  - induction IH as [|[k x] d Hx _ IHd]; simpl; [done|].
    simpl in Hx. destruct (sensitive k) eqn:E; simpl; [done|]. by rewrite E, Hx, IHd.
Qed.

Lemma remove_with_fixed v : has_secret sensitive v = false -> remove_with sensitive v = v.
Proof.
  induction v as [| | | |l IH|d IH] using json_ind; simpl; try done.
  - intros H. f_equal. induction IH as [|x l Hx _ IHl]; simpl in *; [done|].
    apply orb_false_iff in H as [H1 H2]. by rewrite Hx, IHl.
  - intros H. f_equal. induction IH as [|[k x] d Hx _ IHd]; simpl in *; [done|].
    apply orb_false_iff in H as [[-> H1]%orb_false_iff H2]; simpl. simpl in Hx. by rewrite Hx, IHd.
Qed.
End WalkLemmas.

#[export] Hint Resolve redact_with_masked redact_with_fixed has_secret_masked : redaction.

(** ** What the routines promise *)

(** in a redacted audit document every member under a sensitive key
    is the mark [REDACTED], whatever was stored there; everything that is not
    below a sensitive key reads as before (redacted below); and redacting again
    changes nothing. *)
Theorem audit_redaction (v : json) (p : list step) :
  open_path SensitiveKey p = true ->
  (forall k w, SensitiveKey k = true ->
     at_path (Redact v) (p ++ [Key k]) = Some w -> w = redacted_mark) /\
  at_path (Redact v) p = Redact <$> at_path v p /\
  Redact (Redact v) = Redact v.
Proof.
  intros H. split; [|split].
  - intros k w K. by apply redact_with_sensitive.
  - by apply redact_with_at_path.
  - apply redact_with_idem.
Qed.

Definition sample_audit : json :=
  JObj [("login", JObj [("Api_Key", JStr "k1"); ("user", JStr "ann")]); ("n", JNull)].

Lemma audit_redaction_witness :
  open_path SensitiveKey [Key "login"] = true /\
  at_path (Redact sample_audit) [Key "login"] = Redact <$> at_path sample_audit [Key "login"].
Proof.
  split; [vm_compute; reflexivity|].
  exact (proj1 (proj2 (audit_redaction sample_audit [Key "login"] eq_refl))).
Defined.

(** an environment that passes the inline-secret test is shown as it
    was stored: redaction finds nothing to hide in it. *)
Theorem accepted_environment_unredacted (v : json) :
  environmentHasInlineSecret v = false -> redactEnvironment v = v.
Proof. intros H. apply redact_with_fixed, has_secret_masked, H. Qed.

Lemma accepted_environment_unredacted_witness :
  environmentHasInlineSecret (JObj [("browser", JStr "firefox")]) = false /\
  redactEnvironment (JObj [("browser", JStr "firefox")]) = JObj [("browser", JStr "firefox")].
Proof.
  split; [vm_compute; reflexivity|].
  apply accepted_environment_unredacted. vm_compute. reflexivity.
Defined.
