(* ===== verification/JsonText.v ===== *)
(** * JSON text: encoding/json

    [json.Unmarshal] and [json.Marshal] on text, for the code that keeps raw
    members ([json.RawMessage]) and stores documents as text.  The grammar,
    string escapes, UTF-8 repair, the nesting limit and the HTML-safe output of
    [Marshal] are written out; the conversion between a number literal and a
    [float64] (strconv) is an argument. *)

From S2P Require Import Prelude GoStrings Json.

Class Floats := {
  parseFloat : string -> option float64;
  jsonFloat : float64 -> string;
}.

(** ** Bytes *)
Definition quote : ascii := byte 34.
Definition backslash : ascii := byte 92.
Definition code (c : ascii) : Z := Z.of_N (Ascii.N_of_ascii c).
Definition zbyte (z : Z) : ascii := Ascii.ascii_of_N (Z.to_N z).
Definition within (lo hi : Z) (c : ascii) : bool := (lo <=? code c) && (code c <=? hi).

Definition is_ws (c : ascii) : bool :=
  (code c =? 32) || (code c =? 9) || (code c =? 10) || (code c =? 13).

Fixpoint skip_ws (l : list ascii) : list ascii :=
  match l with
  | c :: l' => if is_ws c then skip_ws l' else l
  | [] => []
  end.

(** ** UTF-8

    A walk over the runes of a byte string: ASCII bytes, well-formed sequences
    of two, three and four bytes, and, for anything else, one invalid byte. *)
Section Runes.
Variables (on_ascii : ascii -> list ascii) (on_invalid : list ascii)
  (on_three : ascii -> ascii -> ascii -> list ascii).

Definition continuation : ascii -> bool := within 128 191.

Definition three_bytes (a b c : ascii) : bool :=
  continuation c &&
  ((code a =? 224) && within 160 191 b
   || (within 225 236 a || within 238 239 a) && continuation b
   || (code a =? 237) && within 128 159 b).

Definition four_bytes (a b c d : ascii) : bool :=
  continuation c && continuation d &&
  ((code a =? 240) && within 144 191 b
   || within 241 243 a && continuation b
   || (code a =? 244) && within 128 143 b).

Fixpoint runes (l : list ascii) : list ascii :=
  match l with
  | [] => []
  | a :: l1 =>
      if code a <? 128 then (on_ascii a ++ runes l1)%list
      else
        match l1 with
        | b :: l2 =>
            if within 194 223 a && continuation b then a :: b :: runes l2
            else
              match l2 with
              | c :: l3 =>
                  if three_bytes a b c then (on_three a b c ++ runes l3)%list
                  else
                    match l3 with
                    | d :: l4 =>
                        if four_bytes a b c d then a :: b :: c :: d :: runes l4
                        else (on_invalid ++ runes l1)%list
                    | [] => (on_invalid ++ runes l1)%list
                    end
              | [] => (on_invalid ++ runes l1)%list
              end
        | [] => (on_invalid ++ runes l1)%list
        end
  end.
End Runes.

(** U+FFFD. *)
Definition replacement : list ascii := [byte 239; byte 191; byte 189].

Definition sanitize : list ascii -> list ascii :=
  runes (fun c => [c]) replacement (fun a b c => [a; b; c]).

(** The UTF-8 encoding of a code point. *)
Definition utf8 (u : Z) : list ascii :=
  if u <? 128 then [zbyte u]
  else if u <? 2048 then [zbyte (192 + u / 64); zbyte (128 + u mod 64)]
  else if u <? 65536 then
    [zbyte (224 + u / 4096); zbyte (128 + u / 64 mod 64); zbyte (128 + u mod 64)]
  else [zbyte (240 + u / 262144); zbyte (128 + u / 4096 mod 64);
        zbyte (128 + u / 64 mod 64); zbyte (128 + u mod 64)].

(** ** Strings *)
Definition hex_code (c : ascii) : option Z :=
  if within 48 57 c then Some (code c - 48)
  else if within 97 102 c then Some (code c - 87)
  else if within 65 70 c then Some (code c - 55)
  else None.

Definition hex4 (a b c d : ascii) : option Z :=
  w ← hex_code a; x ← hex_code b; y ← hex_code c; z ← hex_code d;
  Some (((w * 16 + x) * 16 + y) * 16 + z).

Definition simple_escape (c : ascii) : option ascii :=
  let z := code c in
  if (z =? 34) || (z =? 92) || (z =? 47) then Some c
  else if z =? 98 then Some (byte 8)
  else if z =? 102 then Some (byte 12)
  else if z =? 110 then Some (byte 10)
  else if z =? 114 then Some (byte 13)
  else if z =? 116 then Some (byte 9)
  else None.

Definition low_surrogate (u : Z) : bool := (56320 <=? u) && (u <? 57344).
Definition surrogate (u : Z) : bool := (55296 <=? u) && (u <? 57344).

Definition emit (bytes : list ascii) (rest : option (list ascii * list ascii))
  : option (list ascii * list ascii) :=
  '(s, r) ← rest; Some ((bytes ++ s)%list, r).

(** The second half of a surrogate pair, when the text goes on with one. *)
Definition low_half (l : list ascii) : option Z :=
  match l with
  | b :: v :: k1 :: k2 :: k3 :: k4 :: _ =>
      if Ascii.eqb b backslash && Ascii.eqb v "u"%char
      then w ← hex4 k1 k2 k3 k4; if low_surrogate w then Some w else None
      else None
  | _ => None
  end.

(** What follows an opening quote: the bytes of the string and the rest.  A
    surrogate without its pair is U+FFFD. *)
Fixpoint string_body (l : list ascii) : option (list ascii * list ascii) :=
  match l with
  | [] => None
  | c :: l1 =>
      if Ascii.eqb c quote then Some ([], l1)
      else if Ascii.eqb c backslash then
        match l1 with
        | [] => None
        | e :: l2 =>
            if Ascii.eqb e "u"%char then
              match l2 with
              | h1 :: h2 :: h3 :: h4 :: l3 =>
                  match hex4 h1 h2 h3 h4, low_half l3, l3 with
                  | None, _, _ => None
                  | Some u, Some w, _ :: _ :: _ :: _ :: _ :: _ :: l4 =>
                      if negb (surrogate u) then emit (utf8 u) (string_body l3)
                      else if low_surrogate u then emit replacement (string_body l3)
                      else emit (utf8 (65536 + (u - 55296) * 1024 + (w - 56320))) (string_body l4)
                  | Some u, _, _ =>
                      emit (if surrogate u then replacement else utf8 u) (string_body l3)
                  end
              | _ => None
              end
            else
              match simple_escape e with
              | Some x => emit [x] (string_body l2)
              | None => None
              end
        end
      else if code c <? 32 then None
      else emit [c] (string_body l1)
  end.

Definition parse_string (l : list ascii) : option (string * list ascii) :=
  '(s, r) ← string_body l; Some (of_chars (sanitize s), r).

(** ** Numbers *)
Definition is_digit : ascii -> bool := within 48 57.

Fixpoint span_digits (l : list ascii) : list ascii * list ascii :=
  match l with
  | c :: l' => if is_digit c then let '(d, r) := span_digits l' in (c :: d, r) else ([], l)
  | [] => ([], [])
  end.

(** One digit or more. *)
Definition digits1 (l : list ascii) : option (list ascii * list ascii) :=
  let '(d, r) := span_digits l in match d with [] => None | _ => Some (d, r) end.

Definition int_part (l : list ascii) : option (list ascii * list ascii) :=
  match l with
  | c :: l' => if Ascii.eqb c "0"%char then Some ([c], l') else digits1 l
  | [] => None
  end.

Definition frac_part (l : list ascii) : option (list ascii * list ascii) :=
  match l with
  | c :: l' => if Ascii.eqb c "."%char then '(d, r) ← digits1 l'; Some (c :: d, r)
               else Some ([], l)
  | [] => Some ([], [])
  end.

Definition exp_part (l : list ascii) : option (list ascii * list ascii) :=
  match l with
  | c :: l' =>
      if Ascii.eqb c "e"%char || Ascii.eqb c "E"%char then
        match l' with
        | s :: l'' =>
            if Ascii.eqb s "+"%char || Ascii.eqb s "-"%char
            then '(d, r) ← digits1 l''; Some (c :: s :: d, r)
            else '(d, r) ← digits1 l'; Some (c :: d, r)
        | [] => None
        end
      else Some ([], l)
  | [] => Some ([], [])
  end.

Definition number (l : list ascii) : option (string * list ascii) :=
  let '(sign, l0) := match l with
                     | c :: l' => if Ascii.eqb c "-"%char then ([c], l') else ([], l)
                     | [] => ([], [])
                     end in
  '(i, l1) ← int_part l0;
  '(f, l2) ← frac_part l1;
  '(e, l3) ← exp_part l2;
  Some (of_chars (sign ++ i ++ f ++ e)%list, l3).

(** ** Values: members in document order, numbers as their literal *)
Inductive syntax :=
| SNull
| SBool (b : bool)
| SNum (literal : string)
| SStr (s : string)
| SArr (l : list syntax)
| SObj (d : list (string * syntax)).

(** encoding/json's maxNestingDepth. *)
Definition maxNestingDepth : Z := 10000.

Definition expect_text (t : string) (v : syntax) (l : list ascii) : option (syntax * list ascii) :=
  if is_prefix (chars t) l then Some (v, drop (String.length t) l) else None.

(** A member keeps the text of its value beside the value. *)
Definition member : Type := string * (string * syntax).
Definition forget_text (m : member) : string * syntax := (fst m, snd (snd m)).

Fixpoint value (fuel : nat) (depth : Z) (l : list ascii) : option (syntax * list ascii) :=
  match fuel, l with
  | S fuel', c :: l' =>
      if Ascii.eqb c "{"%char then
        if maxNestingDepth <=? depth then None
        else '(d, r) ← object fuel' (depth + 1) l'; Some (SObj (map forget_text d), r)
      else if Ascii.eqb c "["%char then
        if maxNestingDepth <=? depth then None
        else
          match skip_ws l' with
          | e :: r => if Ascii.eqb e "]"%char then Some (SArr [], r)
                      else '(vs, r) ← elements fuel' (depth + 1) (e :: r); Some (SArr vs, r)
          | [] => None
          end
      else if Ascii.eqb c quote then '(s, r) ← parse_string l'; Some (SStr s, r)
      else if Ascii.eqb c "n"%char then expect_text "null" SNull l
      else if Ascii.eqb c "t"%char then expect_text "true" (SBool true) l
      else if Ascii.eqb c "f"%char then expect_text "false" (SBool false) l
      else '(t, r) ← number l; Some (SNum t, r)
  | _, _ => None
  end
with elements (fuel : nat) (depth : Z) (l : list ascii) : option (list syntax * list ascii) :=
  match fuel with
  | S fuel' =>
      '(v, r) ← value fuel' depth l;
      match skip_ws r with
      | e :: r' =>
          if Ascii.eqb e ","%char
          then '(vs, r'') ← elements fuel' depth (skip_ws r'); Some (v :: vs, r'')
          else if Ascii.eqb e "]"%char then Some ([v], r') else None
      | [] => None
      end
  | O => None
  end
with object (fuel : nat) (depth : Z) (l : list ascii) : option (list member * list ascii) :=
  match fuel, skip_ws l with
  | S fuel', e :: r => if Ascii.eqb e "}"%char then Some ([], r) else members fuel' depth (e :: r)
  | _, _ => None
  end
with members (fuel : nat) (depth : Z) (l : list ascii) : option (list member * list ascii) :=
  match fuel, l with
  | S fuel', q :: l1 =>
      if Ascii.eqb q quote then
        '(k, l2) ← parse_string l1;
        match skip_ws l2 with
        | c :: l3 =>
            if Ascii.eqb c ":"%char then
              let l4 := skip_ws l3 in
              '(v, r) ← value fuel' depth l4;
              let raw := of_chars (take (length l4 - length r) l4) in
              match skip_ws r with
              | e :: r' =>
                  if Ascii.eqb e ","%char
                  then '(ms, r'') ← members fuel' depth (skip_ws r'); Some ((k, (raw, v)) :: ms, r'')
                  else if Ascii.eqb e "}"%char then Some ([(k, (raw, v))], r') else None
              | [] => None
              end
            else None
        | [] => None
        end
      else None
  | _, _ => None
  end.

(** Every call but one in three eats a byte, so three times the length is enough
    fuel ([value_fuel]). *)
Definition text_fuel (l : list ascii) : nat := 3 * length l + 3.

Definition at_end {A} (o : option (A * list ascii)) : option A :=
  '(a, r) ← o; match skip_ws r with [] => Some a | _ => None end.

Definition parse_text (s : string) : option syntax :=
  let l := skip_ws (chars s) in at_end (value (text_fuel l) 0 l).

(** ** [json.Unmarshal] into the types the code uses *)
Section Unmarshal.
Context `{F : Floats}.

(** Into [any]: a literal out of the range of [float64] is an error. *)
Fixpoint value_of (v : syntax) : option json :=
  match v with
  | SNull => Some JNull
  | SBool b => Some (JBool b)
  | SNum t => JNum <$> parseFloat t
  | SStr s => Some (JStr s)
  | SArr l =>
      JArr <$> (fix go l := match l with
                            | [] => Some []
                            | x :: l' => y ← value_of x; ys ← go l'; Some (y :: ys)
                            end) l
  | SObj d =>
      (fun m => JObj (dict_of_list m)) <$>
      (fix go d := match d with
                   | [] => Some []
                   | (k, x) :: d' => y ← value_of x; ys ← go d'; Some ((k, y) :: ys)
                   end) d
  end.

Definition unmarshalAny (s : string) : option json := v ← parse_text s; value_of v.
End Unmarshal.

(** Into [map[string]json.RawMessage]; [Some None] is the nil map a null leaves. *)
Definition unmarshalRawObject (s : string) : option (option (dict string)) :=
  match skip_ws (chars s) with
  | c :: l =>
      if Ascii.eqb c "{"%char
      then ms ← at_end (object (text_fuel l) 1 l);
           Some (Some (dict_of_list (map (fun m => (fst m, fst (snd m))) ms)))
      else v ← parse_text s; match v with SNull => Some None | _ => None end
  | [] => None
  end.

(** Into an [int64] or a [string] that starts at its zero value; null leaves it. *)
Definition unmarshalInt64 (s : string) : option Z :=
  v ← parse_text s;
  match v with SNum t => parseInt t | SNull => Some 0 | _ => None end.

Definition unmarshalString (s : string) : option string :=
  v ← parse_text s;
  match v with SStr t => Some t | SNull => Some "" | _ => None end.

(** Into a slice of raw messages: does it succeed? *)
Definition unmarshalsToSlice (s : string) : bool :=
  match parse_text s with Some (SArr _) | Some SNull => true | _ => false end.

(** ** [json.Marshal] *)
Definition hex_lower (n : Z) : ascii := hex_digit (Z.to_nat n).

Definition u00 (c : ascii) : list ascii :=
  (backslash :: chars "u00" ++ [hex_lower (code c / 16); hex_lower (code c mod 16)])%list.

Definition escape_ascii (c : ascii) : list ascii :=
  let z := code c in
  if (z =? 34) || (z =? 92) then [backslash; c]
  else if z =? 8 then [backslash; "b"%char]
  else if z =? 12 then [backslash; "f"%char]
  else if z =? 10 then [backslash; "n"%char]
  else if z =? 13 then [backslash; "r"%char]
  else if z =? 9 then [backslash; "t"%char]
  else if (z <? 32) || (z =? 60) || (z =? 62) || (z =? 38) then u00 c
  else [c].

(** U+2028 and U+2029 are escaped too. *)
Definition escape_three (a b c : ascii) : list ascii :=
  if (code a =? 226) && (code b =? 128) && ((code c =? 168) || (code c =? 169))
  then (backslash :: chars "u202" ++ [hex_lower (code c mod 16)])%list
  else [a; b; c].

Definition marshal_string (s : string) : list ascii :=
  (quote :: runes escape_ascii (backslash :: chars "ufffd") escape_three (chars s) ++ [quote])%list.

Fixpoint comma_separated (l : list (list ascii)) : list ascii :=
  match l with
  | [] => []
  | [x] => x
  | x :: l' => (x ++ ","%char :: comma_separated l')%list
  end.

Section Marshal.
Context `{F : Floats}.

Fixpoint marshal_chars (v : json) : list ascii :=
  match v with
  | JNull => chars "null"
  | JBool b => chars (if b then "true" else "false")
  | JNum x => chars (jsonFloat x)
  | JStr s => marshal_string s
  | JArr l => ("["%char :: comma_separated (map marshal_chars l) ++ ["]"%char])%list
  | JObj d =>
      ("{"%char :: comma_separated
         (map (fun kv => (marshal_string (fst kv) ++ ":"%char :: marshal_chars (snd kv))%list) d)
       ++ ["}"%char])%list
  end.

Definition marshal (v : json) : string := of_chars (marshal_chars v).
End Marshal.

(** ** The parser never grows its input, and its fuel is enough *)
Lemma skip_ws_length l : (length (skip_ws l) <= length l)%nat.
Proof. induction l as [|c l IH]; simpl; [lia|]. case_match; simpl; lia. Qed.

Lemma emit_some b o s r : emit b o = Some (s, r) -> exists s', o = Some (s', r).
Proof. unfold emit. destruct o as [[s' r']|]; naive_solver. Qed.

Lemma string_body_shrinks n l s r :
  (length l <= n)%nat -> string_body l = Some (s, r) -> (length r < length l)%nat.
Proof.
  revert l s r. induction n as [|n IH]; intros [|c l] s r; cbn [length]; [done|lia|done|].
  assert (IH' : forall b l' s' r', (length l' <= length l)%nat -> (length l <= n)%nat ->
                  emit b (string_body l') = Some (s', r') -> (length r' < S (length l))%nat).
  { intros b l' s' r' L L' [s'' H]%emit_some. apply IH in H; lia. }
  cbn [string_body]. intros L.
  destruct (Ascii.eqb c quote); [intros [= <- <-]; lia|].
  destruct (Ascii.eqb c backslash).
  2:{ destruct (code c <? 32); [done|]. apply IH'; lia. }
  destruct l as [|e l2]; [done|].
  destruct (Ascii.eqb e "u"%char).
  2:{ destruct (simple_escape e); [|done]. apply IH'; simpl in *; lia. }
  destruct l2 as [|h1 [|h2 [|h3 [|h4 l3]]]]; try done.
  destruct (hex4 h1 h2 h3 h4); [|done]. simpl in IH', L.
  destruct (low_half l3) as [w|] eqn:E; [|apply IH'; simpl in *; lia].
  destruct l3 as [|k1 [|k2 [|k3 [|k4 [|k5 [|k6 l4]]]]]]; try done.
  case_match; [apply IH'; simpl in *; lia|]. case_match; apply IH'; simpl in *; lia.
Qed.

Lemma parse_string_length l s r : parse_string l = Some (s, r) -> (length r < length l)%nat.
Proof.
  unfold parse_string. destruct (string_body l) as [[b r']|] eqn:E; [|done].
  intros [= <- <-]. by eapply string_body_shrinks.
Qed.

Lemma span_digits_length l d r : span_digits l = (d, r) -> (length r <= length l)%nat.
Proof.
  revert d r. induction l as [|c l IH]; intros d r; simpl; [by intros [= <- <-]|].
  destruct (is_digit c); [|by intros [= <- <-]].
  destruct (span_digits l) as [d' r'] eqn:E. intros [= <- <-]. specialize (IH _ _ eq_refl). lia.
Qed.

Lemma digits1_length l d r : digits1 l = Some (d, r) -> (length r <= length l)%nat.
Proof.
  unfold digits1. destruct (span_digits l) as [d' r'] eqn:E. apply span_digits_length in E.
  destruct d'; intros [= <- <-]; done.
Qed.

Lemma number_length l s r : number l = Some (s, r) -> (length r <= length l)%nat.
Proof.
  unfold number. destruct (match l with [] => _ | _ => _ end) as [sg l0] eqn:E0.
  assert (L0 : (length l0 <= length l)%nat).
  { destruct l as [|c l]; [by injection E0 as <- <-|]. case_match; injection E0 as <- <-; simpl; lia. }
  clear E0. intros ([i l1] & E1 & H)%bind_Some.
  apply bind_Some in H as ([f l2] & E2 & H). apply bind_Some in H as ([e l3] & E3 & [= <- <-]).
  assert (length l1 <= length l0)%nat.
  { unfold int_part in E1. destruct l0; [done|]. case_match; simplify_eq/=; [lia|].
    by apply digits1_length in E1. }
  assert (length l2 <= length l1)%nat.
  { unfold frac_part in E2. destruct l1; [by injection E2 as <- <-|]. case_match; simplify_eq/=; [|lia].
    apply bind_Some in E2 as ([? ?] & E & [= <- <-]). apply digits1_length in E. lia. }
  assert (length l3 <= length l2)%nat; [|lia].
  unfold exp_part in E3. destruct l2 as [|c l2]; [by injection E3 as <- <-|].
  case_match; [|by injection E3 as <- <-]. destruct l2 as [|x l2]; [done|].
  case_match; apply bind_Some in E3 as ([? ?] & E & [= <- <-]); apply digits1_length in E;
    simpl in *; lia.
Qed.

(** What the mutually recursive parsers leave of their input. *)
Lemma expect_text_length t v l v' r : expect_text t v l = Some (v', r) -> (length r <= length l)%nat.
Proof. unfold expect_text. case_match; intros [= <- <-]. rewrite length_drop. lia. Qed.

Lemma parsers_shrink n :
  (forall d l v r, value n d l = Some (v, r) -> (length r <= length l)%nat) /\
  (forall d l v r, elements n d l = Some (v, r) -> (length r <= length l)%nat) /\
  (forall d l v r, object n d l = Some (v, r) -> (length r <= length l)%nat) /\
  (forall d l v r, members n d l = Some (v, r) -> (length r <= length l)%nat).
Proof.
  induction n as [|n (IHv & IHe & IHo & IHm)]; [done|].
  repeat split; intros d l v r.
  - destruct l as [|c l]; [done|]. cbn [value].
    case_match.
    { case_match; [done|]. intros ([x y] & E & [= <- <-])%bind_Some. apply IHo in E. simpl. lia. }
    case_match.
    { case_match; [done|]. pose proof (skip_ws_length l). case_match; [done|].
      case_match; [intros [= <- <-]; simpl in *; lia|].
      intros ([x y] & E & [= <- <-])%bind_Some. apply IHe in E. simpl in *. lia. }
    case_match.
    { intros ([x y] & E & [= <- <-])%bind_Some. apply parse_string_length in E. simpl. lia. }
    do 3 (case_match; [apply expect_text_length|]).
    intros ([x y] & E & [= <- <-])%bind_Some. by apply number_length in E.
  - cbn [elements]. intros ([x y] & E & H)%bind_Some. apply IHv in E.
    pose proof (skip_ws_length y). destruct (skip_ws y) as [|e r']; [done|]. simpl in *.
    pose proof (skip_ws_length r'). case_match.
    + apply bind_Some in H as ([? ?] & E' & [= <- <-]). apply IHe in E'. lia.
    + case_match; [|done]. injection H as <- <-. lia.
  - cbn [object]. pose proof (skip_ws_length l). destruct (skip_ws l) as [|e r']; [done|].
    case_match; [intros [= <- <-]; simpl in *; lia|]. intros H'%IHm. lia.
  - destruct l as [|q l1]; [done|]. cbn [members]. case_match; [|done].
    intros ([k l2] & E & H')%bind_Some. apply parse_string_length in E.
    pose proof (skip_ws_length l2). destruct (skip_ws l2) as [|c l3]; [done|].
    case_match; [|done]. pose proof (skip_ws_length l3).
    apply bind_Some in H' as ([x y] & E' & H'). apply IHv in E'.
    pose proof (skip_ws_length y). destruct (skip_ws y) as [|e r']; [done|].
    pose proof (skip_ws_length r'). simpl in *. case_match.
    + apply bind_Some in H' as ([? ?] & E2 & [= <- <-]). apply IHm in E2. lia.
    + case_match; [|done]. injection H' as <- <-. lia.
Qed.

Lemma bind_ext {A B} (o : option A) (f g : A -> option B) :
  (forall a, o = Some a -> f a = g a) -> (o ≫= f) = (o ≫= g).
Proof. destruct o; simpl; auto. Qed.

(** Any two amounts of fuel above three per byte agree. *)
Lemma parsers_fuel n :
  forall m,
  (forall d l, (3 * length l < n)%nat -> (3 * length l < m)%nat -> value n d l = value m d l) /\
  (forall d l, (3 * length l + 1 < n)%nat -> (3 * length l + 1 < m)%nat ->
     elements n d l = elements m d l) /\
  (forall d l, (3 * length l + 1 < n)%nat -> (3 * length l + 1 < m)%nat ->
     object n d l = object m d l) /\
  (forall d l, (3 * length l < n)%nat -> (3 * length l < m)%nat -> members n d l = members m d l).
Proof.
  induction n as [|n IH]; intros m; [repeat split; intros; lia|].
  destruct m as [|m]; [repeat split; intros; lia|].
  destruct (IH m) as (IHv & IHe & IHo & IHm). destruct (parsers_shrink n) as (Sv & Se & So & Sm).
  repeat split; intros d l Hn Hm.
  - destruct l as [|c l]; [done|]. cbn [value]. cbn [length] in *.
    case_match. { case_match; [done|]. rewrite (IHo (d + 1) l); [done|lia..]. }
    case_match; [|done]. case_match; [done|]. pose proof (skip_ws_length l).
    destruct (skip_ws l) as [|e r]; [done|]. cbn [length] in *.
    case_match; [done|]. rewrite (IHe (d + 1) (e :: r)); [done|cbn [length]; lia..].
  - cbn [elements]. rewrite <- (IHv d l) by lia. apply bind_ext. intros [v r] E. apply Sv in E.
    pose proof (skip_ws_length r). destruct (skip_ws r) as [|e r']; [done|].
    pose proof (skip_ws_length r'). cbn [length] in *. case_match; [|done].
    rewrite (IHe d (skip_ws r')); [done|lia..].
  - cbn [object]. pose proof (skip_ws_length l). destruct (skip_ws l) as [|e r]; [done|].
    case_match; [done|]. apply IHm; lia.
  - destruct l as [|q l1]; [done|]. cbn [members]. cbn [length] in *. case_match; [|done].
    apply bind_ext. intros [k l2] E. apply parse_string_length in E.
    pose proof (skip_ws_length l2). destruct (skip_ws l2) as [|c l3]; [done|].
    case_match; [|done]. pose proof (skip_ws_length l3). cbn [length] in *. cbv zeta.
    rewrite <- (IHv d (skip_ws l3)) by lia. apply bind_ext. intros [x y] E'. apply Sv in E'.
    pose proof (skip_ws_length y). destruct (skip_ws y) as [|e r']; [done|].
    pose proof (skip_ws_length r'). cbn [length] in *. case_match; [|done].
    rewrite (IHm d (skip_ws r')); [done|lia..].
Qed.

(** The fuel of [parse_text] is enough: more of it changes nothing. *)
Lemma value_fuel l d n : (text_fuel l <= n)%nat -> value n d l = value (text_fuel l) d l.
Proof. unfold text_fuel. intros. apply (parsers_fuel n (3 * length l + 3)); lia. Qed.

Lemma object_fuel l d n : (text_fuel l <= n)%nat -> object n d l = object (text_fuel l) d l.
Proof. unfold text_fuel. intros. apply (parsers_fuel n (3 * length l + 3)); lia. Qed.
