(* ===== verification/JsonRoundTrip.v ===== *)
(** * JSON text: what [json.Marshal] writes reads back

    The strings and the documents that [Marshal] writes are the ones that [Unmarshal]
    reads.  Invalid UTF-8 is repaired once, on the way out, and a document that was
    decoded once keeps its value ([marshal_decoded]). *)

From stdpp Require Import pretty.
From S2P Require Import Prelude GoStrings Json JsonText.

(** ** UTF-8 *)

(** Induction along the runes of a text. *)
Section RuneInduction.
Variables (f : ascii -> list ascii) (bad : list ascii) (g : ascii -> ascii -> ascii -> list ascii).

Lemma runes_ascii a l : code a <? 128 = true -> runes f bad g (a :: l) = (f a ++ runes f bad g l)%list.
Proof. intros E. cbn [runes]. by rewrite E. Qed.

Lemma runes_two a b l :
  code a <? 128 = false -> within 194 223 a && continuation b = true ->
  runes f bad g (a :: b :: l) = (a :: b :: runes f bad g l)%list.
Proof. intros E1 E2. cbn [runes]. by rewrite E1, E2. Qed.

Lemma runes_three a b c l :
  code a <? 128 = false -> within 194 223 a && continuation b = false -> three_bytes a b c = true ->
  runes f bad g (a :: b :: c :: l) = (g a b c ++ runes f bad g l)%list.
Proof. intros E1 E2 E3. cbn [runes]. by rewrite E1, E2, E3. Qed.

Lemma runes_four a b c d l :
  code a <? 128 = false -> within 194 223 a && continuation b = false -> three_bytes a b c = false ->
  four_bytes a b c d = true ->
  runes f bad g (a :: b :: c :: d :: l) = (a :: b :: c :: d :: runes f bad g l)%list.
Proof. intros E1 E2 E3 E4. cbn [runes]. by rewrite E1, E2, E3, E4. Qed.
End RuneInduction.

(** The cases of a non-empty text: the head rune, or an invalid byte. *)
Inductive head_rune : list ascii -> list ascii -> Prop :=
| HeadAscii a l : code a <? 128 = true -> head_rune (a :: l) l
| HeadTwo a b l : code a <? 128 = false -> within 194 223 a && continuation b = true ->
    head_rune (a :: b :: l) l
| HeadThree a b c l : code a <? 128 = false -> within 194 223 a && continuation b = false ->
    three_bytes a b c = true -> head_rune (a :: b :: c :: l) l
| HeadFour a b c d l : code a <? 128 = false -> within 194 223 a && continuation b = false ->
    three_bytes a b c = false -> four_bytes a b c d = true -> head_rune (a :: b :: c :: d :: l) l
| HeadInvalid a l : code a <? 128 = false ->
    (forall f bad g, runes f bad g (a :: l) = (bad ++ runes f bad g l)%list) -> head_rune (a :: l) l.

Lemma head_rune_cases a l : exists l', head_rune (a :: l) l' /\ (length l' <= length l)%nat.
Proof.
  destruct (code a <? 128) eqn:E1; [exists l; by split; [constructor|]|].
  destruct l as [|b l2].
  { exists []. split; [|done]. apply HeadInvalid; [done|]. intros. cbn [runes]. by rewrite E1. }
  destruct (within 194 223 a && continuation b) eqn:E2; [exists l2; split; [by constructor|simpl; lia]|].
  destruct l2 as [|c l3].
  { exists [b]. split; [|done]. apply HeadInvalid; [done|]. intros. cbn [runes]. by rewrite E1, E2. }
  destruct (three_bytes a b c) eqn:E3; [exists l3; split; [by constructor|simpl; lia]|].
  destruct l3 as [|d l4].
  { exists [b; c]. split; [|done]. apply HeadInvalid; [done|]. intros. cbn [runes]. by rewrite E1, E2, E3. }
  destruct (four_bytes a b c d) eqn:E4; [exists l4; split; [by constructor|simpl; lia]|].
  exists (b :: c :: d :: l4). split; [|done]. apply HeadInvalid; [done|]. intros. cbn [runes]. by rewrite E1, E2, E3, E4.
Qed.

Lemma runes_ind (P : list ascii -> Prop) :
  P [] -> (forall l l', head_rune l l' -> P l' -> P l) -> forall l, P l.
Proof.
  intros H0 H l. remember (length l) as n eqn:E. assert (L : (length l <= n)%nat) by lia. clear E.
  revert l L. induction n as [|n IH]; intros [|a l] L; try done; [simpl in L; lia|].
  destruct (head_rune_cases a l) as (l' & R & L'). apply (H _ _ R). apply IH. simpl in L. lia.
Qed.

Lemma sanitize_ascii a l : code a <? 128 = true -> sanitize (a :: l) = a :: sanitize l.
Proof. intros E. unfold sanitize. by rewrite runes_ascii. Qed.

Lemma sanitize_replacement l : sanitize (replacement ++ l) = (replacement ++ sanitize l)%list.
Proof. unfold sanitize, replacement. cbn [app]. by rewrite runes_three by reflexivity. Qed.

(** The repaired text is well formed. *)
Lemma sanitize_idem l : sanitize (sanitize l) = sanitize l.
Proof.
  induction l as [|l l' R IH] using runes_ind; [done|]. destruct R as [a l E|a b l E1 E2|a b c l E1 E2 E3|a b c d l E1 E2 E3 E4|a l E1 E2].
  - by rewrite !sanitize_ascii, IH by done.
  - unfold sanitize in *. by rewrite !runes_two, IH by done.
  - unfold sanitize in *. rewrite !runes_three by done. cbn [app]. rewrite runes_three, IH by done. done.
  - unfold sanitize in *. by rewrite !runes_four, IH by done.
  - assert (E3 : sanitize (a :: l) = (replacement ++ sanitize l)%list) by apply E2.
    by rewrite E3, sanitize_replacement, IH.
Qed.

(** ** Strings *)
Lemma string_body_quote l : string_body (quote :: l) = Some ([], l).
Proof. done. Qed.

(** A byte that stands for itself. *)
Definition raw (c : ascii) : bool :=
  negb (Ascii.eqb c quote) && negb (Ascii.eqb c backslash) && negb (code c <? 32).

Lemma string_body_raw c l : raw c = true -> string_body (c :: l) = emit [c] (string_body l).
Proof.
  unfold raw. rewrite !andb_true_iff, !negb_true_iff. intros [[E1 E2] E3]. cbn [string_body].
  by rewrite E1, E2, E3.
Qed.

Lemma high_raw c : code c <? 128 = false -> raw c = true.
Proof.
  intros E. unfold raw. destruct (Ascii.eqb_spec c quote) as [->|]; [discriminate E|].
  destruct (Ascii.eqb_spec c backslash) as [->|]; [discriminate E|]. apply Z.ltb_ge in E.
  cbn. apply negb_true_iff, Z.ltb_ge. lia.
Qed.

(** A finite check over the bytes. *)
Definition all_bytes (P : ascii -> bool) : bool := forallb (fun n => P (byte n)) (seq 0 256).

Lemma all_bytes_spec P c : all_bytes P = true -> P c = true.
Proof.
  unfold all_bytes. rewrite forallb_forall. intros H.
  rewrite <- (Ascii.ascii_nat_embedding c). apply (H (Ascii.nat_of_ascii c)). apply in_seq.
  pose proof (Ascii.nat_ascii_bounded c). lia.
Qed.

Lemma code_zbyte c : zbyte (code c) = c.
Proof. unfold zbyte, code. by rewrite N2Z.id, Ascii.ascii_N_embedding. Qed.

Lemma code_inj c c' : code c = code c' -> c = c'.
Proof. intros E. by rewrite <- (code_zbyte c), E, code_zbyte. Qed.

Lemma string_body_u h1 h2 h3 h4 u l :
  hex4 h1 h2 h3 h4 = Some u -> surrogate u = false ->
  string_body (backslash :: "u"%char :: h1 :: h2 :: h3 :: h4 :: l) = emit (utf8 u) (string_body l).
Proof.
  intros E1 E2. change (string_body (backslash :: "u"%char :: h1 :: h2 :: h3 :: h4 :: l))
    with (match hex4 h1 h2 h3 h4, low_half l, l with
          | None, _, _ => None
          | Some u, Some w, _ :: _ :: _ :: _ :: _ :: _ :: l4 =>
              if negb (surrogate u) then emit (utf8 u) (string_body l)
              else if low_surrogate u then emit replacement (string_body l)
              else emit (utf8 (65536 + (u - 55296) * 1024 + (w - 56320))) (string_body l4)
          | Some u, _, _ => emit (if surrogate u then replacement else utf8 u) (string_body l)
          end). rewrite E1, E2.
  destruct (low_half l); [|done]. by destruct l as [|? [|? [|? [|? [|? [|? ?]]]]]].
Qed.

(** An ASCII byte is written as itself, as a two-character escape or as a code. *)
Definition escaped (a : ascii) : bool :=
  match escape_ascii a with
  | [c] => Ascii.eqb c a && raw c
  | [b; e] => Ascii.eqb b backslash && negb (Ascii.eqb e "u"%char) && bool_decide (simple_escape e = Some a)
  | [b; u; h1; h2; h3; h4] =>
      Ascii.eqb b backslash && Ascii.eqb u "u"%char && bool_decide (hex4 h1 h2 h3 h4 = Some (code a))
  | _ => false
  end.

Lemma escape_ascii_cases a : code a <? 128 = true -> escaped a = true.
Proof.
  intros E.
  pose proof (all_bytes_spec (fun a => implb (code a <? 128) (escaped a)) a ltac:(by vm_compute)) as H.
  cbn beta in H. by rewrite E in H.
Qed.

Lemma string_body_escape a l :
  code a <? 128 = true -> string_body (escape_ascii a ++ l) = emit [a] (string_body l).
Proof.
  intros E. pose proof (escape_ascii_cases a E) as H. unfold escaped in H.
  destruct (escape_ascii a) as [|c [|e [|h1 [|h2 [|h3 [|h4 [|? ?]]]]]]]; try discriminate H.
  - apply andb_true_iff in H as [->%Ascii.eqb_eq R]. by apply string_body_raw.
  - rewrite !andb_true_iff, negb_true_iff, bool_decide_eq_true in H. destruct H as [[->%Ascii.eqb_eq U] S].
    cbn [app string_body]. by rewrite U, S.
  - rewrite !andb_true_iff, bool_decide_eq_true in H. destruct H as [[->%Ascii.eqb_eq ->%Ascii.eqb_eq] X].
    cbn [app]. apply Z.ltb_lt in E. rewrite (string_body_u _ _ _ _ _ _ X).
    + unfold utf8. apply Z.ltb_lt in E. rewrite E. by rewrite code_zbyte.
    + unfold surrogate. apply andb_false_iff. left. apply Z.leb_gt. lia.
Qed.

Lemma continuation_high b : continuation b = true -> code b <? 128 = false.
Proof. unfold continuation, within. rewrite andb_true_iff, Z.leb_le, Z.ltb_ge. lia. Qed.

Lemma within_high lo hi b : 128 <= lo -> within lo hi b = true -> code b <? 128 = false.
Proof. unfold within. rewrite andb_true_iff, !Z.leb_le, Z.ltb_ge. lia. Qed.

Lemma three_bytes_high a b c : three_bytes a b c = true -> code b <? 128 = false /\ code c <? 128 = false.
Proof.
  unfold three_bytes. rewrite !andb_true_iff, !orb_true_iff, !andb_true_iff. intros [C H].
  split; [|by apply continuation_high].
  destruct H as [[[_ H]|[_ H]]|[_ H]]; [eapply within_high, H; lia|by apply continuation_high|eapply within_high, H; lia].
Qed.

Lemma four_bytes_high a b c d :
  four_bytes a b c d = true -> code b <? 128 = false /\ code c <? 128 = false /\ code d <? 128 = false.
Proof.
  unfold four_bytes. rewrite !andb_true_iff, !orb_true_iff, !andb_true_iff. intros [[C D] H].
  split_and!; [|by apply continuation_high..].
  destruct H as [[[_ H]|[_ H]]|[_ H]]; [eapply within_high, H; lia|by apply continuation_high|eapply within_high, H; lia].
Qed.

Lemma emit_app a b o : emit (a ++ b) o = emit a (emit b o).
Proof. destruct o as [[s r]|]; [|done]. cbn. by rewrite app_assoc. Qed.

Lemma string_body_high cs l :
  Forall (fun c => code c <? 128 = false) cs -> string_body (cs ++ l) = emit cs (string_body l).
Proof.
  induction 1 as [|c cs E _ IH]; [cbn [app]; by destruct (string_body l) as [[]|]|].
  cbn [app]. rewrite string_body_raw by by apply high_raw. by rewrite IH, <- emit_app.
Qed.

Lemma string_body_three a b c l :
  code a <? 128 = false -> three_bytes a b c = true ->
  string_body (escape_three a b c ++ l) = emit [a; b; c] (string_body l).
Proof.
  intros A [B C]%three_bytes_high. unfold escape_three.
  destruct (_ && _) eqn:E; [|apply string_body_high; repeat constructor; done].
  rewrite !andb_true_iff, orb_true_iff, !Z.eqb_eq in E. destruct E as [[Ea Eb] Ec].
  apply (code_inj a (byte 226)) in Ea as ->. apply (code_inj b (byte 128)) in Eb as ->.
  destruct Ec as [Ec|Ec]; [apply (code_inj c (byte 168)) in Ec as ->|apply (code_inj c (byte 169)) in Ec as ->].
  - by apply (string_body_u _ _ _ _ 8232).
  - by apply (string_body_u _ _ _ _ 8233).
Qed.

(** What [Marshal] writes for a string is read as its repaired text. *)
Lemma string_body_marshal s l :
  string_body (runes escape_ascii (backslash :: chars "ufffd") escape_three s ++ quote :: l)
  = Some (sanitize s, l).
Proof.
  induction s as [|s s' R IH] using runes_ind; [done|].
  destruct R as [a s E|a b s E1 E2|a b c s E1 E2 E3|a b c d s E1 E2 E3 E4|a s E1 E2].
  - by rewrite runes_ascii, <- app_assoc, string_body_escape, IH, sanitize_ascii by done.
  - rewrite runes_two by done. unfold sanitize. rewrite runes_two by done.
    change ((a :: b :: ?x) ++ ?y)%list with ([a; b] ++ (x ++ y))%list. rewrite string_body_high, IH; [done|].
    apply andb_true_iff in E2 as [_ C]. repeat constructor; [done|by apply continuation_high].
  - rewrite runes_three, <- app_assoc, string_body_three, IH by done.
    unfold sanitize. by rewrite runes_three.
  - rewrite runes_four by done. unfold sanitize. rewrite runes_four by done.
    change ((a :: b :: c :: d :: ?x) ++ ?y)%list with ([a; b; c; d] ++ (x ++ y))%list.
    apply four_bytes_high in E4 as (B & C & D). rewrite string_body_high, IH; [done|by repeat constructor].
  - rewrite E2, <- app_assoc.
    assert (X : sanitize (a :: s) = (replacement ++ sanitize s)%list) by apply E2. rewrite X.
    change (?u ++ ?r)%list with (backslash :: "u"%char :: "f"%char :: "f"%char :: "f"%char :: "d"%char :: r)%list at 1.
    rewrite (string_body_u _ _ _ _ 65533) by done. by rewrite IH.
Qed.

(** A string of valid UTF-8. *)
Definition valid_utf8 (s : string) : Prop := sanitize (chars s) = chars s.

Lemma parse_marshal_string s l :
  parse_string (tail (marshal_string s) ++ l) = Some (of_chars (sanitize (chars s)), l).
Proof.
  unfold marshal_string, parse_string. cbn [tail]. rewrite <- app_assoc. cbn [app].
  rewrite string_body_marshal. cbn. by rewrite sanitize_idem.
Qed.

Lemma parsed_valid l s r : parse_string l = Some (s, r) -> valid_utf8 s.
Proof.
  unfold parse_string. intros ([x y] & _ & [= <- <-])%bind_Some. unfold valid_utf8.
  by rewrite chars_of_chars, sanitize_idem.
Qed.

(** ** Numbers *)

(** What may follow a literal without becoming part of it. *)
Definition number_char (c : ascii) : bool :=
  is_digit c || Ascii.eqb c "."%char || Ascii.eqb c "e"%char || Ascii.eqb c "E"%char.

Definition ends_number (l : list ascii) : bool := match l with c :: _ => negb (number_char c) | [] => true end.

Definition starts_digit (l : list ascii) : bool := match l with c :: _ => is_digit c | [] => false end.

Lemma span_digits_spec l d r :
  span_digits l = (d, r) -> l = (d ++ r)%list /\ (forall t, starts_digit t = false -> span_digits (d ++ t) = (d, t)).
Proof.
  revert d r. induction l as [|c l IH]; intros d r; cbn [span_digits].
  { intros [= <- <-]. split; [done|]. intros [|c t]; [done|]. cbn. by intros ->. }
  destruct (is_digit c) eqn:E.
  - destruct (span_digits l) as [d' r'] eqn:X. intros [= <- <-]. destruct (IH _ _ eq_refl) as [-> H].
    split; [done|]. intros t Ht. cbn [app span_digits]. by rewrite E, H.
  - intros [= <- <-]. split; [done|]. intros [|x t]; [done|]. cbn. by intros ->.
Qed.

Lemma digits1_spec l d r :
  digits1 l = Some (d, r) ->
  l = (d ++ r)%list /\ d <> [] /\ (forall t, starts_digit t = false -> digits1 (d ++ t) = Some (d, t)).
Proof.
  unfold digits1. destruct (span_digits l) as [d' r'] eqn:E. apply span_digits_spec in E as [-> H].
  destruct d' as [|x d']; intros [= <- <-]. split_and!; [done..|]. intros t Ht. by rewrite H.
Qed.

Lemma int_part_spec l i r :
  int_part l = Some (i, r) ->
  l = (i ++ r)%list /\ i <> [] /\ (forall t, starts_digit t = false -> int_part (i ++ t) = Some (i, t)).
Proof.
  unfold int_part. destruct l as [|c l]; [done|]. destruct (Ascii.eqb c "0"%char) eqn:Z.
  - intros [= <- <-]. split_and!; [done..|]. intros t _. cbn [app]. by rewrite Z.
  - intros (E & N & H)%digits1_spec. rewrite E. split_and!; [done..|]. intros t Ht.
    destruct i as [|x i]; [done|]. injection E as <- _. rewrite <- (H t Ht). cbn [app]. by rewrite Z.
Qed.

Definition starts_dot (l : list ascii) : bool := match l with c :: _ => Ascii.eqb c "."%char | [] => false end.

Lemma ends_starts t : ends_number t = true -> starts_digit t = false /\ starts_dot t = false.
Proof.
  destruct t as [|c t]; [done|]. cbn. unfold number_char. rewrite negb_true_iff, !orb_false_iff. tauto.
Qed.

Lemma frac_part_spec l f r :
  frac_part l = Some (f, r) ->
  l = (f ++ r)%list
  /\ (forall t, starts_digit t = false -> starts_dot t = false -> frac_part (f ++ t) = Some (f, t))
  /\ (forall t, starts_digit t = false -> starts_digit (f ++ t) = false).
Proof.
  unfold frac_part. destruct l as [|c l].
  { intros [= <- <-]. split_and!; [done| |done]. intros [|c t]; [done|]. cbn. by intros _ ->. }
  destruct (Ascii.eqb c "."%char) eqn:Z.
  - intros ([d r'] & (E & N & H)%digits1_spec & [= <- <-])%bind_Some. rewrite E. split_and!; [done|..].
    + intros t Ht _. cbn [app]. rewrite Z, H by done. done.
    + intros t _. by apply Ascii.eqb_eq in Z as ->.
  - intros [= <- <-]. split_and!; [done| |done]. intros [|x t]; [done|]. cbn. by intros _ ->.
Qed.

Lemma exp_part_spec l e r :
  exp_part l = Some (e, r) ->
  l = (e ++ r)%list
  /\ (forall t, ends_number t = true -> exp_part (e ++ t) = Some (e, t))
  /\ (forall t, ends_number t = true -> starts_digit (e ++ t) = false /\ starts_dot (e ++ t) = false).
Proof.
  assert (N : forall c t, ends_number (c :: t) = true -> Ascii.eqb c "e"%char || Ascii.eqb c "E"%char = false).
  { intros c t. cbn. unfold number_char. rewrite negb_true_iff, !orb_false_iff. tauto. }
  unfold exp_part. destruct l as [|c l].
  { intros [= <- <-]. split_and!; [done| |exact ends_starts]. intros [|c t] Ht; [done|]. cbn [app]. by rewrite (N c t). }
  destruct (Ascii.eqb c "e"%char || Ascii.eqb c "E"%char) eqn:Z.
  2:{ intros [= <- <-]. split_and!; [done| |exact ends_starts]. intros [|x t] Ht; [done|]. cbn [app]. by rewrite (N x t). }
  assert (X : forall d t : list ascii, starts_digit ((c :: d) ++ t) = false /\ starts_dot ((c :: d) ++ t) = false).
  { intros d t. cbn. apply orb_true_iff in Z as [->%Ascii.eqb_eq| ->%Ascii.eqb_eq]; done. }
  destruct l as [|x l]; [done|]. destruct (Ascii.eqb x "+"%char || Ascii.eqb x "-"%char) eqn:G.
  - intros ([d r'] & (E & D & H)%digits1_spec & [= <- <-])%bind_Some. rewrite E. split_and!; [done| |by intros].
    intros t [Ht _]%ends_starts. cbn [app]. rewrite Z, G, H by done. done.
  - intros ([d r'] & (E & D & H)%digits1_spec & [= <- <-])%bind_Some. rewrite E. split_and!; [done| |by intros].
    intros t [Ht _]%ends_starts. cbn [app]. rewrite Z.
    destruct d as [|y d]; [done|]. injection E as <- _. cbn [app]. rewrite G.
    by rewrite (H t Ht : digits1 (x :: d ++ t) = _).
Qed.

(** A literal is read again, whatever ends it. *)
Lemma number_again l s r :
  number l = Some (s, r) ->
  l = (chars s ++ r)%list /\ (forall t, ends_number t = true -> number (chars s ++ t) = Some (s, t)).
Proof.
  unfold number. destruct (match l with [] => _ | _ => _ end) as [sign l0] eqn:E0.
  intros ([i l1] & (E1 & N1 & H1)%int_part_spec & X)%bind_Some.
  apply bind_Some in X as ([f l2] & (E2 & H2 & K2)%frac_part_spec & X).
  apply bind_Some in X as ([e l3] & (E3 & H3 & K3)%exp_part_spec & [= <- <-]).
  rewrite chars_of_chars. subst l0 l1 l2.
  assert (S : l = (sign ++ i ++ f ++ e ++ l3)%list
              /\ forall t, match (sign ++ i ++ t)%list with
                           | c :: l' => if Ascii.eqb c "-"%char then ([c], l') else ([], (sign ++ i ++ t)%list)
                           | [] => ([], [])
                           end = (sign, (i ++ t)%list)).
  { destruct l as [|c l]; [by destruct i|]. destruct (Ascii.eqb c "-"%char) eqn:M.
    - injection E0 as <- <-. split; [done|]. intros t. cbn [app]. by rewrite M.
    - injection E0 as <- E0. split; [done|]. intros t. destruct i as [|x i]; [done|].
      injection E0 as <- _. cbn [app]. by rewrite M. }
  destruct S as [-> S]. rewrite <- !app_assoc. split; [done|]. intros t Ht.
  rewrite <- !app_assoc, S. destruct (K3 t Ht) as [D1 D2].
  rewrite H1 by by apply K2. cbn. rewrite H2 by done. cbn. rewrite H3 by done. done.
Qed.

(** [strconv]: the text that Marshal writes of a [float64] is a literal that reads as the
    same number. *)
Definition literal (t : string) : Prop := number (chars t) = Some (t, []).

Class FloatsLaws (F : Floats) := {
  jsonFloat_literal : forall t x, literal t -> parseFloat t = Some x -> literal (jsonFloat x);
  jsonFloat_back : forall t x, literal t -> parseFloat t = Some x -> parseFloat (jsonFloat x) = Some x;
}.

Lemma number_literal l s r : number l = Some (s, r) -> literal s.
Proof. intros [_ H]%number_again. specialize (H [] eq_refl). by rewrite app_nil_r in H. Qed.

Lemma literal_followed s t : literal s -> ends_number t = true -> number (chars s ++ t) = Some (s, t).
Proof. intros [_ H]%number_again. apply H. Qed.

(** ** Integers in decimal *)
Lemma pretty_char_digit x : (x < 10)%N ->
  char_digit (pretty_N_char x) = Some (Z.of_N x) /\ (x <> 0%N -> Ascii.eqb (pretty_N_char x) "0"%char = false).
Proof.
  intros H. assert (X : In x (map N.of_nat (seq 0 10))).
  { apply in_map_iff. exists (N.to_nat x). split; [lia|]. apply in_seq. lia. }
  cbn in X. repeat (destruct X as [<-|X]; [by repeat split|]). done.
Qed.

Lemma parse_digits_digits acc l z : parse_digits acc l = Some z -> forallb is_digit l = true.
Proof.
  revert acc. induction l as [|c l IH]; intros acc; [done|]. cbn [parse_digits forallb].
  destruct (char_digit c) as [d|] eqn:E; [|done]. intros H. rewrite (IH _ H), andb_true_r.
  unfold char_digit in E. unfold is_digit, within, code. unfold Ascii.nat_of_ascii in E.
  destruct (_ && _) eqn:G in E; [|done]. apply andb_true_iff in G as [G1%Nat.leb_le G2%Nat.leb_le].
  apply andb_true_iff. rewrite !Z.leb_le. lia.
Qed.

(** The digits of a positive number: the first is not zero. *)
Lemma pretty_N_digits x s : (0 < x)%N ->
  exists c ds, chars (pretty_N_go x s) = (c :: ds ++ chars s)%list /\ Ascii.eqb c "0"%char = false
               /\ parse_digits 0 (c :: ds) = Some (Z.of_N x).
Proof.
  revert s. induction (N.lt_wf_0 x) as [x _ IH]. intros s H. rewrite pretty_N_go_step by done.
  assert (L : (x `mod` 10 < 10)%N) by (apply N.mod_lt; done).
  destruct (pretty_char_digit _ L) as (D & Z0). destruct (decide (0 < x `div` 10)%N) as [P|P].
  - destruct (IH (x `div` 10)%N ltac:(apply N.div_lt; lia) (String (pretty_N_char (x `mod` 10)) s) P) as (c & ds & E & C & Q).
    exists c, (ds ++ [pretty_N_char (x `mod` 10)])%list. split_and!; [by rewrite E, <- app_assoc|exact C|].
    rewrite app_comm_cons, parse_digits_app, Q. cbn [parse_digits]. rewrite D. f_equal.
    pose proof (N.div_mod' x 10). lia.
  - assert (E : (x `div` 10 = 0)%N) by (by apply N.le_0_r, N.nlt_ge). rewrite E, pretty_N_go_0. pose proof (N.div_mod' x 10) as M. rewrite E in M.
    exists (pretty_N_char (x `mod` 10)), []. split_and!; [done|apply Z0; lia|]. cbn [parse_digits]. rewrite D. f_equal. lia.
Qed.

Lemma pretty_pos p :
  exists c ds, chars (pretty (N.pos p)) = c :: ds /\ Ascii.eqb c "0"%char = false /\ parse_digits 0 (c :: ds) = Some (Z.pos p).
Proof.
  destruct (pretty_N_digits (N.pos p) "" ltac:(lia)) as (c & ds & E & C & Q). exists c, ds.
  rewrite app_nil_r in E. by split_and!.
Qed.

Lemma span_all l : forallb is_digit l = true -> span_digits l = (l, []).
Proof. induction l as [|c l IH]; [done|]. cbn. intros [-> H]%andb_true_iff. by rewrite (IH H). Qed.

Lemma number_digits sign c ds :
  sign = [] \/ sign = ["-"%char] -> Ascii.eqb c "0"%char = false -> forallb is_digit (c :: ds) = true ->
  number (sign ++ c :: ds) = Some (of_chars (sign ++ c :: ds), []).
Proof.
  intros Hs C D. assert (M : Ascii.eqb c "-"%char = false).
  { cbn in D. apply andb_true_iff in D as [D _]. by destruct (Ascii.eqb_spec c "-"%char) as [->|]. }
  assert (I : int_part (c :: ds) = Some (c :: ds, [])) by (cbn [int_part]; rewrite C; unfold digits1; by rewrite span_all).
  destruct Hs as [->| ->]; unfold number; cbn [app]; [rewrite M|change (Ascii.eqb "-" "-") with true; cbn iota];
    rewrite I; cbn [mbind option_bind frac_part exp_part]; rewrite !app_nil_r; done.
Qed.

(** [strconv] and encoding/json read back what they write of an integer. *)
Lemma pretty_literal (z : Z) : literal (pretty z).
Proof.
  unfold literal. destruct z as [|p|p]; [reflexivity|..]; destruct (pretty_pos p) as (c & ds & E & C & Q);
    pose proof (parse_digits_digits _ _ _ Q) as D.
  - change (pretty (Z.pos p)) with (pretty (N.pos p)). rewrite E.
    rewrite (number_digits [] c ds (or_introl eq_refl) C D : number (c :: ds) = _). cbn [app]. by rewrite <- E, of_chars_chars.
  - change (pretty (Z.neg p)) with ("-" +:+ pretty (N.pos p)). rewrite chars_app, E.
    rewrite (number_digits ["-"%char] c ds (or_intror eq_refl) C D : number (chars "-" ++ c :: ds) = _). cbn [app].
    do 2 f_equal. rewrite <- (of_chars_chars ("-" +:+ _)), chars_app, E. done.
Qed.

Lemma parseInt_digits s c ds z :
  chars s = c :: ds -> is_digit c = true -> parse_digits 0 (c :: ds) = Some z -> in_int64 z = true -> parseInt s = Some z.
Proof.
  intros E D Q I. unfold parseInt. rewrite E.
  destruct c as [[] [] [] [] [] [] [] []]; try discriminate D; cbv iota beta zeta; by rewrite Q, I.
Qed.

Lemma parseInt_pretty (z : Z) : in_int64 z = true -> parseInt (pretty z) = Some z.
Proof.
  intros I. destruct z as [|p|p]; [reflexivity|..]; destruct (pretty_pos p) as (c & ds & E & C & Q);
    pose proof (parse_digits_digits _ _ _ Q) as D; cbn [forallb] in D; apply andb_true_iff in D as [D _].
  - by apply (parseInt_digits _ c ds).
  - change (pretty (Z.neg p)) with ("-" +:+ pretty (N.pos p)). unfold parseInt. rewrite chars_app, E.
    change (chars "-" ++ c :: ds)%list with ("-"%char :: c :: ds). cbv iota beta zeta. rewrite Q. cbn [fmap option_fmap option_map]. change (- Z.pos p) with (Z.neg p). by rewrite I.
Qed.

(** ** Documents *)

(** A document whose members have valid names in order and whose numbers are those of
    literals. *)
Section WellFormed.
Context `{F : Floats}.

Fixpoint wf_json (v : json) : Prop :=
  match v with
  | JNum x => exists t, literal t /\ parseFloat t = Some x
  | JArr l => (fix go l := match l with [] => True | x :: l' => wf_json x /\ go l' end) l
  | JObj d => dwf d = true
              /\ (fix go (d : list (string * json)) :=
                    match d with [] => True | kv :: d' => valid_utf8 (fst kv) /\ wf_json (snd kv) /\ go d' end) d
  | _ => True
  end.

Lemma wf_arr l : wf_json (JArr l) <-> Forall wf_json l.
Proof.
  cbn. split; [|by induction 1]. induction l as [|x l IH]; [constructor|]. intros [Hx Hl]. constructor; auto.
Qed.

Lemma wf_obj d :
  wf_json (JObj d) <-> dwf d = true /\ Forall (fun kv => valid_utf8 (fst kv) /\ wf_json (snd kv)) d.
Proof.
  cbn. split; intros [W H]; (split; [exact W|]); clear W.
  - induction d as [|kv d IH]; [constructor|]. destruct H as (K & V & H). constructor; auto.
  - induction H as [|kv d [K V] _ IH]; done.
Qed.
End WellFormed.

(** Its strings, repaired. *)
Definition repaired (s : string) : string := of_chars (sanitize (chars s)).

Fixpoint repair (v : json) : json :=
  match v with
  | JStr s => JStr (repaired s)
  | JArr l => JArr (map repair l)
  | JObj d => JObj (map (fun kv => (fst kv, repair (snd kv))) d)
  | _ => v
  end.

Lemma repaired_valid s : valid_utf8 s -> repaired s = s.
Proof. unfold valid_utf8, repaired. intros ->. apply of_chars_chars. Qed.

Definition max_of (l : list Z) : Z := fold_right Z.max 0 l.

(** Nested arrays and objects. *)
Fixpoint height (v : json) : Z :=
  match v with
  | JArr l => 1 + max_of (map height l)
  | JObj d => 1 + max_of (map (fun kv => height (snd kv)) d)
  | _ => 0
  end.

Lemma max_of_cons x l : max_of (x :: l) = Z.max x (max_of l).
Proof. done. Qed.

Lemma max_of_nonneg l : 0 <= max_of l.
Proof. induction l; cbn; [done|]. unfold max_of in *. lia. Qed.

Section Documents.
Context `{F : Floats} `{!FloatsLaws F}.

(** What [Marshal] writes, as the parser sees it. *)
Fixpoint syntax_of (v : json) : syntax :=
  match v with
  | JNull => SNull
  | JBool b => SBool b
  | JNum x => SNum (jsonFloat x)
  | JStr s => SStr (repaired s)
  | JArr l => SArr (map syntax_of l)
  | JObj d => SObj (map (fun kv => (fst kv, syntax_of (snd kv))) d)
  end.

Lemma dset_above {V} k (v : V) acc :
  Forall (fun kv => slt (fst kv) k) acc -> dset k v acc = (acc ++ [(k, v)])%list.
Proof.
  induction 1 as [|[j w] acc H _ IH]; [done|]. cbn [dset]. cbn in H. unfold slt in H.
  rewrite String.compare_antisym, H. cbn. by rewrite IH.
Qed.

Lemma dict_of_sorted {V} (d : dict V) : dwf d = true -> dict_of_list d = d.
Proof.
  intros W. unfold dict_of_list. enough (X : forall acc, Forall (fun x => Forall (fun y => slt (fst x) (fst y)) d) acc ->
    fold_left (fun d kv => dset (fst kv) (snd kv) d) d acc = (acc ++ d)%list) by by rewrite X.
  induction d as [|[k v] d IH]; intros acc H; [by rewrite app_nil_r|]. apply dwf_cons in W as [K W].
  cbn [fold_left fst snd]. rewrite dset_above, (IH W), <- app_assoc; [done| |].
  - apply Forall_app. split; [|by repeat constructor]. eapply Forall_impl; [exact H|]. intros x Hx. by inversion Hx.
  - eapply Forall_impl; [exact H|]. intros x Hx. by inversion Hx.
Qed.

Lemma value_syntax v : wf_json v -> value_of (syntax_of v) = Some (repair v).
Proof.
  induction v as [|b|x|s|l IH|d IH] using json_ind; try done.
  - intros (t & L & E). cbn. by rewrite (jsonFloat_back t x L E).
  - rewrite wf_arr. intros H. cbn. match goal with |- JArr <$> ?r = _ => enough (r = Some (map repair l)) as -> by done end.
    induction IH as [|x l Hx _ IHl]; [done|]. inversion H; subst. cbn. by rewrite Hx, IHl.
  - rewrite wf_obj. intros [W H]. cbn.
    match goal with |- _ <$> ?r = _ => enough (r = Some (map (fun kv => (fst kv, repair (snd kv))) d)) as -> end.
    { cbn. rewrite dict_of_sorted; [done|]. by rewrite (dwf_map (fun _ => repair)). }
    clear W. induction IH as [|[k x] d Hx _ IHd]; [done|]. inversion H as [|? ? [_ Hv]]; subst. cbn in *. by rewrite Hx, IHd.
Qed.

(** The first byte of a document. *)
Definition opens_value (c : ascii) : bool :=
  negb (is_ws c) && negb (Ascii.eqb c "]"%char) && negb (Ascii.eqb c "}"%char).

Definition number_head (c : ascii) : bool := is_digit c || Ascii.eqb c "-"%char.

Lemma number_head_spec c l p : number (c :: l) = Some p -> number_head c = true.
Proof.
  unfold number, number_head. destruct (Ascii.eqb c "-"%char); [by rewrite orb_true_r|].
  intros ([i l1] & E & _)%bind_Some. unfold int_part in E. destruct (Ascii.eqb_spec c "0"%char) as [->|]; [done|].
  unfold digits1 in E. cbn [span_digits] in E. destruct (is_digit c); [done|]. done.
Qed.

Lemma number_head_dispatch c :
  number_head c = true ->
  opens_value c = true /\ Ascii.eqb c "{"%char = false /\ Ascii.eqb c "["%char = false /\ Ascii.eqb c quote = false
  /\ Ascii.eqb c "n"%char = false /\ Ascii.eqb c "t"%char = false /\ Ascii.eqb c "f"%char = false.
Proof.
  intros E. pose proof (all_bytes_spec (fun c => implb (number_head c)
    (opens_value c && negb (Ascii.eqb c "{"%char) && negb (Ascii.eqb c "["%char) && negb (Ascii.eqb c quote)
     && negb (Ascii.eqb c "n"%char) && negb (Ascii.eqb c "t"%char) && negb (Ascii.eqb c "f"%char))) c ltac:(by vm_compute)) as H.
  cbn beta in H. rewrite E in H. cbn [implb] in H. rewrite !andb_true_iff, !negb_true_iff in H. tauto.
Qed.

Lemma literal_nonempty t : literal t -> exists c l, chars t = c :: l /\ number_head c = true.
Proof.
  unfold literal. destruct (chars t) as [|c l] eqn:E; [done|]. intros H. exists c, l. split; [done|].
  by eapply number_head_spec.
Qed.

Lemma marshal_opens v : wf_json v -> exists c l, marshal_chars v = c :: l /\ opens_value c = true.
Proof.
  destruct v as [|[]|x|s|l|d]; cbn; try (by eexists _, _).
  intros (t & L & E). destruct (literal_nonempty _ (jsonFloat_literal _ _ L E)) as (c & l & -> & H).
  exists c, l. split; [done|]. by apply number_head_dispatch.
Qed.

Lemma skip_ws_opens c l : opens_value c = true -> skip_ws (c :: l) = c :: l.
Proof. unfold opens_value. rewrite !andb_true_iff, !negb_true_iff. intros [[E _] _]. cbn. by rewrite E. Qed.

Lemma Forall_mp {A} (P Q : A -> Prop) l : Forall (fun x => P x -> Q x) l -> Forall P l -> Forall Q l.
Proof. induction 1; inversion 1; subst; constructor; auto. Qed.

Lemma expect_text_app t v l : expect_text t v (chars t ++ l) = Some (v, l).
Proof.
  unfold expect_text. rewrite (proj2 (is_prefix_spec _ _) (ex_intro _ l eq_refl)).
  rewrite <- length_chars, drop_app_length. done.
Qed.

Definition reads_back (v : json) : Prop := forall n depth rest,
  (3 * length (marshal_chars v) < n)%nat -> depth + height v <= maxNestingDepth -> ends_number rest = true ->
  value n depth (marshal_chars v ++ rest) = Some (syntax_of v, rest).

Lemma comma_cons x y l : comma_separated (x :: y :: l) = (x ++ ","%char :: comma_separated (y :: l))%list.
Proof. done. Qed.

(** The elements of an array, up to its bracket. *)
Lemma elements_marshal x l n depth rest :
  Forall wf_json (x :: l) -> Forall reads_back (x :: l) ->
  (3 * length (comma_separated (map marshal_chars (x :: l))) + 1 < n)%nat ->
  depth + max_of (map height (x :: l)) <= maxNestingDepth ->
  elements n depth (comma_separated (map marshal_chars (x :: l)) ++ "]"%char :: rest)
  = Some (map syntax_of (x :: l), rest).
Proof.
  revert x n. induction l as [|y l IH]; intros x n W R L D;
    destruct n as [|n]; try lia; inversion R as [|? ? Rx Rl]; inversion W as [|? ? Wx Wl]; subst;
    cbn [map] in D; rewrite max_of_cons in D.
  - cbn [map comma_separated] in *. cbn [elements]. rewrite Rx by (done || lia). done.
  - cbn [map] in *. rewrite comma_cons in *. rewrite length_app in L. cbn [length] in L.
    rewrite <- app_assoc. cbn [app elements]. rewrite Rx by (done || lia). cbn [mbind option_bind skip_ws].
    change (is_ws ","%char) with false. cbn iota. change (Ascii.eqb "," ",") with true. cbn iota.
    inversion Wl as [|? ? Wy _]; subst. destruct (marshal_opens y Wy) as (c & s & E & O).
    assert (X : exists s', (comma_separated (marshal_chars y :: map marshal_chars l) ++ "]"%char :: rest = c :: s')%list).
    { destruct l; cbn [map comma_separated]; rewrite E; cbn [app]; by eexists. }
    destruct X as [s' X]. rewrite X, skip_ws_opens by done. rewrite <- X.
    rewrite (IH y n Wl Rl) by (cbn [map]; lia || (cbn [map]; rewrite max_of_cons in *; lia)). done.
Qed.

Definition member_text (kv : string * json) : list ascii :=
  (marshal_string (fst kv) ++ ":"%char :: marshal_chars (snd kv))%list.

Definition wf_member (kv : string * json) : Prop := valid_utf8 (fst kv) /\ wf_json (snd kv).

Lemma marshal_string_cons s : marshal_string s = quote :: tail (marshal_string s).
Proof. done. Qed.

(** The members of an object, up to its brace. *)
Lemma members_marshal x l n depth rest :
  Forall wf_member (x :: l) -> Forall (fun kv => reads_back (snd kv)) (x :: l) ->
  (3 * length (comma_separated (map member_text (x :: l))) < n)%nat ->
  depth + max_of (map (fun kv => height (snd kv)) (x :: l)) <= maxNestingDepth ->
  exists ms, members n depth (comma_separated (map member_text (x :: l)) ++ "}"%char :: rest) = Some (ms, rest)
             /\ map forget_text ms = map (fun kv => (fst kv, syntax_of (snd kv))) (x :: l).
Proof.
  revert x n. induction l as [|y l IH]; intros [k v] n W R L D;
    destruct n as [|n]; try lia; inversion R as [|? ? Rx Rl]; inversion W as [|? ? [Kx Wx] Wl]; subst;
    cbn [map fst snd] in D, Rx, Kx, Wx; rewrite max_of_cons in D;
    destruct (marshal_opens v Wx) as (c & s & E & O);
    assert (P : forall t, parse_string (tail (marshal_string k) ++ t) = Some (k, t))
      by (intros t; rewrite parse_marshal_string, Kx, of_chars_chars; done).
  - cbn [map comma_separated] in *. unfold member_text in *. cbn [fst snd] in *.
    rewrite length_app in L. cbn [length] in L.
    rewrite (marshal_string_cons k), <- app_assoc. cbn [app members]. change (Ascii.eqb quote quote) with true.
    cbn iota. rewrite P. cbn [mbind option_bind skip_ws]. change (is_ws ":"%char) with false. cbn iota.
    change (Ascii.eqb ":" ":") with true. cbn iota.
    assert (X : skip_ws (marshal_chars v ++ "}"%char :: rest) = (marshal_chars v ++ "}"%char :: rest)%list)
      by (rewrite E; cbn [app]; by apply skip_ws_opens).
    rewrite X, Rx by (done || lia). cbn. by eexists.
  - cbn [map] in *. rewrite comma_cons in *. rewrite length_app in L. cbn [length] in L.
    unfold member_text in L at 1. rewrite length_app in L. cbn [length fst snd] in L.
    destruct (IH y n Wl Rl) as (ms & Hms & Fms); [cbn [map]; lia|cbn [map]; rewrite max_of_cons in *; lia|].
    assert (X : skip_ws (comma_separated (member_text y :: map member_text l) ++ "}"%char :: rest)
                = (comma_separated (member_text y :: map member_text l) ++ "}"%char :: rest)%list).
    { by destruct l. }
    unfold member_text at 1. cbn [fst snd].
    rewrite (marshal_string_cons k), <- !app_assoc. cbn [app members]. change (Ascii.eqb quote quote) with true.
    cbn iota. rewrite P. cbn [mbind option_bind skip_ws]. change (is_ws ":"%char) with false. cbn iota.
    change (Ascii.eqb ":" ":") with true. cbn iota.
    set (more := (comma_separated _ ++ _)%list) in *.
    assert (Y : skip_ws (marshal_chars v ++ ","%char :: more) = (marshal_chars v ++ ","%char :: more)%list)
      by (rewrite E; cbn [app]; by apply skip_ws_opens).
    rewrite Y, Rx by (done || lia). cbn [mbind option_bind skip_ws].
    change (is_ws ","%char) with false. cbn iota. change (Ascii.eqb "," ",") with true. cbn iota.
    cbn [map] in Hms. fold more in Hms. rewrite X, Hms. cbn. eexists. split; [done|]. cbn. by rewrite Fms.
Qed.

Lemma marshal_reads_back v : wf_json v -> reads_back v.
Proof.
  induction v as [|b|x|s|l IH|d IH] using json_ind; intros W n depth rest L D T;
    cbn [marshal_chars] in *; destruct n as [|n]; try lia.
  - exact (expect_text_app "null" SNull rest).
  - destruct b; [exact (expect_text_app "true" (SBool true) rest)|exact (expect_text_app "false" (SBool false) rest)].
  - destruct W as (t & Lt & E). pose proof (jsonFloat_literal t x Lt E) as Lx.
    destruct (literal_nonempty _ Lx) as (c & l0 & Ec & Hc). pose proof (literal_followed _ rest Lx T) as N.
    rewrite Ec in *. cbn [app] in *. apply number_head_dispatch in Hc as (_ & E1 & E2 & E3 & E4 & E5 & E6).
    cbn [value]. by rewrite E1, E2, E3, E4, E5, E6, N.
  - rewrite marshal_string_cons. cbn [app value].
    change (Ascii.eqb quote "{") with false. change (Ascii.eqb quote "[") with false.
    change (Ascii.eqb quote quote) with true. cbn iota. by rewrite parse_marshal_string.
  - apply wf_arr in W. cbn [height] in D. cbn [app value].
    change (Ascii.eqb "[" "{") with false. change (Ascii.eqb "[" "[") with true. cbn iota.
    pose proof (max_of_nonneg (map height l)). destruct (Z.leb_spec maxNestingDepth depth); [lia|].
    destruct l as [|y l]; [done|]. inversion W as [|? ? Wy _]; subst.
    destruct (marshal_opens y Wy) as (c & s & E & O).
    rewrite <- app_assoc. cbn [app].
    assert (X : exists s', (comma_separated (map marshal_chars (y :: l)) ++ "]"%char :: rest = c :: s')%list).
    { destruct l; cbn [map comma_separated]; rewrite E; cbn [app]; by eexists. }
    destruct X as [s' X]. rewrite X, skip_ws_opens by done.
    assert (E2 : Ascii.eqb c "]"%char = false).
    { unfold opens_value in O. rewrite !andb_true_iff, !negb_true_iff in O. tauto. }
    rewrite E2, <- X. cbn [length] in L. rewrite length_app in L. cbn [length] in L.
    rewrite elements_marshal; [done|done| |lia|lia].
    by apply (Forall_mp wf_json).
  - apply wf_obj in W as [_ W]. cbn [height] in D. cbn [app value].
    change (Ascii.eqb "{" "{") with true. cbn iota.
    pose proof (max_of_nonneg (map (fun kv => height (snd kv)) d)). destruct (Z.leb_spec maxNestingDepth depth); [lia|].
    cbn [length] in L. rewrite length_app in L. cbn [length] in L.
    destruct n as [|n]; [lia|]. rewrite <- app_assoc. cbn [app]. destruct d as [|kv d]; [done|].
    fold member_text in *.
    change (map (fun kv => (marshal_string (fst kv) ++ ":"%char :: marshal_chars (snd kv))%list) (kv :: d))
      with (map member_text (kv :: d)) in *.
    destruct (members_marshal kv d n (depth + 1) rest) as (ms & Hms & Fms); [exact W| |lia|lia|].
    { eapply Forall_mp; [exact IH|]. eapply Forall_impl; [exact W|]. by intros ? []. }
    assert (X : exists s', (comma_separated (map member_text (kv :: d)) ++ "}"%char :: rest = quote :: s')%list).
    { destruct d; cbn [map comma_separated]; by eexists. }
    destruct X as [s' X]. rewrite X in *. cbn [object skip_ws].
    change (is_ws quote) with false. cbn iota. change (Ascii.eqb quote "}") with false. cbn iota.
    rewrite Hms. cbn. by rewrite Fms.
Qed.

Lemma parse_marshal (v : json) :
  wf_json v -> height v <= maxNestingDepth -> parse_text (marshal v) = Some (syntax_of v).
Proof.
  intros W D. unfold parse_text, marshal. rewrite chars_of_chars.
  destruct (marshal_opens v W) as (c & l & E & O).
  assert (X : skip_ws (marshal_chars v) = marshal_chars v) by (rewrite E; by apply skip_ws_opens).
  rewrite X. pose proof (marshal_reads_back v W (text_fuel (marshal_chars v)) 0 []) as R.
  rewrite app_nil_r in R. unfold at_end. rewrite R; [done| |lia|done]. unfold text_fuel. lia.
Qed.

(** What Marshal writes, Unmarshal reads: every well-formed document within the nesting
    limit of encoding/json comes back with its strings repaired, and as it was when they
    are valid UTF-8. *)
Lemma marshal_back (v : json) :
  wf_json v -> height v <= maxNestingDepth -> unmarshalAny (marshal v) = Some (repair v).
Proof.
  intros W D. unfold unmarshalAny. rewrite parse_marshal by done. by apply value_syntax.
Qed.
End Documents.

(** ** Decoded documents *)
Definition syntax_induction (P : syntax -> Prop)
  (Hnull : P SNull) (Hbool : forall b, P (SBool b)) (Hnum : forall t, P (SNum t)) (Hstr : forall s, P (SStr s))
  (Harr : forall l, Forall P l -> P (SArr l)) (Hobj : forall d, Forall (fun kv => P (snd kv)) d -> P (SObj d))
  : forall v, P v :=
  fix go v :=
    match v with
    | SNull => Hnull
    | SBool b => Hbool b
    | SNum t => Hnum t
    | SStr s => Hstr s
    | SArr l =>
        Harr l ((fix gol l := match l return Forall P l with
                              | [] => Forall_nil_2 _
                              | x :: l' => Forall_cons_2 _ _ _ (go x) (gol l')
                              end) l)
    | SObj d =>
        Hobj d ((fix god d := match d return Forall (fun kv => P (snd kv)) d with
                              | [] => Forall_nil_2 _
                              | kv :: d' => Forall_cons_2 (fun kv => P (snd kv)) _ _ (go (snd kv)) (god d')
                              end) d)
    end.

(** Literals, valid text and a height within a bound. *)
Inductive tame : Z -> syntax -> Prop :=
| TameNull z : tame z SNull
| TameBool z b : tame z (SBool b)
| TameNum z t : literal t -> tame z (SNum t)
| TameStr z s : valid_utf8 s -> tame z (SStr s)
| TameArr z l : 0 < z -> Forall (tame (z - 1)) l -> tame z (SArr l)
| TameObj z d : 0 < z -> Forall (fun kv => valid_utf8 (fst kv) /\ tame (z - 1) (snd kv)) d -> tame z (SObj d).

Definition tame_member (z : Z) (kv : string * syntax) : Prop := valid_utf8 (fst kv) /\ tame z (snd kv).

Lemma expect_text_value t v l v' r : expect_text t v l = Some (v', r) -> v' = v.
Proof. unfold expect_text. case_match; congruence. Qed.

Lemma parsers_tame n :
  (forall d l v r, value n d l = Some (v, r) -> tame (maxNestingDepth - d) v) /\
  (forall d l v r, elements n d l = Some (v, r) -> Forall (tame (maxNestingDepth - d)) v) /\
  (forall d l v r, object n d l = Some (v, r) -> Forall (tame_member (maxNestingDepth - d)) (map forget_text v)) /\
  (forall d l v r, members n d l = Some (v, r) -> Forall (tame_member (maxNestingDepth - d)) (map forget_text v)).
Proof.
  induction n as [|n (IHv & IHe & IHo & IHm)]; [done|].
  assert (D : forall d, maxNestingDepth - (d + 1) = maxNestingDepth - d - 1) by (intros; lia).
  repeat split; intros d l v r.
  - destruct l as [|c l]; [done|]. cbn [value].
    case_match.
    { destruct (Z.leb_spec maxNestingDepth d); [done|]. intros ([x y] & E & [= <- <-])%bind_Some.
      apply IHo in E. rewrite D in E. constructor; [lia|exact E]. }
    case_match.
    { destruct (Z.leb_spec maxNestingDepth d); [done|]. case_match; [done|].
      case_match; [intros [= <- <-]; constructor; [lia|constructor]|].
      intros ([x y] & E & [= <- <-])%bind_Some. apply IHe in E. rewrite D in E. constructor; [lia|exact E]. }
    case_match.
    { intros ([x y] & E & [= <- <-])%bind_Some. constructor. by eapply parsed_valid. }
    do 3 (case_match; [intros ->%expect_text_value; constructor|]).
    intros ([x y] & E & [= <- <-])%bind_Some. constructor. by eapply number_literal.
  - cbn [elements]. intros ([x y] & E & H)%bind_Some. apply IHv in E.
    destruct (skip_ws y) as [|e r']; [done|]. case_match.
    + apply bind_Some in H as ([? ?] & E' & [= <- <-]). apply IHe in E'. by constructor.
    + case_match; [|done]. injection H as <- <-. by repeat constructor.
  - cbn [object]. destruct (skip_ws l) as [|e r']; [done|].
    case_match; [intros [= <- <-]; constructor|]. apply IHm.
  - destruct l as [|q l1]; [done|]. cbn [members]. case_match; [|done].
    intros ([k l2] & E & H')%bind_Some. apply parsed_valid in E.
    destruct (skip_ws l2) as [|c l3]; [done|].
    case_match; [|done]. apply bind_Some in H' as ([x y] & E' & H'). apply IHv in E'.
    destruct (skip_ws y) as [|e r']; [done|]. case_match.
    + apply bind_Some in H' as ([? ?] & E2 & [= <- <-]). apply IHm in E2. by constructor.
    + case_match; [|done]. injection H' as <- <-. by repeat constructor.
Qed.

Lemma In_dset {V} k (v : V) d kv : In kv (dset k v d) -> kv = (k, v) \/ In kv d.
Proof.
  induction d as [|[j w] d IH]; cbn; [naive_solver|]. destruct (String.compare k j); cbn; naive_solver.
Qed.

Lemma fold_dset {V} (l acc : dict V) :
  dwf acc = true ->
  let d := fold_left (fun d kv => dset (fst kv) (snd kv) d) l acc in
  dwf d = true /\ forall kv, In kv d -> In kv l \/ In kv acc.
Proof.
  revert acc. induction l as [|[k v] l IH]; intros acc W; cbn; [by auto|].
  destruct (IH (dset k v acc)) as [W' H]; [by apply dwf_dset|]. split; [exact W'|].
  intros kv [Hkv|[->|Hkv]%In_dset]%H; auto.
Qed.

Lemma dict_of_list_ok {V} (l : dict V) :
  dwf (dict_of_list l) = true /\ forall kv, In kv (dict_of_list l) -> In kv l.
Proof. destruct (fold_dset l [] eq_refl) as [W H]. split; [exact W|]. intros kv [Hkv|[]]%H. exact Hkv. Qed.

Lemma max_of_le l z : 0 <= z -> Forall (fun x => x <= z) l -> max_of l <= z.
Proof. intros H. induction 1; [done|]. rewrite max_of_cons. lia. Qed.

Section Decoded.
Context `{F : Floats}.

Lemma value_of_tame v : forall z w, 0 <= z -> tame z v -> value_of v = Some w ->
  wf_json w /\ height w <= z /\ repair w = w.
Proof.
  induction v as [|b|t|s|l IH|d IH] using syntax_induction; intros z w Z T; inversion T; subst; cbn.
  - by intros [= <-].
  - by intros [= <-].
  - intros (x & E & ->)%fmap_Some. split; [by exists t|done].
  - intros [= <-]. cbn. by rewrite repaired_valid.
  - intros (m & E & ->)%fmap_Some.
    assert (X : Forall (fun w => wf_json w /\ height w <= z - 1 /\ repair w = w) m).
    { revert m E. induction IH as [|x l Hx _ IHl]; intros m; [by intros [= <-]|].
      inversion H2 as [|? ? Tx Tl]; subst. intros (y & Ey & E)%bind_Some.
      apply bind_Some in E as (ys & Eys & [= <-]). constructor; [apply Hx; [lia|done|done]|].
      apply IHl; [by constructor|done|done]. }
    split; [apply wf_arr; eapply Forall_impl; [exact X|]; by intros ? []|].
    cbn. split.
    + enough (max_of (map height m) <= z - 1) by lia. apply max_of_le; [lia|].
      apply List.Forall_map. eapply Forall_impl; [exact X|]. cbn. tauto.
    + f_equal. rewrite <- (map_id m) at 2. apply map_ext_Forall. eapply Forall_impl; [exact X|]. cbn. tauto.
  - intros (m & E & ->)%fmap_Some.
    assert (X : Forall (fun kw => valid_utf8 (fst kw) /\ wf_json (snd kw) /\ height (snd kw) <= z - 1
                          /\ repair (snd kw) = snd kw) m).
    { revert m E. induction IH as [|[k x] l Hx _ IHl]; intros m; [by intros [= <-]|].
      inversion H2 as [|? ? [Kx Tx] Tl]; subst. intros (y & Ey & E)%bind_Some.
      apply bind_Some in E as (ys & Eys & [= <-]). constructor; [split; [exact Kx|]; apply (Hx (z - 1)); [lia|exact Tx|exact Ey]|].
      apply IHl; [by constructor|done|done]. }
    destruct (dict_of_list_ok m) as [W I]. rewrite List.Forall_forall in X.
    split_and!.
    + apply wf_obj. split; [exact W|]. apply List.Forall_forall. intros kv Hkv%I. apply X in Hkv. tauto.
    + cbn. enough (max_of (map (fun kv => height (snd kv)) (dict_of_list m)) <= z - 1) by lia.
      apply max_of_le; [lia|]. apply List.Forall_map, List.Forall_forall. intros kv Hkv%I. apply X in Hkv. tauto.
    + cbn [repair]. f_equal. rewrite <- (map_id (dict_of_list m)) at 2. apply map_ext_Forall, List.Forall_forall.
      intros [k x] Hkv%I. apply X in Hkv. cbn in *. f_equal. tauto.
Qed.

(** What Unmarshal makes is well formed, within the nesting limit and valid UTF-8. *)
Lemma unmarshal_wf s v :
  unmarshalAny s = Some v -> wf_json v /\ height v <= maxNestingDepth /\ repair v = v.
Proof.
  unfold unmarshalAny, parse_text, at_end. intros (x & E & H)%bind_Some.
  apply bind_Some in E as ([y r] & E & X). apply parsers_tame in E. rewrite Z.sub_0_r in E.
  destruct (skip_ws r); [|done]. injection X as <-. eapply value_of_tame; [|exact E|exact H]. done.
Qed.

(** A decoded document keeps its value when it is encoded again. *)
Lemma marshal_decoded `{!FloatsLaws F} s v : unmarshalAny s = Some v -> unmarshalAny (marshal v) = Some v.
Proof. intros (W & D & R)%unmarshal_wf. by rewrite marshal_back, R. Qed.

(** Encoding and decoding of documents are inverse.  Every well-formed
    document within the nesting limit of encoding/json is read back as it was written,
    its strings repaired where they were not valid UTF-8; and a document that was decoded
    from any text is, encoded and decoded again, the same document. *)
Theorem marshal_round_trip `{!FloatsLaws F} :
  (forall v, wf_json v -> height v <= maxNestingDepth -> unmarshalAny (marshal v) = Some (repair v))
  /\ forall s v, unmarshalAny s = Some v -> unmarshalAny (marshal v) = Some v.
Proof. split; [intros v; apply marshal_back|apply marshal_decoded]. Qed.
End Decoded.
