(* ===== verification/Effects.v ===== *)
(** * Effects: database calls, transactions, errors

    Repository methods run against MySQL.  A computation is a function from a
    world to an outcome and a new world.  The world holds the tables, the
    failures the next database calls meet (one entry per call: [None] for a call
    that succeeds, and the default when the list is used up), and the bytes
    [crypto/rand] returns.  A transaction runs its body on the tables and
    restores them when the body fails or the commit does: what [defer
    tx.Rollback()] does.  Row locks ([FOR UPDATE]) make transactions on one row
    run one after the other, so a transaction is one step. *)

From stdpp Require Import pretty.
From S2P Require Import Prelude GoStrings GoTime.

(** ** The server

    What MySQL does with text (the collation of comparisons, LIKE and ORDER BY) and with
    the precision of a TIMESTAMP column. *)
Class MySQL := {
  same : string -> string -> bool;  (** [=] under the collation of the connection *)
  like : string -> string -> bool;  (** [column LIKE pattern] *)
  text_le : string -> string -> bool;  (** ORDER BY on text *)
  column_time : time -> time;  (** what a TIMESTAMP column keeps of an instant *)
}.

Class MySQLLaws (S : MySQL) := {
  same_refl : forall s, same s s = true;
  column_time_close : forall t, t - second <= column_time t <= t + second;
}.

(** ** Database failures *)
Inductive dbfault :=
| DeadlineExceeded
| Canceled
| MySQLError (number : Z) (message : string)
| NetError (detail : string)
| OtherFault (detail : string).

(** [mysql.safeDatabaseFailure]: the class of the failure, never its text. *)
Definition safeDatabaseFailure (operation : string) (err : dbfault) : string :=
  match err with
  | DeadlineExceeded => operation +:+ ": deadline exceeded"
  | Canceled => operation +:+ ": cancelled"
  | MySQLError number _ => operation +:+ ": MySQL server error " +:+ pretty number
  | NetError _ => operation +:+ ": network failure"
  | OtherFault _ => operation +:+ ": database unavailable"
  end.

(** The errors of the repositories: the sentinels of the packages, and text. *)
Inductive error :=
| ErrNotFound
| ErrParallelRunTerminal
| ErrParallelRunCancelling
| ErrParallelRunConcurrency
| ErrRunTokenInvalid
| ErrAgentProofInvalid
| AgentUnavailableError (status health : string)
| ErrParallelWorkerMissing
| ErrWorkerTokenInvalid
| ErrAgentNotFound
| ErrDeliveryNotFound
| ErrNoPendingDelivery
| ErrInvalidApplicationKey
| ErrInvalidCiphertext
| ErrInvalidLegacyKey
| ErrConflict
| ErrGone
| ValidationFailure (errors : list (string * list string))
| ReviewFailure (message fromStatus toStatus : string)
| DatabaseFailure (message : string)
| OtherError (message : string)
| Panic (message : string).

#[export] Instance error_eq_dec : EqDecision error.
Proof. solve_decision. Defined.

(** ** The monad *)
Record world (D : Type) := World {
  w_db : D;
  w_faults : list (option dbfault);
  w_random : list (option string);
}.
Arguments World {D}.
Arguments w_db {D}.
Arguments w_faults {D}.
Arguments w_random {D}.

Inductive outcome (A : Type) := Ok (a : A) | Err (e : error).
Arguments Ok {A}.
Arguments Err {A}.

Definition M (D A : Type) : Type := world D -> outcome A * world D.

Section Monad.
Context {D : Type}.

Definition ret {A} (a : A) : M D A := fun w => (Ok a, w).
Definition fail {A} (e : error) : M D A := fun w => (Err e, w).

Definition bind {A B} (m : M D A) (k : A -> M D B) : M D B :=
  fun w => match m w with
           | (Ok a, w') => k a w'
           | (Err e, w') => (Err e, w')
           end.

(** [if err := m; err != nil { handler }]. *)
Definition catch {A} (m : M D A) (h : error -> M D A) : M D A :=
  fun w => match m w with
           | (Ok a, w') => (Ok a, w')
           | (Err e, w') => h e w'
           end.

Definition guard (b : bool) (e : error) : M D unit := if b then ret tt else fail e.

(** One round trip to the server: it may fail before it has any effect. *)
Definition round_trip (op : string) : M D unit :=
  fun w =>
    let w' := World (w_db w) (tail (w_faults w)) (w_random w) in
    match w_faults w with
    | Some f :: _ => (Err (DatabaseFailure (safeDatabaseFailure op f)), w')
    | _ => (Ok tt, w')
    end.

Definition gets {A} (f : D -> A) : M D A := fun w => (Ok (f (w_db w)), w).
Definition modify (f : D -> D) : M D unit :=
  fun w => (Ok tt, World (f (w_db w)) (w_faults w) (w_random w)).

(** [QueryRowContext(...).Scan(...)], [None] for [sql.ErrNoRows]. *)
Definition query {A} (op : string) (f : D -> A) : M D A :=
  bind (round_trip op) (fun _ => gets f).

(** [ExecContext(...)]. *)
Definition exec (op : string) (f : D -> D) : M D unit :=
  bind (round_trip op) (fun _ => modify f).

(** [ExecContext(...)] with its [RowsAffected()]. *)
Definition exec_count (op : string) (f : D -> D * Z) : M D Z :=
  bind (round_trip op) (fun _ => fun w =>
    let '(d, n) := f (w_db w) in (Ok n, World d (w_faults w) (w_random w))).

(** An [INSERT] that a unique key may refuse: error 1062 of the server. *)
Definition insert_unique (op : string) (f : D -> option D) : M D unit :=
  bind (round_trip op) (fun _ => fun w =>
    match f (w_db w) with
    | Some d => (Ok tt, World d (w_faults w) (w_random w))
    | None => (Err (DatabaseFailure (safeDatabaseFailure op (MySQLError 1062 "Duplicate entry"))), w)
    end).

(** [rand.Read] into a buffer of [n] bytes, [None] when the source fails. *)
Definition rand_read (n : nat) : M D (option string) :=
  fun w => match w_random w with
           | r :: rs =>
               (Ok (b ← r; if (String.length b =? n)%nat then Some b else None),
                World (w_db w) (w_faults w) rs)
           | [] => (Ok None, w)
           end.

(** [BeginTx]; body; [Commit]; with [defer tx.Rollback()]. *)
Definition transaction {A} (op_begin op_commit : string) (body : M D A) : M D A :=
  fun w =>
    match bind (round_trip op_begin) (fun _ => bind body (fun a =>
             bind (round_trip op_commit) (fun _ => ret a))) w with
    | (Ok a, w') => (Ok a, w')
    | (Err e, w') => (Err e, World (w_db w) (w_faults w') (w_random w'))
    end.

Fixpoint mapM {A B} (f : A -> M D B) (l : list A) : M D (list B) :=
  match l with
  | [] => ret []
  | x :: l' => bind (f x) (fun y => bind (mapM f l') (fun ys => ret (y :: ys)))
  end.
End Monad.

Declare Scope effect_scope.
Delimit Scope effect_scope with effect.
Notation "'let!' x ':=' m 'in' k" := (bind m (fun x => k))
  (at level 200, x pattern, m at level 200, k at level 200,
   format "'[v' 'let!'  x  ':='  m  'in' '//' k ']'") : effect_scope.
Notation "'do!' m ';' k" := (bind m (fun _ => k))
  (at level 200, m at level 99, k at level 200,
   format "'[v' 'do!'  m ';' '//' k ']'") : effect_scope.
#[global] Open Scope effect_scope.

(** ** Reasoning

    [run m w] names the outcome and the tables after a computation. *)
Definition result_of {D A} (m : M D A) (w : world D) : outcome A := fst (m w).
Definition db_after {D A} (m : M D A) (w : world D) : D := w_db (snd (m w)).

(** A world in which no database call fails. *)
Definition healthy {D} (w : world D) : Prop := Forall (fun f => f = None) (w_faults w).

Section Laws.
Context {D : Type}.

(** A computation that leaves the tables alone, whatever its outcome. *)
Definition pure_db {A} (m : M D A) : Prop := forall w, w_db (snd (m w)) = w_db w.

(** A computation after which the tables satisfy [R before after]. *)
Definition preserves (R : D -> D -> Prop) {A} (m : M D A) : Prop :=
  forall w, R (w_db w) (w_db (snd (m w))).

Lemma bind_ok {A B} (m : M D A) (k : A -> M D B) w b w' :
  bind m k w = (Ok b, w') -> exists a w1, m w = (Ok a, w1) /\ k a w1 = (Ok b, w').
Proof. unfold bind. destruct (m w) as [[a|e] w1]; [eauto|done]. Qed.

Lemma transaction_err {A} ob oc (body : M D A) w e w' :
  transaction ob oc body w = (Err e, w') -> w_db w' = w_db w.
Proof. unfold transaction. case_match; case_match; naive_solver. Qed.

Lemma round_trip_db op (w : world D) : w_db (snd (round_trip (D := D) op w)) = w_db w.
Proof. unfold round_trip. by repeat case_match. Qed.

Lemma round_trip_healthy op (w : world D) :
  healthy w -> exists w', round_trip op w = (Ok tt, w') /\ w_db w' = w_db w /\ healthy w'
                          /\ w_random w' = w_random w.
Proof.
  unfold healthy, round_trip. destruct (w_faults w) as [|f fs] eqn:E; intros H.
  - eexists. simpl. repeat split. constructor.
  - inversion H; subst. eexists. simpl. by repeat split.
Qed.

Context (R : D -> D -> Prop) `{!Reflexive R} `{!Transitive R}.

Lemma preserves_ret {A} (a : A) : preserves R (ret a).
Proof. intros w. simpl. reflexivity. Qed.

Lemma preserves_fail {A} e : preserves R (fail (A := A) e).
Proof. intros w. simpl. reflexivity. Qed.

Lemma preserves_bind {A B} (m : M D A) (k : A -> M D B) :
  preserves R m -> (forall a, preserves R (k a)) -> preserves R (bind m k).
Proof.
  intros Hm Hk w. unfold bind. specialize (Hm w).
  destruct (m w) as [[a|e] w1]; simpl in *; [|done].
  etransitivity; [apply Hm|apply Hk].
Qed.

Lemma preserves_catch {A} (m : M D A) h :
  preserves R m -> (forall e, preserves R (h e)) -> preserves R (catch m h).
Proof.
  intros Hm Hh w. unfold catch. specialize (Hm w).
  destruct (m w) as [[a|e] w1]; simpl in *; [done|].
  etransitivity; [apply Hm|apply Hh].
Qed.

Lemma preserves_guard b e : preserves R (guard b e).
Proof. unfold guard. destruct b; [apply preserves_ret|apply preserves_fail]. Qed.

Lemma preserves_round_trip op : preserves R (round_trip op).
Proof. intros w. by rewrite round_trip_db. Qed.

Lemma preserves_gets {A} (f : D -> A) : preserves R (gets f).
Proof. intros w. simpl. reflexivity. Qed.

Lemma preserves_query {A} op (f : D -> A) : preserves R (query op f).
Proof.
  apply preserves_bind; [apply preserves_round_trip|]. intros []. apply preserves_gets.
Qed.

Lemma preserves_exec op f : (forall d, R d (f d)) -> preserves R (exec op f).
Proof.
  intros H. apply preserves_bind; [apply preserves_round_trip|].
  intros [] w. simpl. apply H.
Qed.

Lemma preserves_exec_count op f : (forall d, R d (fst (f d))) -> preserves R (exec_count op f).
Proof.
  intros H. apply preserves_bind; [apply preserves_round_trip|].
  intros [] w. specialize (H (w_db w)). destruct (f (w_db w)). done.
Qed.

Lemma preserves_insert_unique op f :
  (forall d d', f d = Some d' -> R d d') -> preserves R (insert_unique op f).
Proof.
  intros H. apply preserves_bind; [apply preserves_round_trip|].
  intros [] w. destruct (f (w_db w)) eqn:E; simpl; [by apply H|reflexivity].
Qed.

Lemma preserves_rand n : preserves R (rand_read n).
Proof. intros w. unfold rand_read. case_match; simpl; reflexivity. Qed.

Lemma preserves_transaction {A} ob oc (body : M D A) :
  preserves R body -> preserves R (transaction ob oc body).
Proof.
  intros H w. unfold transaction.
  match goal with |- context [bind (round_trip ob) ?k w] =>
    assert (Hb : preserves R (bind (round_trip ob) k)) end.
  { apply preserves_bind; [apply preserves_round_trip|]. intros _.
    apply preserves_bind; [done|]. intros a.
    apply preserves_bind; [apply preserves_round_trip|]. intros _. apply preserves_ret. }
  specialize (Hb w). case_match; case_match; simpl in *; [done|reflexivity].
Qed.

Lemma preserves_mapM {A B} (f : A -> M D B) l :
  (forall x, preserves R (f x)) -> preserves R (mapM f l).
Proof.
  intros H. induction l as [|x l IH]; simpl; [apply preserves_ret|].
  apply preserves_bind; [done|]. intros y.
  apply preserves_bind; [done|]. intros ys. apply preserves_ret.
Qed.
End Laws.

(** ** What the tables can be afterwards

    [leads d m Q]: started on the tables [d], whatever fails, [m] leaves tables
    that satisfy [Q]. *)
Definition leads {D A} (d : D) (m : M D A) (Q : D -> Prop) : Prop :=
  forall w, w_db w = d -> Q (w_db (snd (m w))).

Section Leads.
Context {D : Type}.
Implicit Types (d : D) (Q : D -> Prop).

Lemma leads_ret {A} d (a : A) Q : Q d -> leads d (ret a) Q.
Proof. by intros H w <-. Qed.

Lemma leads_fail {A} d e Q : Q d -> leads d (fail (A := A) e) Q.
Proof. by intros H w <-. Qed.

Lemma leads_round_trip d op Q : Q d -> leads d (round_trip op) Q.
Proof. intros H w <-. by rewrite round_trip_db. Qed.

Lemma leads_round_trip_bind {A} d op (k : unit -> M D A) Q :
  Q d -> leads d (k tt) Q -> leads d (bind (round_trip op) k) Q.
Proof.
  intros H K w <-. pose proof (round_trip_db op w) as E. unfold bind.
  destruct (round_trip op w) as [[[]|e] w1]; simpl in *; [by apply K|by rewrite E].
Qed.

Lemma leads_query_bind {A B} d op (f : D -> A) (k : A -> M D B) Q :
  Q d -> leads d (k (f d)) Q -> leads d (bind (query op f) k) Q.
Proof.
  intros H K w <-. unfold query, gets, bind. pose proof (round_trip_db op w) as E.
  destruct (round_trip op w) as [[[]|e] w1]; simpl in *; [|by rewrite E].
  rewrite E. by apply K.
Qed.

Lemma leads_exec d op f Q : Q d -> Q (f d) -> leads d (exec op f) Q.
Proof. intros H K. by apply leads_round_trip_bind; [|intros w <-]. Qed.

Lemma leads_exec_bind {A} d op f (k : unit -> M D A) Q :
  Q d -> leads (f d) (k tt) Q -> leads d (bind (exec op f) k) Q.
Proof.
  intros H K w <-. unfold exec, modify, bind. pose proof (round_trip_db op w) as E.
  destruct (round_trip op w) as [[[]|e] w1]; simpl in *; [|by rewrite E].
  apply K. by rewrite E.
Qed.

Lemma leads_exec_count d op f Q : Q d -> Q (fst (f d)) -> leads d (exec_count op f) Q.
Proof.
  intros H K. apply leads_round_trip_bind; [done|]. intros w <-. by destruct (f (w_db w)).
Qed.

Lemma leads_exec_count_bind {A} d op f (k : Z -> M D A) Q :
  Q d -> leads (fst (f d)) (k (snd (f d))) Q -> leads d (bind (exec_count op f) k) Q.
Proof.
  intros H K w <-. unfold exec_count, bind. pose proof (round_trip_db op w) as E.
  destruct (round_trip op w) as [[[]|e] w1]; simpl in *; [|by rewrite E].
  rewrite E. destruct (f (w_db w)) as [d n]. by apply K.
Qed.

Lemma leads_guard_bind {A} d b e (k : unit -> M D A) Q :
  Q d -> (b = true -> leads d (k tt) Q) -> leads d (bind (guard b e) k) Q.
Proof. intros H K. destruct b; [by apply K|by intros w <-]. Qed.

Lemma leads_transaction {A} d ob oc (body : M D A) Q :
  Q d -> leads d body Q -> leads d (transaction ob oc body) Q.
Proof.
  intros H K w <-. unfold transaction.
  assert (L : leads (w_db w) (bind (round_trip ob) (fun _ => bind body (fun a =>
                bind (round_trip oc) (fun _ => ret a)))) Q).
  { apply leads_round_trip_bind; [done|]. intros w1 E1. specialize (K w1 E1). unfold bind at 1.
    destruct (body w1) as [[a|e] w2]; [|done]. simpl in K.
    by apply (leads_round_trip_bind (w_db w2)); [|apply leads_ret|]. }
  specialize (L w eq_refl). by destruct (bind _ _ w) as [[a|e] w'].
Qed.

Lemma leads_weaken {A} d (m : M D A) (Q Q' : D -> Prop) :
  leads d m Q -> (forall d', Q d' -> Q' d') -> leads d m Q'.
Proof. intros H K w E. apply K. by apply H. Qed.
End Leads.

Create HintDb effects.
#[export] Hint Resolve preserves_ret preserves_fail preserves_guard preserves_round_trip
  preserves_gets preserves_query preserves_rand : effects.

(** Walks through a computation, splitting on what it branches on. *)
Ltac preserves_step :=
  lazymatch goal with
  | |- forall _, _ => intros
  | |- preserves _ (bind _ _) => apply preserves_bind; [apply _|..]
  | |- preserves _ (catch _ _) => apply preserves_catch; [apply _|..]
  | |- preserves _ (transaction _ _ _) => apply preserves_transaction; [apply _..|]
  | |- preserves _ (mapM _ _) => apply preserves_mapM; [apply _..|]
  | |- preserves _ (exec _ _) => apply preserves_exec; [apply _..|]
  | |- preserves _ (exec_count _ _) => apply preserves_exec_count; [apply _..|]
  | |- preserves _ (insert_unique _ _) => apply preserves_insert_unique; [apply _..|]
  | |- preserves _ (match _ with _ => _ end) => case_match
  | |- preserves _ (if _ then _ else _) => case_match
  | |- preserves _ (let _ := _ in _) => cbv zeta
  end.

Ltac solve_preserves :=
  repeat first [ solve [eauto with effects typeclass_instances] | preserves_step ].

(** ** Evaluation when the database answers

    [World d [] r]: no call fails. *)
Section Evaluation.
Context {D : Type}.
Implicit Types d : D.

Lemma eval_ret {A} (a : A) (w : world D) : ret a w = (Ok a, w).
Proof. done. Qed.

Lemma eval_fail {A} e (w : world D) : fail (A := A) e w = (Err e, w).
Proof. done. Qed.

Lemma eval_bind {A B} (m : M D A) (k : A -> M D B) w a w' :
  m w = (Ok a, w') -> bind m k w = k a w'.
Proof. unfold bind. by intros ->. Qed.

Lemma eval_bind_err {A B} (m : M D A) (k : A -> M D B) w e w' :
  m w = (Err e, w') -> bind m k w = (Err e, w').
Proof. unfold bind. by intros ->. Qed.

Lemma eval_query {A} op (f : D -> A) d r : query op f (World d [] r) = (Ok (f d), World d [] r).
Proof. done. Qed.

Lemma eval_exec op f d r : exec op f (World d [] r) = (Ok tt, World (f d) [] r).
Proof. done. Qed.

Lemma eval_exec_count op f d r :
  exec_count op f (World d [] r) = (Ok (snd (f d)), World (fst (f d)) [] r).
Proof. unfold exec_count, bind. simpl. by destruct (f d). Qed.

Lemma eval_insert_unique op f d d' r :
  f d = Some d' -> insert_unique op f (World d [] r) = (Ok tt, World d' [] r).
Proof. unfold insert_unique, bind. simpl. by intros ->. Qed.

Lemma eval_guard_true b e (w : world D) : b = true -> guard b e w = (Ok tt, w).
Proof. by intros ->. Qed.

Lemma eval_guard_false b e (w : world D) : b = false -> guard b e w = (Err e, w).
Proof. by intros ->. Qed.

Lemma eval_rand n b d f rs :
  String.length b = n -> rand_read n (World d f (Some b :: rs)) = (Ok (Some b), World d f rs).
Proof. intros <-. unfold rand_read. simpl. by rewrite Nat.eqb_refl. Qed.

Lemma eval_transaction {A} ob oc (body : M D A) d r a d' r' :
  body (World d [] r) = (Ok a, World d' [] r') ->
  transaction ob oc body (World d [] r) = (Ok a, World d' [] r').
Proof.
  intros H. unfold transaction. rewrite (eval_bind _ _ _ tt (World d [] r)) by done.
  rewrite (eval_bind _ _ _ _ _ H). done.
Qed.

Lemma eval_transaction_err {A} ob oc (body : M D A) d r e w :
  body (World d [] r) = (Err e, w) ->
  transaction ob oc body (World d [] r) = (Err e, World d (w_faults w) (w_random w)).
Proof.
  intros H. unfold transaction. rewrite (eval_bind _ _ _ tt (World d [] r)) by done.
  by rewrite (eval_bind_err _ _ _ _ _ H).
Qed.

(** What a successful call reveals. *)
Lemma query_ok {A} op (f : D -> A) w a w' :
  query op f w = (Ok a, w') -> a = f (w_db w) /\ w_db w' = w_db w.
Proof. unfold query, bind, round_trip, gets. intros H. repeat case_match; simplify_eq; done. Qed.

Lemma exec_ok op f (w : world D) u w' : exec op f w = (Ok u, w') -> w_db w' = f (w_db w).
Proof. unfold exec, bind, round_trip, modify. intros H. repeat case_match; simplify_eq; done. Qed.

Lemma exec_count_ok op f (w : world D) n w' :
  exec_count op f w = (Ok n, w') -> f (w_db w) = (w_db w', n).
Proof.
  unfold exec_count, bind, round_trip. intros H.
  repeat case_match; simplify_eq/=; done.
Qed.

Lemma guard_ok b e (w : world D) u w' : guard b e w = (Ok u, w') -> b = true /\ w' = w.
Proof. unfold guard. destruct b; intros [=]; auto. Qed.

Lemma transaction_ok {A} ob oc (body : M D A) w a w' :
  transaction ob oc body w = (Ok a, w') ->
  exists w1 w2, w_db w1 = w_db w /\ body w1 = (Ok a, w2) /\ w_db w' = w_db w2.
Proof.
  unfold transaction. intros H. case_match eqn:E. case_match; simplify_eq.
  apply bind_ok in E as ([] & w1 & E1 & E).
  apply bind_ok in E as (a' & w2 & E2 & E).
  apply bind_ok in E as ([] & w3 & E3 & E). injection E as <- <-.
  exists w1, w2. split; [|split; [done|]].
  - pose proof (round_trip_db ob w). by rewrite E1 in *.
  - pose proof (round_trip_db oc w2). by rewrite E3 in *.
Qed.
End Evaluation.

(** One step of evaluation in a world whose calls succeed. *)
Ltac eval_step :=
  first
    [ rewrite eval_ret | rewrite eval_fail
    | erewrite eval_bind; [|first [ reflexivity | apply eval_query | apply eval_exec
                                  | apply eval_exec_count ]] ].

(** Opens a hypothesis that says a computation succeeded. *)
Tactic Notation "invert_ok" hyp(H) "as" ident(E) :=
  let a := fresh "a" in let w := fresh "w" in
  apply bind_ok in H as (a & w & E & H).
