(* ===== verification/Http.v ===== *)
(** * Requests, bodies and responses

    What the handlers see of net/http and encoding/json: path values, headers,
    query and cookie of a request, its body decoded into a struct, and the
    response they write. *)

From S2P Require Import Prelude GoStrings Json Effects.

(** ** Bodies

    A member of the top-level object: its value with nested members in document
    order, and, when it is a number, what
    [strconv.ParseInt] makes of its literal (a fraction or an exponent is not an
    integer literal). *)
Record field := Field {
  fl_value : json;
  fl_int : option Z;
}.

(** A body in document order.  [BodyMalformed] is a syntax error or a body over
    the size limit. *)
Inductive body :=
| BodyEOF
| BodyMalformed
| BodyNull
| BodyOther
| BodyObject (members : list (string * field)).

(** Struct fields: name in the tag, and how a member is stored; [None] is an
    [UnmarshalTypeError]. *)
Definition setter (S : Type) : Type := field -> S -> option S.

Section Decode.
Context {S : Type}.

Definition find_field (fields : list (string * setter S)) (key : string) : option (setter S) :=
  match List.find (fun f => String.eqb (fst f) key) fields with
  | Some f => Some (snd f)
  | None => snd <$> List.find (fun f => String.eqb (foldName (fst f)) (foldName key)) fields
  end.

(** The members in order; a later one overwrites an earlier one. *)
Fixpoint decode_members (strict : bool) (fields : list (string * setter S))
  (members : list (string * field)) (s : S) : option S :=
  match members with
  | [] => Some s
  | (key, v) :: rest =>
      match find_field fields key with
      | Some set => s' ← set v s; decode_members strict fields rest s'
      | None => if strict then None else decode_members strict fields rest s
      end
  end.

Inductive decoded := Decoded (s : S) | DecodedEOF | DecodeError.

(** [decoder.Decode(&body)]; a JSON null leaves the struct as it is. *)
Definition decode (strict : bool) (fields : list (string * setter S)) (zero : S) (b : body)
  : decoded :=
  match b with
  | BodyEOF => DecodedEOF
  | BodyMalformed | BodyOther => DecodeError
  | BodyNull => Decoded zero
  | BodyObject members =>
      match decode_members strict fields members zero with
      | Some s => Decoded s
      | None => DecodeError
      end
  end.

(** How values are stored by the type of the field; null leaves a string or an
    integer alone and clears a pointer, an interface, a slice or a map. *)
Definition to_string (upd : string -> S -> S) : setter S := fun v s =>
  match fl_value v with
  | JStr t => Some (upd t s)
  | JNull => Some s
  | _ => None
  end.

Definition to_int (upd : Z -> S -> S) : setter S := fun v s =>
  match fl_value v with
  | JNum _ => (fun z => upd z s) <$> fl_int v
  | JNull => Some s
  | _ => None
  end.

Definition to_int_pointer (upd : option Z -> S -> S) : setter S := fun v s =>
  match fl_value v with
  | JNum _ => (fun z => upd (Some z) s) <$> fl_int v
  | JNull => Some (upd None s)
  | _ => None
  end.

Definition to_any (upd : json -> S -> S) : setter S := fun v s => Some (upd (normalize (fl_value v)) s).

Definition to_array (upd : option (list json) -> S -> S) : setter S := fun v s =>
  match fl_value v with
  | JArr l => Some (upd (Some (map normalize l)) s)
  | JNull => Some (upd None s)
  | _ => None
  end.

(** A map keeps the entries of an earlier member of the same name. *)
Definition to_map (get : S -> option (dict json)) (upd : option (dict json) -> S -> S) : setter S :=
  fun v s =>
  match fl_value v with
  | JObj d => Some (upd (Some (fold_left (fun m kv => dset (fst kv) (normalize (snd kv)) m) d
                                         (default [] (get s)))) s)
  | JNull => Some (upd None s)
  | _ => None
  end.

(** [map[string][]any]: a null entry is a nil slice. *)
Definition to_array_map (get : S -> option (dict (list json)))
  (upd : option (dict (list json)) -> S -> S) : setter S :=
  fun v s =>
  match fl_value v with
  | JObj d =>
      (fun m => upd (Some m) s) <$>
      fold_left (fun acc kv => m ← acc;
                   match snd kv with
                   | JArr l => Some (dset (fst kv) (map normalize l) m)
                   | JNull => Some (dset (fst kv) [] m)
                   | _ => None
                   end) d (Some (default [] (get s)))
  | JNull => Some (upd None s)
  | _ => None
  end.
End Decode.
Arguments decoded : clear implicits.

(** ** Requests and responses *)
Record Request := {
  rq_path : dict string;
  rq_header : dict string;
  rq_query : dict string;
  rq_cookie : option string;
  rq_body : body;
}.

(** [request.PathValue], [request.Header.Get], [request.URL.Query().Get]: empty
    when absent. *)
Definition pathValue (r : Request) (k : string) : string := default "" (dget k (rq_path r)).
Definition header (r : Request) (k : string) : string := default "" (dget k (rq_header r)).
Definition queryValue (r : Request) (k : string) : string := default "" (dget k (rq_query r)).

(** What a handler writes: a status and a payload, or nothing, which net/http
    sends as 200 with an empty body. *)
Inductive response (P : Type) := Written (status : Z) (payload : P) | Unwritten.
Arguments Written {P}.
Arguments Unwritten {P}.

Definition status_of {P} (r : response P) : Z :=
  match r with Written s _ => s | Unwritten => 200 end.

(** [x, err := m]: an error is a value; a panic is not. *)
Definition attempt {D A} (m : M D A) : M D (outcome A) :=
  fun w => match m w with
           | (Err (Panic s), w') => (Err (Panic s), w')
           | (r, w') => (Ok r, w')
           end.

(** [parsePathID]. *)
Definition parsePathID (value : string) : option Z :=
  match parseInt value with
  | Some parsed => if 0 <? parsed then Some parsed else None
  | None => None
  end.

(** ** Lemmas *)
Lemma parsePathID_pos s z : parsePathID s = Some z -> 0 < z <= int64_max.
Proof.
  unfold parsePathID. destruct (parseInt s) as [x|] eqn:E; [|done].
  apply parseInt_in_int64 in E. unfold in_int64 in E. rewrite andb_true_iff, !Z.leb_le in E.
  destruct (Z.ltb_spec 0 x); intros [= <-]. lia.
Qed.

Lemma attempt_db {D A} (m : M D A) w r w' :
  attempt m w = (r, w') -> snd (m w) = w'.
Proof. unfold attempt. repeat case_match; intros [= <- <-]; done. Qed.

Lemma attempt_ok {D A} (m : M D A) w r w' :
  attempt m w = (Ok r, w') -> m w = (r, w').
Proof. unfold attempt. destruct (m w) as [[a|[]] w1]; intros [= <- <-]; done. Qed.

Lemma preserves_attempt {D A} (R : D -> D -> Prop) (m : M D A) :
  preserves R m -> preserves R (attempt m).
Proof. intros H w. specialize (H w). unfold attempt. destruct (m w) as [[a|[]] w1]; done. Qed.

Lemma leads_attempt {D A C} (d : D) (m : M D A) (g : outcome A -> C) Q :
  leads d m Q -> leads d (bind (attempt m) (fun r => ret (g r))) Q.
Proof. intros H w E. specialize (H w E). unfold bind, attempt. by destruct (m w) as [[a|[]] w1]. Qed.
