(* ===== verification/Contracts.v ===== *)
(** * Contracts of computations

    [wp d m Q]: started on the tables [d], in any world, whatever fails, [m] ends
    with an outcome and tables that satisfy [Q].  The rules follow the monad, so that
    the contract of a handler is read off its text. *)

From S2P Require Import Prelude Effects Http.

Definition wp {D A} (d : D) (m : M D A) (Q : outcome A -> D -> Prop) : Prop :=
  forall w, w_db w = d -> Q (fst (m w)) (w_db (snd (m w))).

Section Rules.
Context {D : Type}.
Implicit Types d : D.

Lemma wp_ret {A} d (a : A) (Q : outcome A -> D -> Prop) : Q (Ok a) d -> wp d (ret a) Q.
Proof. by intros H w <-. Qed.

Lemma wp_fail {A} d e (Q : outcome A -> D -> Prop) : Q (Err e) d -> wp d (fail e) Q.
Proof. by intros H w <-. Qed.

Lemma wp_weaken {A} d (m : M D A) (Q Q' : outcome A -> D -> Prop) :
  wp d m Q -> (forall r d', Q r d' -> Q' r d') -> wp d m Q'.
Proof. intros H K w E. by apply K, H. Qed.

Lemma wp_bind {A B} d (m : M D A) (k : A -> M D B) (Q : outcome B -> D -> Prop) :
  wp d m (fun r d' => match r with Ok a => wp d' (k a) Q | Err e => Q (Err e) d' end) ->
  wp d (bind m k) Q.
Proof.
  intros H w E. specialize (H w E). unfold bind.
  destruct (m w) as [[a|e] w1]; simpl in *; [by apply H|done].
Qed.

Lemma wp_round_trip d op (Q : outcome unit -> D -> Prop) :
  Q (Ok tt) d -> (forall m, Q (Err (DatabaseFailure m)) d) -> wp d (round_trip op) Q.
Proof.
  intros H K w <-. pose proof (round_trip_db op w) as E. unfold round_trip in *.
  destruct (w_faults w) as [|[f|] fs]; simpl in *; auto.
Qed.

Lemma wp_query {A} d op (f : D -> A) (Q : outcome A -> D -> Prop) :
  Q (Ok (f d)) d -> (forall m, Q (Err (DatabaseFailure m)) d) -> wp d (query op f) Q.
Proof.
  intros H K. apply wp_bind, wp_round_trip; [|done]. by intros w <-.
Qed.

Lemma wp_exec d op f (Q : outcome unit -> D -> Prop) :
  Q (Ok tt) (f d) -> (forall m, Q (Err (DatabaseFailure m)) d) -> wp d (exec op f) Q.
Proof. intros H K. apply wp_bind, wp_round_trip; [|done]. by intros w <-. Qed.

Lemma wp_exec_count d op f (Q : outcome Z -> D -> Prop) :
  Q (Ok (snd (f d))) (fst (f d)) -> (forall m, Q (Err (DatabaseFailure m)) d) ->
  wp d (exec_count op f) Q.
Proof.
  intros H K. apply wp_bind, wp_round_trip; [|done]. intros w <-. by destruct (f (w_db w)).
Qed.

Lemma wp_insert_unique d op f (Q : outcome unit -> D -> Prop) :
  (forall d', f d = Some d' -> Q (Ok tt) d') -> (forall m, Q (Err (DatabaseFailure m)) d) ->
  wp d (insert_unique op f) Q.
Proof.
  intros H K. apply wp_bind, wp_round_trip; [|done]. intros w <-.
  destruct (f (w_db w)) eqn:E; simpl; auto.
Qed.

Lemma wp_gets {A} d (f : D -> A) (Q : outcome A -> D -> Prop) : Q (Ok (f d)) d -> wp d (gets f) Q.
Proof. by intros H w <-. Qed.

Lemma wp_modify d f (Q : outcome unit -> D -> Prop) : Q (Ok tt) (f d) -> wp d (modify f) Q.
Proof. by intros H w <-. Qed.

Lemma wp_elim {A} (m : M D A) (w : world D) (Q : outcome A -> D -> Prop) r w' :
  wp (w_db w) m Q -> m w = (r, w') -> Q r (w_db w').
Proof. intros H E. specialize (H w eq_refl). by rewrite E in H. Qed.

(** A relation that a computation preserves holds of what it ends with. *)
Lemma wp_preserves {A} (R : D -> D -> Prop) d (m : M D A) : preserves R m -> wp d m (fun _ d' => R d d').
Proof. intros H w <-. apply H. Qed.

Lemma preserves_wp {A} (R : D -> D -> Prop) (m : M D A) : (forall d, wp d m (fun _ d' => R d d')) -> preserves R m.
Proof. intros H w. by apply (H (w_db w) w). Qed.

Lemma wp_guard d b e (Q : outcome unit -> D -> Prop) :
  (b = true -> Q (Ok tt) d) -> (b = false -> Q (Err e) d) -> wp d (guard b e) Q.
Proof. intros H K. destruct b; [by apply wp_ret, H|by apply wp_fail, K]. Qed.

Lemma wp_rand d n (Q : outcome (option string) -> D -> Prop) :
  Q (Ok None) d -> (forall b, String.length b = n -> Q (Ok (Some b)) d) -> wp d (rand_read n) Q.
Proof.
  intros H K w <-. unfold rand_read. destruct (w_random w) as [|[b|] rs]; simpl; [done| |done].
  destruct (Nat.eqb_spec (String.length b) n); auto.
Qed.

Lemma wp_attempt {A} d (m : M D A) (Q : outcome (outcome A) -> D -> Prop) :
  wp d m (fun r d' => match r with
                      | Err (Panic s) => Q (Err (Panic s)) d'
                      | r => Q (Ok r) d'
                      end) ->
  wp d (attempt m) Q.
Proof. intros H w E. specialize (H w E). unfold attempt. by destruct (m w) as [[a|[]] w1]. Qed.

Lemma wp_transaction {A} d ob oc (body : M D A) (Q : outcome A -> D -> Prop) :
  wp d body (fun r d' => match r with Ok a => Q (Ok a) d' | Err e => Q (Err e) d end) ->
  (forall m, Q (Err (DatabaseFailure m)) d) ->
  wp d (transaction ob oc body) Q.
Proof.
  intros H K w E. unfold transaction.
  assert (L : wp d (bind (round_trip ob) (fun _ => bind body (fun a =>
                bind (round_trip oc) (fun _ => ret a))))
                (fun r d' => match r with Ok a => Q (Ok a) d' | Err e => Q (Err e) d end)).
  { apply wp_bind, wp_round_trip; [|done]. apply wp_bind.
    eapply wp_weaken; [exact H|]. intros [a|e] d' Hr; [|done].
    apply wp_bind, wp_round_trip; [by apply wp_ret|done]. }
  specialize (L w E). destruct (bind _ _ w) as [[a|e] w']; simpl in *; [done|by rewrite E].
Qed.
End Rules.

(** ** A part of the state

    [zoom get put m]: the computation [m] on a part of the tables. *)
Definition zoom {D E A} (get : D -> E) (put : E -> D -> D) (m : M E A) : M D A := fun w =>
  let '(r, w') := m (World (get (w_db w)) (w_faults w) (w_random w)) in
  (r, World (put (w_db w') (w_db w)) (w_faults w') (w_random w')).

Lemma wp_zoom {D E A} (get : D -> E) put d (m : M E A) (Q : outcome A -> D -> Prop) :
  wp (get d) m (fun r e => Q r (put e d)) -> wp d (zoom get put m) Q.
Proof.
  intros H w E0. unfold zoom. specialize (H (World (get (w_db w)) (w_faults w) (w_random w))).
  cbn in H. rewrite E0 in H. specialize (H eq_refl). rewrite <- E0 in H.
  rewrite E0 in *. by destruct (m _) as [r w'].
Qed.

Lemma eval_zoom {D E A} (get : D -> E) put d r (m : M E A) a e r' :
  m (World (get d) [] r) = (a, World e [] r') ->
  zoom get put m (World d [] r) = (a, World (put e d) [] r').
Proof. intros H. unfold zoom. cbn. by rewrite H. Qed.

(** One rule, chosen by the head of the computation. *)
Ltac wp_step :=
  lazymatch goal with
  | |- wp _ (ret _) _ => apply wp_ret
  | |- wp _ (fail _) _ => apply wp_fail
  | |- wp _ (bind _ _) _ => apply wp_bind
  | |- wp _ (query _ _) _ => apply wp_query; [|intros ?]
  | |- wp _ (exec _ _) _ => apply wp_exec; [|intros ?]
  | |- wp _ (exec_count _ _) _ => apply wp_exec_count; [|intros ?]
  | |- wp _ (insert_unique _ _) _ => apply wp_insert_unique; [intros ? ?|intros ?]
  | |- wp _ (guard _ _) _ => apply wp_guard; intros ?
  | |- wp _ (rand_read _) _ => apply wp_rand; [|intros ? ?]
  | |- wp _ (gets _) _ => apply wp_gets
  | |- wp _ (modify _) _ => apply wp_modify
  | |- wp _ (attempt _) _ => apply wp_attempt
  | |- wp _ (zoom _ _ _) _ => apply wp_zoom
  | |- wp _ (round_trip _) _ => apply wp_round_trip; [|intros ?]
  | |- wp _ (match ?x with _ => _ end) _ => destruct x eqn:?
  | |- wp _ (let _ := _ in _) _ => cbv zeta
  end.
