(* ===== verification/Secrets.v ===== *)
(** * Integration secrets: the Laravel envelope

    internal/integrations/secret.go: the application key, PKCS #7 padding, and
    the AES-256-CBC envelope with its HMAC.  Bytes are integers in [0, 255].
    AES-CBC and HMAC-SHA256 (crypto/aes, crypto/cipher, crypto/hmac) and the JSON
    text of the envelope (encoding/json) are arguments, with the laws the code
    relies on in the class [Crypto]. *)

From S2P Require Import Prelude GoStrings Json Effects.

(** ** Bytes *)
Definition byte_z (c : ascii) : Z := Z.of_N (Ascii.N_of_ascii c).
Definition z_byte (z : Z) : ascii := Ascii.ascii_of_N (Z.to_N z).
Definition bytes_of (s : string) : list Z := map byte_z (chars s).
Definition string_of (l : list Z) : string := of_chars (map z_byte l).
Definition is_byte (z : Z) : Prop := 0 <= z < 256.

Lemma byte_z_range c : is_byte (byte_z c).
Proof. unfold is_byte, byte_z. pose proof (Ascii.N_ascii_bounded c). lia. Qed.

Lemma z_byte_z c : z_byte (byte_z c) = c.
Proof. unfold z_byte, byte_z. rewrite N2Z.id. apply Ascii.ascii_N_embedding. Qed.

Lemma byte_z_byte z : is_byte z -> byte_z (z_byte z) = z.
Proof.
  unfold is_byte, byte_z, z_byte. intros H. rewrite Ascii.N_ascii_embedding by lia. lia.
Qed.

Lemma bytes_of_range s : Forall is_byte (bytes_of s).
Proof. unfold bytes_of. rewrite Forall_map. apply Forall_true. intros c. apply byte_z_range. Qed.

Lemma string_of_bytes_of s : string_of (bytes_of s) = s.
Proof.
  unfold string_of, bytes_of. rewrite map_map. rewrite (map_ext _ id), map_id by apply z_byte_z.
  apply of_chars_chars.
Qed.

Lemma bytes_of_string_of l : Forall is_byte l -> bytes_of (string_of l) = l.
Proof.
  intros H. unfold bytes_of, string_of. rewrite chars_of_chars, map_map.
  induction H as [|z l Hz _ IH]; simpl; [done|]. by rewrite byte_z_byte, IH.
Qed.

(** ** Base 64: encoding/base64.StdEncoding *)
Definition b64_char (v : Z) : ascii :=
  if v <? 26 then z_byte (65 + v)
  else if v <? 52 then z_byte (97 + (v - 26))
  else if v <? 62 then z_byte (48 + (v - 52))
  else if v =? 62 then "+"%char else "/"%char.

Definition b64_value (c : ascii) : option Z :=
  let z := byte_z c in
  if (65 <=? z) && (z <=? 90) then Some (z - 65)
  else if (97 <=? z) && (z <=? 122) then Some (z - 97 + 26)
  else if (48 <=? z) && (z <=? 57) then Some (z - 48 + 52)
  else if z =? 43 then Some 62
  else if z =? 47 then Some 63
  else None.

Definition pad_char : ascii := "="%char.

Fixpoint b64_encode (l : list Z) : list ascii :=
  match l with
  | [] => []
  | [a] => [b64_char (a / 4); b64_char (a mod 4 * 16); pad_char; pad_char]
  | [a; b] => [b64_char (a / 4); b64_char (a mod 4 * 16 + b / 16);
               b64_char (b mod 16 * 4); pad_char]
  | a :: b :: c :: rest =>
      b64_char (a / 4) :: b64_char (a mod 4 * 16 + b / 16) ::
      b64_char (b mod 16 * 4 + c / 64) :: b64_char (c mod 64) :: b64_encode rest
  end.

(** Groups of four; padding ends the text.  The decoder is not strict: the
    unused bits of the last group are ignored. *)
Fixpoint b64_groups (l : list ascii) : option (list Z) :=
  match l with
  | [] => Some []
  | w :: x :: y :: z :: rest =>
      w ← b64_value w;
      x ← b64_value x;
      if Ascii.eqb y pad_char then
        match rest with
        | [] => if Ascii.eqb z pad_char then Some [w * 4 + x / 16] else None
        | _ => None
        end
      else
        y ← b64_value y;
        if Ascii.eqb z pad_char then
          match rest with
          | [] => Some [w * 4 + x / 16; x mod 16 * 16 + y / 4]
          | _ => None
          end
        else
          z ← b64_value z;
          tail ← b64_groups rest;
          Some (w * 4 + x / 16 :: x mod 16 * 16 + y / 4 :: y mod 4 * 64 + z :: tail)
  | _ => None
  end.

(** [EncodeToString] and [DecodeString], which skips line ends. *)
Definition base64Encode (l : list Z) : string := of_chars (b64_encode l).

Definition base64Decode (s : string) : option (list Z) :=
  b64_groups (List.filter (fun c => negb (Ascii.eqb c (byte 10) || Ascii.eqb c (byte 13))) (chars s)).

(** ** PKCS #7 *)

(** [pkcs7Pad]. *)
Definition pkcs7Pad (value : list Z) (blockSize : Z) : list Z :=
  let padding := blockSize - Z.of_nat (length value) mod blockSize in
  (value ++ repeat padding (Z.to_nat padding))%list.

(** [pkcs7Unpad]. *)
Definition pkcs7Unpad (value : list Z) (blockSize : Z) : option (list Z) :=
  let n := Z.of_nat (length value) in
  if (n =? 0) || negb (n mod blockSize =? 0) then None
  else
    let padding := List.last value 0 in
    if (padding <? 1) || (blockSize <? padding) || (n <? padding) then None
    else
      let cut := Z.to_nat (n - padding) in
      if forallb (fun item => item =? padding) (drop cut value) then Some (take cut value)
      else None.

(** ** The envelope *)
Record laravelPayload := {
  l_IV : string;
  l_Value : string;
  l_MAC : string;
  l_Tag : string;
}.

Definition blockSize : Z := 16.

Class Crypto := {
  cbc_encrypt : list Z -> list Z -> list Z -> list Z;
  cbc_decrypt : list Z -> list Z -> list Z -> list Z;
  hmac_sha256 : list Z -> string -> list Z;
  marshal_payload : laravelPayload -> string;
  unmarshal_payload : string -> option laravelPayload;
}.

(** CBC maps whole blocks to as many bytes and back, HMAC-SHA256 gives 32 bytes,
    and the JSON text of an envelope of plain texts reads back. *)
Class CryptoLaws (C : Crypto) := {
  cbc_bytes : forall k iv p, Forall is_byte p -> Forall is_byte (cbc_encrypt k iv p);
  cbc_length : forall k iv p, length (cbc_encrypt k iv p) = length p;
  cbc_inverse : forall k iv p,
    length k = 32%nat -> length iv = 16%nat -> Z.of_nat (length p) mod blockSize = 0 ->
    Forall is_byte p -> cbc_decrypt k iv (cbc_encrypt k iv p) = p;
  hmac_bytes : forall k m, Forall is_byte (hmac_sha256 k m);
  payload_inverse : forall iv value mac : list Z,
    let p := {| l_IV := base64Encode iv; l_Value := base64Encode value;
                l_MAC := hexEncode (string_of mac); l_Tag := "" |} in
    unmarshal_payload (marshal_payload p) = Some p;
}.

(** encoding/hex.DecodeString. *)
Definition hex_value (c : ascii) : option Z :=
  let z := byte_z c in
  if (48 <=? z) && (z <=? 57) then Some (z - 48)
  else if (97 <=? z) && (z <=? 102) then Some (z - 97 + 10)
  else if (65 <=? z) && (z <=? 70) then Some (z - 65 + 10)
  else None.

Fixpoint hex_pairs (l : list ascii) : option (list Z) :=
  match l with
  | [] => Some []
  | a :: b :: rest =>
      a ← hex_value a; b ← hex_value b; tail ← hex_pairs rest; Some (a * 16 + b :: tail)
  | _ => None
  end.

Definition hexDecode (s : string) : option (list Z) := hex_pairs (chars s).

(** [ParseApplicationKey]. *)
Definition ParseApplicationKey (value : string) : option (list Z) :=
  let value := trimSpace value in
  if hasPrefix value "base64:" then
    decoded ← base64Decode (of_chars (drop 7 (chars value)));
    if (length decoded =? 32)%nat then Some decoded else None
  else if slen value =? 32 then Some (bytes_of value) else None.

(** [ApplicationKeyFromEnvironment]: the variables, and the file a path names. *)
Definition ApplicationKeyFromEnvironment (getenv : string -> string)
  (readFile : string -> option string) : string + list Z :=
  let value := getenv "APP_KEY" in
  let filePath := getenv "IDELIUM_APP_KEY_FILE" in
  let filePath := if String.eqb filePath "" then getenv "APP_KEY_FILE" else filePath in
  let parse value :=
    match ParseApplicationKey value with
    | Some key => inr key
    | None => inl "integration application key is not configured"
    end in
  if String.eqb filePath "" then parse value
  else
    match readFile filePath with
    | None => inl "integration application key file is not readable"
    | Some contents => parse (trimRightSet [byte 13; byte 10] contents)
    end.

Section Envelope.
Context `{C : Crypto}.

(** [EncryptLaravelString], with the bytes of the initialisation vector. *)
Definition EncryptLaravelString (key : list Z) (plaintext : string) (iv : option (list Z))
  : error + string :=
  if negb (length key =? 32)%nat then inl ErrInvalidApplicationKey
  else
    match iv with
    | None => inl (OtherError "generate integration secret initialization vector")
    | Some iv =>
        let padded := pkcs7Pad (bytes_of plaintext) blockSize in
        let ciphertext := cbc_encrypt key iv padded in
        let encodedIV := base64Encode iv in
        let encodedValue := base64Encode ciphertext in
        let mac := hmac_sha256 key (encodedIV +:+ encodedValue) in
        let payload := marshal_payload
          {| l_IV := encodedIV; l_Value := encodedValue; l_MAC := hexEncode (string_of mac);
             l_Tag := "" |} in
        inr (base64Encode (bytes_of payload))
    end.

(** [DecryptLaravelString]. *)
Definition DecryptLaravelString (key : list Z) (envelope : string) : error + string :=
  if negb (length key =? 32)%nat then inl ErrInvalidApplicationKey
  else
    match (payloadJSON ← base64Decode envelope;
           payload ← unmarshal_payload (string_of payloadJSON);
           iv ← base64Decode (l_IV payload);
           if negb (Z.of_nat (length iv) =? blockSize) then None
           else
             ciphertext ← base64Decode (l_Value payload);
             let n := Z.of_nat (length ciphertext) in
             if (n =? 0) || negb (n mod blockSize =? 0) then None
             else
               expectedMAC ← hexDecode (l_MAC payload);
               let mac := hmac_sha256 key (l_IV payload +:+ l_Value payload) in
               if negb (bool_decide (expectedMAC = mac)) then None
               else string_of <$> pkcs7Unpad (cbc_decrypt key iv ciphertext) blockSize) with
    | Some plaintext => inr plaintext
    | None => inl ErrInvalidCiphertext
    end.
End Envelope.

(** ** Round trips *)
Definition sextets : list Z := map Z.of_nat (seq 0 64).

Lemma sextet_cases (P : Z -> bool) v :
  forallb P sextets = true -> 0 <= v < 64 -> P v = true.
Proof.
  intros H R. rewrite forallb_forall in H. apply H. unfold sextets. apply in_map_iff.
  exists (Z.to_nat v). split; [lia|]. apply in_seq. lia.
Qed.

Lemma b64_value_char v : 0 <= v < 64 -> b64_value (b64_char v) = Some v.
Proof.
  intros R. apply (sextet_cases (fun v => bool_decide (b64_value (b64_char v) = Some v))) in R;
    [by apply bool_decide_eq_true in R|vm_compute; reflexivity].
Qed.

Lemma b64_char_plain v :
  0 <= v < 64 -> Ascii.eqb (b64_char v) pad_char = false /\
    negb (Ascii.eqb (b64_char v) (byte 10) || Ascii.eqb (b64_char v) (byte 13)) = true.
Proof.
  intros R. apply (sextet_cases (fun v => negb (Ascii.eqb (b64_char v) pad_char) &&
    negb (Ascii.eqb (b64_char v) (byte 10) || Ascii.eqb (b64_char v) (byte 13)))) in R;
    [|vm_compute; reflexivity].
  apply andb_true_iff in R as [R1 R2]. by rewrite negb_true_iff in R1.
Qed.

(** Induction by groups of three. *)
Lemma triples_ind {A} (P : list A -> Prop) :
  P [] -> (forall a, P [a]) -> (forall a b, P [a; b]) ->
  (forall a b c l, P l -> P (a :: b :: c :: l)) -> forall l, P l.
Proof.
  intros H0 H1 H2 H3. fix IH 1. intros [|a [|b [|c l]]]; [apply H0|apply H1|apply H2|].
  apply H3, IH.
Qed.

Ltac bytes_lia := unfold is_byte in *; Z.div_mod_to_equations; lia.

Lemma b64_groups_encode l : Forall is_byte l -> b64_groups (b64_encode l) = Some l.
Proof.
  induction l as [|a|a b|a b c l IH] using triples_ind; intros F; [done|..];
    repeat (apply Forall_cons in F as [? F]); cbn [b64_encode b64_groups].
  - rewrite !b64_value_char by bytes_lia. cbn. do 2 f_equal. bytes_lia.
  - rewrite !b64_value_char by bytes_lia. cbn.
    rewrite (proj1 (b64_char_plain (b mod 16 * 4) ltac:(bytes_lia))).
    rewrite ?b64_value_char by bytes_lia. cbn. f_equal. f_equal; [bytes_lia|]. f_equal. bytes_lia.
  - rewrite ?b64_value_char by bytes_lia. cbn.
    rewrite (proj1 (b64_char_plain (b mod 16 * 4 + c / 64) ltac:(bytes_lia))).
    rewrite ?b64_value_char by bytes_lia. cbn.
    rewrite (proj1 (b64_char_plain (c mod 64) ltac:(bytes_lia))).
    rewrite IH by done. cbn. f_equal. f_equal; [bytes_lia|]. f_equal; [bytes_lia|].
    f_equal. bytes_lia.
Qed.

Lemma b64_encode_plain l :
  Forall is_byte l ->
  List.filter (fun c => negb (Ascii.eqb c (byte 10) || Ascii.eqb c (byte 13))) (b64_encode l)
  = b64_encode l.
Proof.
  assert (K : forall v rest, 0 <= v < 64 ->
    List.filter (fun c => negb (Ascii.eqb c (byte 10) || Ascii.eqb c (byte 13))) (b64_char v :: rest)
    = b64_char v :: List.filter (fun c => negb (Ascii.eqb c (byte 10) || Ascii.eqb c (byte 13))) rest).
  { intros v rest R. cbn [List.filter]. by rewrite (proj2 (b64_char_plain v R)). }
  induction l as [|a|a b|a b c l IH] using triples_ind; intros F; [done|..];
    repeat (apply Forall_cons in F as [? F]); cbn [b64_encode];
    rewrite !K by bytes_lia; [done..|by rewrite IH].
Qed.

Lemma base64_round_trip l : Forall is_byte l -> base64Decode (base64Encode l) = Some l.
Proof.
  intros F. unfold base64Decode, base64Encode. rewrite chars_of_chars, b64_encode_plain by done.
  by apply b64_groups_encode.
Qed.

Lemma pkcs7_length v :
  Z.of_nat (length (pkcs7Pad v blockSize)) mod blockSize = 0 /\
  0 < Z.of_nat (length (pkcs7Pad v blockSize)).
Proof.
  unfold pkcs7Pad. rewrite length_app, repeat_length, Nat2Z.inj_add, Z2Nat.id;
    unfold blockSize; set (n := Z.of_nat (length v)); assert (0 <= n) by lia;
    Z.div_mod_to_equations; lia.
Qed.

Lemma pkcs7_bytes v : Forall is_byte v -> Forall is_byte (pkcs7Pad v blockSize).
Proof.
  intros F. apply Forall_app. split; [done|]. apply Forall_forall. intros x Hx.
  apply list_elem_of_In, repeat_spec in Hx as ->. unfold blockSize. bytes_lia.
Qed.

Lemma pkcs7_round_trip v : pkcs7Unpad (pkcs7Pad v blockSize) blockSize = Some v.
Proof.
  destruct (pkcs7_length v) as [M P]. unfold pkcs7Unpad.
  destruct (Z.eqb_spec (Z.of_nat (length (pkcs7Pad v blockSize))) 0) as [|_]; [lia|].
  rewrite M. cbn [orb negb Z.eqb].
  set (n := Z.of_nat (length v)). set (p := blockSize - n mod blockSize).
  assert (R : 1 <= p <= blockSize) by (unfold p, blockSize; Z.div_mod_to_equations; lia).
  assert (E : pkcs7Pad v blockSize = (v ++ repeat p (Z.to_nat p))%list) by done.
  assert (L : Z.of_nat (length (pkcs7Pad v blockSize)) = n + p).
  { rewrite E, length_app, repeat_length, Nat2Z.inj_add, Z2Nat.id by lia. done. }
  assert (Last : List.last (pkcs7Pad v blockSize) 0 = p).
  { rewrite E. replace (Z.to_nat p) with (Z.to_nat (p - 1) + 1)%nat by lia.
    rewrite repeat_app. simpl. rewrite app_assoc. apply List.last_last. }
  rewrite Last, L.
  assert (G : (p <? 1) || (blockSize <? p) || (n + p <? p) = false).
  { rewrite !orb_false_iff, !Z.ltb_ge. lia. }
  rewrite G. replace (Z.to_nat (n + p - p)) with (length v) by lia.
  rewrite E, drop_app_length, take_app_length.
  assert (F : forallb (fun item => item =? p) (repeat p (Z.to_nat p)) = true).
  { apply forallb_forall. intros x Hx. apply repeat_spec in Hx as ->. apply Z.eqb_refl. }
  by rewrite F.
Qed.

Lemma hex_value_digit n : (n < 16)%nat -> hex_value (hex_digit n) = Some (Z.of_nat n).
Proof. intros H. do 16 (destruct n as [|n]; [reflexivity|]). lia. Qed.

Lemma hex_round_trip s : hexDecode (hexEncode s) = Some (bytes_of s).
Proof.
  unfold hexDecode, hexEncode, bytes_of. rewrite chars_of_chars.
  induction (chars s) as [|c l IH]; [done|].
  change (flat_map hex_byte (c :: l)) with (hex_byte c ++ flat_map hex_byte l)%list.
  unfold hex_byte at 1. cbn [app hex_pairs]. pose proof (Ascii.nat_ascii_bounded c) as Bd.
  rewrite !hex_value_digit.
  - rewrite IH. cbn [mbind option_bind map]. do 2 f_equal. unfold byte_z, Ascii.nat_of_ascii in *.
    rewrite Nat2Z.inj_div, Nat2Z.inj_mod, N_nat_Z. change (Z.of_nat 16) with 16.
    Z.div_mod_to_equations. lia.
  - apply Nat.Div0.div_lt_upper_bound. lia.
  - apply Nat.mod_upper_bound. lia.
Qed.

(** The accepted envelopes are those whose MAC is valid. *)
Section EnvelopeTheorems.
Context `{C : Crypto} `{L : !CryptoLaws C}.

Lemma envelope_inverse (key iv : list Z) (plaintext envelope : string) :
  length key = 32%nat -> length iv = 16%nat -> Forall is_byte iv ->
  EncryptLaravelString key plaintext (Some iv) = inr envelope ->
  DecryptLaravelString key envelope = inr plaintext.
Proof.
  intros K I FI E. unfold EncryptLaravelString in E. rewrite K in E. cbn in E.
  injection E as <-. unfold DecryptLaravelString. rewrite K. cbn [Nat.eqb negb].
  set (padded := pkcs7Pad (bytes_of plaintext) blockSize).
  destruct (pkcs7_length (bytes_of plaintext)) as [PM PP]. fold padded in PM, PP.
  assert (PB : Forall is_byte padded) by (apply pkcs7_bytes, bytes_of_range).
  set (ct := cbc_encrypt key iv padded).
  assert (CB : Forall is_byte ct) by (by apply cbc_bytes).
  assert (CL : length ct = length padded) by apply cbc_length.
  rewrite base64_round_trip by apply bytes_of_range. cbn [mbind option_bind].
  rewrite string_of_bytes_of, payload_inverse. cbn [mbind option_bind l_IV l_Value l_MAC].
  rewrite !base64_round_trip by done. cbn [mbind option_bind].
  rewrite I. change (Z.of_nat 16 =? blockSize) with true.
  cbn [negb mbind option_bind].
  rewrite CL, PM.
  destruct (Z.eqb_spec (Z.of_nat (length padded)) 0) as [|_]; [lia|]. cbn [orb negb Z.eqb].
  rewrite hex_round_trip, bytes_of_string_of by apply hmac_bytes. cbn [mbind option_bind].
  rewrite bool_decide_eq_true_2 by done. cbn [negb]. unfold ct.
  rewrite cbc_inverse by done. unfold padded. rewrite pkcs7_round_trip. cbn.
  by rewrite string_of_bytes_of.
Qed.

(** decrypting with the same 32-byte key gives back any text that was
    encrypted, whatever its length and whatever the initialisation vector. *)
Theorem envelope_round_trip (key iv : list Z) (plaintext envelope : string) :
  length key = 32%nat -> length iv = 16%nat -> Forall is_byte iv ->
  EncryptLaravelString key plaintext (Some iv) = inr envelope ->
  DecryptLaravelString key envelope = inr plaintext.
Proof. apply envelope_inverse. Qed.

(** an envelope that decrypts carries the HMAC of its vector and its
    ciphertext under the key: nothing unauthenticated is ever decrypted. *)
Theorem decrypted_envelope_authentic (key : list Z) (envelope plaintext : string) :
  DecryptLaravelString key envelope = inr plaintext ->
  exists json payload,
    base64Decode envelope = Some json /\ unmarshal_payload (string_of json) = Some payload /\
    hexDecode (l_MAC payload) = Some (hmac_sha256 key (l_IV payload +:+ l_Value payload)) /\
    length key = 32%nat.
Proof.
  unfold DecryptLaravelString.
  destruct (Nat.eqb_spec (length key) 32) as [K|]; [|done]. cbn [negb].
  destruct (base64Decode envelope) as [json|]; [|done]. cbn.
  destruct (unmarshal_payload (string_of json)) as [payload|] eqn:P; [|done]. cbn.
  destruct (base64Decode (l_IV payload)) as [iv|]; [|done]. cbn.
  destruct (negb _); [done|].
  destruct (base64Decode (l_Value payload)) as [ct|]; [|done]. cbn.
  destruct (_ || _); [done|].
  destruct (hexDecode (l_MAC payload)) as [mac|] eqn:M; [|done]. cbn.
  case_bool_decide as E; [|done]. subst mac. eauto 10.
Qed.
End EnvelopeTheorems.

(** ** A concrete instance: no encryption, a constant MAC, hexadecimal text *)
Definition plain_text (s : string) : option string := string_of <$> hexDecode s.

#[export] Instance plain_crypto : Crypto := {|
  cbc_encrypt := fun _ _ p => p;
  cbc_decrypt := fun _ _ c => c;
  hmac_sha256 := fun _ _ => repeat 7 32;
  marshal_payload := fun p => hexEncode (l_IV p) +:+ "." +:+ hexEncode (l_Value p) +:+ "."
                              +:+ hexEncode (l_MAC p);
  unmarshal_payload := fun s =>
    '(iv, rest) ← cut "."%char s;
    '(value, mac) ← cut "."%char rest;
    iv ← plain_text iv; value ← plain_text value; mac ← plain_text mac;
    Some {| l_IV := iv; l_Value := value; l_MAC := mac; l_Tag := "" |};
|}.

Lemma plain_text_hex s : plain_text (hexEncode s) = Some s.
Proof. unfold plain_text. rewrite hex_round_trip. cbn. by rewrite string_of_bytes_of. Qed.

#[export] Instance plain_crypto_laws : CryptoLaws plain_crypto.
Proof.
  split; cbn [cbc_encrypt cbc_decrypt hmac_sha256 marshal_payload unmarshal_payload plain_crypto].
  - done.
  - done.
  - done.
  - intros. apply Forall_forall. intros x Hx. apply list_elem_of_In, repeat_spec in Hx as ->.
    unfold is_byte. lia.
  - intros iv value mac. cbn [l_IV l_Value l_MAC].
    rewrite cut_app by (by apply hexEncode_no). cbn [mbind option_bind].
    rewrite cut_app by (by apply hexEncode_no). cbn [mbind option_bind].
    by rewrite !plain_text_hex.
Qed.

Definition sample_key : list Z := repeat 1 32.
Definition sample_iv : list Z := repeat 2 16.

Lemma envelope_round_trip_witness :
  exists envelope, EncryptLaravelString sample_key "hunter2" (Some sample_iv) = inr envelope /\
                   DecryptLaravelString sample_key envelope = inr "hunter2".
Proof.
  destruct (EncryptLaravelString sample_key "hunter2" (Some sample_iv)) as [e|envelope] eqn:E;
    [vm_compute in E; discriminate|].
  exists envelope. split; [reflexivity|].
  apply (envelope_round_trip sample_key sample_iv "hunter2" envelope);
    [reflexivity|reflexivity| |exact E].
  repeat constructor; vm_compute; discriminate || reflexivity.
Defined.

Lemma decrypted_envelope_authentic_witness :
  exists envelope json, DecryptLaravelString sample_key envelope = inr "hunter2" /\
                        base64Decode envelope = Some json.
Proof.
  set (envelope := match EncryptLaravelString sample_key "hunter2" (Some sample_iv) with
                   | inr e => e | inl _ => "" end).
  assert (D : DecryptLaravelString sample_key envelope = inr "hunter2") by (vm_compute; reflexivity).
  destruct (decrypted_envelope_authentic sample_key envelope "hunter2" D) as (json & p & J & _).
  exists envelope, json. split; assumption.
Defined.
