(* ===== verification/Integrations.v ===== *)
(** * Integration deliveries

    internal/integrations: the dispatcher, the safe-destination test, the worker
    loop and the queue-drain gate, over the tables of
    internal/persistence/mysql (integration_delivery_store.go, queue_drain.go,
    integration_worker_lease.go).  The HTTP client, DNS, the JSON text of a
    payload and the local time format are arguments. *)

From stdpp Require Import pretty sorting.
From S2P Require Import Prelude GoStrings GoTime Json Redaction Effects Secrets.

(** ** Data *)
Record Endpoint := {
  ep_ID : Z;
  ep_TenantID : Z;
  ep_ProjectID : Z;
  ep_Adapter : string;
  ep_URL : string;
  ep_Status : string;
  ep_SecretEncrypted : string;
}.

Record Delivery := {
  dl_ID : Z;
  dl_TenantID : Z;
  dl_ProjectID : Z;
  dl_EndpointID : Z;
  dl_DeliveryID : string;
  dl_Event : string;
  dl_SchemaVersion : string;
  dl_Status : string;
  dl_Attempts : Z;
  dl_Payload : json;
}.

Record DispatchOutcome := {
  o_Status : string;
  o_Attempts : Z;
  o_ResponseStatus : option Z;
  o_LastError : option string;
  o_NextAttemptAt : option time;
  o_SentAt : option time;
}.

(** A row of [integration_deliveries]; the payload column may be [NULL] or not an
    object. *)
Record DeliveryRow := {
  dr_delivery : Delivery;
  dr_payload : option json;
  dr_responseStatus : option Z;
  dr_lastError : option string;
  dr_nextAttemptAt : option time;
  dr_sentAt : option time;
  dr_created_at : option time;
  dr_updated_at : option time;
}.

Record DispatchAudit := {
  da_tenant : Z;
  da_project : Z;
  da_target : Z;
  da_after : json;
  da_result : string;
  da_correlation : string;
  da_metadata : json;
}.

(** An outgoing request; the log of them is no table and no rollback undoes it. *)
Record HttpRequest := {
  hr_URL : string;
  hr_body : string;
  hr_headers : list (string * string);
}.

Record IntTables := {
  endpoints : list Endpoint;
  deliveries : gmap Z DeliveryRow;
  dispatch_audits : list DispatchAudit;
  jobs : option Z;
  failed_jobs : option Z;
  has_deliveries_table : bool;
  result_exports : option Z;
  sent_requests : list (Z * HttpRequest);
}.

Definition with_deliveries (d : IntTables) (m : gmap Z DeliveryRow) : IntTables :=
  {| endpoints := endpoints d; deliveries := m; dispatch_audits := dispatch_audits d;
     jobs := jobs d; failed_jobs := failed_jobs d; has_deliveries_table := has_deliveries_table d;
     result_exports := result_exports d; sent_requests := sent_requests d |}.

Definition add_dispatch_audit (a : DispatchAudit) (d : IntTables) : IntTables :=
  {| endpoints := endpoints d; deliveries := deliveries d;
     dispatch_audits := (dispatch_audits d ++ [a])%list;
     jobs := jobs d; failed_jobs := failed_jobs d; has_deliveries_table := has_deliveries_table d;
     result_exports := result_exports d; sent_requests := sent_requests d |}.

Definition log_request (id : Z) (r : HttpRequest) (d : IntTables) : IntTables :=
  {| endpoints := endpoints d; deliveries := deliveries d; dispatch_audits := dispatch_audits d;
     jobs := jobs d; failed_jobs := failed_jobs d; has_deliveries_table := has_deliveries_table d;
     result_exports := result_exports d; sent_requests := (sent_requests d ++ [(id, r)])%list |}.

(** ** Statements *)

Definition with_payload (d : Delivery) (payload : json) : Delivery :=
  {| dl_ID := dl_ID d; dl_TenantID := dl_TenantID d; dl_ProjectID := dl_ProjectID d;
     dl_EndpointID := dl_EndpointID d; dl_DeliveryID := dl_DeliveryID d; dl_Event := dl_Event d;
     dl_SchemaVersion := dl_SchemaVersion d; dl_Status := dl_Status d;
     dl_Attempts := dl_Attempts d; dl_Payload := payload |}.

(** [LoadForDispatch]: the delivery joined with its endpoint on identifier,
    tenant and project. *)
Definition LoadForDispatch (deliveryID : Z) : M IntTables (Endpoint * Delivery) :=
  let! row := query "load integration delivery for dispatch"
    (fun d => row ← deliveries d !! deliveryID;
              let dl := dr_delivery row in
              ep ← List.find (fun e => (ep_ID e =? dl_EndpointID dl) &&
                                       (ep_TenantID e =? dl_TenantID dl) &&
                                       (ep_ProjectID e =? dl_ProjectID dl)) (endpoints d);
              Some (ep, row)) in
  match row with
  | None => fail ErrDeliveryNotFound
  | Some (ep, row) =>
      match dr_payload row with
      | None => ret (ep, with_payload (dr_delivery row) (JObj []))
      | Some (JObj p) => ret (ep, with_payload (dr_delivery row) (JObj p))
      | Some JNull => ret (ep, with_payload (dr_delivery row) JNull)
      | Some _ => fail (DatabaseFailure (safeDatabaseFailure
                          "decode integration delivery payload" (OtherFault "unmarshal")))
      end
  end.

(** [randomUUID]: version 4 of 16 random bytes, or a fixed value. *)
Definition randomUUID : M IntTables string :=
  let! bytes := rand_read 16 in
  ret (match bytes with
       | None => "00000000-0000-4000-8000-000000000000"
       | Some b =>
           let l := bytes_of b in
           let l := <[6%nat := Z.lor (Z.land (nth 6 l 0) 15) 64]> l in
           let l := <[8%nat := Z.lor (Z.land (nth 8 l 0) 63) 128]> l in
           let e := chars (hexEncode (string_of l)) in
           of_chars (take 8 e ++ ["-"%char] ++ take 4 (drop 8 e) ++ ["-"%char]
                     ++ take 4 (drop 12 e) ++ ["-"%char] ++ take 4 (drop 16 e)
                     ++ ["-"%char] ++ drop 20 e)
       end).

Definition with_outcome (o : DispatchOutcome) (now : time) (row : DeliveryRow) : DeliveryRow :=
  let d := dr_delivery row in
  {| dr_delivery := {| dl_ID := dl_ID d; dl_TenantID := dl_TenantID d;
                       dl_ProjectID := dl_ProjectID d; dl_EndpointID := dl_EndpointID d;
                       dl_DeliveryID := dl_DeliveryID d; dl_Event := dl_Event d;
                       dl_SchemaVersion := dl_SchemaVersion d; dl_Status := o_Status o;
                       dl_Attempts := o_Attempts o; dl_Payload := dl_Payload d |};
     dr_payload := dr_payload row; dr_responseStatus := o_ResponseStatus o;
     dr_lastError := o_LastError o; dr_nextAttemptAt := o_NextAttemptAt o;
     dr_sentAt := o_SentAt o; dr_created_at := dr_created_at row; dr_updated_at := Some now |}.

(** The condition of the outcome's [UPDATE]: the delivery as it was loaded, with
    the number of attempts it was loaded with, and not sent. *)
Definition outcome_applies (delivery : Delivery) (row : DeliveryRow) : bool :=
  let d := dr_delivery row in
  (dl_TenantID d =? dl_TenantID delivery) && (dl_ProjectID d =? dl_ProjectID delivery) &&
  (dl_EndpointID d =? dl_EndpointID delivery) && (dl_Attempts d =? dl_Attempts delivery) &&
  negb (String.eqb (dl_Status d) "sent").

Definition update_outcome (delivery : Delivery) (o : DispatchOutcome) (now : time) (d : IntTables)
  : IntTables * Z :=
  match deliveries d !! dl_ID delivery with
  | Some row =>
      if outcome_applies delivery row
      then (with_deliveries d (<[dl_ID delivery := with_outcome o now row]> (deliveries d)), 1)
      else (d, 0)
  | None => (d, 0)
  end.

(** Times in audit documents are marshalled by encoding/json. *)
Definition SaveDispatchOutcome (json_time : time -> json) (delivery : Delivery)
  (o : DispatchOutcome) (now : time) : M IntTables unit :=
  transaction "start integration delivery outcome" "commit integration delivery outcome"
    (let! count := exec_count "save integration delivery outcome"
                              (update_outcome delivery o now) in
     do! guard (count =? 1) ErrDeliveryNotFound;
     let metadata := Redact (JObj [("attempts", jint (o_Attempts o));
                                   ("job", JStr "go.integration-delivery");
                                   ("nextAttemptAt", from_option json_time JNull (o_NextAttemptAt o));
                                   ("reason", from_option JStr JNull (o_LastError o));
                                   ("responseStatus", from_option jint JNull (o_ResponseStatus o))]) in
     let after := Redact (JObj [("deliveryId", JStr (dl_DeliveryID delivery));
                                ("status", JStr (o_Status o))]) in
     let! uuid := randomUUID in
     exec "record integration delivery dispatch audit" (add_dispatch_audit
       {| da_tenant := dl_TenantID delivery; da_project := dl_ProjectID delivery;
          da_target := dl_ID delivery; da_after := after;
          da_result := if String.eqb (o_Status o) "sent" then "success" else "failure";
          da_correlation := uuid; da_metadata := metadata |})).

(** ** Destinations *)

(** net.IP: four or sixteen bytes. *)
Definition ip : Type := list Z.

(** [To4]: an IPv4 address, also in its IPv6-mapped form. *)
Definition to4 (a : ip) : option ip :=
  if (length a =? 4)%nat then Some a
  else if (length a =? 16)%nat && bool_decide (take 10 a = repeat 0 10)
          && (nth 10 a 0 =? 255) && (nth 11 a 0 =? 255)
  then Some (drop 12 a) else None.

Definition octet (a : ip) (i : nat) : Z := nth i a 0.

Definition isLoopback (a : ip) : bool :=
  match to4 a with
  | Some v => octet v 0 =? 127
  | None => bool_decide (a = repeat 0 15 ++ [1])
  end.

Definition isMulticast (a : ip) : bool :=
  match to4 a with
  | Some v => Z.land (octet v 0) 240 =? 224
  | None => (length a =? 16)%nat && (octet a 0 =? 255)
  end.

Definition isLinkLocalUnicast (a : ip) : bool :=
  match to4 a with
  | Some v => (octet v 0 =? 169) && (octet v 1 =? 254)
  | None => (length a =? 16)%nat && (octet a 0 =? 254) && (Z.land (octet a 1) 192 =? 128)
  end.

Definition isLinkLocalMulticast (a : ip) : bool :=
  match to4 a with
  | Some v => (octet v 0 =? 224) && (octet v 1 =? 0) && (octet v 2 =? 0)
  | None => (length a =? 16)%nat && (octet a 0 =? 255) && (Z.land (octet a 1) 15 =? 2)
  end.

Definition isUnspecified (a : ip) : bool :=
  match to4 a with
  | Some v => bool_decide (v = [0; 0; 0; 0])
  | None => bool_decide (a = repeat 0 16)
  end.

Definition isGlobalUnicast (a : ip) : bool :=
  ((length a =? 4) || (length a =? 16))%nat &&
  negb (match to4 a with Some v => bool_decide (v = [255; 255; 255; 255]) | None => false end) &&
  negb (isUnspecified a) && negb (isLoopback a) && negb (isMulticast a) &&
  negb (isLinkLocalUnicast a).

Definition isPrivate (a : ip) : bool :=
  match to4 a with
  | Some v => (octet v 0 =? 10) || ((octet v 0 =? 172) && (Z.land (octet v 1) 240 =? 16)) ||
              ((octet v 0 =? 192) && (octet v 1 =? 168))
  | None => (length a =? 16)%nat && (Z.land (octet a 0) 254 =? 252)
  end.

(** [publicAddress]. *)
Definition publicAddress (a : ip) : bool :=
  isGlobalUnicast a && negb (isPrivate a) && negb (isLoopback a) && negb (isLinkLocalUnicast a) &&
  negb (isLinkLocalMulticast a).

(** What the code reads of a parsed URL. *)
Record url := { url_scheme : string; url_hostname : string; url_has_user : bool }.

(** net/url and net: the parser of request URIs, the parser of addresses, DNS. *)
Class Network := {
  parseRequestURI : string -> option url;
  parseIP : string -> option ip;
  lookupIP : string -> option (list ip);
}.

(** [SafeDestination]. *)
Definition SafeDestination `{Network} (value : string) : bool :=
  match parseRequestURI value with
  | None => false
  | Some parsed =>
      if negb (String.eqb (url_scheme parsed) "http" || String.eqb (url_scheme parsed) "https") ||
         String.eqb (url_hostname parsed) "" || equalFold (url_hostname parsed) "localhost" ||
         url_has_user parsed
      then false
      else
        match parseIP (url_hostname parsed) with
        | Some address => publicAddress address
        | None =>
            match lookupIP (url_hostname parsed) with
            | None | Some [] => false
            | Some addresses => forallb publicAddress addresses
            end
        end
  end.

(** ** The dispatcher *)
Record Dispatcher := {
  di_ApplicationKey : list Z;
  di_MaxAttempts : Z;
  di_Backoff : list Z;
}.

(** [normalized]: the defaults. *)
Definition normalized (d : Dispatcher) : Dispatcher :=
  {| di_ApplicationKey := di_ApplicationKey d;
     di_MaxAttempts := if di_MaxAttempts d <? 1 then 3 else di_MaxAttempts d;
     di_Backoff := match di_Backoff d with
                   | [] => [minute; 5 * minute; 15 * minute]
                   | b => b
                   end |}.

(** The instants [Now] returns in one dispatch: for the payload, the signature
    and the outcome, and the time of the database write. *)
Record Clock := { ck_payload : time; ck_signature : time; ck_outcome : time; ck_save : time }.

(** What the dispatcher uses of the outside: the text of a document, an instant
    in the local zone in RFC 3339 with nanoseconds, an instant in a document,
    whether a destination makes a request, and the client: the status of the
    response, or none. *)
Class Transport := {
  marshal : json -> option string;
  format_nano : time -> string;
  json_time : time -> json;
  newRequest : string -> bool;
  client_do : HttpRequest -> option Z;
}.

(** [adapterPayload]. *)
Definition adapterPayload `{Transport} (adapter : string) (d : Delivery) (occurredAt : time)
  : json :=
  let base := JObj [("data", dl_Payload d); ("deliveryId", JStr (dl_DeliveryID d));
                    ("event", JStr (dl_Event d)); ("occurredAt", JStr (format_nano occurredAt));
                    ("projectId", jint (dl_ProjectID d));
                    ("schemaVersion", JStr (dl_SchemaVersion d));
                    ("tenantId", jint (dl_TenantID d))] in
  let text := JStr ("[Idelium] " +:+ dl_Event d) in
  if String.eqb adapter "slack" then JObj [("idelium", base); ("text", text)]
  else if String.eqb adapter "teams"
  then JObj [("idelium", base); ("text", text); ("type", JStr "message")]
  else if String.eqb adapter "jira"
  then JObj [("description", JStr (default "" (marshal base))); ("idelium", base);
             ("labels", JArr [JStr "idelium"]); ("summary", text)]
  else base.

Section Dispatch.
Context `{C : Crypto} `{N : Network} `{T : Transport}.

Definition wait (b : list Z) (index : Z) : option Z :=
  if index <? 0 then None else nth_error b (Z.to_nat index).

(** [Dispatcher.fail]: the attempt is counted; the last one is a dead letter. *)
Definition fail_dispatch (di : Dispatcher) (ck : Clock) (d : Delivery)
  (responseStatus : option Z) (message : string) : M IntTables unit :=
  let di := normalized di in
  let attempts := wrap64 (dl_Attempts d + 1) in
  let save status next :=
    SaveDispatchOutcome json_time d
      {| o_Status := status; o_Attempts := attempts; o_ResponseStatus := responseStatus;
         o_LastError := Some message; o_NextAttemptAt := next; o_SentAt := None |} (ck_save ck) in
  if di_MaxAttempts di <=? attempts then save "dead_letter" None
  else
    let n := Z.of_nat (length (di_Backoff di)) in
    let index := attempts - 1 in
    let index := if n <=? index then n - 1 else index in
    match wait (di_Backoff di) index with
    | Some backoff => save "failed" (Some (ck_outcome ck + backoff))
    | None => fail (Panic "index out of range")
    end.

(** The signed request. *)
Definition signed_request (ep : Endpoint) (d : Delivery) (body secret : string) (at_ : time)
  : HttpRequest :=
  let timestamp := pretty (at_ / second) in
  let mac := hmac_sha256 (bytes_of secret) (timestamp +:+ "." +:+ body) in
  {| hr_URL := ep_URL ep; hr_body := body;
     hr_headers :=
       [("Content-Type", "application/json"); ("User-Agent", "Idelium-Webhook/1.0");
        ("Idelium-Delivery-Id", dl_DeliveryID d); ("Idelium-Event", dl_Event d);
        ("Idelium-Tenant-Id", pretty (dl_TenantID d));
        ("Idelium-Project-Id", pretty (dl_ProjectID d));
        ("Idelium-Signature", "t=" +:+ timestamp +:+ ",v1=" +:+ hexEncode (string_of mac));
        ("Idelium-Signature-Tolerance", "300");
        ("Idelium-Schema-Version", dl_SchemaVersion d)] |}.

(** [client.Do]: the request leaves; its response, if any. *)
Definition send (id : Z) (r : HttpRequest) : M IntTables (option Z) :=
  do! modify (log_request id r); ret (client_do r).

(** [Dispatcher.Dispatch]. *)
Definition Dispatch (di : Dispatcher) (ck : Clock) (deliveryID : Z) : M IntTables unit :=
  let! (endpoint, delivery) := LoadForDispatch deliveryID in
  if String.eqb (dl_Status delivery) "sent" then ret tt
  else if negb ((ep_TenantID endpoint =? dl_TenantID delivery) &&
                (ep_ProjectID endpoint =? dl_ProjectID delivery) &&
                (ep_ID endpoint =? dl_EndpointID delivery))
  then fail ErrDeliveryNotFound
  else
    let di := normalized di in
    if negb (String.eqb (ep_Status endpoint) "active")
    then fail_dispatch di ck delivery None "The integration endpoint is not active."
    else if negb (SafeDestination (ep_URL endpoint))
    then fail_dispatch di ck delivery None "The integration destination is not safe."
    else
      match marshal (adapterPayload (ep_Adapter endpoint) delivery (ck_payload ck)) with
      | None => fail_dispatch di ck delivery None "The integration payload could not be encoded."
      | Some body =>
          match DecryptLaravelString (di_ApplicationKey di) (ep_SecretEncrypted endpoint) with
          | inl _ => fail_dispatch di ck delivery None
                       "The integration endpoint secret could not be decrypted."
          | inr secret =>
              if negb (newRequest (ep_URL endpoint))
              then fail_dispatch di ck delivery None "The integration destination is invalid."
              else
                let! response := send (dl_ID delivery)
                  (signed_request endpoint delivery body secret (ck_signature ck)) in
                match response with
                | None => fail_dispatch di ck delivery None
                            "The integration delivery request failed."
                | Some status =>
                    if (200 <=? status) && (status <? 300)
                    then SaveDispatchOutcome json_time delivery
                           {| o_Status := "sent"; o_Attempts := wrap64 (dl_Attempts delivery + 1);
                              o_ResponseStatus := Some status; o_LastError := None;
                              o_NextAttemptAt := None; o_SentAt := Some (ck_outcome ck) |}
                           (ck_save ck)
                    else fail_dispatch di ck delivery (Some status)
                           "Webhook delivery returned a non-success status."
                end
          end
      end.

(** ** The worker *)

(** [status = 'pending' OR (status = 'failed' AND (nextAttemptAt IS NULL OR
    nextAttemptAt <= now))]. *)
Definition due (now : time) (row : DeliveryRow) : bool :=
  let status := dl_Status (dr_delivery row) in
  String.eqb status "pending" ||
  (String.eqb status "failed" &&
   match dr_nextAttemptAt row with None => true | Some t => t <=? now end).

(** [ORDER BY COALESCE(nextAttemptAt, created_at), id]: [NULL] comes first. *)
Definition sort_key (row : DeliveryRow) : option time :=
  match dr_nextAttemptAt row with Some t => Some t | None => dr_created_at row end.

Definition earlier (a b : Z * DeliveryRow) : bool :=
  match sort_key (snd a), sort_key (snd b) with
  | None, Some _ => true
  | Some _, None => false
  | None, None => fst a <? fst b
  | Some x, Some y => (x <? y) || ((x =? y) && (fst a <? fst b))
  end.

Definition first_due (now : time) (m : gmap Z DeliveryRow) : option Z :=
  fst <$> fold_left (fun best e => match best with
                                   | Some b => if earlier e b then Some e else best
                                   | None => Some e
                                   end)
                    (List.filter (fun e => due now (snd e)) (map_to_list m)) None.

(** [NextDispatchID]. *)
Definition NextDispatchID (now : time) : M IntTables Z :=
  let! id := query "select pending integration delivery" (fun d => first_due now (deliveries d)) in
  match id with Some id => ret id | None => fail ErrNoPendingDelivery end.

(** One turn of the loop of [Worker.Run]: what the timer is reset to, or the
    error that ends the loop. *)
Inductive turn := SleepPoll | Again | Stop (e : error).

Definition worker_turn (di : Dispatcher) (now : time) (ck : Clock) : M IntTables turn :=
  fun w =>
    match NextDispatchID now w with
    | (Err ErrNoPendingDelivery, w') => (Ok SleepPoll, w')
    | (Err e, w') => (Ok (Stop e), w')
    | (Ok id, w') =>
        match Dispatch di ck id w' with
        | (Err (Panic s), w'') => (Err (Panic s), w'')
        | (_, w'') => (Ok Again, w'')
        end
    end.

(** [ctx.Err()] of a cancelled context. *)
Definition contextCanceled : error := OtherError "context canceled".

(** [Worker.Run] until its context is cancelled after the given turns: it ends with an
    error in any case.  The key is checked first. *)
Fixpoint worker_loop (di : Dispatcher) (ticks : list (time * Clock)) : M IntTables error :=
  match ticks with
  | [] => ret contextCanceled
  | (now, ck) :: rest =>
      let! t := worker_turn di now ck in
      match t with
      | Stop e => ret e
      | SleepPoll | Again => worker_loop di rest
      end
  end.

Definition Run (di : Dispatcher) (ticks : list (time * Clock)) : M IntTables error :=
  if negb (length (di_ApplicationKey di) =? 32)%nat then ret ErrInvalidApplicationKey
  else worker_loop di ticks.
End Dispatch.

(** ** The queue-drain gate *)

(** [aggregateCount]: a table that is not there is an error. *)
Definition aggregateCount (f : IntTables -> option Z) : M IntTables Z :=
  let! exists_ := query "inspect Laravel queue drain schema"
                        (fun d => match f d with Some _ => 1 | None => 0 end) in
  if negb (exists_ =? 1) then fail (OtherError "Laravel queue drain schema is incomplete")
  else
    let! count := query "inspect Laravel queue drain aggregate" f in
    ret (default 0 count).

Definition QueuedJobs (queueDriver : string) : M IntTables Z :=
  if String.eqb queueDriver "sync" then ret 0 else aggregateCount jobs.

Definition FailedJobs : M IntTables Z := aggregateCount failed_jobs.

Definition pending_deliveries (d : IntTables) : option Z :=
  if has_deliveries_table d
  then Some (Z.of_nat (length (List.filter
         (fun e => let s := dl_Status (dr_delivery (snd e)) in
                   String.eqb s "pending" || String.eqb s "failed")
         (map_to_list (deliveries d)))))
  else None.

Definition PendingDomainJobs : M IntTables (dict Z) :=
  let! a := aggregateCount pending_deliveries in
  let! b := aggregateCount result_exports in
  ret [("integration_deliveries", a); ("result_exports", b)].

Record QueueDrainVerification := {
  q_Status : string;
  q_QueueDriver : string;
  q_WorkersStopped : bool;
  q_QueuedJobs : Z;
  q_FailedJobs : Z;
  q_PendingDomainJobs : dict Z;
  q_TotalBlockingJobs : Z;
  q_Blockers : list string;
}.

(** [VerifyQueueDrain], against the inspector of the repository. *)
Definition VerifyQueueDrain (queueDriver : string) (workersStopped : bool)
  : M IntTables QueueDrainVerification :=
  if negb (String.eqb queueDriver "sync" || String.eqb queueDriver "database")
  then fail (OtherError "Laravel queue driver must be sync or database")
  else
    let! queued := QueuedJobs queueDriver in
    let! failed := FailedJobs in
    let! domain := PendingDomainJobs in
    let total := fold_left (fun acc kv => wrap64 (acc + snd kv)) domain
                           (wrap64 (queued + failed)) in
    let blockers :=
      ((if workersStopped then [] else ["Laravel queue workers are not confirmed stopped"]) ++
       (if total =? 0 then [] else ["Laravel queue or domain work remains pending"]))%list in
    ret {| q_Status := match blockers with [] => "ready" | _ => "blocked" end;
           q_QueueDriver := queueDriver; q_WorkersStopped := workersStopped;
           q_QueuedJobs := queued; q_FailedJobs := failed; q_PendingDomainJobs := domain;
           q_TotalBlockingJobs := total; q_Blockers := blockers |}.
