(* ===== verification/Runs.v ===== *)
(** * Parallel runs: rows, worker states, counters, outcome

    The table [parallel_run_schedules] and the pure functions over it, from
    internal/persistence/mysql/browser_parallel_runs.go.  A schedule carries its
    workers as a JSON object from worker identifier to worker state.  The arithmetic of
    counters and verdicts ends the file. *)

From stdpp Require Import pretty.
From S2P Require Import Prelude GoStrings GoTime Json Effects.

(** ** The table *)

(** The columns set when the schedule is created and never updated. *)
Record ScheduleKey := {
  k_id : Z;
  k_idCostumer : Z;
  k_idProject : Z;
  k_testCycleId : Z;
  k_performedTestCycleId : option Z;
  k_idempotencyKey : string;
  k_requestedConcurrency : Z;
  k_metadata : option json;
  k_scheduledAt : option time;
  k_created_at : option time;
}.

(** A row.  A JSON column is [None] for SQL [NULL], or the document. *)
Record Schedule := {
  s_key : ScheduleKey;
  s_status : string;
  s_activeWorkers : Z;
  s_totalWorkers : Z;
  s_completedWorkers : Z;
  s_failedWorkers : Z;
  s_cancelledWorkers : Z;
  s_aggregateStatus : option Z;
  s_workerStates : option json;
  s_resultSummary : option json;
  s_startedAt : option time;
  s_completedAt : option time;
  s_cancelledAt : option time;
  s_updated_at : option time;
}.

(** ** JSON columns *)

(** A Go map that may be nil.  A nil map reads as an empty one, a write to it
    panics, and it marshals to [null]. *)
Definition gomap : Type := option (dict json).

Definition gm_read (m : gomap) : dict json := default [] m.

Definition marshal_map (m : gomap) : json := from_option JObj JNull m.

(** [decodeParallelMap]: an object is decoded, [null] gives a nil map, and any
    other document (or SQL [NULL]) leaves the empty map. *)
Definition decodeParallelMap (value : option json) : gomap :=
  match value with
  | Some (JObj d) => Some d
  | Some JNull => None
  | _ => Some []
  end.

(** [decodeParallelJSON]. *)
Definition decodeParallelJSON (value : option json) (fallback : json) : json :=
  default fallback value.

(** [parallelRunISOString]. *)
Definition parallelRunISOString (value : time) : string := format_micros value.

(** ** Worker states *)
Record parallelWorkerCounters := {
  c_active : Z;
  c_total : Z;
  c_completed : Z;
  c_failed : Z;
  c_cancelled : Z;
  c_lost : Z;
}.

(** The status of one worker at [now], and its state: a running worker whose
    lease deadline is before [now] becomes lost. *)
Definition recalculate_worker (now : time) (value : json) : string * json :=
  let worker := obj_or_empty value in
  let status := str_or_empty (jidx worker "status") in
  let status := if String.eqb status "" then "running" else status in
  if String.eqb status "running" then
    match as_str (jidx worker "leaseExpiresAt") with
    | Some expiry =>
        match parseRFC3339 expiry with
        | Some parsed =>
            if before parsed now then
              ("lost",
               JObj (dset "updatedAt" (JStr (parallelRunISOString now))
                    (dset "lostAt" (JStr (parallelRunISOString now))
                    (dset "status" (JStr "lost") worker))))
            else (status, value)
        | None => (status, value)
        end
    | None => (status, value)
    end
  else (status, value).

(** The [switch status] of the loop; an unknown status counts nowhere. *)
Definition tally (c : parallelWorkerCounters) (status : string) : parallelWorkerCounters :=
  let '(Build_parallelWorkerCounters a t co f ca lo) := c in
  if String.eqb status "running" then Build_parallelWorkerCounters (a + 1) t co f ca lo
  else if String.eqb status "completed" then Build_parallelWorkerCounters a t (co + 1) f ca lo
  else if String.eqb status "failed" then Build_parallelWorkerCounters a t co (f + 1) ca lo
  else if String.eqb status "cancelled" then Build_parallelWorkerCounters a t co f (ca + 1) lo
  else if String.eqb status "lost" then Build_parallelWorkerCounters a t co f ca (lo + 1)
  else c.

Definition summary_entry (id status : string) (value : json) : json :=
  JObj [("result", jidx (obj_or_empty value) "result"); ("status", JStr status);
        ("workerId", JStr id)].

(** [recalculateParallelRunWorkers]: the workers it updates in place, the
    counters and the summary in the order of the identifiers. *)
Definition recalculateParallelRunWorkers (workers : dict json) (now : time)
  : dict json * parallelWorkerCounters * list json :=
  let entries := map (fun kv => (fst kv, recalculate_worker now (snd kv))) workers in
  let workers' := map (fun e => (fst e, snd (snd e))) entries in
  let start := {| c_active := 0; c_total := Z.of_nat (length workers); c_completed := 0;
                  c_failed := 0; c_cancelled := 0; c_lost := 0 |} in
  let counters := fold_left (fun c e => tally c (fst (snd e))) entries start in
  let summary := map (fun e => summary_entry (fst e) (fst (snd e)) (snd (snd e))) entries in
  (workers', counters, summary).

(** [parallelRunTerminal]. *)
Definition parallelRunTerminal (status : string) : bool :=
  String.eqb status "cancelled" || String.eqb status "completed" ||
  String.eqb status "failed" || String.eqb status "lost".

(** [parallelRunWorkerOutcome]: status, aggregate status, completion time. *)
Definition parallelRunWorkerOutcome (currentStatus : string) (aggregate : option Z)
  (completedAt : option time) (counters : parallelWorkerCounters) (now : time)
  : string * option Z * option time :=
  if (c_total counters =? 0) || (0 <? c_active counters)
  then (currentStatus, aggregate, completedAt)
  else
    let completedValue := Some (default now completedAt) in
    if 0 <? c_failed counters then ("failed", Some 2, completedValue)
    else if 0 <? c_lost counters then ("lost", Some 4, completedValue)
    else if (0 <? c_cancelled counters) && (c_completed counters =? 0)
    then ("cancelled", Some 3, completedValue)
    else if 0 <? c_cancelled counters then ("failed", Some 3, completedValue)
    else ("completed", Some 1, completedValue).

(** ** The run as the API shows it *)
Record ParallelRun := {
  r_ID : Z;
  r_RunURL : string;
  r_IDProject : Z;
  r_TestCycleID : Z;
  r_PerformedTestCycleID : option Z;
  r_IdempotencyKey : string;
  r_Status : string;
  r_RequestedConcurrency : Z;
  r_ActiveWorkers : Z;
  r_TotalWorkers : Z;
  r_CompletedWorkers : Z;
  r_FailedWorkers : Z;
  r_CancelledWorkers : Z;
  r_LostWorkers : Z;
  r_AggregateStatus : option Z;
  r_Metadata : gomap;
  r_ResultSummary : json;
  r_Workers : list (dict json);
  r_ScheduledAt : option time;
  r_StartedAt : option time;
  r_CompletedAt : option time;
  r_CancelledAt : option time;
  r_WorkerToken : string;
}.

(** A worker without its token columns, the identifier first written and then
    overwritten by a member of the same name. *)
Definition public_worker (workerID : string) (worker : dict json) : dict json :=
  fold_left
    (fun copy kv =>
       if String.eqb (fst kv) "workerTokenHash" || String.eqb (fst kv) "workerTokenExpiresAt"
       then copy else dset (fst kv) (snd kv) copy)
    worker [("workerId", JStr workerID)].

(** [scanParallelRun] on a row. *)
Definition scanParallelRun (row : Schedule) : ParallelRun :=
  let key := s_key row in
  let workers := gm_read (decodeParallelMap (s_workerStates row)) in
  {| r_ID := k_id key;
     r_RunURL := "/api/admin/projects/" +:+ pretty (k_idProject key) +:+ "/parallel-runs/"
                   +:+ pretty (k_id key);
     r_IDProject := k_idProject key;
     r_TestCycleID := k_testCycleId key;
     r_PerformedTestCycleID := k_performedTestCycleId key;
     r_IdempotencyKey := k_idempotencyKey key;
     r_Status := s_status row;
     r_RequestedConcurrency := k_requestedConcurrency key;
     r_ActiveWorkers := s_activeWorkers row;
     r_TotalWorkers := s_totalWorkers row;
     r_CompletedWorkers := s_completedWorkers row;
     r_FailedWorkers := s_failedWorkers row;
     r_CancelledWorkers := s_cancelledWorkers row;
     r_LostWorkers :=
       Z.of_nat (length (List.filter
         (fun kv => match as_obj (snd kv) with
                    | Some worker => is_str (jidx worker "status") "lost"
                    | None => false
                    end) workers));
     r_AggregateStatus := s_aggregateStatus row;
     r_Metadata := decodeParallelMap (k_metadata key);
     r_ResultSummary := decodeParallelJSON (s_resultSummary row) (JArr []);
     r_Workers :=
       omap (fun kv => public_worker (fst kv) <$> as_obj (snd kv)) workers;
     r_ScheduledAt := k_scheduledAt key;
     r_StartedAt := s_startedAt row;
     r_CompletedAt := s_completedAt row;
     r_CancelledAt := s_cancelledAt row;
     r_WorkerToken := "" |}.

(** [parallelRunMatches]: every filter equals the printed field of [metadata.run]. *)
Definition parallelRunMatches (metadata : gomap) (filters : dict string) : bool :=
  let run := obj_or_empty (jidx (gm_read metadata) "run") in
  forallb (fun fe => String.eqb (sprint (jidx run (fst fe))) (snd fe)) filters.

(** * Facts about counters and tallies *)
(** ** Counting statuses *)
Definition countZ (s : string) (l : list string) : Z :=
  Z.of_nat (length (List.filter (String.eqb s) l)).

Definition statuses (now : time) (workers : dict json) : list string :=
  map (fun kv => fst (recalculate_worker now (snd kv))) workers.

Lemma countZ_cons s x l : countZ s (x :: l) = (if String.eqb s x then 1 else 0) + countZ s l.
Proof. unfold countZ. simpl. destruct (String.eqb s x); simpl; lia. Qed.

Lemma countZ_nonneg s l : 0 <= countZ s l.
Proof. unfold countZ. lia. Qed.

Lemma countZ_pos s l : 0 < countZ s l <-> In s l.
Proof.
  induction l as [|x l IH]; [unfold countZ; simpl; lia|].
  rewrite countZ_cons. pose proof (countZ_nonneg s l). simpl.
  destruct (String.eqb_spec s x) as [->|]; [split; [auto|lia]|].
  rewrite <- IH. split; [lia|]. intros [|]; [congruence|lia].
Qed.

Lemma countZ_zero s l : countZ s l = 0 <-> ~ In s l.
Proof. rewrite <- countZ_pos. pose proof (countZ_nonneg s l). lia. Qed.

Definition known_status (s : string) : Prop :=
  s = "running" \/ s = "completed" \/ s = "failed" \/ s = "cancelled" \/ s = "lost".

Definition counts_of (total : Z) (l : list string) : parallelWorkerCounters :=
  {| c_active := countZ "running" l; c_total := total; c_completed := countZ "completed" l;
     c_failed := countZ "failed" l; c_cancelled := countZ "cancelled" l;
     c_lost := countZ "lost" l |}.

Lemma tally_fold l c :
  fold_left tally l c =
  {| c_active := c_active c + countZ "running" l; c_total := c_total c;
     c_completed := c_completed c + countZ "completed" l;
     c_failed := c_failed c + countZ "failed" l;
     c_cancelled := c_cancelled c + countZ "cancelled" l;
     c_lost := c_lost c + countZ "lost" l |}.
Proof.
  revert c; induction l as [|x l IH]; intros [a t co f ca lo]; cbn [fold_left];
    [unfold countZ; simpl; f_equal; lia|].
  rewrite IH, !countZ_cons. unfold tally.
  destruct (String.eqb_spec x "running") as [->|];
    [simpl; f_equal; lia|].
  destruct (String.eqb_spec x "completed") as [->|]; [simpl; f_equal; lia|].
  destruct (String.eqb_spec x "failed") as [->|]; [simpl; f_equal; lia|].
  destruct (String.eqb_spec x "cancelled") as [->|]; [simpl; f_equal; lia|].
  destruct (String.eqb_spec x "lost") as [->|]; [simpl; f_equal; lia|].
  cbn [c_active c_total c_completed c_failed c_cancelled c_lost].
  destruct (String.eqb_spec "running" x); [congruence|].
  destruct (String.eqb_spec "completed" x); [congruence|].
  destruct (String.eqb_spec "failed" x); [congruence|].
  destruct (String.eqb_spec "cancelled" x); [congruence|].
  destruct (String.eqb_spec "lost" x); [congruence|]. f_equal; lia.
Qed.

Definition updated_workers (workers : dict json) (now : time) : dict json :=
  map (fun kv => (fst kv, snd (recalculate_worker now (snd kv)))) workers.

Definition summary_of (workers : dict json) (now : time) : list json :=
  map (fun kv => summary_entry (fst kv) (fst (recalculate_worker now (snd kv)))
                               (snd (recalculate_worker now (snd kv)))) workers.

(** The three results of the recalculation, without the loop. *)
Lemma recalculate_eq workers now :
  recalculateParallelRunWorkers workers now =
  (updated_workers workers now,
   counts_of (Z.of_nat (length workers)) (statuses now workers),
   summary_of workers now).
Proof.
  unfold recalculateParallelRunWorkers, updated_workers, statuses, summary_of.
  rewrite !map_map. f_equal. f_equal.
  assert (E : forall l c,
    fold_left (fun c e => tally c (fst (snd e)))
      (map (fun kv => (fst kv, recalculate_worker now (snd kv))) l) c =
    fold_left tally (map (fun kv : string * json => fst (recalculate_worker now (snd kv))) l) c).
  { induction l as [|x l IH]; intros c; simpl; [done|apply IH]. }
  rewrite E, tally_fold. done.
Qed.

Lemma countZ_sum_le l :
  countZ "running" l + countZ "completed" l + countZ "failed" l + countZ "cancelled" l
    + countZ "lost" l <= Z.of_nat (length l).
Proof.
  induction l as [|x l IH]; [unfold countZ; simpl; lia|]. rewrite !countZ_cons.
  cbn [length]. repeat match goal with |- context [String.eqb ?a x] =>
    destruct (String.eqb_spec a x) end; subst; try done; lia.
Qed.

Lemma countZ_sum_known l :
  Forall known_status l ->
  countZ "running" l + countZ "completed" l + countZ "failed" l + countZ "cancelled" l
    + countZ "lost" l = Z.of_nat (length l).
Proof.
  induction 1 as [|x l Hx _ IH]; [unfold countZ; simpl; lia|]. rewrite !countZ_cons.
  cbn [length]. destruct Hx as [->|[->|[->|[->| ->]]]]; simpl; lia.
Qed.

(** ** Expiry of one worker *)
Definition expired (now : time) (value : json) : bool :=
  match as_str (jidx (obj_or_empty value) "leaseExpiresAt") with
  | Some expiry => match parseRFC3339 expiry with
                   | Some parsed => before parsed now
                   | None => false
                   end
  | None => false
  end.

(** The status a worker state names; none means running. *)
Definition named_status (value : json) : string :=
  let status := str_or_empty (jidx (obj_or_empty value) "status") in
  if String.eqb status "" then "running" else status.

Lemma recalculate_worker_cases now value :
  (named_status value = "running" /\ expired now value = true /\
   fst (recalculate_worker now value) = "lost" /\
   snd (recalculate_worker now value) =
     JObj (dset "updatedAt" (JStr (parallelRunISOString now))
          (dset "lostAt" (JStr (parallelRunISOString now))
          (dset "status" (JStr "lost") (obj_or_empty value))))) \/
  ((named_status value = "running" -> expired now value = false) /\
   recalculate_worker now value = (named_status value, value)).
Proof.
  unfold recalculate_worker, expired, named_status.
  destruct (String.eqb_spec (if String.eqb (str_or_empty (jidx (obj_or_empty value) "status")) ""
                             then "running"
                             else str_or_empty (jidx (obj_or_empty value) "status")) "running")
    as [E|E]; [|right; split; [done|reflexivity]].
  rewrite E. destruct (as_str _) as [expiry|]; [|by right].
  destruct (parseRFC3339 expiry) as [parsed|]; [|by right].
  destruct (before parsed now); [by left|by right].
Qed.

Lemma named_status_lost a b d :
  named_status (JObj (dset "updatedAt" a (dset "lostAt" b (dset "status" (JStr "lost") d))))
  = "lost".
Proof.
  unfold named_status. jidx_simpl. done.
Qed.

Lemma recalculate_worker_named now value :
  named_status (snd (recalculate_worker now value)) = fst (recalculate_worker now value).
Proof.
  destruct (recalculate_worker_cases now value) as [(_ & _ & E1 & E2)|[_ ->]]; [|done].
  rewrite E1, E2. apply named_status_lost.
Qed.

Lemma recalculate_worker_idem now value :
  recalculate_worker now (snd (recalculate_worker now value)) = recalculate_worker now value.
Proof.
  destruct (recalculate_worker_cases now value) as [(_ & _ & E1 & E2)|[_ E]].
  - assert (N : named_status (snd (recalculate_worker now value)) = "lost").
    { rewrite recalculate_worker_named. done. }
    destruct (recalculate_worker_cases now (snd (recalculate_worker now value)))
      as [(N' & _)|[_ ->]]; [congruence|].
    rewrite N, <- E1. by destruct (recalculate_worker now value).
  - rewrite E. simpl. done.
Qed.

Lemma recalculate_worker_running now value :
  fst (recalculate_worker now value) = "running" <->
  named_status value = "running" /\ expired now value = false.
Proof.
  destruct (recalculate_worker_cases now value) as [(N & X & E & _)|[X ->]]; simpl.
  - rewrite E, X. split; [done|by intros []].
  - split; [auto|by intros []].
Qed.

Lemma recalculate_worker_lost now value :
  fst (recalculate_worker now value) = "lost" <->
  named_status value = "lost" \/ (named_status value = "running" /\ expired now value = true).
Proof.
  destruct (recalculate_worker_cases now value) as [(N & X & E & _)|[X ->]]; simpl.
  - rewrite E. naive_solver.
  - split; [auto|]. intros [|[? ?]]; [done|]. rewrite X in *; done.
Qed.

(** What recalculation keeps: every member but the three it writes. *)
Lemma recalculate_worker_keeps now value k :
  k <> "status" -> k <> "lostAt" -> k <> "updatedAt" ->
  jidx (obj_or_empty (snd (recalculate_worker now value))) k = jidx (obj_or_empty value) k.
Proof.
  intros. destruct (recalculate_worker_cases now value) as [(_ & _ & _ & E)|[_ ->]]; [|done].
  rewrite E. by jidx_simpl.
Qed.

Lemma recalculate_worker_is_obj now value :
  is_Some (as_obj (snd (recalculate_worker now value))) <-> is_Some (as_obj value).
Proof.
  destruct (recalculate_worker_cases now value) as [(_ & X & _ & E)|[_ ->]]; [|done].
  rewrite E. simpl. destruct value; simpl in *; try done; split; eauto.
Qed.

(** ** Recalculation of all workers *)
Lemma dkeys_updated workers now : dkeys (updated_workers workers now) = dkeys workers.
Proof. unfold dkeys, updated_workers. by rewrite map_map. Qed.

Lemma length_updated workers now : length (updated_workers workers now) = length workers.
Proof. unfold updated_workers. by rewrite length_map. Qed.

Lemma dget_updated workers now k :
  dget k (updated_workers workers now) = snd ∘ recalculate_worker now <$> dget k workers.
Proof. apply (dget_map (fun _ v => snd (recalculate_worker now v))). Qed.

Lemma updated_workers_idem workers now :
  updated_workers (updated_workers workers now) now = updated_workers workers now.
Proof.
  unfold updated_workers. rewrite map_map. apply map_ext. intros [k v]. simpl.
  by rewrite recalculate_worker_idem.
Qed.

Lemma statuses_updated workers now :
  statuses now (updated_workers workers now) = statuses now workers.
Proof.
  unfold statuses, updated_workers. rewrite map_map. apply map_ext. intros [k v]. simpl.
  by rewrite recalculate_worker_idem.
Qed.

Lemma length_statuses workers now : length (statuses now workers) = length workers.
Proof. unfold statuses. by rewrite length_map. Qed.

(** ** The verdict

    What the documentation promises of a run none of whose workers is active:
    failure wins, then loss; a run with cancelled workers is cancelled when none
    completed and failed otherwise; a run whose workers all completed is
    completed. *)
Inductive verdict (l : list string) : string -> Z -> Prop :=
| verdict_failed : In "failed" l -> verdict l "failed" 2
| verdict_lost : ~ In "failed" l -> In "lost" l -> verdict l "lost" 4
| verdict_cancelled :
    ~ In "failed" l -> ~ In "lost" l -> In "cancelled" l -> ~ In "completed" l ->
    verdict l "cancelled" 3
| verdict_mixed :
    ~ In "failed" l -> ~ In "lost" l -> In "cancelled" l -> In "completed" l ->
    verdict l "failed" 3
| verdict_completed :
    ~ In "failed" l -> ~ In "lost" l -> ~ In "cancelled" l -> verdict l "completed" 1.

Lemma verdict_deterministic l s a s' a' : verdict l s a -> verdict l s' a' -> s = s' /\ a = a'.
Proof. intros [] []; tauto. Qed.

Lemma outcome_idle cur agg comp now l :
  l <> [] -> ~ In "running" l ->
  exists s a, parallelRunWorkerOutcome cur agg comp (counts_of (Z.of_nat (length l)) l) now
              = (s, Some a, Some (default now comp)) /\ verdict l s a.
Proof.
  intros Hne Hrun. unfold parallelRunWorkerOutcome, counts_of.
  cbn [c_active c_total c_completed c_failed c_cancelled c_lost].
  apply countZ_zero in Hrun. rewrite Hrun.
  destruct (Z.eqb_spec (Z.of_nat (length l)) 0) as [E|_]; [destruct l; [done|simpl in E; lia]|].
  simpl orb. cbv iota.
  destruct (Z.ltb_spec 0 (countZ "failed" l)) as [F|F]; rewrite ?countZ_pos in F.
  { eexists _, _; split; [done|by constructor]. }
  assert (NF : ~ In "failed" l) by (rewrite <- countZ_zero; pose proof (countZ_nonneg "failed" l); lia).
  destruct (Z.ltb_spec 0 (countZ "lost" l)) as [L|L]; rewrite ?countZ_pos in L.
  { eexists _, _; split; [done|by constructor]. }
  assert (NL : ~ In "lost" l) by (rewrite <- countZ_zero; pose proof (countZ_nonneg "lost" l); lia).
  destruct (Z.ltb_spec 0 (countZ "cancelled" l)) as [C|C]; simpl andb; cbv iota.
  - apply countZ_pos in C. destruct (Z.eqb_spec (countZ "completed" l) 0) as [D|D].
    + apply countZ_zero in D. eexists _, _; split; [done|by constructor].
    + eexists _, _; split; [done|]. apply verdict_mixed; try done.
      apply countZ_pos. pose proof (countZ_nonneg "completed" l). lia.
  - eexists _, _; split; [done|]. apply verdict_completed; try done.
    rewrite <- countZ_pos. lia.
Qed.

Lemma outcome_busy cur agg comp c now :
  c_total c = 0 \/ 0 < c_active c ->
  parallelRunWorkerOutcome cur agg comp c now = (cur, agg, comp).
Proof.
  intros H. unfold parallelRunWorkerOutcome.
  assert (E : (c_total c =? 0) || (0 <? c_active c) = true)
    by (rewrite orb_true_iff, Z.eqb_eq, Z.ltb_lt; lia).
  by rewrite E.
Qed.

Lemma verdict_terminal l s a : verdict l s a -> parallelRunTerminal s = true.
Proof. by intros []. Qed.
