(* ===== verification/RunTables.v ===== *)
(** * The tables behind parallel runs

    [parallel_run_schedules], [run_tokens], [agent_registrations], [projects],
    [test_cycles], [asset_versions] and [audit_events], with the statements the
    repository runs against them.  A statement that names an owner (tenant and
    project) only touches rows of that owner. *)

From S2P Require Import Prelude GoStrings GoTime Json Effects Runs.

(** golang.org/x/crypto/bcrypt: [GenerateFromPassword] (with its random salt) and
    [CompareHashAndPassword]. *)
Class Bcrypt := {
  bcrypt_generate : string -> string -> option string;
  bcrypt_compare : string -> string -> bool;
}.

(** Its documented behaviour: passwords of at most 72 bytes are hashed, a hash
    starts with the version [$2], and a password matches its hash. *)
Class BcryptLaws (B : Bcrypt) := {
  bcrypt_total : forall salt p, slen p <= 72 -> is_Some (bcrypt_generate salt p);
  bcrypt_version : forall salt p h, bcrypt_generate salt p = Some h -> hasPrefix h "$2" = true;
  bcrypt_match : forall salt p h, bcrypt_generate salt p = Some h -> bcrypt_compare h p = true;
}.

Lemma bcrypt_nonempty `{L : BcryptLaws} salt p h : bcrypt_generate salt p = Some h -> h <> "".
Proof. intros E ->. by apply bcrypt_version in E. Qed.

(** What a repository method reads of the request besides its arguments. *)
Record RequestMeta := {
  m_sourceIP : string;
  m_correlationID : string;
}.

Record RunToken := {
  t_id : Z;
  t_idCostumer : Z;
  t_idProject : Z;
  t_parallelRunScheduleId : Z;
  t_agentId : string;
  t_tokenId : string;
  t_tokenHash : string;
  t_expiresAt : time;
  t_usedAt : option time;
  t_revokedAt : option time;
  t_created_at : time;
  t_updated_at : time;
}.

Record AgentRow := {
  a_id : Z;
  a_idCostumer : Z;
  a_agentId : string;
  a_status : string;
  a_health : string;
  a_identityProof : option json;
}.

Record CycleRow := {
  y_idProject : Z;
  y_idCostumer : Z;
  y_config : json;
}.

Record AssetVersionRow := {
  v_id : Z;
  v_idCostumer : Z;
  v_assetType : string;
  v_assetId : Z;
  v_version : Z;
}.

Record AuditRow := {
  e_actorUserId : option Z;
  e_actorTenantId : Z;
  e_activeTenantId : Z;
  e_idProject : Z;
  e_action : string;
  e_targetType : string;
  e_targetId : Z;
  e_beforeValues : option json;
  e_afterValues : option json;
  e_result : string;
  e_sourceIp : string;
  e_correlationId : string;
}.

Record RunTables := {
  schedules : gmap Z Schedule;
  next_schedule : Z;
  run_tokens : list RunToken;
  next_token : Z;
  agent_registrations : list AgentRow;
  projects : gmap Z Z;
  test_cycles : gmap Z CycleRow;
  asset_versions : list AssetVersionRow;
  audit_events : list AuditRow;
}.

(** ** Statements *)
Definition owned (tenantID projectID : Z) (row : Schedule) : bool :=
  (k_idCostumer (s_key row) =? tenantID) && (k_idProject (s_key row) =? projectID).

(** [SELECT ... WHERE id = ? AND idCostumer = ? AND idProject = ?]. *)
Definition select_schedule (tenantID projectID runID : Z) (d : RunTables) : option Schedule :=
  row ← schedules d !! runID; if owned tenantID projectID row then Some row else None.

Definition with_schedules (d : RunTables) (s : gmap Z Schedule) : RunTables :=
  {| schedules := s; next_schedule := next_schedule d; run_tokens := run_tokens d;
     next_token := next_token d; agent_registrations := agent_registrations d;
     projects := projects d; test_cycles := test_cycles d;
     asset_versions := asset_versions d; audit_events := audit_events d |}.

(** [UPDATE parallel_run_schedules SET ... WHERE id = ? AND idCostumer = ? AND
    idProject = ?]. *)
Definition update_schedule (tenantID projectID runID : Z) (f : Schedule -> Schedule)
  (d : RunTables) : RunTables :=
  match select_schedule tenantID projectID runID d with
  | Some row => with_schedules d (<[runID := f row]> (schedules d))
  | None => d
  end.

Definition with_tokens (d : RunTables) (l : list RunToken) (next : Z) : RunTables :=
  {| schedules := schedules d; next_schedule := next_schedule d; run_tokens := l;
     next_token := next; agent_registrations := agent_registrations d;
     projects := projects d; test_cycles := test_cycles d;
     asset_versions := asset_versions d; audit_events := audit_events d |}.

Definition add_audit (e : AuditRow) (d : RunTables) : RunTables :=
  {| schedules := schedules d; next_schedule := next_schedule d;
     run_tokens := run_tokens d; next_token := next_token d;
     agent_registrations := agent_registrations d; projects := projects d;
     test_cycles := test_cycles d; asset_versions := asset_versions d;
     audit_events := (audit_events d ++ [e])%list |}.

(** A missing row is [ErrNotFound]: [parallelRunNotFound]. *)
Definition parallelRunNotFound {A} (o : option A) : M RunTables A :=
  match o with Some a => ret a | None => fail ErrNotFound end.

Definition getParallelRun (tenantID projectID runID : Z) : M RunTables ParallelRun :=
  let! row := query "scan parallel run schedule" (select_schedule tenantID projectID runID) in
  let! row := parallelRunNotFound row in
  ret (scanParallelRun row).

(** ** Lemmas *)
Lemma select_schedule_spec t p r d row :
  select_schedule t p r d = Some row <->
  schedules d !! r = Some row /\ k_idCostumer (s_key row) = t /\ k_idProject (s_key row) = p.
Proof.
  unfold select_schedule, owned. destruct (schedules d !! r) as [row'|]; simpl; [|naive_solver].
  case_match eqn:E; rewrite ?andb_true_iff, ?andb_false_iff, ?Z.eqb_eq, ?Z.eqb_neq in E;
    naive_solver.
Qed.

Lemma update_schedule_other t p r f d r' :
  r' <> r -> schedules (update_schedule t p r f d) !! r' = schedules d !! r'.
Proof.
  intros. unfold update_schedule. case_match; [|done]. simpl. by rewrite lookup_insert_ne.
Qed.

Lemma update_schedule_same t p r f d row :
  select_schedule t p r d = Some row ->
  schedules (update_schedule t p r f d) !! r = Some (f row).
Proof. intros H. unfold update_schedule. rewrite H. simpl. by rewrite lookup_insert_eq. Qed.

Lemma update_schedule_select t p r f d row :
  select_schedule t p r d = Some row -> s_key (f row) = s_key row ->
  select_schedule t p r (update_schedule t p r f d) = Some (f row).
Proof.
  intros H K. apply select_schedule_spec. rewrite K.
  split; [by apply update_schedule_same|]. by apply select_schedule_spec in H as [_ H].
Qed.
