(* ===== verification/RunTokens.v ===== *)
(** * Run tokens

    A run token lets one agent claim a worker slot of one run, once.  It is
    issued as [idrt_<id>.<secret>]; the table keeps the identifier and a bcrypt
    hash of the secret.  From IssueParallelRunToken, RevokeParallelRunToken and
    consumeParallelRunToken of browser_parallel_runs.go. *)

From S2P Require Import Prelude GoStrings GoTime Json Effects Runs RunTables.

(** [ParallelRunClaim] of package browserauth. *)
Record ParallelRunClaim := {
  cl_TenantID : Z;
  cl_ActorUserID : option Z;
  cl_ActorTenantID : Z;
  cl_ProjectID : Z;
  cl_RunID : Z;
  cl_WorkerID : string;
  cl_Capabilities : list json;
  cl_CapabilitiesSet : bool;
  cl_RunToken : string;
  cl_CertificateHash : string;
  cl_IssueWorkerToken : bool;
  cl_Now : time;
}.

Record RunTokenIssued := {
  i_Token : string;
  i_ExpiresAt : string;
  i_AgentID : string;
}.

Record RunTokenRevoked := {
  v_TokenID : string;
  v_RevokedAt : string;
}.

Definition redactedText : json := JStr "[REDACTED]".

(** ** Statements on [run_tokens] *)
Definition token_scope (tokenID : string) (tenantID projectID runID : Z) (t : RunToken) : bool :=
  String.eqb (t_tokenId t) tokenID && (t_idCostumer t =? tenantID) &&
  (t_idProject t =? projectID) && (t_parallelRunScheduleId t =? runID).

Definition set_used (now : time) (t : RunToken) : RunToken :=
  {| t_id := t_id t; t_idCostumer := t_idCostumer t; t_idProject := t_idProject t;
     t_parallelRunScheduleId := t_parallelRunScheduleId t; t_agentId := t_agentId t;
     t_tokenId := t_tokenId t; t_tokenHash := t_tokenHash t; t_expiresAt := t_expiresAt t;
     t_usedAt := Some now; t_revokedAt := t_revokedAt t; t_created_at := t_created_at t;
     t_updated_at := now |}.

Definition set_revoked (now : time) (t : RunToken) : RunToken :=
  {| t_id := t_id t; t_idCostumer := t_idCostumer t; t_idProject := t_idProject t;
     t_parallelRunScheduleId := t_parallelRunScheduleId t; t_agentId := t_agentId t;
     t_tokenId := t_tokenId t; t_tokenHash := t_tokenHash t; t_expiresAt := t_expiresAt t;
     t_usedAt := t_usedAt t; t_revokedAt := Some now; t_created_at := t_created_at t;
     t_updated_at := now |}.

Definition unset (o : option time) : bool := match o with None => true | Some _ => false end.

(** [UPDATE run_tokens SET ... WHERE id = ? AND cond], with the rows affected. *)
Definition update_tokens (id : Z) (cond : RunToken -> bool) (f : RunToken -> RunToken)
  (d : RunTables) : RunTables * Z :=
  let hit t := (t_id t =? id) && cond t in
  (with_tokens d (map (fun t => if hit t then f t else t) (run_tokens d)) (next_token d),
   Z.of_nat (length (List.filter hit (run_tokens d)))).

(** [INSERT INTO run_tokens]: [tokenId] is a unique key. *)
Definition insert_token (tenantID projectID runID : Z) (agentID tokenID hash : string)
  (expiresAt now : time) (d : RunTables) : option RunTables :=
  if existsb (fun t => String.eqb (t_tokenId t) tokenID) (run_tokens d) then None
  else
    let row := {| t_id := next_token d; t_idCostumer := tenantID; t_idProject := projectID;
                  t_parallelRunScheduleId := runID; t_agentId := agentID;
                  t_tokenId := tokenID; t_tokenHash := hash; t_expiresAt := expiresAt;
                  t_usedAt := None; t_revokedAt := None; t_created_at := now;
                  t_updated_at := now |} in
    Some (with_tokens d (run_tokens d ++ [row])%list (next_token d + 1)).

(** ** Operations *)
Section Operations.
Context `{B : Bcrypt}.

(** [randomParallelRunTokenPart]; its caller replaces the error. *)
Definition randomParallelRunTokenPart (bytesCount : nat) (failure : string)
  : M RunTables string :=
  let! r := rand_read bytesCount in
  match r with
  | Some bytes => ret (hexEncode bytes)
  | None => fail (OtherError failure)
  end.

(** [bcrypt.GenerateFromPassword], which reads a 16-byte salt. *)
Definition generateFromPassword (password failure : string) : M RunTables string :=
  let! salt := rand_read 16 in
  match salt ≫= fun s => bcrypt_generate s password with
  | Some hash => ret hash
  | None => fail (OtherError failure)
  end.

(** [recordParallelRunTokenLifecycleAudit]. *)
Definition recordParallelRunTokenLifecycleAudit (meta : RequestMeta)
  (tenantID projectID runID : Z) (action : string) (before after : option (dict json))
  : M RunTables unit :=
  exec "record run token lifecycle audit" (add_audit
    {| e_actorUserId := None; e_actorTenantId := tenantID; e_activeTenantId := tenantID;
       e_idProject := projectID; e_action := action; e_targetType := "parallel_run_schedule";
       e_targetId := runID; e_beforeValues := JObj <$> before;
       e_afterValues := JObj <$> after; e_result := "success";
       e_sourceIp := m_sourceIP meta; e_correlationId := m_correlationID meta |}).

(** [recordParallelRunTokenAudit]. *)
Definition recordParallelRunTokenAudit (meta : RequestMeta) (input : ParallelRunClaim)
  (action result : string) : M RunTables unit :=
  exec "record run token claim audit" (add_audit
    {| e_actorUserId := cl_ActorUserID input; e_actorTenantId := cl_ActorTenantID input;
       e_activeTenantId := cl_TenantID input; e_idProject := cl_ProjectID input;
       e_action := action; e_targetType := "parallel_run_schedule";
       e_targetId := cl_RunID input; e_beforeValues := None;
       e_afterValues := Some (JObj [("agentId", JStr (cl_WorkerID input));
                                    ("token", redactedText); ("tokenId", redactedText)]);
       e_result := result; e_sourceIp := m_sourceIP meta;
       e_correlationId := m_correlationID meta |}).

(** [IssueParallelRunToken]. *)
Definition IssueParallelRunToken (meta : RequestMeta) (tenantID projectID runID : Z)
  (agentID : string) (now : time) (ttl : Z) : M RunTables RunTokenIssued :=
  let! row := query "load parallel run for token issue"
                    (select_schedule tenantID projectID runID) in
  let! row := parallelRunNotFound row in
  let! tokenIDPart := randomParallelRunTokenPart 12 "run token identifier generation failed" in
  let! secret := randomParallelRunTokenPart 32 "run token secret generation failed" in
  let tokenID := "idrt_" +:+ tokenIDPart in
  let! hash := generateFromPassword secret "run token hashing failed" in
  let expiresAt := now + ttl in
  do! insert_unique "issue parallel run token"
        (insert_token tenantID projectID (k_id (s_key row)) agentID tokenID hash expiresAt now);
  do! recordParallelRunTokenLifecycleAudit meta tenantID projectID runID "run_token.issue" None
        (Some [("agentId", JStr agentID);
               ("expiresAt", JStr (parallelRunISOString expiresAt));
               ("token", redactedText); ("tokenId", redactedText)]);
  ret {| i_Token := tokenID +:+ "." +:+ secret;
         i_ExpiresAt := parallelRunISOString expiresAt; i_AgentID := agentID |}.

(** [RevokeParallelRunToken]: the transaction, then the audit record. *)
Definition RevokeParallelRunToken (meta : RequestMeta) (tenantID projectID runID : Z)
  (tokenID : string) (now : time) : M RunTables RunTokenRevoked :=
  let! (agentID, before, revokedAt) :=
    transaction "start run token revocation transaction" "commit run token revocation"
      (let! row := query "lock parallel run token revocation"
                         (fun d => List.find (token_scope tokenID tenantID projectID runID)
                                             (run_tokens d)) in
       let! row := parallelRunNotFound row in
       match t_revokedAt row with
       | Some at_ =>
           ret (t_agentId row,
                [("revokedAt", JStr (parallelRunISOString at_)); ("tokenId", redactedText)],
                at_)
       | None =>
           do! exec "revoke parallel run token"
                 (fun d => fst (update_tokens (t_id row) (fun t => unset (t_revokedAt t))
                                              (set_revoked now) d));
           ret (t_agentId row, [("revokedAt", JNull); ("tokenId", redactedText)], now)
       end) in
  do! recordParallelRunTokenLifecycleAudit meta tenantID projectID runID "run_token.revoke"
        (Some before)
        (Some [("agentId", JStr agentID);
               ("revokedAt", JStr (parallelRunISOString revokedAt));
               ("tokenId", redactedText)]);
  ret {| v_TokenID := tokenID; v_RevokedAt := parallelRunISOString revokedAt |}.

(** The guard of [consumeParallelRunToken] on the row it locked. *)
Definition token_usable (now : time) (secret : string) (t : RunToken) : bool :=
  unset (t_usedAt t) && unset (t_revokedAt t) && after (t_expiresAt t) now &&
  bcrypt_compare (t_tokenHash t) secret.

(** [consumeParallelRunToken]. *)
Definition consumeParallelRunToken (input : ParallelRunClaim) : M RunTables unit :=
  match cut "."%char (cl_RunToken input) with
  | None => fail ErrRunTokenInvalid
  | Some (tokenID, secret) =>
      if negb (hasPrefix tokenID "idrt_") || String.eqb secret "" then fail ErrRunTokenInvalid
      else
        transaction "start run token consumption" "commit run token consumption"
          (let! row := query "lock run token for claim"
             (fun d => List.find
                (fun t => token_scope tokenID (cl_TenantID input) (cl_ProjectID input)
                                      (cl_RunID input) t
                          && String.eqb (t_agentId t) (cl_WorkerID input)) (run_tokens d)) in
           match row with
           | None => fail ErrRunTokenInvalid
           | Some t =>
               do! guard (token_usable (cl_Now input) secret t) ErrRunTokenInvalid;
               let! changed := exec_count "consume run token for claim"
                 (update_tokens (t_id t)
                    (fun t => unset (t_usedAt t) && unset (t_revokedAt t))
                    (set_used (cl_Now input))) in
               guard (changed =? 1) ErrRunTokenInvalid
           end)
  end.
End Operations.

(** ** How the token table evolves *)

(** A later state of a token: the same token, and a date once set stays. *)
Record token_le (t t' : RunToken) : Prop := {
  le_id : t_id t' = t_id t;
  le_tenant : t_idCostumer t' = t_idCostumer t;
  le_project : t_idProject t' = t_idProject t;
  le_run : t_parallelRunScheduleId t' = t_parallelRunScheduleId t;
  le_agent : t_agentId t' = t_agentId t;
  le_tokenId : t_tokenId t' = t_tokenId t;
  le_hash : t_tokenHash t' = t_tokenHash t;
  le_expires : t_expiresAt t' = t_expiresAt t;
  le_used : forall u, t_usedAt t = Some u -> t_usedAt t' = Some u;
  le_revoked : forall u, t_revokedAt t = Some u -> t_revokedAt t' = Some u;
}.

#[export] Instance token_le_refl : Reflexive token_le.
Proof. by intros t. Qed.

#[export] Instance token_le_trans : Transitive token_le.
Proof. intros t1 t2 t3 [] []. split; try congruence; auto. Qed.

(** Tokens are appended and never deleted. *)
Definition tokens_grow (d d' : RunTables) : Prop :=
  exists old new, run_tokens d' = (old ++ new)%list /\ Forall2 token_le (run_tokens d) old.

#[export] Instance tokens_grow_refl : Reflexive tokens_grow.
Proof. intros d. exists (run_tokens d), []. rewrite app_nil_r. split; [done|]. reflexivity. Qed.

#[export] Instance tokens_grow_trans : Transitive tokens_grow.
Proof.
  intros d1 d2 d3 (o1 & n1 & E1 & F1) (o2 & n2 & E2 & F2).
  rewrite E1 in F2. apply Forall2_app_inv_l in F2 as (o & n & Fo & Fn & ->).
  exists o, (n ++ n2)%list. rewrite E2, app_assoc. split; [done|]. by etransitivity.
Qed.

Lemma tokens_grow_same d d' : run_tokens d' = run_tokens d -> tokens_grow d d'.
Proof. intros E. exists (run_tokens d), []. rewrite app_nil_r. split; [done|]. reflexivity. Qed.

Lemma tokens_grow_update id cond f d :
  (forall t, cond t = true -> token_le t (f t)) ->
  tokens_grow d (fst (update_tokens id cond f d)).
Proof.
  intros H. eexists _, []. rewrite app_nil_r. simpl. split; [done|].
  apply Forall2_map_self. intros t.
  destruct ((t_id t =? id) && cond t) eqn:E; [|done].
  apply andb_true_iff in E as [_ E]. by apply H.
Qed.

Lemma token_le_used now t : unset (t_usedAt t) = true -> token_le t (set_used now t).
Proof. intros H. destruct t as [? ? ? ? ? ? ? ? []]; [done|]. split; simpl; auto. done. Qed.

Lemma token_le_revoked now t : unset (t_revokedAt t) = true -> token_le t (set_revoked now t).
Proof. intros H. destruct t as [? ? ? ? ? ? ? ? ? []]; [done|]. split; simpl; auto. done. Qed.

Lemma tokens_grow_insert t p r a i h e n d d' :
  insert_token t p r a i h e n d = Some d' -> tokens_grow d d'.
Proof.
  unfold insert_token. case_match; intros [= <-]. eexists _, _. simpl.
  split; [done|]. reflexivity.
Qed.

Lemma find_grow P d d' t :
  (forall t t', token_le t t' -> P t' = P t) ->
  tokens_grow d d' -> List.find P (run_tokens d) = Some t ->
  exists t', List.find P (run_tokens d') = Some t' /\ token_le t t'.
Proof.
  intros HP (old & new & -> & F). revert t. induction F as [|x y l l' Hxy F IH]; simpl; [done|].
  intros t. rewrite (HP _ _ Hxy). destruct (P x); [intros [= <-]; eauto|apply IH].
Qed.

#[export] Hint Resolve tokens_grow_insert token_le_used token_le_revoked : effects.

Section Lemmas.
Context `{B : Bcrypt}.

Definition claim_scope (tokenID : string) (input : ParallelRunClaim) (t : RunToken) : bool :=
  token_scope tokenID (cl_TenantID input) (cl_ProjectID input) (cl_RunID input) t
  && String.eqb (t_agentId t) (cl_WorkerID input).

Lemma claim_scope_le tokenID input t t' :
  token_le t t' -> claim_scope tokenID input t' = claim_scope tokenID input t.
Proof. intros []. unfold claim_scope, token_scope. congruence. Qed.

Lemma token_scope_le tokenID a b c t t' :
  token_le t t' -> token_scope tokenID a b c t' = token_scope tokenID a b c t.
Proof. intros []. unfold token_scope. congruence. Qed.

(** What a successful consumption found, and what it left behind. *)
Lemma consume_ok input w u w' :
  consumeParallelRunToken input w = (Ok u, w') ->
  exists tokenID secret t,
    cut "."%char (cl_RunToken input) = Some (tokenID, secret) /\
    List.find (claim_scope tokenID input) (run_tokens (w_db w)) = Some t /\
    token_usable (cl_Now input) secret t = true /\
    w_db w' = fst (update_tokens (t_id t)
                     (fun t => unset (t_usedAt t) && unset (t_revokedAt t))
                     (set_used (cl_Now input)) (w_db w)).
Proof.
  unfold consumeParallelRunToken. destruct (cut _ _) as [[tokenID secret]|]; [|done].
  case_match; [done|]. intros HH.
  apply transaction_ok in HH as (w1 & w2 & E1 & HH & E2).
  invert_ok HH as H1. apply query_ok in H1 as [-> E3]. rewrite E1 in *.
  destruct (List.find _ (run_tokens (w_db w))) as [t|] eqn:F; [|done].
  invert_ok HH as H1. apply guard_ok in H1 as [G ->].
  invert_ok HH as H1. apply exec_count_ok in H1. apply guard_ok in HH as [_ ->].
  exists tokenID, secret, t. repeat split; try done.
  rewrite E2. rewrite E3 in H1. by rewrite H1.
Qed.

(** A token that is used or revoked is refused, and nothing changes. *)
Lemma consume_spent input tokenID secret w t :
  cut "."%char (cl_RunToken input) = Some (tokenID, secret) ->
  List.find (claim_scope tokenID input) (run_tokens (w_db w)) = Some t ->
  unset (t_usedAt t) && unset (t_revokedAt t) = false ->
  exists e w', consumeParallelRunToken input w = (Err e, w') /\ w_db w' = w_db w.
Proof.
  intros Hc Hf Hs. destruct (consumeParallelRunToken input w) as [[u|e] w'] eqn:E.
  - apply consume_ok in E as (tokenID' & secret' & t' & Hc' & Hf' & Hu & _).
    rewrite Hc in Hc'. injection Hc' as <- <-. rewrite Hf in Hf'. injection Hf' as <-.
    unfold token_usable in Hu. rewrite !andb_true_iff in Hu. destruct Hu as [[[U1 U2] _] _].
    by rewrite U1, U2 in Hs.
  - exists e, w'. split; [done|]. unfold consumeParallelRunToken in E.
    rewrite Hc in E. case_match; [by injection E as _ <-|]. by apply transaction_err in E.
Qed.

Lemma find_update_used P id now l t :
  (forall t t', token_le t t' -> P t' = P t) ->
  List.find P l = Some t -> t_id t = id ->
  unset (t_usedAt t) && unset (t_revokedAt t) = true ->
  List.find P (map (fun t => if (t_id t =? id) && (unset (t_usedAt t) && unset (t_revokedAt t))
                             then set_used now t else t) l) = Some (set_used now t).
Proof.
  intros HP. induction l as [|x l IH]; simpl; [done|].
  set (hit := (t_id x =? id) && (unset (t_usedAt x) && unset (t_revokedAt x))).
  assert (Hx : P (if hit then set_used now x else x) = P x).
  { destruct hit eqn:E; [|done]. apply HP, token_le_used.
    subst hit. rewrite !andb_true_iff in E. tauto. }
  rewrite Hx. destruct (P x); [|by apply IH].
  intros [= <-] Hid Hu. subst hit. by rewrite Hid, Z.eqb_refl, Hu.
Qed.

(** After a successful consumption the token is found used. *)
Lemma consume_marks input w u w' :
  consumeParallelRunToken input w = (Ok u, w') ->
  exists tokenID secret t,
    cut "."%char (cl_RunToken input) = Some (tokenID, secret) /\
    List.find (claim_scope tokenID input) (run_tokens (w_db w')) = Some t /\
    t_usedAt t = Some (cl_Now input).
Proof.
  intros H. apply consume_ok in H as (tokenID & secret & t & Hc & Hf & Hu & ->).
  unfold token_usable in Hu. rewrite !andb_true_iff in Hu. destruct Hu as [[[U1 U2] _] _].
  exists tokenID, secret, (set_used (cl_Now input) t). split; [done|]. split; [|done].
  apply find_update_used; try done; [apply claim_scope_le|by rewrite U1, U2].
Qed.

(** The operations on tokens only grow the table. *)
Lemma grow_consume input : preserves tokens_grow (consumeParallelRunToken input).
Proof.
  unfold consumeParallelRunToken. solve_preserves.
  apply tokens_grow_update. intros t [Hu _]%andb_true_iff. by apply token_le_used.
Qed.

Lemma grow_lifecycle_audit meta t p r a b c :
  preserves tokens_grow (recordParallelRunTokenLifecycleAudit meta t p r a b c).
Proof. apply preserves_exec; [apply _..|]. intros d. by apply tokens_grow_same. Qed.

Lemma grow_claim_audit meta input a r :
  preserves tokens_grow (recordParallelRunTokenAudit meta input a r).
Proof. apply preserves_exec; [apply _..|]. intros d. by apply tokens_grow_same. Qed.

Lemma grow_random n f : preserves tokens_grow (randomParallelRunTokenPart n f).
Proof. unfold randomParallelRunTokenPart. solve_preserves. Qed.

Lemma grow_generate p f : preserves tokens_grow (generateFromPassword p f).
Proof. unfold generateFromPassword. solve_preserves. Qed.

Lemma grow_not_found {A} (o : option A) : preserves tokens_grow (parallelRunNotFound o).
Proof. unfold parallelRunNotFound. solve_preserves. Qed.

#[local] Hint Resolve grow_lifecycle_audit grow_claim_audit grow_random grow_generate
  grow_not_found : effects.

Lemma grow_issue meta t p r a n ttl :
  preserves tokens_grow (IssueParallelRunToken meta t p r a n ttl).
Proof. unfold IssueParallelRunToken. solve_preserves. Qed.

Lemma grow_revoke meta t p r i n : preserves tokens_grow (RevokeParallelRunToken meta t p r i n).
Proof.
  unfold RevokeParallelRunToken. solve_preserves.
  apply tokens_grow_update. intros x Hx. by apply token_le_revoked.
Qed.
End Lemmas.

#[export] Hint Resolve grow_consume grow_lifecycle_audit grow_claim_audit grow_random
  grow_generate grow_not_found grow_issue grow_revoke : effects.
