(* ===== verification/RunOps.v ===== *)
(** * Operations on parallel runs

    Claim, worker update, heartbeat, cancellation, worker-token validation and
    the reads of browser_parallel_runs.go.  Each write is one transaction that
    locks the schedule row first. *)

From stdpp Require Import sorting.
From S2P Require Import Prelude GoStrings GoTime Json Effects Runs RunTables RunTokens.

(** [RunnerWorkerUpdate] of package browserauth; a nil [Result] is [JNull]. *)
Record RunnerWorkerUpdate := {
  u_TenantID : Z;
  u_ProjectID : Z;
  u_RunID : Z;
  u_WorkerID : string;
  u_Status : string;
  u_Result : json;
  u_Now : time;
}.

Record ParallelRunHeartbeat := {
  h_Run : ParallelRun;
  h_WorkerStatus : string;
}.

Definition lease : Z := 120 * second.

(** ** Row updates: the [SET] clauses *)

(** The columns every worker write sets: states, summary, counters, timestamp. *)
Definition set_workers (workers : json) (summary : list json) (c : parallelWorkerCounters)
  (status : string) (aggregate : option Z) (startedAt completedAt cancelledAt : option time)
  (now : time) (row : Schedule) : Schedule :=
  {| s_key := s_key row; s_status := status; s_activeWorkers := c_active c;
     s_totalWorkers := c_total c; s_completedWorkers := c_completed c;
     s_failedWorkers := c_failed c; s_cancelledWorkers := c_cancelled c;
     s_aggregateStatus := aggregate; s_workerStates := Some workers;
     s_resultSummary := Some (JArr summary); s_startedAt := startedAt;
     s_completedAt := completedAt; s_cancelledAt := cancelledAt; s_updated_at := Some now |}.

(** ** Claim *)

(** The state of the worker after a claim: a new lease, the capabilities of the
    request or of the earlier claim, the first claim time and the last result. *)
Definition claimed_worker (input : ParallelRunClaim) (existing : option (dict json))
  (workerTokenHash : option string) : dict json :=
  let now := JStr (parallelRunISOString (cl_Now input)) in
  let deadline := JStr (parallelRunISOString (cl_Now input + lease)) in
  let old k := jidx (default [] existing) k in
  let capabilities :=
    if cl_CapabilitiesSet input then JArr (cl_Capabilities input)
    else if is_null (old "capabilities") then JArr [] else old "capabilities" in
  let claimedAt := if is_null (old "claimedAt") then now else old "claimedAt" in
  let worker :=
    [("capabilities", capabilities); ("claimedAt", claimedAt); ("lastHeartbeatAt", now);
     ("leaseExpiresAt", deadline); ("result", old "result"); ("status", JStr "running");
     ("updatedAt", now); ("workerId", JStr (cl_WorkerID input))] in
  match workerTokenHash with
  | Some hash =>
      dset "workerTokenExpiresAt" deadline (dset "workerTokenHash" (JStr hash) worker)
  | None => worker
  end.

(** The row after a claim. *)
Definition claim_row (input : ParallelRunClaim) (workers : dict json)
  (workerTokenHash : option string) (row : Schedule) : Schedule :=
  let existing := as_obj (jidx workers (cl_WorkerID input)) in
  let workers := dset (cl_WorkerID input)
                      (JObj (claimed_worker input existing workerTokenHash)) workers in
  let '(workers, counters, summary) := recalculateParallelRunWorkers workers (cl_Now input) in
  set_workers (JObj workers) summary counters "running" (s_aggregateStatus row)
    (Some (default (cl_Now input) (s_startedAt row))) (s_completedAt row)
    (s_cancelledAt row) (cl_Now input) row.

(** [validateParallelRunAgent]. *)
Definition validateParallelRunAgent `{MS : MySQL} (input : ParallelRunClaim) : M RunTables unit :=
  let! agent := query "validate parallel run agent"
    (fun d => List.find (fun a => (a_idCostumer a =? cl_TenantID input)
                                  && same (a_agentId a) (cl_WorkerID input))
                        (agent_registrations d)) in
  match agent with
  | None => ret tt
  | Some a =>
      let identity := gm_read (decodeParallelMap (a_identityProof a)) in
      let proof_ok :=
        match as_str (jidx identity "certificateSha256") with
        | Some expected =>
            String.eqb expected "" ||
            String.eqb (toLower expected) (toLower (cl_CertificateHash input))
        | None => true
        end in
      do! guard proof_ok ErrAgentProofInvalid;
      guard (String.eqb (a_status a) "approved" && negb (String.eqb (a_health a) "unhealthy"))
            (AgentUnavailableError (a_status a) (a_health a))
  end.

Section Operations.
Context `{MS : MySQL} `{B : Bcrypt}.

(** The transaction of [ClaimParallelRun]. *)
Definition claim_transaction (input : ParallelRunClaim) (workerTokenHash : option string)
  : M RunTables ParallelRun :=
  transaction "start parallel run claim transaction" "commit parallel run worker claim"
    (let! row := query "lock parallel run worker claim"
       (select_schedule (cl_TenantID input) (cl_ProjectID input) (cl_RunID input)) in
     let! row := parallelRunNotFound row in
     do! guard (negb (parallelRunTerminal (s_status row))) ErrParallelRunTerminal;
     do! guard (negb (String.eqb (s_status row) "cancelling")) ErrParallelRunCancelling;
     do! validateParallelRunAgent input;
     let workers := decodeParallelMap (s_workerStates row) in
     let existing := as_obj (jidx (gm_read workers) (cl_WorkerID input)) in
     do! guard (negb (bool_decide (existing = None) &&
                      (k_requestedConcurrency (s_key row) <=? s_activeWorkers row)))
               ErrParallelRunConcurrency;
     match workers with
     | None => fail (Panic "assignment to entry in nil map")
     | Some workers =>
         do! exec "update parallel run worker claim"
               (update_schedule (cl_TenantID input) (cl_ProjectID input) (cl_RunID input)
                  (claim_row input workers workerTokenHash));
         getParallelRun (cl_TenantID input) (cl_ProjectID input) (cl_RunID input)
     end).

(** The worker token of a claim: its text and its hash. *)
Definition issue_worker_token : M RunTables (string * string) :=
  let! secret := randomParallelRunTokenPart 32 "worker token generation failed" in
  let workerToken := "idwt_" +:+ secret in
  let! hash := generateFromPassword workerToken "worker token hashing failed" in
  ret (workerToken, hash).

(** The run token of a claim is consumed before, and apart from, the claim. *)
Definition consume_with_audit (meta : RequestMeta) (input : ParallelRunClaim)
  : M RunTables unit :=
  do! catch (consumeParallelRunToken input)
        (fun err => do! recordParallelRunTokenAudit meta input "run_token.reject" "failure";
                    fail err);
  recordParallelRunTokenAudit meta input "run_token.consume" "success".

Definition with_token (run : ParallelRun) (token : string) : ParallelRun :=
  {| r_ID := r_ID run; r_RunURL := r_RunURL run; r_IDProject := r_IDProject run;
     r_TestCycleID := r_TestCycleID run; r_PerformedTestCycleID := r_PerformedTestCycleID run;
     r_IdempotencyKey := r_IdempotencyKey run; r_Status := r_Status run;
     r_RequestedConcurrency := r_RequestedConcurrency run;
     r_ActiveWorkers := r_ActiveWorkers run; r_TotalWorkers := r_TotalWorkers run;
     r_CompletedWorkers := r_CompletedWorkers run; r_FailedWorkers := r_FailedWorkers run;
     r_CancelledWorkers := r_CancelledWorkers run; r_LostWorkers := r_LostWorkers run;
     r_AggregateStatus := r_AggregateStatus run; r_Metadata := r_Metadata run;
     r_ResultSummary := r_ResultSummary run; r_Workers := r_Workers run;
     r_ScheduledAt := r_ScheduledAt run; r_StartedAt := r_StartedAt run;
     r_CompletedAt := r_CompletedAt run; r_CancelledAt := r_CancelledAt run;
     r_WorkerToken := token |}.

(** [ClaimParallelRun]. *)
Definition ClaimParallelRun (meta : RequestMeta) (input : ParallelRunClaim)
  : M RunTables ParallelRun :=
  let! token := (if cl_IssueWorkerToken input
                 then let! t := issue_worker_token in ret (Some t) else ret None) in
  do! (if String.eqb (cl_RunToken input) "" then ret tt else consume_with_audit meta input);
  let! run := claim_transaction input (snd <$> token) in
  ret (match token with Some (t, _) => with_token run t | None => run end).

(** ** Worker update *)

Definition updated_worker (input : RunnerWorkerUpdate) (worker : dict json) : dict json :=
  let worker := dset "updatedAt" (JStr (parallelRunISOString (u_Now input)))
                  (dset "status" (JStr (u_Status input)) worker) in
  if is_null (u_Result input) then worker else dset "result" (u_Result input) worker.

(** The row after a worker update: the status of the run stays as it is. *)
Definition update_row (input : RunnerWorkerUpdate) (workers worker : dict json)
  (row : Schedule) : Schedule :=
  let workers := dset (u_WorkerID input) (JObj (updated_worker input worker)) workers in
  let '(workers, counters, summary) := recalculateParallelRunWorkers workers (u_Now input) in
  set_workers (JObj workers) summary counters (s_status row) (s_aggregateStatus row)
    (s_startedAt row) (s_completedAt row) (s_cancelledAt row) (u_Now input) row.

(** [UpdateRunnerWorker]. *)
Definition UpdateRunnerWorker (input : RunnerWorkerUpdate) : M RunTables ParallelRun :=
  transaction "start runner worker update" "commit runner worker update"
    (let! row := query "lock runner worker update"
       (select_schedule (u_TenantID input) (u_ProjectID input) (u_RunID input)) in
     let! row := parallelRunNotFound row in
     do! guard (negb (parallelRunTerminal (s_status row))) ErrParallelRunTerminal;
     let workers := gm_read (decodeParallelMap (s_workerStates row)) in
     match as_obj (jidx workers (u_WorkerID input)) with
     | None => fail ErrParallelWorkerMissing
     | Some worker =>
         do! exec "update runner worker"
               (update_schedule (u_TenantID input) (u_ProjectID input) (u_RunID input)
                  (update_row input workers worker));
         getParallelRun (u_TenantID input) (u_ProjectID input) (u_RunID input)
     end).

(** ** Heartbeat *)

(** A running worker renews its lease; any other is left alone. *)
Definition renewed_worker (leaseSeconds : Z) (now : time) (worker : dict json) : dict json :=
  dset "updatedAt" (JStr (parallelRunISOString now))
    (dset "leaseExpiresAt" (JStr (parallelRunISOString (now + leaseSeconds * second)))
      (dset "lastHeartbeatAt" (JStr (parallelRunISOString now)) worker)).

Definition heartbeat_row (workers worker : dict json) (workerID : string) (leaseSeconds : Z)
  (now : time) (row : Schedule) : Schedule :=
  let workers :=
    if String.eqb (str_or_empty (jidx worker "status")) "running"
    then dset workerID (JObj (renewed_worker leaseSeconds now worker)) workers
    else workers in
  let '(workers, counters, summary) := recalculateParallelRunWorkers workers now in
  let '(nextStatus, nextAggregate, nextCompletedAt) :=
    parallelRunWorkerOutcome (s_status row) (s_aggregateStatus row) (s_completedAt row)
                             counters now in
  set_workers (JObj workers) summary counters nextStatus nextAggregate (s_startedAt row)
    nextCompletedAt (s_cancelledAt row) now row.

(** [HeartbeatParallelRunWorker]: leases are evaluated before the renewal, so an
    expired worker is lost and not revived. *)
Definition HeartbeatParallelRunWorker (tenantID projectID runID : Z) (workerID : string)
  (leaseSeconds : Z) (now : time) : M RunTables ParallelRunHeartbeat :=
  transaction "start parallel run heartbeat transaction" "commit parallel run worker heartbeat"
    (let! row := query "lock parallel run worker heartbeat"
       (select_schedule tenantID projectID runID) in
     let! row := parallelRunNotFound row in
     let workers := gm_read (decodeParallelMap (s_workerStates row)) in
     let '(workers, _, _) := recalculateParallelRunWorkers workers now in
     do! guard (negb (parallelRunTerminal (s_status row))) ErrParallelRunTerminal;
     match as_obj (jidx workers workerID) with
     | None => fail ErrParallelWorkerMissing
     | Some worker =>
         let workerStatus := str_or_empty (jidx worker "status") in
         do! exec "update parallel run worker heartbeat"
               (update_schedule tenantID projectID runID
                  (heartbeat_row workers worker workerID leaseSeconds now));
         let! run := getParallelRun tenantID projectID runID in
         ret {| h_Run := run;
                h_WorkerStatus := if String.eqb workerStatus "running" then ""
                                  else workerStatus |}
     end).

(** ** Cancellation *)

(** A worker whose status is the string ["running"] becomes cancelled. *)
Definition cancelled_worker (now : time) (value : json) : json :=
  let worker := obj_or_empty value in
  if is_str (jidx worker "status") "running" then
    JObj (dset "updatedAt" (JStr (parallelRunISOString now))
           (dset "status" (JStr "cancelled") worker))
  else value.

Definition cancel_row (workers : gomap) (now : time) (row : Schedule) : Schedule :=
  let workers := map (fun kv => (fst kv, cancelled_worker now (snd kv))) <$> workers in
  let '(updated, counters, summary) := recalculateParallelRunWorkers (gm_read workers) now in
  let '(nextStatus, nextAggregate, nextCompletedAt) :=
    parallelRunWorkerOutcome "cancelled" (Some 3) (Some now) counters now in
  set_workers (marshal_map ((fun _ => updated) <$> workers)) summary counters nextStatus
    nextAggregate (s_startedAt row) nextCompletedAt (Some now) now row.

(** [CancelParallelRun]. *)
Definition CancelParallelRun (tenantID projectID runID : Z) (now : time)
  : M RunTables ParallelRun :=
  transaction "start parallel run cancellation transaction" "commit parallel run cancellation"
    (let! row := query "lock parallel run cancellation"
       (select_schedule tenantID projectID runID) in
     let! row := parallelRunNotFound row in
     do! guard (negb (parallelRunTerminal (s_status row))) ErrParallelRunTerminal;
     let workers := decodeParallelMap (s_workerStates row) in
     do! exec "update parallel run cancellation"
           (update_schedule tenantID projectID runID (cancel_row workers now));
     getParallelRun tenantID projectID runID).

(** ** Reads *)

(** [ValidateWorkerToken]. *)
Definition ValidateWorkerToken (tenantID projectID runID : Z) (workerID token : string)
  (now : time) : M RunTables unit :=
  if String.eqb token "" then fail ErrWorkerTokenInvalid
  else
    let! row := query "load parallel run worker token"
                      (select_schedule tenantID projectID runID) in
    match row with
    | None => fail ErrWorkerTokenInvalid
    | Some row =>
        match as_obj (jidx (gm_read (decodeParallelMap (s_workerStates row))) workerID) with
        | None => fail ErrWorkerTokenInvalid
        | Some worker =>
            let hash := str_or_empty (jidx worker "workerTokenHash") in
            let expires := str_or_empty (jidx worker "workerTokenExpiresAt") in
            guard (negb (String.eqb hash "") &&
                   match parseRFC3339 expires with
                   | Some expiresAt => after expiresAt now
                   | None => false
                   end &&
                   bcrypt_compare hash token) ErrWorkerTokenInvalid
        end
    end.

(** [ensureProject]. *)
Definition ensureProject (tenantID projectID : Z) : M RunTables unit :=
  let! owner := query "check browser project ownership" (fun d => projects d !! projectID) in
  guard (bool_decide (owner = Some tenantID)) ErrNotFound.

(** [GetParallelRun]. *)
Definition GetParallelRun (tenantID projectID runID : Z) : M RunTables ParallelRun :=
  do! ensureProject tenantID projectID; getParallelRun tenantID projectID runID.

(** [ORDER BY updated_at DESC]: the most recent first, [NULL] last. *)
Definition newer (a b : Schedule) : Prop :=
  match s_updated_at a, s_updated_at b with
  | _, None => True
  | None, Some _ => False
  | Some x, Some y => y <= x
  end.

#[export] Instance newer_dec : RelDecision newer.
Proof. intros a b. unfold newer. repeat case_match; apply _. Defined.

(** [ListParallelRuns]: the 50 most recent runs of the project, then the filters. *)
Definition ListParallelRuns (tenantID projectID : Z) (filters : dict string)
  : M RunTables (list ParallelRun) :=
  do! ensureProject tenantID projectID;
  let! rows := query "list parallel run schedules"
    (fun d => take 50 (merge_sort newer
                (List.filter (owned tenantID projectID)
                             (snd <$> map_to_list (schedules d))))) in
  ret (List.filter (fun run => parallelRunMatches (r_Metadata run) filters)
                   (map scanParallelRun rows)).
End Operations.
