(* ===== verification/RunCreate.v ===== *)
(** * Creation of parallel runs: metadata, matrix, snapshot, insertion

    [normalizeRunMetadata], [matrixCombinations] and their helpers from
    internal/browserauth/parallel_runs.go, and [createParallelRuns] with the
    execution snapshot from browser_parallel_runs.go. *)

From S2P Require Import Prelude GoStrings GoTime Json Redaction Effects Runs RunTables.

(** ** Metadata *)

(** [metadataScalar]: the text of a scalar, and whether it is one. *)
Definition metadataScalar (value : json) : string * bool :=
  match value with
  | JStr s => (s, true)
  | JNum x => (f_plain x, true)
  | JBool b => (if b then "1" else "", true)
  | _ => ("", false)
  end.

Definition runFields : list string :=
  ["build"; "commit"; "branch"; "repository"; "initiator"; "pipeline"].

Definition identityFields : list string := ["provider"; "issuer"; "subject"; "audience"].

(** A scalar with a non-empty text as that text, anything else as null. *)
Definition scalar_or_null (value : json) : json :=
  let '(text, scalar) := metadataScalar value in
  if negb scalar || String.eqb text "" then JNull else JStr text.

(** One turn of the loop over the run fields, on ([run], [clean]). *)
Definition normalize_field (st : dict json * dict json) (field : string)
  : dict json * dict json :=
  let '(run, clean) := st in
  let value := if is_null (jidx run field) then jidx clean field else jidx run field in
  (dset field (scalar_or_null value) run, ddel field clean).

(** [normalizeRunMetadata]. *)
Definition normalizeRunMetadata (metadata : dict json) : dict json :=
  let clean := removeSensitiveMetadata metadata in
  let run := obj_or_empty (jidx clean "run") in
  let '(run, clean) := fold_left normalize_field runFields (run, clean) in
  let identity :=
    match as_obj (jidx run "workloadIdentity") with
    | Some d => d
    | None => obj_or_empty (jidx clean "workloadIdentity")
    end in
  let normalizedIdentity :=
    fold_left (fun acc field => dset field (scalar_or_null (jidx identity field)) acc)
              identityFields [] in
  let run := dset "workloadIdentity" (JObj normalizedIdentity) run in
  ddel "workloadIdentity" (dset "run" (JObj run) clean).

(** ** The matrix *)
Definition axes : list (string * string) :=
  [("platforms", "platform"); ("browsers", "browser"); ("devices", "device");
   ("environments", "environment")].

(** The distinct non-empty trimmed scalars of an axis, in order. *)
Definition axis_values (values : list json) : list string :=
  fold_left
    (fun unique value =>
       let '(text, scalar) := metadataScalar value in
       let text := trimSpace text in
       if scalar && negb (String.eqb text "") && negb (existsb (String.eqb text) unique)
       then (unique ++ [text])%list else unique)
    values [].

Definition expand (combinations : list (dict string)) (output : string) (unique : list string)
  : list (dict string) :=
  flat_map (fun combination => map (fun value => dset output value combination) unique)
           combinations.

(** One turn of the loop over the axes: [None] once an axis is too long. *)
Definition matrix_axis (matrix : dict (list json)) (st : option (list (dict string) * Z))
  (axis : string * string) : option (list (dict string) * Z) :=
  '(combinations, axisCount) ← st;
  let values := default [] (dget (fst axis) matrix) in
  if 16 <? Z.of_nat (length values) then None
  else
    let unique := axis_values values in
    match unique with
    | [] => Some (combinations, axisCount)
    | _ => Some (expand combinations (snd axis) unique, axisCount + 1)
    end.

(** [matrixCombinations]: the combinations, and whether an axis is too long. *)
Definition matrixCombinations (matrix : dict (list json)) : list (dict string) * bool :=
  match fold_left (matrix_axis matrix) axes (Some ([[]], 0)) with
  | None => ([], true)
  | Some (combinations, axisCount) =>
      if axisCount =? 0 then ([], false) else (combinations, false)
  end.

Definition maxMatrixRuns : Z := 64.

(** ** JSON text of a [map[string]string] *)

(** [encoding/json] escapes quotes, backslashes, control characters, the HTML
    characters and U+2028, U+2029. *)
Definition escape_byte (c : ascii) : list ascii :=
  let n := Ascii.nat_of_ascii c in
  if (n =? 34)%nat then chars "\" ++ [byte 34]
  else if (n =? 92)%nat then chars "\\"
  else if (n =? 8)%nat then chars "\b"
  else if (n =? 12)%nat then chars "\f"
  else if (n =? 10)%nat then chars "\n"
  else if (n =? 13)%nat then chars "\r"
  else if (n =? 9)%nat then chars "\t"
  else if (n <? 32)%nat || (n =? 60)%nat || (n =? 62)%nat || (n =? 38)%nat
  then chars "\u00" ++ hex_byte c
  else [c].

Fixpoint escape (l : list ascii) : list ascii :=
  match l with
  | [] => []
  | a :: l1 =>
      match l1 with
      | b :: (c :: l3) as l2 =>
          if Ascii.eqb a (byte 226) && Ascii.eqb b (byte 128) && Ascii.eqb c (byte 168)
          then chars "\u2028" ++ escape l3
          else if Ascii.eqb a (byte 226) && Ascii.eqb b (byte 128) && Ascii.eqb c (byte 169)
          then chars "\u2029" ++ escape l3
          else escape_byte a ++ escape l1
      | _ => escape_byte a ++ escape l1
      end
  end.

Definition quote (s : string) : list ascii := [byte 34] ++ escape (chars s) ++ [byte 34].

Definition marshal_string_map (d : dict string) : string :=
  of_chars (chars "{" ++
            concat (imap (fun i kv => (if (i =? 0)%nat then [] else chars ",") ++
                                      quote (fst kv) ++ chars ":" ++ quote (snd kv)) d) ++
            chars "}").

(** ** The execution snapshot *)
Definition integral (v : json) : option Z :=
  match v with JNum x => f_int x | _ => None end.

(** The identifier an item refers to; 0 for none. *)
Definition reference_id (item : json) : Z :=
  match item with
  | JNum _ => default 0 (integral item)
  | JObj typed =>
      match integral (jidx typed "id") with
      | Some number => number
      | None => default 0 (integral (jidx typed "assetId"))
      end
  | _ => 0
  end.

(** [parallelReferenceIDs]: positive, each once, in order. *)
Definition parallelReferenceIDs (value : json) : list Z :=
  fold_left
    (fun result item =>
       let id := reference_id item in
       if (0 <? id) && negb (existsb (Z.eqb id) result) then (result ++ [id])%list else result)
    (default [] (as_arr value)) [].

(** [ORDER BY version DESC LIMIT 1]. *)
Definition latest_version (tenantID : Z) (assetType : string) (assetID : Z)
  (rows : list AssetVersionRow) : option AssetVersionRow :=
  fold_left
    (fun best row =>
       if (v_idCostumer row =? tenantID) && String.eqb (v_assetType row) assetType &&
          (v_assetId row =? assetID)
       then match best with
            | Some b => if v_version b <? v_version row then Some row else best
            | None => Some row
            end
       else best)
    rows None.

(** [latestParallelAssetVersion]: nil when the asset has no version. *)
Definition latestParallelAssetVersion (tenantID : Z) (assetType : string) (assetID : Z)
  : M RunTables json :=
  let! row := query "load parallel run asset version"
    (fun d => latest_version tenantID assetType assetID (asset_versions d)) in
  ret (match row with
       | None => JNull
       | Some v => JObj [("assetId", jint assetID); ("assetType", JStr assetType);
                         ("version", jint (v_version v)); ("versionId", jint (v_id v))]
       end).

Definition snapshot_item (tenantID : Z) (assetType : string) (id : Z) : M RunTables json :=
  let! version := latestParallelAssetVersion tenantID assetType id in
  ret (match version with
       | JNull => JObj [("assetId", jint id); ("assetType", JStr assetType);
                        ("version", JNull)]
       | _ => version
       end).

(** [parallelRunExecutionSnapshot]. *)
Definition parallelRunExecutionSnapshot (tenantID testCycleID : Z) : M RunTables json :=
  let! cycle_row := query "load parallel run execution snapshot"
    (fun d => row ← test_cycles d !! testCycleID;
              if y_idCostumer row =? tenantID then Some row else None) in
  let! cycle_row := parallelRunNotFound cycle_row in
  let config := obj_or_empty (y_config cycle_row) in
  let! cycle := latestParallelAssetVersion tenantID "test_cycle" testCycleID in
  let! tests := mapM (snapshot_item tenantID "test")
                     (parallelReferenceIDs (jidx config "tests")) in
  let! steps := mapM (snapshot_item tenantID "step")
                     (parallelReferenceIDs (jidx config "steps")) in
  let! environments := mapM (snapshot_item tenantID "environment")
                            (parallelReferenceIDs (jidx config "environments")) in
  ret (JObj [("environments", JArr environments); ("schemaVersion", JStr "2026-07-28");
             ("steps", JArr steps); ("testCycle", cycle); ("tests", JArr tests)]).

(** ** Insertion *)
Record ParallelRunCreate := {
  p_TenantID : Z;
  p_ProjectID : Z;
  p_TestCycleID : Z;
  p_IdempotencyKey : string;
  p_RequestedConcurrency : Z;
  p_Metadata : dict json;
  p_Now : time;
}.

(** [ensureParallelRunProjectAndCycle]. *)
Definition ensureParallelRunProjectAndCycle (input : ParallelRunCreate) : M RunTables unit :=
  let! project := query "lock parallel run project"
    (fun d => owner ← projects d !! p_ProjectID input;
              if owner =? p_TenantID input then Some tt else None) in
  do! parallelRunNotFound project;
  let! cycle := query "lock parallel run test cycle"
    (fun d => row ← test_cycles d !! p_TestCycleID input;
              if (y_idProject row =? p_ProjectID input) &&
                 (y_idCostumer row =? p_TenantID input)
              then Some tt else None) in
  parallelRunNotFound cycle.

Definition has_key (tenantID projectID : Z) (key : string) (row : Schedule) : bool :=
  owned tenantID projectID row && String.eqb (k_idempotencyKey (s_key row)) key.

Definition new_schedule (input : ParallelRunCreate) (key : string) (metadata : json) (id : Z)
  : Schedule :=
  {| s_key := {| k_id := id; k_idCostumer := p_TenantID input;
                 k_idProject := p_ProjectID input; k_testCycleId := p_TestCycleID input;
                 k_performedTestCycleId := None; k_idempotencyKey := key;
                 k_requestedConcurrency := p_RequestedConcurrency input;
                 k_metadata := Some metadata; k_scheduledAt := Some (p_Now input);
                 k_created_at := Some (p_Now input) |};
     s_status := "queued"; s_activeWorkers := 0; s_totalWorkers := 0;
     s_completedWorkers := 0; s_failedWorkers := 0; s_cancelledWorkers := 0;
     s_aggregateStatus := None; s_workerStates := Some (JObj []);
     s_resultSummary := Some (JObj []); s_startedAt := None; s_completedAt := None;
     s_cancelledAt := None; s_updated_at := Some (p_Now input) |}.

(** [INSERT ... ON DUPLICATE KEY UPDATE id = LAST_INSERT_ID(id)] under the unique
    key (idCostumer, idProject, idempotencyKey): the tables and the identifier. *)
Definition insert_schedule (input : ParallelRunCreate) (key : string) (metadata : json)
  (d : RunTables) : RunTables * Z :=
  match List.find (fun row => has_key (p_TenantID input) (p_ProjectID input) key (snd row))
                  (map_to_list (schedules d)) with
  | Some (id, _) => (d, id)
  | None =>
      let id := next_schedule d in
      ({| schedules := <[id := new_schedule input key metadata id]> (schedules d);
          next_schedule := id + 1; run_tokens := run_tokens d; next_token := next_token d;
          agent_registrations := agent_registrations d; projects := projects d;
          test_cycles := test_cycles d; asset_versions := asset_versions d;
          audit_events := audit_events d |}, id)
  end.

Section Create.
(** crypto/sha256. *)
Variable sha256 : string -> string.

(** [parallelMatrixIdempotencyKey]. *)
Definition parallelMatrixIdempotencyKey (base : string) (combination : dict string) : string :=
  base +:+ "-" +:+ hexEncode (of_chars (take 8 (chars (sha256 (marshal_string_map combination))))).

(** One turn of the loop of [createParallelRuns]. *)
Definition create_one (input : ParallelRunCreate) (snapshot : json) (total : Z)
  (ic : Z * option (dict string)) : M RunTables ParallelRun :=
  let '(index, combination) := ic in
  let metadata := dset "executionSnapshot" snapshot (p_Metadata input) in
  let '(metadata, key) :=
    match combination with
    | Some c =>
        (dset "matrix" (JObj [("combination", JObj (map (fun kv => (fst kv, JStr (snd kv))) c));
                              ("index", jint index); ("total", jint total)]) metadata,
         parallelMatrixIdempotencyKey (p_IdempotencyKey input) c)
    | None => (metadata, p_IdempotencyKey input)
    end in
  let! runID := exec_count "create parallel run schedule"
                           (insert_schedule input key (JObj metadata)) in
  getParallelRun (p_TenantID input) (p_ProjectID input) runID.

(** [createParallelRuns]: one transaction for all combinations; no combinations
    is one run without a matrix. *)
Definition createParallelRuns (input : ParallelRunCreate)
  (combinations : option (list (dict string))) : M RunTables (list ParallelRun) :=
  transaction "start parallel run schedule transaction" "commit parallel run schedules"
    (do! ensureParallelRunProjectAndCycle input;
     let! snapshot := parallelRunExecutionSnapshot (p_TenantID input) (p_TestCycleID input) in
     let combinations := match combinations with
                         | Some l => map Some l
                         | None => [None]
                         end in
     mapM (create_one input snapshot (Z.of_nat (length combinations)))
          (imap (fun i c => (Z.of_nat i, c)) combinations)).

(** [CreateParallelRun] and [CreateParallelRunMatrix]. *)
Definition CreateParallelRun (input : ParallelRunCreate) : M RunTables ParallelRun :=
  let! runs := createParallelRuns input None in
  match runs with
  | run :: _ => ret run
  | [] => fail (Panic "index out of range")
  end.

Definition CreateParallelRunMatrix (input : ParallelRunCreate)
  (combinations : list (dict string)) : M RunTables (list ParallelRun) :=
  createParallelRuns input (Some combinations).
End Create.
