(* ===== verification/RunMachine.v ===== *)
(** * The life of a parallel run as a state machine

    [row_step] is the abstract machine of one schedule row: claim, worker update,
    heartbeat and cancellation, each with its guard.  [table_step t] is one step
    of the tables on behalf of tenant [t]: it says all that changes of them, the run
    tokens and the audit trail included.  The repository operations refine it
    whatever the database and the random source do: an operation makes no step,
    or steps of its own tenant.  Invariants are proved on the machine. *)

From S2P Require Import Prelude GoStrings GoTime Json Redaction Effects Http Contracts Runs RunTables.
From S2P Require Import RunTokens RunOps RunCreate.

(** [validWorkerStatus] of package browserauth, checked by every handler that
    calls [UpdateRunnerWorker]. *)
Definition validWorkerStatus (s : string) : bool :=
  String.eqb s "running" || String.eqb s "completed" || String.eqb s "failed" ||
  String.eqb s "cancelled" || String.eqb s "lost".

Definition ws_of (row : Schedule) : dict json := gm_read (decodeParallelMap (s_workerStates row)).

(** ** One row *)
Inductive row_step : Schedule -> Schedule -> Prop :=
| step_claim input hash row ws :
    parallelRunTerminal (s_status row) = false ->
    s_status row <> "cancelling" ->
    decodeParallelMap (s_workerStates row) = Some ws ->
    as_obj (jidx ws (cl_WorkerID input)) <> None \/
      s_activeWorkers row < k_requestedConcurrency (s_key row) ->
    row_step row (claim_row input ws hash row)
| step_update input row worker :
    parallelRunTerminal (s_status row) = false ->
    validWorkerStatus (u_Status input) = true ->
    as_obj (jidx (ws_of row) (u_WorkerID input)) = Some worker ->
    row_step row (update_row input (ws_of row) worker row)
| step_heartbeat workerID leaseSeconds now row worker :
    parallelRunTerminal (s_status row) = false ->
    as_obj (jidx (updated_workers (ws_of row) now) workerID) = Some worker ->
    row_step row (heartbeat_row (updated_workers (ws_of row) now) worker workerID
                                leaseSeconds now row)
| step_cancel now row :
    parallelRunTerminal (s_status row) = false ->
    row_step row (cancel_row (decodeParallelMap (s_workerStates row)) now row).

(** ** The tables *)

(** The tables after the insertion of a run. *)
Definition with_new_schedule (row : Schedule) (d : RunTables) : RunTables :=
  {| schedules := <[next_schedule d := row]> (schedules d); next_schedule := next_schedule d + 1;
     run_tokens := run_tokens d; next_token := next_token d;
     agent_registrations := agent_registrations d; projects := projects d;
     test_cycles := test_cycles d; asset_versions := asset_versions d;
     audit_events := audit_events d |}.

(** The records that the use of run tokens leaves. *)
Definition token_actions : list string :=
  ["run_token.issue"; "run_token.revoke"; "run_token.consume"; "run_token.reject"].

Section Machine.
Context `{B : Bcrypt}.

Inductive table_step (t : Z) (d d' : RunTables) : Prop :=
| table_row r row row' :
    schedules d !! r = Some row -> k_idCostumer (s_key row) = t -> row_step row row' ->
    d' = with_schedules d (<[r := row']> (schedules d)) ->
    table_step t d d'
| table_insert input key metadata :
    p_TenantID input = t ->
    (forall r row, schedules d !! r = Some row ->
                   has_key t (p_ProjectID input) key row = false) ->
    d' = with_new_schedule (new_schedule input key metadata (next_schedule d)) d ->
    table_step t d d'
| table_issue p r row agentID part salt secret hash expiresAt now :
    select_schedule t p r d = Some row -> bcrypt_generate salt secret = Some hash ->
    insert_token t p (k_id (s_key row)) agentID ("idrt_" +:+ part) hash expiresAt now d = Some d' ->
    table_step t d d'
| table_consume p r agentID tokenID secret now row :
    List.find (fun k => token_scope tokenID t p r k && String.eqb (t_agentId k) agentID)
              (run_tokens d) = Some row ->
    token_usable now secret row = true ->
    update_tokens (t_id row) (fun k => unset (t_usedAt k) && unset (t_revokedAt k))
                  (set_used now) d = (d', 1) ->
    table_step t d d'
| table_revoke p r tokenID now row :
    List.find (token_scope tokenID t p r) (run_tokens d) = Some row ->
    t_revokedAt row = None ->
    d' = fst (update_tokens (t_id row) (fun k => unset (t_revokedAt k)) (set_revoked now) d) ->
    table_step t d d'
| table_audit e :
    e_activeTenantId e = t -> In (e_action e) token_actions -> d' = add_audit e d ->
    table_step t d d'.
End Machine.

(** What steps do to the run tables' schedules: one row, a new row, or nothing. *)
Lemma table_step_schedules `{B : Bcrypt} t d d' :
  table_step t d d' ->
  (exists r row row', schedules d !! r = Some row /\ k_idCostumer (s_key row) = t /\
     row_step row row' /\ schedules d' = <[r := row']> (schedules d) /\
     next_schedule d' = next_schedule d)
  \/ (exists input key metadata, p_TenantID input = t /\
     (forall r row, schedules d !! r = Some row -> has_key t (p_ProjectID input) key row = false) /\
     schedules d' = <[next_schedule d := new_schedule input key metadata (next_schedule d)]>
                      (schedules d) /\ next_schedule d' = next_schedule d + 1)
  \/ (schedules d' = schedules d /\ next_schedule d' = next_schedule d).
Proof.
  intros [r row row' L T S ->|input key m T F ->|p r row a i s x h e n _ _ I
         |p r a i s n row _ _ U|p r i n row _ _ ->|e _ _ ->].
  - left. by exists r, row, row'.
  - right. left. by exists input, key, m.
  - right. right. unfold insert_token in I. case_match; [done|]. by injection I as <-.
  - right. right. unfold update_tokens in U. by injection U as <- _.
  - by right; right.
  - by right; right.
Qed.

(** ** Operations *)
Inductive op :=
| OpClaim (meta : RequestMeta) (input : ParallelRunClaim)
| OpUpdate (input : RunnerWorkerUpdate)
| OpHeartbeat (tenantID projectID runID : Z) (workerID : string) (leaseSeconds : Z) (now : time)
| OpCancel (tenantID projectID runID : Z) (now : time)
| OpCreate (input : ParallelRunCreate) (combinations : option (list (dict string)))
| OpIssue (meta : RequestMeta) (tenantID projectID runID : Z) (agentID : string)
    (now : time) (ttl : Z)
| OpRevoke (meta : RequestMeta) (tenantID projectID runID : Z) (tokenID : string) (now : time)
| OpGet (tenantID projectID runID : Z)
| OpList (tenantID projectID : Z) (filters : dict string)
| OpValidate (tenantID projectID runID : Z) (workerID token : string) (now : time).

Definition op_tenant (o : op) : Z :=
  match o with
  | OpClaim _ input => cl_TenantID input
  | OpUpdate input => u_TenantID input
  | OpHeartbeat t _ _ _ _ _ => t
  | OpCancel t _ _ _ => t
  | OpCreate input _ => p_TenantID input
  | OpIssue _ t _ _ _ _ _ => t
  | OpRevoke _ t _ _ _ _ | OpGet t _ _ | OpList t _ _ | OpValidate t _ _ _ _ _ => t
  end.

(** The operations that only read. *)
Definition op_reads (o : op) : bool :=
  match o with OpGet _ _ _ | OpList _ _ _ | OpValidate _ _ _ _ _ _ => true | _ => false end.

(** What the handlers check before they call the repository. *)
Definition op_valid (o : op) : Prop :=
  match o with OpUpdate input => validWorkerStatus (u_Status input) = true | _ => True end.

Definition forget {D A} (m : M D A) : M D unit := bind m (fun _ => ret tt).

Section Perform.
Context `{MS : MySQL} `{B : Bcrypt} (sha256 : string -> string).

Definition perform (o : op) : M RunTables unit :=
  match o with
  | OpClaim meta input => forget (ClaimParallelRun meta input)
  | OpUpdate input => forget (UpdateRunnerWorker input)
  | OpHeartbeat t p r w l n => forget (HeartbeatParallelRunWorker t p r w l n)
  | OpCancel t p r n => forget (CancelParallelRun t p r n)
  | OpCreate input c => forget (createParallelRuns sha256 input c)
  | OpIssue m t p r a n ttl => forget (IssueParallelRunToken m t p r a n ttl)
  | OpRevoke m t p r i n => forget (RevokeParallelRunToken m t p r i n)
  | OpGet t p r => forget (GetParallelRun t p r)
  | OpList t p f => forget (ListParallelRuns t p f)
  | OpValidate t p r w k n => ValidateWorkerToken t p r w k n
  end.

(** Any operation, in any world, or a change of the tables other components own. *)
Inductive system_step (d d' : RunTables) : Prop :=
| sys_op o faults random :
    op_valid o -> d' = w_db (snd (perform o (World d faults random))) -> system_step d d'
| sys_env :
    schedules d' = schedules d -> next_schedule d' = next_schedule d ->
    run_tokens d' = run_tokens d -> next_token d' = next_token d -> system_step d d'.
End Perform.

(** ** The operations refine the machine *)
Section Refinement.
Context `{MS : MySQL} `{B : Bcrypt} (sha256 : string -> string).

Lemma not_found_ok {A} (o : option A) (w : world RunTables) a w' :
  parallelRunNotFound o w = (Ok a, w') -> o = Some a /\ w' = w.
Proof. unfold parallelRunNotFound. destruct o; intros [=]; subst; auto. Qed.

Lemma get_run_ok t p r w run w' :
  getParallelRun t p r w = (Ok run, w') ->
  w_db w' = w_db w /\
  exists row, select_schedule t p r (w_db w) = Some row /\ run = scanParallelRun row.
Proof.
  unfold getParallelRun. intros H. invert_ok H as H1. apply query_ok in H1 as [-> E1].
  invert_ok H as H1. apply not_found_ok in H1 as [E2 ->]. injection H as <- <-. eauto.
Qed.

Lemma validate_agent_db input w u w' :
  validateParallelRunAgent input w = (Ok u, w') -> w_db w' = w_db w.
Proof.
  unfold validateParallelRunAgent. intros H. invert_ok H as H1. apply query_ok in H1 as [_ E].
  destruct a as [x|]; [|by injection H as _ <-].
  invert_ok H as H1. apply guard_ok in H1 as [_ ->]. by apply guard_ok in H as [_ ->].
Qed.

Ltac name_row S := match type of S with _ = Some ?x => rename x into row end.
Ltac name_world H := match type of H with w_db ?x = _ => rename x into wx end.

(** What a successful claim found and wrote. *)
Lemma claim_transaction_ok input hash w run w' :
  claim_transaction input hash w = (Ok run, w') ->
  exists row ws,
    select_schedule (cl_TenantID input) (cl_ProjectID input) (cl_RunID input) (w_db w) = Some row /\
    parallelRunTerminal (s_status row) = false /\ s_status row <> "cancelling" /\
    decodeParallelMap (s_workerStates row) = Some ws /\
    (as_obj (jidx ws (cl_WorkerID input)) <> None \/
     s_activeWorkers row < k_requestedConcurrency (s_key row)) /\
    w_db w' = update_schedule (cl_TenantID input) (cl_ProjectID input) (cl_RunID input)
                              (claim_row input ws hash) (w_db w) /\
    run = scanParallelRun (claim_row input ws hash row).
Proof.
  unfold claim_transaction. intros H.
  apply transaction_ok in H as (w1 & w2 & E1 & H & E2).
  invert_ok H as H1. apply query_ok in H1 as [-> Q1].
  invert_ok H as H1. apply not_found_ok in H1 as [S ->]. rewrite E1 in *. name_row S.
  invert_ok H as H1. apply guard_ok in H1 as [G1 ->].
  invert_ok H as H1. apply guard_ok in H1 as [G2 ->].
  invert_ok H as H1. apply validate_agent_db in H1.
  invert_ok H as H2. apply guard_ok in H2 as [G3 ->].
  destruct (decodeParallelMap (s_workerStates row)) as [ws|] eqn:D; [|done].
  invert_ok H as H2. apply exec_ok in H2. name_world H2. apply get_run_ok in H as [E3 (row' & S' & ->)].
  assert (E4 : w_db wx = update_schedule (cl_TenantID input) (cl_ProjectID input) (cl_RunID input)
                           (claim_row input ws hash) (w_db w)).
  { rewrite H2. f_equal. congruence. }
  exists row, ws. rewrite E4 in S'.
  assert (K : s_key (claim_row input ws hash row) = s_key row).
  { unfold claim_row. repeat case_match. done. }
  rewrite (update_schedule_select _ _ _ _ _ _ S K) in S'. injection S' as <-.
  repeat split; try done.
  - by apply negb_true_iff in G1.
  - apply negb_true_iff in G2. by apply String.eqb_neq in G2.
  - apply negb_true_iff, andb_false_iff in G3 as [G3|G3].
    + left. by apply bool_decide_eq_false in G3.
    + right. apply Z.leb_gt in G3. lia.
  - congruence.
Qed.

Lemma update_worker_ok input w run w' :
  UpdateRunnerWorker input w = (Ok run, w') ->
  exists row worker,
    select_schedule (u_TenantID input) (u_ProjectID input) (u_RunID input) (w_db w) = Some row /\
    parallelRunTerminal (s_status row) = false /\
    as_obj (jidx (ws_of row) (u_WorkerID input)) = Some worker /\
    w_db w' = update_schedule (u_TenantID input) (u_ProjectID input) (u_RunID input)
                              (update_row input (ws_of row) worker) (w_db w).
Proof.
  unfold UpdateRunnerWorker. intros H.
  apply transaction_ok in H as (w1 & w2 & E1 & H & E2).
  invert_ok H as H1. apply query_ok in H1 as [-> Q1].
  invert_ok H as H1. apply not_found_ok in H1 as [S ->]. rewrite E1 in *. name_row S.
  invert_ok H as H1. apply guard_ok in H1 as [G1 ->].
  destruct (as_obj _) as [worker|] eqn:W; [|done].
  invert_ok H as H2. apply exec_ok in H2. name_world H2. apply get_run_ok in H as [E3 _].
  exists row, worker. repeat split; try done; [by apply negb_true_iff in G1|].
  unfold ws_of. congruence.
Qed.

Lemma heartbeat_ok t p r wid l now w hb w' :
  HeartbeatParallelRunWorker t p r wid l now w = (Ok hb, w') ->
  exists row worker,
    select_schedule t p r (w_db w) = Some row /\
    parallelRunTerminal (s_status row) = false /\
    as_obj (jidx (updated_workers (ws_of row) now) wid) = Some worker /\
    w_db w' = update_schedule t p r
                (heartbeat_row (updated_workers (ws_of row) now) worker wid l now) (w_db w) /\
    h_WorkerStatus hb = (let s := str_or_empty (jidx worker "status") in
                         if String.eqb s "running" then "" else s) /\
    h_Run hb = scanParallelRun
                 (heartbeat_row (updated_workers (ws_of row) now) worker wid l now row).
Proof.
  unfold HeartbeatParallelRunWorker. intros H.
  apply transaction_ok in H as (w1 & w2 & E1 & H & E2).
  invert_ok H as H1. apply query_ok in H1 as [-> Q1].
  invert_ok H as H1. apply not_found_ok in H1 as [S ->]. rewrite E1 in *. name_row S.
  rewrite recalculate_eq in H. cbv beta iota zeta in H.
  invert_ok H as H1. apply guard_ok in H1 as [G1 ->].
  destruct (as_obj _) as [worker|] eqn:W; [|done].
  invert_ok H as H2. apply exec_ok in H2. name_world H2.
  invert_ok H as H3. apply get_run_ok in H3 as [E3 (row' & S' & ->)]. injection H as <- <-.
  assert (E4 : w_db wx = update_schedule t p r
                (heartbeat_row (updated_workers (ws_of row) now) worker wid l now) (w_db w))
    by (unfold ws_of; congruence).
  assert (K : s_key (heartbeat_row (updated_workers (ws_of row) now) worker wid l now row)
              = s_key row) by (unfold heartbeat_row; repeat case_match; done).
  rewrite E4, (update_schedule_select _ _ _ _ _ _ S K) in S'. injection S' as <-.
  exists row, worker. repeat split; try done; [by apply negb_true_iff in G1|]. congruence.
Qed.

Lemma cancel_ok t p r now w run w' :
  CancelParallelRun t p r now w = (Ok run, w') ->
  exists row,
    select_schedule t p r (w_db w) = Some row /\
    parallelRunTerminal (s_status row) = false /\
    w_db w' = update_schedule t p r
                (cancel_row (decodeParallelMap (s_workerStates row)) now) (w_db w).
Proof.
  unfold CancelParallelRun. intros H.
  apply transaction_ok in H as (w1 & w2 & E1 & H & E2).
  invert_ok H as H1. apply query_ok in H1 as [-> Q1].
  invert_ok H as H1. apply not_found_ok in H1 as [S ->]. rewrite E1 in *. name_row S.
  invert_ok H as H1. apply guard_ok in H1 as [G1 ->].
  invert_ok H as H2. apply exec_ok in H2. name_world H2. apply get_run_ok in H as [E3 _].
  exists row. repeat split; try done; [by apply negb_true_iff in G1|]. congruence.
Qed.

(** Steps of one tenant, any number of them. *)
Definition steps (t : Z) : RunTables -> RunTables -> Prop := rtc (table_step t).

#[local] Instance steps_refl t : Reflexive (steps t).
Proof. intros d. apply rtc_refl. Qed.

#[local] Instance steps_trans t : Transitive (steps t).
Proof. apply rtc_po. Qed.

Lemma steps_update t p r f d row :
  select_schedule t p r d = Some row -> row_step row (f row) ->
  steps t d (update_schedule t p r f d).
Proof.
  intros S H. apply rtc_once. unfold update_schedule. rewrite S.
  apply select_schedule_spec in S as (L & T & _). by apply (table_row _ _ _ r row (f row)).
Qed.

(** A transaction that steps when it succeeds steps in any case. *)
Lemma steps_transaction t {A} ob oc (body : M RunTables A) :
  (forall w a w', transaction ob oc body w = (Ok a, w') -> steps t (w_db w) (w_db w')) ->
  preserves (steps t) (transaction ob oc body).
Proof.
  intros H w. destruct (transaction ob oc body w) as [[a|e] w'] eqn:E; simpl; [by eapply H|].
  apply transaction_err in E. by rewrite E.
Qed.

Lemma steps_claim input hash : preserves (steps (cl_TenantID input)) (claim_transaction input hash).
Proof.
  apply steps_transaction. intros w run w' H.
  apply claim_transaction_ok in H as (row & ws & S & T & C & D & G & -> & _).
  eapply steps_update; [done|]. by apply step_claim.
Qed.

Lemma steps_worker input :
  validWorkerStatus (u_Status input) = true ->
  preserves (steps (u_TenantID input)) (UpdateRunnerWorker input).
Proof.
  intros V. apply steps_transaction. intros w run w' H.
  apply update_worker_ok in H as (row & worker & S & T & W & ->).
  eapply steps_update; [done|]. by apply step_update.
Qed.

Lemma steps_heartbeat t p r wid l now :
  preserves (steps t) (HeartbeatParallelRunWorker t p r wid l now).
Proof.
  apply steps_transaction. intros w run w' H.
  apply heartbeat_ok in H as (row & worker & S & T & W & -> & _).
  eapply steps_update; [done|]. by apply step_heartbeat.
Qed.

Lemma steps_cancel t p r now : preserves (steps t) (CancelParallelRun t p r now).
Proof.
  apply steps_transaction. intros w run w' H.
  apply cancel_ok in H as (row & S & T & ->).
  eapply steps_update; [done|]. by apply step_cancel.
Qed.

Lemma steps_insert input key metadata d :
  steps (p_TenantID input) d (fst (insert_schedule input key metadata d)).
Proof.
  unfold insert_schedule. case_match eqn:E.
  - case_match. reflexivity.
  - apply rtc_once. eapply table_insert; try done. intros r row L.
    apply elem_of_map_to_list, list_elem_of_In in L. by apply (List.find_none _ _ E) in L.
Qed.

Lemma steps_not_found t {A} (o : option A) : preserves (steps t) (parallelRunNotFound o).
Proof. unfold parallelRunNotFound. solve_preserves. Qed.

#[local] Hint Resolve steps_not_found steps_insert : effects.

Lemma steps_get_run t t' p r : preserves (steps t) (getParallelRun t' p r).
Proof. unfold getParallelRun. solve_preserves. Qed.

#[local] Hint Resolve steps_get_run : effects.

Lemma steps_create input c :
  preserves (steps (p_TenantID input)) (createParallelRuns sha256 input c).
Proof.
  unfold createParallelRuns, ensureParallelRunProjectAndCycle, parallelRunExecutionSnapshot,
    snapshot_item, latestParallelAssetVersion, create_one.
  solve_preserves.
Qed.

(** What is issued, revoked and consumed is a token of the tenant, and is recorded. *)
Lemma steps_claim_audit m input a r :
  In a token_actions -> preserves (steps (cl_TenantID input)) (recordParallelRunTokenAudit m input a r).
Proof. intros H. apply preserves_exec; [apply _..|]. intros d. apply rtc_once. by eapply table_audit; [..|reflexivity]. Qed.

Lemma steps_token_audit m t p r a b f :
  In a token_actions -> preserves (steps t) (recordParallelRunTokenLifecycleAudit m t p r a b f).
Proof. intros H. apply preserves_exec; [apply _..|]. intros d. apply rtc_once. by eapply table_audit; [..|reflexivity]. Qed.

Lemma wp_token_part d n f (Q : outcome string -> RunTables -> Prop) :
  (forall e, Q (Err e) d) -> (forall s, Q (Ok s) d) -> wp d (randomParallelRunTokenPart n f) Q.
Proof.
  intros He Hs. apply wp_bind, wp_rand; [|intros b _]; [by apply wp_fail|by apply wp_ret].
Qed.

Lemma wp_hash d password f (Q : outcome string -> RunTables -> Prop) :
  (forall e, Q (Err e) d) ->
  (forall salt hash, bcrypt_generate salt password = Some hash -> Q (Ok hash) d) ->
  wp d (generateFromPassword password f) Q.
Proof.
  intros He Hs. apply wp_bind, wp_rand; [by apply wp_fail|intros b _]. simpl.
  destruct (bcrypt_generate b password) eqn:E; [by eapply wp_ret, Hs|by apply wp_fail].
Qed.

Lemma steps_issue m t p r a n ttl : preserves (steps t) (IssueParallelRunToken m t p r a n ttl).
Proof.
  apply preserves_wp. intros d. apply wp_bind, wp_query; [|reflexivity]. apply wp_bind.
  unfold parallelRunNotFound.
  destruct (select_schedule t p r d) as [row|] eqn:S; [apply wp_ret|by apply wp_fail].
  apply wp_bind, wp_token_part; [reflexivity|intros part].
  apply wp_bind, wp_token_part; [reflexivity|intros secret].
  apply wp_bind, wp_hash; [reflexivity|intros salt hash H].
  apply wp_bind, wp_insert_unique; [intros d' I|reflexivity].
  assert (ST : steps t d d') by (apply rtc_once; by eapply table_issue).
  apply wp_bind. eapply wp_weaken; [apply wp_preserves, steps_token_audit; simpl; tauto|].
  intros [[]|e] d2 H2; [apply wp_ret|]; by etransitivity.
Qed.

Lemma steps_revoke m t p r i n : preserves (steps t) (RevokeParallelRunToken m t p r i n).
Proof.
  apply preserves_bind; [apply _..| |intros [[agent before] at_]].
  - apply preserves_wp. intros d. apply wp_transaction; [|reflexivity].
    apply wp_bind, wp_query; [|reflexivity]. apply wp_bind. unfold parallelRunNotFound.
    destruct (List.find _ _) as [row|] eqn:F; [apply wp_ret|by apply wp_fail].
    destruct (t_revokedAt row) eqn:V; [by apply wp_ret|].
    apply wp_bind, wp_exec; [apply wp_ret|reflexivity]. apply rtc_once. by eapply table_revoke.
  - apply preserves_bind; [apply _..|apply steps_token_audit; simpl; tauto|]. solve_preserves.
Qed.

Lemma steps_consume input : preserves (steps (cl_TenantID input)) (consumeParallelRunToken input).
Proof.
  unfold consumeParallelRunToken. destruct (cut _ _) as [[tokenID secret]|]; [|solve_preserves].
  destruct (_ || _); [solve_preserves|]. apply preserves_wp. intros d. apply wp_transaction; [|reflexivity].
  apply wp_bind, wp_query; [|reflexivity]. destruct (List.find _ _) as [row|] eqn:F; [|by apply wp_fail].
  apply wp_bind, wp_guard; intros U; [|reflexivity].
  apply wp_bind, wp_exec_count; [|reflexivity]. apply wp_guard; intros C; [|reflexivity].
  apply Z.eqb_eq in C. apply rtc_once. eapply table_consume; [exact F|exact U|]. rewrite <- C. by rewrite <- surjective_pairing.
Qed.

#[local] Hint Resolve steps_consume steps_claim : effects.

Lemma steps_claim_run m input :
  preserves (steps (cl_TenantID input)) (ClaimParallelRun m input).
Proof.
  unfold ClaimParallelRun, issue_worker_token, randomParallelRunTokenPart, generateFromPassword,
    consume_with_audit. pose proof (fun a r => steps_claim_audit m input a r) as A. solve_preserves;
    apply A; simpl; tauto.
Qed.

(** What reads. *)
Lemma reading_pure o : op_reads o = true -> preserves eq (perform sha256 o).
Proof.
  destruct o; try done; intros _; unfold perform, forget, GetParallelRun, ListParallelRuns,
    ValidateWorkerToken, ensureProject, getParallelRun, parallelRunNotFound; solve_preserves.
Qed.

Lemma steps_reading o : op_reads o = true -> preserves (steps (op_tenant o)) (perform sha256 o).
Proof. intros H w. by rewrite <- (reading_pure o H w). Qed.

#[local] Hint Resolve steps_claim_run steps_worker steps_heartbeat steps_cancel steps_create
  steps_issue steps_revoke : effects.

Lemma steps_perform o : op_valid o -> preserves (steps (op_tenant o)) (perform sha256 o).
Proof.
  destruct (op_reads o) eqn:E; [intros _; by apply steps_reading|].
  destruct o; try done; simpl; intros V; unfold forget; solve_preserves.
Qed.
End Refinement.

#[export] Existing Instances steps_refl steps_trans.
