(* ===== verification/RunHandlers.v ===== *)
(** * The HTTP handlers of parallel runs

    internal/browserauth/parallel_runs.go: each route authenticates (a browser
    session or an API key), validates path and body, calls one repository
    operation and maps its outcome to a status.  The session repository is an
    interface of the code ([SessionRepository]); its [Get] is an argument. *)

From S2P Require Import Prelude GoStrings GoTime Json Redaction Effects Http Runs.
From S2P Require Import RunTables RunTokens RunOps RunCreate RunMachine.

(** The signed-in user, the fields these handlers read. *)
Record User := {
  us_ID : Z;
  us_TenantID : Z;
  us_ActiveTenantID : Z;
}.

(** [User.ActiveTenant]. *)
Definition ActiveTenant (u : User) : Z :=
  if 0 <? us_ActiveTenantID u then us_ActiveTenantID u else us_TenantID u.

(** What the handlers write. *)
Inductive payload :=
| PMessage (members : dict string)
| PValidation (errors : list (string * string))
| PRun (run : ParallelRun)
| PRuns (runs : list ParallelRun)
| PResults (run : ParallelRun)
| PLostLease (run : ParallelRun) (workerStatus : string)
| PMatrix (runs : list ParallelRun) (requestedRuns : Z)
| PMatrixLimit (maximumRuns requestedRuns : Z)
| PIssued (issued : RunTokenIssued)
| PRevoked (revoked : RunTokenRevoked).

Definition reply : Type := response payload.

Definition message (status : Z) (text : string) : reply :=
  Written status (PMessage [("message", text)]).

(** [unauthorized], [notFound], [internalError], [validationError]. *)
Definition unauthorized : reply := message 401 "Unauthenticated.".
Definition notFound : reply := message 404 "Not found.".
Definition internalError : reply := message 500 "The request could not be completed.".
Definition validationError (field text : string) : reply :=
  Written 422 (PValidation [(field, text)]).

(** The configuration of the handler and the clock. *)
Record HandlerConfig := {
  hc_runTokenRequiredClaim : bool;
  hc_runTokenTTL : Z;
  hc_now : time;
}.

(** ** Decoding the bodies *)
Record worker_body := {
  wb_ProjectID : Z;
  wb_RunID : Z;
  wb_WorkerID : string;
  wb_Status : string;
  wb_Result : json;
  wb_LeaseSeconds : Z;
  wb_Capabilities : option (list json);
}.

Definition zero_body : worker_body :=
  {| wb_ProjectID := 0; wb_RunID := 0; wb_WorkerID := ""; wb_Status := ""; wb_Result := JNull;
     wb_LeaseSeconds := 0; wb_Capabilities := None |}.

Definition set_project (z : Z) (b : worker_body) : worker_body :=
  {| wb_ProjectID := z; wb_RunID := wb_RunID b; wb_WorkerID := wb_WorkerID b;
     wb_Status := wb_Status b; wb_Result := wb_Result b; wb_LeaseSeconds := wb_LeaseSeconds b;
     wb_Capabilities := wb_Capabilities b |}.
Definition set_run (z : Z) (b : worker_body) : worker_body :=
  {| wb_ProjectID := wb_ProjectID b; wb_RunID := z; wb_WorkerID := wb_WorkerID b;
     wb_Status := wb_Status b; wb_Result := wb_Result b; wb_LeaseSeconds := wb_LeaseSeconds b;
     wb_Capabilities := wb_Capabilities b |}.
Definition set_worker (s : string) (b : worker_body) : worker_body :=
  {| wb_ProjectID := wb_ProjectID b; wb_RunID := wb_RunID b; wb_WorkerID := s;
     wb_Status := wb_Status b; wb_Result := wb_Result b; wb_LeaseSeconds := wb_LeaseSeconds b;
     wb_Capabilities := wb_Capabilities b |}.
Definition set_status (s : string) (b : worker_body) : worker_body :=
  {| wb_ProjectID := wb_ProjectID b; wb_RunID := wb_RunID b; wb_WorkerID := wb_WorkerID b;
     wb_Status := s; wb_Result := wb_Result b; wb_LeaseSeconds := wb_LeaseSeconds b;
     wb_Capabilities := wb_Capabilities b |}.
Definition set_result (v : json) (b : worker_body) : worker_body :=
  {| wb_ProjectID := wb_ProjectID b; wb_RunID := wb_RunID b; wb_WorkerID := wb_WorkerID b;
     wb_Status := wb_Status b; wb_Result := v; wb_LeaseSeconds := wb_LeaseSeconds b;
     wb_Capabilities := wb_Capabilities b |}.
Definition set_lease (z : Z) (b : worker_body) : worker_body :=
  {| wb_ProjectID := wb_ProjectID b; wb_RunID := wb_RunID b; wb_WorkerID := wb_WorkerID b;
     wb_Status := wb_Status b; wb_Result := wb_Result b; wb_LeaseSeconds := z;
     wb_Capabilities := wb_Capabilities b |}.
Definition set_capabilities (l : option (list json)) (b : worker_body) : worker_body :=
  {| wb_ProjectID := wb_ProjectID b; wb_RunID := wb_RunID b; wb_WorkerID := wb_WorkerID b;
     wb_Status := wb_Status b; wb_Result := wb_Result b; wb_LeaseSeconds := wb_LeaseSeconds b;
     wb_Capabilities := l |}.

Definition runner_ids : list (string * setter worker_body) :=
  [("idProject", to_int set_project); ("parallelRun", to_int set_run);
   ("workerId", to_string set_worker)].

Record create_body := {
  cb_TestCycleID : Z;
  cb_IdempotencyKey : string;
  cb_RequestedConcurrency : Z;
  cb_Metadata : option (dict json);
  cb_Matrix : option (dict (list json));
}.

Definition create_fields : list (string * setter create_body) :=
  [("testCycleId", to_int (fun z b =>
      {| cb_TestCycleID := z; cb_IdempotencyKey := cb_IdempotencyKey b;
         cb_RequestedConcurrency := cb_RequestedConcurrency b; cb_Metadata := cb_Metadata b;
         cb_Matrix := cb_Matrix b |}));
   ("idempotencyKey", to_string (fun s b =>
      {| cb_TestCycleID := cb_TestCycleID b; cb_IdempotencyKey := s;
         cb_RequestedConcurrency := cb_RequestedConcurrency b; cb_Metadata := cb_Metadata b;
         cb_Matrix := cb_Matrix b |}));
   ("requestedConcurrency", to_int (fun z b =>
      {| cb_TestCycleID := cb_TestCycleID b; cb_IdempotencyKey := cb_IdempotencyKey b;
         cb_RequestedConcurrency := z; cb_Metadata := cb_Metadata b;
         cb_Matrix := cb_Matrix b |}));
   ("metadata", to_map cb_Metadata (fun m b =>
      {| cb_TestCycleID := cb_TestCycleID b; cb_IdempotencyKey := cb_IdempotencyKey b;
         cb_RequestedConcurrency := cb_RequestedConcurrency b; cb_Metadata := m;
         cb_Matrix := cb_Matrix b |}));
   ("matrix", to_array_map cb_Matrix (fun m b =>
      {| cb_TestCycleID := cb_TestCycleID b; cb_IdempotencyKey := cb_IdempotencyKey b;
         cb_RequestedConcurrency := cb_RequestedConcurrency b; cb_Metadata := cb_Metadata b;
         cb_Matrix := m |}))].

Definition zero_create : create_body :=
  {| cb_TestCycleID := 0; cb_IdempotencyKey := ""; cb_RequestedConcurrency := 0;
     cb_Metadata := None; cb_Matrix := None |}.

(** ** The handlers *)
Module Handler.
Section Handlers.
Context `{MS : MySQL} `{B : Bcrypt} (sha256 : string -> string) (cfg : HandlerConfig) (meta : RequestMeta).

(** [SessionRepository.Get]. *)
Variable sessions_Get : string -> time -> M RunTables User.

Definition H : Type := M RunTables reply.

(** [authenticatedUser]: the user, or the response already written. *)
Definition authenticatedUser (r : Request) : M RunTables (reply + User) :=
  match rq_cookie r with
  | None => ret (inl unauthorized)
  | Some value =>
      if String.eqb value "" then ret (inl unauthorized)
      else
        let! user := attempt (sessions_Get value (hc_now cfg)) in
        ret (match user with
             | Ok u => inr u
             | Err ErrNotFound => inl unauthorized
             | Err _ => inl internalError
             end)
  end.

Definition with_user (r : Request) (k : User -> H) : H :=
  let! user := authenticatedUser r in
  match user with inl written => ret written | inr u => k u end.

(** [auth.TenantFromContext]: set by the API-key middleware. *)
Definition with_tenant (tenant : option Z) (k : Z -> H) : H :=
  match tenant with Some t => k t | None => ret unauthorized end.

(** [parseAssetVersionPath] of the route's run. *)
Definition with_run_path (r : Request) (k : Z -> Z -> H) : H :=
  match parsePathID (pathValue r "idProject"), parsePathID (pathValue r "parallelRun") with
  | Some projectID, Some runID => k projectID runID
  | _, _ => ret (message 404 "Not Found")
  end.

(** [updateWorker]. *)
Definition updateWorker (r : Request) (tenantID : Z) : H :=
  with_run_path r (fun projectID runID =>
    let workerID := trimSpace (pathValue r "workerId") in
    if String.eqb workerID "" || (128 <? slen workerID) then ret notFound
    else
      match decode true [("status", to_string set_status); ("result", to_any set_result)]
                   zero_body (rq_body r) with
      | Decoded b =>
          if validWorkerStatus (wb_Status b) then
            let! result := attempt (UpdateRunnerWorker
              {| u_TenantID := tenantID; u_ProjectID := projectID; u_RunID := runID;
                 u_WorkerID := workerID; u_Status := wb_Status b; u_Result := wb_Result b;
                 u_Now := hc_now cfg |}) in
            ret (match result with
                 | Ok run => Written 200 (PRun run)
                 | Err ErrNotFound | Err ErrParallelWorkerMissing => notFound
                 | Err ErrParallelRunTerminal => message 422 "Parallel run is already terminal."
                 | Err ErrParallelRunCancelling => message 409 "Parallel run is cancelling."
                 | Err _ => internalError
                 end)
          else ret (validationError "status" "The worker status is invalid.")
      | _ => ret (validationError "status" "The worker status is invalid.")
      end).

(** [results]. *)
Definition results (r : Request) (tenantID : Z) : H :=
  with_run_path r (fun projectID runID =>
    let! result := attempt (GetParallelRun tenantID projectID runID) in
    ret (match result with
         | Ok run => Written 200 (PResults run)
         | Err ErrNotFound => notFound
         | Err _ => internalError
         end)).

(** [showParallelRun]. *)
Definition showParallelRun (r : Request) (tenantID : Z) : H :=
  with_run_path r (fun projectID runID =>
    let! result := attempt (GetParallelRun tenantID projectID runID) in
    ret (match result with
         | Ok run => Written 200 (PRun run)
         | Err ErrNotFound => notFound
         | Err _ => internalError
         end)).

(** [cancelParallelRun]. *)
Definition cancelParallelRun (r : Request) (tenantID : Z) : H :=
  with_run_path r (fun projectID runID =>
    let! result := attempt (RunOps.CancelParallelRun tenantID projectID runID (hc_now cfg)) in
    ret (match result with
         | Ok run => Written 200 (PRun run)
         | Err ErrNotFound => notFound
         | Err ErrParallelRunTerminal => message 422 "Parallel run is already terminal."
         | Err _ => internalError
         end)).

(** [heartbeatParallelRunWorker]: an empty body keeps the default lease. *)
Definition heartbeatParallelRunWorker (r : Request) (tenantID : Z) : H :=
  with_run_path r (fun projectID runID =>
    let workerID := pathValue r "workerId" in
    if String.eqb workerID "" || (128 <? slen workerID) then ret notFound
    else
      match decode true [("leaseSeconds", to_int_pointer (fun z _ => z))] None (rq_body r) with
      | DecodeError => ret (validationError "leaseSeconds" "The lease seconds field must be an integer.")
      | d =>
          let leaseSeconds := match d with Decoded (Some z) => z | _ => 120 end in
          if (leaseSeconds <? 15) || (3600 <? leaseSeconds)
          then ret (validationError "leaseSeconds"
                      "The lease seconds field must be between 15 and 3600.")
          else
            let! result := attempt (RunOps.HeartbeatParallelRunWorker tenantID projectID runID
                                      workerID leaseSeconds (hc_now cfg)) in
            ret (match result with
                 | Err ErrParallelWorkerMissing => message 404 "Worker has not claimed this run."
                 | Err ErrNotFound => notFound
                 | Err ErrParallelRunTerminal => message 422 "Parallel run is already terminal."
                 | Err _ => internalError
                 | Ok hb =>
                     if String.eqb (h_WorkerStatus hb) "" then Written 200 (PRun (h_Run hb))
                     else Written 409 (PLostLease (h_Run hb) (h_WorkerStatus hb))
                 end)
      end).

Definition runTokenRequired : reply :=
  message 401 "A short-lived run token is required to claim a worker slot.".

(** The body of a claim: [capabilities] is kept raw, null included. *)
Record claim_body := { clb_WorkerID : string; clb_Capabilities : option json }.

Definition claim_fields : list (string * setter claim_body) :=
  [("workerId", to_string (fun s b =>
      {| clb_WorkerID := s; clb_Capabilities := clb_Capabilities b |}));
   ("capabilities", fun v b =>
      Some {| clb_WorkerID := clb_WorkerID b; clb_Capabilities := Some (normalize (fl_value v)) |})].

(** The outcome of a claim on the API and browser surface. *)
Definition claim_reply (result : outcome ParallelRun) : reply :=
  match result with
  | Ok run => Written 200 (PRun run)
  | Err ErrNotFound => notFound
  | Err ErrRunTokenInvalid =>
      validationError "runToken" "The run token is invalid, expired, used, or not bound to this agent."
  | Err ErrAgentProofInvalid =>
      message 401 "Agent identity proof is invalid for this run ownership request."
  | Err (AgentUnavailableError status health) =>
      Written 409 (PMessage [("agentHealth", health); ("agentStatus", status);
                             ("message", "Agent is not approved and healthy for new run ownership.")])
  | Err ErrParallelRunConcurrency => message 409 "Concurrency limit reached."
  | Err ErrParallelRunCancelling => message 409 "Parallel run is cancelling."
  | Err ErrParallelRunTerminal => message 422 "Parallel run is already terminal."
  | Err _ => internalError
  end.

(** [claimParallelRun]: a body that does not decode gets no response at all. *)
Definition claimParallelRun (r : Request) (tenantID : Z) (actor : option User) : H :=
  with_run_path r (fun projectID runID =>
    match decode true claim_fields {| clb_WorkerID := ""; clb_Capabilities := None |} (rq_body r) with
    | Decoded b =>
        let workerID := trimSpace (clb_WorkerID b) in
        if String.eqb workerID "" || (128 <? slen workerID)
        then ret (validationError "workerId" "The worker id field is invalid.")
        else
          let runToken := header r "Idelium-Run-Token" in
          if hc_runTokenRequiredClaim cfg && String.eqb runToken "" then ret runTokenRequired
          else
            let claim capabilities set_ :=
              let! result := attempt (RunOps.ClaimParallelRun meta
                {| cl_TenantID := tenantID; cl_ActorUserID := us_ID <$> actor;
                   cl_ActorTenantID := from_option us_TenantID tenantID actor;
                   cl_ProjectID := projectID; cl_RunID := runID; cl_WorkerID := workerID;
                   cl_Capabilities := capabilities; cl_CapabilitiesSet := set_;
                   cl_RunToken := runToken;
                   cl_CertificateHash := header r "Idelium-Agent-Cert-Sha256";
                   cl_IssueWorkerToken := false; cl_Now := hc_now cfg |}) in
              ret (claim_reply result) in
            match clb_Capabilities b with
            | None => claim [] false
            | Some (JArr l) => claim l true
            | Some _ => ret (validationError "capabilities" "The capabilities field must be an array.")
            end
    | _ => ret Unwritten
    end).

(** [listParallelRuns]. *)
Definition listParallelRuns (r : Request) (tenantID : Z) : H :=
  match parsePathID (pathValue r "idProject") with
  | None => ret notFound
  | Some projectID =>
      let filters := fold_left (fun acc f => let value := queryValue r f in
                                  if String.eqb value "" then acc else dset f value acc)
                               runFields [] in
      let! result := attempt (ListParallelRuns tenantID projectID filters) in
      ret (match result with
           | Ok runs => Written 200 (PRuns runs)
           | Err ErrNotFound => notFound
           | Err _ => internalError
           end)
  end.

(** [createParallelRun], plain and matrix. *)
Definition createParallelRun (r : Request) (tenantID : Z) (matrix : bool) : H :=
  match parsePathID (pathValue r "idProject") with
  | None => ret notFound
  | Some projectID =>
      match decode true create_fields zero_create (rq_body r) with
      | Decoded b =>
          let keyLimit := if matrix then 96 else 128 in
          if (cb_TestCycleID b <? 1) || String.eqb (trimSpace (cb_IdempotencyKey b)) "" ||
             (keyLimit <? slen (cb_IdempotencyKey b))
          then ret (Written 422 (PValidation
                 [("testCycleId", "The test cycle id field is required.");
                  ("idempotencyKey", "The idempotency key field is invalid.")]))
          else
            let concurrency := if cb_RequestedConcurrency b =? 0 then 1
                               else cb_RequestedConcurrency b in
            if (concurrency <? 1) || (32 <? concurrency)
            then ret (validationError "requestedConcurrency"
                        "The requested concurrency field must be between 1 and 32.")
            else
              let input := {| p_TenantID := tenantID; p_ProjectID := projectID;
                              p_TestCycleID := cb_TestCycleID b;
                              p_IdempotencyKey := trimSpace (cb_IdempotencyKey b);
                              p_RequestedConcurrency := concurrency;
                              p_Metadata := normalizeRunMetadata (default [] (cb_Metadata b));
                              p_Now := hc_now cfg |} in
              if negb matrix then
                let! result := attempt (RunCreate.CreateParallelRun sha256 input) in
                ret (match result with
                     | Ok run => Written 201 (PRun run)
                     | Err ErrNotFound => notFound
                     | Err _ => internalError
                     end)
              else
                match cb_Matrix b with
                | None => ret (validationError "matrix" "The matrix field must be present.")
                | Some m =>
                    let '(combinations, invalid) := matrixCombinations m in
                    let n := Z.of_nat (length combinations) in
                    if invalid
                    then ret (validationError "matrix"
                                "The matrix axes must contain no more than 16 values.")
                    else if n =? 0
                    then ret (message 422 "At least one matrix axis value is required.")
                    else if maxMatrixRuns <? n
                    then ret (Written 422 (PMatrixLimit maxMatrixRuns n))
                    else
                      let! result := attempt (RunCreate.CreateParallelRunMatrix sha256 input
                                                combinations) in
                      ret (match result with
                           | Ok runs => Written 201 (PMatrix runs n)
                           | Err ErrNotFound => notFound
                           | Err _ => internalError
                           end)
                end
      | _ => ret Unwritten
      end
  end.

(** The browser and API-key routes. *)
Definition Results r := with_user r (fun u => results r (ActiveTenant u)).
Definition CLResults tenant r := with_tenant tenant (results r).
Definition UpdateParallelRunWorker r := with_user r (fun u => updateWorker r (ActiveTenant u)).
Definition CLUpdateParallelRunWorker tenant r := with_tenant tenant (updateWorker r).
Definition ParallelRuns r := with_user r (fun u => listParallelRuns r (ActiveTenant u)).
Definition CLParallelRuns tenant r := with_tenant tenant (listParallelRuns r).
Definition CreateParallelRun r := with_user r (fun u => createParallelRun r (ActiveTenant u) false).
Definition CLCreateParallelRun tenant r := with_tenant tenant (fun t => createParallelRun r t false).
Definition CreateParallelRunMatrix r :=
  with_user r (fun u => createParallelRun r (ActiveTenant u) true).
Definition CLCreateParallelRunMatrix tenant r :=
  with_tenant tenant (fun t => createParallelRun r t true).
Definition ShowParallelRun r := with_user r (fun u => showParallelRun r (ActiveTenant u)).
Definition CLShowParallelRun tenant r := with_tenant tenant (showParallelRun r).
Definition ClaimParallelRun r :=
  with_user r (fun u => claimParallelRun r (ActiveTenant u) (Some u)).
Definition CLClaimParallelRun tenant r := with_tenant tenant (fun t => claimParallelRun r t None).
Definition HeartbeatParallelRunWorker r :=
  with_user r (fun u => heartbeatParallelRunWorker r (ActiveTenant u)).
Definition CLHeartbeatParallelRunWorker tenant r := with_tenant tenant (heartbeatParallelRunWorker r).
Definition CancelParallelRun r := with_user r (fun u => cancelParallelRun r (ActiveTenant u)).
Definition CLCancelParallelRun tenant r := with_tenant tenant (cancelParallelRun r).

(** [CLIssueParallelRunToken]. *)
Definition CLIssueParallelRunToken (tenant : option Z) (r : Request) : H :=
  with_tenant tenant (fun tenantID => with_run_path r (fun projectID runID =>
    match decode true [("agentId", to_string set_worker)] zero_body (rq_body r) with
    | Decoded b =>
        let agentID := trimSpace (wb_WorkerID b) in
        if String.eqb agentID "" || (128 <? slen agentID)
        then ret (validationError "agentId" "The agent id field is invalid.")
        else
          let! result := attempt (IssueParallelRunToken meta tenantID projectID runID agentID
                                    (hc_now cfg) (hc_runTokenTTL cfg)) in
          ret (match result with
               | Ok issued => Written 201 (PIssued issued)
               | Err ErrNotFound => notFound
               | Err _ => internalError
               end)
    | _ => ret (validationError "agentId" "The agent id field is invalid.")
    end)).

(** [CLRevokeParallelRunToken]. *)
Definition CLRevokeParallelRunToken (tenant : option Z) (r : Request) : H :=
  with_tenant tenant (fun tenantID => with_run_path r (fun projectID runID =>
    let tokenID := pathValue r "tokenId" in
    if String.eqb tokenID "" || (64 <? slen tokenID) then ret notFound
    else
      let! result := attempt (RevokeParallelRunToken meta tenantID projectID runID tokenID
                                (hc_now cfg)) in
      ret (match result with
           | Ok revoked => Written 200 (PRevoked revoked)
           | Err ErrNotFound => notFound
           | Err _ => internalError
           end))).

(** ** The runner surface: identifiers in the body, a worker token in a header *)

(** [validateWorkerToken]: [None] when the token is accepted. *)
Definition validateWorkerToken (r : Request) (tenantID projectID runID : Z) (workerID : string)
  : M RunTables (option reply) :=
  let! result := attempt (ValidateWorkerToken tenantID projectID runID workerID
                            (header r "Idelium-Worker-Token") (hc_now cfg)) in
  ret (match result with
       | Ok _ => None
       | Err ErrWorkerTokenInvalid =>
           Some (message 401 "Worker token is invalid, expired, or not bound to this worker.")
       | Err _ => Some internalError
       end).

Definition ids_invalid (b : worker_body) : bool :=
  (wb_ProjectID b <? 1) || (wb_RunID b <? 1) || String.eqb (trimSpace (wb_WorkerID b)) "".

(** [RunnerClaim]. *)
Definition RunnerClaim (tenant : option Z) (r : Request) : H :=
  with_tenant tenant (fun tenantID =>
    let invalid := validationError "workerId" "The worker id field is invalid." in
    match decode true (runner_ids ++ [("capabilities", to_array set_capabilities)])%list zero_body
                 (rq_body r) with
    | Decoded b =>
        if ids_invalid b || (128 <? slen (wb_WorkerID b)) then ret invalid
        else
          let runToken := header r "Idelium-Run-Token" in
          if hc_runTokenRequiredClaim cfg && String.eqb runToken "" then ret runTokenRequired
          else
            let! result := attempt (RunOps.ClaimParallelRun meta
              {| cl_TenantID := tenantID; cl_ActorUserID := None; cl_ActorTenantID := 0;
                 cl_ProjectID := wb_ProjectID b; cl_RunID := wb_RunID b;
                 cl_WorkerID := trimSpace (wb_WorkerID b);
                 cl_Capabilities := default [] (wb_Capabilities b);
                 cl_CapabilitiesSet := bool_decide (wb_Capabilities b <> None);
                 cl_RunToken := runToken;
                 cl_CertificateHash := header r "Idelium-Agent-Cert-Sha256";
                 cl_IssueWorkerToken := true; cl_Now := hc_now cfg |}) in
            ret (match result with
                 | Ok run => Written 200 (PRun run)
                 | Err ErrRunTokenInvalid =>
                     message 401 "The run token is invalid, expired, used, or not bound to this agent."
                 | Err _ => internalError
                 end)
    | _ => ret invalid
    end).

(** [RunnerHeartbeat]. *)
Definition RunnerHeartbeat (tenant : option Z) (r : Request) : H :=
  with_tenant tenant (fun tenantID =>
    let invalid := validationError "workerId" "The worker id field is invalid." in
    match decode true (runner_ids ++ [("leaseSeconds", to_int set_lease)])%list zero_body
                 (rq_body r) with
    | Decoded b =>
        if ids_invalid b then ret invalid
        else
          let workerID := trimSpace (wb_WorkerID b) in
          let! refused := validateWorkerToken r tenantID (wb_ProjectID b) (wb_RunID b) workerID in
          match refused with
          | Some written => ret written
          | None =>
              let leaseSeconds := if wb_LeaseSeconds b =? 0 then 120 else wb_LeaseSeconds b in
              if (leaseSeconds <? 15) || (3600 <? leaseSeconds)
              then ret (validationError "leaseSeconds"
                          "The lease seconds field must be between 15 and 3600.")
              else
                let! result := attempt (RunOps.HeartbeatParallelRunWorker tenantID
                  (wb_ProjectID b) (wb_RunID b) workerID leaseSeconds (hc_now cfg)) in
                ret (match result with
                     | Err _ => internalError
                     | Ok hb =>
                         if String.eqb (h_WorkerStatus hb) "" then Written 200 (PRun (h_Run hb))
                         else Written 409 (PLostLease (h_Run hb) (h_WorkerStatus hb))
                     end)
          end
    | _ => ret invalid
    end).

(** [RunnerUpdateWorker]: its decoder accepts unknown members. *)
Definition RunnerUpdateWorker (tenant : option Z) (r : Request) : H :=
  with_tenant tenant (fun tenantID =>
    let invalid := validationError "status" "The worker status is invalid." in
    match decode false (runner_ids ++ [("status", to_string set_status);
                                       ("result", to_any set_result)])%list zero_body
                 (rq_body r) with
    | Decoded b =>
        if ids_invalid b || negb (validWorkerStatus (wb_Status b)) then ret invalid
        else
          let workerID := trimSpace (wb_WorkerID b) in
          let! refused := validateWorkerToken r tenantID (wb_ProjectID b) (wb_RunID b) workerID in
          match refused with
          | Some written => ret written
          | None =>
              let! result := attempt (UpdateRunnerWorker
                {| u_TenantID := tenantID; u_ProjectID := wb_ProjectID b; u_RunID := wb_RunID b;
                   u_WorkerID := workerID; u_Status := wb_Status b; u_Result := wb_Result b;
                   u_Now := hc_now cfg |}) in
              ret (match result with
                   | Ok run => Written 200 (PRun run)
                   | Err _ => internalError
                   end)
          end
    | _ => ret invalid
    end).

(** ** The routes *)
Inductive route :=
| RResults | RUpdateWorker | RList | RCreate | RCreateMatrix | RShow | RClaim | RHeartbeat | RCancel.

Inductive api_route :=
| ApiRoute (rt : route) | ApiIssueToken | ApiRevokeToken
| ApiRunnerClaim | ApiRunnerHeartbeat | ApiRunnerUpdate.

(** A browser request. *)
Definition serve_browser (rt : route) (r : Request) : H :=
  match rt with
  | RResults => Results r
  | RUpdateWorker => UpdateParallelRunWorker r
  | RList => ParallelRuns r
  | RCreate => CreateParallelRun r
  | RCreateMatrix => CreateParallelRunMatrix r
  | RShow => ShowParallelRun r
  | RClaim => ClaimParallelRun r
  | RHeartbeat => HeartbeatParallelRunWorker r
  | RCancel => CancelParallelRun r
  end.

(** A request on the API-key surface. *)
Definition serve_api (rt : api_route) (tenant : option Z) (r : Request) : H :=
  match rt with
  | ApiRoute RResults => CLResults tenant r
  | ApiRoute RUpdateWorker => CLUpdateParallelRunWorker tenant r
  | ApiRoute RList => CLParallelRuns tenant r
  | ApiRoute RCreate => CLCreateParallelRun tenant r
  | ApiRoute RCreateMatrix => CLCreateParallelRunMatrix tenant r
  | ApiRoute RShow => CLShowParallelRun tenant r
  | ApiRoute RClaim => CLClaimParallelRun tenant r
  | ApiRoute RHeartbeat => CLHeartbeatParallelRunWorker tenant r
  | ApiRoute RCancel => CLCancelParallelRun tenant r
  | ApiIssueToken => CLIssueParallelRunToken tenant r
  | ApiRevokeToken => CLRevokeParallelRunToken tenant r
  | ApiRunnerClaim => RunnerClaim tenant r
  | ApiRunnerHeartbeat => RunnerHeartbeat tenant r
  | ApiRunnerUpdate => RunnerUpdateWorker tenant r
  end.
End Handlers.
End Handler.
