(* ===== verification/RunSafety.v ===== *)
(** * Safety of parallel runs

    An invariant of every schedule row, proved on the abstract machine of
    [RunMachine] by induction on its steps and carried to the operations by
    refinement: counters agree with the worker states, a terminal run has the
    verdict its workers imply, a run never changes once terminal, and a tenant
    never changes the runs of another. *)

From S2P Require Import Prelude GoStrings GoTime Json Redaction Effects Runs RunTables.
From S2P Require Import RunTokens RunOps RunCreate RunMachine.

(** ** Worker states the operations write *)
Definition names (ws : dict json) : list string := map (fun kv => named_status (snd kv)) ws.

(** A worker state is an object whose status is one of the five. *)
Definition worker_ok (v : json) : Prop :=
  exists w s, v = JObj w /\ jidx w "status" = JStr s /\ known_status s.

Definition workers_ok (ws : dict json) : Prop :=
  dwf ws = true /\ Forall (fun kv => worker_ok (snd kv)) ws.

(** ** The row invariant *)
Definition counters_match (row : Schedule) (ws : dict json) : Prop :=
  s_activeWorkers row = countZ "running" (names ws) /\
  s_completedWorkers row = countZ "completed" (names ws) /\
  s_failedWorkers row = countZ "failed" (names ws) /\
  s_cancelledWorkers row = countZ "cancelled" (names ws) /\
  s_totalWorkers row = Z.of_nat (length ws).

(** A queued run has no worker, a running one has started; neither has a result.
    A terminal run has no active worker, a completion time and the verdict. *)
Inductive phase (row : Schedule) (ws : dict json) : Prop :=
| phase_queued :
    s_status row = "queued" -> ws = [] -> s_aggregateStatus row = None ->
    s_completedAt row = None -> s_cancelledAt row = None -> phase row ws
| phase_running :
    s_status row = "running" -> is_Some (s_startedAt row) -> ws <> [] ->
    s_aggregateStatus row = None -> s_completedAt row = None -> s_cancelledAt row = None ->
    phase row ws
| phase_idle_cancel :
    s_status row = "cancelled" -> ws = [] -> s_aggregateStatus row = Some 3 ->
    is_Some (s_completedAt row) -> phase row ws
| phase_terminal a :
    verdict (names ws) (s_status row) a -> ws <> [] -> s_aggregateStatus row = Some a ->
    ~ In "running" (names ws) -> is_Some (s_completedAt row) -> phase row ws.

Definition row_ok (row : Schedule) : Prop :=
  exists ws, s_workerStates row = Some (JObj ws) /\ workers_ok ws /\ counters_match row ws /\
             phase row ws.

(** ** Worker states under the updates *)
Lemma named_status_ok w s :
  jidx w "status" = JStr s -> known_status s -> named_status (JObj w) = s.
Proof.
  intros E K. unfold named_status. rewrite obj_or_empty_obj, E. simpl.
  destruct K as [->|[->|[->|[->| ->]]]]; done.
Qed.

Lemma worker_ok_known v : worker_ok v -> known_status (named_status v).
Proof. intros (w & s & -> & E & K). by rewrite (named_status_ok w s). Qed.

Lemma worker_ok_recalculate now v : worker_ok v -> worker_ok (snd (recalculate_worker now v)).
Proof.
  intros H. destruct (recalculate_worker_cases now v) as [(_ & _ & _ & E)|[_ ->]]; [|done].
  rewrite E. eexists _, "lost". split; [done|]. split; [by jidx_simpl|]. unfold known_status. tauto.
Qed.

Lemma workers_ok_nil : workers_ok [].
Proof. split; [done|constructor]. Qed.

Lemma Forall_dset {V} (P : V -> Prop) k v (d : dict V) :
  P v -> Forall (fun kv => P (snd kv)) d -> Forall (fun kv => P (snd kv)) (dset k v d).
Proof.
  intros Hv. induction 1 as [|[j w] d Hw Hd IH]; simpl; [by repeat constructor|].
  case_match; constructor; auto.
Qed.

Lemma workers_ok_dset k v ws : worker_ok v -> workers_ok ws -> workers_ok (dset k v ws).
Proof. intros Hv [H1 H2]. split; [by apply dwf_dset|by apply Forall_dset]. Qed.

Lemma workers_ok_updated ws now : workers_ok ws -> workers_ok (updated_workers ws now).
Proof.
  intros [H1 H2]. split.
  - unfold updated_workers. by rewrite (dwf_map (fun _ v => snd (recalculate_worker now v))).
  - unfold updated_workers. rewrite Forall_map. eapply Forall_impl; [exact H2|].
    intros kv. apply worker_ok_recalculate.
Qed.

Lemma workers_ok_get ws k w : workers_ok ws -> as_obj (jidx ws k) = Some w -> worker_ok (JObj w).
Proof.
  intros [_ H] E. unfold jidx in E. destruct (dget k ws) as [v|] eqn:G; [|done].
  apply dget_In in G. rewrite List.Forall_forall in H. apply H in G. simpl in *.
  destruct v; try done. by injection E as ->.
Qed.

(** Recalculated counters are the counters of the recalculated states. *)
Lemma names_updated ws now : names (updated_workers ws now) = statuses now ws.
Proof.
  unfold names, statuses, updated_workers. rewrite map_map. apply map_ext.
  intros [k v]. apply recalculate_worker_named.
Qed.

Lemma length_names ws : length (names ws) = length ws.
Proof. unfold names. by rewrite length_map. Qed.

Lemma dset_nonempty {V} k (v : V) d : dset k v d <> [].
Proof. destruct d as [|[]]; simpl; [done|]. by case_match. Qed.

Lemma updated_nonempty ws now : ws <> [] -> updated_workers ws now <> [].
Proof. by destruct ws. Qed.

Lemma jidx_nonempty ws k w : as_obj (jidx ws k) = Some w -> ws <> [].
Proof. by intros ? ->. Qed.

(** The columns that a worker write sets. *)
Lemma counters_match_set ws now m sm st ag sa co ca row :
  counters_match
    (set_workers m sm (counts_of (Z.of_nat (length ws)) (statuses now ws)) st ag sa co ca now row)
    (updated_workers ws now).
Proof.
  unfold counters_match, counts_of. simpl. by rewrite names_updated, length_updated.
Qed.

Lemma known_valid s : validWorkerStatus s = true -> known_status s.
Proof.
  unfold validWorkerStatus, known_status. rewrite !orb_true_iff, !String.eqb_eq. tauto.
Qed.

Lemma worker_ok_updated input w :
  validWorkerStatus (u_Status input) = true -> worker_ok (JObj (updated_worker input w)).
Proof.
  intros V. eexists _, (u_Status input). split; [done|].
  split; [|by apply known_valid]. unfold updated_worker. case_match; by jidx_simpl.
Qed.

Lemma worker_ok_claimed input e h : worker_ok (JObj (claimed_worker input e h)).
Proof.
  eexists _, "running". split; [done|]. split; [|unfold known_status; tauto].
  unfold claimed_worker. destruct h; jidx_simpl; done.
Qed.

Lemma worker_ok_renewed l now w : worker_ok (JObj w) -> worker_ok (JObj (renewed_worker l now w)).
Proof.
  intros (w' & s & [= <-] & E & K). eexists _, s. split; [done|]. split; [|done].
  unfold renewed_worker. by jidx_simpl.
Qed.

(** Cancelling leaves no running worker. *)
Lemma cancelled_worker_ok now v :
  worker_ok v ->
  worker_ok (cancelled_worker now v) /\ named_status (cancelled_worker now v) <> "running".
Proof.
  intros (w & s & -> & E & K). unfold cancelled_worker. rewrite obj_or_empty_obj, E.
  destruct (is_str (JStr s) "running") eqn:R.
  - split.
    + eexists _, "cancelled". split; [done|]. split; [by jidx_simpl|]. unfold known_status. tauto.
    + rewrite (named_status_ok _ "cancelled"); [done|by jidx_simpl|]. unfold known_status. tauto.
  - split; [by exists w, s|]. rewrite (named_status_ok w s) by done.
    simpl in R. by apply String.eqb_neq in R.
Qed.

Definition cancelled_workers (now : time) (ws : dict json) : dict json :=
  map (fun kv => (fst kv, cancelled_worker now (snd kv))) ws.

Lemma workers_ok_cancelled now ws : workers_ok ws -> workers_ok (cancelled_workers now ws).
Proof.
  intros [H1 H2]. split.
  - unfold cancelled_workers. by rewrite (dwf_map (fun _ v => cancelled_worker now v)).
  - unfold cancelled_workers. rewrite Forall_map. eapply Forall_impl; [exact H2|].
    intros kv Hv. by apply cancelled_worker_ok.
Qed.

Lemma statuses_cancelled now ws : workers_ok ws -> ~ In "running" (statuses now (cancelled_workers now ws)).
Proof.
  intros [_ H]. unfold statuses, cancelled_workers. rewrite map_map. simpl.
  rewrite in_map_iff. intros ([k v] & E & I). simpl in E.
  apply recalculate_worker_running in E as [E _].
  rewrite List.Forall_forall in H. apply H in I. by apply (cancelled_worker_ok now) in I as [_ I].
Qed.

(** ** Every step keeps the row invariant *)
Lemma decode_ok row ws :
  s_workerStates row = Some (JObj ws) ->
  decodeParallelMap (s_workerStates row) = Some ws /\ ws_of row = ws.
Proof. intros E. unfold ws_of. by rewrite E. Qed.

Lemma phase_busy row ws :
  phase row ws -> parallelRunTerminal (s_status row) = false ->
  s_aggregateStatus row = None /\ s_completedAt row = None /\ s_cancelledAt row = None /\
  ((s_status row = "queued" /\ ws = []) \/
   (s_status row = "running" /\ is_Some (s_startedAt row))).
Proof.
  intros [] T; try tauto.
  - rewrite H in T. done.
  - apply verdict_terminal in H. congruence.
Qed.

Lemma claim_row_ok input ws hash row :
  s_workerStates row = Some (JObj ws) -> workers_ok ws -> phase row ws ->
  parallelRunTerminal (s_status row) = false -> row_ok (claim_row input ws hash row).
Proof.
  intros E W P T. destruct (phase_busy _ _ P T) as (P1 & P2 & P3 & _).
  unfold claim_row. rewrite recalculate_eq.
  eexists (updated_workers _ _). split; [done|].
  split; [by apply workers_ok_updated, workers_ok_dset; [apply worker_ok_claimed|]|].
  split; [apply counters_match_set|].
  apply phase_running; simpl; try done. apply updated_nonempty, dset_nonempty.
Qed.

Lemma update_row_ok input ws worker row :
  s_workerStates row = Some (JObj ws) -> workers_ok ws -> phase row ws ->
  parallelRunTerminal (s_status row) = false -> validWorkerStatus (u_Status input) = true ->
  as_obj (jidx ws (u_WorkerID input)) = Some worker -> row_ok (update_row input ws worker row).
Proof.
  intros E W P T V G. destruct (phase_busy _ _ P T) as (P1 & P2 & P3 & P4).
  apply jidx_nonempty in G. unfold update_row. rewrite recalculate_eq.
  eexists (updated_workers _ _). split; [done|].
  split; [by apply workers_ok_updated, workers_ok_dset; [apply worker_ok_updated|]|].
  split; [apply counters_match_set|].
  destruct P4 as [[_ ->]|[S D]]; [done|].
  apply phase_running; simpl; try done. apply updated_nonempty, dset_nonempty.
Qed.

Lemma heartbeat_row_ok ws worker wid l now row :
  s_workerStates row = Some (JObj ws) -> workers_ok ws -> phase row ws ->
  parallelRunTerminal (s_status row) = false ->
  as_obj (jidx (updated_workers ws now) wid) = Some worker ->
  row_ok (heartbeat_row (updated_workers ws now) worker wid l now row).
Proof.
  intros E W P T G. destruct (phase_busy _ _ P T) as (P1 & P2 & P3 & P4).
  pose proof (workers_ok_updated _ now W) as W'.
  unfold heartbeat_row.
  set (ws' := if String.eqb _ _ then _ else _).
  assert (W2 : workers_ok ws').
  { subst ws'. case_match; [|done]. apply workers_ok_dset; [|done].
    apply worker_ok_renewed. by eapply workers_ok_get. }
  assert (N : ws' <> []).
  { subst ws'. case_match; [apply dset_nonempty|by eapply jidx_nonempty]. }
  rewrite recalculate_eq. cbv beta iota.
  destruct P4 as [[_ ->]|[S D]]; [done|].
  set (l' := statuses now ws'). rewrite <- (length_statuses ws' now). fold l'.
  assert (N' : l' <> []) by (subst l'; by destruct ws').
  destruct (in_dec String.string_dec "running" l') as [R|R].
  - rewrite outcome_busy by (right; by apply countZ_pos).
    exists (updated_workers ws' now). split; [done|].
    split; [by apply workers_ok_updated|]. split; [subst l'; rewrite length_statuses; apply counters_match_set|].
    apply phase_running; simpl; try done. by apply updated_nonempty.
  - destruct (outcome_idle (s_status row) (s_aggregateStatus row) (s_completedAt row) now l' N' R)
      as (s & a & -> & V).
    exists (updated_workers ws' now). split; [done|].
    split; [by apply workers_ok_updated|]. split; [subst l'; rewrite length_statuses; apply counters_match_set|].
    apply (phase_terminal _ _ a); simpl; try done; rewrite ?names_updated; try done.
    by apply updated_nonempty.
Qed.

Lemma cancel_row_ok ws now row :
  s_workerStates row = Some (JObj ws) -> workers_ok ws -> phase row ws ->
  parallelRunTerminal (s_status row) = false -> row_ok (cancel_row (Some ws) now row).
Proof.
  intros E W P T. unfold cancel_row. rewrite recalculate_eq. cbv beta iota zeta.
  change (gm_read _) with (cancelled_workers now ws). pose proof (statuses_cancelled now ws W) as R.
  apply (workers_ok_cancelled now) in W. set (ws' := cancelled_workers now ws) in *.
  set (l' := statuses now ws') in *.
  destruct (decide (ws' = [])) as [N|N].
  - rewrite outcome_busy by (rewrite N; left; done).
    exists (updated_workers ws' now). split; [done|].
    split; [by apply workers_ok_updated|]. split; [apply counters_match_set|].
    apply phase_idle_cancel; simpl; try done. by rewrite N.
  - assert (N' : l' <> []) by (subst l'; by destruct ws').
    rewrite <- (length_statuses ws' now). fold l'.
    destruct (outcome_idle "cancelled" (Some 3) (Some now) now l' N' R) as (s & a & -> & V).
    exists (updated_workers ws' now). split; [done|].
    split; [by apply workers_ok_updated|]. split; [subst l'; rewrite length_statuses; apply counters_match_set|].
    apply (phase_terminal _ _ a); simpl; try done; rewrite ?names_updated; try done.
    by apply updated_nonempty.
Qed.

Lemma row_step_ok row row' : row_step row row' -> row_ok row -> row_ok row'.
Proof.
  intros [] (ws0 & E & W & _ & P); destruct (decode_ok _ _ E) as [D1 D2].
  - assert (ws0 = ws) as -> by congruence. by apply claim_row_ok.
  - rewrite D2 in *. by apply update_row_ok.
  - rewrite D2 in *. by apply heartbeat_row_ok.
  - rewrite D1. by apply cancel_row_ok.
Qed.

(** ** The table invariant *)
Definition same_key (a b : Schedule) : Prop :=
  k_idCostumer (s_key a) = k_idCostumer (s_key b) /\ k_idProject (s_key a) = k_idProject (s_key b) /\
  k_idempotencyKey (s_key a) = k_idempotencyKey (s_key b).

Record db_ok (d : RunTables) : Prop := {
  ok_rows : forall r row, schedules d !! r = Some row -> row_ok row;
  ok_ids : forall r row, schedules d !! r = Some row ->
                         k_id (s_key row) = r /\ r < next_schedule d;
  ok_unique : forall r1 r2 a b, schedules d !! r1 = Some a -> schedules d !! r2 = Some b ->
                                same_key a b -> r1 = r2;
}.

Lemma row_step_key row row' : row_step row row' -> s_key row' = s_key row.
Proof.
  intros []; unfold claim_row, update_row, heartbeat_row, cancel_row;
    rewrite recalculate_eq; cbv beta iota zeta; repeat case_match; done.
Qed.

Lemma row_step_busy row row' : row_step row row' -> parallelRunTerminal (s_status row) = false.
Proof. by intros []. Qed.

Lemma new_schedule_ok input key m id : row_ok (new_schedule input key m id).
Proof.
  exists []. split; [done|]. split; [apply workers_ok_nil|]. split; [done|].
  by apply phase_queued.
Qed.

Lemma has_key_false_same t p key row input m id :
  has_key t p key row = false -> p_TenantID input = t -> p_ProjectID input = p ->
  ~ same_key (new_schedule input key m id) row.
Proof.
  unfold has_key, owned, same_key. simpl. intros H <- <- (E1 & E2 & E3).
  by rewrite <- E1, <- E2, <- E3, !Z.eqb_refl, String.eqb_refl in H.
Qed.

Lemma same_key_sym a b : same_key a b -> same_key b a.
Proof. unfold same_key. intuition congruence. Qed.

Section Steps.
Context `{B : Bcrypt}.

Lemma table_step_ok t d d' : table_step t d d' -> db_ok d -> db_ok d'.
Proof.
  intros [(r & row & row' & L & T & S & E & N)|[(input & key & m & T & F & E & N)|[E N]]]%table_step_schedules
    [R I U]; split; rewrite E, ?N in *.
  - intros x y. rewrite lookup_insert. case_decide; [|apply R].
    intros [= <-]. by eapply row_step_ok, R.
  - intros x y. rewrite lookup_insert. case_decide; [|apply I].
    intros [= <-]. rewrite (row_step_key _ _ S). subst. by apply I.
  - assert (K : forall x y, <[r:=row']> (schedules d) !! x = Some y ->
                exists y', schedules d !! x = Some y' /\ s_key y = s_key y').
    { intros x y. rewrite lookup_insert. case_decide; [|by eauto]. subst. intros [= <-].
      exists row. split; [done|]. by apply row_step_key. }
    intros r1 r2 a b Ha Hb. apply K in Ha as (a' & Ha & Ka), Hb as (b' & Hb & Kb).
    unfold same_key. rewrite Ka, Kb. by apply (U r1 r2 a' b').
  - intros x y. rewrite lookup_insert. case_decide; [|apply R].
    intros [= <-]. apply new_schedule_ok.
  - intros x y. rewrite lookup_insert. case_decide; [intros [= <-]; subst; simpl; lia|].
    intros L. apply I in L. lia.
  - intros r1 r2 a b. rewrite !lookup_insert. repeat case_decide; subst; try done.
    + intros [= <-] Hb K. by apply (has_key_false_same _ _ _ _ _ _ _ (F _ _ Hb)) in K.
    + intros Ha [= <-] K%same_key_sym.
      by apply (has_key_false_same _ _ _ _ _ _ _ (F _ _ Ha)) in K.
    + apply U.
  - apply R.
  - apply I.
  - apply U.
Qed.

(** What other tenants own, and what is over, stays. *)
Lemma table_step_frame t d d' r row :
  table_step t d d' -> db_ok d -> schedules d !! r = Some row ->
  k_idCostumer (s_key row) <> t \/ parallelRunTerminal (s_status row) = true ->
  schedules d' !! r = Some row.
Proof.
  intros [(r' & row1 & row2 & L & T & S & E & _)|[(input & key & m & T & _ & E & _)|[E _]]]%table_step_schedules
    [_ I _] H C; rewrite E; [..|done].
  - rewrite lookup_insert_ne; [done|]. intros <-. rewrite L in H. injection H as ->.
    apply row_step_busy in S. destruct C; congruence.
  - rewrite lookup_insert_ne; [done|]. intros <-. apply I in H. lia.
Qed.

Lemma table_step_new t d d' r row :
  table_step t d d' -> schedules d' !! r = Some row -> k_idCostumer (s_key row) <> t ->
  schedules d !! r = Some row.
Proof.
  intros [(r' & row1 & row2 & L & T & S & E & _)|[(input & key & m & T & _ & E & _)|[E _]]]%table_step_schedules
    H C; rewrite E in H; [..|done].
  - rewrite lookup_insert in H. case_decide; [|done]. injection H as <-.
    by rewrite (row_step_key _ _ S) in C.
  - rewrite lookup_insert in H. case_decide; [|done]. by injection H as <-.
Qed.

(** A run once there stays there, with the columns it was created with. *)
Definition keys_kept (d d' : RunTables) : Prop :=
  forall r row, schedules d !! r = Some row ->
    exists row', schedules d' !! r = Some row' /\ s_key row' = s_key row.

Lemma table_step_keys t d d' : table_step t d d' -> db_ok d -> keys_kept d d'.
Proof.
  intros [(r' & row1 & row2 & L & _ & S & E & _)|[(input & key & m & _ & _ & E & _)|[E _]]]%table_step_schedules
    [_ I _] r row H; rewrite E; [| |by eauto].
  - rewrite lookup_insert. case_decide; [|by eauto]. subst. rewrite L in H. injection H as <-.
    eexists. split; [done|]. by apply row_step_key.
  - rewrite lookup_insert_ne; [by eauto|]. intros <-. apply I in H. lia.
Qed.

Lemma keys_kept_trans d1 d2 d3 : keys_kept d1 d2 -> keys_kept d2 d3 -> keys_kept d1 d3.
Proof.
  intros H K r row L. destruct (H r row L) as (row2 & L2 & E2).
  destruct (K r row2 L2) as (row3 & L3 & E3). exists row3. split; [done|congruence].
Qed.

Lemma steps_keys t d d' : rtc (table_step t) d d' -> db_ok d -> keys_kept d d'.
Proof.
  induction 1 as [d|d d1 d2 S _ IH]; intros H; [by intros r row L; exists row|].
  eapply keys_kept_trans; [by eapply table_step_keys|]. apply IH. by eapply table_step_ok.
Qed.

Lemma db_ok_same d d' :
  schedules d' = schedules d -> next_schedule d' = next_schedule d -> db_ok d -> db_ok d'.
Proof. intros E N [R I U]. by split; rewrite E, ?N. Qed.

Lemma steps_ok t d d' : rtc (table_step t) d d' -> db_ok d -> db_ok d'.
Proof. induction 1; eauto using table_step_ok. Qed.

Lemma steps_frame t d d' r row :
  rtc (table_step t) d d' -> db_ok d -> schedules d !! r = Some row ->
  k_idCostumer (s_key row) <> t \/ parallelRunTerminal (s_status row) = true ->
  schedules d' !! r = Some row.
Proof. induction 1; eauto using table_step_ok, table_step_frame. Qed.

Lemma steps_new t d d' r row :
  rtc (table_step t) d d' -> schedules d' !! r = Some row -> k_idCostumer (s_key row) <> t ->
  schedules d !! r = Some row.
Proof. induction 1; eauto using table_step_new. Qed.

End Steps.

Section System.
Context `{MS : MySQL} `{B : Bcrypt} (sha256 : string -> string).

Lemma system_step_ok d d' : system_step sha256 d d' -> db_ok d -> db_ok d'.
Proof.
  intros [o f r V ->|E N _ _] H.
  - eapply steps_ok; [|exact H]. exact (steps_perform sha256 o V (World d f r)).
  - by eapply db_ok_same.
Qed.

Lemma system_steps_ok d d' : rtc (system_step sha256) d d' -> db_ok d -> db_ok d'.
Proof. induction 1; eauto using system_step_ok. Qed.

Lemma system_steps_keys d d' : rtc (system_step sha256) d d' -> db_ok d -> keys_kept d d'.
Proof.
  induction 1 as [d|d d1 d2 S _ IH]; intros H; [by intros r row L; exists row|].
  eapply keys_kept_trans; [|by apply IH; eapply system_step_ok].
  destruct S as [o f r V ->|E _ _ _]; [|by intros r row; rewrite E; eauto].
  eapply steps_keys; [exact (steps_perform sha256 o V (World d f r))|done].
Qed.

Lemma empty_ok d : schedules d = ∅ -> db_ok d.
Proof. intros E. split; rewrite E; intros; by rewrite lookup_empty in *. Qed.

Lemma system_step_terminal d d' r row :
  system_step sha256 d d' -> db_ok d -> schedules d !! r = Some row ->
  parallelRunTerminal (s_status row) = true -> schedules d' !! r = Some row.
Proof.
  intros [o f x V ->|E N _ _] H L T.
  - eapply steps_frame; [|exact H|exact L|by right].
    exact (steps_perform sha256 o V (World d f x)).
  - by rewrite E.
Qed.
End System.
