(* ===== verification/RunTheorems.v ===== *)
(** * Theorems about parallel runs

    What the repository operations on runs guarantee: they refine the machine,
    keep its invariant, never touch a finished run or another tenant, change
    nothing when they fail, respect the concurrency limit for new workers,
    converge to the verdict of the workers, and honour leases. *)

From S2P Require Import Prelude GoStrings GoTime Json Redaction Effects Runs RunTables.
From S2P Require Import RunTokens RunOps RunCreate RunMachine RunSafety.

(** ** A concrete installation: tenant 7 owns project 1 with test cycle 5 *)
#[export] Instance plain_bcrypt : Bcrypt := {|
  bcrypt_generate := fun _ p => if slen p <=? 72 then Some ("$2a$" +:+ p) else None;
  bcrypt_compare := fun h p => String.eqb h ("$2a$" +:+ p);
|}.

#[export] Instance plain_bcrypt_laws : BcryptLaws plain_bcrypt.
Proof.
  split; simpl.
  - intros _ p H. apply Z.leb_le in H. rewrite H. by eexists.
  - intros _ p h. case_match; intros [= <-]. by destruct p.
  - intros _ p h. case_match; intros [= <-]. apply String.eqb_refl.
Qed.

#[export] Instance plain_mysql : MySQL := {|
  same := String.eqb;
  like := fun s p => String.eqb ("%" +:+ s +:+ "%") p;
  text_le := String.leb;
  column_time := fun t => t / second * second;
|}.

#[export] Instance plain_mysql_laws : MySQLLaws plain_mysql.
Proof.
  split; cbn.
  - intros s. apply String.eqb_refl.
  - intros t. pose proof (Z.mul_div_le t second ltac:(done)).
    pose proof (Z.mul_succ_div_gt t second ltac:(done)). lia.
Qed.

Definition plain_sha256 (s : string) : string := s.

Definition fresh_tables : RunTables :=
  {| schedules := ∅; next_schedule := 1; run_tokens := []; next_token := 1;
     agent_registrations := []; projects := {[ 1 := 7 ]};
     test_cycles := {[ 5 := {| y_idProject := 1; y_idCostumer := 7; y_config := JObj [] |} ]};
     asset_versions := []; audit_events := [] |}.

Definition noon : time := 1785326400 * second.

Definition sample_create (key : string) (concurrency : Z) : ParallelRunCreate :=
  {| p_TenantID := 7; p_ProjectID := 1; p_TestCycleID := 5; p_IdempotencyKey := key;
     p_RequestedConcurrency := concurrency; p_Metadata := []; p_Now := noon |}.

Definition sample_claim (worker : string) (now : time) : ParallelRunClaim :=
  {| cl_TenantID := 7; cl_ActorUserID := None; cl_ActorTenantID := 7; cl_ProjectID := 1;
     cl_RunID := 1; cl_WorkerID := worker; cl_Capabilities := []; cl_CapabilitiesSet := false;
     cl_RunToken := ""; cl_CertificateHash := ""; cl_IssueWorkerToken := false;
     cl_Now := now |}.

Definition sample_update (worker status : string) (now : time) : RunnerWorkerUpdate :=
  {| u_TenantID := 7; u_ProjectID := 1; u_RunID := 1; u_WorkerID := worker;
     u_Status := status; u_Result := JNull; u_Now := now |}.

Definition sample_meta : RequestMeta := {| m_sourceIP := "10.0.0.1"; m_correlationID := "c-1" |}.

(** Performs operations one after the other when no call fails. *)
Definition play (d : RunTables) (ops : list op) : RunTables :=
  fold_left (fun d o => w_db (snd (perform plain_sha256 o (World d [] [])))) ops d.

Lemma play_reachable d ops :
  Forall op_valid ops -> rtc (system_step plain_sha256) d (play d ops).
Proof.
  intros H. revert d. induction H as [|o ops V _ IH]; intros d; simpl; [done|].
  eapply rtc_l; [|apply IH]. by apply (sys_op _ _ _ o [] []).
Qed.

(** One run with room for [n] workers. *)
Definition one_run (n : Z) : RunTables := play fresh_tables [OpCreate (sample_create "nightly" n) None].

(** A worker of the run started. *)
Definition busy_run (n : Z) : RunTables := play (one_run n) [OpClaim sample_meta (sample_claim "w1" noon)].

(** A cancelled run. *)
Definition over_run : RunTables := play (busy_run 2) [OpCancel 7 1 1 noon].

Lemma fixture_ok d ops : Forall op_valid ops -> schedules d = ∅ -> db_ok (play d ops).
Proof. intros V E. eapply system_steps_ok; [by apply play_reachable|]. by apply empty_ok. Qed.

Lemma over_run_ok : db_ok over_run.
Proof.
  apply (fixture_ok fresh_tables
    [OpCreate (sample_create "nightly" 2) None; OpClaim sample_meta (sample_claim "w1" noon);
     OpCancel 7 1 1 noon]); [by repeat constructor|done].
Qed.

Lemma busy_run_ok n : db_ok (busy_run n).
Proof.
  apply (fixture_ok fresh_tables
    [OpCreate (sample_create "nightly" n) None; OpClaim sample_meta (sample_claim "w1" noon)]);
    [by repeat constructor|done].
Qed.

(** ** Refinement, invariant, isolation *)
Section Claims.
Context `{MS : MySQL} `{B : Bcrypt} (sha256 : string -> string).

(** Claim C1: whatever the database and the random source do, every repository operation on
    runs and run tokens is a sequence of steps of the abstract machine on behalf of the
    tenant of its request.  The operations are the creation of runs, claims, worker updates
    (with a status that the handlers let through), heartbeats, cancellation, the issue and
    revocation of run tokens, and the reads GetParallelRun, ListParallelRuns and
    ValidateWorkerToken, which change nothing.  A step says all that changes: one run of the
    tenant by a guarded transition of its row, a new run under an unused key, a token issued
    with a hash for a run of the tenant, one usable token consumed, one token of the tenant
    revoked, or a record of such an action added to the tenant's audit trail. *)
Theorem perform_refines (o : op) (w : world RunTables) :
  op_valid o ->
  rtc (table_step (op_tenant o)) (w_db w) (db_after (perform sha256 o) w)
  /\ (op_reads o = true -> db_after (perform sha256 o) w = w_db w).
Proof.
  intros V. split; [exact (steps_perform sha256 o V w)|]. intros R.
  symmetry. exact (reading_pure sha256 o R w).
Qed.

(** Claim C2: from an installation without runs, after any sequence of
    operations, failing or not: every run's counters equal the counts of its
    worker states, every worker has a known status, a run that is over has no
    active worker, a completion time and the verdict of its workers, a run that
    is not has no result, identifiers are keys and idempotency keys unique. *)
Theorem reachable_runs_ok (d d' : RunTables) :
  schedules d = ∅ -> rtc (system_step sha256) d d' -> db_ok d'.
Proof. intros E R. eapply system_steps_ok; [exact R|]. by apply empty_ok. Qed.

(** Claim C3: a run that is over (completed, failed, cancelled or lost) never
    changes again, in any column, whatever operations follow. *)
Theorem terminal_runs_frozen (d d' : RunTables) (r : Z) (row : Schedule) :
  db_ok d -> rtc (system_step sha256) d d' -> schedules d !! r = Some row ->
  parallelRunTerminal (s_status row) = true -> schedules d' !! r = Some row.
Proof.
  intros H R. induction R as [|d1 d2 d3 S R IH]; intros L T; [done|].
  apply IH; [by eapply system_step_ok|by eapply system_step_terminal|done].
Qed.

(** Claim C4: an operation neither changes nor creates a run of another tenant
    than its own, whatever fails in between. *)
Theorem tenant_isolation (o : op) (w : world RunTables) (r : Z) (row : Schedule) :
  db_ok (w_db w) -> op_valid o -> k_idCostumer (s_key row) <> op_tenant o ->
  (schedules (w_db w) !! r = Some row <->
   schedules (db_after (perform sha256 o) w) !! r = Some row).
Proof.
  intros H V T. pose proof (steps_perform sha256 o V w) as S. split; intros L.
  - eapply steps_frame; [exact S|done..|by left].
  - by eapply steps_new; [exact S|..].
Qed.
End Claims.

(** Witness of C1: a worker update. *)
Lemma perform_refines_witness :
  op_valid (OpUpdate (sample_update "w1" "completed" noon)) /\
  rtc (table_step 7) (busy_run 1)
      (db_after (perform plain_sha256 (OpUpdate (sample_update "w1" "completed" noon)))
                (World (busy_run 1) [] [])).
Proof.
  split; [reflexivity|].
  apply (perform_refines plain_sha256 (OpUpdate (sample_update "w1" "completed" noon))
           (World (busy_run 1) [] [])). reflexivity.
Defined.

Lemma reachable_runs_ok_witness :
  schedules fresh_tables = ∅ /\
  db_ok (play fresh_tables [OpCreate (sample_create "nightly" 1) None]).
Proof.
  split; [reflexivity|]. apply (reachable_runs_ok plain_sha256 fresh_tables); [reflexivity|].
  apply play_reachable. repeat constructor.
Defined.

Lemma terminal_runs_frozen_witness :
  exists row, schedules over_run !! 1 = Some row /\
              schedules (play over_run [OpHeartbeat 7 1 1 "w1" 60 noon]) !! 1 = Some row.
Proof.
  destruct (schedules over_run !! 1) as [row|] eqn:E; [|vm_compute in E; discriminate].
  exists row. split; [reflexivity|].
  apply (terminal_runs_frozen plain_sha256 over_run); [exact over_run_ok| |exact E|].
  - apply play_reachable. repeat constructor.
  - vm_compute in E. injection E as <-. reflexivity.
Defined.

Lemma tenant_isolation_witness :
  exists row, schedules (busy_run 2) !! 1 = Some row /\
    schedules (db_after (perform plain_sha256 (OpCancel 8 1 1 noon))
                        (World (busy_run 2) [] [])) !! 1 = Some row.
Proof.
  destruct (schedules (busy_run 2) !! 1) as [row|] eqn:E; [|vm_compute in E; discriminate].
  exists row. split; [reflexivity|].
  apply (tenant_isolation plain_sha256 (OpCancel 8 1 1 noon) (World (busy_run 2) [] []));
    [exact (busy_run_ok 2)|exact I| |exact E].
  vm_compute in E. injection E as <-. vm_compute. discriminate.
Defined.

(** ** Failing operations *)
Definition same_schedules (d d' : RunTables) : Prop :=
  schedules d' = schedules d /\ next_schedule d' = next_schedule d.

#[local] Instance same_schedules_refl : Reflexive same_schedules.
Proof. done. Qed.

#[local] Instance same_schedules_trans : Transitive same_schedules.
Proof. intros ? ? ? [] []. unfold same_schedules. split; congruence. Qed.

(** Splits on the outcome of the computation a hypothesis speaks about. *)
Tactic Notation "destruct_after" hyp(H) "as" simple_intropattern(p) :=
  match type of H with context [snd (?x)] => destruct x as p end.

Section Failure.
Context `{MS : MySQL} `{B : Bcrypt} (sha256 : string -> string).

Lemma same_add_audit op e : preserves same_schedules (exec op (add_audit e)).
Proof. by apply preserves_exec; [apply _..|]. Qed.

Lemma same_update_tokens id c f d : same_schedules d (fst (update_tokens id c f d)).
Proof. done. Qed.

Lemma same_insert_token t p r a i h e n d d' :
  insert_token t p r a i h e n d = Some d' -> same_schedules d d'.
Proof. unfold insert_token. by case_match; intros [= <-]. Qed.

Lemma same_not_found {A} (o : option A) : preserves same_schedules (parallelRunNotFound o).
Proof. unfold parallelRunNotFound. solve_preserves. Qed.

#[local] Hint Resolve same_add_audit same_update_tokens same_insert_token same_not_found : effects.

Lemma same_consume input : preserves same_schedules (consumeParallelRunToken input).
Proof. unfold consumeParallelRunToken. solve_preserves. Qed.

#[local] Hint Resolve same_consume : effects.

Lemma same_issue m t p r a n ttl : preserves same_schedules (IssueParallelRunToken m t p r a n ttl).
Proof.
  unfold IssueParallelRunToken, randomParallelRunTokenPart, generateFromPassword,
    recordParallelRunTokenLifecycleAudit. solve_preserves.
Qed.

Lemma same_revoke m t p r i n : preserves same_schedules (RevokeParallelRunToken m t p r i n).
Proof. unfold RevokeParallelRunToken, recordParallelRunTokenLifecycleAudit. solve_preserves. Qed.

(** What precedes the transaction of a claim only touches tokens and audits. *)
Lemma same_claim_token input :
  preserves same_schedules
    (if cl_IssueWorkerToken input then let! t := issue_worker_token in ret (Some t) else ret None).
Proof.
  unfold issue_worker_token, randomParallelRunTokenPart, generateFromPassword. solve_preserves.
Qed.

Lemma same_claim_consume m input :
  preserves same_schedules
    (if String.eqb (cl_RunToken input) "" then ret tt else consume_with_audit m input).
Proof. unfold consume_with_audit, recordParallelRunTokenAudit. solve_preserves. Qed.

Lemma claim_err m input w e w' :
  ClaimParallelRun m input w = (Err e, w') -> same_schedules (w_db w) (w_db w').
Proof.
  unfold ClaimParallelRun.
  pose proof (same_claim_token input w) as PI. pose proof (same_claim_consume m input) as PC.
  unfold bind at 1. destruct_after PI as [[token|e1] w1]; simpl in PI.
  2:{ by intros [= <- <-]. }
  unfold bind at 1. specialize (PC w1). destruct_after PC as [[u|e1] w2]; simpl in PC.
  2:{ intros [= <- <-]. by etransitivity. }
  unfold bind at 1. destruct (claim_transaction _ _ w2) as [[run|e1] w3] eqn:E; [done|].
  apply transaction_err in E. intros [= <- <-]. rewrite E. by etransitivity.
Qed.

Lemma forget_err {A} (m : M RunTables A) w e w' :
  forget m w = (Err e, w') -> m w = (Err e, w').
Proof. unfold forget, bind. by destruct (m w) as [[]]; intros [=]; subst. Qed.

Lemma perform_err o w e w' :
  perform sha256 o w = (Err e, w') -> same_schedules (w_db w) (w_db w').
Proof.
  destruct (op_reads o) eqn:E.
  { intros H. pose proof (reading_pure sha256 o E w) as P. rewrite H in P. simpl in P. by rewrite P. }
  destruct o; try done; simpl; intros H%forget_err.
  - by apply claim_err in H.
  - apply transaction_err in H. by rewrite H.
  - apply transaction_err in H. by rewrite H.
  - apply transaction_err in H. by rewrite H.
  - apply transaction_err in H. by rewrite H.
  - pose proof (same_issue meta tenantID projectID runID agentID now ttl w) as S. by rewrite H in S.
  - pose proof (same_revoke meta tenantID projectID runID tokenID now w) as S. by rewrite H in S.
Qed.

(** an operation that reports an error, of the request, the database
    or the random source, leaves every run as it was and creates none. *)
Theorem failed_operation_keeps_runs (o : op) (w w' : world RunTables) (e : error) :
  perform sha256 o w = (Err e, w') ->
  schedules (w_db w') = schedules (w_db w) /\ next_schedule (w_db w') = next_schedule (w_db w).
Proof. apply perform_err. Qed.
End Failure.

(** The commit of a creation fails: its insertion is undone. *)
Definition lost_commit : world RunTables :=
  World fresh_tables [None; None; None; None; None; None; None; Some (NetError "reset")] [].

Lemma failed_operation_keeps_runs_witness :
  schedules (w_db (snd (perform plain_sha256 (OpCreate (sample_create "nightly" 1) None) lost_commit)))
  = schedules (w_db lost_commit) /\
  next_schedule (w_db (snd (perform plain_sha256 (OpCreate (sample_create "nightly" 1) None) lost_commit)))
  = next_schedule (w_db lost_commit).
Proof.
  apply (failed_operation_keeps_runs plain_sha256 (OpCreate (sample_create "nightly" 1) None)
           lost_commit _
           (DatabaseFailure (safeDatabaseFailure "commit parallel run schedules" (NetError "reset")))).
  vm_compute. reflexivity.
Defined.

(** ** Concurrency *)
Lemma countZ_app s l1 l2 : countZ s (l1 ++ l2) = countZ s l1 + countZ s l2.
Proof. induction l1 as [|x l IH]; [done|]. simpl. rewrite !countZ_cons, IH. lia. Qed.

Lemma statuses_running_le now ws :
  countZ "running" (statuses now ws) <= countZ "running" (names ws).
Proof.
  induction ws as [|[k v] ws IH]; [done|]. unfold statuses, names in *. cbn [map fst snd].
  rewrite !countZ_cons.
  destruct (String.eqb_spec "running" (fst (recalculate_worker now v))) as [E|];
    [|destruct (String.eqb _ _); lia].
  symmetry in E. apply recalculate_worker_running in E as [-> _]. simpl. lia.
Qed.

(** A new worker adds at most one active worker. *)
Lemma running_dset_new now k v ws :
  dget k ws = None ->
  countZ "running" (statuses now (dset k v ws)) <= countZ "running" (names ws) + 1.
Proof.
  intros H. destruct (dset_new k v ws H) as (l1 & l2 & -> & ->).
  pose proof (statuses_running_le now l1). pose proof (statuses_running_le now l2).
  unfold statuses, names in *. rewrite !map_app. cbn [map fst snd].
  rewrite !countZ_app, countZ_cons. destruct (String.eqb _ _); lia.
Qed.

Lemma same_schedules_select t p r d d' :
  same_schedules d d' -> select_schedule t p r d' = select_schedule t p r d.
Proof. intros [E _]. unfold select_schedule. by rewrite E. Qed.

Section Claiming.
Context `{MS : MySQL} `{B : Bcrypt}.

(** Every worker state of a well-formed row is shown. *)
Lemma scan_workers_length ws :
  workers_ok ws ->
  Z.of_nat (length ws) =
  Z.of_nat (length (omap (fun kv => public_worker (fst kv) <$> as_obj (snd kv)) ws)).
Proof.
  intros [_ F]. induction F as [|[k v] l (x & s & Ev & _) _ IH]; [done|].
  simpl in Ev. subst v. cbn. rewrite !Nat2Z.inj_succ. lia.
Qed.

(** What a successful claim found, wrote and returned. *)
Lemma claim_run_ok m input w run w' :
  ClaimParallelRun m input w = (Ok run, w') ->
  exists row ws hash,
    select_schedule (cl_TenantID input) (cl_ProjectID input) (cl_RunID input) (w_db w) = Some row /\
    decodeParallelMap (s_workerStates row) = Some ws /\
    parallelRunTerminal (s_status row) = false /\
    (as_obj (jidx ws (cl_WorkerID input)) <> None \/
     s_activeWorkers row < k_requestedConcurrency (s_key row)) /\
    schedules (w_db w') =
      schedules (update_schedule (cl_TenantID input) (cl_ProjectID input) (cl_RunID input)
                                 (claim_row input ws hash) (w_db w)) /\
    exists tk, hash = snd <$> tk /\
      run = match tk with
            | Some (t, _) => with_token (scanParallelRun (claim_row input ws hash row)) t
            | None => scanParallelRun (claim_row input ws hash row)
            end /\
      (cl_IssueWorkerToken input = true ->
       exists th w1 w2, tk = Some th /\ issue_worker_token w1 = (Ok th, w2)).
Proof.
  unfold ClaimParallelRun.
  pose proof (same_claim_token input w) as PI. pose proof (same_claim_consume m input) as PC.
  intros H. invert_ok H as H1. rewrite H1 in PI.
  invert_ok H as H2. specialize (PC w0). rewrite H2 in PC. simpl in PI, PC.
  invert_ok H as H3. injection H as <- <-.
  apply claim_transaction_ok in H3 as (row & ws & S & T & _ & D & G & E & ->).
  assert (S0 : same_schedules (w_db w) (w_db w1)) by (by etransitivity).
  exists row, ws, (snd <$> a). rewrite <- (same_schedules_select _ _ _ _ _ S0).
  repeat split; try done.
  - rewrite E. unfold update_schedule. rewrite (same_schedules_select _ _ _ _ _ S0).
    rewrite <- (same_schedules_select _ _ _ _ _ S0), S. simpl. by destruct S0 as [-> _].
  - exists a. split; [done|]. split; [by destruct a as [[]|]|]. intros I. rewrite I in H1.
    invert_ok H1 as H4. injection H1 as <- <-. eauto.
Qed.

(** Claim C33: a claim by a worker the run does not know yet succeeds only when the count of
    active workers stored with the run is below the requested concurrency, and afterwards
    the active workers still are at most the requested concurrency, the run is running and
    its total counts the workers shown. *)
Theorem new_worker_claim_bounded (m : RequestMeta) (input : ParallelRunClaim)
  (w w' : world RunTables) (run : ParallelRun) :
  db_ok (w_db w) ->
  ClaimParallelRun m input w = (Ok run, w') ->
  (forall row, schedules (w_db w) !! cl_RunID input = Some row ->
               dget (cl_WorkerID input) (ws_of row) = None) ->
  (exists row,
     select_schedule (cl_TenantID input) (cl_ProjectID input) (cl_RunID input) (w_db w) = Some row /\
     s_activeWorkers row < k_requestedConcurrency (s_key row)) /\
  r_ActiveWorkers run <= r_RequestedConcurrency run /\
  r_Status run = "running" /\ r_TotalWorkers run = Z.of_nat (length (r_Workers run)).
Proof.
  intros OK H N.
  apply claim_run_ok in H as (row & ws & hash & S & D & T & G & _ & tk & _ & -> & _).
  pose proof S as (L & _ & _)%select_schedule_spec.
  assert (W : ws_of row = ws) by (unfold ws_of; by rewrite D).
  specialize (N row L). rewrite W in N.
  destruct (ok_rows _ OK _ _ L) as (ws' & E & WO & (A & _) & _).
  assert (ws' = ws) as -> by (rewrite E in D; by injection D).
  destruct G as [G|G]; [unfold jidx in G; by rewrite N in G|]. split; [by eauto|].
  assert (Shown : forall run, r_ActiveWorkers run <= r_RequestedConcurrency run /\
                    r_Status run = "running" /\
                    r_TotalWorkers run = Z.of_nat (length (r_Workers run)) ->
            let run' := match tk with Some (t, _) => with_token run t | None => run end in
            r_ActiveWorkers run' <= r_RequestedConcurrency run' /\ r_Status run' = "running" /\
            r_TotalWorkers run' = Z.of_nat (length (r_Workers run')))
    by (intros; by destruct tk as [[]|]).
  apply Shown. unfold claim_row. rewrite recalculate_eq. simpl.
  split; [|split; [done|]].
  - eapply Z.le_trans; [by apply running_dset_new|]. lia.
  - rewrite <- (length_updated _ (cl_Now input)). apply scan_workers_length.
    by apply workers_ok_updated, workers_ok_dset; [apply worker_ok_claimed|].
Qed.
End Claiming.

Lemma new_worker_claim_bounded_witness :
  exists run w', ClaimParallelRun sample_meta (sample_claim "w2" noon) (World (busy_run 2) [] [])
                 = (Ok run, w') /\ r_ActiveWorkers run <= r_RequestedConcurrency run.
Proof.
  destruct (ClaimParallelRun sample_meta (sample_claim "w2" noon) (World (busy_run 2) [] []))
    as [[run|e] w'] eqn:E; [|vm_compute in E; discriminate].
  exists run, w'. split; [reflexivity|].
  apply (new_worker_claim_bounded sample_meta (sample_claim "w2" noon) _ _ _ (busy_run_ok 2) E).
  intros row H. vm_compute in H. injection H as <-. vm_compute. reflexivity.
Defined.

(** the limit does not bind a worker that comes back. Of a run with
    room for one worker, the first worker completes, a second one claims the
    free slot, and the first claims again: two workers are active. *)
Theorem reclaim_exceeds_concurrency :
  exists d row, rtc (system_step plain_sha256) fresh_tables d /\
    schedules d !! 1 = Some row /\
    k_requestedConcurrency (s_key row) = 1 /\ s_activeWorkers row = 2.
Proof.
  set (ops := [OpCreate (sample_create "nightly" 1) None;
               OpClaim sample_meta (sample_claim "w1" noon);
               OpUpdate (sample_update "w1" "completed" noon);
               OpClaim sample_meta (sample_claim "w2" noon);
               OpClaim sample_meta (sample_claim "w1" noon)]).
  destruct (schedules (play fresh_tables ops) !! 1) as [row|] eqn:E; [|vm_compute in E; done].
  exists (play fresh_tables ops), row. split; [|split; [done|]].
  - apply play_reachable. by repeat constructor.
  - vm_compute in E. injection E as <-. done.
Qed.
