(* ===== verification/RunLeases.v ===== *)
(** * Leases and convergence

    A running worker holds a lease.  A worker whose lease has not expired stays
    running through every operation of other workers; a heartbeat after expiry
    finds it lost; a run none of whose workers runs converges to their verdict. *)

From S2P Require Import Prelude GoStrings GoTime Json Redaction Effects Runs RunTables.
From S2P Require Import RunTokens RunOps RunCreate RunMachine RunSafety RunTheorems.

(** ** A worker that is alive until [dl] *)
Definition alive_state (dl : time) (v : json) : Prop :=
  exists w expiry parsed, v = JObj w /\ jidx w "status" = JStr "running" /\
    jidx w "leaseExpiresAt" = JStr expiry /\ parseRFC3339 expiry = Some parsed /\ dl <= parsed.

Definition alive (k : string) (dl : time) (row : Schedule) : Prop :=
  alive_state dl (jidx (ws_of row) k).

Lemma alive_recalculate dl now v :
  alive_state dl v -> now <= dl -> recalculate_worker now v = ("running", v).
Proof.
  intros (w & e & x & -> & S & L & P & D) N. unfold recalculate_worker.
  rewrite obj_or_empty_obj, S. simpl. rewrite L. simpl. rewrite P.
  unfold before. by destruct (Z.ltb_spec x now); [lia|].
Qed.

Lemma alive_not_null dl : ~ alive_state dl JNull.
Proof. by intros (w & e & x & H & _). Qed.

Lemma alive_updated k dl now ws :
  alive_state dl (jidx ws k) -> now <= dl -> alive_state dl (jidx (updated_workers ws now) k).
Proof.
  unfold jidx. rewrite dget_updated. intros A N.
  destruct (dget k ws) as [v|]; simpl in *; [|by apply alive_not_null in A].
  by rewrite (alive_recalculate dl).
Qed.

Lemma alive_dset k k' dl v ws :
  alive_state dl (jidx ws k) -> k' <> k -> alive_state dl (jidx (dset k' v ws) k).
Proof. intros. by rewrite jidx_dset_ne. Qed.

Lemma alive_renewed dl l now w :
  jidx w "status" = JStr "running" -> four_digit_year (now + l * second) = true ->
  dl <= truncate_micros (now + l * second) -> alive_state dl (JObj (renewed_worker l now w)).
Proof.
  intros S Y D. eexists _, _, _. split; [done|]. unfold renewed_worker.
  split; [by jidx_simpl|]. split; [by jidx_simpl|]. split; [by apply parse_format_micros|done].
Qed.

(** Where the row updates leave the worker states. *)
Lemma ws_claim_row input ws hash row :
  ws_of (claim_row input ws hash row) =
  updated_workers (dset (cl_WorkerID input)
    (JObj (claimed_worker input (as_obj (jidx ws (cl_WorkerID input))) hash)) ws) (cl_Now input).
Proof. unfold claim_row. by rewrite recalculate_eq. Qed.

Lemma ws_update_row input ws worker row :
  ws_of (update_row input ws worker row) =
  updated_workers (dset (u_WorkerID input) (JObj (updated_worker input worker)) ws) (u_Now input).
Proof. unfold update_row. by rewrite recalculate_eq. Qed.

Definition beaten (ws worker : dict json) (wid : string) (l : Z) (now : time) : dict json :=
  if String.eqb (str_or_empty (jidx worker "status")) "running"
  then dset wid (JObj (renewed_worker l now worker)) ws else ws.

Lemma ws_heartbeat_row ws worker wid l now row :
  ws_of (heartbeat_row ws worker wid l now row) = updated_workers (beaten ws worker wid l now) now.
Proof.
  unfold heartbeat_row. fold (beaten ws worker wid l now). rewrite recalculate_eq.
  cbv beta iota. by destruct (parallelRunWorkerOutcome _ _ _ _ _) as [[]].
Qed.

Lemma alive_heartbeat_row k dl ws worker wid l now row :
  alive_state dl (jidx ws k) -> now <= dl ->
  as_obj (jidx (updated_workers ws now) wid) = Some worker ->
  (wid = k -> four_digit_year (now + l * second) = true /\
              dl <= truncate_micros (now + l * second)) ->
  alive k dl (heartbeat_row (updated_workers ws now) worker wid l now row).
Proof.
  intros A N W R. unfold alive. rewrite ws_heartbeat_row. apply alive_updated; [|done].
  pose proof (alive_updated _ _ _ _ A N) as A'. unfold beaten.
  destruct (String.eqb_spec (str_or_empty (jidx worker "status")) "running") as [S|S]; [|done].
  destruct (decide (wid = k)) as [->|]; [|by apply alive_dset].
  rewrite jidx_dset_eq. destruct (R eq_refl). apply alive_renewed; try done.
  destruct A' as (w' & e & x & E & S' & _). rewrite E in W. by injection W as <-.
Qed.

(** ** Operations that do not end the worker *)
Definition harmless (r : Z) (k : string) (dl : time) (o : op) : Prop :=
  match o with
  | OpClaim _ input => cl_RunID input = r -> cl_WorkerID input <> k /\ cl_Now input <= dl
  | OpUpdate input => u_RunID input = r -> u_WorkerID input <> k /\ u_Now input <= dl
  | OpHeartbeat _ _ r' wid l now =>
      r' = r -> now <= dl /\
      (wid = k -> four_digit_year (now + l * second) = true /\
                  dl <= truncate_micros (now + l * second))
  | OpCancel _ _ r' _ => r' <> r
  | OpCreate _ _ | OpIssue _ _ _ _ _ _ _ | OpRevoke _ _ _ _ _ _
  | OpGet _ _ _ | OpList _ _ _ | OpValidate _ _ _ _ _ _ => True
  end.

(** An update of the schedule table keeps a property of one row. *)
Lemma update_schedule_keeps (P : Schedule -> Prop) t p r' f d row0 r row :
  select_schedule t p r' d = Some row0 -> schedules d !! r = Some row -> P row ->
  (r' = r -> P (f row0)) ->
  exists row', schedules (update_schedule t p r' f d) !! r = Some row' /\ P row'.
Proof.
  intros S L H F. destruct (decide (r' = r)) as [->|N].
  - exists (f row0). split; [by apply update_schedule_same|auto].
  - exists row. by rewrite update_schedule_other.
Qed.

Lemma select_lookup t p r d row0 row :
  select_schedule t p r d = Some row0 -> schedules d !! r = Some row -> row0 = row.
Proof. intros (L & _)%select_schedule_spec H. congruence. Qed.

(** ** Creation keeps the runs there are *)
Definition next_ok (d : RunTables) : Prop :=
  forall r row, schedules d !! r = Some row -> r < next_schedule d.

Definition rows_kept (d d' : RunTables) : Prop :=
  next_ok d -> next_ok d' /\
  forall r row, schedules d !! r = Some row -> schedules d' !! r = Some row.

#[export] Instance rows_kept_refl : Reflexive rows_kept.
Proof. by intros d H. Qed.

#[export] Instance rows_kept_trans : Transitive rows_kept.
Proof. intros d1 d2 d3 H1 H2 N. destruct (H1 N) as [N2 K1], (H2 N2) as [N3 K2]. auto. Qed.

Lemma rows_kept_insert input key m d : rows_kept d (fst (insert_schedule input key m d)).
Proof.
  unfold insert_schedule. destruct (List.find _ _) as [[]|]; [reflexivity|]. intros N. simpl. split.
  - intros r row. simpl. rewrite lookup_insert. case_decide; [lia|]. intros L%N. lia.
  - intros r row L. rewrite lookup_insert_ne; [done|]. apply N in L. lia.
Qed.

Lemma rows_kept_not_found {A} (o : option A) : preserves rows_kept (parallelRunNotFound o).
Proof. unfold parallelRunNotFound. solve_preserves. Qed.

#[export] Hint Resolve rows_kept_insert rows_kept_not_found : effects.

Lemma rows_kept_create sha256 input c : preserves rows_kept (createParallelRuns sha256 input c).
Proof.
  unfold createParallelRuns, ensureParallelRunProjectAndCycle, parallelRunExecutionSnapshot,
    snapshot_item, latestParallelAssetVersion, create_one, getParallelRun.
  solve_preserves.
Qed.

Lemma db_next_ok d : db_ok d -> next_ok d.
Proof. intros [_ I _] r row L. apply (I _ _ L). Qed.

Lemma forget_ok {A} (m : M RunTables A) w w' u :
  forget m w = (Ok u, w') -> exists a, m w = (Ok a, w').
Proof. unfold forget. intros H. invert_ok H as E. injection H as <- <-. eauto. Qed.

Section Leases.
Context `{MS : MySQL} `{B : Bcrypt} (sha256 : string -> string).

Lemma alive_step o w r row k dl :
  db_ok (w_db w) -> harmless r k dl o -> schedules (w_db w) !! r = Some row -> alive k dl row ->
  exists row', schedules (db_after (perform sha256 o) w) !! r = Some row' /\ alive k dl row'.
Proof.
  intros OK H L A. unfold db_after.
  destruct (perform sha256 o w) as [[[]|e] w'] eqn:E; simpl.
  2:{ apply perform_err in E as [-> _]. eauto. }
  destruct (op_reads o) eqn:RD.
  { pose proof (reading_pure sha256 o RD w) as P. rewrite E in P. simpl in P. rewrite <- P. eauto. }
  destruct o; try done; simpl in E, H; apply forget_ok in E as (x & E).
  - apply claim_run_ok in E as (row0 & ws & hash & S & D & _ & _ & -> & _).
    eapply update_schedule_keeps; [done..|]. intros <-.
    pose proof (select_lookup _ _ _ _ _ _ S L) as ->. destruct (H eq_refl) as [N T].
    unfold alive in *. rewrite ws_claim_row. apply alive_updated; [|done].
    apply alive_dset; [|done]. unfold ws_of in A. by rewrite D in A.
  - apply update_worker_ok in E as (row0 & worker & S & _ & W & ->).
    eapply update_schedule_keeps; [done..|]. intros <-.
    pose proof (select_lookup _ _ _ _ _ _ S L) as ->. destruct (H eq_refl) as [N T].
    unfold alive in *. rewrite ws_update_row. apply alive_updated; [|done]. by apply alive_dset.
  - apply heartbeat_ok in E as (row0 & worker & S & _ & W & -> & _).
    eapply update_schedule_keeps; [done..|]. intros <-.
    pose proof (select_lookup _ _ _ _ _ _ S L) as ->. destruct (H eq_refl) as [N T].
    by apply alive_heartbeat_row.
  - apply cancel_ok in E as (row0 & S & _ & ->).
    by eapply update_schedule_keeps; [done..|].
  - pose proof (rows_kept_create sha256 input combinations w) as R. rewrite E in R.
    destruct (R (db_next_ok _ OK)) as [_ K]. eauto.
  - pose proof (same_issue meta tenantID projectID runID agentID now ttl w) as R.
    rewrite E in R. destruct R as [R _]. simpl in R. rewrite R. eauto.
  - pose proof (same_revoke meta tenantID projectID runID tokenID now w) as R.
    rewrite E in R. destruct R as [R _]. simpl in R. rewrite R. eauto.
Qed.

(** A step of the system that is harmless to worker [k] of run [r] up to [dl]. *)
Definition harmless_step (r : Z) (k : string) (dl : time) (d d' : RunTables) : Prop :=
  exists o faults random, op_valid o /\ harmless r k dl o /\
    d' = db_after (perform sha256 o) (World d faults random).

Lemma harmless_step_ok r k dl d d' : harmless_step r k dl d d' -> db_ok d -> db_ok d'.
Proof.
  intros (o & f & x & V & _ & ->) OK. eapply steps_ok; [|exact OK].
  exact (steps_perform sha256 o V (World d f x)).
Qed.

(** Claim C35: a worker that runs with a lease until [dl] is still running, and evaluating the
    leases up to [dl] does not lose it, after any sequence of the following operations,
    whichever of them fail: on its run, claims, updates and heartbeats of other workers
    dated [dl] or earlier, and its own heartbeats dated so that renew the lease to [dl] or
    later, to a time with a four-digit year; on other runs, every operation; the creation
    of runs, the issue and revocation of run tokens, and reads.  Not among them are a
    cancellation of its run and a claim or an update in the worker's own name: those may
    end it. *)
Theorem leased_worker_survives (r : Z) (k : string) (dl : time) (d d' : RunTables)
  (row : Schedule) :
  db_ok d -> schedules d !! r = Some row -> alive k dl row ->
  rtc (harmless_step r k dl) d d' ->
  exists row', schedules d' !! r = Some row' /\ alive k dl row' /\
    forall now, now <= dl -> recalculate_worker now (jidx (ws_of row') k)
                             = ("running", jidx (ws_of row') k).
Proof.
  intros OK L A R. revert row OK L A.
  induction R as [|d1 d2 d3 S R IH]; intros row OK L A.
  - exists row. split; [done|]. split; [done|]. intros now N. by apply (alive_recalculate dl).
  - pose proof (harmless_step_ok _ _ _ _ _ S OK) as OK2.
    destruct S as (o & f & x & V & H & ->).
    destruct (alive_step o (World d1 f x) r row k dl OK H L A) as (row2 & L2 & A2). eauto.
Qed.

Lemma jidx_updated ws now k :
  is_Some (dget k ws) -> jidx (updated_workers ws now) k = snd (recalculate_worker now (jidx ws k)).
Proof. intros [v E]. unfold jidx. by rewrite dget_updated, E. Qed.

Lemma jidx_obj_some ws k w : jidx ws k = JObj w -> is_Some (dget k ws).
Proof. unfold jidx. destruct (dget k ws); [by eexists|done]. Qed.

(** What evaluating the leases does to a running worker with deadline [e]. *)
Lemma recalculate_leased now w e :
  jidx w "status" = JStr "running" ->
  jidx w "leaseExpiresAt" = JStr (parallelRunISOString e) -> four_digit_year e = true ->
  recalculate_worker now (JObj w) =
  if before (truncate_micros e) now
  then ("lost", JObj (dset "updatedAt" (JStr (parallelRunISOString now))
                 (dset "lostAt" (JStr (parallelRunISOString now))
                 (dset "status" (JStr "lost") w))))
  else ("running", JObj w).
Proof.
  intros S L Y. unfold recalculate_worker. rewrite obj_or_empty_obj, S. simpl. rewrite L. cbn [as_str].
  unfold parallelRunISOString at 1. by rewrite parse_format_micros.
Qed.

Lemma renewal_not_expired now l :
  1 <= l -> before (truncate_micros (now + l * second)) now = false.
Proof.
  intros H. pose proof (truncate_micros_bounds (now + l * second)).
  unfold before, second, microsecond in *. apply Z.ltb_ge. lia.
Qed.

(** a heartbeat of a running worker after its lease deadline (to the
    microsecond) reports it lost and leaves it lost with its old deadline; one
    up to the deadline keeps it running and moves the deadline to the heartbeat
    time plus the requested lease. *)
Theorem heartbeat_lease (t p r : Z) (wid : string) (l : Z) (now e : time)
  (w w' : world RunTables) (hb : ParallelRunHeartbeat) (row : Schedule) (worker : dict json) :
  schedules (w_db w) !! r = Some row -> jidx (ws_of row) wid = JObj worker ->
  jidx worker "status" = JStr "running" ->
  jidx worker "leaseExpiresAt" = JStr (parallelRunISOString e) -> four_digit_year e = true ->
  1 <= l -> four_digit_year (now + l * second) = true ->
  HeartbeatParallelRunWorker t p r wid l now w = (Ok hb, w') ->
  exists row' worker',
    schedules (w_db w') !! r = Some row' /\ jidx (ws_of row') wid = JObj worker' /\
    if before (truncate_micros e) now
    then h_WorkerStatus hb = "lost" /\ jidx worker' "status" = JStr "lost" /\
         jidx worker' "leaseExpiresAt" = JStr (parallelRunISOString e)
    else h_WorkerStatus hb = "" /\ jidx worker' "status" = JStr "running" /\
         jidx worker' "leaseExpiresAt" = JStr (parallelRunISOString (now + l * second)).
Proof.
  intros L W S E Y Hl Y' H. apply heartbeat_ok in H as (row0 & x & Sel & _ & X & -> & HS & _).
  pose proof (select_lookup _ _ _ _ _ _ Sel L) as ->.
  rewrite (update_schedule_same _ _ _ _ _ _ Sel).
  pose proof (recalculate_leased now worker e S E Y) as R.
  rewrite (jidx_updated _ _ _ (jidx_obj_some _ _ _ W)), W, R in X.
  eexists _. rewrite ws_heartbeat_row, HS. unfold beaten.
  destruct (before (truncate_micros e) now); simpl in X; injection X as <-.
  - set (lost := dset "updatedAt" _ _) in *.
    assert (SL : jidx lost "status" = JStr "lost") by (subst lost; by jidx_simpl).
    assert (EL : jidx lost "leaseExpiresAt" = jidx worker "leaseExpiresAt")
      by (subst lost; by jidx_simpl).
    exists lost. rewrite SL, EL. split; [done|].
    split; [|split; [done|split; done]]. 
    change (String.eqb (str_or_empty (JStr "lost")) "running") with false. cbv iota.
    rewrite updated_workers_idem, (jidx_updated _ _ _ (jidx_obj_some _ _ _ W)), W, R. done.
  - assert (RN : recalculate_worker now (JObj (renewed_worker l now worker)) =
                 ("running", JObj (renewed_worker l now worker))).
    { rewrite (recalculate_leased _ _ (now + l * second));
        [by rewrite renewal_not_expired|unfold renewed_worker; by jidx_simpl..|done]. }
    exists (renewed_worker l now worker). rewrite S. split; [done|].
    change (String.eqb (str_or_empty (JStr "running")) "running") with true. cbv iota zeta.
    rewrite jidx_updated by (rewrite dget_dset_eq; by eexists).
    rewrite jidx_dset_eq, RN. split; [done|]. split; [done|].
    unfold renewed_worker. split; by jidx_simpl.
Qed.

(** after a successful heartbeat a run with an active worker is
    running; otherwise it is over, with the status and the aggregate code that
    its worker states imply, and the response shows that same row. *)
Theorem heartbeat_converges (t p r : Z) (wid : string) (l : Z) (now : time)
  (w w' : world RunTables) (hb : ParallelRunHeartbeat) :
  db_ok (w_db w) -> HeartbeatParallelRunWorker t p r wid l now w = (Ok hb, w') ->
  exists row, schedules (w_db w') !! r = Some row /\ h_Run hb = scanParallelRun row /\
    let states := names (ws_of row) in
    if bool_decide (0 < countZ "running" states)
    then s_status row = "running"
    else exists a, verdict states (s_status row) a /\ s_aggregateStatus row = Some a /\
                   s_completedAt row <> None.
Proof.
  intros OK H. apply heartbeat_ok in H as (row & worker & Sel & T & W & E & HS & HR).
  set (row' := heartbeat_row _ _ _ _ _ row) in *.
  exists row'. rewrite E, (update_schedule_same _ _ _ _ _ _ Sel). split; [done|]. split; [done|].
  apply select_schedule_spec in Sel as (L & _).
  destruct (ok_rows _ OK _ _ L) as (ws & EW & WO & _ & P).
  destruct (decode_ok _ _ EW) as [_ D]. rewrite D in *.
  unfold row'. rewrite D, ws_heartbeat_row, names_updated.
  destruct (phase_busy _ _ P T) as (_ & _ & _ & [[_ ->]|[S _]]); [done|].
  unfold heartbeat_row. fold (beaten (updated_workers ws now) worker wid l now).
  set (ws' := beaten _ _ _ _ _). rewrite recalculate_eq. cbv beta iota zeta.
  assert (N : statuses now ws' <> []).
  { subst ws'. unfold beaten, statuses. intros M%map_eq_nil. revert M. case_match.
    - apply dset_nonempty.
    - exact (jidx_nonempty _ _ _ W). }
  rewrite <- (length_statuses ws' now). set (l' := statuses now ws') in *.
  case_bool_decide as R.
  - rewrite outcome_busy by (by right). done.
  - rewrite countZ_pos in R.
    destruct (outcome_idle (s_status row) (s_aggregateStatus row) (s_completedAt row) now l' N R)
      as (s & a & -> & V). simpl. eauto.
Qed.
End Leases.

Lemma leased_worker_survives_witness :
  exists row row',
    schedules (busy_run 2) !! 1 = Some row /\ alive "w1" (noon + lease) row /\
    schedules (db_after (perform plain_sha256 (OpClaim sample_meta (sample_claim "w2" (noon + lease))))
                        (World (busy_run 2) [] [])) !! 1 = Some row' /\
    alive "w1" (noon + lease) row'.
Proof.
  destruct (schedules (busy_run 2) !! 1) as [row|] eqn:E; [|vm_compute in E; discriminate].
  assert (A : alive "w1" (noon + lease) row).
  { vm_compute in E. injection E as <-. eexists _, _, _. repeat split; vm_compute; try reflexivity.
    discriminate. }
  destruct (leased_worker_survives plain_sha256 1 "w1" (noon + lease) (busy_run 2)
    (db_after (perform plain_sha256 (OpClaim sample_meta (sample_claim "w2" (noon + lease))))
              (World (busy_run 2) [] [])) row (busy_run_ok 2) E A) as (row' & L & A' & _).
  - apply rtc_once. exists (OpClaim sample_meta (sample_claim "w2" (noon + lease))), [], [].
    split; [exact I|]. split; [|reflexivity]. intros _. split; [discriminate|]. reflexivity.
  - exists row, row'. repeat split; assumption.
Defined.

(** A worker that comes back a second after its deadline. *)
Lemma heartbeat_lease_witness :
  exists hb w', HeartbeatParallelRunWorker 7 1 1 "w1" 60 (noon + lease + second)
                  (World (busy_run 2) [] []) = (Ok hb, w') /\ h_WorkerStatus hb = "lost".
Proof.
  destruct (HeartbeatParallelRunWorker 7 1 1 "w1" 60 (noon + lease + second)
              (World (busy_run 2) [] [])) as [[hb|e] w'] eqn:E; [|vm_compute in E; discriminate].
  exists hb, w'. split; [reflexivity|].
  destruct (schedules (busy_run 2) !! 1) as [row|] eqn:L; [|vm_compute in L; discriminate].
  assert (W : exists worker, jidx (ws_of row) "w1" = JObj worker /\
            jidx worker "status" = JStr "running" /\
            jidx worker "leaseExpiresAt" = JStr (parallelRunISOString (noon + lease))).
  { clear E. vm_compute in L. injection L as <-. eexists. vm_compute. repeat split. }
  destruct W as (worker & W & S & X).
  destruct (heartbeat_lease 7 1 1 "w1" 60 (noon + lease + second) (noon + lease) _ w' hb row worker
              L W S X) as (row' & worker' & _ & _ & H);
    [vm_compute; reflexivity|lia|vm_compute; reflexivity|exact E|exact (proj1 H)].
Defined.

Lemma heartbeat_converges_witness :
  exists hb w' row, HeartbeatParallelRunWorker 7 1 1 "w1" 60 noon (World (busy_run 2) [] []) = (Ok hb, w') /\
    schedules (w_db w') !! 1 = Some row /\ h_Run hb = scanParallelRun row.
Proof.
  destruct (HeartbeatParallelRunWorker 7 1 1 "w1" 60 noon (World (busy_run 2) [] []))
    as [[hb|e] w'] eqn:E; [|vm_compute in E; discriminate].
  destruct (heartbeat_converges 7 1 1 "w1" 60 noon _ w' hb (busy_run_ok 2) E) as (row & L & R & _).
  exists hb, w', row. repeat split; assumption.
Defined.
