(* ===== verification/TokenTheorems.v ===== *)
(** * Theorems about run tokens and worker tokens

    A run token is accepted at most once in the whole life of the installation,
    never after its revocation, and is accepted when it is fresh; what is audited
    about it does not depend on its secret.  A worker token opens the worker's
    artifact uploads until its lease ends and never leaves the server again. *)

From S2P Require Import Prelude GoStrings GoTime Json Redaction Effects Runs RunTables.
From S2P Require Import RunTokens RunOps RunCreate RunMachine RunSafety RunTheorems RunLeases.

(** ** The token table invariant *)
Record tokens_ok (d : RunTables) : Prop := {
  tok_unique : List.NoDup (map t_tokenId (run_tokens d));
  tok_ids : List.NoDup (map t_id (run_tokens d));
  tok_next : Forall (fun t => t_id t < next_token d) (run_tokens d);
}.

(** How the token table evolves: it grows, and stays well-formed. *)
Definition tokens_evolve (d d' : RunTables) : Prop :=
  tokens_grow d d' /\ (tokens_ok d -> tokens_ok d').

#[export] Instance tokens_evolve_refl : Reflexive tokens_evolve.
Proof. intros d. split; [reflexivity|done]. Qed.

#[export] Instance tokens_evolve_trans : Transitive tokens_evolve.
Proof. intros d1 d2 d3 [G1 K1] [G2 K2]. split; [by etransitivity|auto]. Qed.

Lemma evolve_same d d' :
  run_tokens d' = run_tokens d -> next_token d' = next_token d -> tokens_evolve d d'.
Proof.
  intros E N. split; [by apply tokens_grow_same|]. intros [U I X]. split; rewrite ?E, ?N; done.
Qed.

Lemma evolve_update id cond f d :
  (forall t, cond t = true -> token_le t (f t)) ->
  tokens_evolve d (fst (update_tokens id cond f d)).
Proof.
  intros H. split; [by apply tokens_grow_update|]. intros [U I X].
  set (g := fun t => if (t_id t =? id) && cond t then f t else t).
  assert (G : forall t, token_le t (g t)).
  { intros t. subst g. simpl. destruct (_ && _) eqn:E; [|done].
    apply andb_true_iff in E as [_ E]. by apply H. }
  split; simpl; fold g; rewrite ?map_map.
  - rewrite (map_ext _ t_tokenId); [done|]. intros t. apply G.
  - rewrite (map_ext _ t_id); [done|]. intros t. apply G.
  - rewrite Forall_map. eapply Forall_impl; [exact X|]. intros t Ht. by rewrite (le_id _ _ (G t)).
Qed.

Lemma NoDup_snoc {A} (x : A) l : List.NoDup l -> ~ In x l -> List.NoDup (l ++ [x]).
Proof.
  intros N H. induction N as [|y l Hy N IH]; simpl; constructor.
  - done.
  - constructor.
  - rewrite in_app_iff. simpl in *. naive_solver.
  - apply IH. simpl in H. tauto.
Qed.

Lemma evolve_insert t p r a i h e n d d' :
  insert_token t p r a i h e n d = Some d' -> tokens_evolve d d'.
Proof.
  intros H. split; [by eapply tokens_grow_insert|]. revert H. unfold insert_token.
  case_match eqn:E; intros [= <-] [U I X]. split; simpl; rewrite ?map_app.
  - apply NoDup_snoc; [done|]. simpl. rewrite in_map_iff. intros (x & E1 & E2).
    assert (existsb (fun t => String.eqb (t_tokenId t) i) (run_tokens d) = true).
    { apply existsb_exists. exists x. split; [done|]. by apply String.eqb_eq. }
    congruence.
  - apply NoDup_snoc; [done|]. simpl. rewrite in_map_iff. intros (x & E1 & E2).
    rewrite List.Forall_forall in X. apply X in E2. lia.
  - rewrite Forall_app. split; [|by repeat constructor; simpl; lia].
    eapply Forall_impl; [exact X|]. simpl. lia.
Qed.

Section Evolve.
Context `{MS : MySQL} `{B : Bcrypt} (sha256 : string -> string).

Lemma evolve_audit op e : preserves tokens_evolve (exec op (add_audit e)).
Proof. apply preserves_exec; [apply _..|]. intros d. by apply evolve_same. Qed.

Lemma evolve_schedule op t p r f : preserves tokens_evolve (exec op (update_schedule t p r f)).
Proof.
  apply preserves_exec; [apply _..|]. intros d. unfold update_schedule.
  case_match; [by apply evolve_same|reflexivity].
Qed.

Lemma evolve_insert_schedule input key m d : tokens_evolve d (fst (insert_schedule input key m d)).
Proof.
  unfold insert_schedule. destruct (List.find _ _) as [[]|]; [reflexivity|]. by apply evolve_same.
Qed.

Lemma evolve_not_found {A} (o : option A) : preserves tokens_evolve (parallelRunNotFound o).
Proof. unfold parallelRunNotFound. solve_preserves. Qed.

Lemma evolve_used id now d :
  tokens_evolve d (fst (update_tokens id (fun t => unset (t_usedAt t) && unset (t_revokedAt t))
                                      (set_used now) d)).
Proof. apply evolve_update. intros t [Hu _]%andb_true_iff. by apply token_le_used. Qed.

Lemma evolve_revoked id now d :
  tokens_evolve d (fst (update_tokens id (fun t => unset (t_revokedAt t)) (set_revoked now) d)).
Proof. apply evolve_update. intros t Hu. by apply token_le_revoked. Qed.

#[local] Hint Resolve evolve_audit evolve_schedule evolve_insert_schedule evolve_not_found
  evolve_used evolve_revoked evolve_insert : effects.

Lemma evolve_perform o : preserves tokens_evolve (perform sha256 o).
Proof.
  destruct o; unfold perform, forget, ClaimParallelRun, issue_worker_token, consume_with_audit,
    consumeParallelRunToken, recordParallelRunTokenAudit, claim_transaction,
    validateParallelRunAgent, UpdateRunnerWorker, HeartbeatParallelRunWorker, CancelParallelRun,
    createParallelRuns, ensureParallelRunProjectAndCycle, parallelRunExecutionSnapshot,
    snapshot_item, latestParallelAssetVersion, create_one, IssueParallelRunToken,
    RevokeParallelRunToken, recordParallelRunTokenLifecycleAudit, randomParallelRunTokenPart,
    generateFromPassword, GetParallelRun, getParallelRun, ListParallelRuns, ValidateWorkerToken,
    ensureProject; solve_preserves.
Qed.

Lemma evolve_system d d' : rtc (system_step sha256) d d' -> tokens_evolve d d'.
Proof.
  induction 1 as [|d1 d2 d3 S _ IH]; [reflexivity|]. etransitivity; [|exact IH].
  destruct S as [o f x _ ->|_ _ E N]; [exact (evolve_perform o (World d1 f x))|].
  by apply evolve_same.
Qed.

Lemma evolve_claim_transaction input h : preserves tokens_evolve (claim_transaction input h).
Proof. unfold claim_transaction, validateParallelRunAgent, getParallelRun. solve_preserves. Qed.

Lemma evolve_claim_audit m input a r :
  preserves tokens_evolve (recordParallelRunTokenAudit m input a r).
Proof. unfold recordParallelRunTokenAudit. solve_preserves. Qed.

Lemma evolve_consume input : preserves tokens_evolve (consumeParallelRunToken input).
Proof. unfold consumeParallelRunToken. solve_preserves. Qed.

Lemma evolve_revoke m t p r i n : preserves tokens_evolve (RevokeParallelRunToken m t p r i n).
Proof. unfold RevokeParallelRunToken, recordParallelRunTokenLifecycleAudit. solve_preserves. Qed.

(** ** Spent tokens *)

(** The token [id] is in the table, used or revoked. *)
Definition spent (id : string) (d : RunTables) : Prop :=
  exists t, In t (run_tokens d) /\ t_tokenId t = id /\
            unset (t_usedAt t) && unset (t_revokedAt t) = false.

Lemma unset_le t t' :
  token_le t t' -> unset (t_usedAt t) && unset (t_revokedAt t) = false ->
  unset (t_usedAt t') && unset (t_revokedAt t') = false.
Proof.
  intros L. destruct (t_usedAt t) eqn:U; simpl.
  - by rewrite (le_used _ _ L _ U).
  - destruct (t_revokedAt t) eqn:R; simpl; [|done].
    rewrite (le_revoked _ _ L _ R), andb_false_r. done.
Qed.

Lemma spent_evolve id d d' : tokens_evolve d d' -> spent id d -> spent id d'.
Proof.
  intros [(old & new & E & F) _] (t & I & T & U).
  apply list_elem_of_In, list_elem_of_lookup in I as [i I].
  destruct (Forall2_lookup_l _ _ _ _ _ F I) as (t' & I' & L).
  exists t'. split; [|split; [by rewrite (le_tokenId _ _ L)|by eapply unset_le]].
  rewrite E. apply in_app_iff. left. apply list_elem_of_In, list_elem_of_lookup. eauto.
Qed.

Lemma NoDup_map_inj {A C} (f : A -> C) l x y :
  List.NoDup (map f l) -> In x l -> In y l -> f x = f y -> x = y.
Proof.
  induction l as [|z l IH]; simpl; [done|]. intros N. inversion N as [|? ? H1 H2]; subst.
  intros [->|Hx] [->|Hy] E; auto.
  - destruct H1. rewrite E. by apply in_map.
  - destruct H1. rewrite <- E. by apply in_map.
Qed.

Lemma claim_scope_id id input t : claim_scope id input t = true -> t_tokenId t = id.
Proof.
  unfold claim_scope, token_scope. rewrite !andb_true_iff, String.eqb_eq. naive_solver.
Qed.

(** A spent token is refused in any claim, and nothing is written. *)
Lemma spent_refused id secret input w :
  tokens_ok (w_db w) -> spent id (w_db w) ->
  cut "."%char (cl_RunToken input) = Some (id, secret) ->
  exists e w', consumeParallelRunToken input w = (Err e, w') /\ w_db w' = w_db w.
Proof.
  intros OK (t & I & T & U) C.
  destruct (List.find (claim_scope id input) (run_tokens (w_db w))) as [t'|] eqn:F.
  - assert (t' = t) as ->.
    { pose proof (find_some _ _ F) as [I' S]. apply claim_scope_id in S.
      eapply (NoDup_map_inj t_tokenId); [apply OK|..]; congruence. }
    by eapply consume_spent.
  - destruct (consumeParallelRunToken input w) as [[u|e] w'] eqn:E.
    + apply consume_ok in E as (id' & s' & t' & C' & F' & _). congruence.
    + exists e, w'. split; [done|]. unfold consumeParallelRunToken in E. rewrite C in E.
      case_match; [by injection E as _ <-|]. by apply transaction_err in E.
Qed.

Lemma consume_spends input w u w' :
  consumeParallelRunToken input w = (Ok u, w') ->
  exists id secret, cut "."%char (cl_RunToken input) = Some (id, secret) /\ spent id (w_db w').
Proof.
  intros H. apply consume_marks in H as (id & secret & t & C & F & U).
  exists id, secret. split; [done|]. exists t. apply find_some in F as [I S].
  split; [done|]. split; [by apply claim_scope_id in S|]. by rewrite U.
Qed.

(** A claim that consumes a token fails with it. *)
Lemma claim_refused m input w :
  cl_RunToken input <> "" ->
  (forall w1, tokens_evolve (w_db w) (w_db w1) ->
     exists e w2, consumeParallelRunToken input w1 = (Err e, w2)) ->
  exists e w2, ClaimParallelRun m input w = (Err e, w2).
Proof.
  intros N H. unfold ClaimParallelRun.
  assert (PI : preserves tokens_evolve
    (if cl_IssueWorkerToken input then let! t := issue_worker_token in ret (Some t) else ret None)).
  { unfold issue_worker_token, randomParallelRunTokenPart, generateFromPassword. solve_preserves. }
  specialize (PI w). unfold bind at 1. destruct_after PI as [[a|e] w1]; [|eauto].
  apply String.eqb_neq in N. rewrite N. simpl in PI. destruct (H w1 PI) as (e & w2 & E).
  unfold consume_with_audit, bind, catch. rewrite E. unfold fail.
  destruct (recordParallelRunTokenAudit _ _ _ _ w2) as [[]]; eauto.
Qed.

Lemma claim_consumed m input w run w' :
  ClaimParallelRun m input w = (Ok run, w') -> cl_RunToken input <> "" ->
  exists id secret, cut "."%char (cl_RunToken input) = Some (id, secret) /\ spent id (w_db w').
Proof.
  unfold ClaimParallelRun. intros H N. apply String.eqb_neq in N. rewrite N in H.
  invert_ok H as H1. invert_ok H as H2. unfold consume_with_audit in H2.
  invert_ok H2 as H3. unfold catch in H3. invert_ok H as H4. injection H as _ <-.
  match type of H3 with match ?m with _ => _ end = _ => destruct m as [[[]|e] w5] eqn:E end.
  - injection H3 as _ <-. apply consume_spends in E as (id & secret & C & S).
    exists id, secret. split; [done|].
    pose proof (evolve_claim_audit m input "run_token.consume" "success" w5) as V1.
    pose proof (evolve_claim_transaction input (snd <$> a) w1) as V2.
    rewrite H2 in V1. rewrite H4 in V2. eapply spent_evolve; [exact V2|].
    by eapply spent_evolve; [exact V1|].
  - unfold bind, fail in H3. by destruct (recordParallelRunTokenAudit _ _ _ _ w5) as [[]].
Qed.

Lemma claim_tokens_ok m input w x w' :
  ClaimParallelRun m input w = (x, w') -> tokens_evolve (w_db w) (w_db w').
Proof.
  intros H. pose proof (evolve_perform (OpClaim m input) w) as E. simpl in E.
  unfold forget, bind in E. rewrite H in E. by destruct x.
Qed.

(** A token whose identifier is spent opens no claim, now or later. *)
Lemma spent_claim_refused m id secret input d w :
  tokens_ok d -> spent id d -> rtc (system_step sha256) d (w_db w) ->
  cut "."%char (cl_RunToken input) = Some (id, secret) ->
  exists e w', ClaimParallelRun m input w = (Err e, w') /\
               schedules (w_db w') = schedules (w_db w).
Proof.
  intros OK S R C. apply evolve_system in R.
  destruct (claim_refused m input w) as (e & w' & E).
  - intros E. by rewrite E in C.
  - intros w1 V. assert (V' : tokens_evolve d (w_db w1)) by (by etransitivity).
    destruct (spent_refused id secret input w1) as (e & w2 & E & _); eauto.
    + by apply V'.
    + by eapply spent_evolve.
  - exists e, w'. split; [done|]. by apply claim_err in E as [-> _].
Qed.

(** Claim C32: a run token that opened one claim opens no other: any later claim
    that presents it, by whatever tenant, run or worker and after whatever
    operations, fails and changes no run. *)
Theorem run_token_single_use (m1 m2 : RequestMeta) (input1 input2 : ParallelRunClaim)
  (w1 w1' w2 : world RunTables) (run : ParallelRun) :
  tokens_ok (w_db w1) -> cl_RunToken input1 <> "" ->
  ClaimParallelRun m1 input1 w1 = (Ok run, w1') ->
  rtc (system_step sha256) (w_db w1') (w_db w2) ->
  cl_RunToken input2 = cl_RunToken input1 ->
  exists e w2', ClaimParallelRun m2 input2 w2 = (Err e, w2') /\
                schedules (w_db w2') = schedules (w_db w2).
Proof.
  intros OK N H R T. destruct (claim_consumed _ _ _ _ _ H N) as (id & secret & C & S).
  eapply spent_claim_refused; [|exact S|exact R|by rewrite T].
  by apply (claim_tokens_ok _ _ _ _ _ H).
Qed.

Lemma find_update_revoked P id now l t :
  (forall t t', token_le t t' -> P t' = P t) ->
  List.find P l = Some t -> t_id t = id -> t_revokedAt t = None ->
  List.find P (map (fun t => if (t_id t =? id) && unset (t_revokedAt t)
                             then set_revoked now t else t) l) = Some (set_revoked now t).
Proof.
  intros HP. induction l as [|x l IH]; simpl; [done|].
  assert (Hx : P (if (t_id x =? id) && unset (t_revokedAt x) then set_revoked now x else x) = P x).
  { destruct (_ && _) eqn:E; [|done]. apply HP, token_le_revoked.
    by apply andb_true_iff in E as [_ E]. }
  rewrite Hx. destruct (P x); [|by apply IH].
  intros [= <-] Hid Hu. by rewrite Hid, Z.eqb_refl, Hu.
Qed.

Lemma revoke_spends m t p r id n w v w' :
  RevokeParallelRunToken m t p r id n w = (Ok v, w') -> spent id (w_db w').
Proof.
  unfold RevokeParallelRunToken. intros H. invert_ok H as H1. destruct a as [[agent before] at_].
  invert_ok H as H2. injection H as _ <-. apply exec_ok in H2.
  apply transaction_ok in H1 as (wa & wb & E1 & H1 & E2).
  assert (S : spent id (w_db wb)).
  { invert_ok H1 as H3. apply query_ok in H3 as [-> E3].
    invert_ok H1 as H4. apply not_found_ok in H4 as [F ->].
    match type of F with _ = Some ?y => rename y into tok end.
    assert (T : t_tokenId tok = id).
    { apply find_some in F as [_ F]. unfold token_scope in F.
      rewrite !andb_true_iff, String.eqb_eq in F. tauto. }
    destruct (t_revokedAt tok) as [at0|] eqn:RV.
    - injection H1 as _ _ _ <-. exists tok. rewrite E3. apply find_some in F as [I _].
      rewrite RV, andb_false_r. done.
    - invert_ok H1 as H5. apply exec_ok in H5. injection H1 as _ _ _ <-.
      exists (set_revoked n tok). rewrite H5, E3. split.
      + eapply find_some. apply find_update_revoked; [|exact F|done|done]. apply token_scope_le.
      + simpl. rewrite andb_false_r. done. }
  eapply spent_evolve; [|exact S]. rewrite H2, E2. by apply evolve_same.
Qed.

(** once a run token is revoked, every claim that presents its
    identifier fails, whatever its secret and whatever happened in between. *)
Theorem revoked_token_refused (m1 m2 : RequestMeta) (t p r : Z) (id secret : string) (n : time)
  (v : RunTokenRevoked) (input : ParallelRunClaim) (w1 w1' w2 : world RunTables) :
  tokens_ok (w_db w1) -> RevokeParallelRunToken m1 t p r id n w1 = (Ok v, w1') ->
  rtc (system_step sha256) (w_db w1') (w_db w2) ->
  cut "."%char (cl_RunToken input) = Some (id, secret) ->
  exists e w2', ClaimParallelRun m2 input w2 = (Err e, w2') /\
                schedules (w_db w2') = schedules (w_db w2).
Proof.
  intros OK H R C. pose proof (evolve_revoke m1 t p r id n w1) as V. rewrite H in V.
  eapply spent_claim_refused; [|by eapply revoke_spends|exact R|exact C]. by apply V.
Qed.
End Evolve.

(** ** A fresh token is accepted *)
Section RoundTrip.
Context `{MS : MySQL} `{B : Bcrypt} `{L : !BcryptLaws B}.

Lemma random_part_ok n f (w : world RunTables) s w' :
  randomParallelRunTokenPart n f w = (Ok s, w') ->
  w_db w' = w_db w /\ exists b, String.length b = n /\ s = hexEncode b.
Proof.
  unfold randomParallelRunTokenPart. intros H. invert_ok H as H1. unfold rand_read in H1.
  destruct (w_random w) as [|[b|] rs]; simpl in H1; injection H1 as <- <-; try done.
  destruct (Nat.eqb_spec (String.length b) n); [|done]. injection H as <- <-. eauto.
Qed.

Lemma generate_ok pw f (w : world RunTables) h w' :
  generateFromPassword pw f w = (Ok h, w') ->
  w_db w' = w_db w /\ bcrypt_compare h pw = true /\ h <> "".
Proof.
  unfold generateFromPassword. intros H. invert_ok H as H1. unfold rand_read in H1.
  destruct (w_random w) as [|[b|] rs]; simpl in H1; injection H1 as <- <-; try done.
  destruct (_ ≫= _) as [h'|] eqn:E; [|done]. injection H as <- <-. split; [done|].
  apply bind_Some in E as (salt & _ & E).
  split; [by eapply bcrypt_match|by eapply bcrypt_nonempty].
Qed.

Lemma insert_unique_ok op f (w : world RunTables) u w' :
  insert_unique op f w = (Ok u, w') -> f (w_db w) = Some (w_db w').
Proof.
  unfold insert_unique, bind, round_trip. intros H.
  repeat case_match; simplify_eq/=; done.
Qed.

(** What issuing leaves behind. *)
Lemma issue_ok m t p r agent now ttl w issued w' :
  IssueParallelRunToken m t p r agent now ttl w = (Ok issued, w') ->
  exists row idb secret hash d1,
    select_schedule t p r (w_db w) = Some row /\ String.length secret = 32%nat /\
    i_Token issued = ("idrt_" +:+ hexEncode idb) +:+ "." +:+ hexEncode secret /\
    bcrypt_compare hash (hexEncode secret) = true /\
    insert_token t p (k_id (s_key row)) agent ("idrt_" +:+ hexEncode idb) hash (now + ttl) now
                 (w_db w) = Some d1 /\
    run_tokens (w_db w') = run_tokens d1 /\ next_token (w_db w') = next_token d1.
Proof.
  unfold IssueParallelRunToken. intros H.
  invert_ok H as H1. apply query_ok in H1 as [-> E1].
  invert_ok H as H2. apply not_found_ok in H2 as [S ->].
  invert_ok H as H3. apply random_part_ok in H3 as [E3 (idb & _ & ->)].
  invert_ok H as H4. apply random_part_ok in H4 as [E4 (secret & LS & ->)].
  invert_ok H as H5. apply generate_ok in H5 as (E5 & BC & _).
  invert_ok H as H6. apply insert_unique_ok in H6.
  invert_ok H as H7. apply exec_ok in H7. injection H as <- <-.
  eexists _, idb, secret, _, _. split; [exact S|]. split; [done|]. split; [done|].
  split; [exact BC|]. rewrite E5, E4, E3, E1 in H6. split; [exact H6|]. by rewrite H7.
Qed.

Lemma slen_hex b : slen (hexEncode b) = 2 * Z.of_nat (String.length b).
Proof. unfold slen. rewrite hexEncode_length. lia. Qed.

Lemma no_dot_id b : ~ In "."%char (chars ("idrt_" +:+ hexEncode b)).
Proof.
  rewrite chars_app. rewrite in_app_iff. intros [H|H].
  - simpl in H. intuition discriminate.
  - revert H. by apply hexEncode_no.
Qed.

Lemma find_last {A} (P : A -> bool) l x :
  Forall (fun y => P y = false) l -> P x = true -> List.find P (l ++ [x]) = Some x.
Proof. intros F Hx. induction F as [|y l Hy _ IH]; simpl; [by rewrite Hx|by rewrite Hy]. Qed.

Lemma filter_last {A} (P : A -> bool) l x :
  Forall (fun y => P y = false) l -> P x = true -> List.filter P (l ++ [x]) = [x].
Proof. intros F Hx. induction F as [|y l Hy _ IH]; simpl; [by rewrite Hx|by rewrite Hy]. Qed.

(** a run token that was just issued to an agent opens that agent's
    claim of that run until it expires. *)
Theorem issued_token_accepted (m : RequestMeta) (t p r : Z) (agent : string) (now : time)
  (ttl : Z) (w w' : world RunTables) (issued : RunTokenIssued) (input : ParallelRunClaim)
  (random : list (option string)) :
  db_ok (w_db w) -> tokens_ok (w_db w) ->
  IssueParallelRunToken m t p r agent now ttl w = (Ok issued, w') ->
  cl_TenantID input = t -> cl_ProjectID input = p -> cl_RunID input = r ->
  cl_WorkerID input = agent -> cl_RunToken input = i_Token issued -> cl_Now input < now + ttl ->
  exists d', consumeParallelRunToken input (World (w_db w') [] random)
             = (Ok tt, World d' [] random).
Proof.
  intros OK TOK H T P R A TK N.
  apply issue_ok in H as (row & idb & secret & hash & d1 & S & LS & E & BC & I & RT & NT).
  apply select_schedule_spec in S as (Lk & _ & _). apply (ok_ids _ OK) in Lk as [Kid _].
  unfold insert_token in I. case_match eqn:Fresh; [done|]. injection I as <-. simpl in RT, NT.
  set (new := {| t_id := next_token (w_db w) |}) in *.
  unfold consumeParallelRunToken. rewrite TK, E, cut_app by apply no_dot_id.
  assert (PS : negb (hasPrefix ("idrt_" +:+ hexEncode idb) "idrt_") || String.eqb (hexEncode secret) "" = false).
  { apply orb_false_iff. split; [done|]. apply String.eqb_neq. intros X.
    pose proof (slen_hex secret) as Y. rewrite X, LS in Y. done. }
  rewrite PS.
  assert (F : List.find (claim_scope ("idrt_" +:+ hexEncode idb) input) (run_tokens (w_db w')) = Some new).
  { rewrite RT. apply find_last.
    - apply List.Forall_forall. intros x Hx. apply not_true_iff_false. intros Y%claim_scope_id.
      apply not_true_iff_false in Fresh. apply Fresh, existsb_exists. exists x.
      split; [done|]. by apply String.eqb_eq.
    - unfold claim_scope, token_scope. subst new. simpl. rewrite T, P, R, A, Kid.
      by rewrite !Z.eqb_refl, !String.eqb_refl. }
  eexists. apply eval_transaction.
  erewrite eval_bind; [|apply eval_query]. unfold claim_scope in F. rewrite F.
  erewrite eval_bind; [|apply eval_guard_true].
  2:{ unfold token_usable, after. subst new. simpl. rewrite BC, andb_true_r.
      by apply Z.ltb_lt. }
  erewrite eval_bind; [|apply eval_exec_count]. apply eval_guard_true.
  unfold update_tokens. cbn [snd]. rewrite RT, filter_last; [done|..].
  - eapply Forall_impl; [apply TOK|]. intros x Hx. simpl in *. subst new. simpl.
    by destruct (Z.eqb_spec (t_id x) (next_token (w_db w))); [lia|].
  - subst new. simpl. by rewrite Z.eqb_refl.
Qed.
End RoundTrip.

(** ** A token issued to worker w1 of the sample run *)
Definition sample_random : list (option string) :=
  [Some "twelve bytes"; Some "thirty-two bytes of a secret ..!"; Some "sixteen byte sal"].

Definition issue_sample : outcome RunTokenIssued * world RunTables :=
  IssueParallelRunToken sample_meta 7 1 1 "w1" noon (10 * minute) (World (one_run 1) [] sample_random).

Definition token_tables : RunTables := w_db (snd issue_sample).

Definition sample_token : string :=
  match fst issue_sample with Ok issued => i_Token issued | Err _ => "" end.

Definition token_claim (worker : string) (now : time) : ParallelRunClaim :=
  {| cl_TenantID := 7; cl_ActorUserID := None; cl_ActorTenantID := 7; cl_ProjectID := 1;
     cl_RunID := 1; cl_WorkerID := worker; cl_Capabilities := []; cl_CapabilitiesSet := false;
     cl_RunToken := sample_token; cl_CertificateHash := ""; cl_IssueWorkerToken := false;
     cl_Now := now |}.

Lemma token_tables_ok : tokens_ok token_tables.
Proof.
  vm_compute. split; simpl; [repeat constructor; tauto..|]. by repeat constructor.
Qed.

Lemma one_run_ok n : db_ok (one_run n).
Proof.
  apply (fixture_ok fresh_tables [OpCreate (sample_create "nightly" n) None]);
    [by repeat constructor|done].
Qed.

Lemma issued_token_accepted_witness :
  exists issued w' d', issue_sample = (Ok issued, w') /\
    consumeParallelRunToken (token_claim "w1" noon) (World (w_db w') [] []) = (Ok tt, World d' [] []).
Proof.
  destruct issue_sample as [[issued|e] w'] eqn:E; [|vm_compute in E; discriminate].
  destruct (issued_token_accepted sample_meta 7 1 1 "w1" noon (10 * minute)
              (World (one_run 1) [] sample_random) w' issued (token_claim "w1" noon) [])
    as [d' H]; [exact (one_run_ok 1)| |exact E|reflexivity..| | |].
  - vm_compute. split; constructor.
  - cbn [cl_RunToken token_claim]. unfold sample_token. rewrite E. reflexivity.
  - reflexivity.
  - exists issued, w', d'. split; [reflexivity|exact H].
Defined.

Lemma run_token_single_use_witness :
  exists run w' e w'',
    ClaimParallelRun sample_meta (token_claim "w1" noon) (World token_tables [] []) = (Ok run, w') /\
    ClaimParallelRun sample_meta (token_claim "w1" noon) (World (w_db w') [] []) = (Err e, w'').
Proof.
  destruct (ClaimParallelRun sample_meta (token_claim "w1" noon) (World token_tables [] []))
    as [[run|e] w'] eqn:E; [|vm_compute in E; discriminate].
  destruct (run_token_single_use plain_sha256 sample_meta sample_meta (token_claim "w1" noon)
              (token_claim "w1" noon) (World token_tables [] []) w' (World (w_db w') [] []) run)
    as (e & w'' & H & _);
    [exact token_tables_ok|vm_compute; discriminate|exact E|apply rtc_refl|reflexivity|].
  exists run, w', e, w''. split; [reflexivity|exact H].
Defined.

Definition sample_token_id : string := "idrt_" +:+ hexEncode "twelve bytes".

Lemma revoked_token_refused_witness :
  exists v w' e w'',
    RevokeParallelRunToken sample_meta 7 1 1 sample_token_id noon (World token_tables [] []) = (Ok v, w') /\
    ClaimParallelRun sample_meta (token_claim "w1" noon) (World (w_db w') [] []) = (Err e, w'').
Proof.
  destruct (RevokeParallelRunToken sample_meta 7 1 1 sample_token_id noon (World token_tables [] []))
    as [[v|e] w'] eqn:E; [|vm_compute in E; discriminate].
  destruct (revoked_token_refused plain_sha256 sample_meta sample_meta 7 1 1 sample_token_id
              (hexEncode "thirty-two bytes of a secret ..!") noon v (token_claim "w1" noon)
              (World token_tables [] []) w' (World (w_db w') [] [])) as (e & w'' & H & _);
    [exact token_tables_ok|exact E|apply rtc_refl|vm_compute; reflexivity|].
  exists v, w', e, w''. split; [reflexivity|exact H].
Defined.

(** ** What is audited *)
Definition redacted_members (v : option json) : bool :=
  match v with
  | None => true
  | Some (JObj d) =>
      forallb (fun kv => existsb (String.eqb (fst kv)) ["agentId"; "expiresAt"; "revokedAt"]
                         || (existsb (String.eqb (fst kv)) ["token"; "tokenId"]
                             && json_eqb (snd kv) redactedText)) d
  | Some _ => false
  end.

Definition audit_redacted (e : AuditRow) : bool :=
  redacted_members (e_beforeValues e) && redacted_members (e_afterValues e).

(** New audit records are appended, all of them redacted. *)
Definition audits_grow (d d' : RunTables) : Prop :=
  exists new, audit_events d' = (audit_events d ++ new)%list /\
              Forall (fun e => audit_redacted e = true) new.

#[export] Instance audits_grow_refl : Reflexive audits_grow.
Proof. intros d. exists []. by rewrite app_nil_r. Qed.

#[export] Instance audits_grow_trans : Transitive audits_grow.
Proof.
  intros d1 d2 d3 (n1 & E1 & F1) (n2 & E2 & F2). exists (n1 ++ n2)%list.
  rewrite E2, E1, app_assoc. split; [done|]. by apply Forall_app.
Qed.

Section Audits.
Context `{MS : MySQL} `{B : Bcrypt} (sha256 : string -> string).

Lemma audits_same d d' : audit_events d' = audit_events d -> audits_grow d d'.
Proof. intros E. exists []. by rewrite E, app_nil_r. Qed.

Lemma audits_add op e : audit_redacted e = true -> preserves audits_grow (exec op (add_audit e)).
Proof. intros H. apply preserves_exec; [apply _..|]. intros d. exists [e]. by repeat constructor. Qed.

Lemma audits_schedule op t p r f : preserves audits_grow (exec op (update_schedule t p r f)).
Proof.
  apply preserves_exec; [apply _..|]. intros d. unfold update_schedule.
  case_match; [by apply audits_same|reflexivity].
Qed.

Lemma audits_insert_schedule input key m d : audits_grow d (fst (insert_schedule input key m d)).
Proof.
  unfold insert_schedule. destruct (List.find _ _) as [[]|]; [reflexivity|]. by apply audits_same.
Qed.

Lemma audits_not_found {A} (o : option A) : preserves audits_grow (parallelRunNotFound o).
Proof. unfold parallelRunNotFound. solve_preserves. Qed.

Lemma audits_tokens id c f d : audits_grow d (fst (update_tokens id c f d)).
Proof. by apply audits_same. Qed.

Lemma audits_insert_token t p r a i h e n d d' :
  insert_token t p r a i h e n d = Some d' -> audits_grow d d'.
Proof. unfold insert_token. case_match; intros [= <-]. by apply audits_same. Qed.

Lemma audits_claim m input a r : preserves audits_grow (recordParallelRunTokenAudit m input a r).
Proof. by apply audits_add. Qed.

#[local] Hint Resolve audits_schedule audits_insert_schedule audits_not_found audits_tokens
  audits_insert_token audits_claim : effects.

Lemma audits_issue m t p r a n ttl : preserves audits_grow (IssueParallelRunToken m t p r a n ttl).
Proof.
  unfold IssueParallelRunToken, randomParallelRunTokenPart, generateFromPassword.
  solve_preserves. by apply audits_add.
Qed.

(** The revocation record names the dates and redacts the identifier. *)
Lemma audits_revoke m t p r i n : preserves audits_grow (RevokeParallelRunToken m t p r i n).
Proof.
  intros w. unfold RevokeParallelRunToken.
  set (tx := transaction _ _ _).
  assert (PT : preserves audits_grow tx) by (subst tx; solve_preserves).
  specialize (PT w). unfold bind at 1. destruct (tx w) as [[[[agent before] at_]|e] w1] eqn:E; [|done].
  assert (BF : redacted_members (Some (JObj before)) = true).
  { subst tx. apply transaction_ok in E as (wa & wb & _ & H & _).
    invert_ok H as H1. invert_ok H as H2. case_match.
    - by injection H as _ <- _ _.
    - invert_ok H as H3. by injection H as _ <- _ _. }
  etransitivity; [exact PT|]. clear E. revert w1 PT. intros w1 _.
  match goal with |- audits_grow _ (w_db (snd (?k _))) => enough (P : preserves audits_grow k) by apply P end.
  apply preserves_bind; [apply _..| |intros; apply preserves_ret; apply _].
  apply audits_add. unfold audit_redacted. cbn [e_beforeValues e_afterValues fmap option_fmap option_map].
  by rewrite BF.
Qed.

#[local] Hint Resolve audits_issue audits_revoke : effects.

(** no operation on runs or tokens writes an audit record with a
    token identifier or a token in it: those members are [REDACTED], and what
    else is recorded is the agent and the dates. *)
Theorem audits_are_redacted (o : op) (w : world RunTables) :
  exists new, audit_events (db_after (perform sha256 o) w) = (audit_events (w_db w) ++ new)%list /\
              Forall (fun e => audit_redacted e = true) new.
Proof.
  enough (P : preserves audits_grow (perform sha256 o)) by apply P.
  destruct o; unfold perform, forget, ClaimParallelRun, issue_worker_token, consume_with_audit,
    consumeParallelRunToken, claim_transaction, validateParallelRunAgent, UpdateRunnerWorker,
    HeartbeatParallelRunWorker, CancelParallelRun, createParallelRuns,
    ensureParallelRunProjectAndCycle, parallelRunExecutionSnapshot, snapshot_item,
    latestParallelAssetVersion, create_one, randomParallelRunTokenPart, generateFromPassword,
    GetParallelRun, getParallelRun, ListParallelRuns, ValidateWorkerToken, ensureProject; solve_preserves.
Qed.

End Audits.

Section AuditSecrecy.
Context `{MS : MySQL} `{B : Bcrypt} `{L : !BcryptLaws B}.

(** the audit trail of issuing a token is the same whatever the
    random source returned: it carries no information about the token. *)
Theorem issue_audit_independent_of_secret (m : RequestMeta) (t p r : Z) (agent : string)
  (now : time) (ttl : Z) (w1 w2 w1' w2' : world RunTables) (i1 i2 : RunTokenIssued) :
  w_db w1 = w_db w2 ->
  IssueParallelRunToken m t p r agent now ttl w1 = (Ok i1, w1') ->
  IssueParallelRunToken m t p r agent now ttl w2 = (Ok i2, w2') ->
  audit_events (w_db w1') = audit_events (w_db w2') /\ i_ExpiresAt i1 = i_ExpiresAt i2.
Proof.
  assert (K : forall w i w', IssueParallelRunToken m t p r agent now ttl w = (Ok i, w') ->
    audit_events (w_db w') = (audit_events (w_db w) ++
      [{| e_actorUserId := None; e_actorTenantId := t; e_activeTenantId := t; e_idProject := p;
          e_action := "run_token.issue"; e_targetType := "parallel_run_schedule"; e_targetId := r;
          e_beforeValues := None;
          e_afterValues := Some (JObj [("agentId", JStr agent);
               ("expiresAt", JStr (parallelRunISOString (now + ttl)));
               ("token", redactedText); ("tokenId", redactedText)]);
          e_result := "success"; e_sourceIp := m_sourceIP m;
          e_correlationId := m_correlationID m |}])%list /\
    i_ExpiresAt i = parallelRunISOString (now + ttl)).
  { intros w i w' H. unfold IssueParallelRunToken in H.
    invert_ok H as H1. apply query_ok in H1 as [-> E1].
    invert_ok H as H2. apply not_found_ok in H2 as [S ->].
    invert_ok H as H3. apply random_part_ok in H3 as [E3 _].
    invert_ok H as H4. apply random_part_ok in H4 as [E4 _].
    invert_ok H as H5. apply generate_ok in H5 as [E5 _].
    invert_ok H as H6. apply insert_unique_ok in H6.
    invert_ok H as H7. apply exec_ok in H7. injection H as <- <-. split; [|done].
    rewrite H7. simpl. f_equal. unfold insert_token in H6. case_match; [done|].
    injection H6 as <-. simpl. congruence. }
  intros E H1 H2. apply K in H1 as [-> ->], H2 as [-> ->]. by rewrite E.
Qed.
End AuditSecrecy.

Lemma issue_audit_independent_of_secret_witness :
  exists i1 w1 i2 w2,
    issue_sample = (Ok i1, w1) /\
    IssueParallelRunToken sample_meta 7 1 1 "w1" noon (10 * minute)
      (World (one_run 1) [] [Some "other bytes."; Some "another secret of thirty-two byt"; Some "sixteen byte sal"])
    = (Ok i2, w2) /\ audit_events (w_db w1) = audit_events (w_db w2).
Proof.
  destruct issue_sample as [[i1|e] w1] eqn:E1; [|vm_compute in E1; discriminate].
  destruct (IssueParallelRunToken sample_meta 7 1 1 "w1" noon (10 * minute)
      (World (one_run 1) [] [Some "other bytes."; Some "another secret of thirty-two byt"; Some "sixteen byte sal"]))
    as [[i2|e] w2] eqn:E2; [|vm_compute in E2; discriminate].
  exists i1, w1, i2, w2. split; [reflexivity|]. split; [reflexivity|].
  exact (proj1 (issue_audit_independent_of_secret sample_meta 7 1 1 "w1" noon (10 * minute)
           (World (one_run 1) [] sample_random)
           (World (one_run 1) [] [Some "other bytes."; Some "another secret of thirty-two byt";
                                  Some "sixteen byte sal"])
           w1 w2 i1 i2 eq_refl E1 E2)).
Defined.

(** ** Worker tokens *)
Section WorkerTokens.
Context `{MS : MySQL} `{B : Bcrypt} `{L : !BcryptLaws B}.

Lemma issue_worker_ok w th w' :
  issue_worker_token w = (Ok th, w') ->
  fst th <> "" /\ snd th <> "" /\ bcrypt_compare (snd th) (fst th) = true.
Proof.
  unfold issue_worker_token. intros H. invert_ok H as H1. apply random_part_ok in H1 as [_ (b & _ & ->)].
  invert_ok H as H2. apply generate_ok in H2 as (_ & C & N). by injection H as <- <-.
Qed.

(** The token members of a claimed worker. *)
Lemma claimed_token input e h :
  jidx (claimed_worker input e (Some h)) "workerTokenHash" = JStr h /\
  jidx (claimed_worker input e (Some h)) "workerTokenExpiresAt"
  = JStr (parallelRunISOString (cl_Now input + lease)).
Proof. unfold claimed_worker. split; by jidx_simpl. Qed.

Lemma claimed_running input e h :
  four_digit_year (cl_Now input + lease) = true ->
  recalculate_worker (cl_Now input) (JObj (claimed_worker input e h))
  = ("running", JObj (claimed_worker input e h)).
Proof.
  intros Y. rewrite (recalculate_leased _ _ (cl_Now input + lease)); [|..|done].
  - unfold lease. by rewrite renewal_not_expired.
  - unfold claimed_worker. destruct h; by jidx_simpl.
  - unfold claimed_worker. destruct h; by jidx_simpl.
Qed.

(** the worker token that a claim returns is accepted for that worker
    until its deadline, 120 seconds after the claim, and refused from then on. *)
Theorem worker_token_lifetime (m : RequestMeta) (input : ParallelRunClaim)
  (w w' : world RunTables) (run : ParallelRun) (now : time) (random : list (option string)) :
  ClaimParallelRun m input w = (Ok run, w') -> cl_IssueWorkerToken input = true ->
  four_digit_year (cl_Now input + lease) = true ->
  result_of (ValidateWorkerToken (cl_TenantID input) (cl_ProjectID input) (cl_RunID input)
               (cl_WorkerID input) (r_WorkerToken run) now) (World (w_db w') [] random)
  = if now <? truncate_micros (cl_Now input + lease) then Ok tt else Err ErrWorkerTokenInvalid.
Proof.
  intros H I Y.
  apply claim_run_ok in H as (row & ws & hash & S & D & T & G & E & tk & -> & -> & K).
  destruct (K I) as ([token h] & wa & wb & -> & IW). apply issue_worker_ok in IW as (N & HN & C).
  simpl in *. unfold result_of, ValidateWorkerToken. apply String.eqb_neq in N. rewrite N.
  erewrite eval_bind; [|apply eval_query].
  assert (S' : select_schedule (cl_TenantID input) (cl_ProjectID input) (cl_RunID input) (w_db w')
               = Some (claim_row input ws (Some h) row)).
  { unfold select_schedule. rewrite E. apply update_schedule_select; [done|].
    unfold claim_row. by rewrite recalculate_eq. }
  rewrite S'. change (gm_read _) with (ws_of (claim_row input ws (Some h) row)).
  rewrite ws_claim_row, jidx_updated by (rewrite dget_dset_eq; by eexists).
  rewrite jidx_dset_eq, claimed_running by done. cbn [snd as_obj].
  destruct (claimed_token input (as_obj (jidx ws (cl_WorkerID input))) h) as [-> ->].
  rewrite !str_or_empty_str. unfold parallelRunISOString. rewrite parse_format_micros by done.
  apply String.eqb_neq in HN. unfold after. simpl in HN, C. rewrite HN, C. simpl.
  by destruct (now <? _).
Qed.
End WorkerTokens.

Definition worker_token_claim : ParallelRunClaim :=
  {| cl_TenantID := 7; cl_ActorUserID := None; cl_ActorTenantID := 7; cl_ProjectID := 1;
     cl_RunID := 1; cl_WorkerID := "w2"; cl_Capabilities := []; cl_CapabilitiesSet := false;
     cl_RunToken := ""; cl_CertificateHash := ""; cl_IssueWorkerToken := true;
     cl_Now := noon |}.

Lemma worker_token_lifetime_witness :
  exists run w',
    ClaimParallelRun sample_meta worker_token_claim
      (World (busy_run 2) [] [Some "thirty-two bytes of a secret ..!"; Some "sixteen byte sal"])
    = (Ok run, w') /\
    result_of (ValidateWorkerToken 7 1 1 "w2" (r_WorkerToken run) (noon + 119 * second))
              (World (w_db w') [] []) = Ok tt.
Proof.
  destruct (ClaimParallelRun sample_meta worker_token_claim
      (World (busy_run 2) [] [Some "thirty-two bytes of a secret ..!"; Some "sixteen byte sal"]))
    as [[run|e] w'] eqn:E; [|vm_compute in E; discriminate].
  exists run, w'. split; [reflexivity|].
  exact (worker_token_lifetime sample_meta worker_token_claim _ w' run (noon + 119 * second) [] E
           eq_refl eq_refl).
Defined.

(** ** What the API shows of a worker *)
Definition token_free (worker : dict json) : Prop :=
  dget "workerTokenHash" worker = None /\ dget "workerTokenExpiresAt" worker = None.

Lemma public_worker_hides k (v : dict json) : token_free (public_worker k v).
Proof.
  unfold public_worker. assert (H : token_free [("workerId", JStr k)]) by done.
  revert H. generalize [("workerId", JStr k)].
  induction v as [|[j x] v IH]; intros acc H; cbn [fold_left fst snd]; [done|].
  apply IH. destruct (String.eqb_spec j "workerTokenHash"); [done|].
  destruct (String.eqb_spec j "workerTokenExpiresAt"); [done|]. simpl.
  split; rewrite dget_dset_ne by done; apply H.
Qed.

(** no run shown by the API carries a worker's token hash or its
    deadline, whatever the stored worker states are. *)
Theorem scan_hides_worker_tokens (row : Schedule) :
  Forall token_free (r_Workers (scanParallelRun row)).
Proof.
  apply Forall_forall. intros worker H. simpl in H.
  apply list_elem_of_omap in H as ([k v] & _ & H). simpl in H.
  apply fmap_Some in H as (o & _ & ->). apply public_worker_hides.
Qed.
