(* ===== verification/CreateTheorems.v ===== *)
(** * Theorems about creating runs

    Creation is idempotent under its key, a matrix expands to every combination
    of its axes exactly once, stored metadata carries no secret, and a list shows
    the caller's project only. *)

From stdpp Require Import sorting.
From S2P Require Import Prelude GoStrings GoTime Json Redaction Effects Runs RunTables.
From S2P Require Import RunTokens RunOps RunCreate RunMachine RunSafety RunTheorems RunLeases.

(** ** Idempotence *)
Section Idempotence.
Context `{MS : MySQL} `{B : Bcrypt} (sha256 : string -> string).

Definition key_of (input : ParallelRunCreate) (c : option (dict string)) : string :=
  match c with
  | Some c => parallelMatrixIdempotencyKey sha256 (p_IdempotencyKey input) c
  | None => p_IdempotencyKey input
  end.

(** A row of the request's owner with the key of combination [c], and its run. *)
Definition stored (input : ParallelRunCreate) (d : RunTables) (ic : Z * option (dict string))
  (run : ParallelRun) : Prop :=
  exists id row, schedules d !! id = Some row /\ r_ID run = k_id (s_key row) /\
    has_key (p_TenantID input) (p_ProjectID input) (key_of input (snd ic)) row = true.

Definition present (input : ParallelRunCreate) (d : RunTables) (ic : Z * option (dict string)) : Prop :=
  exists id row, schedules d !! id = Some row /\
    has_key (p_TenantID input) (p_ProjectID input) (key_of input (snd ic)) row = true.

Lemma insert_schedule_has input key m d d' id :
  insert_schedule input key m d = (d', id) ->
  exists row, schedules d' !! id = Some row /\
              has_key (p_TenantID input) (p_ProjectID input) key row = true.
Proof.
  unfold insert_schedule. destruct (List.find _ _) as [[j row]|] eqn:F; intros [= <- <-].
  - apply find_some in F as [I H]. apply list_elem_of_In, elem_of_map_to_list in I. eauto.
  - simpl. rewrite lookup_insert_eq. eexists. split; [done|].
    unfold has_key, owned. simpl. by rewrite !Z.eqb_refl, String.eqb_refl.
Qed.

Lemma insert_schedule_known input key m d id row :
  schedules d !! id = Some row ->
  has_key (p_TenantID input) (p_ProjectID input) key row = true ->
  fst (insert_schedule input key m d) = d.
Proof.
  intros L H. unfold insert_schedule.
  destruct (List.find _ _) as [[j r]|] eqn:F; [done|].
  apply elem_of_map_to_list, list_elem_of_In in L.
  apply (List.find_none _ _ F) in L. simpl in L. congruence.
Qed.

(** One turn of the loop, without its metadata. *)
Lemma create_one_ok input snap total ic w run w' :
  create_one sha256 input snap total ic w = (Ok run, w') ->
  stored input (w_db w') ic run /\
  (present input (w_db w) ic -> w_db w' = w_db w).
Proof.
  unfold create_one. destruct ic as [i c].
  set (mk := match c with Some _ => _ | None => _ end).
  assert (K : snd mk = key_of input c) by (by destruct c).
  destruct mk as [m key]. simpl in K. subst key. intros H.
  invert_ok H as H1. apply exec_count_ok in H1. apply get_run_ok in H as [E (row & S & ->)].
  destruct (insert_schedule_has _ _ _ _ _ _ H1) as (row' & L & HK).
  apply select_schedule_spec in S as (L' & _). rewrite L in L'. injection L' as ->.
  split.
  - exists a, row. by rewrite E.
  - intros (id & row2 & L2 & K2). cbn [snd] in K2. pose proof (insert_schedule_known _ _ (JObj m) _ _ _ L2 K2) as X.
    rewrite H1 in X. simpl in X. congruence.
Qed.

Lemma rows_kept_create_one input snap total ic :
  preserves rows_kept (create_one sha256 input snap total ic).
Proof. unfold create_one, getParallelRun. solve_preserves. Qed.

Lemma stored_kept input d d' ic run :
  rows_kept d d' -> next_ok d -> stored input d ic run -> stored input d' ic run.
Proof. intros R N (id & row & L & E & H). destruct (R N) as [_ K]. exists id, row. auto. Qed.

Lemma stored_present input d ic run : stored input d ic run -> present input d ic.
Proof. intros (id & row & L & _ & H). exists id, row. auto. Qed.

Lemma mapM_create_ok input snap total ics w runs w' :
  next_ok (w_db w) ->
  mapM (create_one sha256 input snap total) ics w = (Ok runs, w') ->
  Forall2 (stored input (w_db w')) ics runs /\
  (Forall (present input (w_db w)) ics -> w_db w' = w_db w).
Proof.
  revert w runs w'. induction ics as [|ic ics IH]; intros w runs w' N H; simpl in H.
  { injection H as <- <-. split; [constructor|done]. }
  invert_ok H as H1. invert_ok H as H2. injection H as <- <-.
  pose proof (rows_kept_create_one input snap total ic w) as R. rewrite H1 in R. simpl in R.
  destruct (R N) as [N1 _].
  destruct (create_one_ok _ _ _ _ _ _ _ H1) as [S P].
  destruct (IH _ _ _ N1 H2) as [F Q]. split.
  - constructor; [|done].
    assert (R2 : preserves rows_kept (mapM (create_one sha256 input snap total) ics))
      by (apply preserves_mapM; [apply _..|]; apply rows_kept_create_one).
    specialize (R2 w0). rewrite H2 in R2. by eapply stored_kept.
  - intros A. inversion A as [|? ? A1 A2]; subst. rewrite Q, P; [done|done|].
    by rewrite (P A1).
Qed.

(** Two requests under the same key. *)
Definition same_request (input input' : ParallelRunCreate) : Prop :=
  p_TenantID input' = p_TenantID input /\ p_ProjectID input' = p_ProjectID input /\
  p_IdempotencyKey input' = p_IdempotencyKey input.

Lemma stored_later input input' d d' ic run :
  same_request input input' -> keys_kept d d' -> stored input d ic run -> stored input' d' ic run.
Proof.
  intros (T & P & I) K (id & row & L & E & H). destruct (K id row L) as (row' & L' & E').
  exists id, row'. rewrite E'. split; [done|]. split; [done|].
  unfold has_key, owned, key_of in *. by rewrite E', T, P, I.
Qed.

Lemma stored_same_id input d ic run1 run2 :
  db_ok d -> stored input d ic run1 -> stored input d ic run2 -> r_ID run1 = r_ID run2.
Proof.
  intros OK (i1 & x & L1 & -> & K1) (i2 & y & L2 & -> & K2).
  assert (i1 = i2) as ->; [|congruence].
  eapply (ok_unique _ OK); [done..|]. unfold has_key, owned in *.
  rewrite !andb_true_iff, !Z.eqb_eq, !String.eqb_eq in *. unfold same_key. intuition congruence.
Qed.

Lemma Forall2_same_ids input d ics runs1 runs2 :
  db_ok d -> Forall2 (stored input d) ics runs1 -> Forall2 (stored input d) ics runs2 ->
  map r_ID runs1 = map r_ID runs2.
Proof.
  intros OK F. revert runs2. induction F as [|ic x ics l S F IH]; intros runs2 G;
    inversion G; subst; [done|]. simpl. f_equal; [by eapply stored_same_id|by apply IH].
Qed.

Lemma gate_db input w snap w' :
  (let! _ := ensureParallelRunProjectAndCycle input in
   parallelRunExecutionSnapshot (p_TenantID input) (p_TestCycleID input)) w = (Ok snap, w') ->
  w_db w' = w_db w.
Proof.
  intros H. assert (P : preserves eq (let! _ := ensureParallelRunProjectAndCycle input in
     parallelRunExecutionSnapshot (p_TenantID input) (p_TestCycleID input))).
  { unfold ensureParallelRunProjectAndCycle, parallelRunExecutionSnapshot, snapshot_item,
      latestParallelAssetVersion, parallelRunNotFound. solve_preserves. }
  specialize (P w). rewrite H in P. by symmetry.
Qed.

Lemma create_runs_ok input c w runs w' :
  next_ok (w_db w) -> createParallelRuns sha256 input c w = (Ok runs, w') ->
  let ics := imap (fun i c => (Z.of_nat i, c)) (match c with Some l => map Some l | None => [None] end) in
  Forall2 (stored input (w_db w')) ics runs /\
  (Forall (present input (w_db w)) ics -> w_db w' = w_db w).
Proof.
  unfold createParallelRuns. intros N H. apply transaction_ok in H as (w1 & w2 & E1 & H & E2).
  rewrite E2, <- E1. rewrite <- E1 in N.
  invert_ok H as H1. invert_ok H as H2.
  assert (E3 : w_db w3 = w_db w1) by (apply (gate_db input w1 a0 w3); unfold bind; by rewrite H1).
  rewrite <- E3. rewrite <- E3 in N. simpl.
  destruct c; by apply mapM_create_ok in H.
Qed.

(** Claim C34: creating runs again under the same idempotency key, for the same tenant,
    project and combinations, changes nothing at all and returns the same runs: however
    much later, whatever operations on runs happened in between (claims, cancellations,
    other creations, failures), and with whatever time, test cycle, concurrency and metadata
    the second request comes. *)
Theorem create_idempotent (input input' : ParallelRunCreate) (c : option (list (dict string)))
  (w w1 w2 w3 : world RunTables) (runs runs' : list ParallelRun) :
  db_ok (w_db w) -> createParallelRuns sha256 input c w = (Ok runs, w1) ->
  rtc (system_step sha256) (w_db w1) (w_db w2) -> same_request input input' ->
  createParallelRuns sha256 input' c w2 = (Ok runs', w3) ->
  w_db w3 = w_db w2 /\ map r_ID runs' = map r_ID runs.
Proof.
  intros OK H1 R SR H2.
  assert (OK1 : db_ok (w_db w1)).
  { eapply steps_ok; [|exact OK]. pose proof (steps_create sha256 input c w) as S.
    rewrite H1 in S. exact S. }
  pose proof (system_steps_ok sha256 _ _ R OK1) as OK2.
  pose proof (system_steps_keys sha256 _ _ R OK1) as K2.
  apply create_runs_ok in H1 as [F1 _]; [|by apply db_next_ok].
  apply create_runs_ok in H2 as [F2 K]; [|by apply db_next_ok].
  assert (F3 : Forall2 (stored input' (w_db w2))
                 (imap (fun i c => (Z.of_nat i, c)) (match c with Some l => map Some l | None => [None] end)) runs)
    by (eapply Forall2_impl; [exact F1|]; intros ic run; by apply stored_later).
  assert (E3 : w_db w3 = w_db w2).
  { apply K. clear F2 K F1. induction F3; constructor; [|done]. by eapply stored_present. }
  split; [done|]. rewrite E3 in F2. by eapply Forall2_same_ids.
Qed.
End Idempotence.

(** The second request comes a day later, with another concurrency and other metadata, when
    a worker has claimed the first of the runs. *)
Definition later_create : ParallelRunCreate :=
  {| p_TenantID := 7; p_ProjectID := 1; p_TestCycleID := 5; p_IdempotencyKey := "nightly";
     p_RequestedConcurrency := 9; p_Metadata := [("branch", JStr "main")]; p_Now := noon + 86400 * second |}.

Lemma create_idempotent_witness :
  exists runs w1 runs' w3,
    createParallelRuns plain_sha256 (sample_create "nightly" 2)
      (Some [[("browser", "firefox")]; [("browser", "chrome")]]) (World fresh_tables [] []) = (Ok runs, w1) /\
    let d2 := play (w_db w1) [OpClaim sample_meta (sample_claim "w1" noon)] in
    d2 <> w_db w1 /\
    createParallelRuns plain_sha256 later_create
      (Some [[("browser", "firefox")]; [("browser", "chrome")]]) (World d2 [] []) = (Ok runs', w3) /\
    w_db w3 = d2 /\ map r_ID runs' = map r_ID runs.
Proof.
  set (c := Some [[("browser", "firefox")]; [("browser", "chrome")]]).
  destruct (createParallelRuns plain_sha256 (sample_create "nightly" 2) c (World fresh_tables [] []))
    as [[runs|e] w1] eqn:E1; [|vm_compute in E1; discriminate].
  set (d2 := play (w_db w1) [OpClaim sample_meta (sample_claim "w1" noon)]).
  destruct (createParallelRuns plain_sha256 later_create c (World d2 [] []))
    as [[runs'|e] w3] eqn:E2;
    [|exfalso; vm_compute in E1; injection E1 as <- <-; vm_compute in E2; discriminate].
  exists runs, w1, runs', w3. split; [reflexivity|]. split.
  { intros X. apply (f_equal (fun d => s_activeWorkers <$> schedules d !! 1)) in X.
    vm_compute in E1. injection E1 as <- <-. vm_compute in X. discriminate. }
  split; [exact E2|].
  apply (create_idempotent plain_sha256 (sample_create "nightly" 2) later_create c (World fresh_tables [] []) w1
           (World d2 [] []) w3 runs runs' (empty_ok fresh_tables eq_refl) E1); [|by split_and!|exact E2].
  apply play_reachable. by repeat constructor.
Defined.

(** ** The matrix *)
Section Matrix.
Variable matrix : dict (list json).

Definition values_of (a : string * string) : list string :=
  axis_values (default [] (dget (fst a) matrix)).

Definition too_long (a : string * string) : bool :=
  16 <? Z.of_nat (length (default [] (dget (fst a) matrix))).

(** [c] chooses one value on every axis that has values, and nothing else. *)
Definition choice (ax : list (string * string)) (c : dict string) : Prop :=
  dwf c = true /\ (forall k, dget k c <> None -> In k (map snd ax)) /\
  Forall (fun a => match values_of a with
                   | [] => dget (snd a) c = None
                   | vs => exists v, dget (snd a) c = Some v /\ In v vs
                   end) ax.

Definition enumerates (ax : list (string * string)) (cs : list (dict string)) : Prop :=
  List.NoDup cs /\ (forall c, In c cs <-> choice ax c) /\
  length cs = fold_right (fun a n => (Nat.max 1 (length (values_of a)) * n)%nat) 1%nat ax.

Lemma axis_values_NoDup l : List.NoDup (axis_values l).
Proof.
  unfold axis_values. match goal with |- List.NoDup (fold_left ?f _ _) => set (turn := f) end.
  assert (H : List.NoDup (@nil string)) by constructor. revert H.
  generalize (@nil string). induction l as [|x l IH]; intros acc H; cbn [fold_left]; [done|].
  apply IH. unfold turn. destruct (metadataScalar x) as [text []]; cbv beta iota zeta; [|done].
  destruct (String.eqb _ ""); [done|]. simpl.
  destruct (existsb _ acc) eqn:E; [done|]. simpl.
  apply List.NoDup_app; [done|repeat constructor; tauto|].
  intros y Hy [<-|[]]. apply not_true_iff_false in E. apply E, existsb_exists.
  exists (trimSpace text). split; [done|apply String.eqb_refl].
Qed.

Lemma choice_None ax c o : choice ax c -> ~ In o (map snd ax) -> dget o c = None.
Proof. intros (_ & K & _) N. destruct (dget o c) eqn:E; [|done]. destruct N. apply K. congruence. Qed.

(** An axis with values multiplies, one without changes nothing. *)
Lemma choice_snoc ax a c :
  ~ In (snd a) (map snd ax) ->
  choice (ax ++ [a]) c <->
  match values_of a with
  | [] => choice ax c
  | vs => exists v c', In v vs /\ choice ax c' /\ c = dset (snd a) v c'
  end.
Proof.
  intros N. unfold choice. setoid_rewrite Forall_app. setoid_rewrite List.map_app.
  setoid_rewrite in_app_iff. split.
  - intros (W & K & F & Fa). rewrite Forall_singleton in Fa. destruct (values_of a) as [|v0 vs].
    + split; [done|]. split; [|done]. intros k Hk. destruct (K k Hk) as [|[<-|[]]]; [done|congruence].
    + destruct Fa as (v & E & Iv). exists v, (ddel (snd a) c). split; [done|].
      assert (Wd : dwf (ddel (snd a) c) = true) by (by apply dwf_ddel).
      split; [split; [done|split]|].
      * intros k Hk. destruct (decide (snd a = k)) as [<-|Hne]; [by rewrite dget_ddel_eq in Hk|].
        rewrite dget_ddel_ne in Hk by done. destruct (K k Hk) as [|[|[]]]; done.
      * apply List.Forall_forall. intros b Hb. rewrite List.Forall_forall in F. specialize (F b Hb).
        assert (snd a <> snd b) by (intros X; apply N; rewrite X; by apply in_map).
        rewrite dget_ddel_ne by done. done.
      * apply dict_ext; [done|by apply dwf_dset|]. intros k. rewrite dget_dset.
        destruct (String.eqb_spec (snd a) k) as [<-|]; [done|]. by rewrite dget_ddel_ne.
  - destruct (values_of a) as [|v0 vs] eqn:Ea.
    + intros C. destruct C as (W & K & F). split; [done|]. split; [auto|]. split; [done|].
      apply Forall_singleton. rewrite Ea. by apply (choice_None ax).
    + intros (v & c' & Iv & (W & K & F) & ->). split; [by apply dwf_dset|]. split; [|split].
      * intros k. rewrite dget_dset. destruct (String.eqb_spec (snd a) k) as [<-|]; [simpl; auto|auto].
      * apply List.Forall_forall. intros b Hb. rewrite List.Forall_forall in F. specialize (F b Hb).
        assert (snd a <> snd b) by (intros X; apply N; rewrite X; by apply in_map).
        rewrite dget_dset_ne by done. done.
      * apply Forall_singleton. rewrite Ea. exists v. by rewrite dget_dset_eq.
Qed.

Lemma expand_In cs o vs c :
  In c (expand cs o vs) <-> exists v c', In v vs /\ In c' cs /\ c = dset o v c'.
Proof.
  unfold expand. rewrite in_flat_map. setoid_rewrite in_map_iff. naive_solver.
Qed.

Lemma expand_length cs o vs : length (expand cs o vs) = (length vs * length cs)%nat.
Proof.
  unfold expand. induction cs as [|c cs IH]; simpl; [lia|].
  rewrite length_app, length_map, IH. lia.
Qed.

Lemma expand_NoDup ax cs o vs :
  (forall c, In c cs -> choice ax c) -> ~ In o (map snd ax) ->
  List.NoDup cs -> List.NoDup vs -> List.NoDup (expand cs o vs).
Proof.
  intros C N Ncs Nvs. unfold expand. induction Ncs as [|c cs Hc Ncs IH]; simpl; [constructor|].
  apply List.NoDup_app.
  - apply Finite.Injective_map_NoDup; [|done]. intros v v' E.
    apply (f_equal (dget o)) in E. rewrite !dget_dset_eq in E. by injection E.
  - apply IH. intros c' Hc'. apply C. by right.
  - intros d Hd Hd'. apply in_map_iff in Hd as (v & <- & Hv).
    apply in_flat_map in Hd' as (c' & Hc' & (v' & E & Hv')%in_map_iff).
    assert (c' = c) as ->; [|done].
    pose proof (C c (or_introl eq_refl)) as Cc. pose proof (C c' (or_intror Hc')) as Cc'.
    apply dict_ext; [apply Cc'|apply Cc|]. intros k.
    destruct (decide (o = k)) as [<-|Hne]; [by rewrite !(choice_None ax)|].
    apply (f_equal (dget k)) in E. by rewrite !dget_dset_ne in E.
Qed.

Lemma fold_right_max ax x :
  fold_right (fun a n => (Nat.max 1 (length (values_of a)) * n)%nat) x ax =
  (fold_right (fun a n => (Nat.max 1 (length (values_of a)) * n)%nat) 1 ax * x)%nat.
Proof. induction ax as [|a ax IH]; simpl; [lia|]. rewrite IH. lia. Qed.

(** One turn of the loop. *)
Lemma enumerates_snoc ax a cs n st :
  ~ In (snd a) (map snd ax) -> enumerates ax cs ->
  matrix_axis matrix (Some (cs, n)) a = Some st ->
  enumerates (ax ++ [a]) (fst st) /\ too_long a = false /\
  snd st = n + (if values_of a then 0 else 1).
Proof.
  intros N (ND & I & Len). unfold matrix_axis. simpl. fold (too_long a). fold (values_of a).
  destruct (too_long a); [done|].
  assert (S : forall c, choice (ax ++ [a]) c <-> _) by (intros c; by apply choice_snoc).
  unfold enumerates. rewrite fold_right_app. simpl. rewrite fold_right_max, <- Len.
  destruct (values_of a) as [|v vs] eqn:Ea; intros [= <-]; simpl.
  - split; [|split; [done|lia]]. split; [done|]. split; [|lia]. intros c. by rewrite I, S.
  - split; [|split; [done|lia]]. split; [|split].
    + eapply expand_NoDup; [|exact N|done|].
      * intros c. by apply I.
      * rewrite <- Ea. apply axis_values_NoDup.
    + intros c. rewrite S, expand_In. setoid_rewrite I. done.
    + rewrite expand_length. simpl. lia.
Qed.

Lemma matrix_axis_None ax : fold_left (matrix_axis matrix) ax None = None.
Proof. induction ax; simpl; done. Qed.

Lemma enumerates_fold rest ax cs n st :
  List.NoDup (map snd (ax ++ rest)) -> enumerates ax cs ->
  fold_left (matrix_axis matrix) rest (Some (cs, n)) = Some st ->
  enumerates (ax ++ rest) (fst st) /\ forallb (fun a => negb (too_long a)) rest = true /\
  n <= snd st /\ (snd st = n -> Forall (fun a => values_of a = []) rest).
Proof.
  revert ax cs n. induction rest as [|a rest IH]; intros ax cs n ND E H; cbn [fold_left] in H.
  { injection H as <-. rewrite app_nil_r. simpl. split; [done|]. split; [done|]. split; [lia|].
    constructor. }
  destruct (matrix_axis matrix (Some (cs, n)) a) as [[cs' n']|] eqn:M;
    [|by rewrite matrix_axis_None in H].
  assert (Na : ~ In (snd a) (map snd ax)).
  { rewrite map_app in ND. simpl in ND. apply NoDup_remove_2 in ND. rewrite in_app_iff in ND. tauto. }
  destruct (enumerates_snoc _ _ _ _ _ Na E M) as (E' & T & Hn). simpl in E', Hn.
  replace (ax ++ a :: rest) with ((ax ++ [a]) ++ rest) in * by (by rewrite <- app_assoc).
  destruct (IH _ _ _ ND E' H) as (E2 & T2 & L & Z0).
  split; [done|]. simpl. rewrite T, T2. split; [done|].
  destruct (values_of a) eqn:Va; (split; [lia|]); intros X; [|lia].
  constructor; [done|]. apply Z0. lia.
Qed.

Lemma enumerates_start : enumerates [] [[]].
Proof.
  split; [repeat constructor; tauto|]. split; [|done]. intros c. split.
  - intros [<-|[]]. split; [done|]. split; [done|constructor].
  - intros (_ & K & _). left. destruct c as [|[k v] c]; [done|]. destruct (K k). simpl.
    by rewrite String.eqb_refl.
Qed.

Lemma matrix_axes_empty rest cs m st :
  (forall a, In a rest -> values_of a = []) ->
  fold_left (matrix_axis matrix) rest (Some (cs, m)) = Some st -> snd st = m.
Proof.
  revert cs m st. induction rest as [|a rest IH]; intros cs m st R F; cbn [fold_left] in F.
  { by injection F as <-. }
  destruct (matrix_axis matrix (Some (cs, m)) a) as [[cs' m']|] eqn:M;
    [|by rewrite matrix_axis_None in F].
  rewrite (IH _ _ _ (fun b Hb => R b (or_intror Hb)) F).
  unfold matrix_axis in M. simpl in M. case_match; [done|].
  fold (values_of a) in M. rewrite (R a (or_introl eq_refl)) in M. by injection M.
Qed.

(** a matrix none of whose axes is too long expands to every choice of
    one value per non-empty axis, each exactly once, so that the number of runs
    is the product of the axis sizes; without any value there is no run. *)
Theorem matrix_expands_to_product (combinations : list (dict string)) :
  matrixCombinations matrix = (combinations, false) ->
  if forallb (fun a => bool_decide (values_of a = [])) axes
  then combinations = []
  else List.NoDup combinations /\ (forall c, In c combinations <-> choice axes c) /\
       length combinations =
       fold_right (fun a n => (Nat.max 1 (length (values_of a)) * n)%nat) 1%nat axes.
Proof.
  unfold matrixCombinations.
  destruct (fold_left _ axes _) as [[cs n]|] eqn:F; [|done].
  assert (ND : List.NoDup (map snd ([] ++ axes)))
    by (repeat constructor; simpl; intuition discriminate).
  destruct (enumerates_fold axes [] [[]] 0 _ ND enumerates_start F) as (E & _ & L & Z0).
  simpl in E, L, Z0. destruct (Z.eqb_spec n 0) as [->|Hn].
  - intros [= <-]. specialize (Z0 eq_refl).
    assert (H : forallb (fun a => bool_decide (values_of a = [])) axes = true).
    { apply forallb_forall. intros a Ha. apply bool_decide_eq_true.
      rewrite List.Forall_forall in Z0. by apply Z0. }
    by rewrite H.
  - intros [= <-]. case_match eqn:H; [|exact E].
    exfalso. apply Hn. rewrite forallb_forall in H.
    apply (matrix_axes_empty axes [[]] 0 (cs, n)); [|done]. intros a Ha.
    specialize (H a Ha). by apply bool_decide_eq_true in H.
Qed.
End Matrix.

Definition sample_matrix : dict (list json) :=
  [("browsers", [JStr "firefox"; JStr " chrome"; JStr "firefox"]); ("platforms", [JStr "linux"; JStr "mac"])].

Lemma matrix_expands_to_product_witness :
  matrixCombinations sample_matrix = (fst (matrixCombinations sample_matrix), false) /\
  length (fst (matrixCombinations sample_matrix)) = 4%nat.
Proof.
  assert (E : matrixCombinations sample_matrix = (fst (matrixCombinations sample_matrix), false))
    by (vm_compute; reflexivity).
  split; [exact E|]. exact (proj2 (proj2 (matrix_expands_to_product sample_matrix _ E))).
Defined.

(** ** Metadata *)
Definition clean (d : dict json) : Prop := has_secret sensitiveMetadataKey (JObj d) = false.

Lemma clean_cons k v d :
  clean ((k, v) :: d) <->
  sensitiveMetadataKey k = false /\ has_secret sensitiveMetadataKey v = false /\ clean d.
Proof. unfold clean. simpl. rewrite !orb_false_iff. tauto. Qed.

Lemma clean_nil : clean [].
Proof. done. Qed.

Lemma clean_dset k v d :
  sensitiveMetadataKey k = false -> has_secret sensitiveMetadataKey v = false -> clean d ->
  clean (dset k v d).
Proof.
  intros K V. induction d as [|[j w] d IH]; cbn [dset]; [by rewrite clean_cons|].
  rewrite clean_cons. intros (J & W & D).
  destruct (String.compare k j); rewrite !clean_cons; auto.
Qed.

Lemma clean_ddel k d : clean d -> clean (ddel k d).
Proof.
  induction d as [|[j w] d IH]; [done|]. rewrite clean_cons. intros (J & W & D).
  unfold ddel. cbn [List.filter fst]. destruct (String.eqb k j); cbn [negb]; [by apply IH|].
  rewrite clean_cons. auto.
Qed.

Lemma clean_jidx d k : clean d -> has_secret sensitiveMetadataKey (jidx d k) = false.
Proof.
  unfold jidx. induction d as [|[j w] d IH]; [done|]. rewrite clean_cons. intros (J & W & D).
  simpl. by destruct (String.eqb k j); [|apply IH].
Qed.

Lemma clean_obj v : has_secret sensitiveMetadataKey v = false -> clean (obj_or_empty v).
Proof. destruct v; done. Qed.

Lemma clean_scalar v : has_secret sensitiveMetadataKey (scalar_or_null v) = false.
Proof. unfold scalar_or_null. destruct (metadataScalar v). by case_match. Qed.

Lemma clean_remove d : clean (removeSensitiveMetadata d).
Proof.
  unfold clean, removeSensitiveMetadata, removeSensitiveMetadataValue.
  exact (remove_with_no_secret sensitiveMetadataKey (JObj d)).
Qed.

Lemma clean_fields fields run c :
  Forall (fun f => sensitiveMetadataKey f = false) fields -> clean run -> clean c ->
  let st := fold_left normalize_field fields (run, c) in clean (fst st) /\ clean (snd st).
Proof.
  intros F. revert run c. induction F as [|f fields Hf _ IH]; intros run c R C; [done|].
  cbn [fold_left]. apply IH; [|by apply clean_ddel].
  apply clean_dset; [done|apply clean_scalar|done].
Qed.

Definition text_or_null (v : json) : Prop := v = JNull \/ exists s, v = JStr s /\ s <> "".

Lemma scalar_text v : text_or_null (scalar_or_null v).
Proof.
  unfold scalar_or_null, text_or_null. destruct (metadataScalar v) as [text scalar].
  destruct scalar; simpl; [|by left]. destruct (String.eqb_spec text ""); [by left|]. eauto.
Qed.

(** The loop leaves a text or null under every field it visits. *)
Lemma fields_normalized fields run c f :
  In f fields -> text_or_null (jidx (fst (fold_left normalize_field fields (run, c))) f).
Proof.
  intros I. enough (K : forall fields run c, In f fields \/ text_or_null (jidx run f) ->
    text_or_null (jidx (fst (fold_left normalize_field fields (run, c))) f)) by (apply K; auto).
  clear. induction fields as [|g fields IH]; intros run c H; [by destruct H|].
  cbn [fold_left]. apply IH. destruct (String.eqb_spec g f) as [->|N].
  - right. rewrite jidx_dset_eq. apply scalar_text.
  - destruct H as [[|]|]; [done|by left|]. right. by rewrite jidx_dset_ne.
Qed.

(** the metadata stored with a run has no credential-like key at any
    depth, and its run fields (build, commit, branch, repository, initiator,
    pipeline) are non-empty texts or null. *)
Theorem metadata_normalized (metadata : dict json) :
  has_secret sensitiveMetadataKey (JObj (normalizeRunMetadata metadata)) = false /\
  exists run, jidx (normalizeRunMetadata metadata) "run" = JObj run /\
    forall f, In f runFields -> text_or_null (jidx run f).
Proof.
  unfold normalizeRunMetadata.
  pose proof (clean_fields runFields (obj_or_empty (jidx (removeSensitiveMetadata metadata) "run"))
    (removeSensitiveMetadata metadata)) as C.
  pose proof (fields_normalized runFields (obj_or_empty (jidx (removeSensitiveMetadata metadata) "run"))
    (removeSensitiveMetadata metadata)) as T.
  destruct (fold_left normalize_field runFields _) as [run c]. simpl in T.
  destruct C as [CR CC]; [by repeat constructor|apply clean_obj, clean_jidx, clean_remove|apply clean_remove|].
  simpl in CR, CC.
  match goal with |- context [JObj (fold_left ?f identityFields [])] =>
    assert (CI : clean (fold_left f identityFields [])); [|set (identity := fold_left f identityFields []) in *] end.
  { cbn [fold_left identityFields]. repeat (apply clean_dset; [done|apply clean_scalar|]). done. }
  clearbody identity.
  split.
  - apply clean_ddel, clean_dset; [done| |done].
    change (clean (dset "workloadIdentity" (JObj identity) run)). by apply clean_dset.
  - eexists. unfold jidx at 1. rewrite dget_ddel_ne, dget_dset_eq by done. split; [done|].
    intros f I. rewrite jidx_dset_ne; [by apply T|]. intros <-. simpl in I. intuition discriminate.
Qed.

(** ** Lists *)
Section Listing.

(** a list of runs shows at most 50 runs, all of them of the caller's
    tenant and project and matching every filter; when the project has at most
    50 runs, it shows every one that matches. *)
Theorem list_runs_exact (t p : Z) (filters : dict string) (w w' : world RunTables)
  (runs : list ParallelRun) :
  ListParallelRuns t p filters w = (Ok runs, w') ->
  (length runs <= 50)%nat /\
  Forall (fun run => exists r row, schedules (w_db w) !! r = Some row /\
            k_idCostumer (s_key row) = t /\ k_idProject (s_key row) = p /\
            run = scanParallelRun row /\ parallelRunMatches (r_Metadata run) filters = true) runs /\
  let mine := List.filter (owned t p) (snd <$> map_to_list (schedules (w_db w))) in
  ((length mine <= 50)%nat ->
   forall r row, schedules (w_db w) !! r = Some row -> owned t p row = true ->
     parallelRunMatches (decodeParallelMap (k_metadata (s_key row))) filters = true ->
     In (scanParallelRun row) runs).
Proof.
  unfold ListParallelRuns. intros H. invert_ok H as H1.
  assert (E : w_db w0 = w_db w).
  { unfold ensureProject in H1. invert_ok H1 as H2. apply query_ok in H2 as [_ E].
    by apply guard_ok in H1 as [_ ->]. }
  invert_ok H as H2. apply query_ok in H2 as [-> _]. injection H as <- <-. rewrite E.
  set (mine := List.filter (owned t p) _).
  set (sorted := merge_sort newer mine).
  assert (P : forall x, In x sorted <-> In x mine).
  { intros x. rewrite <- !list_elem_of_In. unfold sorted. by rewrite merge_sort_Permutation. }
  assert (L : length sorted = length mine) by (unfold sorted; by rewrite merge_sort_Permutation).
  split; [|split].
  - etransitivity; [apply List.filter_length_le|]. rewrite length_map, length_take. lia.
  - apply List.Forall_forall. intros run Hr. apply filter_In in Hr as [Hr M].
    apply in_map_iff in Hr as (row & <- & Hr).
    assert (Hm : In row mine).
    { apply P. rewrite <- (take_drop 50 sorted). apply in_app_iff. by left. }
    apply filter_In in Hm as [Hm O]. apply list_elem_of_In, list_elem_of_fmap in Hm as ([r x] & -> & Hm).
    apply elem_of_map_to_list in Hm. exists r, x. unfold owned in O.
    rewrite andb_true_iff, !Z.eqb_eq in O. simpl. tauto.
  - intros Short r row Lk O M. apply filter_In. split; [|done]. apply in_map.
    rewrite take_ge by (rewrite L; exact Short). apply P, filter_In. split; [|done].
    apply list_elem_of_In, list_elem_of_fmap. exists (r, row). split; [done|].
    by apply elem_of_map_to_list.
Qed.
End Listing.

Lemma list_runs_exact_witness :
  exists runs w', ListParallelRuns 7 1 [] (World (busy_run 2) [] []) = (Ok runs, w') /\
                  (length runs <= 50)%nat.
Proof.
  destruct (ListParallelRuns 7 1 [] (World (busy_run 2) [] [])) as [[runs|e] w'] eqn:E;
    [|vm_compute in E; discriminate].
  exists runs, w'. split; [reflexivity|]. exact (proj1 (list_runs_exact 7 1 [] _ w' runs E)).
Defined.
