(* ===== verification/HandlerTheorems.v ===== *)
(** * Theorems about the handlers of parallel runs

    Every request makes steps of the run machine for the tenant it is
    authenticated for, or none; an unauthenticated one reads and writes nothing. *)

From S2P Require Import Prelude GoStrings GoTime Json Redaction Effects Http Runs.
From S2P Require Import RunTables RunTokens RunOps RunCreate RunMachine RunHandlers RunSafety.
From S2P Require Import RunTheorems RunLeases TokenTheorems.
Import Handler.

Section Requests.
Context `{MS : MySQL} `{B : Bcrypt} (sha256 : string -> string) (cfg : HandlerConfig) (meta : RequestMeta).
Variable sessions_Get : string -> time -> M RunTables User.

(** Reading the session does not touch the run tables. *)
Hypothesis session_pure : forall id now, pure_db (sessions_Get id now).

Notation reads t := (preserves (steps t)).

Lemma reads_attempt t {A} (m : M RunTables A) : reads t m -> reads t (attempt m).
Proof. apply preserves_attempt. Qed.

Lemma reads_get t t' p r : reads t (GetParallelRun t' p r).
Proof. unfold GetParallelRun, ensureProject, getParallelRun, parallelRunNotFound. solve_preserves. Qed.

Lemma reads_list t t' p f : reads t (ListParallelRuns t' p f).
Proof. unfold ListParallelRuns, ensureProject. solve_preserves. Qed.

Lemma reads_validate t t' p r w k n : reads t (ValidateWorkerToken t' p r w k n).
Proof. unfold ValidateWorkerToken. solve_preserves. Qed.

Lemma reads_run_path t r k : (forall p q, reads t (k p q)) -> reads t (with_run_path r k).
Proof. intros K. unfold with_run_path. repeat case_match; first [apply K|apply preserves_ret; apply _]. Qed.

#[local] Hint Resolve reads_attempt reads_get reads_list reads_validate steps_claim_run
  steps_worker steps_heartbeat steps_cancel steps_create steps_issue steps_revoke : effects.

Lemma reads_create_run t input :
  p_TenantID input = t -> reads t (RunCreate.CreateParallelRun sha256 input).
Proof. intros <-. unfold RunCreate.CreateParallelRun. solve_preserves. Qed.

Lemma reads_create_matrix t input c :
  p_TenantID input = t -> reads t (RunCreate.CreateParallelRunMatrix sha256 input c).
Proof. intros <-. unfold RunCreate.CreateParallelRunMatrix. solve_preserves. Qed.

Lemma reads_claim_run t m input : cl_TenantID input = t -> reads t (RunOps.ClaimParallelRun m input).
Proof. intros <-. apply steps_claim_run. Qed.

Lemma reads_worker t input :
  u_TenantID input = t -> validWorkerStatus (u_Status input) = true -> reads t (UpdateRunnerWorker input).
Proof. intros <-. apply steps_worker. Qed.

#[local] Hint Resolve reads_create_run reads_create_matrix reads_claim_run reads_worker : effects.
#[local] Hint Extern 1 (reads _ (with_run_path _ _)) => apply reads_run_path : effects.

Lemma reads_validate_token t r t' p q w : reads t (validateWorkerToken cfg r t' p q w).
Proof. unfold validateWorkerToken. solve_preserves. Qed.

#[local] Hint Resolve reads_validate_token : effects.

Ltac solve_handler :=
  repeat first [ progress intros | apply reads_run_path
               | solve [eauto with effects typeclass_instances] | preserves_step ].

Lemma steps_api rt t r : reads t (serve_api sha256 cfg meta rt (Some t) r).
Proof.
  destruct rt as [[]| | | | |]; simpl;
    unfold CLResults, CLUpdateParallelRunWorker, CLParallelRuns, CLCreateParallelRun,
      CLCreateParallelRunMatrix, CLShowParallelRun, CLClaimParallelRun,
      CLHeartbeatParallelRunWorker, CLCancelParallelRun, CLIssueParallelRunToken,
      CLRevokeParallelRunToken, RunnerClaim, RunnerHeartbeat, RunnerUpdateWorker, with_tenant,
      results, updateWorker, listParallelRuns, createParallelRun, showParallelRun,
      claimParallelRun, heartbeatParallelRunWorker, cancelParallelRun.
  all: solve_handler.
  apply reads_attempt, reads_worker; [done|]. simpl.
  match goal with H : _ || negb ?v = false |- _ =>
    apply orb_false_iff in H as [_ H]; by apply negb_false_iff in H end.
Qed.

(** What a browser route does for a signed-in user. *)
Definition user_request (rt : route) (u : User) (r : Request) : M RunTables reply :=
  match rt with
  | RResults => results r (ActiveTenant u)
  | RUpdateWorker => updateWorker cfg r (ActiveTenant u)
  | RList => listParallelRuns r (ActiveTenant u)
  | RCreate => createParallelRun sha256 cfg r (ActiveTenant u) false
  | RCreateMatrix => createParallelRun sha256 cfg r (ActiveTenant u) true
  | RShow => showParallelRun r (ActiveTenant u)
  | RClaim => claimParallelRun cfg meta r (ActiveTenant u) (Some u)
  | RHeartbeat => heartbeatParallelRunWorker cfg r (ActiveTenant u)
  | RCancel => cancelParallelRun cfg r (ActiveTenant u)
  end.

Lemma serve_browser_eq rt r :
  serve_browser sha256 cfg meta sessions_Get rt r =
  with_user cfg sessions_Get r (fun u => user_request rt u r).
Proof. by destruct rt. Qed.

Lemma steps_browser_user rt u r :
  reads (ActiveTenant u)
    (user_request rt u r).
Proof.
  destruct rt; unfold user_request, results, updateWorker, listParallelRuns, createParallelRun, showParallelRun,
    claimParallelRun, heartbeatParallelRunWorker, cancelParallelRun; solve_handler.
Qed.

(** Claim C40: a request on the API-key surface, on any route and with any path,
    headers and body, makes steps of the run machine on behalf of the tenant of
    its key, whatever fails; without a tenant it is answered 401 and nothing is
    read or written. *)
Theorem api_requests_refine (rt : api_route) (tenant : option Z) (r : Request)
  (w : world RunTables) :
  match tenant with
  | Some t => steps t (w_db w) (db_after (serve_api sha256 cfg meta rt tenant r) w)
  | None => serve_api sha256 cfg meta rt tenant r w = (Ok unauthorized, w)
  end.
Proof.
  destruct tenant as [t|]; [exact (steps_api rt t r w)|]. by destruct rt as [[]| | | | |].
Qed.

Lemma authenticated_pure r w :
  w_db (snd (authenticatedUser cfg sessions_Get r w)) = w_db w.
Proof.
  unfold authenticatedUser. repeat case_match; try done. unfold bind.
  destruct (attempt (sessions_Get s (hc_now cfg)) w) as [x w'] eqn:E.
  pose proof (attempt_db _ _ _ _ E) as D. specialize (session_pure s (hc_now cfg) w).
  rewrite D in session_pure. by destruct x.
Qed.

(** a browser request makes steps of the run machine on behalf of the
    active tenant of the signed-in user; when no session is presented or the
    session is unknown, it is answered 401 and changes nothing. *)
Theorem browser_requests_refine (rt : route) (r : Request) (w : world RunTables) :
  match authenticatedUser cfg sessions_Get r w with
  | (Ok (inr u), _) =>
      steps (ActiveTenant u) (w_db w) (db_after (serve_browser sha256 cfg meta sessions_Get rt r) w)
  | (Ok (inl written), w') =>
      serve_browser sha256 cfg meta sessions_Get rt r w = (Ok written, w') /\ w_db w' = w_db w /\
      (rq_cookie r = None -> written = unauthorized)
  | (Err e, w') => serve_browser sha256 cfg meta sessions_Get rt r w = (Err e, w') /\ w_db w' = w_db w
  end.
Proof.
  pose proof (authenticated_pure r w) as P.
  unfold db_after. rewrite serve_browser_eq. unfold with_user.
  destruct (authenticatedUser cfg sessions_Get r w) as [[[written|u]|e] w'] eqn:E; simpl in P.
  - rewrite (eval_bind _ _ _ _ _ E). split; [done|]. split; [done|].
    intros C. unfold authenticatedUser in E. rewrite C in E. by injection E.
  - rewrite (eval_bind _ _ _ _ _ E), <- P. exact (steps_browser_user rt u r w').
  - by rewrite (eval_bind_err _ _ _ _ _ E).
Qed.
End Requests.

(** ** Concrete requests *)
Definition sample_sessions (id : string) (now : time) : M RunTables User :=
  if String.eqb id "s1" then ret {| us_ID := 3; us_TenantID := 7; us_ActiveTenantID := 0 |}
  else fail ErrNotFound.

Definition sample_config : HandlerConfig :=
  {| hc_runTokenRequiredClaim := false; hc_runTokenTTL := 10 * minute; hc_now := noon |}.

Definition run_request (cookie : option string) (b : body) : Request :=
  {| rq_path := [("idProject", "1"); ("parallelRun", "1"); ("workerId", "w1")];
     rq_header := []; rq_query := []; rq_cookie := cookie; rq_body := b |}.

Lemma browser_requests_refine_witness :
  (forall id now, pure_db (sample_sessions id now)) /\
  steps 7 (busy_run 2)
    (db_after (serve_browser plain_sha256 sample_config sample_meta sample_sessions RCancel
                 (run_request (Some "s1") BodyEOF)) (World (busy_run 2) [] [])).
Proof.
  assert (P : forall id now, pure_db (sample_sessions id now)).
  { intros id now w. unfold sample_sessions. destruct (String.eqb id "s1"); reflexivity. }
  split; [exact P|].
  exact (browser_requests_refine plain_sha256 sample_config sample_meta sample_sessions P RCancel
           (run_request (Some "s1") BodyEOF) (World (busy_run 2) [] [])).
Defined.

(** a create or claim request whose body is not valid JSON for the
    route (unknown members included) is answered by no response at all, which
    the server sends as 200 with an empty body, and nothing is stored. *)
Theorem undecodable_body_is_unanswered (t : Z) (r : Request) (w : world RunTables) (p q : Z) :
  parsePathID (pathValue r "idProject") = Some p ->
  parsePathID (pathValue r "parallelRun") = Some q ->
  rq_body r = BodyMalformed ->
  forall rt, In rt [RCreate; RCreateMatrix; RClaim] ->
  serve_api (B := plain_bcrypt) plain_sha256 sample_config sample_meta (ApiRoute rt) (Some t) r w
  = (Ok Unwritten, w).
Proof.
  intros P Q M rt I. destruct I as [<-|[<-|[<-|[]]]]; simpl;
    unfold CLCreateParallelRun, CLCreateParallelRunMatrix, CLClaimParallelRun, with_tenant,
      createParallelRun, claimParallelRun, with_run_path; rewrite P, ?Q, M; done.
Qed.

Lemma undecodable_body_is_unanswered_witness :
  serve_api (B := plain_bcrypt) plain_sha256 sample_config sample_meta (ApiRoute RCreate) (Some 7)
    (run_request None BodyMalformed) (World fresh_tables [] []) = (Ok Unwritten, World fresh_tables [] []).
Proof.
  apply (undecodable_body_is_unanswered 7 (run_request None BodyMalformed) _ 1 1);
    [reflexivity..|left; reflexivity].
Defined.

Definition runner_body (worker : string) : body :=
  BodyObject [("idProject", Field (jint 1) (Some 1)); ("parallelRun", Field (jint 1) (Some 1));
              ("workerId", Field (JStr worker) None)].

(** on the runner surface a claim of a run that is full, which the
    other surfaces answer with 409, is answered with 500. *)
Theorem runner_claim_full_run_is_500 :
  status_of (match serve_api (B := plain_bcrypt) plain_sha256 sample_config sample_meta
                     ApiRunnerClaim (Some 7) (run_request None (runner_body "w2"))
                     (World (busy_run 1) [] [Some "thirty-two bytes of a secret ..!"; Some "sixteen byte sal"]) with
             | (Ok reply, _) => reply | _ => Unwritten end) = 500 /\
  status_of (match serve_api (B := plain_bcrypt) plain_sha256 sample_config sample_meta
                     (ApiRoute RClaim) (Some 7)
                     (run_request None (BodyObject [("workerId", Field (JStr "w2") None)]))
                     (World (busy_run 1) [] []) with
             | (Ok reply, _) => reply | _ => Unwritten end) = 409.
Proof. split; vm_compute; reflexivity. Qed.
