(* ===== verification/IntegrationTheorems.v ===== *)
(** * Theorems about integration deliveries

    An outcome is saved at most once per attempt, a sent delivery is never sent
    again, every attempt ends as sent, scheduled again or dead letter, deliveries
    are taken in order when due, and the signature is under the endpoint's
    secret.  An orphaned delivery blocks the queue.  The worker empties its queue, and the
    lease keeps a second one away. *)

From stdpp Require Import relations.
From S2P Require Import Http Contracts.
From S2P Require Import Prelude GoStrings GoTime Json Redaction Effects Secrets Integrations.

Definition ids_ok (d : IntTables) : Prop :=
  forall id row, deliveries d !! id = Some row -> dl_ID (dr_delivery row) = id.

Section Saving.
Variable json_time : time -> json.

Lemma uuid_db w x w' : randomUUID w = (x, w') -> w_db w' = w_db w /\ is_Some (match x with Ok a => Some a | Err _ => None end).
Proof.
  unfold randomUUID, bind, rand_read. destruct (w_random w); intros [= <- <-]; simpl; eauto.
Qed.

(** What a saved outcome found and wrote. *)
Lemma save_ok delivery o now w u w' :
  SaveDispatchOutcome json_time delivery o now w = (Ok u, w') ->
  exists row, deliveries (w_db w) !! dl_ID delivery = Some row /\
    outcome_applies delivery row = true /\
    deliveries (w_db w') = <[dl_ID delivery := with_outcome o now row]> (deliveries (w_db w)) /\
    sent_requests (w_db w') = sent_requests (w_db w) /\ endpoints (w_db w') = endpoints (w_db w).
Proof.
  unfold SaveDispatchOutcome. intros H. apply transaction_ok in H as (w1 & w2 & E1 & H & E2).
  invert_ok H as H1. apply exec_count_ok in H1. rewrite E1 in H1.
  invert_ok H as H2. apply guard_ok in H2 as [G ->]. apply Z.eqb_eq in G. subst a.
  cbv zeta in H. invert_ok H as H3. apply uuid_db in H3 as [E3 _]. apply exec_ok in H.
  unfold update_outcome in H1. destruct (deliveries (w_db w) !! dl_ID delivery) as [row|]; [|done].
  destruct (outcome_applies delivery row) eqn:A; [|done]. injection H1 as H1.
  exists row. rewrite E2, H. simpl. rewrite E3, <- H1. done.
Qed.

Lemma save_err delivery o now w e w' :
  SaveDispatchOutcome json_time delivery o now w = (Err e, w') -> w_db w' = w_db w.
Proof. apply transaction_err. Qed.

(** In a world whose calls succeed, an applicable outcome is saved. *)
Lemma save_healthy delivery o now d r row :
  deliveries d !! dl_ID delivery = Some row -> outcome_applies delivery row = true ->
  exists d' r', SaveDispatchOutcome json_time delivery o now (World d [] r) = (Ok tt, World d' [] r') /\
    deliveries d' = <[dl_ID delivery := with_outcome o now row]> (deliveries d) /\
    sent_requests d' = sent_requests d /\ endpoints d' = endpoints d.
Proof.
  intros L A. unfold SaveDispatchOutcome.
  destruct (randomUUID (World (fst (update_outcome delivery o now d)) [] r)) as [x wx] eqn:U.
  assert (X : exists uuid r', (x, wx) = (Ok uuid, World (fst (update_outcome delivery o now d)) [] r')).
  { unfold randomUUID, bind, rand_read in U. simpl in U. destruct r; injection U as <- <-; eauto. }
  destruct X as (uuid & r' & X). injection X as -> ->.
  assert (E : update_outcome delivery o now d =
    (with_deliveries d (<[dl_ID delivery := with_outcome o now row]> (deliveries d)), 1))
    by (unfold update_outcome; by rewrite L, A).
  rewrite E in U. simpl in U.
  eexists _, r'. split.
  - apply eval_transaction. erewrite eval_bind; [|apply eval_exec_count]. rewrite E. cbn [fst snd].
    erewrite eval_bind; [|reflexivity]. cbv zeta.
    erewrite eval_bind; [|exact U]. apply eval_exec.
  - done.
Qed.

(** of two dispatchers that loaded the same attempt of a delivery,
    only one records its outcome: once an outcome with the next attempt number is
    saved, saving another one from the same snapshot fails and changes nothing. *)
Theorem outcome_saved_once (delivery : Delivery) (o1 o2 : DispatchOutcome) (t1 t2 : time)
  (w w1 w2 : world IntTables) (u : unit) :
  in_int64 (dl_Attempts delivery + 1) = true ->
  o_Attempts o1 = wrap64 (dl_Attempts delivery + 1) ->
  SaveDispatchOutcome json_time delivery o1 t1 w = (Ok u, w1) ->
  deliveries (w_db w2) = deliveries (w_db w1) ->
  exists e w3, SaveDispatchOutcome json_time delivery o2 t2 w2 = (Err e, w3) /\
               w_db w3 = w_db w2.
Proof.
  intros I A H E. rewrite wrap64_id in A by done.
  apply save_ok in H as (row & L & _ & D & _). rewrite D in E.
  destruct (SaveDispatchOutcome json_time delivery o2 t2 w2) as [[u2|e] w3] eqn:S.
  - apply save_ok in S as (row2 & L2 & A2 & _). rewrite E, lookup_insert_eq in L2.
    injection L2 as <-. unfold outcome_applies in A2. simpl in A2. rewrite A in A2.
    rewrite !andb_true_iff, !Z.eqb_eq in A2. lia.
  - exists e, w3. split; [done|]. by apply save_err in S.
Qed.
End Saving.

(** ** Selection *)
Definition keeps_best (best : option (Z * DeliveryRow)) (e : Z * DeliveryRow) :=
  match best with Some b => if earlier e b then Some e else best | None => Some e end.

Lemma fold_best_In l best x :
  fold_left keeps_best l best = Some x -> best = Some x \/ In x l.
Proof.
  revert best. induction l as [|e l IH]; intros best H; [by left|]. cbn [fold_left] in H.
  apply IH in H as [H|H]; [|simpl; auto]. unfold keeps_best in H.
  destruct best as [b|]; [destruct (earlier e b)|]; simpl; naive_solver.
Qed.

Lemma earlier_irrefl e : earlier e e = false.
Proof.
  unfold earlier. destruct (sort_key (snd e)); rewrite ?Z.ltb_irrefl, ?andb_false_r; done.
Qed.

Lemma earlier_trans a b c : earlier a b = true -> earlier b c = true -> earlier a c = true.
Proof.
  unfold earlier. destruct (sort_key (snd a)), (sort_key (snd b)), (sort_key (snd c)); try done;
    rewrite ?orb_true_iff, ?andb_true_iff, ?Z.ltb_lt, ?Z.eqb_eq; lia.
Qed.

Lemma earlier_total a b : fst a <> fst b -> earlier a b = false -> earlier b a = true.
Proof.
  unfold earlier. destruct (sort_key (snd a)), (sort_key (snd b)); try done;
    rewrite ?orb_true_iff, ?orb_false_iff, ?andb_true_iff, ?andb_false_iff, ?Z.ltb_lt, ?Z.ltb_ge,
      ?Z.eqb_eq, ?Z.eqb_neq; lia.
Qed.

(** The fold keeps a minimum: nothing it saw is earlier. *)
Lemma fold_best_min l best x :
  fold_left keeps_best l best = Some x ->
  (forall y, best = Some y -> earlier y x = false) /\ (forall y, In y l -> earlier y x = false).
Proof.
  revert best. induction l as [|e l IH]; intros best H; cbn [fold_left] in H.
  - subst. split; [intros y [= <-]; apply earlier_irrefl|done].
  - apply IH in H as [H1 H2].
    assert (He : forall b, keeps_best best e = Some b -> earlier b x = false) by auto.
    unfold keeps_best in He. destruct best as [b|].
    + destruct (earlier e b) eqn:E.
      * specialize (He e eq_refl). split.
        -- intros y [= <-]. apply not_true_iff_false. intros Y.
           apply not_true_iff_false in He. apply He. by eapply earlier_trans.
        -- intros y [<-|Hy]; auto.
      * specialize (He b eq_refl). split; [intros y [= <-]; done|].
        intros y [<-|Hy]; [|auto]. apply not_true_iff_false. intros Y.
        destruct (decide (fst e = fst b)) as [Ef|Nf].
        -- apply not_true_iff_false in He. apply He.
           unfold earlier in *. rewrite Ef in Y, E.
           destruct (sort_key (snd e)), (sort_key (snd b)), (sort_key (snd x)); try done;
             rewrite ?orb_true_iff, ?orb_false_iff, ?andb_true_iff, ?andb_false_iff, ?Z.ltb_lt,
               ?Z.ltb_ge, ?Z.eqb_eq, ?Z.eqb_neq in *; lia.
        -- apply not_true_iff_false in He. apply He.
           eapply earlier_trans; [by apply earlier_total|exact Y].
    + specialize (He e eq_refl). split; [done|]. intros y [<-|Hy]; auto.
Qed.

Lemma first_due_spec now m id :
  first_due now m = Some id ->
  exists row, m !! id = Some row /\ due now row = true /\
    forall id' row', m !! id' = Some row' -> due now row' = true ->
                     earlier (id', row') (id, row) = false.
Proof.
  unfold first_due. fold keeps_best. intros H. apply fmap_Some in H as ([i row] & H & ->).
  change (fold_left keeps_best (List.filter (fun e => due now (snd e)) (map_to_list m)) None = Some (i, row)) in H.
  pose proof (fold_best_min _ _ _ H) as [_ Min].
  apply fold_best_In in H as [H|H]; [done|]. apply filter_In in H as [I D].
  exists row. apply list_elem_of_In, elem_of_map_to_list in I. split; [done|]. split; [done|].
  intros id' row' L' D'. apply Min. apply filter_In. split; [|done].
  by apply list_elem_of_In, elem_of_map_to_list.
Qed.

(** the worker takes a delivery that is pending, or failed with its
    retry time reached, and no due delivery comes before it in the order of
    (retry or creation time, identifier). *)
Theorem next_delivery_is_first_due (now : time) (w w' : world IntTables) (id : Z) :
  NextDispatchID now w = (Ok id, w') ->
  exists row, deliveries (w_db w) !! id = Some row /\ due now row = true /\
    forall id' row', deliveries (w_db w) !! id' = Some row' -> due now row' = true ->
                     earlier (id', row') (id, row) = false.
Proof.
  unfold NextDispatchID. intros H. invert_ok H as H1. apply query_ok in H1 as [-> E].
  destruct (first_due now (deliveries (w_db w))) as [i|] eqn:F; [|done].
  injection H as <- <-. by apply first_due_spec.
Qed.

(** ** One dispatch *)
Definition max_attempts (di : Dispatcher) : Z := di_MaxAttempts (normalized di).

Definition backoff_for (di : Dispatcher) (attempts : Z) : Z :=
  let b := di_Backoff (normalized di) in
  nth (Z.to_nat (Z.min attempts (Z.of_nat (length b) - 1))) b 0.

(** How the [k]-th attempt of a delivery ends, [k] counted from 0. *)
Definition settled (di : Dispatcher) (ck : Clock) (k : Z) (row : DeliveryRow) : Prop :=
  dl_Attempts (dr_delivery row) = k + 1 /\
  ((dl_Status (dr_delivery row) = "sent" /\ dr_sentAt row = Some (ck_outcome ck) /\
    dr_nextAttemptAt row = None) \/
   (dl_Status (dr_delivery row) = "failed" /\ k + 1 < max_attempts di /\
    dr_nextAttemptAt row = Some (ck_outcome ck + backoff_for di k)) \/
   (dl_Status (dr_delivery row) = "dead_letter" /\ max_attempts di <= k + 1 /\
    dr_nextAttemptAt row = None)).

Lemma normalized_idem di : normalized (normalized di) = normalized di.
Proof.
  unfold normalized. simpl. f_equal.
  - destruct (Z.ltb_spec (di_MaxAttempts di) 1); [done|]. by destruct (Z.ltb_spec (di_MaxAttempts di) 1); [lia|].
  - by destruct (di_Backoff di).
Qed.

Lemma normalized_backoff di : di_Backoff (normalized di) <> [].
Proof. simpl. by destruct (di_Backoff di). Qed.

(** A delivery as it was loaded matches the row it was loaded from. *)
Lemma loaded_applies row p :
  dl_Status (dr_delivery row) <> "sent" ->
  outcome_applies (with_payload (dr_delivery row) p) row = true.
Proof.
  intros S. unfold outcome_applies. simpl. rewrite !Z.eqb_refl. simpl.
  by apply negb_true_iff, String.eqb_neq.
Qed.

(** [m], run where [d] is the database, ends attempt [k] of delivery [id]; at
    most one request was sent since [d0]. *)
Definition settles (di : Dispatcher) (ck : Clock) (id k : Z) (d0 d : IntTables)
  (m : M IntTables unit) (r : list (option string)) : Prop :=
  exists d' r' row', m (World d [] r) = (Ok tt, World d' [] r') /\
    deliveries d' = <[id := row']> (deliveries d) /\ endpoints d' = endpoints d /\
    dl_ID (dr_delivery row') = id /\ settled di ck k row' /\
    exists new, sent_requests d' = (sent_requests d0 ++ new)%list /\ (length new <= 1)%nat.

Section Dispatching.
Context `{C : Crypto} `{N : Network} `{T : Transport}.

(** The backoff list is never overrun. *)
Lemma wait_backoff di k :
  0 <= k ->
  let n := Z.of_nat (length (di_Backoff (normalized di))) in
  wait (di_Backoff (normalized di)) (if n <=? k + 1 - 1 then n - 1 else k + 1 - 1)
  = Some (backoff_for di k).
Proof.
  intros K n. unfold wait, backoff_for. fold n.
  assert (Hn : 0 < n).
  { pose proof (normalized_backoff di). subst n. destruct (di_Backoff (normalized di)); [done|simpl; lia]. }
  replace (k + 1 - 1) with k by lia.
  replace (if n <=? k then n - 1 else k) with (Z.min k (n - 1))
    by (destruct (Z.leb_spec n k); lia).
  destruct (Z.ltb_spec (Z.min k (n - 1)) 0); [lia|].
  rewrite nth_error_nth' with (d := 0); [done|]. subst n. lia.
Qed.

Lemma fail_settles di ck delivery status msg d0 d r row new :
  deliveries d !! dl_ID delivery = Some row -> dl_ID (dr_delivery row) = dl_ID delivery ->
  outcome_applies delivery row = true ->
  0 <= dl_Attempts delivery -> in_int64 (dl_Attempts delivery + 1) = true ->
  sent_requests d = (sent_requests d0 ++ new)%list -> (length new <= 1)%nat ->
  settles di ck (dl_ID delivery) (dl_Attempts delivery) d0 d
          (fail_dispatch (normalized di) ck delivery status msg) r.
Proof.
  intros L ID A K I Q Ln. unfold settles, fail_dispatch.
  rewrite normalized_idem, wrap64_id by done. cbv zeta.
  fold (max_attempts di). destruct (Z.leb_spec (max_attempts di) (dl_Attempts delivery + 1)) as [M|M].
  - edestruct (save_healthy json_time delivery) as (d' & r' & -> & D & S & E); [done..|].
    exists d', r'. eexists. split; [done|]. split; [exact D|]. split; [exact E|]. split; [exact ID|].
    split; [split; [done|]; right; by right|]. rewrite S. eauto.
  - pose proof (wait_backoff di (dl_Attempts delivery) K) as W. cbv zeta in W. rewrite W.
    edestruct (save_healthy json_time delivery) as (d' & r' & -> & D & S & E); [done..|].
    exists d', r'. eexists. split; [done|]. split; [exact D|]. split; [exact E|]. split; [exact ID|].
    split; [split; [done|]; right; by left|]. rewrite S. eauto.
Qed.

Lemma sent_settles di ck delivery status d0 d r row new :
  deliveries d !! dl_ID delivery = Some row -> dl_ID (dr_delivery row) = dl_ID delivery ->
  outcome_applies delivery row = true ->
  in_int64 (dl_Attempts delivery + 1) = true ->
  sent_requests d = (sent_requests d0 ++ new)%list -> (length new <= 1)%nat ->
  settles di ck (dl_ID delivery) (dl_Attempts delivery) d0 d
    (SaveDispatchOutcome json_time delivery
      {| o_Status := "sent"; o_Attempts := wrap64 (dl_Attempts delivery + 1);
         o_ResponseStatus := Some status; o_LastError := None;
         o_NextAttemptAt := None; o_SentAt := Some (ck_outcome ck) |} (ck_save ck)) r.
Proof.
  intros L ID A I Q Ln. unfold settles. rewrite wrap64_id by done.
  edestruct (save_healthy json_time delivery) as (d' & r' & -> & D & S & E); [done..|].
  exists d', r'. eexists. split; [done|]. split; [exact D|]. split; [exact E|]. split; [exact ID|].
  split; [split; [done|]; by left|]. rewrite S. eauto.
Qed.

(** The join of a delivery with its endpoint. *)
Definition endpoint_of (d : IntTables) (row : DeliveryRow) : option Endpoint :=
  let dl := dr_delivery row in
  List.find (fun e => (ep_ID e =? dl_EndpointID dl) && (ep_TenantID e =? dl_TenantID dl) &&
                      (ep_ProjectID e =? dl_ProjectID dl)) (endpoints d).

Definition payload_of (row : DeliveryRow) : option json :=
  match dr_payload row with
  | None => Some (JObj [])
  | Some (JObj p) => Some (JObj p)
  | Some JNull => Some JNull
  | Some _ => None
  end.

Lemma load_healthy d r id row ep p :
  deliveries d !! id = Some row -> endpoint_of d row = Some ep -> payload_of row = Some p ->
  LoadForDispatch id (World d [] r) = (Ok (ep, with_payload (dr_delivery row) p), World d [] r).
Proof.
  intros L E P. unfold LoadForDispatch. erewrite eval_bind; [|apply eval_query].
  rewrite L. cbn [mbind option_bind]. unfold endpoint_of in E. rewrite E. cbn [mbind option_bind].
  unfold payload_of in P. destruct (dr_payload row) as [[]|]; by simplify_eq.
Qed.

Lemma endpoint_matches d row ep :
  endpoint_of d row = Some ep ->
  (ep_TenantID ep =? dl_TenantID (dr_delivery row)) &&
  (ep_ProjectID ep =? dl_ProjectID (dr_delivery row)) && (ep_ID ep =? dl_EndpointID (dr_delivery row)) = true.
Proof.
  unfold endpoint_of. intros H. apply find_some in H as [_ H].
  rewrite !andb_true_iff in *. tauto.
Qed.

Lemma dispatch_settles (di : Dispatcher) (ck : Clock) (id : Z) (d : IntTables)
  (r : list (option string)) (row : DeliveryRow) (ep : Endpoint) (p : json) :
  ids_ok d -> deliveries d !! id = Some row -> endpoint_of d row = Some ep ->
  payload_of row = Some p -> dl_Status (dr_delivery row) <> "sent" ->
  0 <= dl_Attempts (dr_delivery row) -> in_int64 (dl_Attempts (dr_delivery row) + 1) = true ->
  settles di ck id (dl_Attempts (dr_delivery row)) d d (Dispatch di ck id) r.
Proof.
  intros IDS L E P S K I. pose proof (IDS _ _ L) as ID.
  set (dl := with_payload (dr_delivery row) p).
  assert (L' : deliveries d !! dl_ID dl = Some row) by (simpl; by rewrite ID).
  pose proof (loaded_applies row p S) as A. fold dl in A.
  unfold settles. unfold Dispatch. erewrite eval_bind; [|by apply load_healthy]. fold dl. cbv beta iota.
  apply String.eqb_neq in S. change (dl_Status dl) with (dl_Status (dr_delivery row)). rewrite S.
  pose proof (endpoint_matches _ _ _ E) as Mt.
  change (dl_TenantID dl) with (dl_TenantID (dr_delivery row)).
  change (dl_ProjectID dl) with (dl_ProjectID (dr_delivery row)).
  change (dl_EndpointID dl) with (dl_EndpointID (dr_delivery row)). rewrite Mt. cbn [negb].
  assert (F : forall status msg,
    settles di ck (dl_ID dl) (dl_Attempts dl) d d (fail_dispatch (normalized di) ck dl status msg) r).
  { intros. apply (fail_settles _ _ _ _ _ _ _ _ row []); [done..|by rewrite app_nil_r|simpl; lia]. }
  rewrite <- ID. change (dl_ID (dr_delivery row)) with (dl_ID dl).
  destruct (negb (String.eqb (ep_Status ep) "active")); [apply F|].
  destruct (negb (SafeDestination (ep_URL ep))); [apply F|].
  destruct (marshal _) as [body|]; [|apply F].
  destruct (DecryptLaravelString _ _) as [e|secret]; [apply F|].
  destruct (negb (newRequest (ep_URL ep))); [apply F|].
  set (rq := signed_request ep dl body secret (ck_signature ck)).
  assert (Se : send (dl_ID dl) rq (World d [] r) = (Ok (client_do rq), World (log_request (dl_ID dl) rq d) [] r))
    by done.
  rewrite (eval_bind _ _ _ _ _ Se).
  pose proof (fun st msg => fail_settles di ck dl st msg d (log_request (dl_ID dl) rq d) r row
                [(dl_ID dl, rq)] L' eq_refl A K I eq_refl (le_n _)) as F1.
  pose proof (fun st => sent_settles di ck dl st d (log_request (dl_ID dl) rq d) r row
                [(dl_ID dl, rq)] L' eq_refl A I eq_refl (le_n _)) as S1.
  destruct (client_do rq) as [status|]; [|apply F1].
  destruct ((200 <=? status) && (status <? 300)); [apply S1|apply F1].
Qed.

(** when the database answers, dispatching a delivery that is not sent
    and whose endpoint exists always ends its attempt: it sends at most one
    request, counts the attempt, and leaves the delivery sent, or failed with the
    retry time given by the backoff list while attempts remain, or a dead letter
    once the maximum is reached.  No other delivery changes. *)
Theorem dispatch_settles_attempt (di : Dispatcher) (ck : Clock) (id : Z) (d : IntTables)
  (r : list (option string)) (row : DeliveryRow) (ep : Endpoint) (p : json) :
  ids_ok d -> deliveries d !! id = Some row -> endpoint_of d row = Some ep ->
  payload_of row = Some p -> dl_Status (dr_delivery row) <> "sent" ->
  0 <= dl_Attempts (dr_delivery row) -> in_int64 (dl_Attempts (dr_delivery row) + 1) = true ->
  exists d' r' row', Dispatch di ck id (World d [] r) = (Ok tt, World d' [] r') /\
    deliveries d' = <[id := row']> (deliveries d) /\
    settled di ck (dl_Attempts (dr_delivery row)) row' /\
    exists new, sent_requests d' = (sent_requests d ++ new)%list /\ (length new <= 1)%nat.
Proof.
  intros IDS L E P S K I.
  destruct (dispatch_settles di ck id d r row ep p IDS L E P S K I)
    as (d' & r' & row' & H & D & _ & _ & St & Sent).
  by exists d', r', row'.
Qed.
End Dispatching.

(** ** Sent deliveries are final *)
Definition requests_for (id : Z) (d : IntTables) : list (Z * HttpRequest) :=
  List.filter (fun e => fst e =? id) (sent_requests d).

Definition sent_kept (d d' : IntTables) : Prop :=
  ids_ok d -> ids_ok d' /\
  forall id row, deliveries d !! id = Some row -> dl_Status (dr_delivery row) = "sent" ->
    deliveries d' !! id = Some row /\ requests_for id d' = requests_for id d.

#[export] Instance sent_kept_refl : Reflexive sent_kept.
Proof. by intros d H. Qed.

#[export] Instance sent_kept_trans : Transitive sent_kept.
Proof.
  intros d1 d2 d3 H1 H2 I. destruct (H1 I) as [I2 K1], (H2 I2) as [I3 K2]. split; [done|].
  intros id row L S. destruct (K1 _ _ L S) as [L2 R2]. destruct (K2 _ _ L2 S) as [L3 R3].
  split; [done|congruence].
Qed.

Lemma sent_kept_under d d' : (ids_ok d -> sent_kept d d') -> sent_kept d d'.
Proof. intros H I. by apply (H I). Qed.

Section Final.
Context `{C : Crypto} `{N : Network} `{T : Transport}.

Lemma save_sent_kept jt delivery o now : preserves sent_kept (SaveDispatchOutcome jt delivery o now).
Proof.
  intros w. destruct (SaveDispatchOutcome jt delivery o now w) as [[u|e] w'] eqn:E; simpl.
  2:{ apply save_err in E. by rewrite E. }
  apply save_ok in E as (row & L & A & D & Q & _). intros I. split.
  - intros id row'. rewrite D, lookup_insert. case_decide; [|apply I].
    intros [= <-]. subst. simpl. by apply I.
  - intros id row' L' S. split; [|unfold requests_for; by rewrite Q].
    rewrite D, lookup_insert. case_decide; [|done]. subst. rewrite L in L'. injection L' as ->.
    unfold outcome_applies in A. rewrite S, andb_false_r in A. done.
Qed.

Lemma fail_sent_kept di ck delivery st msg : preserves sent_kept (fail_dispatch di ck delivery st msg).
Proof.
  unfold fail_dispatch. cbv zeta. case_match; [apply save_sent_kept|].
  case_match; [apply save_sent_kept|]. apply preserves_fail, _.
Qed.

Lemma load_ok id w ep delivery w' :
  LoadForDispatch id w = (Ok (ep, delivery), w') ->
  w_db w' = w_db w /\ exists row p, deliveries (w_db w) !! id = Some row /\
    endpoint_of (w_db w) row = Some ep /\ payload_of row = Some p /\
    delivery = with_payload (dr_delivery row) p.
Proof.
  unfold LoadForDispatch. intros H. invert_ok H as H1. apply query_ok in H1 as [-> E].
  destruct (deliveries (w_db w) !! id) as [row|]; cbn [mbind option_bind] in H; [|done].
  fold (endpoint_of (w_db w) row) in H.
  destruct (endpoint_of (w_db w) row) as [ep'|] eqn:EP; cbn [mbind option_bind] in H; [|done].
  unfold payload_of. destruct (dr_payload row) as [[]|] eqn:P; try done;
    injection H as <- <- <-; (split; [done|]); eexists row, _; rewrite P; eauto.
Qed.

Lemma load_db id w e w' : LoadForDispatch id w = (Err e, w') -> w_db w' = w_db w.
Proof.
  intros H. assert (P : preserves eq (LoadForDispatch id)).
  { unfold LoadForDispatch. solve_preserves. }
  specialize (P w). rewrite H in P. by symmetry.
Qed.

Lemma send_sent_kept id rq w row :
  deliveries (w_db w) !! id = Some row -> dl_Status (dr_delivery row) <> "sent" ->
  sent_kept (w_db w) (w_db (snd (send id rq w))).
Proof.
  intros L S I. split; [exact I|]. intros id' row' L' S'. split; [done|].
  unfold requests_for. simpl. rewrite List.filter_app. simpl.
  destruct (Z.eqb_spec id id') as [<-|]; [congruence|]. by rewrite app_nil_r.
Qed.

Lemma dispatch_sent_kept di ck id : preserves sent_kept (Dispatch di ck id).
Proof.
  intros w. unfold Dispatch, bind at 1.
  destruct (LoadForDispatch id w) as [[[ep dl]|e] w1] eqn:E.
  2:{ apply load_db in E. simpl. by rewrite E. }
  apply load_ok in E as [E (row & p & L & _ & _ & ->)]. rewrite <- E in *. clear w E.
  destruct (String.eqb_spec (dl_Status (with_payload (dr_delivery row) p)) "sent") as [|S]; [done|].
  destruct (negb _); [done|]. cbv zeta.
  do 2 (destruct (negb _); [apply fail_sent_kept|]).
  destruct (marshal _) as [body|]; [|apply fail_sent_kept].
  destruct (DecryptLaravelString _ _); [apply fail_sent_kept|].
  destruct (negb _); [apply fail_sent_kept|].
  apply sent_kept_under. intros IDS.
  assert (ID : dl_ID (dr_delivery row) = id) by (by apply IDS). set (rq := signed_request _ _ _ _ _). unfold bind at 1.
  destruct (send _ rq w1) as [[resp|e] w2] eqn:Se; [|done].
  assert (K : sent_kept (w_db w1) (w_db w2)).
  { pose proof (send_sent_kept id rq w1 row L S) as K. simpl in Se. rewrite ID in Se.
    by rewrite Se in K. }
  etransitivity; [exact K|]. destruct resp as [status|]; [|apply fail_sent_kept].
  destruct (_ && _); [apply save_sent_kept|apply fail_sent_kept].
Qed.

Lemma turn_sent_kept di now ck : preserves sent_kept (worker_turn di now ck).
Proof.
  intros w. unfold worker_turn.
  assert (P : preserves eq (NextDispatchID now)) by (unfold NextDispatchID; solve_preserves).
  specialize (P w). destruct (NextDispatchID now w) as [[id|e] w1]; simpl in P; rewrite P.
  - pose proof (dispatch_sent_kept di ck id w1) as K.
    destruct (Dispatch di ck id w1) as [[u|[]] w2]; exact K.
  - destruct e; reflexivity.
Qed.

Lemma loop_sent_kept di ticks : preserves sent_kept (worker_loop di ticks).
Proof.
  induction ticks as [|[now ck] ticks IH]; simpl; [apply preserves_ret, _|].
  apply preserves_bind; [apply _|apply turn_sent_kept|].
  intros []; [exact IH|exact IH|apply preserves_ret, _].
Qed.

(** whatever the worker goes through, failing database calls
    included, a delivery that was sent keeps its row unchanged and no further
    request is made for it. *)
Theorem sent_deliveries_final (di : Dispatcher) (ticks : list (time * Clock))
  (w : world IntTables) (id : Z) (row : DeliveryRow) :
  ids_ok (w_db w) -> deliveries (w_db w) !! id = Some row ->
  dl_Status (dr_delivery row) = "sent" ->
  deliveries (db_after (Run di ticks) w) !! id = Some row /\
  requests_for id (db_after (Run di ticks) w) = requests_for id (w_db w).
Proof.
  intros I L S. assert (K : preserves sent_kept (Run di ticks)).
  { unfold Run. case_match; [apply preserves_ret, _|apply loop_sent_kept]. }
  by apply (K w I).
Qed.

(** A request that a dispatch sends is signed with the secret that the envelope opens to. *)
Lemma dispatch_signed (di : Dispatcher) (ck : Clock) (id : Z) (w w' : world IntTables) (u : unit)
  (row : DeliveryRow) (ep : Endpoint) (secret : string) (rid : Z) (rq : HttpRequest) :
  deliveries (w_db w) !! id = Some row -> endpoint_of (w_db w) row = Some ep ->
  DecryptLaravelString (di_ApplicationKey di) (ep_SecretEncrypted ep) = inr secret ->
  Dispatch di ck id w = (Ok u, w') ->
  sent_requests (w_db w') = (sent_requests (w_db w) ++ [(rid, rq)])%list ->
  exists body p, rq = signed_request ep (with_payload (dr_delivery row) p) body secret (ck_signature ck) /\
                 marshal (adapterPayload (ep_Adapter ep) (with_payload (dr_delivery row) p) (ck_payload ck)) = Some body.
Proof.
  intros Lk E Dec H Q.
  unfold Dispatch in H. invert_ok H as H1. destruct a as [ep' dl].
  apply load_ok in H1 as [E1 (row' & p & L' & E' & _ & ->)].
  assert (row' = row) as -> by congruence. assert (ep' = ep) as -> by congruence.
  rewrite <- E1 in Q. 
  assert (NoReq : forall st msg w1 w2, fail_dispatch (normalized di) ck (with_payload (dr_delivery row) p) st msg w1 = (Ok u, w2) ->
            sent_requests (w_db w2) = sent_requests (w_db w1)).
  { intros st msg w1 w2 F. unfold fail_dispatch in F. cbv zeta in F.
    repeat case_match; try done; by apply save_ok in F as (? & _ & _ & _ & -> & _). }
  assert (Absurd : sent_requests (w_db w') = sent_requests (w_db w0) -> False).
  { intros X. rewrite X in Q. apply (f_equal length) in Q. rewrite length_app in Q. simpl in Q. lia. }
  destruct (String.eqb _ _); [injection H as _ <-; by destruct Absurd|].
  destruct (negb _); [done|]. cbv zeta in H.
  do 2 (destruct (negb _); [destruct Absurd; by eapply NoReq|]).
  destruct (marshal _) as [body|] eqn:Mr; [|destruct Absurd; by eapply NoReq].
  change (di_ApplicationKey (normalized di)) with (di_ApplicationKey di) in H. rewrite Dec in H.
  destruct (negb _); [destruct Absurd; by eapply NoReq|].
  invert_ok H as H2. unfold send in H2. simpl in H2. injection H2 as Ha Hw.
  exists body, p. split; [|done].
  assert (X : sent_requests (w_db w') = sent_requests (w_db w1)).
  { destruct a as [status|]; [|by eapply NoReq].
    destruct (_ && _); [|by eapply NoReq]. by apply save_ok in H as (? & _ & _ & _ & -> & _). }
  rewrite X, <- Hw in Q. simpl in Q. apply app_inv_head in Q. by injection Q as _ <-.
Qed.

(** a request that a dispatch sends carries the signature of its own
    timestamp and body under the secret that was stored, encrypted, with the
    endpoint. *)
Theorem dispatch_signs_with_endpoint_secret `{L : !CryptoLaws C} (di : Dispatcher) (ck : Clock)
  (id : Z) (w w' : world IntTables) (u : unit) (row : DeliveryRow) (ep : Endpoint)
  (secret : string) (iv : list Z) (rid : Z) (rq : HttpRequest) :
  deliveries (w_db w) !! id = Some row -> endpoint_of (w_db w) row = Some ep ->
  length (di_ApplicationKey di) = 32%nat -> length iv = 16%nat -> Forall is_byte iv ->
  EncryptLaravelString (di_ApplicationKey di) secret (Some iv) = inr (ep_SecretEncrypted ep) ->
  Dispatch di ck id w = (Ok u, w') ->
  sent_requests (w_db w') = (sent_requests (w_db w) ++ [(rid, rq)])%list ->
  exists body p, rq = signed_request ep (with_payload (dr_delivery row) p) body secret (ck_signature ck) /\
                 marshal (adapterPayload (ep_Adapter ep) (with_payload (dr_delivery row) p) (ck_payload ck)) = Some body.
Proof.
  intros Lk E K1 K2 K3 Enc. by apply dispatch_signed, (envelope_inverse _ _ _ _ K1 K2 K3 Enc).
Qed.
(** ** Every request is signed with the secret of its endpoint *)

(** A request for a delivery of the queue: signed with what the secret stored with the
    delivery's endpoint decrypts to. *)
Definition made_for (key : list Z) (d : IntTables) (sent : Z * HttpRequest) : Prop :=
  exists i row ep dl body secret at_ t,
    deliveries d !! i = Some row /\ dl_ID (dr_delivery row) = fst sent /\
    dl_EndpointID (dr_delivery row) = ep_ID ep /\ In ep (endpoints d) /\
    dl_ID dl = fst sent /\ dl_EndpointID dl = ep_ID ep /\
    DecryptLaravelString key (ep_SecretEncrypted ep) = inr secret /\
    marshal (adapterPayload (ep_Adapter ep) dl t) = Some body /\
    snd sent = signed_request ep dl body secret at_.

(** The endpoints stay, and the deliveries stay those of their endpoints. *)
Definition same_queue (d d' : IntTables) : Prop :=
  endpoints d' = endpoints d /\
  forall i row', deliveries d' !! i = Some row' ->
    exists row, deliveries d !! i = Some row /\ dl_ID (dr_delivery row) = dl_ID (dr_delivery row') /\
                dl_EndpointID (dr_delivery row) = dl_EndpointID (dr_delivery row').

Definition signs (key : list Z) (d d' : IntTables) : Prop :=
  same_queue d d' /\
  exists new, sent_requests d' = (sent_requests d ++ new)%list /\ List.Forall (made_for key d) new.

#[local] Instance same_queue_refl : Reflexive same_queue.
Proof. intros d. split; eauto. Qed.

#[local] Instance same_queue_trans : Transitive same_queue.
Proof.
  intros d1 d2 d3 [E1 H1] [E2 H2]. split; [congruence|]. intros i row3 L3.
  destruct (H2 _ _ L3) as (row2 & L2 & A2 & B2), (H1 _ _ L2) as (row1 & L1 & A1 & B1).
  exists row1. split; [done|]. split; congruence.
Qed.

Lemma made_for_before key d d' sent : same_queue d d' -> made_for key d' sent -> made_for key d sent.
Proof.
  intros [E H] (i & row & ep & dl & body & secret & a & t & L & I & K & Hin & R).
  destruct (H _ _ L) as (row0 & L0 & I0 & K0). exists i, row0, ep, dl, body, secret, a, t.
  rewrite <- E. split; [done|]. split; [congruence|]. split; [congruence|]. by split.
Qed.

#[local] Instance signs_refl key : Reflexive (signs key).
Proof. intros d. split; [reflexivity|]. exists []. rewrite app_nil_r. by split. Qed.

#[local] Instance signs_trans key : Transitive (signs key).
Proof.
  intros d1 d2 d3 [Q1 (n1 & E1 & F1)] [Q2 (n2 & E2 & F2)]. split; [by etransitivity|].
  exists (n1 ++ n2)%list. rewrite E2, E1, app_assoc. split; [done|]. apply List.Forall_app. split; [done|].
  eapply List.Forall_impl; [|exact F2]. intros sent. by apply made_for_before.
Qed.

Lemma signs_silent key d d' :
  same_queue d d' -> sent_requests d' = sent_requests d -> signs key d d'.
Proof. intros Q E. split; [done|]. exists []. by rewrite E, app_nil_r. Qed.

Lemma signs_outcome key dl o now d : signs key d (fst (update_outcome dl o now d)).
Proof.
  unfold update_outcome. destruct (deliveries d !! dl_ID dl) as [row|] eqn:L; [|reflexivity].
  destruct (outcome_applies dl row); [|reflexivity]. apply signs_silent; [|done]. split; [done|].
  intros i row'. cbn. rewrite lookup_insert. case_decide; [|by eauto]. subst. intros [= <-]. by exists row.
Qed.

Lemma signs_audit key a d : signs key d (add_dispatch_audit a d).
Proof. apply signs_silent; [|done]. split; eauto. Qed.

#[local] Hint Resolve signs_outcome signs_audit : effects.

Lemma signs_save key jt dl o now : preserves (signs key) (SaveDispatchOutcome jt dl o now).
Proof. unfold SaveDispatchOutcome, randomUUID. solve_preserves. Qed.

Lemma signs_fail key di ck dl st msg : preserves (signs key) (fail_dispatch di ck dl st msg).
Proof.
  unfold fail_dispatch. cbv zeta. case_match; [apply signs_save|].
  case_match; [apply signs_save|]. apply preserves_fail, _.
Qed.

Lemma signs_dispatch di ck id : preserves (signs (di_ApplicationKey di)) (Dispatch di ck id).
Proof.
  intros w. unfold Dispatch, bind at 1.
  destruct (LoadForDispatch id w) as [[[ep dl]|e] w1] eqn:E.
  2:{ apply load_db in E. simpl. by rewrite E. }
  apply load_ok in E as [E (row & p & L & Ep & _ & ->)]. rewrite <- E in *. clear w E.
  destruct (String.eqb _ _); [done|]. destruct (negb _); [done|]. cbv zeta.
  do 2 (destruct (negb _); [apply signs_fail|]).
  destruct (marshal _) as [body|] eqn:Mr; [|apply signs_fail].
  change (di_ApplicationKey (normalized di)) with (di_ApplicationKey di).
  destruct (DecryptLaravelString _ _) as [?|secret] eqn:Dc; [apply signs_fail|].
  destruct (negb _); [apply signs_fail|].
  set (rq := signed_request _ _ _ _ _). unfold bind at 1, send, bind at 1, modify, ret. cbn [w_db fst snd].
  etransitivity; [|instantiate (1 := log_request (dl_ID (with_payload (dr_delivery row) p)) rq (w_db w1));
    set (w2 := World _ _ _); change (log_request _ _ _) with (w_db w2)].
  - split; [by split; eauto|]. eexists. split; [reflexivity|]. constructor; [|constructor].
    pose proof (endpoint_matches _ _ _ Ep) as X. rewrite !andb_true_iff, !Z.eqb_eq in X. destruct X as [_ X].
    unfold endpoint_of in Ep. apply find_some in Ep as [Hin _].
    by eexists id, row, ep, (with_payload (dr_delivery row) p), body, secret, _, _.
  - destruct (client_do rq) as [status|]; [|apply signs_fail].
    destruct (_ && _); [apply signs_save|apply signs_fail].
Qed.

Lemma signs_turn di now ck : preserves (signs (di_ApplicationKey di)) (worker_turn di now ck).
Proof.
  intros w. unfold worker_turn.
  assert (P : preserves eq (NextDispatchID now)) by (unfold NextDispatchID; solve_preserves).
  specialize (P w). destruct (NextDispatchID now w) as [[id|e] w1]; simpl in P; rewrite P.
  - pose proof (signs_dispatch di ck id w1) as K. destruct (Dispatch di ck id w1) as [[u|[]] w2]; exact K.
  - destruct e; reflexivity.
Qed.

Lemma signs_run di ticks : preserves (signs (di_ApplicationKey di)) (Run di ticks).
Proof.
  unfold Run. destruct (negb _); [apply preserves_ret, _|].
  induction ticks as [|[now ck] ticks IH]; simpl; [apply preserves_ret, _|].
  apply preserves_bind; [apply _|apply signs_turn|].
  intros []; [exact IH|exact IH|apply preserves_ret, _].
Qed.
End Final.

(** ** A concrete installation *)
#[export] Instance sample_network : Network := {|
  parseRequestURI := fun s => if String.eqb s "https://hooks.example.com/x"
    then Some {| url_scheme := "https"; url_hostname := "hooks.example.com"; url_has_user := false |}
    else None;
  parseIP := fun _ => None;
  lookupIP := fun h => if String.eqb h "hooks.example.com" then Some [[93; 184; 216; 34]] else None;
|}.

#[export] Instance sample_transport : Transport := {|
  marshal := fun _ => Some "{}";
  format_nano := format_micros;
  json_time := fun t => JStr (format_micros t);
  newRequest := fun _ => true;
  client_do := fun _ => Some 204;
|}.

Definition sample_secret : string :=
  match EncryptLaravelString sample_key "hunter2" (Some sample_iv) with inr e => e | inl _ => "" end.

Definition sample_endpoint : Endpoint :=
  {| ep_ID := 4; ep_TenantID := 7; ep_ProjectID := 1; ep_Adapter := "slack";
     ep_URL := "https://hooks.example.com/x"; ep_Status := "active";
     ep_SecretEncrypted := sample_secret |}.

Definition sample_row (id endpoint : Z) (status : string) (attempts created : Z) : DeliveryRow :=
  {| dr_delivery := {| dl_ID := id; dl_TenantID := 7; dl_ProjectID := 1; dl_EndpointID := endpoint;
                       dl_DeliveryID := "dv-1"; dl_Event := "run.completed";
                       dl_SchemaVersion := "1"; dl_Status := status; dl_Attempts := attempts;
                       dl_Payload := JNull |};
     dr_payload := Some (JObj []); dr_responseStatus := None; dr_lastError := None;
     dr_nextAttemptAt := None; dr_sentAt := None; dr_created_at := Some created;
     dr_updated_at := None |}.

Definition delivery_tables (m : gmap Z DeliveryRow) : IntTables :=
  {| endpoints := [sample_endpoint]; deliveries := m; dispatch_audits := []; jobs := Some 0;
     failed_jobs := Some 0; has_deliveries_table := true; result_exports := Some 0;
     sent_requests := [] |}.

Definition sample_dispatcher : Dispatcher :=
  {| di_ApplicationKey := sample_key; di_MaxAttempts := 0; di_Backoff := [] |}.

Definition sample_clock (t : time) : Clock :=
  {| ck_payload := t; ck_signature := t; ck_outcome := t; ck_save := t |}.

Definition one_pending : IntTables := delivery_tables {[ 1 := sample_row 1 4 "pending" 0 0 ]}.

Lemma singleton_ids_ok id row : dl_ID (dr_delivery row) = id -> ids_ok (delivery_tables {[ id := row ]}).
Proof. intros E i x H. simpl in H. apply lookup_singleton_Some in H as [<- <-]. done. Qed.

Definition first_outcome : DispatchOutcome :=
  {| o_Status := "sent"; o_Attempts := 1; o_ResponseStatus := Some 204; o_LastError := None;
     o_NextAttemptAt := None; o_SentAt := Some 5 |}.

Definition second_outcome : DispatchOutcome :=
  {| o_Status := "failed"; o_Attempts := 1; o_ResponseStatus := None; o_LastError := None;
     o_NextAttemptAt := None; o_SentAt := None |}.

Lemma outcome_saved_once_witness :
  exists w1 e w3,
    SaveDispatchOutcome json_time (dr_delivery (sample_row 1 4 "pending" 0 0))
      first_outcome 5 (World one_pending [] []) = (Ok tt, w1) /\
    SaveDispatchOutcome json_time (dr_delivery (sample_row 1 4 "pending" 0 0))
      second_outcome 6 (World (w_db w1) [] []) = (Err e, w3).
Proof.
  destruct (SaveDispatchOutcome json_time (dr_delivery (sample_row 1 4 "pending" 0 0))
      first_outcome 5 (World one_pending [] []))
    as [[[]|e] w1] eqn:E; [|vm_compute in E; discriminate].
  destruct (outcome_saved_once json_time (dr_delivery (sample_row 1 4 "pending" 0 0)) first_outcome
    second_outcome 5 6 (World one_pending [] []) w1 (World (w_db w1) [] []) tt
    eq_refl eq_refl E eq_refl) as (e & w3 & H & _).
  exists w1, e, w3. split; [reflexivity|exact H].
Defined.

Lemma next_delivery_is_first_due_witness :
  exists w' row, NextDispatchID 9 (World one_pending [] []) = (Ok 1, w') /\
                 deliveries one_pending !! 1 = Some row /\ due 9 row = true.
Proof.
  destruct (NextDispatchID 9 (World one_pending [] [])) as [[id|e] w'] eqn:E;
    [|vm_compute in E; discriminate].
  assert (id = 1) as -> by (vm_compute in E; injection E as <- <-; reflexivity).
  destruct (next_delivery_is_first_due 9 _ w' 1 E) as (row & L & D & _).
  exists w', row. split; [reflexivity|]. split; assumption.
Defined.

Lemma dispatch_settles_attempt_witness :
  exists d' r' row', Dispatch sample_dispatcher (sample_clock 5) 1 (World one_pending [] [])
                     = (Ok tt, World d' [] r') /\ settled sample_dispatcher (sample_clock 5) 0 row'.
Proof.
  destruct (dispatch_settles_attempt sample_dispatcher (sample_clock 5) 1 one_pending []
              (sample_row 1 4 "pending" 0 0) sample_endpoint (JObj [])) as (d' & r' & row' & E & _ & S & _).
  - apply singleton_ids_ok. reflexivity.
  - vm_compute. reflexivity.
  - vm_compute. reflexivity.
  - vm_compute. reflexivity.
  - vm_compute. discriminate.
  - vm_compute. discriminate.
  - vm_compute. reflexivity.
  - exists d', r', row'. split; [exact E|exact S].
Defined.

Lemma sent_deliveries_final_witness :
  deliveries (db_after (Run sample_dispatcher [(9, sample_clock 9)])
    (World (delivery_tables {[ 1 := sample_row 1 4 "sent" 1 0 ]}) [] [])) !! 1
  = Some (sample_row 1 4 "sent" 1 0).
Proof.
  apply (sent_deliveries_final sample_dispatcher [(9, sample_clock 9)]
           (World (delivery_tables {[ 1 := sample_row 1 4 "sent" 1 0 ]}) [] []) 1).
  - apply singleton_ids_ok. reflexivity.
  - vm_compute. reflexivity.
  - reflexivity.
Defined.

Lemma dispatch_signs_with_endpoint_secret_witness :
  exists w' rq body p, Dispatch sample_dispatcher (sample_clock 5) 1 (World one_pending [] []) = (Ok tt, w') /\
    rq = signed_request sample_endpoint p body "hunter2" 5.
Proof.
  destruct (Dispatch sample_dispatcher (sample_clock 5) 1 (World one_pending [] []))
    as [[[]|e] w'] eqn:E; [|vm_compute in E; discriminate].
  destruct (sent_requests (w_db w')) as [|[rid rq] [|]] eqn:Q;
    try (exfalso; vm_compute in E; injection E as <-; vm_compute in Q; discriminate).
  destruct (dispatch_signs_with_endpoint_secret sample_dispatcher (sample_clock 5) 1
    (World one_pending [] []) w' tt (sample_row 1 4 "pending" 0 0) sample_endpoint "hunter2" sample_iv
    rid rq) as (body & p & H & _).
  - vm_compute. reflexivity.
  - vm_compute. reflexivity.
  - reflexivity.
  - reflexivity.
  - repeat constructor; vm_compute; discriminate || reflexivity.
  - vm_compute. reflexivity.
  - exact E.
  - exact Q.
  - exists w', rq, body, (with_payload (dr_delivery (sample_row 1 4 "pending" 0 0)) p).
    split; [reflexivity|exact H].
Defined.

(** a pending delivery whose endpoint is gone blocks the queue: at
    every turn the worker selects it again, its dispatch reports it not found,
    nothing changes, and the delivery behind it is never sent. *)
Theorem orphan_delivery_blocks_queue (ticks : list (time * Clock)) (random : list (option string)) :
  let d := delivery_tables {[ 1 := sample_row 1 99 "pending" 0 0; 2 := sample_row 2 4 "pending" 0 10 ]} in
  Run sample_dispatcher ticks (World d [] random) = (Ok contextCanceled, World d [] random).
Proof.
  intros d. unfold Run. change (negb _) with false. cbv iota.
  assert (F : forall now, first_due now (deliveries d) = Some 1) by (intros now; vm_compute; reflexivity).
  assert (Tn : forall now ck, worker_turn sample_dispatcher now ck (World d [] random)
               = (Ok Again, World d [] random)).
  { intros now ck. unfold worker_turn, NextDispatchID.
    rewrite (eval_bind _ _ _ _ _ (eval_query _ _ _ _)), F. unfold ret.
    assert (D : Dispatch sample_dispatcher ck 1 (World d [] random)
                = (Err ErrDeliveryNotFound, World d [] random)) by reflexivity.
    by rewrite D. }
  induction ticks as [|[now ck] ticks IH]; [done|]. cbn [worker_loop].
  by rewrite (eval_bind _ _ _ _ _ (Tn now ck)).
Qed.

(** ** The queue-drain gate *)
Definition small_count (o : option Z) : Prop := forall n, o = Some n -> 0 <= n < 2 ^ 61.

Lemma aggregate_ok f w n w' :
  aggregateCount f w = (Ok n, w') -> f (w_db w) = Some n /\ w_db w' = w_db w.
Proof.
  unfold aggregateCount. intros H. invert_ok H as H1. apply query_ok in H1 as [-> E1].
  destruct (f (w_db w)) as [m|] eqn:F; [|done]. simpl in H.
  invert_ok H as H2. apply query_ok in H2 as [-> E2]. injection H as <- <-.
  rewrite E1, F. split; [done|congruence].
Qed.

Lemma queued_ok driver w n w' :
  QueuedJobs driver w = (Ok n, w') ->
  w_db w' = w_db w /\ (if String.eqb driver "sync" then n = 0 else jobs (w_db w) = Some n).
Proof.
  unfold QueuedJobs. destruct (String.eqb driver "sync"); [by intros [= <- <-]|].
  intros H. by apply aggregate_ok in H as [H ->].
Qed.

Lemma domain_ok w dom w' :
  PendingDomainJobs w = (Ok dom, w') ->
  exists a b, dom = [("integration_deliveries", a); ("result_exports", b)] /\
    pending_deliveries (w_db w) = Some a /\ result_exports (w_db w) = Some b.
Proof.
  unfold PendingDomainJobs. intros H. invert_ok H as H1. apply aggregate_ok in H1 as [F1 E1].
  invert_ok H as H2. apply aggregate_ok in H2 as [F2 E2]. injection H as <- <-.
  rewrite E1 in F2. eauto.
Qed.

Lemma wrap64_small z : 0 <= z < 2 ^ 63 -> wrap64 z = z.
Proof.
  intros H. apply wrap64_id. unfold in_int64, int64_min, int64_max.
  apply andb_true_iff. rewrite !Z.leb_le. lia.
Qed.

(** the gate says ready exactly when the workers are confirmed stopped
    and no job is queued (under the database driver), failed, or pending in
    either domain table. *)
Theorem queue_drain_ready_iff (driver : string) (stopped : bool) (w w' : world IntTables)
  (v : QueueDrainVerification) :
  small_count (jobs (w_db w)) -> small_count (failed_jobs (w_db w)) ->
  small_count (pending_deliveries (w_db w)) -> small_count (result_exports (w_db w)) ->
  VerifyQueueDrain driver stopped w = (Ok v, w') ->
  (q_Status v = "ready" <->
   stopped = true /\ (driver <> "sync" -> jobs (w_db w) = Some 0) /\
   failed_jobs (w_db w) = Some 0 /\ pending_deliveries (w_db w) = Some 0 /\
   result_exports (w_db w) = Some 0).
Proof.
  intros B1 B2 B3 B4 H. unfold VerifyQueueDrain in H. destruct (negb _); [done|].
  invert_ok H as H1. apply queued_ok in H1 as [E1 Q].
  invert_ok H as H2. apply aggregate_ok in H2 as [F2 E2].
  invert_ok H as H3. apply domain_ok in H3 as (x & y & -> & F3 & F4).
  injection H as <- <-. rewrite E2 in F3, F4. rewrite E1 in F2, F3, F4. cbn [q_Status fold_left snd].
  assert (Bq : 0 <= a < 2 ^ 61).
  { destruct (String.eqb driver "sync"); [subst; lia|by apply B1]. }
  pose proof (B2 _ F2). pose proof (B3 _ F3). pose proof (B4 _ F4).
  rewrite (wrap64_small (a + a0)) by lia. rewrite (wrap64_small (a + a0 + x)) by lia.
  rewrite (wrap64_small (a + a0 + x + y)) by lia. rewrite F2, F3, F4.
  assert (Qz : a = 0 <-> (driver <> "sync" -> jobs (w_db w) = Some 0)).
  { destruct (String.eqb_spec driver "sync"); [tauto|]. rewrite Q. naive_solver. }
  rewrite <- Qz. destruct stopped; simpl.
  - destruct (Z.eqb_spec (a + a0 + x + y) 0) as [Z0|Z0]; simpl.
    + split; [intros _|done]. repeat split; try f_equal; lia.
    + split; [done|]. intros (_ & -> & [= ->] & [= ->] & [= ->]). done.
  - split; [done|]. by intros [].
Qed.

Lemma queue_drain_ready_iff_witness :
  exists v w', VerifyQueueDrain "database" true (World (delivery_tables ∅) [] []) = (Ok v, w') /\
               q_Status v = "ready".
Proof.
  destruct (VerifyQueueDrain "database" true (World (delivery_tables ∅) [] []))
    as [[v|e] w'] eqn:E; [|vm_compute in E; discriminate].
  exists v, w'. split; [reflexivity|].
  apply (queue_drain_ready_iff "database" true (World (delivery_tables ∅) [] []) w' v);
    [..|exact E|]; try (intros n Hn; vm_compute in Hn; injection Hn as <-; lia).
  vm_compute. repeat split.
Defined.

(** ** Destinations *)

(** The IPv4 blocks that never leave a private or local network. *)
Definition internal_v4 (v : ip) : Prop :=
  octet v 0 = 127 \/ octet v 0 = 10 \/ (octet v 0 = 172 /\ 16 <= octet v 1 < 32) \/
  (octet v 0 = 192 /\ octet v 1 = 168) \/ (octet v 0 = 169 /\ octet v 1 = 254) \/
  224 <= octet v 0 < 240 \/ v = [0; 0; 0; 0] \/ v = [255; 255; 255; 255].

Lemma land_240 b k : 0 <= b < 256 -> 0 <= k < 16 -> 16 * k <= b < 16 * k + 16 -> Z.land b 240 = 16 * k.
Proof.
  intros B K H.
  assert (E : forallb (fun b => Z.land b 240 =? b / 16 * 16) (map Z.of_nat (seq 0 256)) = true)
    by (vm_compute; reflexivity).
  rewrite forallb_forall in E. specialize (E b). rewrite Z.eqb_eq in E. rewrite E.
  - Z.div_mod_to_equations. lia.
  - apply in_map_iff. exists (Z.to_nat b). split; [lia|]. apply in_seq. lia.
Qed.

Lemma public_v4 a v :
  to4 a = Some v -> Forall is_byte v -> publicAddress a = true -> ~ internal_v4 v.
Proof.
  intros T F P. assert (B : forall i, 0 <= octet v i < 256).
  { intros i. unfold octet. destruct (nth_in_or_default i v 0) as [I| ->]; [|lia].
    rewrite List.Forall_forall in F. by apply F. }
  unfold publicAddress, isGlobalUnicast, isPrivate, isLoopback, isLinkLocalUnicast, isMulticast,
    isUnspecified in P. rewrite T in P.
  rewrite !andb_true_iff, !negb_true_iff, !orb_false_iff, !andb_false_iff, !Z.eqb_neq,
    !bool_decide_eq_false in P.
  unfold internal_v4. pose proof (B 0%nat). pose proof (B 1%nat).
  pose proof (land_240 (octet v 0) 14). pose proof (land_240 (octet v 1) 1).
  intros I. destruct I as [I|[I|[I|[I|[I|[I|[I|I]]]]]]]; intuition lia.
Qed.

(** a destination the dispatcher accepts is an http or https URL
    without credentials whose host is not localhost and stands for at least one
    address, all of them outside the loopback, private, link-local, multicast,
    unspecified and broadcast IPv4 blocks. *)
Theorem safe_destination_public `{Nw : Network} (value : string) :
  (forall h a, parseIP h = Some a -> Forall is_byte a) ->
  (forall h l, lookupIP h = Some l -> Forall (Forall is_byte) l) ->
  SafeDestination value = true ->
  exists u addresses, parseRequestURI value = Some u /\
    (url_scheme u = "http" \/ url_scheme u = "https") /\ url_has_user u = false /\
    equalFold (url_hostname u) "localhost" = false /\
    (parseIP (url_hostname u) = None -> lookupIP (url_hostname u) = Some addresses) /\
    (forall a, parseIP (url_hostname u) = Some a -> addresses = [a]) /\ addresses <> [] /\
    forall a v, In a addresses -> to4 a = Some v -> ~ internal_v4 v.
Proof.
  intros BP BL. unfold SafeDestination. destruct (parseRequestURI value) as [u|]; [|done].
  destruct (negb _ || _ || _ || _) eqn:G; [done|].
  rewrite !orb_false_iff, negb_false_iff, orb_true_iff, !String.eqb_eq in G.
  destruct G as [[[G1 _] G2] G3].
  assert (Sub : forall a v, Forall is_byte a -> to4 a = Some v -> Forall is_byte v).
  { intros a v Fa. unfold to4. repeat case_match; intros [= <-]; [done|by apply Forall_drop]. }
  destruct (parseIP (url_hostname u)) as [a|] eqn:PI.
  - intros P. exists u, [a]. rewrite PI. do 4 (split; [done|]). split; [done|].
    split; [by intros ? [= ->]|]. split; [done|]. intros x v [<-|[]] T. eapply public_v4; [exact T| |exact P]. eapply Sub; [|exact T]. by eapply BP.
  - destruct (lookupIP (url_hostname u)) as [[|a l]|] eqn:LK; [done| |done]. intros P.
    exists u, (a :: l). rewrite PI, LK. do 7 (split; [done|]).
    intros x v I T. rewrite forallb_forall in P. eapply public_v4; [exact T| |by apply P].
    eapply Sub; [|exact T]. apply BL in LK. rewrite List.Forall_forall in LK. by apply LK.
Qed.

Lemma safe_destination_public_witness :
  exists u, parseRequestURI "https://hooks.example.com/x" = Some u /\ url_has_user u = false.
Proof.
  destruct (safe_destination_public "https://hooks.example.com/x") as (u & l & P & _ & U & _).
  - intros h a H. discriminate H.
  - intros h l H. cbn in H. destruct (String.eqb h "hooks.example.com"); [|discriminate H].
    injection H as <-. repeat constructor; vm_compute; discriminate || reflexivity.
  - vm_compute. reflexivity.
  - exists u. split; assumption.
Defined.

(** Reserved blocks that are none of those pass the test: shared address space,
    documentation and class E addresses. *)
Example reserved_addresses_pass :
  publicAddress [100; 64; 0; 1] = true /\ publicAddress [192; 0; 2; 1] = true /\
  publicAddress [240; 0; 0; 1] = true.
Proof. vm_compute. done. Qed.

(** * The worker drains the queue *)
(** The deliveries that are due at an instant. *)
Definition due_at (t : time) (d : IntTables) : gmap Z DeliveryRow :=
  filter (fun e => due t (snd e) = true) (deliveries d).

Lemma due_mono t t' row : t <= t' -> due t row = true -> due t' row = true.
Proof.
  unfold due. intros L. rewrite !orb_true_iff, !andb_true_iff.
  destruct (dr_nextAttemptAt row); rewrite ?Z.leb_le; intuition lia.
Qed.

Lemma due_not_sent t row : due t row = true -> dl_Status (dr_delivery row) <> "sent".
Proof. intros H E. unfold due in H. by rewrite E in H. Qed.

Lemma first_due_none t m : first_due t m = None -> forall id row, m !! id = Some row -> due t row = false.
Proof.
  unfold first_due. fold keeps_best. intros H id row L. apply not_true_iff_false. intros D.
  assert (I : In (id, row) (List.filter (fun e => due t (snd e)) (map_to_list m))).
  { apply filter_In. split; [|done]. by apply list_elem_of_In, elem_of_map_to_list. }
  destruct (List.filter _ _) as [|e l]; [destruct I|]. apply fmap_None in H. cbn [fold_left] in H.
  change (fold_left keeps_best l (Some e) = None) in H.
  clear I. revert e H. induction l as [|e' l IH]; intros e H; [done|]. cbn [fold_left keeps_best] in H.
  destruct (earlier e' e); by eapply IH.
Qed.

Section Drain.
Context `{C : Crypto} `{N : Network} `{T : Transport}.
Context (di : Dispatcher) (last : time).

(** What dispatching a delivery needs: its endpoint, a payload that decodes, a counter
    that can be incremented. *)
Definition deliverable (d : IntTables) (row : DeliveryRow) : Prop :=
  is_Some (endpoint_of d row) /\ is_Some (payload_of row) /\
  0 <= dl_Attempts (dr_delivery row) /\ in_int64 (dl_Attempts (dr_delivery row) + 1) = true.

Definition queue_ok (d : IntTables) : Prop :=
  ids_ok d /\ forall id row, deliveries d !! id = Some row -> due last row = true -> deliverable d row.

(** No retry falls due again before the window ends. *)
Definition unhurried (ck : Clock) : Prop := forall k, 0 <= k -> last < ck_outcome ck + backoff_for di k.

(** How a delivery was attempted: once, from the row it had. *)
Definition attempted (row row' : DeliveryRow) : Prop :=
  due last row = true /\ due last row' = false /\
  exists ck, settled di ck (dl_Attempts (dr_delivery row)) row'.

(** What turns of the worker do to the queue: a delivery is as it was, or was attempted
    once; none appears. *)
Definition progress (d d' : IntTables) : Prop :=
  forall id, deliveries d' !! id = deliveries d !! id \/
    exists row row', deliveries d !! id = Some row /\ deliveries d' !! id = Some row' /\ attempted row row'.

#[local] Instance progress_refl : Reflexive progress.
Proof. intros d id. by left. Qed.

#[local] Instance progress_trans : Transitive progress.
Proof.
  intros d1 d2 d3 H K id. destruct (K id) as [->|(row & row' & L & L' & A)]; [apply H|].
  destruct (H id) as [E|(row0 & row1 & L0 & L1 & _ & A0 & _)].
  - right. exists row, row'. by rewrite <- E.
  - rewrite L1 in L. injection L as ->. destruct A as [A _]. congruence.
Qed.

Lemma settled_not_due ck k row :
  0 <= k -> unhurried ck -> settled di ck k row -> due last row = false.
Proof.
  intros K U (_ & [(S & _ & _)|[(S & _ & E)|(S & _ & _)]]); unfold due; rewrite S; [done| |done].
  rewrite E. specialize (U k K). simpl. apply Z.leb_gt. lia.
Qed.

(** One turn: it sleeps because nothing is due, or attempts one due delivery. *)
Lemma turn_progress d r t ck :
  queue_ok d -> t <= last -> unhurried ck ->
  (worker_turn di t ck (World d [] r) = (Ok SleepPoll, World d [] r) /\
   forall id row, deliveries d !! id = Some row -> due t row = false) \/
  exists d' r', worker_turn di t ck (World d [] r) = (Ok Again, World d' [] r') /\
    progress d d' /\ queue_ok d' /\ (size (due_at last d') < size (due_at last d))%nat.
Proof.
  intros [IDS Q] Tt U. unfold worker_turn, NextDispatchID.
  rewrite (eval_bind _ _ _ _ _ (eval_query _ _ _ _)).
  destruct (first_due t (deliveries d)) as [id|] eqn:F; [right|left; split; [done|by apply first_due_none]].
  apply first_due_spec in F as (row & L & D & _). apply (due_mono t last) in D; [|done].
  destruct (Q _ _ L D) as ([ep Ep] & [p Pa] & K & I).
  destruct (dispatch_settles di ck id d r row ep p IDS L Ep Pa (due_not_sent _ _ D) K I)
    as (d' & r' & row' & E & Ed & Ee & Id & S & _).
  exists d', r'. unfold ret. rewrite E. split; [done|].
  assert (D' : due last row' = false) by (by eapply settled_not_due).
  split; [|split; [split|]].
  - intros i. rewrite Ed, lookup_insert. case_decide as Ei; [subst i; right|by left].
    exists row, row'. split; [done|]. split; [done|]. split; [done|]. eauto.
  - intros i x. rewrite Ed, lookup_insert. case_decide as Ei; [|apply IDS]. intros [= <-]. by subst.
  - intros i x. rewrite Ed, lookup_insert. case_decide as Ei; [intros [= <-]; congruence|].
    intros Lx Dx. specialize (Q _ _ Lx Dx). unfold deliverable, endpoint_of in *. by rewrite Ee.
  - unfold due_at. rewrite Ed, map_filter_insert_False by (simpl; congruence).
    rewrite map_filter_delete.
    assert (Lf : filter (fun e => due last (snd e) = true) (deliveries d) !! id = Some row)
      by (by apply map_lookup_filter_Some).
    rewrite map_size_delete_Some by (by eexists).
    assert (Sz : size (filter (fun e => due last (snd e) = true) (deliveries d)) <> 0%nat).
    { intros Z0. apply map_size_empty_inv in Z0. rewrite Z0 in Lf. done. }
    lia.
Qed.

Lemma loop_progress first ticks d r :
  queue_ok d -> first <= last ->
  (forall t ck, In (t, ck) ticks -> first <= t <= last /\ unhurried ck) ->
  exists d' r', worker_loop di ticks (World d [] r) = (Ok contextCanceled, World d' [] r') /\ progress d d' /\
    ((size (due_at last d) <= length ticks)%nat \/
     (forall id row, deliveries d !! id = Some row -> due first row = false) ->
     forall id row, deliveries d' !! id = Some row -> due first row = false).
Proof.
  intros Q Fl. revert d r Q. induction ticks as [|[t ck] ticks IH]; intros d r Q W.
  { exists d, r. split; [done|]. split; [done|]. simpl. intros [Z0|D] id row L; [|by eapply D].
    assert (E : due_at last d = ∅) by (apply map_size_empty_inv; lia).
    apply not_true_iff_false. intros D. apply (due_mono first last) in D; [|done].
    assert (X : due_at last d !! id = Some row) by (by apply map_lookup_filter_Some).
    by rewrite E in X. }
  destruct (W t ck) as [Wt U]; [by left|]. cbn [worker_loop].
  destruct (turn_progress d r t ck Q) as [[E Idle]|(d1 & r1 & E & P & Q1 & Sz)]; [lia|done|..].
  - rewrite (eval_bind _ _ _ _ _ E).
    destruct (IH d r Q) as (d' & r' & H & P & K); [intros; apply W; by right|].
    exists d', r'. split; [done|]. split; [done|]. intros _. apply K. right.
    intros id row L. apply not_true_iff_false. intros D. apply (due_mono first t) in D; [|lia].
    by rewrite (Idle _ _ L) in D.
  - rewrite (eval_bind _ _ _ _ _ E).
    destruct (IH d1 r1 Q1) as (d' & r' & H & P' & K); [intros; apply W; by right|].
    exists d', r'. split; [done|]. split; [by etransitivity|]. simpl. intros [L|Idle]; apply K; [left; lia|right].
    intros id row L1. destruct (P id) as [Eq|(row0 & row1 & _ & L1' & _ & D1 & _)].
    + rewrite Eq in L1. by eapply Idle.
    + rewrite L1 in L1'. injection L1' as <-. apply not_true_iff_false. intros D.
      apply (due_mono first last) in D; [|done]. congruence.
Qed.
End Drain.

(** Claim C37: the worker empties its queue.  Let every delivery that is due by the end of a
    window of instants be deliverable: its endpoint is there, its payload decodes, and its
    counters are those of a delivery (a delivery whose endpoint is gone does block the
    queue).  Let every retry delay of the configured backoff end after the window, and the
    database answer.  Then a worker with a 32-byte key whose turns in the window are at
    least as many as the deliveries due by its end goes through all its turns, so that what
    ends it is the cancellation of its context, and leaves none of the deliveries that were
    due at the start pending: each was attempted exactly once and is sent, scheduled after
    the window, or a dead letter, whatever the destinations answered; a delivery that was
    not due by the end of the window is as it was. *)
Theorem worker_drains_queue `{C : Crypto} `{N : Network} `{T : Transport} (di : Dispatcher)
  (first last : time) (ticks : list (time * Clock)) (d : IntTables) (r : list (option string)) :
  length (di_ApplicationKey di) = 32%nat -> queue_ok last d -> first <= last ->
  (forall t ck, In (t, ck) ticks -> first <= t <= last /\ unhurried di last ck) ->
  (size (due_at last d) <= length ticks)%nat ->
  exists d' r', Run di ticks (World d [] r) = (Ok contextCanceled, World d' [] r') /\
    forall id row, deliveries d !! id = Some row ->
      exists row', deliveries d' !! id = Some row' /\
        (due last row = false -> row' = row) /\
        (due first row = true -> due last row' = false /\
           exists ck, settled di ck (dl_Attempts (dr_delivery row)) row').
Proof.
  intros Key Q Fl W Sz. unfold Run. rewrite Key. cbn [Nat.eqb negb].
  destruct (loop_progress di last first ticks d r Q Fl W) as (d' & r' & E & P & K).
  exists d', r'. split; [done|]. intros id row L.
  destruct (P id) as [Eq|(row0 & row' & L0 & L' & D & D' & S)].
  - exists row. rewrite Eq. split; [done|]. split; [done|]. intros D. rewrite <- Eq in L.
    rewrite (K (or_introl Sz) _ _ L) in D. done.
  - rewrite L in L0. injection L0 as <-. exists row'. split; [done|]. split; [congruence|done].
Qed.

Lemma worker_drains_queue_witness :
  exists d' r', Run sample_dispatcher [(9, sample_clock 9)] (World one_pending [] []) = (Ok contextCanceled, World d' [] r') /\
    exists row', deliveries d' !! 1 = Some row' /\ due 10 row' = false.
Proof.
  destruct (worker_drains_queue sample_dispatcher 9 10 [(9, sample_clock 9)] one_pending [])
    as (d' & r' & E & H).
  - reflexivity.
  - split; [apply singleton_ids_ok; reflexivity|]. intros id row L _.
    cbn [one_pending delivery_tables deliveries] in L.
    apply lookup_singleton_Some in L as [<- <-].
    split; [vm_compute; eauto|]. split; [vm_compute; eauto|]. split; [vm_compute; discriminate|reflexivity].
  - lia.
  - intros t ck [[= <- <-]|[]]. split; [lia|]. intros k Hk.
    change (10 < 9 + nth (Z.to_nat (Z.min k 2)) [minute; 5 * minute; 15 * minute] 0).
    destruct (Z.to_nat (Z.min k 2)) as [|[|[|n]]] eqn:En; [vm_compute; reflexivity..|lia].
  - vm_compute. lia.
  - exists d', r'. split; [exact E|].
    destruct (H 1 (sample_row 1 4 "pending" 0 0)) as (row' & L & _ & D); [reflexivity|].
    exists row'. split; [exact L|]. exact (proj1 (D eq_refl)).
Defined.

(** * The lease of the delivery worker

    internal/persistence/mysql/integration_worker_lease.go: a named lock of the server,
    held by the session of a connection that the worker keeps.  Any number of processes
    acquire and release; the server may end a session and with it the lock. *)
Module Lease.

(** The session that holds the lock, and the sessions of the leases that are kept. *)
Record LeaseWorld := { lw_lock : option Z; lw_leases : list Z }.

(** [SELECT GET_LOCK(name, 0)] and [SELECT RELEASE_LOCK(name)] of a session. *)
Definition get_lock (s : Z) (d : LeaseWorld) : LeaseWorld * Z :=
  match lw_lock d with
  | None => ({| lw_lock := Some s; lw_leases := lw_leases d |}, 1)
  | Some s' => (d, if s' =? s then 1 else 0)
  end.

Definition release_lock (s : Z) (d : LeaseWorld) : LeaseWorld * Z :=
  if bool_decide (lw_lock d = Some s) then ({| lw_lock := None; lw_leases := lw_leases d |}, 1) else (d, 0).

Definition keep_lease (s : Z) (d : LeaseWorld) : LeaseWorld := {| lw_lock := lw_lock d; lw_leases := s :: lw_leases d |}.
Definition drop_lease (s : Z) (d : LeaseWorld) : LeaseWorld :=
  {| lw_lock := lw_lock d; lw_leases := List.filter (fun x => negb (x =? s)) (lw_leases d) |}.

(** [session]: that of the connection which the pool gives. *)
Definition AcquireIntegrationWorkerLease (database : bool) (session : Z) : M LeaseWorld Z :=
  if negb database then fail (OtherError "integration worker database is required")
  else
    let! connection := attempt (round_trip "connection") in
    match connection with
    | Err _ => fail (OtherError "integration worker lease is unavailable")
    | Ok _ =>
        let! acquired := attempt (exec_count "GET_LOCK" (get_lock session)) in
        match acquired with
        | Ok n => if n =? 1 then do! modify (keep_lease session); ret session
                  else fail (OtherError "another integration delivery worker is active")
        | Err _ => fail (OtherError "another integration delivery worker is active")
        end
    end.

Definition Release (lease : option Z) : M LeaseWorld unit :=
  match lease with
  | None => ret tt
  | Some session =>
      let! released := attempt (exec_count "RELEASE_LOCK" (release_lock session)) in
      do! modify (drop_lease session);
      let! closed := attempt (round_trip "close") in
      match released with
      | Ok n => if n =? 1 then match closed with
                               | Ok _ => ret tt
                               | Err _ => fail (OtherError "integration worker lease connection could not be closed cleanly")
                               end
                else fail (OtherError "integration worker lease could not be released cleanly")
      | Err _ => fail (OtherError "integration worker lease could not be released cleanly")
      end
  end.

(** What processes and the server do, in any order and whatever fails.  A connection that
    is kept is given to nobody else. *)
Inductive lease_step : LeaseWorld -> LeaseWorld -> Prop :=
| step_acquire w w' x database s :
    ~ In s (lw_leases (w_db w)) -> AcquireIntegrationWorkerLease database s w = (x, w') -> lease_step (w_db w) (w_db w')
| step_release w w' x lease : Release lease w = (x, w') -> lease_step (w_db w) (w_db w')
| step_end d s : ~ In s (lw_leases d) -> lease_step d (fst (release_lock s d)).

(** A lease has the lock, so there is at most one. *)
Definition lease_ok (d : LeaseWorld) : Prop :=
  match lw_leases d with [] => True | [s] => lw_lock d = Some s | _ => False end.

Lemma wp_acquire database s d : lease_ok d -> ~ In s (lw_leases d) ->
  wp d (AcquireIntegrationWorkerLease database s) (fun x d' => lease_ok d').
Proof.
  intros O N. unfold AcquireIntegrationWorkerLease. destruct database; cbn [negb]; [|by apply wp_fail].
  destruct d as [lock leases]. unfold lease_ok in O. cbn in O, N.
  assert (G : lease_ok (fst (get_lock s {| lw_lock := lock; lw_leases := leases |}))).
  { destruct lock; [exact O|]. by destruct leases as [|? []]. }
  apply wp_bind, wp_attempt, wp_round_trip; [|intros m; by apply wp_fail].
  apply wp_bind, wp_attempt, wp_exec_count; [|intros m; by apply wp_fail].
  destruct (snd (get_lock s _) =? 1) eqn:E; [|by apply wp_fail]. apply wp_bind, wp_modify, wp_ret.
  destruct lock as [s'|]; cbn in *; destruct leases as [|s1 [|]]; try done.
  - destruct (s' =? s) eqn:E'; [|done]. cbn. f_equal. lia.
  - injection O as ->. destruct (s1 =? s) eqn:E'; [|done]. destruct N. left. lia.
Qed.

Lemma drop_ok s d : lease_ok d -> lease_ok (drop_lease s (fst (release_lock s d))).
Proof.
  unfold lease_ok, release_lock, drop_lease. case_bool_decide as E; cbn; destruct (lw_leases d) as [|s1 [|]]; cbn; try done.
  - intros H. rewrite H in E. injection E as ->. by rewrite Z.eqb_refl.
  - by destruct (s1 =? s).
Qed.

Lemma wp_release lease d : lease_ok d -> wp d (Release lease) (fun x d' => lease_ok d').
Proof.
  intros O. destruct lease as [s|]; [|by apply wp_ret]. cbn [Release].
  assert (K : lease_ok (drop_lease s d)).
  { revert O. unfold lease_ok, drop_lease. cbn. destruct (lw_leases d) as [|s1 [|]]; cbn; try done. by destruct (s1 =? s). }
  apply wp_bind, wp_attempt, wp_exec_count; [|intros m];
    apply wp_bind, wp_modify, wp_bind, wp_attempt, wp_round_trip; repeat case_match; intros;
    first [apply wp_ret|apply wp_fail]; first [exact K|by apply drop_ok].
Qed.

(** Whatever is acquired and released, in any order and whatever fails, as long as the
    server ends no session of a lease that is kept, at most one worker has a lease. *)
Theorem lease_exclusive d : rtc lease_step {| lw_lock := None; lw_leases := [] |} d -> (length (lw_leases d) <= 1)%nat.
Proof.
  intros S. assert (O : lease_ok d).
  { remember {| lw_lock := None; lw_leases := [] |} as d0 eqn:E. assert (O : lease_ok d0) by (by subst). clear E.
    induction S as [d|d1 d2 d3 S _ IH]; [done|]. apply IH. destruct S as [w w' x database s N E|w w' x lease E|d s N].
    - exact (wp_elim _ w _ _ _ (wp_acquire database s _ O N) E).
    - exact (wp_elim _ w _ _ _ (wp_release lease _ O) E).
    - revert O. unfold lease_ok, release_lock. case_bool_decide as L; [|done]. cbn. destruct (lw_leases d) as [|s1 [|]]; try done.
      intros H. rewrite H in L. injection L as ->. destruct N. by left. }
  unfold lease_ok in O. destruct (lw_leases d) as [|s1 [|]]; cbn; [lia|lia|done].
Qed.

Definition lone_worker : LeaseWorld := {| lw_lock := Some 1; lw_leases := [1] |}.

Lemma lease_exclusive_witness :
  rtc lease_step {| lw_lock := None; lw_leases := [] |} lone_worker /\ (length (lw_leases lone_worker) <= 1)%nat.
Proof.
  assert (S : rtc lease_step {| lw_lock := None; lw_leases := [] |} lone_worker).
  { apply rtc_once. refine (step_acquire (World {| lw_lock := None; lw_leases := [] |} [] []) (World lone_worker [] []) (Ok 1) true 1 _ _); [by intros []|reflexivity]. }
  split; [exact S|]. exact (lease_exclusive lone_worker S).
Defined.

(** The connection of a lease is idle while the worker runs.  When the server ends its
    session, the lock is free, the worker is not told, and a second one starts. *)
Example idle_session_ended :
  lw_leases (w_db (snd (AcquireIntegrationWorkerLease true 2 (World (fst (release_lock 1 lone_worker)) [] [])))) = [2; 1].
Proof. reflexivity. Qed.
End Lease.
