(* ===== verification/CliTables.v ===== *)
(** * The tables behind the command-line API

    Customers with their API key, the configuration the CLI reads
    ([test_cycles], [tests], [steps], [plugins], [environments]) and the results
    it writes ([performed_test_cycles], [performed_tests], [performed_steps]).
    An identifier of a new row is one never used.  The performed tables have the
    unique index on customer and key of docs/operations/cli-result-idempotency.md. *)

From S2P Require Import Prelude GoStrings GoTime Effects.

(** ** Customers *)
Record CostumerRow := {
  co_id : Z;
  co_costumer : string;
  co_apiKey : option string;
  co_apiKeyExpiresAt : option time;
  co_apiKeyLastUsedAt : option time;
}.

(** The row [Replace] adds to [audit_events]; the other columns are constants. *)
Record KeyAudit := {
  ka_activeTenantId : Z;
  ka_targetId : Z;
  ka_created_at : time;
}.

(** ** Configuration: the columns of the five tables; a table leaves those it
    lacks empty. *)
Record ConfigRow := {
  cf_name : string;
  cf_code : string;
  cf_description : option string;
  cf_config : option string;
  cf_order : Z;
  cf_idProject : Z;
  cf_created_at : option time;
  cf_updated_at : option time;
  cf_idCostumer : Z;
}.

Record Configuration := {
  test_cycles : gmap Z ConfigRow;
  tests : gmap Z ConfigRow;
  steps : gmap Z ConfigRow;
  plugins : gmap Z ConfigRow;
  environments : gmap Z ConfigRow;
  performed_test_cycles_columns : list string;
}.

(** ** Results *)
Record PerformedCycle := {
  pc_testCycleId : Z;
  pc_date : time;
  pc_status : Z;
  pc_idCostumer : Z;
  pc_idempotencyKey : option string;
  pc_context : option (string * string);
  pc_created_at : time;
  pc_updated_at : time;
}.

Record PerformedTest := {
  pt_testCycleDoneId : Z;
  pt_testId : Z;
  pt_name : string;
  pt_status : Z;
  pt_postmanData : option string;
  pt_idCostumer : Z;
  pt_idempotencyKey : option string;
  pt_created_at : time;
  pt_updated_at : time;
}.

Record PerformedStep := {
  ps_testCycleDoneId : Z;
  ps_testDoneId : Z;
  ps_stepId : Z;
  ps_status : Z;
  ps_name : string;
  ps_screenshots : string;
  ps_type : string;
  ps_data : string;
  ps_idCostumer : Z;
  ps_idempotencyKey : option string;
  ps_created_at : time;
  ps_updated_at : time;
}.

#[export] Instance performed_cycle_eq_dec : EqDecision PerformedCycle.
Proof. solve_decision. Defined.
#[export] Instance performed_step_eq_dec : EqDecision PerformedStep.
Proof. solve_decision. Defined.

Record table (A : Type) := Table { t_rows : gmap Z A; t_next : Z }.
Arguments Table {A}.
Arguments t_rows {A}.
Arguments t_next {A}.

Record CliTables := {
  costumers : list CostumerRow;
  key_audits : list KeyAudit;
  configuration : Configuration;
  performed_test_cycles : table PerformedCycle;
  performed_tests : table PerformedTest;
  performed_steps : table PerformedStep;
}.

Definition with_costumers (l : list CostumerRow) (d : CliTables) : CliTables :=
  {| costumers := l; key_audits := key_audits d; configuration := configuration d;
     performed_test_cycles := performed_test_cycles d; performed_tests := performed_tests d;
     performed_steps := performed_steps d |}.
Definition with_key_audits (l : list KeyAudit) (d : CliTables) : CliTables :=
  {| costumers := costumers d; key_audits := l; configuration := configuration d;
     performed_test_cycles := performed_test_cycles d; performed_tests := performed_tests d;
     performed_steps := performed_steps d |}.
Definition with_cycles (t : table PerformedCycle) (d : CliTables) : CliTables :=
  {| costumers := costumers d; key_audits := key_audits d; configuration := configuration d;
     performed_test_cycles := t; performed_tests := performed_tests d;
     performed_steps := performed_steps d |}.
Definition with_tests (t : table PerformedTest) (d : CliTables) : CliTables :=
  {| costumers := costumers d; key_audits := key_audits d; configuration := configuration d;
     performed_test_cycles := performed_test_cycles d; performed_tests := t;
     performed_steps := performed_steps d |}.
Definition with_steps (t : table PerformedStep) (d : CliTables) : CliTables :=
  {| costumers := costumers d; key_audits := key_audits d; configuration := configuration d;
     performed_test_cycles := performed_test_cycles d; performed_tests := performed_tests d;
     performed_steps := t |}.

(** ** Statements on a table with an owner column *)

(** Identifiers below [t_next] only. *)
Definition table_ok {A} (t : table A) : Prop :=
  forall id row, t_rows t !! id = Some row -> id < t_next t.

Section Owned.
Context {A : Type} (owner : A -> Z).

(** [SELECT ... WHERE id = ? AND idCostumer = ?]. *)
Definition select_owned (id customerID : Z) (t : table A) : option A :=
  row ← t_rows t !! id; if owner row =? customerID then Some row else None.

(** [UPDATE ... WHERE id = ? AND idCostumer = ?]. *)
Definition update_owned (id customerID : Z) (f : A -> A) (t : table A) : table A :=
  match select_owned id customerID t with
  | Some row => Table (<[id := f row]> (t_rows t)) (t_next t)
  | None => t
  end.

Lemma select_owned_spec id c t row :
  select_owned id c t = Some row <-> t_rows t !! id = Some row /\ owner row = c.
Proof.
  unfold select_owned. destruct (t_rows t !! id) as [r|]; simpl; [|naive_solver].
  destruct (Z.eqb_spec (owner r) c); naive_solver.
Qed.

Lemma update_owned_lookup id c f t i row :
  t_rows (update_owned id c f t) !! i = Some row ->
  t_rows t !! i = Some row \/
  exists row0, t_rows t !! i = Some row0 /\ owner row0 = c /\ row = f row0.
Proof.
  unfold update_owned. destruct (select_owned id c t) as [r|] eqn:E; [|by left].
  apply select_owned_spec in E as [E O]. simpl.
  intros [[<- <-]|[_ L]]%lookup_insert_Some; [right; by exists r|by left].
Qed.

Lemma update_owned_kept id c f t i row :
  t_rows t !! i = Some row ->
  t_rows (update_owned id c f t) !! i = Some row \/
  (owner row = c /\ t_rows (update_owned id c f t) !! i = Some (f row)).
Proof.
  intros L. unfold update_owned. destruct (select_owned id c t) as [r|] eqn:E; [|by left].
  apply select_owned_spec in E as [E O]. simpl. destruct (decide (i = id)) as [->|Hne].
  - right. rewrite lookup_insert_eq. naive_solver.
  - left. by rewrite lookup_insert_ne.
Qed.

Lemma update_owned_ok id c f t : table_ok t -> table_ok (update_owned id c f t).
Proof.
  intros H i row L. unfold update_owned in *. destruct (select_owned id c t) as [r|] eqn:E.
  - apply select_owned_spec in E as [E _]. simpl in *.
    apply lookup_insert_Some in L as [[<- _]|[_ L]]; eauto.
  - eauto.
Qed.
End Owned.

(** ** Insertion under a unique key of the owner *)
Section Keyed.
Context {A : Type} (owner : A -> Z) (key : A -> option string).

(** The row the unique index finds for the row to insert. *)
Definition same_key (new row : A) : bool :=
  match key new, key row with
  | Some k, Some k' => String.eqb k k' && (owner new =? owner row)
  | _, _ => false
  end.

(** [INSERT ... ON DUPLICATE KEY UPDATE id = LAST_INSERT_ID(id)] and
    [LastInsertId]; a row without a key is a plain [INSERT]. *)
Definition insert_row (new : A) (t : table A) : table A * Z :=
  match List.find (fun kv => same_key new (snd kv)) (map_to_list (t_rows t)) with
  | Some (id, _) => (t, id)
  | None => (Table (<[t_next t := new]> (t_rows t)) (t_next t + 1), t_next t)
  end.

Lemma insert_row_cases new t t' id :
  insert_row new t = (t', id) ->
  (exists row, t' = t /\ t_rows t !! id = Some row /\ same_key new row = true) \/
  (t' = Table (<[id := new]> (t_rows t)) (id + 1) /\ id = t_next t).
Proof.
  unfold insert_row. destruct (List.find _ _) as [[i row]|] eqn:E; intros [= <- <-].
  - left. exists row. apply find_some in E as [Hin Hs]. split; [done|]. split; [|done].
    apply elem_of_map_to_list. by apply list_elem_of_In.
  - by right.
Qed.

Lemma same_key_owner new row : same_key new row = true -> owner row = owner new.
Proof.
  unfold same_key. repeat case_match; try done.
  intros [_ ?%Z.eqb_eq]%andb_true_iff. done.
Qed.

Lemma same_key_refl new k : key new = Some k -> same_key new new = true.
Proof. unfold same_key. intros ->. by rewrite String.eqb_refl, Z.eqb_refl. Qed.

Lemma insert_row_ok new t : table_ok t -> table_ok (fst (insert_row new t)).
Proof.
  intros H. destruct (insert_row new t) as [t' id] eqn:E.
  apply insert_row_cases in E as [(? & -> & _)|[-> ->]]; [done|].
  intros i row. simpl. intros [[<- _]|[_ L]]%lookup_insert_Some; [lia|]. apply H in L. lia.
Qed.
End Keyed.
