(* ===== verification/LegacyAuth.v ===== *)
(** * API keys of the command-line API

    internal/auth/legacy_key.go (the middleware) and
    internal/persistence/mysql/legacy_key.go (look-up, rotation, metadata).  The
    rows of [costumers] come in the order the server returns them; each
    statement is one round trip, and reading the rows of a result does not fail
    half way. *)

From S2P Require Import Prelude GoStrings GoTime Effects Http RunTables Secrets CliTables.

(** ** Data *)
Record Customer := { cu_ID : Z; cu_Name : string }.
Definition zeroCustomer : Customer := {| cu_ID := 0; cu_Name := "" |}.

Record TenantContext := { tc_CustomerID : Z }.

(** What the CLI routes write. *)
Inductive cli_payload :=
| CMessage (text : string)
| CError (code message : string)
| CId (name : string) (id : Z).

Definition maxLegacyKeyLength : Z := 4096.

(** ** The repository *)

(** [SELECT ... WHERE apiKeyExpiresAt IS NULL OR apiKeyExpiresAt > ?]. *)
Definition unexpired (usedAt : time) (row : CostumerRow) : bool :=
  match co_apiKeyExpiresAt row with None => true | Some e => after e usedAt end.

(** [UPDATE costumers SET ... WHERE id = ?]. *)
Definition update_costumer (id : Z) (f : CostumerRow -> CostumerRow) (d : CliTables) : CliTables :=
  with_costumers (map (fun row => if co_id row =? id then f row else row) (costumers d)) d.

Definition set_last_used (usedAt : time) (row : CostumerRow) : CostumerRow :=
  {| co_id := co_id row; co_costumer := co_costumer row; co_apiKey := co_apiKey row;
     co_apiKeyExpiresAt := co_apiKeyExpiresAt row; co_apiKeyLastUsedAt := Some usedAt |}.

Definition set_key (hash : string) (expires : time) (row : CostumerRow) : CostumerRow :=
  {| co_id := co_id row; co_costumer := co_costumer row; co_apiKey := Some hash;
     co_apiKeyExpiresAt := Some expires; co_apiKeyLastUsedAt := None |}.

(** [base64.RawURLEncoding]: the URL alphabet, no padding. *)
Definition url_char (c : ascii) : ascii :=
  if Ascii.eqb c "+"%char then "-"%char else if Ascii.eqb c "/"%char then "_"%char else c.

Definition rawURLEncode (s : string) : string :=
  of_chars (map url_char (List.filter (fun c => negb (Ascii.eqb c pad_char))
                                      (b64_encode (bytes_of s)))).

Section Repository.
Context `{B : Bcrypt}.

(** Does the stored credential accept the key?  bcrypt hashes start with [$2];
    anything else is a legacy plain-text key. *)
Definition credential_matches (stored key : string) : bool :=
  if hasPrefix stored "$2" then bcrypt_compare stored key else String.eqb stored key.

Inductive scanned := ScanFailed | Scanned (customer : Customer).

(** The loop over the rows: the first match stops it.  [Scan] cannot store a NULL
    [apiKey] in a string: that fails the whole look-up. *)
Fixpoint scan_customers (key : string) (rows : list CostumerRow) : scanned :=
  match rows with
  | [] => Scanned zeroCustomer
  | row :: rest =>
      match co_apiKey row with
      | None => ScanFailed
      | Some stored =>
          if credential_matches stored key
          then Scanned {| cu_ID := co_id row; cu_Name := co_costumer row |}
          else scan_customers key rest
      end
  end.

(** [AuthenticateLegacyCustomerKey]. *)
Definition AuthenticateLegacyCustomerKey (key : string) (usedAt : time) : M CliTables Customer :=
  let! rows := query "authenticate legacy API key"
                     (fun d => List.filter (unexpired usedAt) (costumers d)) in
  match scan_customers key rows with
  | ScanFailed =>
      fail (DatabaseFailure (safeDatabaseFailure "authenticate legacy API key" (OtherFault "scan")))
  | Scanned customer =>
      if cu_ID customer =? 0 then fail ErrInvalidLegacyKey
      else
        do! exec "record legacy API key use" (update_costumer (cu_ID customer) (set_last_used usedAt));
        ret customer
  end.

(** The metadata map of [Show] and [Replace]. *)
Record KeyMetadata := {
  km_active : bool;
  km_expiresAt : option time;
  km_lastUsedAt : option time;
}.

(** [Show]. *)
Definition Show (tenant : Z) (now : time) : M CliTables KeyMetadata :=
  let! row := query "show legacy API key"
                    (fun d => List.find (fun row => co_id row =? tenant) (costumers d)) in
  match row with
  | None => fail ErrInvalidLegacyKey
  | Some row =>
      ret {| km_active := match co_apiKeyExpiresAt row with None => true | Some e => after e now end;
             km_expiresAt := co_apiKeyExpiresAt row;
             km_lastUsedAt := co_apiKeyLastUsedAt row |}
  end.

(** [Replace]: the new key is returned once and stored as a hash; the outcome of
    the audit statement is dropped.  A fresh salt changes the row, so every row
    with the identifier counts as affected. *)
Definition Replace (tenant : Z) (now : time) : M CliTables (string * KeyMetadata) :=
  let! r := rand_read 32 in
  match r with
  | None => fail (OtherError "random source failed")
  | Some b =>
      let raw := "idk_" +:+ rawURLEncode b in
      let! salt := rand_read 16 in
      match salt ≫= fun s => bcrypt_generate s raw with
      | None => fail (OtherError "bcrypt failed")
      | Some hash =>
          let expires := now + 365 * 24 * hour in
          let! n := exec_count "replace legacy API key"
            (fun d => (update_costumer tenant (set_key hash expires) d,
                       Z.of_nat (length (List.filter (fun row => co_id row =? tenant) (costumers d))))) in
          do! guard (negb (n =? 0)) ErrInvalidLegacyKey;
          do! attempt (exec "audit legacy API key"
                (fun d => with_key_audits (key_audits d ++
                   [{| ka_activeTenantId := tenant; ka_targetId := tenant; ka_created_at := now |}])%list d));
          ret (raw, {| km_active := true; km_expiresAt := Some expires; km_lastUsedAt := None |})
      end
  end.

(** ** The middleware *)

(** [readLegacyKey] on the values of the header. *)
Definition readLegacyKey (values : list string) : option string :=
  match values with
  | [v] =>
      let key := trimSpace v in
      if String.eqb key "" || (maxLegacyKeyLength <? slen key) ||
         existsb (fun c => Ascii.eqb c (byte 13) || Ascii.eqb c (byte 10)) (chars key)
      then None else Some key
  | _ => None
  end.

(** [reject]. *)
Definition reject : response cli_payload := Written 401 (CMessage "Invalid key").

(** [Middleware]: the next handler runs with the customer's tenant, or not at
    all. *)
Definition Middleware (values : list string) (clock : time)
  (next : Customer -> TenantContext -> M CliTables (response cli_payload))
  : M CliTables (response cli_payload) :=
  match readLegacyKey values with
  | None => ret reject
  | Some key =>
      let! customer := attempt (AuthenticateLegacyCustomerKey key clock) in
      match customer with
      | Err _ => ret reject
      | Ok customer => next customer {| tc_CustomerID := cu_ID customer |}
      end
  end.
End Repository.

(** ** Who a key belongs to *)
Section Ownership.
Context `{B : Bcrypt}.

Definition refuses (key : string) (row : CostumerRow) : bool :=
  match co_apiKey row with Some s => negb (credential_matches s key) | None => false end.

Definition accepts (key : string) (row : CostumerRow) : bool :=
  match co_apiKey row with Some s => credential_matches s key | None => false end.

(** The first unexpired row that does not refuse the key accepts it, and has a
    usable identifier. *)
Definition key_owner (now : time) (key : string) (d : CliTables) (c : Customer) : Prop :=
  exists pre row post,
    List.filter (unexpired now) (costumers d) = (pre ++ row :: post)%list /\
    forallb (refuses key) pre = true /\ accepts key row = true /\ co_id row <> 0 /\
    c = {| cu_ID := co_id row; cu_Name := co_costumer row |}.

Lemma scan_refused key pre rows :
  forallb (refuses key) pre = true -> scan_customers key (pre ++ rows) = scan_customers key rows.
Proof.
  induction pre as [|row pre IH]; simpl; [done|]. intros [R H]%andb_true_iff.
  unfold refuses in R. destruct (co_apiKey row); [|done].
  destruct (credential_matches s key); [done|]. by apply IH.
Qed.

Lemma scan_accepted key pre row post :
  forallb (refuses key) pre = true -> accepts key row = true ->
  scan_customers key (pre ++ row :: post)
  = Scanned {| cu_ID := co_id row; cu_Name := co_costumer row |}.
Proof.
  intros Hp Ha. rewrite scan_refused by done. simpl. unfold accepts in Ha.
  destruct (co_apiKey row); [|done]. by rewrite Ha.
Qed.

Lemma scan_split key rows :
  match scan_customers key rows with
  | ScanFailed => True
  | Scanned c =>
      (exists pre row post, rows = (pre ++ row :: post)%list /\ forallb (refuses key) pre = true /\
         accepts key row = true /\ c = {| cu_ID := co_id row; cu_Name := co_costumer row |}) \/
      c = zeroCustomer
  end.
Proof.
  induction rows as [|row rows IH]; simpl; [by right|].
  destruct (co_apiKey row) as [s|] eqn:E; [|done].
  destruct (credential_matches s key) eqn:M.
  - left. exists [], row, rows. repeat split; try done. unfold accepts. by rewrite E.
  - destruct (scan_customers key rows) as [|c]; [done|].
    destruct IH as [(pre & r & post & -> & Hp & Ha & ->)| ->]; [left|by right].
    exists (row :: pre), r, post. repeat split; try done. simpl. unfold refuses at 1. by rewrite E, M.
Qed.

Lemma refused_everywhere now key d :
  forallb (refuses key) (List.filter (unexpired now) (costumers d)) = true ->
  forall c, ~ key_owner now key d c.
Proof.
  intros H c (pre & row & post & E & _ & Ha & _). rewrite E, forallb_app in H. simpl in H.
  apply andb_true_iff in H as [_ [R _]%andb_true_iff]. unfold refuses, accepts in *.
  destruct (co_apiKey row); [|done]. by rewrite Ha in R.
Qed.

(** A key is accepted in one step for its owner, and the use is recorded. *)
Lemma authenticate_owner now key d r c :
  key_owner now key d c ->
  AuthenticateLegacyCustomerKey key now (World d [] r)
  = (Ok c, World (update_costumer (cu_ID c) (set_last_used now) d) [] r).
Proof.
  intros (pre & row & post & E & Hp & Ha & Hid & ->). unfold AuthenticateLegacyCustomerKey.
  rewrite (eval_bind _ _ _ _ _ (eval_query _ _ _ _)), E, scan_accepted by done.
  cbn [cu_ID]. apply Z.eqb_neq in Hid. by rewrite Hid.
Qed.

(** Whatever fails, success means ownership. *)
Lemma authenticate_ok now key w c w' :
  AuthenticateLegacyCustomerKey key now w = (Ok c, w') ->
  key_owner now key (w_db w) c /\
  w_db w' = update_costumer (cu_ID c) (set_last_used now) (w_db w).
Proof.
  unfold AuthenticateLegacyCustomerKey. intros (rows & w1 & E1 & H)%bind_ok.
  apply query_ok in E1 as [-> E1].
  pose proof (scan_split key (List.filter (unexpired now) (costumers (w_db w)))) as S.
  destruct (scan_customers _ _) as [|c']; [done|].
  destruct (Z.eqb_spec (cu_ID c') 0) as [|Hne]; [done|].
  apply bind_ok in H as (u & w2 & E2 & H). injection H as <- <-. apply exec_ok in E2.
  rewrite E2, E1. split; [|done].
  destruct S as [(pre & row & post & E & Hp & Ha & ->)| ->]; [|done].
  exists pre, row, post. by repeat split.
Qed.

Lemma authenticate_err now key w e w' :
  AuthenticateLegacyCustomerKey key now w = (Err e, w') -> w_db w' = w_db w.
Proof.
  unfold AuthenticateLegacyCustomerKey, query, exec, bind.
  pose proof (round_trip_db "authenticate legacy API key" w) as E1.
  destruct (round_trip _ w) as [[[]|e1] w1]; simpl in E1; cbn [gets].
  2:{ by intros [= _ <-]. }
  destruct (scan_customers _ _) as [|c]; [by intros [= _ <-]|]. case_match; [by intros [= _ <-]|].
  pose proof (round_trip_db "record legacy API key use" w1) as E2.
  destruct (round_trip _ w1) as [[[]|e2] w2]; simpl in E2; [done|]. intros [= _ <-]. congruence.
Qed.

(** [{| cu_ID := 0 |}] is nobody: without an owner the key is refused. *)
Lemma authenticate_nobody now key d r :
  (forall c, ~ key_owner now key d c) ->
  exists e, AuthenticateLegacyCustomerKey key now (World d [] r) = (Err e, World d [] r).
Proof.
  intros No. unfold AuthenticateLegacyCustomerKey.
  rewrite (eval_bind _ _ _ _ _ (eval_query _ _ _ _)).
  pose proof (scan_split key (List.filter (unexpired now) (costumers d))) as S.
  destruct (scan_customers _ _) as [|c]; [by eexists|].
  destruct S as [(pre & row & post & E & Hp & Ha & ->)| ->]; [|by eexists]. cbn [cu_ID].
  destruct (Z.eqb_spec (co_id row) 0) as [|Hne]; [by eexists|].
  exfalso. eapply No. exists pre, row, post. by repeat split.
Qed.

Lemma key_owner_dec now key d : (exists c, key_owner now key d c) \/ (forall c, ~ key_owner now key d c).
Proof.
  pose proof (scan_split key (List.filter (unexpired now) (costumers d))) as S.
  destruct (scan_customers key (List.filter (unexpired now) (costumers d))) as [|c] eqn:E.
  - right. intros c (pre & row & post & E' & Hp & Ha & _). rewrite E', scan_accepted in E; done.
  - destruct S as [(pre & row & post & E' & Hp & Ha & ->)| ->].
    + destruct (decide (co_id row = 0)) as [Z0|Hne].
      * right. intros c (pre' & row' & post' & E2 & Hp' & Ha' & Hne & _).
        rewrite E2, scan_accepted in E by done. congruence.
      * left. eexists. exists pre, row, post. by repeat split.
    + right. intros c (pre' & row' & post' & E2 & Hp' & Ha' & Hne & _).
      rewrite E2, scan_accepted in E by done. unfold zeroCustomer in E. congruence.
Qed.
End Ownership.

(** ** The issued key *)
Lemma url_char_visible v : 0 <= v < 64 -> visible (url_char (b64_char v)) = true.
Proof.
  intros R. apply (sextet_cases (fun v => visible (url_char (b64_char v)))) in R; [done|].
  vm_compute. reflexivity.
Qed.

Lemma keep_char v rest :
  0 <= v < 64 ->
  List.filter (fun c => negb (Ascii.eqb c pad_char)) (b64_char v :: rest)
  = b64_char v :: List.filter (fun c => negb (Ascii.eqb c pad_char)) rest.
Proof. intros R. cbn [List.filter]. by rewrite (proj1 (b64_char_plain v R)). Qed.

Lemma drop_pads : List.filter (fun c => negb (Ascii.eqb c pad_char)) [pad_char] = [].
Proof. reflexivity. Qed.

Lemma rawURLEncode_visible s : forallb visible (chars (rawURLEncode s)) = true.
Proof.
  unfold rawURLEncode. rewrite chars_of_chars. pose proof (bytes_of_range s) as F.
  induction (bytes_of s) as [|a|a b|a b c l IH] using triples_ind; [done|..];
    repeat (apply Forall_cons in F as [? F]); cbn [b64_encode];
    rewrite !keep_char by bytes_lia; cbn [map forallb];
    rewrite !url_char_visible by bytes_lia; [done..|by apply IH].
Qed.

Lemma rawURLEncode_length s : (String.length (rawURLEncode s) <= 2 * String.length s)%nat.
Proof.
  unfold rawURLEncode. rewrite <- length_chars, chars_of_chars, length_map, <- length_chars.
  rewrite <- (length_map byte_z (chars s)). fold (bytes_of s). pose proof (bytes_of_range s) as F.
  induction (bytes_of s) as [|a|a b|a b c l IH] using triples_ind; [done|..];
    repeat (apply Forall_cons in F as [? F]); cbn [b64_encode];
    rewrite !keep_char by bytes_lia; cbn [length]; [simpl; lia..|].
  specialize (IH F). lia.
Qed.

Lemma readLegacyKey_visible key :
  key <> "" -> slen key <= maxLegacyKeyLength -> forallb visible (chars key) = true ->
  readLegacyKey [key] = Some key.
Proof.
  intros Hne Hlen Hv. unfold readLegacyKey. rewrite trimSpace_visible by done.
  apply String.eqb_neq in Hne. rewrite Hne. cbn [orb].
  replace (maxLegacyKeyLength <? slen key) with false by lia. cbn [orb].
  replace (existsb _ _) with false; [done|]. symmetry. apply not_true_is_false.
  rewrite existsb_exists, forallb_forall in *. intros (c & Hin & H). apply Hv in Hin.
  apply orb_true_iff in H as [->%Ascii.eqb_eq| ->%Ascii.eqb_eq]; done.
Qed.

(** ** Rotation *)
Section Rotation.
Context `{L : BcryptLaws}.

Definition keyLifetime : Z := 365 * 24 * hour.

Lemma rand_read_ok {D} n (w : world D) r w' :
  rand_read n w = (Ok r, w') ->
  w_db w' = w_db w /\ forall b, r = Some b -> String.length b = n.
Proof.
  unfold rand_read. destruct (w_random w) as [|o rs]; intros [= <- <-]; [done|].
  split; [done|]. intros b. destruct o as [x|]; [|done]. simpl.
  destruct (Nat.eqb_spec (String.length x) n); naive_solver.
Qed.

Lemma replace_ok tenant now w raw meta w' :
  Replace tenant now w = (Ok (raw, meta), w') ->
  exists b salt hash row,
    String.length b = 32%nat /\ raw = "idk_" +:+ rawURLEncode b /\
    bcrypt_generate salt raw = Some hash /\
    In row (costumers (w_db w)) /\ co_id row = tenant /\
    costumers (w_db w')
    = map (fun row => if co_id row =? tenant then set_key hash (now + keyLifetime) row else row)
          (costumers (w_db w)).
Proof.
  unfold Replace. intros (r1 & w1 & E1 & H)%bind_ok. destruct r1 as [b|]; [|done].
  apply bind_ok in H as (r2 & w2 & E2 & H).
  destruct (rand_read_ok _ _ _ _ E1) as [D1 Hb]. destruct (rand_read_ok _ _ _ _ E2) as [D2 _].
  destruct r2 as [salt|]; [|done]. simpl in H.
  destruct (bcrypt_generate salt ("idk_" +:+ rawURLEncode b)) as [hash|] eqn:G; [|done].
  apply bind_ok in H as (n & w3 & E3 & H). apply exec_count_ok in E3. injection E3 as E3 En.
  apply bind_ok in H as (u & w4 & E4 & H). apply guard_ok in E4 as [N ->].
  apply bind_ok in H as (u' & w5 & E5 & H). apply attempt_db in E5. injection H as <- _ <-.
  assert (E6 : costumers (w_db w5) = costumers (w_db w3)).
  { rewrite <- E5. unfold exec, bind, round_trip, modify. by destruct (w_faults w3) as [|[]]. }
  rewrite E6, <- E3, D2, D1. rewrite D2, D1 in En.
  destruct (List.filter (fun row => co_id row =? tenant) (costumers (w_db w))) as [|row l] eqn:F.
  { by rewrite <- En in N. }
  assert (In row (row :: l)) as Hin by by left. rewrite <- F in Hin.
  apply filter_In in Hin as [Hin Hid%Z.eqb_eq].
  exists b, salt, hash, row. repeat split; try done. by apply Hb.
Qed.

(** Every customer but the tenant refuses the key at [t], or has expired. *)
Definition others_refuse (tenant t : Z) (key : string) (d : CliTables) : bool :=
  forallb (fun row => (co_id row =? tenant) || negb (unexpired t row) || refuses key row)
          (costumers d).

Lemma others_refuse_part tenant t key f l :
  forallb (fun row => (co_id row =? tenant) || negb (unexpired t row) || refuses key row) l = true ->
  ~ In tenant (map co_id l) ->
  forallb (refuses key) (List.filter (unexpired t)
    (map (fun row => if co_id row =? tenant then f row else row) l)) = true.
Proof.
  induction l as [|row l IH]; simpl; [done|]. intros [H1 H2]%andb_true_iff No.
  destruct (Z.eqb_spec (co_id row) tenant) as [|_]; [tauto|]. simpl in H1.
  destruct (unexpired t row); simpl in *; [|by apply IH; tauto].
  rewrite H1. apply IH; tauto.
Qed.

(** The rows after a rotation: the tenant's row, once, among rows that refuse. *)
Lemma rotated_rows tenant t key row hash expires d :
  NoDup (map co_id (costumers d)) -> In row (costumers d) -> co_id row = tenant ->
  others_refuse tenant t key d = true -> after expires t = true ->
  exists pre post,
    List.filter (unexpired t)
      (map (fun row => if co_id row =? tenant then set_key hash expires row else row) (costumers d))
    = (pre ++ set_key hash expires row :: post)%list /\
    forallb (refuses key) pre = true /\ forallb (refuses key) post = true.
Proof.
  unfold others_refuse. intros Nd (l1 & l2 & E)%in_split Hid Ho He.
  rewrite E in *. rewrite map_app in Nd. apply NoDup_app in Nd as (_ & N1 & Nd).
  simpl in Nd. apply NoDup_cons in Nd as [N2 _].
  rewrite forallb_app in Ho. simpl in Ho. rewrite !andb_true_iff in Ho. destruct Ho as (O1 & _ & O2).
  rewrite map_app, List.filter_app. simpl. rewrite Hid, Z.eqb_refl. unfold unexpired at 2. simpl.
  rewrite He. eexists _, _. split; [done|]. subst tenant.
  split; apply others_refuse_part; try done; rewrite <- list_elem_of_In.
  - intros Hin. apply (N1 _ Hin). by left.
  - done.
Qed.

(** The text of an issued key passes the reader unchanged. *)
Lemma issued_key_readable b :
  String.length b = 32%nat ->
  readLegacyKey ["idk_" +:+ rawURLEncode b] = Some ("idk_" +:+ rawURLEncode b).
Proof.
  intros Hb. apply readLegacyKey_visible; [done| |].
  - pose proof (rawURLEncode_length b). unfold slen, maxLegacyKeyLength.
    rewrite <- length_chars, chars_app, length_app, !length_chars.
    change (String.length "idk_") with 4%nat. lia.
  - rewrite chars_app, forallb_app. simpl. apply rawURLEncode_visible.
Qed.

Lemma middleware_owner t key next d r c :
  readLegacyKey [key] = Some key -> key_owner t key d c ->
  Middleware [key] t next (World d [] r)
  = next c {| tc_CustomerID := cu_ID c |}
         (World (update_costumer (cu_ID c) (set_last_used t) d) [] r).
Proof.
  intros Hr Ho. unfold Middleware. rewrite Hr. unfold bind, attempt at 1.
  by rewrite (authenticate_owner _ _ _ _ _ Ho).
Qed.

Lemma round_trip_no_panic {D} op (w : world D) s w' : round_trip op w <> (Err (Panic s), w').
Proof. unfold round_trip. by destruct (w_faults w) as [|[]]. Qed.

Lemma authenticate_no_panic key t w s w' :
  AuthenticateLegacyCustomerKey key t w <> (Err (Panic s), w').
Proof.
  unfold AuthenticateLegacyCustomerKey, query, exec, bind.
  destruct (round_trip "authenticate legacy API key" w) as [[[]|e] w1] eqn:E; cbn [gets].
  2:{ intros [= -> ->]. by apply round_trip_no_panic in E. }
  destruct (scan_customers _ _) as [|c]; [done|]. case_match; [done|].
  destruct (round_trip "record legacy API key use" w1) as [[[]|e] w2] eqn:E2; [done|].
  intros [= -> ->]. by apply round_trip_no_panic in E2.
Qed.

Lemma middleware_nobody t values next d r :
  (forall key, readLegacyKey values = Some key -> forall c, ~ key_owner t key d c) ->
  Middleware values t next (World d [] r) = (Ok reject, World d [] r).
Proof.
  intros No. unfold Middleware. destruct (readLegacyKey values) as [key|] eqn:E; [|done].
  destruct (authenticate_nobody t key d r (No _ eq_refl)) as [e He].
  unfold bind, attempt. rewrite He. destruct e; try done.
  by apply authenticate_no_panic in He.
Qed.
End Rotation.
