(* ===== verification/CliWrites.v ===== *)
(** * Writing results from the command line

    internal/cliapi/performedcycle.go, performedtest.go, performedstep.go (the
    handlers and their decoders) and the repositories of
    internal/persistence/mysql/cli_performedcycle.go, cli_performedtest.go,
    cli_performedstep.go.  [now] is the server's [NOW()].  Database errors keep
    their class only; the prefixes [fmt.Errorf] adds never reach a response. *)

From S2P Require Import Prelude GoStrings GoTime Json Redaction JsonText Effects Http CliTables.
From S2P Require Import LegacyAuth.

(** ** Commands *)
Record CreatePerformedCycleRequest := {
  cc_TestCycleID : Z;
  cc_IdempotencyKey : string;
  cc_ExecutionContext : option string;
  cc_ExecutionContextProvided : bool;
}.

Record UpdatePerformedCycleRequest := {
  uc_TestCycleID : Z;
  uc_Status : Z;
}.

Record CreatePerformedTestRequest := {
  ct_TestCycleID : Z;
  ct_TestID : Z;
  ct_Name : string;
  ct_IdempotencyKey : string;
}.

Record UpdatePerformedTestRequest := {
  ut_TestID : Z;
  ut_Status : Z;
  ut_PostmanDataPresent : bool;
  ut_PostmanData : option string;
}.

Record CreatePerformedStepRequest := {
  cs_TestCycleID : Z;
  cs_TestID : Z;
  cs_StepID : Z;
  cs_Name : string;
  cs_Status : Z;
  cs_Screenshots : string;
  cs_Data : string;
  cs_Type : string;
  cs_IdempotencyKey : string;
}.

Record UpdatePerformedStepRequest := {
  us_StepID : Z;
  us_Screenshots : string;
}.

(** ** The repositories *)
Definition R : Type -> Type := M CliTables.

(** The key column of a new row: [NULL] without a header. *)
Definition key_column (key : string) : option string :=
  if String.eqb key "" then None else Some key.

(** [tenantRowExists]: the tables it knows. *)
Inductive lookupTable := InPerformedTestCycles | InTestCycles | InTests | InSteps.

Definition config_owned (rows : gmap Z ConfigRow) (id customerID : Z) : bool :=
  match rows !! id with Some row => cf_idCostumer row =? customerID | None => false end.

Definition row_exists (where_ : lookupTable) (id customerID : Z) (d : CliTables) : bool :=
  match where_ with
  | InPerformedTestCycles =>
      match select_owned pc_idCostumer id customerID (performed_test_cycles d) with
      | Some _ => true | None => false end
  | InTestCycles => config_owned (test_cycles (configuration d)) id customerID
  | InTests => config_owned (tests (configuration d)) id customerID
  | InSteps => config_owned (steps (configuration d)) id customerID
  end.

Definition tenantRowExists (op : string) (where_ : lookupTable) (id customerID : Z) : R bool :=
  query op (row_exists where_ id customerID).

(** [tenantPerformedTestExists]. *)
Definition performed_test_exists (testID testCycleID customerID : Z) (d : CliTables) : bool :=
  match select_owned pt_idCostumer testID customerID (performed_tests d) with
  | Some row => pt_testCycleDoneId row =? testCycleID
  | None => false
  end.

Definition tenantPerformedTestExists (testID testCycleID customerID : Z) : R bool :=
  query "check performed-test ownership" (performed_test_exists testID testCycleID customerID).

(** An [INSERT] with its [LastInsertId]. *)
Definition insert_returning (op : string) (f : CliTables -> CliTables * Z) : R Z := exec_count op f.

(** [optionalPerformedCycleExecutionContextColumn]: the first of the names that is
    a column of the table. *)
Definition mysqlColumnExists (column : string) : R bool :=
  query "insert CLI performed cycle"
        (fun d => existsb (String.eqb column) (performed_test_cycles_columns (configuration d))).

Fixpoint first_column (names : list string) : R (option string) :=
  match names with
  | [] => ret None
  | column :: names' =>
      let! found := mysqlColumnExists column in
      if found then ret (Some column) else first_column names'
  end.

Definition optionalPerformedCycleExecutionContextColumn : R (option string) :=
  first_column ["executionContext"; "execution_context"; "context"].

(** [performedCycleExecutionContextColumnSQL], without the quoting. *)
Definition performedCycleExecutionContextColumnSQL (column : string) : option string :=
  if existsb (String.eqb column) ["executionContext"; "execution_context"; "context"]
  then Some column else None.

Definition new_cycle (now : time) (customerID : Z) (command : CreatePerformedCycleRequest)
  (context : option (string * string)) : PerformedCycle :=
  {| pc_testCycleId := cc_TestCycleID command; pc_date := now; pc_status := 0;
     pc_idCostumer := customerID; pc_idempotencyKey := key_column (cc_IdempotencyKey command);
     pc_context := context; pc_created_at := now; pc_updated_at := now |}.

Definition insert_cycle (row : PerformedCycle) (d : CliTables) : CliTables * Z :=
  let '(t, id) := insert_row pc_idCostumer pc_idempotencyKey row (performed_test_cycles d) in
  (with_cycles t d, id).

(** [insertPerformedCycle]: with an idempotency key the context is not stored. *)
Definition insertPerformedCycle (now : time) (customerID : Z) (command : CreatePerformedCycleRequest)
  : R Z :=
  let insert context :=
    insert_returning "insert CLI performed cycle" (insert_cycle (new_cycle now customerID command context)) in
  if negb (String.eqb (cc_IdempotencyKey command) "") then insert None
  else
    match cc_ExecutionContext command with
    | None => insert None
    | Some text =>
        let! column := optionalPerformedCycleExecutionContextColumn in
        match column with
        | None => insert None
        | Some column =>
            match performedCycleExecutionContextColumnSQL column with
            | None => fail (OtherError "unsupported performed-cycle execution context column")
            | Some columnSQL => insert (Some (columnSQL, text))
            end
        end
    end.

(** [CreatePerformedCycle]. *)
Definition CreatePerformedCycle (now : time) (customerID : Z) (command : CreatePerformedCycleRequest)
  : R Z :=
  transaction "begin CLI performed-cycle create" "commit CLI performed-cycle create"
    (let! cycleExists := tenantRowExists "check test-cycle ownership" InTestCycles
                                         (cc_TestCycleID command) customerID in
     do! guard cycleExists ErrNotFound;
     insertPerformedCycle now customerID command).

(** [UPDATE] with [RowsAffected]: the rows the server really changed. *)
Definition changed {A} `{EqDecision A} (old new : option A) : Z :=
  if bool_decide (old = new) then 0 else 1.

Definition set_cycle_status (now status : Z) (row : PerformedCycle) : PerformedCycle :=
  {| pc_testCycleId := pc_testCycleId row; pc_date := pc_date row; pc_status := status;
     pc_idCostumer := pc_idCostumer row; pc_idempotencyKey := pc_idempotencyKey row;
     pc_context := pc_context row; pc_created_at := pc_created_at row; pc_updated_at := now |}.

Definition update_cycle (now : time) (customerID id status : Z) (d : CliTables) : CliTables * Z :=
  let t := performed_test_cycles d in
  let t' := update_owned pc_idCostumer id customerID (set_cycle_status now status) t in
  (with_cycles t' d, changed (t_rows t !! id) (t_rows t' !! id)).

(** [UpdatePerformedCycle]: no changed row and no such row is [ErrNotFound]. *)
Definition UpdatePerformedCycle (now : time) (customerID : Z) (command : UpdatePerformedCycleRequest)
  : R Z :=
  let id := uc_TestCycleID command in
  let! rowsAffected := exec_count "update CLI performed cycle"
                                  (update_cycle now customerID id (uc_Status command)) in
  if rowsAffected =? 0 then
    let! existing := query "read CLI performed cycle after no-op update"
      (fun d => select_owned pc_idCostumer id customerID (performed_test_cycles d)) in
    match existing with None => fail ErrNotFound | Some _ => ret id end
  else ret id.

Definition new_test (now : time) (customerID : Z) (command : CreatePerformedTestRequest)
  : PerformedTest :=
  {| pt_testCycleDoneId := ct_TestCycleID command; pt_testId := ct_TestID command;
     pt_name := ct_Name command; pt_status := 0; pt_postmanData := None;
     pt_idCostumer := customerID; pt_idempotencyKey := key_column (ct_IdempotencyKey command);
     pt_created_at := now; pt_updated_at := now |}.

Definition insert_test (row : PerformedTest) (d : CliTables) : CliTables * Z :=
  let '(t, id) := insert_row pt_idCostumer pt_idempotencyKey row (performed_tests d) in
  (with_tests t d, id).

(** [CreatePerformedTest]. *)
Definition CreatePerformedTest (now : time) (customerID : Z) (command : CreatePerformedTestRequest)
  : R Z :=
  transaction "begin CLI performed-test create" "commit CLI performed-test create"
    (let! cycleExists := tenantRowExists "check performed-test cycle ownership"
                           InPerformedTestCycles (ct_TestCycleID command) customerID in
     let! testExists := tenantRowExists "check test ownership" InTests (ct_TestID command) customerID in
     do! guard (cycleExists && testExists) ErrNotFound;
     insert_returning "insert CLI performed test" (insert_test (new_test now customerID command))).

Definition set_test (now : time) (command : UpdatePerformedTestRequest) (row : PerformedTest)
  : PerformedTest :=
  {| pt_testCycleDoneId := pt_testCycleDoneId row; pt_testId := pt_testId row;
     pt_name := pt_name row; pt_status := ut_Status command;
     pt_postmanData := if ut_PostmanDataPresent command then ut_PostmanData command
                       else pt_postmanData row;
     pt_idCostumer := pt_idCostumer row; pt_idempotencyKey := pt_idempotencyKey row;
     pt_created_at := pt_created_at row; pt_updated_at := now |}.

(** [UpdatePerformedTest]: the row is locked first. *)
Definition UpdatePerformedTest (now : time) (customerID : Z) (command : UpdatePerformedTestRequest)
  : R Z :=
  let id := ut_TestID command in
  transaction "begin CLI performed-test update" "commit CLI performed-test update"
    (let! existing := query "lock CLI performed test"
       (fun d => select_owned pt_idCostumer id customerID (performed_tests d)) in
     match existing with
     | None => fail ErrNotFound
     | Some _ =>
         do! exec "update CLI performed test"
           (fun d => with_tests (update_owned pt_idCostumer id customerID (set_test now command)
                                              (performed_tests d)) d);
         ret id
     end).

Definition new_step (now : time) (customerID : Z) (command : CreatePerformedStepRequest)
  : PerformedStep :=
  {| ps_testCycleDoneId := cs_TestCycleID command; ps_testDoneId := cs_TestID command;
     ps_stepId := cs_StepID command; ps_status := cs_Status command; ps_name := cs_Name command;
     ps_screenshots := cs_Screenshots command; ps_type := cs_Type command;
     ps_data := cs_Data command; ps_idCostumer := customerID;
     ps_idempotencyKey := key_column (cs_IdempotencyKey command);
     ps_created_at := now; ps_updated_at := now |}.

Definition insert_step (row : PerformedStep) (d : CliTables) : CliTables * Z :=
  let '(t, id) := insert_row ps_idCostumer ps_idempotencyKey row (performed_steps d) in
  (with_steps t d, id).

(** [CreatePerformedStep]. *)
Definition CreatePerformedStep (now : time) (customerID : Z) (command : CreatePerformedStepRequest)
  : R Z :=
  transaction "begin CLI performed-step create" "commit CLI performed-step create"
    (let! cycleExists := tenantRowExists "check performed-cycle ownership"
                           InPerformedTestCycles (cs_TestCycleID command) customerID in
     let! testExists := tenantPerformedTestExists (cs_TestID command) (cs_TestCycleID command)
                                                  customerID in
     let! stepExists := tenantRowExists "check source step ownership" InSteps
                                        (cs_StepID command) customerID in
     do! guard (cycleExists && testExists && stepExists) ErrNotFound;
     insert_returning "insert CLI performed step" (insert_step (new_step now customerID command))).

Definition set_screenshots (now : time) (screenshots : string) (row : PerformedStep)
  : PerformedStep :=
  {| ps_testCycleDoneId := ps_testCycleDoneId row; ps_testDoneId := ps_testDoneId row;
     ps_stepId := ps_stepId row; ps_status := ps_status row; ps_name := ps_name row;
     ps_screenshots := screenshots; ps_type := ps_type row; ps_data := ps_data row;
     ps_idCostumer := ps_idCostumer row; ps_idempotencyKey := ps_idempotencyKey row;
     ps_created_at := ps_created_at row; ps_updated_at := now |}.

Definition update_step (now : time) (customerID id : Z) (screenshots : string) (d : CliTables)
  : CliTables * Z :=
  let t := performed_steps d in
  let t' := update_owned ps_idCostumer id customerID (set_screenshots now screenshots) t in
  (with_steps t' d, changed (t_rows t !! id) (t_rows t' !! id)).

(** [UpdatePerformedStep]. *)
Definition UpdatePerformedStep (now : time) (customerID : Z) (command : UpdatePerformedStepRequest)
  : R Z :=
  let id := us_StepID command in
  let! rowsAffected := exec_count "update CLI performed step"
                                  (update_step now customerID id (us_Screenshots command)) in
  if rowsAffected =? 0 then
    let! existing := query "read CLI performed step after no-op update"
      (fun d => select_owned ps_idCostumer id customerID (performed_steps d)) in
    match existing with None => fail ErrNotFound | Some _ => ret id end
  else ret id.

(** ** Requests *)

(** What the handlers see of a request; no body is one that could not be read. *)
Record CliRequest := {
  cr_body : option string;
  cr_idempotencyKey : string;
  cr_path : string -> string;
}.

Definition cli_reply : Type := response cli_payload.

Definition writeValidationError (message : string) : cli_reply :=
  Written 422 (CError "VALIDATION_FAILED" message).
Definition writeInvalidDetails : cli_reply := Written 404 (CMessage "Invalid details").
Definition writeCLIWriteUnavailable (message : string) : cli_reply :=
  Written 500 (CError "CLI_RESULT_WRITE_UNAVAILABLE" message).
Definition tenantContextMissing : cli_reply :=
  Written 500 (CError "CLI_TENANT_CONTEXT_MISSING" "The CLI tenant context could not be resolved.").

(** A decoder yields the response it wrote, or its command. *)
Definition or_write {A} (o : option A) (message : string) : cli_reply + A :=
  match o with Some a => inr a | None => inl (writeValidationError message) end.

Definition and_then {A C} (r : cli_reply + A) (k : A -> cli_reply + C) : cli_reply + C :=
  match r with inl w => inl w | inr a => k a end.

Notation "'ok!' x ':=' r ';' k" := (and_then r (fun x => k))
  (at level 200, x pattern, r at level 100, k at level 200) : effect_scope.

(** *** Fields *)
Definition fields : Type := dict string.

(** [requiredInt]: null is the zero value. *)
Definition requiredInt (f : fields) (name : string) : option Z :=
  raw ← dget name f; unmarshalInt64 raw.

Definition requiredPositiveInt (f : fields) (name : string) : option Z :=
  v ← requiredInt f name; if 0 <? v then Some v else None.

Definition requiredString (f : fields) (name : string) : option string :=
  raw ← dget name f; v ← unmarshalString raw;
  let v := trimSpace v in if String.eqb v "" then None else Some v.

(** [jsonStringField]: a string, or the text of anything else. *)
Definition jsonStringField (f : fields) (name : string) : option string :=
  raw ← dget name f;
  match unmarshalString raw with
  | Some v => Some v
  | None => if String.eqb (trimSpace raw) "" then None else Some raw
  end.

Definition idempotency_char (c : ascii) : bool :=
  within 97 122 c || within 65 90 c || within 48 57 c ||
  Ascii.eqb c "-"%char || Ascii.eqb c "_"%char.

(** [idempotencyKey]. *)
Definition idempotencyKey (key : string) : option string :=
  if String.eqb key "" then Some ""
  else if (slen key <? 8) || (128 <? slen key) then None
  else if forallb idempotency_char (chars key) then Some key else None.

Definition maxBody : Z := Z.shiftl 8 20.
Definition maxExecutionContextBytes : Z := Z.shiftl 64 10.

(** [io.LimitReader]. *)
Definition limited (body : string) : string :=
  if slen body <=? maxBody then body else of_chars (take (Z.to_nat maxBody) (chars body)).

(** [decodeJSONObject]. *)
Definition decodeJSONObject (r : CliRequest) : cli_reply + fields :=
  match cr_body r with
  | None => inl (writeValidationError "The request body could not be read.")
  | Some body =>
      match unmarshalRawObject (limited body) with
      | Some (Some f) => inr f
      | _ => inl (writeValidationError "The request body must be a JSON object.")
      end
  end.

Definition allowedPerformedStepTypes : list string :=
  ["selenium"; "seleniumOrAppium"; "postman"; "dsl"].

Definition keyMessage : string := "Idempotency-Key must be between 8 and 128 URL-safe characters.".
Definition testCycleIdMessage : string := "testCycleId is required and must be a positive integer.".
Definition testIdMessage : string := "testId is required and must be a positive integer.".

Section Decoders.
Context `{F : Floats}.

(** [redactPostmanJSON]; encoding a decoded document does not fail. *)
Definition redactPostmanJSON (raw : string) : option string :=
  v ← unmarshalAny raw; Some (marshal (redactJSONValue v)).

(** [validJSONStringField]. *)
Definition validJSONStringField (f : fields) (name : string) : option string :=
  v ← jsonStringField f name; _ ← unmarshalAny v; Some v.

(** *** Decoders *)
Definition decodeCreatePerformedCycle (r : CliRequest) : cli_reply + CreatePerformedCycleRequest :=
  ok! f := decodeJSONObject r;
  ok! testCycleID := or_write (requiredPositiveInt f "testCycleId") testCycleIdMessage;
  ok! key := or_write (idempotencyKey (cr_idempotencyKey r)) keyMessage;
  let command context provided :=
    {| cc_TestCycleID := testCycleID; cc_IdempotencyKey := key; cc_ExecutionContext := context;
       cc_ExecutionContextProvided := provided |} in
  match dget "executionContext" f with
  | None => inr (command None false)
  | Some raw =>
      if String.eqb (trimSpace raw) "null" then inr (command None false)
      else if maxExecutionContextBytes <? slen raw
      then inl (writeValidationError "executionContext must be a JSON object smaller than 64 KiB.")
      else
        match unmarshalAny raw with
        | Some (JObj _) =>
            ok! redacted := or_write (redactPostmanJSON raw) "executionContext must be valid JSON.";
            inr (command (Some redacted) true)
        | _ => inl (writeValidationError "executionContext must be a JSON object.")
        end
  end.

Definition decodeUpdatePerformedCycle (r : CliRequest) : cli_reply + UpdatePerformedCycleRequest :=
  ok! f := decodeJSONObject r;
  ok! testCycleID := or_write (requiredPositiveInt f "testCycleId") testCycleIdMessage;
  ok! status := or_write (v ← requiredInt f "status";
                          if (v =? 1) || (v =? 2) then Some v else None)
                         "status is required and must be 1 or 2.";
  inr {| uc_TestCycleID := testCycleID; uc_Status := status |}.

Definition decodeCreatePerformedTest (r : CliRequest) : cli_reply + CreatePerformedTestRequest :=
  ok! f := decodeJSONObject r;
  ok! testCycleID := or_write (requiredPositiveInt f "testCycleId") testCycleIdMessage;
  ok! testID := or_write (requiredPositiveInt f "testId") testIdMessage;
  ok! name := or_write (requiredString f "name") "name is required and must be a non-empty string.";
  ok! key := or_write (idempotencyKey (cr_idempotencyKey r)) keyMessage;
  inr {| ct_TestCycleID := testCycleID; ct_TestID := testID; ct_Name := name;
         ct_IdempotencyKey := key |}.

Definition decodeUpdatePerformedTest (r : CliRequest) : cli_reply + UpdatePerformedTestRequest :=
  ok! f := decodeJSONObject r;
  ok! testID := or_write (requiredPositiveInt f "testId") testIdMessage;
  ok! status := or_write (requiredInt f "status") "status is required and must be an integer.";
  let command present data :=
    {| ut_TestID := testID; ut_Status := status; ut_PostmanDataPresent := present;
       ut_PostmanData := data |} in
  match dget "postmanData" f with
  | None => inr (command false None)
  | Some raw =>
      if String.eqb (trimSpace raw) "null" then inr (command true None)
      else if unmarshalsToSlice raw then
        ok! redacted := or_write (redactPostmanJSON raw) "postmanData must be valid JSON.";
        inr (command true (Some redacted))
      else inl (writeValidationError "postmanData must be a JSON array or null.")
  end.

Definition decodeCreatePerformedStep (r : CliRequest) : cli_reply + CreatePerformedStepRequest :=
  ok! f := decodeJSONObject r;
  ok! testCycleID := or_write (requiredPositiveInt f "testCycleId") testCycleIdMessage;
  ok! testID := or_write (requiredPositiveInt f "testId") testIdMessage;
  ok! stepID := or_write (requiredPositiveInt f "stepId")
                         "stepId is required and must be a positive integer.";
  ok! name := or_write (requiredString f "name") "name is required and must be a non-empty string.";
  ok! status := or_write (requiredInt f "status") "status is required and must be an integer.";
  ok! screenshots := or_write (validJSONStringField f "screenshots")
                              "screenshots is required and must be a valid JSON string.";
  ok! data := or_write (validJSONStringField f "data")
                       "data is required and must be a valid JSON string.";
  ok! redactedData := or_write (redactPostmanJSON data) "data is required and must be valid JSON.";
  ok! stepType := or_write (requiredString f "type") "type is required.";
  ok! _ := or_write (if existsb (String.eqb stepType) allowedPerformedStepTypes then Some tt else None)
                    "type must be selenium, seleniumOrAppium, postman, or dsl.";
  ok! key := or_write (idempotencyKey (cr_idempotencyKey r)) keyMessage;
  inr {| cs_TestCycleID := testCycleID; cs_TestID := testID; cs_StepID := stepID; cs_Name := name;
         cs_Status := status; cs_Screenshots := screenshots; cs_Data := redactedData;
         cs_Type := stepType; cs_IdempotencyKey := key |}.

Definition decodeUpdatePerformedStep (r : CliRequest) : cli_reply + UpdatePerformedStepRequest :=
  ok! f := decodeJSONObject r;
  ok! stepID := or_write (requiredPositiveInt f "stepId")
                         "stepId is required and must be a positive integer.";
  ok! screenshots := or_write (jsonStringField f "screenshots") "screenshots is required.";
  inr {| us_StepID := stepID; us_Screenshots := screenshots |}.

(** ** The handlers *)

(** Which repositories are configured, the database's clock and the process's. *)
Record CliHandler := {
  ch_performedCycles : bool;
  ch_performedTests : bool;
  ch_performedSteps : bool;
  ch_now : time;
  ch_clock : time;
}.

Definition CH : Type := M CliTables cli_reply.

(** [cliTenant]. *)
Definition with_cliTenant (tenant : option TenantContext) (k : Z -> CH) : CH :=
  match tenant with Some t => k (tc_CustomerID t) | None => ret tenantContextMissing end.

(** What the six handlers do with a command: call the repository, write the
    identifier under its name, hide missing rows, report anything else. *)
Definition write_result {C} (configured : bool) (unconfigured : string) (decoded : cli_reply + C)
  (call : C -> R Z) (name failure : string) : CH :=
  if negb configured then ret (writeCLIWriteUnavailable unconfigured)
  else
    match decoded with
    | inl written => ret written
    | inr command =>
        let! result := attempt (call command) in
        ret (match result with
             | Ok id => Written 200 (CId name id)
             | Err ErrNotFound => writeInvalidDetails
             | Err _ => writeCLIWriteUnavailable failure
             end)
    end.

Definition HandleCreatePerformedCycle (h : CliHandler) (tenant : option TenantContext) (r : CliRequest) : CH :=
  with_cliTenant tenant (fun customerID =>
    write_result (ch_performedCycles h) "CLI performed-cycle writer is not configured."
      (decodeCreatePerformedCycle r) (CreatePerformedCycle (ch_now h) customerID) "idCycle"
      "The CLI performed-cycle record could not be created.").

Definition HandleUpdatePerformedCycle (h : CliHandler) (tenant : option TenantContext) (r : CliRequest) : CH :=
  with_cliTenant tenant (fun customerID =>
    write_result (ch_performedCycles h) "CLI performed-cycle writer is not configured."
      (decodeUpdatePerformedCycle r) (UpdatePerformedCycle (ch_now h) customerID) "idCycle"
      "The CLI performed-cycle record could not be updated.").

Definition HandleCreatePerformedTest (h : CliHandler) (tenant : option TenantContext) (r : CliRequest) : CH :=
  with_cliTenant tenant (fun customerID =>
    write_result (ch_performedTests h) "CLI performed-test writer is not configured"
      (decodeCreatePerformedTest r) (CreatePerformedTest (ch_now h) customerID) "idTest"
      "The CLI performed-test record could not be created.").

Definition HandleUpdatePerformedTest (h : CliHandler) (tenant : option TenantContext) (r : CliRequest) : CH :=
  with_cliTenant tenant (fun customerID =>
    write_result (ch_performedTests h) "CLI performed-test writer is not configured"
      (decodeUpdatePerformedTest r) (UpdatePerformedTest (ch_now h) customerID) "idTest"
      "The CLI performed-test record could not be updated.").

Definition HandleCreatePerformedStep (h : CliHandler) (tenant : option TenantContext) (r : CliRequest) : CH :=
  with_cliTenant tenant (fun customerID =>
    write_result (ch_performedSteps h) "CLI performed-step writer is not configured."
      (decodeCreatePerformedStep r) (CreatePerformedStep (ch_now h) customerID) "idStep"
      "The CLI performed-step record could not be created.").

Definition HandleUpdatePerformedStep (h : CliHandler) (tenant : option TenantContext) (r : CliRequest) : CH :=
  with_cliTenant tenant (fun customerID =>
    write_result (ch_performedSteps h) "CLI performed-step writer is not configured."
      (decodeUpdatePerformedStep r) (UpdatePerformedStep (ch_now h) customerID) "idStep"
      "The CLI performed-step record could not be updated.").

(** ** The routes of internal/app/router.go, behind the API-key middleware *)
Inductive route := PostCycle | PutCycle | PostTest | PutTest | PostStep | PutStep.

Definition handle (h : CliHandler) (rt : route) (tenant : option TenantContext) (r : CliRequest) : CH :=
  match rt with
  | PostCycle => HandleCreatePerformedCycle h tenant r
  | PutCycle => HandleUpdatePerformedCycle h tenant r
  | PostTest => HandleCreatePerformedTest h tenant r
  | PutTest => HandleUpdatePerformedTest h tenant r
  | PostStep => HandleCreatePerformedStep h tenant r
  | PutStep => HandleUpdatePerformedStep h tenant r
  end.

Definition serve `{B : RunTables.Bcrypt} (h : CliHandler) (rt : route) (keys : list string)
  (r : CliRequest) : CH :=
  Middleware keys (ch_clock h) (fun _ tenant => handle h rt (Some tenant) r).
End Decoders.
