(* ===== verification/CliFacts.v ===== *)
(** * The invariant of the result tables

    Well-formed result tables, how one customer's write changes them, and that
    every repository operation of [CliWrites] keeps the former and does the
    latter, whatever fails on the way. *)

From S2P Require Import Prelude GoStrings GoTime Json Redaction JsonText Effects Http CliTables.
From S2P Require Import LegacyAuth CliWrites.

(** ** One table *)
Section Table.
Context {A K : Type} (owner : A -> Z) (key : A -> option string) (fixed : A -> K).
Hypothesis fixed_key : forall r r', fixed r' = fixed r -> key r' = key r.

(** The unique index. *)
Definition keys_unique (t : table A) : Prop :=
  forall i j r s, t_rows t !! i = Some r -> t_rows t !! j = Some s ->
    same_key owner key r s = true -> i = j.

(** What a write of customer [c] does to the rows: none disappears, none changes
    hands or loses its fixed columns, those of other customers are untouched, and
    new ones are the customer's. *)
Record table_step (c : Z) (t t' : table A) : Prop := {
  step_kept : forall id row, t_rows t !! id = Some row ->
    exists row', t_rows t' !! id = Some row' /\ owner row' = owner row /\
      fixed row' = fixed row /\ (owner row <> c -> row' = row);
  step_added : forall id row', t_rows t' !! id = Some row' -> t_rows t !! id = None ->
    owner row' = c;
}.

#[export] Instance table_step_refl c : Reflexive (table_step c).
Proof. intros t. split; [|congruence]. intros id row H. by exists row. Qed.

#[export] Instance table_step_trans c : Transitive (table_step c).
Proof.
  intros t1 t2 t3 [K1 A1] [K2 A2]. split.
  - intros id row (r2 & L2 & O2 & F2 & U2)%K1. destruct (K2 _ _ L2) as (r3 & L3 & O3 & F3 & U3).
    exists r3. split; [done|]. split; [congruence|]. split; [congruence|].
    intros N. rewrite (U3 ltac:(congruence)). by apply U2.
  - intros id r3 L3 N1. destruct (t_rows t2 !! id) as [r2|] eqn:L2; [|by eapply A2].
    destruct (K2 _ _ L2) as (r3' & L3' & O3 & _). specialize (A1 _ _ L2 N1). congruence.
Qed.

Lemma same_key_comm r s : same_key owner key r s = same_key owner key s r.
Proof.
  unfold same_key. destruct (key r), (key s); try done. by rewrite String.eqb_sym, Z.eqb_sym.
Qed.

Lemma same_key_eq r r' s :
  owner r' = owner r -> key r' = key r -> same_key owner key r' s = same_key owner key r s.
Proof. unfold same_key. by intros -> ->. Qed.

Lemma insert_row_step new t :
  table_ok t -> keys_unique t ->
  let t' := fst (insert_row owner key new t) in
  table_step (owner new) t t' /\ table_ok t' /\ keys_unique t'.
Proof.
  intros Hok Hu. split; [|split; [by apply insert_row_ok|]];
    unfold insert_row; destruct (List.find _ _) as [[i row]|] eqn:E; try done; simpl.
  - split; simpl.
    + intros id row L. exists row. split; [|done]. rewrite lookup_insert_ne; [done|].
      intros <-. apply Hok in L. lia.
    + intros id row'. rewrite lookup_insert_Some. intros [[_ <-]|[_ L]] N; congruence.
  - assert (No : forall j s, t_rows t !! j = Some s -> same_key owner key new s = false).
    { intros j s L. apply elem_of_map_to_list, list_elem_of_In in L.
      by apply (find_none _ _ E) in L. }
    intros i j r s. simpl. rewrite !lookup_insert_Some.
    intros [[<- <-]|[_ L1]] [[<- <-]|[_ L2]] S; try done; try by eapply Hu.
    + by rewrite (No _ _ L2) in S.
    + rewrite same_key_comm in S. by rewrite (No _ _ L1) in S.
Qed.

Lemma update_owned_step id c f t :
  (forall r, owner (f r) = owner r /\ fixed (f r) = fixed r) ->
  table_ok t -> keys_unique t ->
  let t' := update_owned owner id c f t in
  table_step c t t' /\ table_ok t' /\ keys_unique t'.
Proof.
  intros Hf Hok Hu. split; [|split; [by apply update_owned_ok|]].
  - split.
    + intros i row L. destruct (update_owned_kept owner id c f _ _ _ L) as [L'|[O L']].
      * by exists row.
      * exists (f row). destruct (Hf row). by repeat split.
    + intros i row' L N. apply update_owned_lookup in L as [L|(r & L & _)]; congruence.
  - intros i j r s Hi Hj S.
    assert (P : forall i r, t_rows (update_owned owner id c f t) !! i = Some r ->
              exists r0, t_rows t !! i = Some r0 /\ owner r = owner r0 /\ key r = key r0).
    { intros i' r' [L|(r0 & L & _ & ->)]%update_owned_lookup; [by exists r'|].
      exists r0. destruct (Hf r0) as [? ?%fixed_key]. by repeat split. }
    apply P in Hi as (r0 & L1 & O1 & K1). apply P in Hj as (s0 & L2 & O2 & K2).
    eapply Hu; [done..|]. rewrite <- S, (same_key_eq r0 r), same_key_comm by done.
    by rewrite (same_key_comm r0 s), (same_key_eq s0 s).
Qed.
End Table.

Arguments step_kept {A K owner fixed c t t'}.
Arguments step_added {A K owner fixed c t t'}.

(** ** The three tables *)
Definition cycle_fixed (r : PerformedCycle) := (pc_testCycleId r, pc_idempotencyKey r).
Definition test_fixed (r : PerformedTest) :=
  (pt_testCycleDoneId r, pt_testId r, pt_idempotencyKey r).
Definition step_fixed (r : PerformedStep) :=
  (ps_testCycleDoneId r, ps_testDoneId r, ps_stepId r, ps_idempotencyKey r).

(** Identifiers and keys are unique; a test belongs to a cycle of its customer,
    and a step to a test of its customer and cycle. *)
Record results_ok (d : CliTables) : Prop := {
  ok_cycles : table_ok (performed_test_cycles d);
  ok_tests : table_ok (performed_tests d);
  ok_steps : table_ok (performed_steps d);
  ok_cycle_keys : keys_unique pc_idCostumer pc_idempotencyKey (performed_test_cycles d);
  ok_test_keys : keys_unique pt_idCostumer pt_idempotencyKey (performed_tests d);
  ok_step_keys : keys_unique ps_idCostumer ps_idempotencyKey (performed_steps d);
  ok_test_cycle : forall id r, t_rows (performed_tests d) !! id = Some r ->
    exists c, t_rows (performed_test_cycles d) !! pt_testCycleDoneId r = Some c /\
      pc_idCostumer c = pt_idCostumer r;
  ok_step_test : forall id r, t_rows (performed_steps d) !! id = Some r ->
    exists p, t_rows (performed_tests d) !! ps_testDoneId r = Some p /\
      pt_testCycleDoneId p = ps_testCycleDoneId r /\ pt_idCostumer p = ps_idCostumer r;
}.

(** What a request of customer [c] may change. *)
Record isolated (c : Z) (d d' : CliTables) : Prop := {
  iso_costumers : costumers d' = costumers d;
  iso_audits : key_audits d' = key_audits d;
  iso_configuration : configuration d' = configuration d;
  iso_cycles : table_step pc_idCostumer cycle_fixed c (performed_test_cycles d)
                          (performed_test_cycles d');
  iso_tests : table_step pt_idCostumer test_fixed c (performed_tests d) (performed_tests d');
  iso_steps : table_step ps_idCostumer step_fixed c (performed_steps d) (performed_steps d');
}.

#[export] Instance isolated_refl c : Reflexive (isolated c).
Proof. intros d. by split. Qed.

#[export] Instance isolated_trans c : Transitive (isolated c).
Proof. intros d1 d2 d3 [] []. split; try congruence; by etransitivity. Qed.

(** A write that keeps the invariant and stays within the customer's rows. *)
Definition good_write (c : Z) (d d' : CliTables) : Prop := results_ok d' /\ isolated c d d'.

Lemma good_same c d : results_ok d -> good_write c d d.
Proof. by split. Qed.

Lemma good_cycles c d t' :
  results_ok d ->
  table_step pc_idCostumer cycle_fixed c (performed_test_cycles d) t' /\ table_ok t' /\
    keys_unique pc_idCostumer pc_idempotencyKey t' ->
  good_write c d (with_cycles t' d).
Proof.
  intros [] (S & O & U). split; split; try done.
  intros id r H. destruct (ok_test_cycle0 _ _ H) as (cy & L & E).
  destruct (step_kept S _ _ L) as (cy' & L' & E' & _). exists cy'. split; [done|congruence].
Qed.

Lemma good_tests c d t' :
  results_ok d ->
  table_step pt_idCostumer test_fixed c (performed_tests d) t' /\ table_ok t' /\
    keys_unique pt_idCostumer pt_idempotencyKey t' ->
  (forall id r, t_rows t' !! id = Some r -> t_rows (performed_tests d) !! id = None ->
     exists cy, t_rows (performed_test_cycles d) !! pt_testCycleDoneId r = Some cy /\
       pc_idCostumer cy = pt_idCostumer r) ->
  good_write c d (with_tests t' d).
Proof.
  intros [] (S & O & U) New. split; split; try done.
  - intros id r H. simpl in H. destruct (t_rows (performed_tests d) !! id) as [r0|] eqn:E; [|by eapply New].
    destruct (step_kept S _ _ E) as (r' & L' & E' & F & _). rewrite H in L'. injection L' as <-.
    unfold test_fixed in F. injection F as F _ _. rewrite F, E'. by eapply ok_test_cycle0.
  - intros id r H. destruct (ok_step_test0 _ _ H) as (p & L & E1 & E2).
    destruct (step_kept S _ _ L) as (p' & L' & E' & F & _). exists p'.
    unfold test_fixed in F. injection F as F _ _. split; [done|]. split; congruence.
Qed.

Lemma good_steps c d t' :
  results_ok d ->
  table_step ps_idCostumer step_fixed c (performed_steps d) t' /\ table_ok t' /\
    keys_unique ps_idCostumer ps_idempotencyKey t' ->
  (forall id r, t_rows t' !! id = Some r -> t_rows (performed_steps d) !! id = None ->
     exists p, t_rows (performed_tests d) !! ps_testDoneId r = Some p /\
       pt_testCycleDoneId p = ps_testCycleDoneId r /\ pt_idCostumer p = ps_idCostumer r) ->
  good_write c d (with_steps t' d).
Proof.
  intros [] (S & O & U) New. split; split; try done.
  intros id r H. simpl in H. destruct (t_rows (performed_steps d) !! id) as [r0|] eqn:E; [|by eapply New].
  destruct (step_kept S _ _ E) as (r' & L' & E' & F & _). rewrite H in L'. injection L' as <-.
  unfold step_fixed in F. injection F as F1 F2 _ _. rewrite F1, F2, E'. by eapply ok_step_test0.
Qed.

(** ** The operations *)
Lemma insert_row_new {A} (owner : A -> Z) key new t id row :
  t_rows (fst (insert_row owner key new t)) !! id = Some row -> t_rows t !! id = None ->
  row = new.
Proof.
  destruct (insert_row owner key new t) as [t' i] eqn:E. simpl.
  apply insert_row_cases in E as [(r & -> & _)|[-> ->]]; [congruence|]. simpl.
  intros [[_ <-]|[_ L]]%lookup_insert_Some N; congruence.
Qed.

Lemma good_insert_cycle row d :
  results_ok d -> good_write (pc_idCostumer row) d (fst (insert_cycle row d)).
Proof.
  intros H. unfold insert_cycle. pose proof (insert_row_step pc_idCostumer pc_idempotencyKey
    cycle_fixed row (performed_test_cycles d) (ok_cycles _ H) (ok_cycle_keys _ H)) as S.
  destruct (insert_row _ _ row _) as [t' id]. by apply good_cycles.
Qed.

Lemma row_exists_cycle id c d :
  row_exists InPerformedTestCycles id c d = true ->
  exists cy, t_rows (performed_test_cycles d) !! id = Some cy /\ pc_idCostumer cy = c.
Proof.
  simpl. destruct (select_owned _ _ _ _) as [cy|] eqn:E; [|done]. intros _.
  apply select_owned_spec in E. by exists cy.
Qed.

Lemma good_insert_test row d :
  results_ok d ->
  row_exists InPerformedTestCycles (pt_testCycleDoneId row) (pt_idCostumer row) d = true ->
  good_write (pt_idCostumer row) d (fst (insert_test row d)).
Proof.
  intros H (cy & L & O)%row_exists_cycle. unfold insert_test.
  pose proof (insert_row_step pt_idCostumer pt_idempotencyKey
    test_fixed row (performed_tests d) (ok_tests _ H) (ok_test_keys _ H)) as S.
  pose proof (insert_row_new pt_idCostumer pt_idempotencyKey row (performed_tests d)) as N.
  destruct (insert_row _ _ row _) as [t' id]. apply good_tests; [done..|].
  intros i r L' No. specialize (N _ _ L' No) as ->. by exists cy.
Qed.

Lemma good_insert_step row d :
  results_ok d ->
  performed_test_exists (ps_testDoneId row) (ps_testCycleDoneId row) (ps_idCostumer row) d = true ->
  good_write (ps_idCostumer row) d (fst (insert_step row d)).
Proof.
  intros H He. unfold performed_test_exists in He.
  destruct (select_owned _ _ _ _) as [p|] eqn:E; [|done].
  apply select_owned_spec in E as [L O]. apply Z.eqb_eq in He. unfold insert_step.
  pose proof (insert_row_step ps_idCostumer ps_idempotencyKey
    step_fixed row (performed_steps d) (ok_steps _ H) (ok_step_keys _ H)) as S.
  pose proof (insert_row_new ps_idCostumer ps_idempotencyKey row (performed_steps d)) as N.
  destruct (insert_row _ _ row _) as [t' id]. apply good_steps; [done..|].
  intros i r L' No. specialize (N _ _ L' No) as ->. by exists p.
Qed.

Lemma good_update_cycle now c id status d :
  results_ok d -> good_write c d (fst (update_cycle now c id status d)).
Proof.
  intros H. apply good_cycles; [done|]. apply update_owned_step; [|done|apply H..].
  by intros r r' [= _ E].
Qed.

Lemma good_update_test now c command d :
  results_ok d ->
  good_write c d (with_tests (update_owned pt_idCostumer (ut_TestID command) c
                                           (set_test now command) (performed_tests d)) d).
Proof.
  intros H. apply good_tests; [done| |].
  - apply update_owned_step; [|done|apply H..]. by intros r r' [= _ _ E].
  - intros id r [L|(r0 & L & _)]%update_owned_lookup N; congruence.
Qed.

Lemma good_update_step now c id text d :
  results_ok d -> good_write c d (fst (update_step now c id text d)).
Proof.
  intros H. apply good_steps; [done| |].
  - apply update_owned_step; [|done|apply H..]. by intros r r' [= _ _ _ E].
  - intros i r [L|(r0 & L & _)]%update_owned_lookup N; congruence.
Qed.

Create HintDb cli.
#[export] Hint Resolve good_same good_insert_cycle good_insert_test good_insert_step
  good_update_cycle good_update_test good_update_step : cli.

(** Walks through an operation with the rules of [leads]. *)
Ltac leads_step :=
  lazymatch goal with
  | |- leads _ (bind (query _ _) _) _ => apply leads_query_bind
  | |- leads _ (bind (tenantRowExists _ _ _ _) _) _ => apply leads_query_bind
  | |- leads _ (bind (tenantPerformedTestExists _ _ _) _) _ => apply leads_query_bind
  | |- leads _ (bind (mysqlColumnExists _) _) _ => apply leads_query_bind
  | |- leads _ (bind (exec _ _) _) _ => apply leads_exec_bind
  | |- leads _ (bind (exec_count _ _) _) _ => apply leads_exec_count_bind
  | |- leads _ (bind (guard _ _) _) _ => apply leads_guard_bind; [|intros]
  | |- leads _ (insert_returning _ _) _ => apply leads_exec_count
  | |- leads _ (transaction _ _ _) _ => apply leads_transaction
  | |- leads _ (ret _) _ => apply leads_ret
  | |- leads _ (fail _) _ => apply leads_fail
  | |- leads _ (if _ then _ else _) _ => case_match
  | |- leads _ (match _ with _ => _ end) _ => case_match
  end.

Lemma leads_pure_bind {D A B} (d : D) (m : M D A) (k : A -> M D B) Q :
  pure_db m -> Q d -> (forall a, leads d (k a) Q) -> leads d (bind m k) Q.
Proof.
  intros P H K w E. specialize (P w). unfold bind. destruct (m w) as [[a|e] w1]; simpl in *.
  - apply K. congruence.
  - by rewrite P, E.
Qed.

Lemma first_column_pure names : pure_db (first_column names).
Proof.
  induction names as [|n names IH]; [by intros w|]. intros w.
  assert (L : leads (w_db w) (first_column (n :: names)) (fun d' => d' = w_db w)); [|by apply L].
  apply leads_query_bind; [done|]. destruct (existsb _ _); [by intros w' E|].
  intros w' E. by rewrite IH.
Qed.

Section Operations.
Variables (now : time) (customerID : Z) (d : CliTables) (Q : CliTables -> Prop).
Hypothesis HQ : Q d.

(** Each operation leaves the tables alone or makes its one write, and an
    insertion comes after its ownership tests. *)
Lemma create_cycle_leads command :
  (forall context, (cc_IdempotencyKey command <> "" -> context = None) ->
     (forall column text, context = Some (column, text) -> cc_ExecutionContext command = Some text) ->
     Q (fst (insert_cycle (new_cycle now customerID command context) d))) ->
  leads d (CreatePerformedCycle now customerID command) Q.
Proof.
  intros H. unfold CreatePerformedCycle, insertPerformedCycle.
  repeat (leads_step; try done).
  - by apply H.
  - apply leads_pure_bind; [apply first_column_pure|done|]. intros [column|];
      repeat (leads_step; try done); apply H; try done; [|naive_solver].
    intros N. apply String.eqb_neq in N. by rewrite N in *.
  - by apply H.
Qed.

Lemma update_cycle_leads command :
  Q (fst (update_cycle now customerID (uc_TestCycleID command) (uc_Status command) d)) ->
  leads d (UpdatePerformedCycle now customerID command) Q.
Proof. intros H. unfold UpdatePerformedCycle. repeat (leads_step; try done). Qed.

Lemma create_test_leads command :
  (row_exists InPerformedTestCycles (ct_TestCycleID command) customerID d = true ->
   row_exists InTests (ct_TestID command) customerID d = true ->
   Q (fst (insert_test (new_test now customerID command) d))) ->
  leads d (CreatePerformedTest now customerID command) Q.
Proof.
  intros H. unfold CreatePerformedTest. repeat (leads_step; try done).
  rewrite andb_true_iff in *. apply H; tauto.
Qed.

Lemma update_test_leads command :
  Q (with_tests (update_owned pt_idCostumer (ut_TestID command) customerID
                              (set_test now command) (performed_tests d)) d) ->
  leads d (UpdatePerformedTest now customerID command) Q.
Proof. intros H. unfold UpdatePerformedTest. repeat (leads_step; try done). Qed.

Lemma create_step_leads command :
  (row_exists InPerformedTestCycles (cs_TestCycleID command) customerID d = true ->
   performed_test_exists (cs_TestID command) (cs_TestCycleID command) customerID d = true ->
   row_exists InSteps (cs_StepID command) customerID d = true ->
   Q (fst (insert_step (new_step now customerID command) d))) ->
  leads d (CreatePerformedStep now customerID command) Q.
Proof.
  intros H. unfold CreatePerformedStep. repeat (leads_step; try done).
  rewrite !andb_true_iff in *. apply H; tauto.
Qed.

Lemma update_step_leads command :
  Q (fst (update_step now customerID (us_StepID command) (us_Screenshots command) d)) ->
  leads d (UpdatePerformedStep now customerID command) Q.
Proof. intros H. unfold UpdatePerformedStep. repeat (leads_step; try done). Qed.
End Operations.

(** ** The handlers *)
Lemma write_result_leads {C} configured unconfigured (decoded : cli_reply + C) call name failure d Q :
  Q d -> (forall command, decoded = inr command -> leads d (call command) Q) ->
  leads d (write_result configured unconfigured decoded call name failure) Q.
Proof.
  intros H K. unfold write_result. destruct configured; [|by apply leads_ret].
  destruct decoded as [w|command]; [by apply leads_ret|]. by apply leads_attempt, K.
Qed.

Section Handlers.
Context `{F : Floats}.

Lemma handle_good h rt tenant r d :
  results_ok d -> leads d (handle h rt (Some tenant) r) (good_write (tc_CustomerID tenant) d).
Proof.
  intros H. destruct rt; apply write_result_leads; auto with cli; intros command _.
  - apply create_cycle_leads; auto with cli. intros context _ _.
    by apply (good_insert_cycle (new_cycle _ _ command context)).
  - apply update_cycle_leads; auto with cli.
  - apply create_test_leads; auto with cli. intros E _.
    by apply (good_insert_test (new_test _ _ command)).
  - apply update_test_leads; auto with cli.
  - apply create_step_leads; auto with cli. intros _ E _.
    by apply (good_insert_step (new_step _ _ command)).
  - apply update_step_leads; auto with cli.
Qed.
End Handlers.

(** ** Decoders *)
Lemma and_then_inr {A C} (r : cli_reply + A) (k : A -> cli_reply + C) c :
  and_then r k = inr c -> exists a, r = inr a /\ k a = inr c.
Proof. destruct r as [w|a]; [done|]. by exists a. Qed.

Lemma or_write_inr {A} (o : option A) m a : or_write o m = inr a -> o = Some a.
Proof. by destruct o; intros [= <-]. Qed.

Lemma idempotencyKey_some k k' : idempotencyKey k = Some k' -> k' = k.
Proof.
  unfold idempotencyKey. destruct (String.eqb_spec k "") as [->|]; [by intros [= <-]|].
  repeat case_match; intros [=]; done.
Qed.

(** Opens a successful decoding step by step. *)
Ltac decode_step H :=
  lazymatch type of H with
  | and_then _ _ = inr _ =>
      let x := fresh "x" in let E := fresh "E" in
      apply and_then_inr in H as (x & E & H); decode_step E
  | or_write _ _ = inr _ => apply or_write_inr in H
  | _ => idtac
  end.

Ltac decode_all H := repeat (progress (decode_step H)).

Section Decoding.
Context `{F : Floats}.

(** The text of a document in which every sensitive member is masked. *)
Definition redacted_text (s : string) : Prop :=
  exists v, s = marshal v /\ masked isSensitiveJSONKey v = true.

Lemma redactPostmanJSON_redacted raw s : redactPostmanJSON raw = Some s -> redacted_text s.
Proof.
  unfold redactPostmanJSON. destruct (unmarshalAny raw) as [v|]; [|done]. intros [= <-].
  exists (redactJSONValue v). split; [done|]. apply redact_with_masked.
Qed.

Lemma decode_cycle_ok r c :
  decodeCreatePerformedCycle r = inr c ->
  cc_IdempotencyKey c = cr_idempotencyKey r /\
  (forall text, cc_ExecutionContext c = Some text -> redacted_text text).
Proof.
  unfold decodeCreatePerformedCycle. intros H. decode_all H.
  apply idempotencyKey_some in E1 as ->.
  destruct (dget _ _) as [raw|]; [|by injection H as <-].
  case_match; [by injection H as <-|]. case_match; [done|].
  destruct (unmarshalAny raw) as [[]|]; try done. decode_all H. injection H as <-.
  split; [done|]. simpl. intros text [= <-]. by eapply redactPostmanJSON_redacted.
Qed.

Lemma decode_test_ok r c :
  decodeCreatePerformedTest r = inr c -> ct_IdempotencyKey c = cr_idempotencyKey r.
Proof.
  unfold decodeCreatePerformedTest. intros H. decode_all H.
  injection H as <-. by apply idempotencyKey_some in E3.
Qed.

Lemma decode_update_test_ok r c text :
  decodeUpdatePerformedTest r = inr c -> ut_PostmanData c = Some text -> redacted_text text.
Proof.
  unfold decodeUpdatePerformedTest. intros H. decode_all H.
  destruct (dget _ _) as [raw|]; [|by injection H as <-].
  case_match; [by injection H as <-|]. case_match; [|done]. decode_all H. injection H as <-.
  simpl. intros [= <-]. by eapply redactPostmanJSON_redacted.
Qed.

Lemma decode_step_ok r c :
  decodeCreatePerformedStep r = inr c ->
  cs_IdempotencyKey c = cr_idempotencyKey r /\ redacted_text (cs_Data c).
Proof.
  unfold decodeCreatePerformedStep. intros H. decode_all H. injection H as <-. simpl.
  split; [by eapply idempotencyKey_some|by eapply redactPostmanJSON_redacted].
Qed.
End Decoding.

(** A decoder that fails has written a validation error. *)
Definition writes_errors {C} (decoded : cli_reply + C) : Prop :=
  match decoded with inl w => exists m, w = writeValidationError m | inr _ => True end.

Lemma and_then_errors {A C} (r : cli_reply + A) (k : A -> cli_reply + C) :
  writes_errors r -> (forall a, writes_errors (k a)) -> writes_errors (and_then r k).
Proof. destruct r; simpl; auto. Qed.

Lemma or_write_errors {A} (o : option A) m : writes_errors (or_write o m).
Proof. destruct o; simpl; eauto. Qed.

Lemma decodeJSONObject_errors r : writes_errors (decodeJSONObject r).
Proof. unfold decodeJSONObject. repeat case_match; simpl; eauto. Qed.

Ltac solve_errors :=
  repeat first
    [ apply and_then_errors; [first [apply decodeJSONObject_errors | apply or_write_errors]|intros]
    | apply or_write_errors
    | lazymatch goal with
      | |- writes_errors (inr _) => exact I
      | |- writes_errors (inl (writeValidationError _)) => simpl; eexists; reflexivity
      | |- writes_errors (match _ with _ => _ end) => case_match
      | |- writes_errors (if _ then _ else _) => case_match
      end ].

Lemma decoders_errors `{F : Floats} r :
  writes_errors (decodeCreatePerformedCycle r) /\ writes_errors (decodeCreatePerformedTest r) /\
  writes_errors (decodeCreatePerformedStep r).
Proof.
  split; [|split].
  - unfold decodeCreatePerformedCycle. solve_errors.
  - unfold decodeCreatePerformedTest. solve_errors.
  - unfold decodeCreatePerformedStep. solve_errors.
Qed.

(** ** Repeating a keyed creation *)
Section Again.
Context {A : Type} (owner : A -> Z) (key : A -> option string).

Lemma insert_row_found new t t' id :
  key new <> None -> insert_row owner key new t = (t', id) ->
  exists row, t_rows t' !! id = Some row /\ same_key owner key new row = true.
Proof.
  intros N E. apply insert_row_cases in E as [(row & -> & L & S)|[-> _]]; [by exists row|].
  exists new. simpl. rewrite lookup_insert_eq. split; [done|].
  destruct (key new) as [k|] eqn:K; [|done]. by eapply same_key_refl.
Qed.

Lemma insert_row_again new t id row :
  keys_unique owner key t -> t_rows t !! id = Some row -> same_key owner key new row = true ->
  insert_row owner key new t = (t, id).
Proof.
  intros U L S. unfold insert_row. destruct (List.find _ _) as [[i r]|] eqn:E.
  - apply find_some in E as [Hin S']. apply list_elem_of_In, elem_of_map_to_list in Hin.
    simpl in S'. do 2 f_equal. eapply U; [done..|].
    unfold same_key in *. destruct (key new), (key row), (key r); try done.
    rewrite !andb_true_iff, !String.eqb_eq, !Z.eqb_eq in *. intuition congruence.
  - apply elem_of_map_to_list, list_elem_of_In in L. apply (find_none _ _ E) in L.
    simpl in L. congruence.
Qed.
End Again.

Lemma key_column_some k : k <> "" -> key_column k = Some k.
Proof. intros N. unfold key_column. apply String.eqb_neq in N. by rewrite N. Qed.

(** What a successful creation found and did. *)
Lemma create_cycle_ok now c command w id w' :
  CreatePerformedCycle now c command w = (Ok id, w') -> cc_IdempotencyKey command <> "" ->
  row_exists InTestCycles (cc_TestCycleID command) c (w_db w) = true /\
  insert_cycle (new_cycle now c command None) (w_db w) = (w_db w', id).
Proof.
  intros (w1 & w2 & E1 & H & E2)%transaction_ok N. apply bind_ok in H as (b & w3 & Q & H).
  apply query_ok in Q as [-> E3]. apply bind_ok in H as (u & w4 & G & H).
  apply guard_ok in G as [G ->]. unfold insertPerformedCycle in H.
  apply String.eqb_neq in N. rewrite N in H. apply exec_count_ok in H.
  rewrite E3, E1 in *. by rewrite E2.
Qed.

Lemma create_test_ok now c command w id w' :
  CreatePerformedTest now c command w = (Ok id, w') ->
  row_exists InPerformedTestCycles (ct_TestCycleID command) c (w_db w) = true /\
  row_exists InTests (ct_TestID command) c (w_db w) = true /\
  insert_test (new_test now c command) (w_db w) = (w_db w', id).
Proof.
  intros (w1 & w2 & E1 & H & E2)%transaction_ok. apply bind_ok in H as (b & w3 & Q & H).
  apply query_ok in Q as [-> E3]. apply bind_ok in H as (b' & w4 & Q & H).
  apply query_ok in Q as [-> E4]. apply bind_ok in H as (u & w5 & G & H).
  apply guard_ok in G as [[G1 G2]%andb_true_iff ->]. apply exec_count_ok in H.
  rewrite E4, E3, E1 in *. by rewrite E2.
Qed.

Lemma create_step_ok now c command w id w' :
  CreatePerformedStep now c command w = (Ok id, w') ->
  row_exists InPerformedTestCycles (cs_TestCycleID command) c (w_db w) = true /\
  performed_test_exists (cs_TestID command) (cs_TestCycleID command) c (w_db w) = true /\
  row_exists InSteps (cs_StepID command) c (w_db w) = true /\
  insert_step (new_step now c command) (w_db w) = (w_db w', id).
Proof.
  intros (w1 & w2 & E1 & H & E2)%transaction_ok. apply bind_ok in H as (b & w3 & Q & H).
  apply query_ok in Q as [-> E3]. apply bind_ok in H as (b' & w4 & Q & H).
  apply query_ok in Q as [-> E4]. apply bind_ok in H as (b'' & w5 & Q & H).
  apply query_ok in Q as [-> E5]. apply bind_ok in H as (u & w6 & G & H).
  apply guard_ok in G as [[[G1 G2]%andb_true_iff G3]%andb_true_iff ->]. apply exec_count_ok in H.
  rewrite E5, E4, E3, E1 in *. by rewrite E2.
Qed.

(** The same creation where its row is already there. *)
Lemma create_cycle_again now c command d rnd id row :
  cc_IdempotencyKey command <> "" ->
  row_exists InTestCycles (cc_TestCycleID command) c d = true ->
  keys_unique pc_idCostumer pc_idempotencyKey (performed_test_cycles d) ->
  t_rows (performed_test_cycles d) !! id = Some row ->
  same_key pc_idCostumer pc_idempotencyKey (new_cycle now c command None) row = true ->
  CreatePerformedCycle now c command (World d [] rnd) = (Ok id, World d [] rnd).
Proof.
  intros N G U L S. apply eval_transaction. unfold tenantRowExists.
  rewrite (eval_bind _ _ _ _ _ (eval_query _ _ _ _)), G.
  rewrite (eval_bind _ _ _ _ _ (eval_guard_true _ _ _ eq_refl)).
  unfold insertPerformedCycle, insert_returning. apply String.eqb_neq in N. rewrite N. cbv zeta. cbn [negb].
  rewrite eval_exec_count. unfold insert_cycle. rewrite (insert_row_again _ _ _ _ _ _ U L S).
  by destruct d.
Qed.

Lemma create_test_again now c command d rnd id row :
  row_exists InPerformedTestCycles (ct_TestCycleID command) c d = true ->
  row_exists InTests (ct_TestID command) c d = true ->
  keys_unique pt_idCostumer pt_idempotencyKey (performed_tests d) ->
  t_rows (performed_tests d) !! id = Some row ->
  same_key pt_idCostumer pt_idempotencyKey (new_test now c command) row = true ->
  CreatePerformedTest now c command (World d [] rnd) = (Ok id, World d [] rnd).
Proof.
  intros G1 G2 U L S. apply eval_transaction. unfold tenantRowExists.
  rewrite (eval_bind _ _ _ _ _ (eval_query _ _ _ _)), G1.
  rewrite (eval_bind _ _ _ _ _ (eval_query _ _ _ _)), G2.
  rewrite (eval_bind _ _ _ _ _ (eval_guard_true _ _ _ eq_refl)). unfold insert_returning.
  rewrite eval_exec_count. unfold insert_test. rewrite (insert_row_again _ _ _ _ _ _ U L S).
  by destruct d.
Qed.

Lemma create_step_again now c command d rnd id row :
  row_exists InPerformedTestCycles (cs_TestCycleID command) c d = true ->
  performed_test_exists (cs_TestID command) (cs_TestCycleID command) c d = true ->
  row_exists InSteps (cs_StepID command) c d = true ->
  keys_unique ps_idCostumer ps_idempotencyKey (performed_steps d) ->
  t_rows (performed_steps d) !! id = Some row ->
  same_key ps_idCostumer ps_idempotencyKey (new_step now c command) row = true ->
  CreatePerformedStep now c command (World d [] rnd) = (Ok id, World d [] rnd).
Proof.
  intros G1 G2 G3 U L S. apply eval_transaction. unfold tenantRowExists, tenantPerformedTestExists.
  rewrite (eval_bind _ _ _ _ _ (eval_query _ _ _ _)), G1.
  rewrite (eval_bind _ _ _ _ _ (eval_query _ _ _ _)), G2.
  rewrite (eval_bind _ _ _ _ _ (eval_query _ _ _ _)), G3.
  rewrite (eval_bind _ _ _ _ _ (eval_guard_true _ _ _ eq_refl)). unfold insert_returning.
  rewrite eval_exec_count. unfold insert_step. rewrite (insert_row_again _ _ _ _ _ _ U L S).
  by destruct d.
Qed.

(** A later state of the result tables. *)
Record later (d d' : CliTables) : Prop := {
  later_configuration : configuration d' = configuration d;
  later_cycles : forall id r, t_rows (performed_test_cycles d) !! id = Some r ->
    exists r', t_rows (performed_test_cycles d') !! id = Some r' /\
      pc_idCostumer r' = pc_idCostumer r /\ cycle_fixed r' = cycle_fixed r;
  later_tests : forall id r, t_rows (performed_tests d) !! id = Some r ->
    exists r', t_rows (performed_tests d') !! id = Some r' /\
      pt_idCostumer r' = pt_idCostumer r /\ test_fixed r' = test_fixed r;
  later_steps : forall id r, t_rows (performed_steps d) !! id = Some r ->
    exists r', t_rows (performed_steps d') !! id = Some r' /\
      ps_idCostumer r' = ps_idCostumer r /\ step_fixed r' = step_fixed r;
}.

#[export] Instance later_refl : Reflexive later.
Proof. intros d. split; [done|naive_solver..]. Qed.

#[export] Instance later_trans : Transitive later.
Proof.
  intros d1 d2 d3 [] []. split; [congruence|..]; intros id r L.
  - destruct (later_cycles0 _ _ L) as (r2 & L2 & ? & ?).
    destruct (later_cycles1 _ _ L2) as (r3 & L3 & ? & ?). exists r3. repeat split; congruence.
  - destruct (later_tests0 _ _ L) as (r2 & L2 & ? & ?).
    destruct (later_tests1 _ _ L2) as (r3 & L3 & ? & ?). exists r3. repeat split; congruence.
  - destruct (later_steps0 _ _ L) as (r2 & L2 & ? & ?).
    destruct (later_steps1 _ _ L2) as (r3 & L3 & ? & ?). exists r3. repeat split; congruence.
Qed.

Lemma isolated_later c d d' : isolated c d d' -> later d d'.
Proof.
  intros []. split; [done|..]; intros id r L.
  - destruct (step_kept iso_cycles0 _ _ L) as (r' & ? & ? & ? & _). by exists r'.
  - destruct (step_kept iso_tests0 _ _ L) as (r' & ? & ? & ? & _). by exists r'.
  - destruct (step_kept iso_steps0 _ _ L) as (r' & ? & ? & ? & _). by exists r'.
Qed.

(** The ownership tests still pass later. *)
Lemma row_exists_later where_ id c d d' :
  later d d' -> row_exists where_ id c d = true -> row_exists where_ id c d' = true.
Proof.
  intros L. destruct where_; simpl; rewrite ?(later_configuration _ _ L); try done.
  intros (cy & E & O)%row_exists_cycle. destruct (later_cycles _ _ L _ _ E) as (r' & E' & O' & _).
  destruct (select_owned _ _ _ (performed_test_cycles d')) eqn:S; [done|].
  unfold select_owned in S. rewrite E' in S. simpl in S.
  replace (pc_idCostumer r' =? c) with true in S by lia. done.
Qed.

Lemma performed_test_exists_later t cy c d d' :
  later d d' -> performed_test_exists t cy c d = true -> performed_test_exists t cy c d' = true.
Proof.
  unfold performed_test_exists. intros L H.
  destruct (select_owned _ _ _ (performed_tests d)) as [p|] eqn:E; [|done].
  apply select_owned_spec in E as [E O]. destruct (later_tests _ _ L _ _ E) as (r' & E' & O' & F').
  replace (select_owned _ _ _ (performed_tests d')) with (Some r').
  - unfold test_fixed in F'. by injection F' as -> _ _.
  - symmetry. apply select_owned_spec. split; [done|congruence].
Qed.
