(* ===== verification/CliTheorems.v ===== *)
(** * Theorems about the command-line API

    Who an API key belongs to and what its rotation does; what a CLI request can
    change; that a keyed creation happens once; that stored results carry no
    secrets. *)

From S2P Require Import Prelude GoStrings GoTime Json Redaction JsonText Effects Http RunTables.
From S2P Require Import RunTheorems CliTables LegacyAuth CliWrites CliFacts.

(** ** A concrete installation

    Customer 7 has a plain key, customer 8 a hashed one. *)
#[export] Instance plain_floats : Floats := {|
  parseFloat := fun s => Some (Float64 (parseInt s) s s);
  jsonFloat := f_plain;
|}.

(** JSON text with its quotes written ['] here. *)
Definition json_text (s : string) : string :=
  of_chars (map (fun c => if Ascii.eqb c "'"%char then quote else c) (chars s)).

Definition config_row (owner : Z) : ConfigRow :=
  {| cf_name := "login"; cf_code := ""; cf_description := Some ""; cf_config := Some "{}";
     cf_order := 0; cf_idProject := 1; cf_created_at := None; cf_updated_at := None;
     cf_idCostumer := owner |}.

Definition cli_tables : CliTables :=
  {| costumers :=
       [{| co_id := 7; co_costumer := "ACME"; co_apiKey := Some "legacy-key-7";
           co_apiKeyExpiresAt := None; co_apiKeyLastUsedAt := None |};
        {| co_id := 8; co_costumer := "BETA"; co_apiKey := Some "$2a$legacy-key-8";
           co_apiKeyExpiresAt := Some (noon + hour); co_apiKeyLastUsedAt := None |}];
     key_audits := [];
     configuration :=
       {| test_cycles := {[ 5 := config_row 7 ]}; tests := {[ 3 := config_row 7 ]};
          steps := {[ 4 := config_row 7 ]}; plugins := ∅; environments := ∅;
          performed_test_cycles_columns := ["execution_context"] |};
     performed_test_cycles := Table ∅ 1;
     performed_tests := Table ∅ 1;
     performed_steps := Table ∅ 1 |}.

Definition cli_handler : CliHandler :=
  {| ch_performedCycles := true; ch_performedTests := true; ch_performedSteps := true;
     ch_now := noon; ch_clock := noon |}.

Definition cli_request (key body : string) : CliRequest :=
  {| cr_body := Some (json_text body); cr_idempotencyKey := key; cr_path := fun _ => "" |}.

Lemma cli_tables_ok : results_ok cli_tables.
Proof.
  split; repeat intro;
    match goal with H : _ !! _ = Some _ |- _ => discriminate H end.
Qed.

(** ** API keys *)
Section Keys.
Context `{B : Bcrypt}.

(** with no database failure a key is accepted exactly for its owner, the
    first unexpired customer that does not refuse it, and then only that customer's
    last use is recorded; any other key is refused and changes nothing. *)
Theorem legacy_key_exact (key : string) (now : time) (d : CliTables) (r : list (option string)) :
  exists result d',
    AuthenticateLegacyCustomerKey key now (World d [] r) = (result, World d' [] r) /\
    ((exists c, result = Ok c /\ key_owner now key d c /\
        d' = update_costumer (cu_ID c) (set_last_used now) d) \/
     (exists e, result = Err e /\ d' = d /\ forall c, ~ key_owner now key d c)).
Proof.
  destruct (key_owner_dec now key d) as [[c Hc]|No].
  - eexists _, _. split; [by apply authenticate_owner|]. left. by exists c.
  - destruct (authenticate_nobody now key d r No) as [e He].
    eexists _, _. split; [exact He|]. right. by exists e.
Qed.

(** a customer without a key locks out everybody behind it: when every row
    before it refuses the presented key, scanning its NULL key fails the look-up,
    whoever comes after and whether or not the key is theirs. *)
Theorem null_key_locks_everybody_out (key : string) (now : time) (d : CliTables)
  (r : list (option string)) (pre : list CostumerRow) (row : CostumerRow) (post : list CostumerRow) :
  List.filter (unexpired now) (costumers d) = (pre ++ row :: post)%list ->
  forallb (refuses key) pre = true -> co_apiKey row = None ->
  AuthenticateLegacyCustomerKey key now (World d [] r)
  = (Err (DatabaseFailure "authenticate legacy API key: database unavailable"), World d [] r).
Proof.
  intros E Hp Hn. unfold AuthenticateLegacyCustomerKey.
  rewrite (eval_bind _ _ _ _ _ (eval_query _ _ _ _)), E, scan_refused by done. simpl. by rewrite Hn.
Qed.
End Keys.

(** after a rotation the new key, sent as it was returned, runs the handler
    as the tenant until it expires, and a key the new hash does not accept and the
    other customers refuse, such as the old one, is answered 401 without running
    it. *)
Theorem rotated_key_opens `{L : BcryptLaws} (tenant now : Z) (w w' : world CliTables)
  (raw : string) (meta : KeyMetadata) (t : time) (rnd : list (option string)) :
  Replace tenant now w = (Ok (raw, meta), w') ->
  NoDup (map co_id (costumers (w_db w))) -> tenant <> 0 ->
  after (now + keyLifetime) t = true ->
  (others_refuse tenant t raw (w_db w) = true ->
   exists name, forall next,
     Middleware [raw] t next (World (w_db w') [] rnd)
     = next {| cu_ID := tenant; cu_Name := name |} {| tc_CustomerID := tenant |}
            (World (update_costumer tenant (set_last_used t) (w_db w')) [] rnd)) /\
  (forall old next,
   (forall salt hash, bcrypt_generate salt raw = Some hash -> bcrypt_compare hash old = false) ->
   readLegacyKey [old] = Some old -> others_refuse tenant t old (w_db w) = true ->
   Middleware [old] t next (World (w_db w') [] rnd) = (Ok reject, World (w_db w') [] rnd)).
Proof.
  intros H Nd Nz Ht. apply replace_ok in H as (b & salt & hash & row & Hb & -> & G & Hin & Hid & E).
  pose proof (bcrypt_version _ _ _ G) as V. split.
  - intros Ho. exists (co_costumer row). intros next.
    destruct (rotated_rows tenant t _ row hash (now + keyLifetime) _ Nd Hin Hid Ho Ht)
      as (pre & post & F & Hp & _).
    apply (middleware_owner t _ next _ _ {| cu_ID := tenant; cu_Name := co_costumer row |}).
    + by apply issued_key_readable.
    + exists pre, (set_key hash (now + keyLifetime) row), post. rewrite E.
      repeat split; try done; [|simpl; congruence|simpl; congruence].
      unfold accepts, credential_matches. simpl. rewrite V. by eapply bcrypt_match.
  - intros old next Hold Hr Ho. apply middleware_nobody. rewrite Hr. intros k [= <-].
    apply refused_everywhere. rewrite E.
    destruct (rotated_rows tenant t _ row hash (now + keyLifetime) _ Nd Hin Hid Ho Ht)
      as (pre & post & F & Hp & Hq).
    rewrite F, forallb_app, Hp. simpl. rewrite Hq.
    unfold refuses, credential_matches. simpl. by rewrite V, (Hold _ _ G).
Qed.

(** Customer 8 behind a customer without a key: its own key is refused. *)
Definition keyless_first : CliTables :=
  with_costumers ({| co_id := 6; co_costumer := "NEW"; co_apiKey := None; co_apiKeyExpiresAt := None;
                     co_apiKeyLastUsedAt := None |} :: costumers cli_tables) cli_tables.

Lemma null_key_locks_everybody_out_witness :
  fst (AuthenticateLegacyCustomerKey "legacy-key-8" noon (World cli_tables [] []))
    = Ok {| cu_ID := 8; cu_Name := "BETA" |} /\
  AuthenticateLegacyCustomerKey "legacy-key-8" noon (World keyless_first [] [])
    = (Err (DatabaseFailure "authenticate legacy API key: database unavailable"),
       World keyless_first [] []).
Proof.
  split; [vm_compute; reflexivity|].
  exact (null_key_locks_everybody_out "legacy-key-8" noon keyless_first [] [] _ _ eq_refl eq_refl eq_refl).
Defined.

Definition rotation_world : world CliTables :=
  World cli_tables [] [Some (of_chars (repeat "k"%char 32)); Some (of_chars (repeat "s"%char 16))].

Definition rotated := Replace 8 noon rotation_world.
Definition rotated_key : string := match fst rotated with Ok (raw, _) => raw | Err _ => "" end.
Definition rotated_meta : KeyMetadata :=
  {| km_active := true; km_expiresAt := Some (noon + keyLifetime); km_lastUsedAt := None |}.

Lemma rotated_key_opens_witness :
  rotated = (Ok (rotated_key, rotated_meta), snd rotated) /\
  rotated_key = "idk_a2tra2tra2tra2tra2tra2tra2tra2tra2tra2tra2s" /\
  (exists name, forall next,
     Middleware [rotated_key] (noon + hour) next (World (w_db (snd rotated)) [] [])
     = next {| cu_ID := 8; cu_Name := name |} {| tc_CustomerID := 8 |}
         (World (update_costumer 8 (set_last_used (noon + hour)) (w_db (snd rotated))) [] [])) /\
  (forall next,
     Middleware ["legacy-key-8"] (noon + hour) next (World (w_db (snd rotated)) [] [])
     = (Ok reject, World (w_db (snd rotated)) [] [])).
Proof.
  assert (E : rotated = (Ok (rotated_key, rotated_meta), snd rotated)) by (vm_compute; reflexivity).
  assert (N : NoDup (map co_id (costumers (w_db rotation_world)))).
  { vm_compute. repeat constructor; set_solver. }
  destruct (rotated_key_opens 8 noon rotation_world (snd rotated) rotated_key rotated_meta
              (noon + hour) [] E N ltac:(done) eq_refl) as [New Old].
  split; [exact E|]. split; [vm_compute; reflexivity|]. split.
  - apply New. vm_compute. reflexivity.
  - intros next. apply Old.
    + intros salt hash G.
      assert (H : hash = "$2a$" +:+ rotated_key) by (vm_compute in G; vm_compute; congruence).
      rewrite H. vm_compute. reflexivity.
    + vm_compute. reflexivity.
    + vm_compute. reflexivity.
Defined.

(** ** Requests *)
Section Requests.
Context `{B : Bcrypt} `{F : Floats}.

(** What a served request leaves, whatever fails: the tables it found, or what the
    handler made of them for the owner of the key. *)
Lemma serve_cases h rt keys r w :
  db_after (serve h rt keys r) w = w_db w \/
  exists key c w1,
    readLegacyKey keys = Some key /\ key_owner (ch_clock h) key (w_db w) c /\
    w_db w1 = update_costumer (cu_ID c) (set_last_used (ch_clock h)) (w_db w) /\
    serve h rt keys r w = handle h rt (Some {| tc_CustomerID := cu_ID c |}) r w1.
Proof.
  unfold db_after, serve, Middleware. destruct (readLegacyKey keys) as [key|]; [|by left].
  unfold bind, attempt.
  destruct (AuthenticateLegacyCustomerKey key (ch_clock h) w) as [[c|e] w1] eqn:E.
  - right. apply authenticate_ok in E as [Ho E]. by exists key, c, w1.
  - left. apply authenticate_err in E. by destruct e.
Qed.

(** Claim C5: a request to the CLI write routes, whatever fails in it, either changes
    nothing or was made with the key of a customer: then that customer's last use is
    recorded, no row disappears or changes hands, the rows of other customers are
    untouched, new rows are the customer's, and the tables stay well-formed: unique
    identifiers and idempotency keys, tests and steps that refer to results of the
    same customer. *)
Theorem cli_requests_isolated (h : CliHandler) (rt : route) (keys : list string)
  (r : CliRequest) (w : world CliTables) :
  results_ok (w_db w) ->
  let d' := db_after (serve h rt keys r) w in
  d' = w_db w \/
  exists key c,
    readLegacyKey keys = Some key /\ key_owner (ch_clock h) key (w_db w) c /\
    results_ok d' /\
    isolated (cu_ID c) (update_costumer (cu_ID c) (set_last_used (ch_clock h)) (w_db w)) d'.
Proof.
  intros H. destruct (serve_cases h rt keys r w) as [E|(key & c & w1 & Hr & Ho & E & Hs)]; [by left|].
  right. exists key, c. split; [done|]. split; [done|]. unfold db_after. rewrite Hs, <- E.
  apply (handle_good h rt {| tc_CustomerID := cu_ID c |} r (w_db w1)); [|done].
  rewrite E. destruct H. by split.
Qed.

(** Results whose stored documents are masked. *)
Record results_redacted (d : CliTables) : Prop := {
  red_cycles : forall id r column text, t_rows (performed_test_cycles d) !! id = Some r ->
    pc_context r = Some (column, text) -> redacted_text text;
  red_tests : forall id r text, t_rows (performed_tests d) !! id = Some r ->
    pt_postmanData r = Some text -> redacted_text text;
  red_steps : forall id r, t_rows (performed_steps d) !! id = Some r -> redacted_text (ps_data r);
}.

Lemma red_insert_cycle row d :
  results_redacted d -> (forall column text, pc_context row = Some (column, text) -> redacted_text text) ->
  results_redacted (fst (insert_cycle row d)).
Proof.
  intros [C T S] H. unfold insert_cycle.
  pose proof (insert_row_new pc_idCostumer pc_idempotencyKey row (performed_test_cycles d)) as N.
  destruct (insert_row _ _ row (performed_test_cycles d)) as [t' i] eqn:E. split; try done.
  intros id r column text L. simpl in L, N.
  apply insert_row_cases in E as [(? & -> & _)|[-> ->]]; [by eapply C|].
  simpl in L. apply lookup_insert_Some in L as [[_ <-]|[_ L]]; [apply H|by eapply C].
Qed.

Lemma red_insert_test row d :
  results_redacted d -> pt_postmanData row = None -> results_redacted (fst (insert_test row d)).
Proof.
  intros [C T S] H. unfold insert_test.
  destruct (insert_row _ _ row (performed_tests d)) as [t' i] eqn:E. split; try done.
  intros id r text L. simpl in L.
  apply insert_row_cases in E as [(? & -> & _)|[-> ->]]; [by eapply T|].
  simpl in L. apply lookup_insert_Some in L as [[_ <-]|[_ L]]; [congruence|by eapply T].
Qed.

Lemma red_insert_step row d :
  results_redacted d -> redacted_text (ps_data row) -> results_redacted (fst (insert_step row d)).
Proof.
  intros [C T S] H. unfold insert_step.
  destruct (insert_row _ _ row (performed_steps d)) as [t' i] eqn:E. split; try done.
  intros id r L. simpl in L.
  apply insert_row_cases in E as [(? & -> & _)|[-> ->]]; [by eapply S|].
  simpl in L. apply lookup_insert_Some in L as [[_ <-]|[_ L]]; [done|by eapply S].
Qed.

Lemma handle_redacted h rt tenant r d :
  results_redacted d -> leads d (handle h rt (Some tenant) r) results_redacted.
Proof.
  intros H. destruct rt; apply write_result_leads; try done; intros command E.
  - apply create_cycle_leads; [done|]. intros context _ Hc. apply red_insert_cycle; [done|].
    simpl. intros column text ->. apply decode_cycle_ok in E as [_ E]. eauto.
  - apply update_cycle_leads; [done|]. destruct H as [C T S]. split; try done.
    intros id r' column text [L|(r0 & L & _ & ->)]%update_owned_lookup; [by eapply C|].
    simpl. by eapply C.
  - apply create_test_leads; [done|]. intros _ _. by apply red_insert_test.
  - apply update_test_leads; [done|]. destruct H as [C T S]. split; try done.
    intros id r' text [L|(r0 & L & _ & ->)]%update_owned_lookup; [by eapply T|]. simpl.
    destruct (ut_PostmanDataPresent command); [by apply (decode_update_test_ok r)|by eapply T].
  - apply create_step_leads; [done|]. intros _ _ _. apply red_insert_step; [done|].
    by apply (decode_step_ok r).
  - apply update_step_leads; [done|]. destruct H as [C T S]. split; try done.
    intros id r' [L|(r0 & L & _ & ->)]%update_owned_lookup; [by eapply S|]. simpl. by eapply S.
Qed.

(** whatever a CLI client sends, the execution contexts, Postman documents
    and step data in the result tables are texts of documents in which every member
    under a credential-like key is the mark [REDACTED]. *)
Theorem cli_results_redacted (h : CliHandler) (rt : route) (keys : list string)
  (r : CliRequest) (w : world CliTables) :
  results_redacted (w_db w) -> results_redacted (db_after (serve h rt keys r) w).
Proof.
  intros H. destruct (serve_cases h rt keys r w) as [->|(key & c & w1 & _ & _ & E & Hs)]; [done|].
  unfold db_after. rewrite Hs. apply (handle_redacted h rt _ r (w_db w1)); [|done].
  rewrite E. destruct H. by split.
Qed.
End Requests.

(** A sample installation with one result of each kind. *)
Definition served_with (r : CliRequest) (rt : route) (d : CliTables) : CliTables :=
  db_after (serve cli_handler rt ["legacy-key-7"] r) (World d [] []).

Definition create_cycle_request : CliRequest :=
  cli_request "" "{'testCycleId':5,'executionContext':{'browser':'firefox','api_key':'s3cret'}}".
Definition create_test_request : CliRequest :=
  cli_request "retry-key-1" "{'testCycleId':1,'testId':3,'name':' login '}".
Definition create_step_request : CliRequest :=
  cli_request "retry-key-2"
    "{'testCycleId':1,'testId':1,'stepId':4,'name':'s','status':1,'screenshots':'[]','data':{'password':'p','n':1},'type':'dsl'}".

Definition cli_results : CliTables :=
  served_with create_step_request PostStep
    (served_with create_test_request PostTest (served_with create_cycle_request PostCycle cli_tables)).

(** The API key is masked in the context, the password in the step's data. *)
Example cli_results_stored :
  ps_data <$> (t_rows (performed_steps cli_results) !! 1)
    = Some (json_text "{'n':1,'password':'[REDACTED]'}") /\
  (pc_context <$> (t_rows (performed_test_cycles cli_results) !! 1))
    = Some (Some ("execution_context", json_text "{'api_key':'[REDACTED]','browser':'firefox'}")).
Proof. split; vm_compute; reflexivity. Qed.

Lemma cli_requests_isolated_witness :
  results_ok (w_db (World cli_tables [] [])) /\
  (db_after (serve cli_handler PostCycle ["legacy-key-7"] create_cycle_request) (World cli_tables [] [])
   = cli_tables \/
   exists key c,
    readLegacyKey ["legacy-key-7"] = Some key /\ key_owner noon key cli_tables c /\
    results_ok (served_with create_cycle_request PostCycle cli_tables) /\
    isolated (cu_ID c) (update_costumer (cu_ID c) (set_last_used noon) cli_tables)
             (served_with create_cycle_request PostCycle cli_tables)).
Proof.
  split; [exact cli_tables_ok|].
  exact (cli_requests_isolated cli_handler PostCycle ["legacy-key-7"] create_cycle_request
           (World cli_tables [] []) cli_tables_ok).
Defined.

Lemma cli_results_redacted_witness :
  results_redacted cli_tables /\ results_redacted (served_with create_cycle_request PostCycle cli_tables).
Proof.
  assert (H : results_redacted cli_tables).
  { split; intros;
      match goal with H : t_rows _ !! _ = Some _ |- _ => discriminate H end. }
  split; [exact H|]. exact (cli_results_redacted cli_handler PostCycle _ _ (World cli_tables [] []) H).
Defined.

(** ** Retries *)
Definition creates (rt : route) : bool :=
  match rt with PostCycle | PostTest | PostStep => true | _ => false end.

Section Retries.
Context `{B : Bcrypt} `{F : Floats}.

(** The tables after any number of further requests. *)
Definition request_step (d d' : CliTables) : Prop :=
  exists h rt keys r w, w_db w = d /\ d' = db_after (serve h rt keys r) w.

Lemma requests_later d d' :
  rtc request_step d d' -> results_ok d -> results_ok d' /\ later d d'.
Proof.
  induction 1 as [d|d1 d2 d3 (h & rt & keys & r & w & E & ->) _ IH]; intros H; [by split|].
  subst d1. destruct (cli_requests_isolated h rt keys r w H) as [E|(key & c & _ & _ & Hok & Hi)].
  - rewrite E in *. by apply IH.
  - destruct (IH Hok) as [H' L]. split; [done|]. etransitivity; [|exact L].
    apply isolated_later in Hi. destruct Hi. by split.
Qed.

Lemma write_result_ok {C} configured unconfigured (decoded : cli_reply + C) call name failure w n id w' :
  write_result configured unconfigured decoded call name failure w
    = (Ok (Written 200 (CId n id)), w') ->
  writes_errors decoded ->
  exists command, configured = true /\ decoded = inr command /\ n = name /\
    call command w = (Ok id, w').
Proof.
  unfold write_result. intros H N. destruct configured; [|done].
  destruct decoded as [w0|command].
  { injection H as -> <-. by destruct N. }
  apply bind_ok in H as (o & w1 & E & H). apply attempt_ok in E. injection H as H <-.
  exists command. destruct o as [i|[]]; try done. injection H as <- <-. done.
Qed.

Lemma write_result_again {C} unconfigured (command : C) call name failure w id :
  call command w = (Ok id, w) ->
  write_result true unconfigured (inr command) call name failure w
    = (Ok (Written 200 (CId name id)), w).
Proof. intros H. unfold write_result, bind, attempt. simpl. by rewrite H. Qed.
(** a creation with an idempotency key happens once: after it answered with
    an identifier, and after any further requests of any customers, the same request
    of the same customer answers the same identifier and changes nothing. *)
Theorem keyed_result_created_once (h h' : CliHandler) (rt : route) (tenant : TenantContext)
  (r : CliRequest) (w w' : world CliTables) (name : string) (id : Z) (d : CliTables)
  (rnd : list (option string)) :
  creates rt = true -> cr_idempotencyKey r <> "" -> results_ok (w_db w) ->
  ch_performedCycles h' = ch_performedCycles h -> ch_performedTests h' = ch_performedTests h ->
  ch_performedSteps h' = ch_performedSteps h ->
  handle h rt (Some tenant) r w = (Ok (Written 200 (CId name id)), w') ->
  rtc request_step (w_db w') d ->
  handle h' rt (Some tenant) r (World d [] rnd)
  = (Ok (Written 200 (CId name id)), World d [] rnd).
Proof.
  intros Hrt Hk Hok E1 E2 E3 H Hs.
  pose proof (handle_good h rt tenant r (w_db w) Hok w eq_refl) as [Hok' Hi].
  rewrite H in Hok', Hi. simpl in Hok', Hi.
  destruct (requests_later _ _ Hs Hok') as [Hd L]. destruct (decoders_errors r) as (D1 & D2 & D3).
  apply isolated_later in Hi. pose proof (transitivity Hi L) as L'.
  destruct rt; try discriminate Hrt; unfold handle, HandleCreatePerformedCycle,
    HandleCreatePerformedTest, HandleCreatePerformedStep, with_cliTenant in *;
    apply write_result_ok in H as (command & C & D & -> & H); try assumption;
    rewrite ?E1, ?E2, ?E3, C, D; apply write_result_again.
  - destruct (decode_cycle_ok _ _ D) as [K _]. rewrite <- K in Hk.
    apply create_cycle_ok in H as [G H]; [|done]. unfold insert_cycle in H.
    destruct (insert_row _ _ _ (performed_test_cycles (w_db w))) as [t' i] eqn:E.
    injection H as Ht <-. apply insert_row_found in E as (row & Lr & S);
      [|by simpl; rewrite key_column_some].
    destruct (later_cycles _ _ L i row) as (row' & Lr' & O & Fx); [by rewrite <- Ht|].
    eapply create_cycle_again; [done|by eapply row_exists_later|apply Hd|exact Lr'|].
    unfold cycle_fixed in Fx. injection Fx as _ Fx. rewrite <- S. unfold same_key. by rewrite O, Fx.
  - rewrite <- (decode_test_ok _ _ D) in Hk. apply create_test_ok in H as (G1 & G2 & H).
    unfold insert_test in H.
    destruct (insert_row _ _ _ (performed_tests (w_db w))) as [t' i] eqn:E.
    injection H as Ht <-. apply insert_row_found in E as (row & Lr & S);
      [|by simpl; rewrite key_column_some].
    destruct (later_tests _ _ L i row) as (row' & Lr' & O & Fx); [by rewrite <- Ht|].
    eapply create_test_again; [by eapply row_exists_later..|apply Hd|exact Lr'|].
    unfold test_fixed in Fx. injection Fx as _ _ Fx. rewrite <- S. unfold same_key. by rewrite O, Fx.
  - destruct (decode_step_ok _ _ D) as [K _]. rewrite <- K in Hk.
    apply create_step_ok in H as (G1 & G2 & G3 & H). unfold insert_step in H.
    destruct (insert_row _ _ _ (performed_steps (w_db w))) as [t' i] eqn:E.
    injection H as Ht <-. apply insert_row_found in E as (row & Lr & S);
      [|by simpl; rewrite key_column_some].
    destruct (later_steps _ _ L i row) as (row' & Lr' & O & Fx); [by rewrite <- Ht|].
    eapply create_step_again;
      [by eapply row_exists_later|by eapply performed_test_exists_later|by eapply row_exists_later
      |apply Hd|exact Lr'|].
    unfold step_fixed in Fx. injection Fx as _ _ _ Fx. rewrite <- S. unfold same_key. by rewrite O, Fx.
Qed.
End Retries.

(** The second attempt finds the test the first one created. *)
Definition before_test : CliTables := served_with create_cycle_request PostCycle cli_tables.
Definition first_attempt := handle cli_handler PostTest (Some {| tc_CustomerID := 7 |})
  create_test_request (World before_test [] []).

Lemma before_test_ok : results_ok before_test.
Proof.
  destruct (cli_requests_isolated cli_handler PostCycle ["legacy-key-7"] create_cycle_request
    (World cli_tables [] []) cli_tables_ok) as [E|(key & c & _ & _ & H & _)]; [|exact H].
  exfalso. apply (f_equal (fun d => t_next (performed_test_cycles d))) in E. vm_compute in E. done.
Qed.

Lemma keyed_result_created_once_witness :
  fst first_attempt = Ok (Written 200 (CId "idTest" 1)) /\
  handle cli_handler PostTest (Some {| tc_CustomerID := 7 |}) create_test_request
    (World (w_db (snd first_attempt)) [] [])
  = (Ok (Written 200 (CId "idTest" 1)), World (w_db (snd first_attempt)) [] []).
Proof.
  assert (E : first_attempt = (Ok (Written 200 (CId "idTest" 1)), snd first_attempt))
    by (vm_compute; reflexivity).
  split; [vm_compute; reflexivity|].
  exact (keyed_result_created_once cli_handler cli_handler PostTest {| tc_CustomerID := 7 |}
    create_test_request (World before_test [] []) (snd first_attempt) "idTest" 1
    (w_db (snd first_attempt)) [] eq_refl ltac:(done) before_test_ok eq_refl eq_refl eq_refl
    E (rtc_refl _ _)).
Defined.

(** with an idempotency key the execution context of a new cycle is lost:
    the request that stores it without the header stores nothing with it, and answers
    200 all the same. *)
Theorem keyed_cycle_loses_context :
  let request key := cli_request key "{'testCycleId':5,'executionContext':{'browser':'firefox'}}" in
  let run key := handle cli_handler PostCycle (Some {| tc_CustomerID := 7 |}) (request key)
                        (World cli_tables [] []) in
  let stored key := pc_context <$> (t_rows (performed_test_cycles (db_after
                      (handle cli_handler PostCycle (Some {| tc_CustomerID := 7 |}) (request key))
                      (World cli_tables [] []))) !! 1) in
  fst (run "") = Ok (Written 200 (CId "idCycle" 1)) /\
  stored "" = Some (Some ("execution_context", json_text "{'browser':'firefox'}")) /\
  fst (run "retry-key-0") = Ok (Written 200 (CId "idCycle" 1)) /\
  stored "retry-key-0" = Some None.
Proof. vm_compute. repeat split; reflexivity. Qed.
