(* ===== verification/CliReads.v ===== *)
(** * Reading configuration from the command line

    internal/cliapi/handler.go and the read repositories of
    internal/persistence/mysql (cli_test_cycle.go, cli_test_read.go, cli_step.go,
    cli_plugin.go, cli_environment.go).  A NULL description or config does not fit
    the [string] it is scanned into: the read fails.  Reading the rows of a list
    does not fail half way. *)

From stdpp Require Import sorting.
From S2P Require Import Prelude GoStrings GoTime Effects Http RunTables CliTables LegacyAuth CliWrites.

(** ** The structs that are written *)
Record TestCycle := {
  tcy_ID : Z; tcy_Name : string; tcy_Description : string; tcy_Config : string;
  tcy_IDProject : Z; tcy_CreatedAt : option time; tcy_UpdatedAt : option time;
  tcy_IDCostumer : Z;
}.

Record Test := {
  tst_ID : Z; tst_Name : string; tst_Description : string; tst_Config : string;
  tst_IDProject : Z; tst_CreatedAt : option time; tst_UpdatedAt : option time;
  tst_IDCostumer : Z;
}.

Record Step := {
  stp_ID : Z; stp_Name : string; stp_Description : string; stp_Config : string;
  stp_IDProject : Z; stp_Order : Z; stp_CreatedAt : option time; stp_UpdatedAt : option time;
  stp_IDCostumer : Z;
}.

Record Plugin := {
  plg_ID : Z; plg_Name : string; plg_Code : string; plg_Description : string;
  plg_IDProject : Z; plg_CreatedAt : option time; plg_UpdatedAt : option time;
  plg_IDCostumer : Z;
}.

Record Environment := {
  env_ID : Z; env_Code : string; env_Description : string; env_Config : string;
  env_IDProject : Z; env_CreatedAt : option time; env_UpdatedAt : option time;
  env_IDCostumer : Z;
}.

(** ** Scanning a row *)
Definition scan_test_cycle (id : Z) (row : ConfigRow) : option TestCycle :=
  description ← cf_description row; config ← cf_config row;
  Some {| tcy_ID := id; tcy_Name := cf_name row; tcy_Description := description;
          tcy_Config := config; tcy_IDProject := cf_idProject row;
          tcy_CreatedAt := cf_created_at row; tcy_UpdatedAt := cf_updated_at row;
          tcy_IDCostumer := cf_idCostumer row |}.

Definition scan_test (id : Z) (row : ConfigRow) : option Test :=
  description ← cf_description row; config ← cf_config row;
  Some {| tst_ID := id; tst_Name := cf_name row; tst_Description := description;
          tst_Config := config; tst_IDProject := cf_idProject row;
          tst_CreatedAt := cf_created_at row; tst_UpdatedAt := cf_updated_at row;
          tst_IDCostumer := cf_idCostumer row |}.

Definition scan_step (id : Z) (row : ConfigRow) : option Step :=
  description ← cf_description row; config ← cf_config row;
  Some {| stp_ID := id; stp_Name := cf_name row; stp_Description := description;
          stp_Config := config; stp_IDProject := cf_idProject row; stp_Order := cf_order row;
          stp_CreatedAt := cf_created_at row; stp_UpdatedAt := cf_updated_at row;
          stp_IDCostumer := cf_idCostumer row |}.

Definition scanCLIPlugin (id : Z) (row : ConfigRow) : option Plugin :=
  description ← cf_description row;
  Some {| plg_ID := id; plg_Name := cf_name row; plg_Code := cf_code row;
          plg_Description := description; plg_IDProject := cf_idProject row;
          plg_CreatedAt := cf_created_at row; plg_UpdatedAt := cf_updated_at row;
          plg_IDCostumer := cf_idCostumer row |}.

Definition scanCLIEnvironment (id : Z) (row : ConfigRow) : option Environment :=
  description ← cf_description row; config ← cf_config row;
  Some {| env_ID := id; env_Code := cf_code row; env_Description := description;
          env_Config := config; env_IDProject := cf_idProject row;
          env_CreatedAt := cf_created_at row; env_UpdatedAt := cf_updated_at row;
          env_IDCostumer := cf_idCostumer row |}.

(** ** Statements *)
Definition scan_failure (op : string) : error :=
  DatabaseFailure (safeDatabaseFailure op (OtherFault "scan")).

(** [SELECT ... WHERE id = ? AND idCostumer = ? LIMIT 1] and its [Scan]. *)
Definition read_one {A} (op : string) (rows : Configuration -> gmap Z ConfigRow)
  (scan : Z -> ConfigRow -> option A) (customerID id : Z) : R A :=
  let! row := query op (fun d =>
    row ← rows (configuration d) !! id;
    if cf_idCostumer row =? customerID then Some row else None) in
  match row with
  | None => fail ErrNotFound
  | Some row => match scan id row with Some a => ret a | None => fail (scan_failure op) end
  end.

(** [SELECT ... WHERE idProject = ? AND idCostumer = ? ORDER BY id ASC]. *)
Definition id_le (a b : Z * ConfigRow) : Prop := fst a <= fst b.
#[export] Instance id_le_dec a b : Decision (id_le a b).
Proof. unfold id_le. apply _. Defined.

Definition select_project (customerID projectID : Z) (rows : gmap Z ConfigRow) : list (Z * ConfigRow) :=
  merge_sort id_le (List.filter
    (fun kv => (cf_idProject (snd kv) =? projectID) && (cf_idCostumer (snd kv) =? customerID))
    (map_to_list rows)).

(** The loop over the rows of a list. *)
Fixpoint scan_rows {A} (op : string) (scan : Z -> ConfigRow -> option A) (rows : list (Z * ConfigRow))
  : R (list A) :=
  match rows with
  | [] => ret []
  | (id, row) :: rows' =>
      match scan id row with
      | None => fail (scan_failure op)
      | Some a => let! l := scan_rows op scan rows' in ret (a :: l)
      end
  end.

Definition read_list {A} (op : string) (rows : Configuration -> gmap Z ConfigRow)
  (scan : Z -> ConfigRow -> option A) (customerID projectID : Z) : R (list A) :=
  let! l := query op (fun d => select_project customerID projectID (rows (configuration d))) in
  scan_rows op scan l.

(** ** The repositories *)
Definition GetTestCycle (customerID testCycleID : Z) : R TestCycle :=
  read_one "read CLI test cycle" test_cycles scan_test_cycle customerID testCycleID.

Definition GetTest (customerID testID : Z) : R Test :=
  read_one "read CLI test" tests scan_test customerID testID.

Definition GetStep (customerID stepID : Z) : R Step :=
  read_one "read CLI step" steps scan_step customerID stepID.

Definition GetPlugin (customerID pluginID : Z) : R Plugin :=
  read_one "read CLI plugin" plugins scanCLIPlugin customerID pluginID.

Definition GetEnvironment (customerID environmentID : Z) : R Environment :=
  read_one "read CLI environment" environments scanCLIEnvironment customerID environmentID.

Definition ListPlugins (customerID projectID : Z) : R (list Plugin) :=
  read_list "list CLI plugins" plugins scanCLIPlugin customerID projectID.

Definition ListEnvironments (customerID projectID : Z) : R (list Environment) :=
  read_list "list CLI environments" environments scanCLIEnvironment customerID projectID.

(** ** The handlers *)
Inductive read_payload :=
| RTestCycle (v : TestCycle)
| RTest (v : Test)
| RStep (v : Step)
| RPlugin (v : Plugin)
| RPlugins (l : list Plugin)
| REnvironment (v : Environment)
| REnvironments (l : list Environment)
| RInvalidId
| RError (code message : string).

Definition RH : Type := M CliTables (response read_payload).

(** [parseLegacyID]. *)
Definition parseLegacyID (value : string) : option Z :=
  let value := trimSpace value in
  if String.eqb value "" then None
  else id ← parseInt value; if 0 <? id then Some id else None.

(** [writeInvalidID]. *)
Definition writeInvalidID : response read_payload := Written 404 RInvalidId.

Definition contextMissing : response read_payload :=
  Written 500 (RError "CLI_TENANT_CONTEXT_MISSING" "The CLI tenant context could not be resolved.").
Definition configurationUnavailable : response read_payload :=
  Written 500 (RError "CLI_CONFIGURATION_UNAVAILABLE" "The CLI configuration could not be loaded.").

(** The seven handlers have one shape: the tenant of the context, the identifier of
    the path, the repository call.  Only the single reads answer 404 to
    [ErrNotFound]; a list has no such outcome. *)
Definition read_handler {A} (parameter : string) (call : Z -> Z -> R A) (show : A -> read_payload)
  (tenant : option TenantContext) (r : CliRequest) : RH :=
  match tenant with
  | None => ret contextMissing
  | Some t =>
      match parseLegacyID (cr_path r parameter) with
      | None => ret writeInvalidID
      | Some id =>
          let! result := attempt (call (tc_CustomerID t) id) in
          ret (match result with
               | Ok v => Written 200 (show v)
               | Err ErrNotFound => writeInvalidID
               | Err _ => configurationUnavailable
               end)
      end
  end.

Definition HandleTestCycle := read_handler "idTestCycle" GetTestCycle RTestCycle.
Definition HandleTest := read_handler "idTest" GetTest RTest.
Definition HandleStep := read_handler "idStep" GetStep RStep.
Definition HandlePlugins := read_handler "idProject" ListPlugins RPlugins.
Definition HandlePlugin := read_handler "idPlugin" GetPlugin RPlugin.
Definition HandleEnvironments := read_handler "idProject" ListEnvironments REnvironments.
Definition HandleEnvironment := read_handler "idEnvironment" GetEnvironment REnvironment.

Inductive read_route := ReadTestCycle | ReadTest | ReadStep | ReadPlugins | ReadPlugin
  | ReadEnvironments | ReadEnvironment.

Definition read (rt : read_route) : option TenantContext -> CliRequest -> RH :=
  match rt with
  | ReadTestCycle => HandleTestCycle | ReadTest => HandleTest | ReadStep => HandleStep
  | ReadPlugins => HandlePlugins | ReadPlugin => HandlePlugin
  | ReadEnvironments => HandleEnvironments | ReadEnvironment => HandleEnvironment
  end.

(** ** What a response shows *)

(** The owners of the records in a payload. *)
Definition owners (p : read_payload) : list Z :=
  match p with
  | RTestCycle v => [tcy_IDCostumer v]
  | RTest v => [tst_IDCostumer v]
  | RStep v => [stp_IDCostumer v]
  | RPlugin v => [plg_IDCostumer v]
  | RPlugins l => map plg_IDCostumer l
  | REnvironment v => [env_IDCostumer v]
  | REnvironments l => map env_IDCostumer l
  | RInvalidId | RError _ _ => []
  end.

Definition shown (p : response read_payload) : list Z :=
  match p with Written _ p => owners p | Unwritten => [] end.

(** Scanning keeps the owner column. *)
Definition keeps_owner {A} (scan : Z -> ConfigRow -> option A) (owner : A -> Z) : Prop :=
  forall id row a, scan id row = Some a -> owner a = cf_idCostumer row.

Ltac scan_owner := intros id row a; cbv [scan_test_cycle scan_test scan_step scanCLIPlugin
  scanCLIEnvironment]; destruct (cf_description row), (cf_config row); simpl; by intros [= <-].

Lemma scan_test_cycle_owner : keeps_owner scan_test_cycle tcy_IDCostumer. Proof. scan_owner. Qed.
Lemma scan_test_owner : keeps_owner scan_test tst_IDCostumer. Proof. scan_owner. Qed.
Lemma scan_step_owner : keeps_owner scan_step stp_IDCostumer. Proof. scan_owner. Qed.
Lemma scan_plugin_owner : keeps_owner scanCLIPlugin plg_IDCostumer. Proof. scan_owner. Qed.
Lemma scan_environment_owner : keeps_owner scanCLIEnvironment env_IDCostumer. Proof. scan_owner. Qed.

#[export] Hint Resolve scan_test_cycle_owner scan_test_owner scan_step_owner scan_plugin_owner
  scan_environment_owner : cli.

Section Reads.
Context {A : Type} (scan : Z -> ConfigRow -> option A) (owner : A -> Z).
Hypothesis Hscan : keeps_owner scan owner.

Lemma read_one_owner op rows c id w a w' :
  read_one op rows scan c id w = (Ok a, w') -> owner a = c.
Proof.
  intros (o & w1 & E & H)%bind_ok. apply query_ok in E as [-> _].
  destruct (rows _ !! id) as [row|]; [|done]. simpl in H.
  destruct (Z.eqb_spec (cf_idCostumer row) c); [|done].
  destruct (scan id row) as [v|] eqn:E; [|done]. injection H as <- _. apply Hscan in E. congruence.
Qed.

Lemma scan_rows_owner op c rows w l w' :
  Forall (fun kv => cf_idCostumer (snd kv) = c) rows ->
  scan_rows op scan rows w = (Ok l, w') -> Forall (fun a => owner a = c) l.
Proof.
  intros F. revert w l w'. induction F as [|[id row] rows Hr _ IH]; intros w l w'; simpl.
  - by intros [= <- _].
  - destruct (scan id row) as [a|] eqn:E; [|done]. intros (l' & w1 & H & H')%bind_ok.
    injection H' as <- _. constructor; [apply Hscan in E; simpl in Hr; congruence|by eapply IH].
Qed.

Lemma read_list_owner op rows c p w l w' :
  read_list op rows scan c p w = (Ok l, w') -> Forall (fun a => owner a = c) l.
Proof.
  intros (o & w1 & E & H)%bind_ok. apply query_ok in E as [-> _].
  eapply scan_rows_owner; [|exact H]. apply List.Forall_forall. intros [id row] Hin.
  unfold select_project in Hin. apply list_elem_of_In in Hin. rewrite merge_sort_Permutation in Hin.
  apply list_elem_of_In, filter_In in Hin as [_ [_ Hc]%andb_true_iff]. simpl in *. lia.
Qed.
End Reads.

Lemma query_pure {D A} op (f : D -> A) : pure_db (query op f).
Proof.
  intros w. unfold query, gets, bind. pose proof (round_trip_db op w).
  by destruct (round_trip op w) as [[[]|e] w1].
Qed.

Lemma bind_pure {D A C} (m : M D A) (k : A -> M D C) :
  pure_db m -> (forall a, pure_db (k a)) -> pure_db (bind m k).
Proof.
  intros Hm Hk w. specialize (Hm w). unfold bind. destruct (m w) as [[a|e] w1]; [|done].
  simpl in Hm. rewrite <- Hm. apply Hk.
Qed.

Lemma read_one_pure {A} op rows (scan : Z -> ConfigRow -> option A) c id :
  pure_db (read_one op rows scan c id).
Proof.
  apply bind_pure; [apply query_pure|]. intros [row|]; [|done]. by destruct (scan id row).
Qed.

Lemma scan_rows_pure {A} op (scan : Z -> ConfigRow -> option A) rows :
  pure_db (scan_rows op scan rows).
Proof.
  induction rows as [|[id row] rows IH]; simpl; [done|].
  destruct (scan id row); [|done]. by apply bind_pure.
Qed.

Lemma read_list_pure {A} op rows (scan : Z -> ConfigRow -> option A) c p :
  pure_db (read_list op rows scan c p).
Proof. apply bind_pure; [apply query_pure|]. intros l. apply scan_rows_pure. Qed.

Lemma read_handler_own {A} parameter (call : Z -> Z -> R A) show tenant r w :
  (forall c id, pure_db (call c id)) ->
  (forall c id w a w', call c id w = (Ok a, w') -> Forall (fun o => o = c) (owners (show a))) ->
  db_after (read_handler parameter call show (Some tenant) r) w = w_db w /\
  forall reply, result_of (read_handler parameter call show (Some tenant) r) w = Ok reply ->
    Forall (fun o => o = tc_CustomerID tenant) (shown reply).
Proof.
  intros Hp Ho. unfold db_after, result_of, read_handler.
  destruct (parseLegacyID _) as [id|]; [|by split; [|intros reply [= <-]; constructor]].
  specialize (Hp (tc_CustomerID tenant) id w). unfold bind, attempt.
  destruct (call (tc_CustomerID tenant) id w) as [[a|e] w1] eqn:E; simpl in *.
  - split; [done|]. intros reply [= <-]. by eapply Ho.
  - destruct e; (split; [done|]); intros reply H; try discriminate H; injection H as <-; constructor.
Qed.

(** whatever a CLI client asks for and whatever fails, every configuration
    record in the response belongs to the customer of its key, and a read changes no
    table. *)
Theorem cli_reads_own_configuration (rt : read_route) (tenant : TenantContext) (r : CliRequest)
  (w : world CliTables) :
  db_after (read rt (Some tenant) r) w = w_db w /\
  forall reply, result_of (read rt (Some tenant) r) w = Ok reply ->
    Forall (fun owner => owner = tc_CustomerID tenant) (shown reply).
Proof.
  destruct rt; apply read_handler_own; intros;
    try apply read_one_pure; try apply read_list_pure; simpl;
    try (apply List.Forall_cons; [|constructor]; eapply read_one_owner; eauto with cli).
  - apply List.Forall_map. eapply read_list_owner; eauto with cli.
  - apply List.Forall_map. eapply read_list_owner; eauto with cli.
Qed.

(** A read of the customer's own test cycle, and of somebody else's. *)
Example read_test_cycle :
  let r := {| cr_body := None; cr_idempotencyKey := ""; cr_path := fun _ => " 5 " |} in
  let row := {| cf_name := "n"; cf_code := ""; cf_description := Some "d"; cf_config := Some "{}";
                cf_order := 0; cf_idProject := 1; cf_created_at := None; cf_updated_at := None;
                cf_idCostumer := 7 |} in
  let w := World {| costumers := []; key_audits := [];
                    configuration := {| test_cycles := {[ 5 := row ]}; tests := ∅; steps := ∅;
                                        plugins := ∅; environments := ∅;
                                        performed_test_cycles_columns := [] |};
                    performed_test_cycles := Table ∅ 1; performed_tests := Table ∅ 1;
                    performed_steps := Table ∅ 1 |} [] [] in
  map (fun t => match fst (read ReadTestCycle (Some {| tc_CustomerID := t |}) r w) with
                | Ok p => status_of p
                | Err _ => 0
                end) [7; 8] = [200; 404].
Proof. vm_compute. reflexivity. Qed.
