(* ===== verification/Artifacts.v ===== *)
(** * Artifact policy

    internal/artifacts/policy.go: the limits applied to artifact descriptors, inline
    artifacts and collections.  [int] and [int64] are 64 bits wide. *)

From S2P Require Import Prelude GoStrings GoTime.

Definition DefaultMaxArtifactBytes : Z := 50 * 1024 * 1024.
Definition DefaultInlineArtifactMaxBytes : Z := 262144.
Definition DefaultCollectionMaxItems : Z := 50.
Definition DefaultRetentionDays : Z := 30.

Record Policy := {
  p_MaxArtifactBytes : Z;
  p_InlineArtifactMaxBytes : Z;
  p_CollectionMaxItems : Z;
  p_DefaultRetentionDays : Z;
  p_AllowedContentTypes : list string;
}.

Record Descriptor := {
  ad_ArtifactType : string;
  ad_Name : string;
  ad_ContentType : string;
  ad_SizeBytes : Z;
  ad_ChecksumSHA256 : string;
  ad_StorageKey : string;
}.

Record Violation := {
  vi_Field : string;
  vi_Code : string;
  vi_Message : string;
  vi_Limit : Z;
  vi_Actual : Z;
}.

Definition DefaultPolicy : Policy :=
  {| p_MaxArtifactBytes := DefaultMaxArtifactBytes;
     p_InlineArtifactMaxBytes := DefaultInlineArtifactMaxBytes;
     p_CollectionMaxItems := DefaultCollectionMaxItems;
     p_DefaultRetentionDays := DefaultRetentionDays;
     p_AllowedContentTypes :=
       ["application/json"; "application/junit+xml"; "application/xml"; "text/markdown";
        "text/html"; "text/plain"; "image/png"; "image/jpeg"] |}.

(** [normalized]: zero and negative limits take their default. *)
Definition or_default (v default : Z) : Z := if v <=? 0 then default else v.

Definition normalized (p : Policy) : Policy :=
  {| p_MaxArtifactBytes := or_default (p_MaxArtifactBytes p) (p_MaxArtifactBytes DefaultPolicy);
     p_InlineArtifactMaxBytes :=
       or_default (p_InlineArtifactMaxBytes p) (p_InlineArtifactMaxBytes DefaultPolicy);
     p_CollectionMaxItems := or_default (p_CollectionMaxItems p) (p_CollectionMaxItems DefaultPolicy);
     p_DefaultRetentionDays :=
       or_default (p_DefaultRetentionDays p) (p_DefaultRetentionDays DefaultPolicy);
     p_AllowedContentTypes :=
       match p_AllowedContentTypes p with [] => p_AllowedContentTypes DefaultPolicy | l => l end |}.

Definition violation (field code message : string) (limit actual : Z) : Violation :=
  {| vi_Field := field; vi_Code := code; vi_Message := message; vi_Limit := limit;
     vi_Actual := actual |}.

Definition required (field : string) : Violation :=
  violation field "ARTIFACT_FIELD_REQUIRED" "The field is required." 0 0.

Definition blank (s : string) : bool := String.eqb (trimSpace s) "".

(** [checksumPattern]: 64 hexadecimal digits. *)
Definition hex_either_case (c : ascii) : bool :=
  let n := Ascii.nat_of_ascii c in
  ((48 <=? n) && (n <=? 57) || (97 <=? n) && (n <=? 102) || (65 <=? n) && (n <=? 70))%nat.

Definition checksumPattern (s : string) : bool :=
  (String.length s =? 64)%nat && forallb hex_either_case (chars s).

(** [ValidateDescriptor]. *)
Definition ValidateDescriptor (policy : Policy) (d : Descriptor) : list Violation :=
  let policy := normalized policy in
  ((if blank (ad_ArtifactType d) then [required "artifactType"] else []) ++
   (if blank (ad_Name d) then [required "name"] else []) ++
   (if blank (ad_ContentType d) then [required "contentType"]
    else if negb (existsb (String.eqb (ad_ContentType d)) (p_AllowedContentTypes policy))
    then [violation "contentType" "ARTIFACT_CONTENT_TYPE_NOT_ALLOWED"
                    "The artifact content type is not allowed." 0 0]
    else []) ++
   (if ad_SizeBytes d <? 0
    then [violation "sizeBytes" "ARTIFACT_SIZE_INVALID"
                    "The artifact size must not be negative." 0 (ad_SizeBytes d)]
    else if p_MaxArtifactBytes policy <? ad_SizeBytes d
    then [violation "sizeBytes" "ARTIFACT_SIZE_LIMIT_EXCEEDED"
                    "The artifact exceeds the configured size limit."
                    (p_MaxArtifactBytes policy) (ad_SizeBytes d)]
    else []) ++
   (if blank (ad_ChecksumSHA256 d) then [required "checksumSha256"]
    else if negb (checksumPattern (ad_ChecksumSHA256 d))
    then [violation "checksumSha256" "ARTIFACT_CHECKSUM_INVALID"
                    "The artifact checksum must be a SHA-256 hex digest." 0 0]
    else []) ++
   (if blank (ad_StorageKey d) then [required "storageKey"] else []))%list.

(** [ValidateInlineArtifact]. *)
Definition ValidateInlineArtifact (policy : Policy) (field : string) (sizeBytes : Z) : list Violation :=
  let limit := p_InlineArtifactMaxBytes (normalized policy) in
  if sizeBytes <=? limit then []
  else [violation field "ARTIFACT_INLINE_SIZE_LIMIT_EXCEEDED"
                  "The inline artifact exceeds the configured size limit." limit sizeBytes].

(** [ValidateCollection]. *)
Definition ValidateCollection (policy : Policy) (field : string) (count : Z) : list Violation :=
  let limit := p_CollectionMaxItems (normalized policy) in
  if count <=? limit then []
  else [violation field "ARTIFACT_COLLECTION_LIMIT_EXCEEDED"
                  "The result payload contains too many artifacts." limit count].

(** [RetentionDuration], in nanoseconds, with the wrap-around of [time.Duration]. *)
Definition RetentionDuration (policy : Policy) : Z :=
  wrap64 (wrap64 (p_DefaultRetentionDays (normalized policy) * 24) * hour).

(** ** Theorems *)

(** What the policy promises of a descriptor it lets through. *)
Record valid_descriptor (p : Policy) (d : Descriptor) : Prop := {
  vd_type : trimSpace (ad_ArtifactType d) <> "";
  vd_name : trimSpace (ad_Name d) <> "";
  vd_content : In (ad_ContentType d) (p_AllowedContentTypes (normalized p)) /\
    trimSpace (ad_ContentType d) <> "";
  vd_size : 0 <= ad_SizeBytes d <= p_MaxArtifactBytes (normalized p);
  vd_checksum : String.length (ad_ChecksumSHA256 d) = 64%nat /\
    Forall (fun c => hex_either_case c = true) (chars (ad_ChecksumSHA256 d));
  vd_storage : trimSpace (ad_StorageKey d) <> "";
}.

Lemma blank_spec s : blank s = true <-> trimSpace s = "".
Proof. apply String.eqb_eq. Qed.

Lemma hex_either_case_visible c : hex_either_case c = true -> visible c = true.
Proof.
  unfold hex_either_case, visible. rewrite !orb_true_iff, !andb_true_iff, !Nat.leb_le. lia.
Qed.

Lemma checksum_spec s :
  checksumPattern s = true <->
  String.length s = 64%nat /\ Forall (fun c => hex_either_case c = true) (chars s).
Proof.
  unfold checksumPattern. by rewrite andb_true_iff, Nat.eqb_eq, forallb_forall, List.Forall_forall.
Qed.

(** A checksum is not blank. *)
Lemma checksum_not_blank s : checksumPattern s = true -> blank s = false.
Proof.
  intros H. apply checksum_spec in H as [L F]. apply not_true_is_false. rewrite blank_spec.
  rewrite trimSpace_visible; [by intros ->|]. apply forallb_forall. rewrite List.Forall_forall in F.
  intros c Hc. by apply hex_either_case_visible, F.
Qed.

Lemma content_spec p d :
  existsb (String.eqb (ad_ContentType d)) (p_AllowedContentTypes p) = true <->
  In (ad_ContentType d) (p_AllowedContentTypes p).
Proof.
  rewrite existsb_exists. split; [by intros (x & Hx & ->%String.eqb_eq)|].
  intros H. exists (ad_ContentType d). by rewrite String.eqb_refl.
Qed.

(** a descriptor is reported without violations exactly when it is valid
    under the normalised policy: no blank field, an allowed content type, a size
    within the limit and a SHA-256 checksum. *)
Theorem descriptor_accepted_iff (p : Policy) (d : Descriptor) :
  ValidateDescriptor p d = [] <-> valid_descriptor p d.
Proof.
  pose proof (checksum_not_blank (ad_ChecksumSHA256 d)) as Cb.
  unfold ValidateDescriptor. cbv zeta. split.
  - intros (A & (N & (C & (S & (K & G)%app_eq_nil)%app_eq_nil)%app_eq_nil)%app_eq_nil)%app_eq_nil.
    split.
    + rewrite <- blank_spec. by destruct (blank (ad_ArtifactType d)).
    + rewrite <- blank_spec. by destruct (blank (ad_Name d)).
    + rewrite <- blank_spec, <- content_spec. destruct (blank (ad_ContentType d)); [done|].
      by destruct (existsb _ _).
    + destruct (Z.ltb_spec (ad_SizeBytes d) 0); [done|].
      destruct (Z.ltb_spec (p_MaxArtifactBytes (normalized p)) (ad_SizeBytes d)); [done|lia].
    + rewrite <- checksum_spec. destruct (blank (ad_ChecksumSHA256 d)); [done|].
      by destruct (checksumPattern _).
    + rewrite <- blank_spec. by destruct (blank (ad_StorageKey d)).
  - intros [A N [C1 C2] S K G]. rewrite <- checksum_spec in K. rewrite <- content_spec in C1.
    rewrite <- blank_spec in A, N, C2, G. apply not_true_is_false in A, N, C2, G.
    rewrite A, N, C2, C1, (Cb K), K, G. cbn [app negb].
    replace (ad_SizeBytes d <? 0) with false by lia.
    by replace (p_MaxArtifactBytes (normalized p) <? ad_SizeBytes d) with false by lia.
Qed.

(** the retention window is positive and exact for up to 106751 days. *)
Theorem retention_bounds (p : Policy) :
  p_DefaultRetentionDays (normalized p) <= 106751 ->
  RetentionDuration p = p_DefaultRetentionDays (normalized p) * 24 * hour /\
  0 < RetentionDuration p.
Proof.
  intros H. unfold RetentionDuration. set (n := p_DefaultRetentionDays (normalized p)) in *.
  assert (0 < n).
  { unfold n. simpl. unfold or_default, DefaultRetentionDays. destruct (Z.leb_spec (p_DefaultRetentionDays p) 0); lia. }
  unfold hour, minute, second.
  rewrite (wrap64_id (n * 24)) by (unfold in_int64, int64_min, int64_max; lia).
  rewrite wrap64_id by (unfold in_int64, int64_min, int64_max; lia). lia.
Qed.

Lemma retention_bounds_witness :
  p_DefaultRetentionDays (normalized DefaultPolicy) = 30 /\
  RetentionDuration DefaultPolicy = 30 * 24 * hour /\ 0 < RetentionDuration DefaultPolicy.
Proof. split; [reflexivity|]. apply (retention_bounds DefaultPolicy). vm_compute. discriminate. Defined.

(** One more day overflows the nanoseconds of a [time.Duration]. *)
Example retention_overflow :
  RetentionDuration
    {| p_MaxArtifactBytes := 0; p_InlineArtifactMaxBytes := 0; p_CollectionMaxItems := 0;
       p_DefaultRetentionDays := 106752; p_AllowedContentTypes := [] |} < 0.
Proof. vm_compute. reflexivity. Qed.
