(* ===== verification/Migrations.v ===== *)
(** * Migrations: the reviewed baseline and its bridge

    internal/migrations: the manifest of the Laravel schema that the Go binary
    embeds, its validation, the bridge that marks its migrations as applied
    (bridge.go), and the verification of an upgrade (upgrade.go) and of an empty
    schema (empty_install.go).

    [json.Unmarshal] of the embedded file is [baseline_manifest]: the values of
    baseline_manifest.json.  The operations take a manifest, so the theorems hold
    for every manifest that a later release may embed.  How MySQL compares the
    markers is the collation of the column, an argument. *)

From stdpp Require Import pretty sorting.
From S2P Require Import Prelude GoStrings Sha256 Effects Http.

(** ** The manifest *)
Record BaselinePolicy := {
  LaravelRemainsSchemaOwner : bool;
  GoBaselineApplicationEnabled : bool;
  DualWritesAllowed : bool;
  Rollback : string;
}.

Record BaselineMigration := {
  bm_Name : string;
  bm_File : string;
  bm_SHA256 : string;
  bm_Bytes : Z;
}.

Record BaselineManifest := {
  SchemaVersion : Z;
  BaselineID : string;
  GeneratedOn : string;
  SourceRuntime : string;
  TargetRuntime : string;
  SourceDirectory : string;
  MigrationCount : Z;
  AggregateSHA256 : string;
  ReviewStatus : string;
  HandoverPolicy : BaselinePolicy;
  mf_Redaction : string;
  mf_Migrations : list BaselineMigration;
}.

(** What [json.Unmarshal] makes of baseline_manifest.json. *)
Definition migration_row (name sha : string) (bytes : Z) : BaselineMigration :=
  {| bm_Name := name; bm_File := name +:+ ".php"; bm_SHA256 := sha; bm_Bytes := bytes |}.

Definition baseline_manifest : BaselineManifest := {|
  SchemaVersion := 1;
  BaselineID := "go-baseline-2026-08-25";
  GeneratedOn := "2026-08-25";
  SourceRuntime := "idelium-api Laravel migrations";
  TargetRuntime := "idelium-api-go";
  SourceDirectory := "../idelium-api/database/migrations";
  MigrationCount := 70;
  AggregateSHA256 := "85dc94d3ac2b14b7ec46370ffff712cc26797185997b6256fb19920174c2a68e";
  ReviewStatus := "review-required-before-apply";
  HandoverPolicy := {|
    LaravelRemainsSchemaOwner := true;
    GoBaselineApplicationEnabled := false;
    DualWritesAllowed := false;
    Rollback := "Do not apply this baseline until bridge, empty-install, upgrade, and rollback rehearsal tickets pass." |};
  mf_Redaction := "Migration source hashes and file sizes are recorded; no tenant data, credentials, or payload values are included.";
  mf_Migrations := [
    migration_row "2014_10_12_000000_create_users_table"
      "94797e63add6c1604bfd0a2a4f6ec15f0f4260008c0f4c3675c60fe96a79adb1" 835;
    migration_row "2014_10_12_100000_create_password_resets_table"
      "4523ad86b515b1d37c4e182e12973247b793e50511f1065d8ef9d57fac71c45d" 683;
    migration_row "2019_08_19_000000_create_failed_jobs_table"
      "b7ff81d0a2324199c07ef4141748a839a73b04b01bfe6d32bda6635987136fae" 820;
    migration_row "2019_12_14_000001_create_personal_access_tokens_table"
      "bef9afbe8608f332c82a4b8a450918b94cf69aa1dd544acbee72d3e8d26bd3ea" 933;
    migration_row "2021_08_23_114345_create_projects_table"
      "d1288c35dd14289e9010ab63ea8a322ed2889c9cc7833f5482cd1610d61dacb3" 662;
    migration_row "2021_08_23_151631_create_environments_table"
      "a923114a88da6850ec5dbae325a4514d09a541679737895ac9cb8f9f0b2fc901" 752;
    migration_row "2021_08_24_071355_create_plugins_table"
      "128614b6f9146e640f723f7ace1f3b8e059751ef980ba666779b9bd4f6ebeea2" 735;
    migration_row "2021_08_24_091348_create_steps_table"
      "05d8b0f774a6bd5b8e765a8565781a16b257e2ebbac9469b2e3d80ed3becc070" 769;
    migration_row "2021_08_24_114022_create_tests_table"
      "5bb8bcf05b72183ed14332674226eaf55040e9fbba5f54d97b729ccf6431f27e" 731;
    migration_row "2021_08_24_124842_create_test_cycles_table"
      "51e97b4731c0b0786c27bec2aedbe618a0f4aa1f8f341222687ff3400782aeca" 748;
    migration_row "2021_08_26_081929_create_performed_test_cycles_table"
      "fdaca6144f4a64909f89c89e5770013d0c373a0a386de76280065f0663972827" 741;
    migration_row "2021_08_26_082013_create_performed_tests_table"
      "5e2569d3b1d5c7806860e140f16b0b02ca76cdad702d3d30a6841c285e633c48" 765;
    migration_row "2021_08_26_082805_create_performed_steps_table"
      "912b55feac60287a2ff5421cff4e2767cc353c8285813901f82990a071927b4b" 849;
    migration_row "2021_08_31_120646_create_api_keys_table"
      "11617f91f6366d5a99e0ebf5c2dd60d31b02fc93744430ba7ddecbdac1f851be" 745;
    migration_row "2021_08_31_122956_create_roles_table"
      "0e46545c05842d788414abe65386836b068a475f3f75b9d1b3cdc765aec825ba" 610;
    migration_row "2021_09_01_094727_create_costumers_table"
      "d41f1f9934a80ff32c143ee18adffa2cd67ceb25eab3d9937922ffc32cb644bf" 754;
    migration_row "2021_09_01_100641_add_id_costumer_to_projects"
      "8ce1482bd61117cf411819f33bb9d754f01657bf3022467b40d356f21d3508f1" 650;
    migration_row "2021_09_01_100848_add_id_costumer_to_users"
      "3d67bac87c8a3c099ee452deaf361f4002ac16498363cef4a947137826d0d4fe" 640;
    migration_row "2021_09_01_121412_add_apikey_to_costumers"
      "32500a54244656c5196125b335a45394360c44a989cb26486487ddfe7cbb8456" 663;
    migration_row "2021_09_01_123652_create_sessions_table"
      "d9de0228f1ed2c2eca5454ea01c12978c3bc88718a38a05e5ddd0dfdf8c92294" 833;
    migration_row "2021_09_01_125201_add_id_costumer_to_steps"
      "9c4eea86f06d2381a40f7c7cd1485fe5d675f788b783d8e631901fc4bafea039" 640;
    migration_row "2021_09_01_125247_add_id_costumer_to_tests"
      "ac8069cc5b7ab7fcdad92fa3868ad1821908b773594e0c740a60db74cdce0bb0" 640;
    migration_row "2021_09_01_125306_add_id_costumer_to_testcycles"
      "c6963957d4ab025882bc7f387eb6fac9ff15d954a0531c0bdfacbf578a164a97" 657;
    migration_row "2021_09_01_125347_add_id_costumer_to_plugins"
      "b2b718c05b67aeeba453f7dffd6f5bae1d4094ab49db097980defcb7a4024ac6" 646;
    migration_row "2021_09_01_125450_add_id_costumer_to_performedsteps"
      "c833fea1c9ecdc197682d3eda9b9a739429d46fb7b7b0cf7664ceae658ff72d3" 669;
    migration_row "2021_09_01_125533_add_id_costumer_to_performedtests"
      "e81e4d25a0c0078da94cb5f9173056c598fe86cd0edc287fe51de0215a7f6e44" 669;
    migration_row "2021_09_01_125553_add_id_costumer_to_performedtestcycles"
      "9dc378827b91c86335cf88aca8ba0b4435ff6ea2398868f7149208290321db6f" 686;
    migration_row "2021_09_01_132929_add_id_costumer_to_environments"
      "0d6466699d6bb70df29a10914957dfe12fb304838a47d4c67746febfd74d9766" 661;
    migration_row "2021_10_14_000000_add_provider_id_name_to_users"
      "cb310c380db5733c75ec6be6085b8e1282c097d1d8559a9358120b798b166c12" 763;
    migration_row "2022_01_03_092454_create_locations_table"
      "fd05fa29ef5a96acd5dc3b9702a591bdec70b7413474e731b8d0256061d13725" 622;
    migration_row "2022_01_03_100904_create_browsers_table"
      "9cf12d70ea4f0c2377fe70fde30ef1b750a24da9d30c85368a28006f64bc5321" 656;
    migration_row "2022_01_03_100919_create_os_table"
      "24214e93c1bd8b387b4134204a28960ec5a22cf3197c990d45e39416ff8956f2" 638;
    migration_row "2022_01_03_100936_create_types_table"
      "45620f1e5fd357157f20813914613ff23434f57ab85ed4ced2d25acf616c404f" 610;
    migration_row "2022_01_03_100946_create_descriptions_table"
      "c94a69019f0ed5c14a81b15744efef29ec8e6e37e29154467cc0208b5934adc3" 638;
    migration_row "2022_01_03_100958_create_hostnames_table"
      "774f7f9ac64510ede12b94953f294f77c38a56fc0e28df5bd0a41a6199f5d4ef" 669;
    migration_row "2022_01_03_101030_create_version_browsers_table"
      "69d66d234b1683e0d785f6a0d4ead391931406ff953f7cd59ed6d443bf565196" 687;
    migration_row "2022_01_03_101408_create_brand_devices_table"
      "aba0d292c8c503c80f85f6eb30fecd16d01c1a1c36c8c19035dfefe0425fb895" 634;
    migration_row "2022_01_03_101819_create_version_os_table"
      "83868fc5c9e69aaed97474e6b96f7e14959bc1dadb238db1daa9fb9b8789100c" 664;
    migration_row "2022_01_05_112123_add_id_o_s_browsers"
      "515ced4af9fd5b56c72dc6aa2ec620fc50f6f9237235c480c546839d7cf9db1e" 663;
    migration_row "2022_01_08_090421_create_model_devices_table"
      "90ae40df26c88eea71515881176cfbae1692c2eaf4119f6641ad4c3b8568eb21" 743;
    migration_row "2022_01_08_112254_create_platforms_table"
      "7dc2553f09ee92a1da7934164c756bd9b7bb05967444fe9fd1fb86dd68415156" 1084;
    migration_row "2022_01_11_112155_create_statuses_table"
      "65db900492f9a70c7392a73ca3e0f04be61e7ec1a14ce5d85099012738161126" 661;
    migration_row "2022_08_05_132929_add_data_type_to_performed_step"
      "1e7e54a67337952da063e72b8f2098e5f86ed4f25e4f6716adbff1a220b2378e" 727;
    migration_row "2026_07_15_120000_add_core_mutation_foreign_keys"
      "162f9418e07334014e901f17765356bc3b96658971800377963a68cb5111c36b" 2472;
    migration_row "2026_07_27_120000_create_parallel_run_schedules_table"
      "8b31bcdc7338038e264bd3ab51c94b29130a65a066a4f7c45f67fcdcd6015605" 2333;
    migration_row "2026_07_28_120000_create_audit_events_table"
      "465a6c030c68e802664c16046faddcc297e842d8d9cd13ef844770d715b02513" 1771;
    migration_row "2026_07_28_130000_create_artifact_descriptors_table"
      "e12f03bbcc9d77fd760d79ca44a570f465cf5882cacda30441ff6e9c59b10419" 2154;
    migration_row "2026_07_28_140000_create_service_accounts_table"
      "4fd1158c51d335639f2c939e3c4a9daa1fac3029d71d60afcdb25f996078cce4" 1208;
    migration_row "2026_07_28_150000_add_result_exploration_indexes"
      "d9770b44174abaaa246f5723fae88e991e019fe64dbe443983d58b425845c100" 1060;
    migration_row "2026_07_28_150000_create_run_tokens_table"
      "dc6cedeab6749e1209cf4bfcd370e7fb4bcdfb1fc97a59da284f5125c03f3018" 1396;
    migration_row "2026_07_28_151000_create_result_exports_table"
      "d6035b0a4cb1bea7d84e086492c4f1b7c7c8a876cb13582be4dfbd11dfebc859" 1303;
    migration_row "2026_07_28_160000_create_asset_versions_table"
      "433b14236900d645209d5acdee1873d27a59b181733c59e09df08b5584484e4a" 1355;
    migration_row "2026_07_28_170000_create_asset_version_review_events_table"
      "2dc3f3d6e531b1f92fdfd9ef4bde5d7c9aaf393293c3057f51a00d79704d5d7c" 1398;
    migration_row "2026_07_28_180000_create_agent_registrations_table"
      "3af03de7128fd4164ed335d14a84b60813743d6bdf1aa0c7ccbd26d514a78ba4" 1214;
    migration_row "2026_07_28_190000_create_oidc_workload_tokens_table"
      "c5a300e366f0093b23becac814fd0b6d1679a517e579794c4f9909161e2f44fc" 1926;
    migration_row "2026_07_28_200000_add_identity_proof_to_agent_registrations_table"
      "669da902407044e40d7f164c93849e52af89c0c46b11c60e65b51f34eab8eaee" 565;
    migration_row "2026_07_28_210000_create_integration_endpoints_table"
      "2a656525df3d53dddacaaf535e26dae8c0bc652a5c4ffc1482f3346c360e458c" 1308;
    migration_row "2026_07_28_211000_create_integration_deliveries_table"
      "b7ce1d48f8f47b7c3246a110c0c10b2be5dc1ada72349023a41cbfa04e54154a" 1899;
    migration_row "2026_07_28_220000_create_identity_providers_table"
      "7e3d599e48291fe87f9fae59601ce4543eaa652521c7cdae339d47e42cab87ee" 1221;
    migration_row "2026_07_28_221000_create_scim_identities_table"
      "8b15828e11765825719fa8aee6299f4b408d3491e4929ff8878eabda5bfd8c91" 1392;
    migration_row "2026_07_28_222000_add_identity_lifecycle_columns_to_users_table"
      "6afa1918821f959cd64203a9c0eabed6bce759e78e5c1e309aab777ebe68b45c" 1321;
    migration_row "2026_07_28_223000_add_mfa_state_to_users_table"
      "7d007f4693ac74358461f3ec903a70e4131b36661a59367f41a16c03edc18bb7" 844;
    migration_row "2026_07_29_090000_create_grid_bulk_operation_tables"
      "da0e77d99ecff90fdc6a107227703549f5484066fa2c9e136f905f3954b073ce" 2713;
    migration_row "2026_07_30_123600_add_postman_data_to_performed_tests"
      "cd9c188061e6cd6b8886a0ab93d4730de7dc88d2c255f34f25299610ce7f1ef6" 732;
    migration_row "2026_08_07_090000_add_legacy_api_key_usage_to_costumers"
      "7e8b1518380ecb943b7b188ae6766dfccec627154717ca291f05bb9060bf8eb4" 871;
    migration_row "2026_08_07_100000_ensure_legacy_api_key_expiration_column"
      "3c0fbebbe12776f9060024b6bfad47cd1f812893e1d8249a257b9e72253b4014" 764;
    migration_row "2026_08_27_120000_add_idempotency_keys_to_performed_results"
      "43e7a34c57c41db587efafc108919f902e98c2f6fd7e620c410c990436f57e1c" 1020;
    migration_row "2026_08_27_130000_create_go_browser_sessions_table"
      "2d6fb7a4fd32b19dab388b4f551ab1fce93d6e57585034273866a193e774afb7" 991;
    migration_row "2026_08_27_140000_add_active_tenant_to_go_browser_sessions_table"
      "a1e5d2d1fa47107fba38794a59d968867228e547924f78843a784d89f74d15ca" 1236;
    migration_row "2026_09_10_090000_add_break_glass_expiry_to_users_table"
      "65a369456be4c3dc7e677c08bf4597902448f1ba8ed11218d5fe0681e3101838" 570] |}.

(** ** Validation (baseline.go) *)
Definition nul : ascii := byte 0.

(** What [validateBaseline] writes into its running hash, record by record; an
    incomplete record ends the loop. *)
Fixpoint aggregate (ms : list BaselineMigration) : option string :=
  match ms with
  | [] => Some ""
  | m :: ms' =>
      if String.eqb (bm_File m) "" || String.eqb (bm_SHA256 m) "" || (bm_Bytes m <=? 0) then None
      else t ← aggregate ms';
           Some (bm_File m +:+ String nul (bm_SHA256 m +:+ String nul t))
  end.

Definition validateBaseline (manifest : BaselineManifest) : option string :=
  if negb (SchemaVersion manifest =? 1) then
    Some ("unsupported Go baseline manifest schema version " +:+ pretty (SchemaVersion manifest))
  else if String.eqb (BaselineID manifest) "" || String.eqb (AggregateSHA256 manifest) "" then
    Some "Go baseline manifest is missing required identity fields"
  else if negb (MigrationCount manifest =? Z.of_nat (length (mf_Migrations manifest)))
          || (MigrationCount manifest =? 0) then
    Some "Go baseline manifest migration count is inconsistent"
  else if GoBaselineApplicationEnabled (HandoverPolicy manifest) then
    Some "Go baseline application must remain disabled until cutover gates pass"
  else if DualWritesAllowed (HandoverPolicy manifest) then
    Some "Go baseline manifest must not allow dual writes"
  else match aggregate (mf_Migrations manifest) with
       | None => Some "Go baseline manifest contains an incomplete migration record"
       | Some text =>
           if negb (String.eqb (hexEncode (sum256 text)) (AggregateSHA256 manifest)) then
             Some "Go baseline aggregate checksum does not match migration records"
           else None
       end.

(** The file is embedded at compile time: reading and decoding it is [decoded]. *)
Definition ReviewedBaseline (decoded : outcome BaselineManifest) : outcome BaselineManifest :=
  match decoded with
  | Err e => Err e
  | Ok manifest =>
      match validateBaseline manifest with
      | Some message => Err (OtherError message)
      | None => Ok manifest
      end
  end.

Record BaselinePlan := {
  pl_BaselineID : string;
  pl_MigrationCount : Z;
  pl_AggregateSHA256 : string;
  pl_ReviewStatus : string;
  pl_LaravelRemainsSchemaOwner : bool;
  pl_GoBaselineApplicationEnabled : bool;
  pl_DualWritesAllowed : bool;
  pl_Rollback : string;
}.

Definition ReviewedBaselinePlan (decoded : outcome BaselineManifest) : outcome BaselinePlan :=
  match ReviewedBaseline decoded with
  | Err e => Err e
  | Ok manifest => Ok {|
      pl_BaselineID := BaselineID manifest;
      pl_MigrationCount := MigrationCount manifest;
      pl_AggregateSHA256 := AggregateSHA256 manifest;
      pl_ReviewStatus := ReviewStatus manifest;
      pl_LaravelRemainsSchemaOwner := LaravelRemainsSchemaOwner (HandoverPolicy manifest);
      pl_GoBaselineApplicationEnabled := GoBaselineApplicationEnabled (HandoverPolicy manifest);
      pl_DualWritesAllowed := DualWritesAllowed (HandoverPolicy manifest);
      pl_Rollback := Rollback (HandoverPolicy manifest) |}
  end.

(** ** The bridge (bridge.go) *)
Record BridgeOptions := { ConfirmBaselineID : string; Batch : Z }.

Record BridgePlan := {
  bp_BaselineID : string;
  bp_MigrationCount : Z;
  bp_Batch : Z;
  bp_Table : string;
  bp_Migrations : list string;
  bp_RequiresExplicitRun : bool;
}.

Record BridgeResult := {
  br_BaselineID : string;
  br_MigrationCount : Z;
  br_Batch : Z;
  br_Applied : Z;
  br_Skipped : Z;
}.

Definition validateBridgeOptions (manifest : BaselineManifest) (options : BridgeOptions)
  : option string :=
  if String.eqb (ConfirmBaselineID options) "" then Some "confirmed baseline ID is required"
  else if negb (String.eqb (ConfirmBaselineID options) (BaselineID manifest)) then
    Some "confirmed baseline ID does not match reviewed baseline"
  else if Batch options <=? 0 then Some "migration batch must be greater than zero"
  else None.

Definition migration_names (manifest : BaselineManifest) : list string :=
  map bm_Name (mf_Migrations manifest).

Definition ReviewedBaselineBridgePlan (decoded : outcome BaselineManifest)
    (options : BridgeOptions) : outcome BridgePlan :=
  match ReviewedBaseline decoded with
  | Err e => Err e
  | Ok manifest =>
      match validateBridgeOptions manifest options with
      | Some message => Err (OtherError message)
      | None => Ok {|
          bp_BaselineID := BaselineID manifest;
          bp_MigrationCount := Z.of_nat (length (migration_names manifest));
          bp_Batch := Batch options;
          bp_Table := "migrations";
          bp_Migrations := migration_names manifest;
          bp_RequiresExplicitRun := true |}
      end
  end.

(** The interface [SQLExecer], for the one statement the bridge sends: the failure
    of [ExecContext], or a result whose [RowsAffected] may fail too. *)
Definition SQLExecer (D : Type) : Type := string -> Z -> M D (outcome Z).

Section Bridge.
Context {D : Type}.

(** One turn of the loop of [MarkReviewedBaselineApplied]. *)
Definition mark_one (execer : SQLExecer D) (batch : Z) (migration : string)
    (result : BridgeResult) : M D BridgeResult :=
  let! execResult := catch (execer migration batch) (fun _ =>
    fail (OtherError "mark Laravel baseline as applied: database unavailable")) in
  match execResult with
  | Err _ => fail (OtherError "mark Laravel baseline as applied: rows affected unavailable")
  | Ok rowsAffected =>
      ret (if 0 <? rowsAffected
           then {| br_BaselineID := br_BaselineID result;
                   br_MigrationCount := br_MigrationCount result;
                   br_Batch := br_Batch result;
                   br_Applied := wrap64 (br_Applied result + 1);
                   br_Skipped := br_Skipped result |}
           else {| br_BaselineID := br_BaselineID result;
                   br_MigrationCount := br_MigrationCount result;
                   br_Batch := br_Batch result;
                   br_Applied := br_Applied result;
                   br_Skipped := wrap64 (br_Skipped result + 1) |})
  end.

Fixpoint mark_loop (execer : SQLExecer D) (batch : Z) (names : list string)
    (result : BridgeResult) : M D BridgeResult :=
  match names with
  | [] => ret result
  | migration :: rest =>
      let! result' := mark_one execer batch migration result in
      mark_loop execer batch rest result'
  end.

Definition MarkReviewedBaselineApplied (decoded : outcome BaselineManifest)
    (execer : option (SQLExecer D)) (options : BridgeOptions) : M D BridgeResult :=
  match execer with
  | None => fail (OtherError "migration marker executor is required")
  | Some execer =>
      match ReviewedBaselineBridgePlan decoded options with
      | Err e => fail e
      | Ok plan =>
          mark_loop execer (bp_Batch plan) (bp_Migrations plan)
            {| br_BaselineID := bp_BaselineID plan;
               br_MigrationCount := bp_MigrationCount plan;
               br_Batch := bp_Batch plan; br_Applied := 0; br_Skipped := 0 |}
      end
  end.
End Bridge.

(** ** The database *)
Record MigrationTables := {
  mt_markers : list (string * Z);  (** migrations: migration, batch *)
  mt_schema : list (string * string * bool);  (** table_schema, table_name, is it a BASE TABLE *)
}.

Section Database.
Context (same : string -> string -> bool).

(** [INSERT INTO migrations ... SELECT ?, ? WHERE NOT EXISTS (...)]. *)
Definition add_marker (migration : string) (batch : Z) (l : list (string * Z)) : list (string * Z) * Z :=
  if existsb (fun row => same (fst row) migration) l then (l, 0)
  else ((l ++ [(migration, batch)])%list, 1).

Definition mysql_execer : SQLExecer MigrationTables := fun migration batch =>
  let! n := exec_count "" (fun d =>
    let '(l, n) := add_marker migration batch (mt_markers d) in
    ({| mt_markers := l; mt_schema := mt_schema d |}, n)) in
  attempt (do! round_trip ""; ret n).

(** [migrate -mark-laravel-baseline-applied -execute]: the bridge in one transaction, which
    is rolled back when it fails; an error is what the command prints before it exits with
    status 1. *)
Definition bridge_command (decoded : outcome BaselineManifest) (options : BridgeOptions)
  : M MigrationTables BridgeResult :=
  let started := "migrate could not start the database bridge transaction" in
  let committed := "migrate could not commit the database bridge transaction" in
  catch (transaction started committed (MarkReviewedBaselineApplied decoded (Some mysql_execer) options))
    (fun err => match err with
                | DatabaseFailure m => fail (OtherError (if hasPrefix m started then started else committed))
                | OtherError m => fail (OtherError ("migrate bridge failed: " +:+ m))
                | e => fail e
                end).
End Database.

(** ** Inspection: upgrade.go and empty_install.go *)
#[local] Instance string_le_dec (s t : string) : Decision (String.le s t) := _.

(** [sort.Strings]. *)
Definition sortStrings (l : list string) : list string := merge_sort String.le l.

(** [sql.DB] may be nil; [Scan] and [rows.Err] fail like the query does. *)
Definition inspect {D A} (message : string) (f : D -> A) : M D A :=
  catch (query "" f) (fun _ => fail (OtherError message)).

Definition AppliedMigrations (database : bool) : M MigrationTables (list string) :=
  do! guard database (OtherError "database handle is required");
  let! migrations := inspect "inspect Laravel migration markers: database unavailable"
    (fun d => map fst (mt_markers d)) in
  ret (sortStrings migrations).

Definition UserTables (database : bool) (schema : string) : M MigrationTables (list string) :=
  do! guard database (OtherError "database handle is required");
  do! guard (negb (String.eqb schema "")) (OtherError "database schema name is required");
  let! tables := inspect "inspect empty install schema: database unavailable"
    (fun d => map (fun row => snd (fst row))
       (List.filter (fun row => String.eqb (fst (fst row)) schema && snd row) (mt_schema d))) in
  ret (sortStrings tables).

Record LaravelUpgradeVerification := {
  uv_BaselineID : string;
  uv_SourceRelease : string;
  uv_MigrationCount : Z;
  uv_Status : string;
  uv_MissingMigrations : list string;
  uv_UnexpectedMarkers : list string;
  uv_Blockers : list string;
  uv_VerifiedActions : list string;
  uv_ReadsApplicationDB : bool;
}.

(** [map[string]struct{}] filled from a list. *)
Definition string_set (l : list string) : dict unit := fold_left (fun d k => dset k tt d) l [].

(** The keys of a set that another one lacks, then [sort.Strings]. *)
Definition lacking (s t : dict unit) : list string :=
  sortStrings (List.filter (fun k => negb (bool_decide (is_Some (dget k t)))) (dkeys s)).

Definition of_outcome {D A} (r : outcome A) : M D A :=
  match r with Ok a => ret a | Err e => fail e end.

Definition upgrade_status (missing unexpected : list string) (policy : BaselinePolicy)
  : string * list string :=
  if negb (Nat.eqb (length missing) 0) then
    ("failed", ["source Laravel schema is missing reviewed baseline migration markers"])
  else if negb (Nat.eqb (length unexpected) 0) then
    ("review-required", ["migration table contains markers outside the reviewed Go baseline"])
  else if negb (GoBaselineApplicationEnabled policy) then
    ("blocked", ["Go baseline application is disabled until route cutover and rollback rehearsal gates pass"])
  else ("ready", []).

Definition VerifyLaravelUpgrade {D} (decoded : outcome BaselineManifest)
    (inspector : option (M D (list string))) (sourceRelease : string)
  : M D LaravelUpgradeVerification :=
  do! guard (negb (String.eqb sourceRelease "")) (OtherError "source Laravel release is required");
  match inspector with
  | None => fail (OtherError "migration table inspector is required")
  | Some appliedMigrations =>
      let! manifest := of_outcome (ReviewedBaseline decoded) in
      let! applied := appliedMigrations in
      let required := string_set (migration_names manifest) in
      let appliedSet := string_set applied in
      let missing := lacking required appliedSet in
      let unexpected := lacking appliedSet required in
      let '(status, blockers) := upgrade_status missing unexpected (HandoverPolicy manifest) in
      ret {| uv_BaselineID := BaselineID manifest;
             uv_SourceRelease := sourceRelease;
             uv_MigrationCount := MigrationCount manifest;
             uv_Status := status;
             uv_MissingMigrations := missing;
             uv_UnexpectedMarkers := unexpected;
             uv_Blockers := blockers;
             uv_VerifiedActions :=
               ["loaded reviewed Go baseline manifest";
                "read Laravel migration marker names only";
                "compared applied markers against reviewed baseline"];
             uv_ReadsApplicationDB := false |}
  end.

Record EmptyInstallVerification := {
  ev_BaselineID : string;
  ev_MigrationCount : Z;
  ev_Status : string;
  ev_SchemaEmpty : bool;
  ev_ExistingTables : list string;
  ev_Blockers : list string;
  ev_VerifiedActions : list string;
}.

Definition VerifyEmptyInstall {D} (decoded : outcome BaselineManifest)
    (inspector : option (M D (list string))) : M D EmptyInstallVerification :=
  let! manifest := of_outcome (ReviewedBaseline decoded) in
  match inspector with
  | None => fail (OtherError "schema inspector is required")
  | Some userTables =>
      let! tables := userTables in
      let '(status, blockers) :=
        if negb (Nat.eqb (length tables) 0) then ("failed", ["target schema is not empty"])
        else if negb (GoBaselineApplicationEnabled (HandoverPolicy manifest)) then
          ("blocked", ["Go baseline application is disabled until bridge, upgrade, route cutover, and rollback rehearsal gates pass"])
        else ("ready", []) in
      ret {| ev_BaselineID := BaselineID manifest;
             ev_MigrationCount := MigrationCount manifest;
             ev_Status := status;
             ev_SchemaEmpty := Nat.eqb (length tables) 0;
             ev_ExistingTables := tables;
             ev_Blockers := blockers;
             ev_VerifiedActions :=
               ["loaded reviewed Go baseline manifest";
                "inspected target schema table inventory";
                "confirmed no tenant data or row payloads were read"] |}
  end.
