(* ===== verification/MigrationTheorems.v ===== *)
(** * Migrations: what the bridge and the verifications guarantee

    The bridge is a loop of statements that the command runs in one transaction: a run
    leaves all its markers or none.  It is idempotent, it can be run again until it is
    through, and the verification of an upgrade agrees with it. *)

From stdpp Require Import sorting.
From S2P Require Import Prelude GoStrings Sha256 Effects Http Migrations.

(** ** Markers *)
Section Markers.
Context (same : string -> string -> bool) (same_refl : forall s, same s s = true).
Implicit Types (l : list (string * Z)) (names : list string).

Definition present (l : list (string * Z)) (n : string) : bool :=
  existsb (fun row => same (fst row) n) l.

(** The table after one statement per name. *)
Definition mark_names (batch : Z) (names : list string) (l : list (string * Z)) : list (string * Z) :=
  fold_left (fun l n => fst (add_marker same n batch l)) names l.

Lemma present_app l1 l2 n : present (l1 ++ l2) n = present l1 n || present l2 n.
Proof. apply existsb_app. Qed.

Lemma add_marker_present n b l : present l n = true -> add_marker same n b l = (l, 0).
Proof. unfold add_marker, present. by intros ->. Qed.

Lemma add_marker_grows n b l :
  exists new, fst (add_marker same n b l) = (l ++ new)%list
    /\ snd (add_marker same n b l) = Z.of_nat (length new)
    /\ forall row, In row new -> row = (n, b) /\ present l n = false.
Proof.
  unfold add_marker, present. destruct (existsb _ l) eqn:E.
  - exists []. rewrite app_nil_r. by split_and!; [..|intros ? []].
  - exists [(n, b)]. split_and!; [done..|]. by intros row [<-|[]].
Qed.

Lemma add_marker_marks n b l : present (fst (add_marker same n b l)) n = true.
Proof.
  unfold add_marker. fold (present l n). destruct (present l n) eqn:E; [done|].
  cbn [fst]. rewrite present_app. cbn. by rewrite same_refl, !orb_true_r.
Qed.

(** Rows are only added: new names of the list, at the batch, that were absent. *)
Lemma mark_names_grows b names l :
  exists new, mark_names b names l = (l ++ new)%list
    /\ (length new <= length names)%nat
    /\ forall row, In row new -> In (fst row) names /\ snd row = b /\ present l (fst row) = false.
Proof.
  revert l. induction names as [|n names IH]; intros l.
  { exists []. cbn. rewrite app_nil_r. by split_and!; [..|intros ? []]. }
  cbn [mark_names fold_left]. fold (mark_names b names (fst (add_marker same n b l))).
  destruct (add_marker_grows n b l) as (new1 & -> & Hn & H1).
  destruct (IH (l ++ new1)%list) as (new2 & -> & Hl & H2).
  exists (new1 ++ new2)%list. rewrite app_assoc, length_app. split; [done|split].
  - destruct new1 as [|r1 [|r2 new1]]; cbn in *; [lia..|].
    exfalso. unfold add_marker in Hn. destruct (existsb _ l); cbn in Hn; lia.
  - intros row [Hin|Hin]%in_app_iff.
    + destruct (H1 row Hin) as [-> E]. by split_and!; [left|..].
    + destruct (H2 row Hin) as (A & B & C). rewrite present_app in C.
      apply orb_false_iff in C as [C _]. by split_and!; [right|..].
Qed.

Lemma mark_names_keeps b names l n : present l n = true -> present (mark_names b names l) n = true.
Proof.
  destruct (mark_names_grows b names l) as (new & -> & _). rewrite present_app. by intros ->.
Qed.

Lemma mark_names_app b ns1 ns2 l : mark_names b (ns1 ++ ns2) l = mark_names b ns2 (mark_names b ns1 l).
Proof. apply fold_left_app. Qed.

Lemma mark_names_covers b names l n : In n names -> present (mark_names b names l) n = true.
Proof.
  intros (ns1 & ns2 & ->)%in_split. rewrite mark_names_app. cbn [mark_names fold_left].
  apply mark_names_keeps, add_marker_marks.
Qed.

Lemma mark_names_known b names l :
  (forall n, In n names -> present l n = true) -> mark_names b names l = l.
Proof.
  revert l. induction names as [|n names IH]; intros l H; [done|].
  cbn [mark_names fold_left]. rewrite add_marker_present by (apply H; by left).
  apply IH. intros m Hm. apply H. by right.
Qed.

End Markers.

(** ** Failures *)
Definition failures {D} (w : world D) : nat :=
  length (List.filter (fun f => bool_decide (is_Some f)) (w_faults w)).

Lemma round_trip_failures {D} op (w : world D) r w' :
  round_trip op w = (r, w') ->
  match r with Ok _ => (failures w' <= failures w)%nat | Err _ => (failures w' < failures w)%nat end
  /\ w_db w' = w_db w.
Proof.
  unfold round_trip, failures. destruct w as [d [|[f|] fs] rs]; cbn; intros [= <- <-]; cbn;
    (split; [lia|done]).
Qed.

Section Bridge.
Context (same : string -> string -> bool) (same_refl : forall s, same s s = true).
Implicit Types w : world MigrationTables.

Definition marked (b : Z) (names : list string) (d : MigrationTables) : MigrationTables :=
  {| mt_markers := mark_names same b names (mt_markers d); mt_schema := mt_schema d |}.

(** One statement: it fails without effect, or adds its marker; then its
    [RowsAffected] may fail.  Failing uses up a failure of the world. *)
Lemma mysql_execer_spec n b w r w' :
  mysql_execer same n b w = (r, w') ->
  match r with
  | Err _ => w_db w' = w_db w /\ (failures w' < failures w)%nat
  | Ok count => w_db w' = marked b [n] (w_db w) /\
      match count with
      | Err _ => (failures w' < failures w)%nat
      | Ok z => z = snd (add_marker same n b (mt_markers (w_db w))) /\ (failures w' <= failures w)%nat
      end
  end.
Proof.
  unfold mysql_execer, exec_count, bind at 1. intros H.
  unfold bind at 1 in H. destruct (round_trip "" w) as [[[]|e] w1] eqn:E1; cycle 1.
  { injection H as <- <-. by apply round_trip_failures in E1 as [? ?]. }
  apply round_trip_failures in E1 as [F1 D1]. rewrite D1 in H.
  destruct (add_marker same n b (mt_markers (w_db w))) as [l c] eqn:A.
  set (w2 := World _ _ _) in H. unfold attempt, bind in H.
  assert (D2 : w_db w2 = marked b [n] (w_db w)) by (unfold marked; cbn; by rewrite A).
  assert (F2 : failures w2 = failures w1) by done.
  destruct (round_trip "" w2) as [[[]|e] w3] eqn:E3.
  - apply round_trip_failures in E3 as [F3 D3]. injection H as <- <-.
    rewrite D3, D2. cbn. split_and!; [done|done|lia].
  - destruct e; try (injection H as <- <-; apply round_trip_failures in E3 as [F3 D3];
      rewrite D3, D2; split; [done|lia]).
    exfalso. unfold round_trip in E3. by repeat case_match.
Qed.

(** The loop: the markers of a prefix of the names, of all of them on success. *)
Lemma mark_loop_spec b names res w r w' :
  mark_loop (mysql_execer same) b names res w = (r, w') ->
  0 <= br_Applied res -> 0 <= br_Skipped res ->
  br_Applied res + br_Skipped res + Z.of_nat (length names) <= int64_max ->
  match r with
  | Err _ => (failures w' < failures w)%nat /\ exists k, w_db w' = marked b (take k names) (w_db w)
  | Ok res' => (failures w' <= failures w)%nat /\ w_db w' = marked b names (w_db w)
      /\ br_BaselineID res' = br_BaselineID res /\ br_MigrationCount res' = br_MigrationCount res
      /\ br_Batch res' = br_Batch res
      /\ br_Applied res' = br_Applied res + Z.of_nat (length (mt_markers (w_db w')))
                           - Z.of_nat (length (mt_markers (w_db w)))
      /\ br_Applied res' + br_Skipped res'
         = br_Applied res + br_Skipped res + Z.of_nat (length names)
  end.
Proof.
  revert res w. induction names as [|n names IH]; intros res w H HA HS HL.
  { injection H as <- <-. unfold marked. cbn. destruct (w_db w). split_and!; auto; lia. }
  cbn [mark_loop] in H. unfold mark_one in H. unfold bind in H at 1.
  unfold bind in H at 1. unfold catch in H.
  destruct (mysql_execer same n b w) as [[[z|e]|e] w1] eqn:E1;
    apply mysql_execer_spec in E1 as E; cbn in H; cycle 1.
  { injection H as <- <-. destruct E as [-> E]. split; [done|]. by exists 1%nat. }
  { injection H as <- <-. destruct E as [-> E]. split; [done|]. exists 0%nat.
    unfold marked. by destruct (w_db w). }
  destruct E as (D1 & -> & F1).
  destruct (add_marker_grows same n b (mt_markers (w_db w))) as (new & G1 & G2 & _).
  assert (Hnew : Z.of_nat (length new) = 0 \/ Z.of_nat (length new) = 1).
  { rewrite <- G2. unfold add_marker. destruct (existsb _ _); auto. }
  assert (W : forall z, 0 <= z < int64_max -> wrap64 (z + 1) = z + 1).
  { intros z Hz. apply wrap64_id. unfold in_int64, int64_min, int64_max in *.
    apply andb_true_iff; split; apply Z.leb_le; lia. }
  cbn [length] in HL.
  apply IH in H; [..|by case_match; cbn; rewrite ?W by lia; lia
                 |by case_match; cbn; rewrite ?W by lia; lia
                 |by case_match; cbn; rewrite ?W by lia; lia].
  assert (L1 : Z.of_nat (length (fst (add_marker same n b (mt_markers (w_db w)))))
               = Z.of_nat (length (mt_markers (w_db w))) + Z.of_nat (length new)).
  { rewrite G1, length_app. lia. }
  rewrite D1 in H. destruct r as [res'|e].
  - destruct H as (F & D & H1 & H2 & H3 & H4 & H5). split_and!; [lia|done|..].
    all: rewrite G2 in *; destruct Hnew as [Hz|Hz]; rewrite Hz in *; cbn in *; rewrite ?W in * by lia.
    all: try done; lia.
  - destruct H as (F & k & D). split; [lia|]. by exists (S k).
Qed.
End Bridge.

(** ** The bridge as a whole *)
Section Mark.
Context (same : string -> string -> bool) (same_refl : forall s, same s s = true).
Implicit Types w : world MigrationTables.

(** What an operator checks before running the bridge: a manifest that validates,
    whose count is a Go [int], and options that confirm it. *)
Definition confirmed (manifest : BaselineManifest) (options : BridgeOptions) : bool :=
  bool_decide (validateBaseline manifest = None)
  && bool_decide (validateBridgeOptions manifest options = None)
  && in_int64 (MigrationCount manifest).

Lemma validate_count manifest :
  validateBaseline manifest = None ->
  MigrationCount manifest = Z.of_nat (length (migration_names manifest))
  /\ GoBaselineApplicationEnabled (HandoverPolicy manifest) = false.
Proof.
  unfold validateBaseline, migration_names. rewrite length_map.
  destruct (_ =? 1); cbn; [|done]. destruct (_ || _); [done|].
  destruct (MigrationCount manifest =? _) eqn:E; cbn; [|done].
  destruct (_ =? 0); [done|]. destruct (GoBaselineApplicationEnabled _); [done|].
  intros _. split; [by apply Z.eqb_eq|done].
Qed.

Definition run_bridge (manifest : BaselineManifest) (options : BridgeOptions)
  : M MigrationTables BridgeResult :=
  bridge_command same (Ok manifest) options.

(** What the transaction of a run is made of. *)
Lemma bridge_body_spec manifest options w r w' :
  confirmed manifest options = true ->
  MarkReviewedBaselineApplied (Ok manifest) (Some (mysql_execer same)) options w = (r, w') ->
  match r with
  | Err _ => (failures w' < failures w)%nat
  | Ok res => w_db w' = marked same (Batch options) (migration_names manifest) (w_db w)
      /\ (failures w' <= failures w)%nat
      /\ br_Applied res = Z.of_nat (length (mt_markers (w_db w')))
                          - Z.of_nat (length (mt_markers (w_db w)))
      /\ br_Applied res + br_Skipped res = MigrationCount manifest
  end.
Proof.
  unfold confirmed. intros [[V%bool_decide_eq_true O%bool_decide_eq_true]%andb_true_iff I]%andb_true_iff.
  unfold MarkReviewedBaselineApplied, ReviewedBaselineBridgePlan, ReviewedBaseline.
  rewrite V, O. cbn. apply validate_count in V as [C _]. intros H.
  assert (B : Z.of_nat (length (migration_names manifest)) <= int64_max).
  { unfold in_int64 in I. apply andb_true_iff in I as [_ I%Z.leb_le]. lia. }
  apply mark_loop_spec in H; cbn; [|lia..|done]. destruct r as [res|e]; [|by apply H].
  cbn in H. destruct H as (F & D & H1 & H2 & H3 & H4 & H5). by split_and!; [..|lia|lia].
Qed.

(** A run does all of its work, or reports an error, has used up a failure of the world and
    leaves the tables as they were. *)
Lemma run_bridge_spec manifest options w r w' :
  confirmed manifest options = true -> run_bridge manifest options w = (r, w') ->
  match r with
  | Err _ => (failures w' < failures w)%nat /\ w_db w' = w_db w
  | Ok res => w_db w' = marked same (Batch options) (migration_names manifest) (w_db w)
      /\ (failures w' <= failures w)%nat
      /\ br_Applied res = Z.of_nat (length (mt_markers (w_db w')))
                          - Z.of_nat (length (mt_markers (w_db w)))
      /\ br_Applied res + br_Skipped res = MigrationCount manifest
  end.
Proof.
  intros Hc. unfold run_bridge, bridge_command, catch.
  set (mark := MarkReviewedBaselineApplied _ _ _). unfold transaction, bind.
  destruct (round_trip _ w) as [[[]|e] w1] eqn:E1; apply round_trip_failures in E1 as [F1 D1].
  2:{ by destruct e; intros [= <- <-]. }
  destruct (mark w1) as [[res|e] w2] eqn:E2; apply bridge_body_spec in E2; try done.
  2:{ destruct e; intros [= <- <-]; cbn; (split; [unfold failures in *; cbn; lia|done]). }
  destruct E2 as (D2 & F2 & A & S).
  destruct (round_trip _ w2) as [[[]|e] w3] eqn:E3; apply round_trip_failures in E3 as [F3 D3].
  2:{ destruct e; intros [= <- <-]; cbn; (split; [unfold failures in *; cbn; lia|done]). }
  intros [= <- <-]. rewrite D3. rewrite D1 in D2, A. by split_and!; [|lia|..].
Qed.

(** The world after [n] runs, each started where the one before it stopped. *)
Definition after_runs {D A} (n : nat) (m : M D A) (u : world D) : world D :=
  Nat.iter n (fun u => snd (m u)) u.

Lemma after_runs_S {D A} n (m : M D A) u : after_runs (S n) m u = after_runs n m (snd (m u)).
Proof. unfold after_runs. by rewrite Nat.iter_succ_r. Qed.

(** Once every marker is there, a run changes nothing, whether it succeeds or not. *)
Lemma marked_stays manifest options n (w : world MigrationTables) :
  confirmed manifest options = true ->
  (forall m, In m (migration_names manifest) -> present same (mt_markers (w_db w)) m = true) ->
  w_db (after_runs n (run_bridge manifest options) w) = w_db w.
Proof.
  intros Hc. revert w. induction n as [|n IH]; intros w P; [done|]. rewrite after_runs_S.
  destruct (run_bridge manifest options w) as [r w1] eqn:E. cbn [snd].
  assert (D : w_db w1 = w_db w).
  { pose proof (run_bridge_spec _ _ _ _ _ Hc E) as S. destruct r; [|by apply S].
    destruct S as (-> & _). unfold marked. rewrite mark_names_known by done. by destruct (w_db w). }
  rewrite <- D. apply IH. by rewrite D.
Qed.

(** Claim C38: the bridge can be run until it is through.  The command marks the reviewed
    migrations in one transaction.  With a manifest that validates and options that confirm
    it, and whatever calls fail, one of its next runs succeeds, at the latest when the
    failures are used up; every run before that one reports an error and leaves the
    database as it was.  After it every migration of the manifest has its marker, at the
    batch of the options where it had none, no other row has changed, and however often the
    command is run again, successfully or not, that stays so. *)
Theorem bridge_eventually_completes (manifest : BaselineManifest) (options : BridgeOptions)
    (w : world MigrationTables) :
  confirmed manifest options = true ->
  let after n := after_runs n (run_bridge manifest options) w in
  exists (i : nat) (res : BridgeResult),
    (i <= failures w)%nat
    /\ (forall j, (j < i)%nat -> (exists e, fst (run_bridge manifest options (after j)) = Err e)
                                /\ w_db (after (S j)) = w_db w)
    /\ fst (run_bridge manifest options (after i)) = Ok res
    /\ forall n, let d := w_db (after (S i + n)%nat) in
       (exists new, mt_markers d = (mt_markers (w_db w) ++ new)%list
          /\ br_Applied res = Z.of_nat (length new)
          /\ forall row, In row new -> In (fst row) (migration_names manifest)
               /\ snd row = Batch options /\ present same (mt_markers (w_db w)) (fst row) = false)
       /\ mt_schema d = mt_schema (w_db w)
       /\ forall m, In m (migration_names manifest) -> present same (mt_markers d) m = true.
Proof.
  intros Hc. cbv zeta. remember (failures w) as f eqn:Hf.
  revert w Hf. induction f as [f IH] using lt_wf_ind. intros w Hf.
  destruct (run_bridge manifest options w) as [[res|e] w1] eqn:E;
    pose proof (run_bridge_spec _ _ _ _ _ Hc E) as S1.
  - destruct S1 as (D & _ & A & _). exists 0%nat, res. split; [lia|].
    split; [intros j Hj; by apply Nat.nlt_0_r in Hj|].
    split; [unfold after_runs; cbn; by rewrite E|]. intros n. cbn [Nat.add].
    assert (P : forall m, In m (migration_names manifest) -> present same (mt_markers (w_db w1)) m = true)
      by (intros m Hm; rewrite D; by apply mark_names_covers).
    rewrite after_runs_S, E. cbn [snd]. rewrite (marked_stays _ _ _ _ Hc P). split; [|split; [by rewrite D|exact P]].
    destruct (mark_names_grows same (Batch options) (migration_names manifest) (mt_markers (w_db w)))
      as (new & G & _ & R).
    exists new. rewrite A, D. cbn [marked mt_markers]. rewrite G, length_app. split; [done|]. split; [lia|exact R].
  - destruct S1 as (F & D).
    destruct (IH (failures w1) ltac:(lia) w1 eq_refl) as (i & res & Hi & HB & HR & HN).
    exists (S i), res. split; [lia|]. split; [|split].
    + intros [|j] Hj; rewrite after_runs_S; [unfold after_runs; cbn; rewrite E; eauto|].
      rewrite after_runs_S, E. cbn [snd]. rewrite <- D. apply HB. lia.
    + by rewrite after_runs_S, E.
    + intros n. cbn [Nat.add]. rewrite after_runs_S, E. cbn [snd]. specialize (HN n). by rewrite D in HN.
Qed.

(** A successful run reports what it did: [Applied] counts the rows it added, for
    migrations of the manifest that had no marker, at the batch of the options, and
    [Skipped] the others. *)
Theorem bridge_reports_rows (manifest : BaselineManifest) (options : BridgeOptions)
    (w w' : world MigrationTables) (res : BridgeResult) :
  confirmed manifest options = true -> run_bridge manifest options w = (Ok res, w') ->
  exists new : list (string * Z),
    mt_markers (w_db w') = (mt_markers (w_db w) ++ new)%list
    /\ br_Applied res = Z.of_nat (length new)
    /\ br_Applied res + br_Skipped res = MigrationCount manifest
    /\ forall row, In row new ->
         In (fst row) (migration_names manifest) /\ snd row = Batch options
         /\ present same (mt_markers (w_db w)) (fst row) = false.
Proof.
  intros Hc H. apply run_bridge_spec in H as (D & _ & A & S); [|done].
  destruct (mark_names_grows same (Batch options) (migration_names manifest) (mt_markers (w_db w)))
    as (new & G & _ & R).
  exists new. rewrite D in A |- *. cbn in *. rewrite G, length_app in A. split_and!; [done|lia|done..].
Qed.
End Mark.

(** The manifest the binary embeds passes its own checks: SHA-256 of its records is
    the checksum it declares. *)
Lemma baseline_valid : validateBaseline baseline_manifest = None.
Proof. vm_compute. reflexivity. Qed.

Definition sample_options : BridgeOptions :=
  {| ConfirmBaselineID := "go-baseline-2026-08-25"; Batch := 67 |}.

Lemma baseline_confirmed : confirmed baseline_manifest sample_options = true.
Proof.
  unfold confirmed. rewrite baseline_valid. vm_compute. reflexivity.
Qed.

(** A failure in the first run, and one at the commit of the second. *)
Definition failing_world : world MigrationTables :=
  World {| mt_markers := [("local", 1); ("a", 1)]; mt_schema := [] |}
        [None; None; None; Some Canceled; None; None; None; None; None; Some DeadlineExceeded] [].

(** ** Verification of an upgrade *)
Lemma string_set_In l k : In k (dkeys (string_set l)) <-> In k l.
Proof.
  unfold string_set.
  enough (H : forall d, In k (dkeys (fold_left (fun d k => dset k tt d) l d)) <-> In k (dkeys d) \/ In k l)
    by (etransitivity; [apply H|cbn; tauto]).
  induction l as [|x l IH]; intros d; cbn [fold_left]; [cbn; tauto|].
  rewrite IH, dkeys_dset. cbn. naive_solver.
Qed.

Lemma string_set_wf l : dwf (string_set l) = true.
Proof.
  unfold string_set.
  enough (H : forall d, dwf d = true -> dwf (fold_left (fun d k => dset k tt d) l d) = true) by (by apply (H [])).
  induction l as [|x l IH]; intros d Hd; cbn [fold_left]; [done|]. by apply IH, dwf_dset.
Qed.

Lemma dwf_NoDup {V} (d : dict V) : dwf d = true -> NoDup (dkeys d).
Proof.
  induction d as [|[k v] d IH]; [constructor|]. rewrite dwf_cons. intros [F W]. cbn.
  constructor; [|by apply IH]. rewrite list_elem_of_In. intros ([j u] & Hj & Hin)%in_map_iff.
  rewrite List.Forall_forall in F. apply F in Hin. cbn in *. subst. by apply slt_irrefl in Hin.
Qed.

(** [lacking] is the difference of two sets, as a sorted list without repetition. *)
Lemma lacking_spec l1 l2 :
  let l := lacking (string_set l1) (string_set l2) in
  (forall k, In k l <-> In k l1 /\ ~ In k l2) /\ Sorted String.le l /\ NoDup l.
Proof.
  unfold lacking, sortStrings. cbv zeta. split_and!.
  - intros k. rewrite <- list_elem_of_In, merge_sort_Permutation, list_elem_of_In, filter_In.
    rewrite string_set_In, negb_true_iff, bool_decide_eq_false, <- eq_None_not_Some.
    by rewrite dget_None_keys, string_set_In.
  - apply Sorted_merge_sort. apply _.
  - rewrite merge_sort_Permutation. apply NoDup_ListNoDup, List.NoDup_filter, NoDup_ListNoDup.
    apply dwf_NoDup, string_set_wf.
Qed.

(** What [VerifyLaravelUpgrade] answers, from the markers the inspector returned. *)
Lemma verify_upgrade_ok {D} manifest (inspector : M D (list string)) release w v w' :
  VerifyLaravelUpgrade (Ok manifest) (Some inspector) release w = (Ok v, w') ->
  validateBaseline manifest = None /\
  exists applied, inspector w = (Ok applied, w')
    /\ uv_MissingMigrations v = lacking (string_set (migration_names manifest)) (string_set applied)
    /\ uv_UnexpectedMarkers v = lacking (string_set applied) (string_set (migration_names manifest))
    /\ (uv_Status v, uv_Blockers v)
       = upgrade_status (uv_MissingMigrations v) (uv_UnexpectedMarkers v) (HandoverPolicy manifest).
Proof.
  unfold VerifyLaravelUpgrade. intros H. invert_ok H as G. apply guard_ok in G as [_ ->].
  invert_ok H as R. unfold ReviewedBaseline in R.
  destruct (validateBaseline manifest); [done|]. injection R as <- <-. split; [done|].
  invert_ok H as I. exists a0. destruct (upgrade_status _ _ _) as [s b] eqn:U.
  injection H as <- <-. cbn. by rewrite I, U.
Qed.

Lemma upgrade_status_cases missing unexpected policy :
  GoBaselineApplicationEnabled policy = false ->
  let s := fst (upgrade_status missing unexpected policy) in
  (s = "failed" <-> missing <> []) /\ (s = "review-required" <-> missing = [] /\ unexpected <> [])
  /\ (s = "blocked" <-> missing = [] /\ unexpected = []) /\ s <> "ready".
Proof. unfold upgrade_status. intros ->. destruct missing, unexpected; cbn; naive_solver. Qed.

Lemma list_nil_In {A} (l : list A) : (forall x, ~ In x l) -> l = [].
Proof. destruct l as [|x l]; [done|]. intros H. exfalso. apply (H x). by left. Qed.

Lemma mark_names_exact b names l n :
  In n (map fst (mark_names String.eqb b names l)) <-> In n (map fst l) \/ In n names.
Proof.
  destruct (mark_names_grows String.eqb b names l) as (new & E & _ & R). split.
  - rewrite E, map_app, in_app_iff. intros [|(row & <- & Hrow)%in_map_iff]; [by left|right].
    by apply R.
  - intros [H|H]; [rewrite E, map_app, in_app_iff; by left|].
    apply (mark_names_covers String.eqb String.eqb_refl b) with (l := l) in H.
    apply existsb_exists in H as ([m b'] & Hin & Heq%String.eqb_eq). cbn in Heq. subst.
    apply in_map_iff. by exists (n, b').
Qed.

Lemma verify_upgrade_markers manifest release (w w' : world MigrationTables) v :
  VerifyLaravelUpgrade (Ok manifest) (Some (AppliedMigrations true)) release w = (Ok v, w') ->
  let names := migration_names manifest in
  let markers := map fst (mt_markers (w_db w)) in
  let missing := uv_MissingMigrations v in
  let unexpected := uv_UnexpectedMarkers v in
  (forall n, In n missing <-> In n names /\ ~ In n markers)
  /\ (forall n, In n unexpected <-> In n markers /\ ~ In n names)
  /\ ((uv_Status v = "failed" <-> missing <> [])
      /\ (uv_Status v = "review-required" <-> missing = [] /\ unexpected <> [])
      /\ (uv_Status v = "blocked" <-> missing = [] /\ unexpected = [])
      /\ uv_Status v <> "ready")
  /\ Sorted String.le missing /\ NoDup missing /\ Sorted String.le unexpected /\ NoDup unexpected.
Proof.
  intros (V & applied & I & M & U & S)%verify_upgrade_ok. apply validate_count in V as [_ V].
  unfold AppliedMigrations in I. invert_ok I as G. invert_ok I as Q.
  apply guard_ok in G as [_ ->]. injection I as <- <-. unfold inspect, catch in Q.
  destruct (query "" _ w) as [[l|e] w2] eqn:E; [|done]. injection Q as <- <-.
  apply query_ok in E as [-> _].
  assert (P : forall n, In n (sortStrings (map fst (mt_markers (w_db w)))) <-> In n (map fst (mt_markers (w_db w)))).
  { intros n. unfold sortStrings. by rewrite <- list_elem_of_In, merge_sort_Permutation, list_elem_of_In. }
  set (applied := sortStrings _) in *. cbv zeta.
  destruct (lacking_spec (migration_names manifest) applied) as (M1 & M2 & M3).
  destruct (lacking_spec applied (migration_names manifest)) as (U1 & U2 & U3).
  pose proof (upgrade_status_cases (uv_MissingMigrations v) (uv_UnexpectedMarkers v) _ V) as C.
  rewrite <- S in C. cbn in C. rewrite M in *. rewrite U in *. cbv zeta in *.
  destruct C as (C1 & C2 & C3 & C4).
  split; [intros n; by rewrite M1, P|]. split; [intros n; by rewrite U1, P|]. by split_and!.
Qed.

(** the verdict on an upgrade is exact.  The missing migrations are those
    of the manifest without a marker and the unexpected markers those that the
    manifest does not name, both sorted and without repetition; the status is
    "failed" when one is missing, otherwise "review-required" when one is
    unexpected, otherwise "blocked".  It is never "ready": a manifest that would
    enable the Go baseline is refused by its validation. *)
Theorem upgrade_verdict_exact (manifest : BaselineManifest) (release : string)
    (w w' : world MigrationTables) (v : LaravelUpgradeVerification) :
  VerifyLaravelUpgrade (Ok manifest) (Some (AppliedMigrations true)) release w = (Ok v, w') ->
  let names := migration_names manifest in
  let markers := map fst (mt_markers (w_db w)) in
  (forall n, In n (uv_MissingMigrations v) <-> In n names /\ ~ In n markers)
  /\ (forall n, In n (uv_UnexpectedMarkers v) <-> In n markers /\ ~ In n names)
  /\ Sorted String.le (uv_MissingMigrations v) /\ NoDup (uv_MissingMigrations v)
  /\ Sorted String.le (uv_UnexpectedMarkers v) /\ NoDup (uv_UnexpectedMarkers v)
  /\ (uv_Status v = "failed" <-> uv_MissingMigrations v <> [])
  /\ (uv_Status v = "review-required"
      <-> uv_MissingMigrations v = [] /\ uv_UnexpectedMarkers v <> [])
  /\ (uv_Status v = "blocked" <-> uv_MissingMigrations v = [] /\ uv_UnexpectedMarkers v = [])
  /\ uv_Status v <> "ready".
Proof.
  intros H. apply verify_upgrade_markers in H as (M & U & (S1 & S2 & S3 & S4) & M1 & M2 & U1 & U2).
  cbv zeta. by split_and!.
Qed.

(** the bridge and the verification agree.  Once the bridge went through,
    on a table whose column compares names exactly, verifying the upgrade reports no
    missing migration; the markers it calls unexpected are those that were there
    before and that the manifest does not name, and the verdict is "blocked" when
    there are none and "review-required" otherwise. *)
Theorem bridge_satisfies_upgrade (manifest : BaselineManifest) (options : BridgeOptions)
    (release : string) (w w1 w2 w3 : world MigrationTables) (res : BridgeResult)
    (v : LaravelUpgradeVerification) :
  confirmed manifest options = true ->
  run_bridge String.eqb manifest options w = (Ok res, w1) ->
  w_db w2 = w_db w1 ->
  VerifyLaravelUpgrade (Ok manifest) (Some (AppliedMigrations true)) release w2 = (Ok v, w3) ->
  uv_MissingMigrations v = []
  /\ (forall n, In n (uv_UnexpectedMarkers v)
        <-> In n (map fst (mt_markers (w_db w))) /\ ~ In n (migration_names manifest))
  /\ (uv_Status v = "blocked"
      <-> forall n, In n (map fst (mt_markers (w_db w))) -> In n (migration_names manifest))
  /\ (uv_Status v = "blocked" \/ uv_Status v = "review-required").
Proof.
  intros Hc HB E HV. apply run_bridge_spec in HB as (D & _); [|done].
  apply verify_upgrade_markers in HV as (M & U & S & _). cbv zeta in *. rewrite E, D in M, U. cbn in M, U.
  set (names := migration_names manifest) in *. set (before := mt_markers (w_db w)) in *.
  assert (R : forall n, In n (map fst (mark_names String.eqb (Batch options) names before))
                        <-> In n (map fst before) \/ In n names) by apply mark_names_exact.
  assert (HM : uv_MissingMigrations v = []).
  { apply list_nil_In. intros n [Hn Hnot]%M. apply Hnot, R. by right. }
  assert (HU : forall n, In n (uv_UnexpectedMarkers v) <-> In n (map fst before) /\ ~ In n names).
  { intros n. rewrite U, R. tauto. }
  destruct S as (_ & S2 & S3 & _). rewrite HM in *.
  split_and!; [done|done|..].
  - rewrite S3. split.
    + intros [_ Hnil] n Hn. destruct (List.in_dec String.string_dec n names) as [|Hnot]; [done|exfalso].
      assert (X : In n (uv_UnexpectedMarkers v)) by by apply HU. by rewrite Hnil in X.
    + intros H. split; [done|]. apply list_nil_In. intros n [Hn Hnot]%HU. auto.
  - rewrite S2, S3. destruct (uv_UnexpectedMarkers v); [by left|by right].
Qed.

(** A manifest of two migrations, and a table with one of them and a marker of its
    own. *)
Definition small_manifest : BaselineManifest := {|
  SchemaVersion := 1; BaselineID := "small"; GeneratedOn := ""; SourceRuntime := "";
  TargetRuntime := ""; SourceDirectory := ""; MigrationCount := 2;
  AggregateSHA256 := "da7ad5c3b232b1c1925dd2e938000a833113c1a1ce187c5bc4bfc4a51abecb90";
  ReviewStatus := ""; mf_Redaction := "";
  HandoverPolicy := {| LaravelRemainsSchemaOwner := true; GoBaselineApplicationEnabled := false;
                       DualWritesAllowed := false; Rollback := "" |};
  mf_Migrations := [migration_row "a" "aa" 1; migration_row "b" "bb" 1] |}.

Definition small_options : BridgeOptions := {| ConfirmBaselineID := "small"; Batch := 3 |}.

Definition local_world : world MigrationTables :=
  World {| mt_markers := [("local", 1); ("a", 1)]; mt_schema := [] |} [] [].

Definition bridged : outcome BridgeResult * world MigrationTables :=
  Eval vm_compute in run_bridge String.eqb small_manifest small_options local_world.

Definition report_on (w : world MigrationTables) : outcome LaravelUpgradeVerification * world MigrationTables :=
  VerifyLaravelUpgrade (Ok small_manifest) (Some (AppliedMigrations true)) "1.0" w.

Lemma bridge_eventually_completes_witness :
  confirmed small_manifest small_options = true
  /\ exists i res, (i <= failures failing_world)%nat
     /\ fst (run_bridge String.eqb small_manifest small_options
               (after_runs i (run_bridge String.eqb small_manifest small_options) failing_world)) = Ok res.
Proof.
  assert (C : confirmed small_manifest small_options = true) by (vm_compute; reflexivity).
  split; [exact C|].
  destruct (bridge_eventually_completes String.eqb String.eqb_refl small_manifest small_options
              failing_world C) as (i & res & Hi & _ & Hr & _).
  exists i, res. split; [exact Hi|exact Hr].
Defined.

(** The failed runs leave the two markers that were there. *)
Example failed_runs_roll_back :
  let run := run_bridge String.eqb small_manifest small_options in
  map (fun n => map fst (mt_markers (w_db (after_runs n run failing_world)))) [0%nat; 1%nat; 2%nat; 3%nat]
  = [["local"; "a"]; ["local"; "a"]; ["local"; "a"]; ["local"; "a"; "b"]].
Proof. vm_compute. reflexivity. Qed.

Lemma upgrade_verdict_exact_witness :
  exists v, fst (report_on local_world) = Ok v /\ uv_Status v = "failed"
            /\ uv_MissingMigrations v = ["b"] /\ uv_Status v <> "ready".
Proof.
  destruct (report_on local_world) as [[v|e] w'] eqn:E; [|by vm_compute in E].
  pose proof (upgrade_verdict_exact small_manifest "1.0" local_world w' v E) as H.
  exists v. assert (V : Ok v = fst (report_on local_world)) by by rewrite E.
  vm_compute in V. injection V as ->. split_and!; [done..|]. apply H.
Defined.

Lemma bridge_satisfies_upgrade_witness :
  exists res v, fst bridged = Ok res /\ fst (report_on (snd bridged)) = Ok v
                /\ uv_MissingMigrations v = [] /\ uv_Status v = "review-required".
Proof.
  destruct bridged as [[res|e] w1] eqn:B; [|by vm_compute in B].
  destruct (report_on w1) as [[v|e] w3] eqn:E; cycle 1.
  { injection B as <- <-. by vm_compute in E. }
  assert (R : run_bridge String.eqb small_manifest small_options local_world = (Ok res, w1))
    by (rewrite <- B; by vm_compute).
  pose proof (bridge_satisfies_upgrade small_manifest small_options "1.0" local_world w1 w1 w3 res v
                ltac:(by vm_compute) R eq_refl E) as H.
  exists res, v. cbn [fst snd]. rewrite E. split_and!; [done|done|apply H|].
  injection B as <- <-. vm_compute in E. by injection E as <- <-.
Defined.
