(* ===== verification/Config.v ===== *)
(** * Configuration

    internal/config/config.go: what the process reads from its environment and from
    the secret file, and what it accepts.  [os.Getenv] and [os.ReadFile] are
    arguments.  [time.ParseDuration] is written out; the float64 product it uses for
    a fraction of a unit is an argument. *)

From S2P Require Import Prelude GoStrings GoTime Artifacts.

(** ** time.ParseDuration *)
Definition two63 : Z := 2 ^ 63.
Definition two64 : Z := 2 ^ 64.

(** [leadingInt]: the leading digits as a [uint64], [None] on overflow. *)
Fixpoint leadingInt (x : Z) (l : list ascii) : option (Z * list ascii) :=
  match l with
  | c :: l' =>
      match char_digit c with
      | Some d =>
          if two63 / 10 <? x then None
          else if two63 <? x * 10 + d then None else leadingInt (x * 10 + d) l'
      | None => Some (x, l)
      end
  | [] => Some (x, [])
  end.

(** [leadingFraction]: the digits after the point and their scale; the digits that
    would overflow are dropped. *)
Fixpoint leadingFraction (x scale : Z) (overflow : bool) (l : list ascii) : Z * Z * list ascii :=
  match l with
  | c :: l' =>
      match char_digit c with
      | Some d =>
          if overflow || ((two63 - 1) / 10 <? x) || (two63 <? x * 10 + d)
          then leadingFraction x scale true l'
          else leadingFraction (x * 10 + d) (scale * 10) false l'
      | None => (x, scale, l)
      end
  | [] => (x, scale, [])
  end.

Definition is_number_char (c : ascii) : bool :=
  Ascii.eqb c "."%char || bool_decide (is_Some (char_digit c)).

Fixpoint unit_chars (l : list ascii) : list ascii * list ascii :=
  match l with
  | c :: l' => if is_number_char c then ([], l) else let '(u, r) := unit_chars l' in (c :: u, r)
  | [] => ([], [])
  end.

(** [unitMap]; the two micro signs are U+00B5 and U+03BC. *)
Definition unit_of (u : list ascii) : option Z :=
  let named t := String.eqb (of_chars u) t in
  if named "ns" then Some nanosecond
  else if named "us" || named (of_chars [byte 194; byte 181; "s"%char])
          || named (of_chars [byte 206; byte 188; "s"%char]) then Some microsecond
  else if named "ms" then Some (1000 * microsecond)
  else if named "s" then Some second
  else if named "m" then Some minute
  else if named "h" then Some hour
  else None.

Section Duration.
(** [uint64(float64(f) * (float64(unit) / scale))]. *)
Context (scaled : Z -> Z -> Z -> Z).

(** The fraction after an integer: its digits, their scale, and whether there are
    any. *)
Definition fraction_part (l : list ascii) : Z * Z * bool * list ascii :=
  match l with
  | "."%char :: l' =>
      let '(f, scale, r) := leadingFraction 0 1 false l' in
      (f, scale, negb (Nat.eqb (length l') (length r)), r)
  | _ => (0, 1, false, l)
  end.

Definition in_units (v f scale unit : Z) : option Z :=
  if two63 / unit <? v then None
  else if 0 <? f then
    let v := (v * unit + scaled f unit scale) mod two64 in
    if two63 <? v then None else Some v
  else Some (v * unit).

(** One number with its unit; [None] for each of the errors. *)
Definition duration_term (l : list ascii) : option (Z * list ascii) :=
  if negb (match l with c :: _ => is_number_char c | [] => false end) then None
  else
    '(v, l1) ← leadingInt 0 l;
    let pre := negb (Nat.eqb (length l) (length l1)) in
    let '(f, scale, post, l2) := fraction_part l1 in
    if negb pre && negb post then None
    else
      let '(u, l3) := unit_chars l2 in
      unit ← unit_of u;
      v ← in_units v f scale unit;
      Some (v, l3).

(** How the loop over the terms ends: with their sum, or with an error. *)
Inductive loop_end := Sum (d : Z) | Invalid.

(** The loop; [None] is an exhausted fuel. Each turn reads a term, so [length l] turns
    are enough ([duration_loop_fuel]). *)
Fixpoint duration_loop (fuel : nat) (d : Z) (l : list ascii) : option loop_end :=
  match l with
  | [] => Some (Sum d)
  | _ =>
      match fuel with
      | O => None
      | S n =>
          match duration_term l with
          | None => Some Invalid
          | Some (v, l') =>
              let d := (d + v) mod two64 in
              if two63 <? d then Some Invalid else duration_loop n d l'
          end
      end
  end.

Definition sign_part (l : list ascii) : bool * list ascii :=
  match l with
  | "-"%char :: l' => (true, l')
  | "+"%char :: l' => (false, l')
  | _ => (false, l)
  end.

Definition ParseDuration (s : string) : option Z :=
  let '(neg, l) := sign_part (chars s) in
  match l with
  | ["0"%char] => Some 0
  | [] => None
  | _ =>
      match duration_loop (length l) 0 l with
      | Some (Sum d) =>
          if neg then Some (wrap64 (- wrap64 d))
          else if two63 - 1 <? d then None else Some d
      | _ => None
      end
  end.
End Duration.

(** ** The configuration *)
Record HTTPConfig := {
  hc_Address : string;
  hc_ReadHeaderTimeout : Z;
  hc_ReadTimeout : Z;
  hc_WriteTimeout : Z;
  hc_IdleTimeout : Z;
  hc_ShutdownTimeout : Z;
}.

Record DatabaseConfig := {
  dc_Host : string;
  dc_Port : Z;
  dc_Name : string;
  dc_User : string;
  dc_Password : string;
  dc_TLSMode : string;
  dc_ConnectTimeout : Z;
  dc_ReadTimeout : Z;
  dc_WriteTimeout : Z;
  dc_MaxOpenConnections : Z;
  dc_MaxIdleConnections : Z;
  dc_ConnectionMaxLifetime : Z;
}.

Record Config := {
  c_Environment : string;
  c_HTTP : HTTPConfig;
  c_Database : DatabaseConfig;
  c_Artifacts : Policy;
}.

(** [validate]: the message of the first check that fails. *)
Definition validate (config : Config) : option string :=
  let http := c_HTTP config in
  let database := c_Database config in
  let policy := c_Artifacts config in
  if blank (hc_Address http) then Some "IDELIUM_HTTP_ADDRESS must not be empty"
  else if (hc_ReadHeaderTimeout http <=? 0) || (hc_ReadTimeout http <=? 0)
          || (hc_WriteTimeout http <=? 0) || (hc_IdleTimeout http <=? 0)
          || (hc_ShutdownTimeout http <=? 0) then Some "HTTP timeouts must be positive"
  else if blank (dc_Host database) || blank (dc_Name database) || blank (dc_User database) then
    Some "database host, name, and user must not be empty"
  else if String.eqb (dc_Password database) "" then
    Some "database password must be provided through a secret file or environment variable"
  else if (dc_Port database <? 1) || (65535 <? dc_Port database) then
    Some "database port must be between 1 and 65535"
  else if (dc_MaxOpenConnections database <? 1) || (dc_MaxIdleConnections database <? 0)
          || (dc_MaxOpenConnections database <? dc_MaxIdleConnections database) then
    Some "database connection pool limits are invalid"
  else if (dc_ConnectTimeout database <=? 0) || (dc_ReadTimeout database <=? 0)
          || (dc_WriteTimeout database <=? 0) || (dc_ConnectionMaxLifetime database <=? 0) then
    Some "database timeouts must be positive"
  else if negb (String.eqb (dc_TLSMode database) "false")
          && negb (String.eqb (dc_TLSMode database) "true")
          && negb (String.eqb (dc_TLSMode database) "preferred") then
    Some "IDELIUM_DB_TLS_MODE must be false, true, or preferred"
  else if (p_MaxArtifactBytes policy <=? 0) || (p_InlineArtifactMaxBytes policy <=? 0)
          || (p_CollectionMaxItems policy <=? 0) || (p_DefaultRetentionDays policy <=? 0) then
    Some "artifact size, count, and retention limits must be positive"
  else None.

Section Load.
Context (scaled : Z -> Z -> Z -> Z).
Context (getenv : string -> string) (readFile : string -> option string).

Fixpoint firstNonEmpty (names : list string) : string :=
  match names with
  | [] => ""
  | name :: rest => if String.eqb (getenv name) "" then firstNonEmpty rest else getenv name
  end.

Definition firstNonEmptyOrDefault (fallback : string) (names : list string) : string :=
  let value := firstNonEmpty names in if String.eqb value "" then fallback else value.

Definition valueOrDefault (name fallback : string) : string :=
  if String.eqb (getenv name) "" then fallback else getenv name.

Definition durationOrDefault (name : string) (fallback : Z) : Z :=
  if String.eqb (getenv name) "" then fallback
  else default 0 (ParseDuration scaled (getenv name)).

Definition intOrDefault (name : string) (fallback : Z) : Z :=
  if String.eqb (getenv name) "" then fallback else default 0 (parseInt (getenv name)).

Definition intFromFallback (name : string) (fallback : Z) : Z := intOrDefault name fallback.

(** [readSecret]: the message of [safeConfigurationError] leaves out the path and
    the cause. *)
Definition readSecret (filePath fallback : string) : string + string :=
  if String.eqb filePath "" then inr fallback
  else match readFile filePath with
       | None => inl "secret file is not readable"
       | Some contents =>
           let value := trimRightSet [byte 13; byte 10] contents in
           if String.eqb value "" then inl "secret file is empty" else inr value
       end.

Definition retired_names : list string :=
  ["IDELIUM_AUTH_BRIDGE_URL"; "IDELIUM_AUTH_BRIDGE_TOKEN"; "IDELIUM_AUTH_BRIDGE_SECRET";
   "IDELIUM_BROWSER_AUTH_BRIDGE_URL"; "IDELIUM_LARAVEL_AUTH_INTROSPECTION_URL"].

Definition retired_message (name : string) : string :=
  name +:+ " is retired; browser authentication must be handled by Go-native auth after compatibility cutover".

Definition rejectRetiredAuthBridgeConfiguration : option string :=
  retired_message <$> List.find (fun name => negb (String.eqb (getenv name) "")) retired_names.

Definition artifactPolicyFromEnvironment : Policy :=
  {| p_MaxArtifactBytes :=
       intOrDefault "IDELIUM_ARTIFACT_MAX_SIZE_BYTES" (p_MaxArtifactBytes DefaultPolicy);
     p_InlineArtifactMaxBytes :=
       intOrDefault "IDELIUM_ARTIFACT_INLINE_MAX_BYTES" (p_InlineArtifactMaxBytes DefaultPolicy);
     p_CollectionMaxItems :=
       intOrDefault "IDELIUM_ARTIFACT_COLLECTION_MAX_ITEMS" (p_CollectionMaxItems DefaultPolicy);
     p_DefaultRetentionDays :=
       intOrDefault "IDELIUM_ARTIFACT_RETENTION_DAYS" (p_DefaultRetentionDays DefaultPolicy);
     p_AllowedContentTypes := p_AllowedContentTypes DefaultPolicy |}.

(** The configuration [Load] builds, before its validation. *)
Definition read_config (password : string) : Config := {|
  c_Environment := valueOrDefault "IDELIUM_ENVIRONMENT" (valueOrDefault "APP_ENV" "production");
  c_HTTP := {|
    hc_Address := valueOrDefault "IDELIUM_HTTP_ADDRESS" ":8080";
    hc_ReadHeaderTimeout := durationOrDefault "IDELIUM_HTTP_READ_HEADER_TIMEOUT" (5 * second);
    hc_ReadTimeout := durationOrDefault "IDELIUM_HTTP_READ_TIMEOUT" (15 * second);
    hc_WriteTimeout := durationOrDefault "IDELIUM_HTTP_WRITE_TIMEOUT" (30 * second);
    hc_IdleTimeout := durationOrDefault "IDELIUM_HTTP_IDLE_TIMEOUT" (60 * second);
    hc_ShutdownTimeout := durationOrDefault "IDELIUM_HTTP_SHUTDOWN_TIMEOUT" (15 * second) |};
  c_Database := {|
    dc_Host := firstNonEmptyOrDefault "127.0.0.1" ["IDELIUM_DB_HOST"; "DB_HOST"];
    dc_Port := intOrDefault "IDELIUM_DB_PORT" (intFromFallback "DB_PORT" 3306);
    dc_Name := firstNonEmptyOrDefault "ideliumdb" ["IDELIUM_DB_NAME"; "DB_DATABASE"];
    dc_User := firstNonEmptyOrDefault "idelium" ["IDELIUM_DB_USER"; "DB_USERNAME"];
    dc_Password := password;
    dc_TLSMode := valueOrDefault "IDELIUM_DB_TLS_MODE" "false";
    dc_ConnectTimeout := durationOrDefault "IDELIUM_DB_CONNECT_TIMEOUT" (5 * second);
    dc_ReadTimeout := durationOrDefault "IDELIUM_DB_READ_TIMEOUT" (10 * second);
    dc_WriteTimeout := durationOrDefault "IDELIUM_DB_WRITE_TIMEOUT" (10 * second);
    dc_MaxOpenConnections := intOrDefault "IDELIUM_DB_MAX_OPEN_CONNECTIONS" 25;
    dc_MaxIdleConnections := intOrDefault "IDELIUM_DB_MAX_IDLE_CONNECTIONS" 10;
    dc_ConnectionMaxLifetime := durationOrDefault "IDELIUM_DB_CONNECTION_MAX_LIFETIME" (5 * minute) |};
  c_Artifacts := artifactPolicyFromEnvironment |}.

Definition Load : string + Config :=
  match rejectRetiredAuthBridgeConfiguration with
  | Some message => inl message
  | None =>
      match readSecret (firstNonEmpty ["IDELIUM_DB_PASSWORD_FILE"; "DB_PASSWORD_FILE"])
                       (firstNonEmpty ["IDELIUM_DB_PASSWORD"; "DB_PASSWORD"]) with
      | inl message => inl ("database password configuration is invalid: " +:+ message)
      | inr password =>
          let config := read_config password in
          match validate config with
          | Some message => inl message
          | None => inr config
          end
      end
  end.
End Load.

(** ** Termination: the fuel of the loops is enough *)
Lemma leadingInt_length l x v r : leadingInt x l = Some (v, r) -> (length r <= length l)%nat.
Proof.
  revert x. induction l as [|c l IH]; intros x H; cbn in H; [by injection H as <- <-|].
  repeat case_match; simplify_eq/=; [apply IH in H; lia|lia].
Qed.

Lemma leadingFraction_length l x s o f sc r :
  leadingFraction x s o l = (f, sc, r) -> (length r <= length l)%nat.
Proof.
  revert x s o. induction l as [|c l IH]; intros x s o H; cbn in H; [by injection H as <- <- <-|].
  repeat case_match; simplify_eq/=; try apply IH in H; lia.
Qed.

Lemma unit_chars_length l u r : unit_chars l = (u, r) -> length l = (length u + length r)%nat.
Proof.
  revert u r. induction l as [|c l IH]; intros u r H; cbn in H; [by injection H as <- <-|].
  repeat case_match; simplify_eq/=; [done|]. by rewrite (IH _ _ eq_refl).
Qed.

Lemma fraction_part_length l f sc post r :
  fraction_part l = (f, sc, post, r) -> (length r <= length l)%nat.
Proof.
  destruct l as [|c l]; [by intros [= <- <- <- <-]|].
  destruct (leadingFraction 0 1 false l) as [[f' sc'] r'] eqn:E.
  apply leadingFraction_length in E.
  destruct (Ascii.eqb_spec c "."%char) as [->|Hc]; cbn.
  - destruct (leadingFraction 0 1 false l) as [[? ?] ?] eqn:E'.
    apply leadingFraction_length in E'. intros [= <- <- <- <-]. lia.
  - intros H. repeat case_match; simplify_eq; cbn; lia.
Qed.

Section DurationFacts.
Context (scaled : Z -> Z -> Z -> Z).

(** A term takes at least the characters of its unit. *)
Lemma duration_term_shorter l v r : duration_term scaled l = Some (v, r) -> (length r < length l)%nat.
Proof.
  unfold duration_term. intros H. case_match; [done|].
  destruct (leadingInt 0 l) as [[x l1]|] eqn:E1; cbn in H; [|done].
  apply leadingInt_length in E1.
  destruct (fraction_part l1) as [[[f sc] post] l2] eqn:E2. apply fraction_part_length in E2.
  case_match; [done|]. destruct (unit_chars l2) as [u l3] eqn:E3. apply unit_chars_length in E3.
  destruct u as [|c u]; [done|]. cbn [length] in E3.
  destruct (unit_of (c :: u)) as [z|]; cbn in H; [|done].
  destruct (in_units scaled x f sc z); cbn in H; [|done]. injection H as <- <-. lia.
Qed.

(** [time.ParseDuration] terminates on every input: whatever the text and the sum
    so far, the loop over the terms reaches its end (a sum or an error) within as many
    turns as the text has characters, and more turns change nothing, because a term that is read takes
    at least one character. *)
Theorem duration_loop_fuel (l : list ascii) (d : Z) (n : nat) :
  (length l <= n)%nat ->
  exists r, duration_loop scaled n d l = Some r /\ duration_loop scaled (length l) d l = Some r.
Proof.
  enough (H : forall m l d n n', (length l <= m)%nat -> (length l <= n)%nat -> (length l <= n')%nat ->
    exists r, duration_loop scaled n d l = Some r /\ duration_loop scaled n' d l = Some r)
    by (intros; by apply (H (length l))).
  clear. intros m. induction m as [|m IH]; intros l d n n' Hm Hn Hn';
    (destruct l as [|c l]; [exists (Sum d); by destruct n, n'|]); cbn in Hm; [lia|].
  destruct n as [|n]; [cbn in Hn; lia|]. destruct n' as [|n']; [cbn in Hn'; lia|].
  cbn [duration_loop]. destruct (duration_term scaled (c :: l)) as [[v r]|] eqn:E; [|by exists Invalid].
  apply duration_term_shorter in E. cbn in *. case_match; [by exists Invalid|]. apply IH; lia.
Qed.

Lemma duration_loop_range n d l r :
  0 <= d <= two63 -> duration_loop scaled n d l = Some (Sum r) -> 0 <= r <= two63.
Proof.
  revert d l. induction n as [|n IH]; intros d l Hd H; destruct l as [|c l]; cbn [duration_loop] in H;
    try (by simplify_eq).
  destruct (duration_term scaled (c :: l)) as [[v r']|]; [|done].
  case_match eqn:E; [done|]. apply Z.ltb_ge in E. eapply IH; [|exact H].
  pose proof (Z.mod_pos_bound (d + v) two64). unfold two64 in *. lia.
Qed.

Lemma ParseDuration_int64 s d : ParseDuration scaled s = Some d -> in_int64 d = true.
Proof.
  unfold ParseDuration. intros H. destruct (sign_part (chars s)) as [neg l].
  assert (H' : (exists r, duration_loop scaled (length l) 0 l = Some (Sum r) /\
                (if neg then Some (wrap64 (- wrap64 r))
                 else if two63 - 1 <? r then None else Some r) = Some d) \/ d = 0).
  { revert H. generalize (duration_loop scaled (length l) 0 l) as r. intros r H.
    destruct r as [[r|]|]; [|right; repeat (case_match; simplify_eq; try done)..].
    destruct l as [|c l]; [done|]. destruct (decide (c :: l = ["0"%char])) as [E|Hc].
    - right. injection E as -> ->. by injection H.
    - left. exists r. split; [done|].
      destruct c as [[] [] [] [] [] [] [] []], l; try exact H; done. }
  destruct H' as [(r & E & H')| ->]; [|done].
  apply duration_loop_range in E; [|done]. destruct neg; [injection H' as <-; apply wrap64_in_int64|].
  case_match eqn:B; [done|]. injection H' as <-. apply Z.ltb_ge in B. unfold two63 in *.
  unfold in_int64, int64_min, int64_max. apply andb_true_iff; split; apply Z.leb_le; lia.
Qed.
End DurationFacts.

(** The product when the fraction is a multiple of its scale. *)
Definition exact_product (f unit scale : Z) : Z := f * unit / scale.

Lemma duration_loop_fuel_witness :
  exists r, duration_loop exact_product 6 0 (chars "1h30m") = Some r /\
            duration_loop exact_product 5 0 (chars "1h30m") = Some r.
Proof. apply (duration_loop_fuel exact_product (chars "1h30m") 0 6). cbn. lia. Defined.

Example parse_duration_mixed : ParseDuration exact_product "1h2m3.5s" = Some (hour + 2 * minute + 3500000000).
Proof. vm_compute. reflexivity. Qed.
Example parse_duration_units : ParseDuration exact_product "-1.5ms" = Some (- 1500000).
Proof. vm_compute. reflexivity. Qed.
Example parse_duration_no_unit : ParseDuration exact_product "15" = None.
Proof. vm_compute. reflexivity. Qed.
Example parse_duration_overflow : ParseDuration exact_product "9223372036854775808ns" = None.
Proof. vm_compute. reflexivity. Qed.
(** The sum of two terms is an unsigned word: it can wrap around to zero. *)
Example parse_duration_wraps :
  ParseDuration exact_product "9223372036854775808ns9223372036854775808ns" = Some 0.
Proof. vm_compute. reflexivity. Qed.

(** ** What a loaded configuration guarantees *)
Record valid_config (c : Config) : Prop := {
  vc_address : trimSpace (hc_Address (c_HTTP c)) <> "";
  vc_http_timeouts : Forall (fun t => 0 < t)
    [hc_ReadHeaderTimeout (c_HTTP c); hc_ReadTimeout (c_HTTP c); hc_WriteTimeout (c_HTTP c);
     hc_IdleTimeout (c_HTTP c); hc_ShutdownTimeout (c_HTTP c)];
  vc_names : Forall (fun s => trimSpace s <> "")
    [dc_Host (c_Database c); dc_Name (c_Database c); dc_User (c_Database c)];
  vc_password : dc_Password (c_Database c) <> "";
  vc_port : 1 <= dc_Port (c_Database c) <= 65535;
  vc_pool : 0 <= dc_MaxIdleConnections (c_Database c) <= dc_MaxOpenConnections (c_Database c)
            /\ 1 <= dc_MaxOpenConnections (c_Database c);
  vc_database_timeouts : Forall (fun t => 0 < t)
    [dc_ConnectTimeout (c_Database c); dc_ReadTimeout (c_Database c);
     dc_WriteTimeout (c_Database c); dc_ConnectionMaxLifetime (c_Database c)];
  vc_tls : In (dc_TLSMode (c_Database c)) ["false"; "true"; "preferred"];
  vc_artifacts : Forall (fun z => 0 < z)
    [p_MaxArtifactBytes (c_Artifacts c); p_InlineArtifactMaxBytes (c_Artifacts c);
     p_CollectionMaxItems (c_Artifacts c); p_DefaultRetentionDays (c_Artifacts c)];
}.

Lemma tls_modes s :
  negb (String.eqb s "false") && negb (String.eqb s "true") && negb (String.eqb s "preferred") = false
  <-> In s ["false"; "true"; "preferred"].
Proof.
  cbn. destruct (String.eqb_spec s "false"), (String.eqb_spec s "true"), (String.eqb_spec s "preferred");
    naive_solver.
Qed.

(** The bool tests of [validate], read as propositions. *)
Ltac test_props :=
  repeat match goal with
  | H : _ /\ _ |- _ => destruct H
  | H : _ || _ = false |- _ => apply orb_false_iff in H as [? ?]
  | H : _ && _ && _ = false |- _ => apply tls_modes in H
  | H : (_ <=? _) = false |- _ => apply Z.leb_gt in H
  | H : (_ <? _) = false |- _ => apply Z.ltb_ge in H
  | H : blank _ = false |- _ =>
      apply not_true_iff_false in H; rewrite blank_spec in H
  | H : String.eqb _ _ = false |- _ => apply String.eqb_neq in H
  | H : Forall _ (_ :: _) |- _ => apply Forall_cons_1 in H as [? ?]
  end.

Lemma validate_spec c : validate c = None <-> valid_config c.
Proof.
  unfold validate. cbv zeta. split.
  - intros H. repeat (case_match; [done|]). test_props.
    constructor; try done; repeat constructor; try done; lia.
  - intros [A B C D E [F1 F2] G T I]. test_props.
    repeat match goal with
    | H : trimSpace _ <> "" |- _ => rewrite <- blank_spec in H; apply not_true_iff_false in H; rewrite H
    | H : 0 < ?z |- _ => apply Z.leb_gt in H; rewrite H; clear H
    | H : 1 <= ?z |- _ => apply Z.ltb_ge in H; rewrite H; clear H
    | H : ?z <= 65535 |- _ => apply Z.ltb_ge in H; rewrite H; clear H
    | H : 0 <= ?z |- _ => apply Z.ltb_ge in H; rewrite H; clear H
    | H : dc_MaxIdleConnections _ <= _ |- _ => apply Z.ltb_ge in H; rewrite H; clear H
    end.
    apply tls_modes in T. apply String.eqb_neq in D. by rewrite T, D.
Qed.

(** The messages [Load] can return: none contains a value of the environment. *)
Definition load_messages : list string :=
  map retired_message retired_names ++
  ["database password configuration is invalid: secret file is not readable";
   "database password configuration is invalid: secret file is empty";
   "IDELIUM_HTTP_ADDRESS must not be empty"; "HTTP timeouts must be positive";
   "database host, name, and user must not be empty";
   "database password must be provided through a secret file or environment variable";
   "database port must be between 1 and 65535"; "database connection pool limits are invalid";
   "database timeouts must be positive"; "IDELIUM_DB_TLS_MODE must be false, true, or preferred";
   "artifact size, count, and retention limits must be positive"].

Lemma valid_normalized c :
  p_AllowedContentTypes (c_Artifacts c) <> [] -> valid_config c ->
  normalized (c_Artifacts c) = c_Artifacts c.
Proof.
  intros N H. pose proof (vc_artifacts c H) as I. test_props.
  unfold normalized, or_default. destruct (c_Artifacts c) as [a b d e l]; cbn in *.
  repeat match goal with H : 0 < ?z |- _ => apply Z.leb_gt in H; rewrite H; clear H end.
  by destruct l.
Qed.

Lemma validate_message c m : validate c = Some m -> In m (drop 7 load_messages).
Proof.
  unfold validate. intros H.
  repeat (case_match; [injection H as <-; cbn; tauto|]). done.
Qed.

Section LoadFacts.
Context (scaled : Z -> Z -> Z -> Z) (getenv : string -> string) (readFile : string -> option string).

Lemma retired_In m :
  rejectRetiredAuthBridgeConfiguration getenv = Some m -> In m (map retired_message retired_names).
Proof.
  unfold rejectRetiredAuthBridgeConfiguration. destruct (List.find _ _) as [n|] eqn:E; [|done].
  intros [= <-]. apply find_some in E as [E _]. by apply in_map.
Qed.

(** The password that [Load] uses. *)
Definition database_password : string + string :=
  readSecret readFile (firstNonEmpty getenv ["IDELIUM_DB_PASSWORD_FILE"; "DB_PASSWORD_FILE"])
                      (firstNonEmpty getenv ["IDELIUM_DB_PASSWORD"; "DB_PASSWORD"]).

Lemma password_message m :
  database_password = inl m ->
  In ("database password configuration is invalid: " +:+ m) load_messages.
Proof.
  unfold database_password, readSecret. intros H. apply in_app_iff. right.
  repeat case_match; simplify_eq; cbn; tauto.
Qed.

(** Claim C39: [Load] succeeds with exactly the configurations that are valid, and its
    errors say nothing of the values it read.  A configuration is returned when no
    retired variable is set, the secret is readable, and what was read satisfies
    every limit of [valid_config]; its artifact policy is then the one that the
    artifact checks enforce, without a default stepping in.  Every error is one of
    fixed messages, in which neither the secret, nor its path, nor another value of
    the environment appears. *)
Theorem load_accepts_iff :
  (forall c, Load scaled getenv readFile = inr c <->
     rejectRetiredAuthBridgeConfiguration getenv = None
     /\ exists password, database_password = inr password
        /\ c = read_config scaled getenv password /\ valid_config c)
  /\ (forall c, Load scaled getenv readFile = inr c -> normalized (c_Artifacts c) = c_Artifacts c)
  /\ (forall m, Load scaled getenv readFile = inl m -> In m load_messages).
Proof.
  assert (H : forall c, Load scaled getenv readFile = inr c <->
     rejectRetiredAuthBridgeConfiguration getenv = None
     /\ exists password, database_password = inr password
        /\ c = read_config scaled getenv password /\ valid_config c).
  { intros c. unfold Load. fold database_password.
    destruct (rejectRetiredAuthBridgeConfiguration getenv); [naive_solver|].
    destruct database_password as [m|password]; [naive_solver|].
    cbv zeta. destruct (validate (read_config scaled getenv password)) eqn:V.
    - split; [done|]. intros (_ & p & [= <-] & -> & Hv). apply validate_spec in Hv. by rewrite Hv in V.
    - apply validate_spec in V. naive_solver. }
  split_and!; [exact H|..].
  - intros c Hc. apply H in Hc as (_ & p & _ & -> & V). by apply valid_normalized.
  - intros m. unfold Load. fold database_password.
    destruct (rejectRetiredAuthBridgeConfiguration getenv) eqn:R.
    { intros [= <-]. apply in_app_iff. left. by apply retired_In. }
    destruct database_password as [m'|password] eqn:P.
    { intros [= <-]. by apply password_message. }
    cbv zeta. destruct (validate _) eqn:V; [|done]. intros [= <-].
    apply validate_message in V. rewrite <- (take_drop 7 load_messages). apply in_app_iff. by right.
Qed.
End LoadFacts.

(** A minimal environment, and one whose pool limits contradict each other. *)
Definition password_env (name : string) : string :=
  if String.eqb name "IDELIUM_DB_PASSWORD" then "secret" else "".

Example load_minimal :
  match Load exact_product password_env (fun _ => None) with
  | inr c => dc_Password (c_Database c) = "secret" /\ dc_Port (c_Database c) = 3306
  | inl _ => False
  end.
Proof. vm_compute. by split. Qed.

Example load_rejects_pool :
  Load exact_product (fun n => if String.eqb n "IDELIUM_DB_MAX_OPEN_CONNECTIONS" then "5" else password_env n)
       (fun _ => None) = inl "database connection pool limits are invalid".
Proof. vm_compute. reflexivity. Qed.
