(* ===== verification/Paging.v ===== *)
(** * Paging

    The pages of the administration lists: the query parameters
    ([positiveQueryInt] of internal/browserauth/admin.go), the LIMIT and OFFSET of a
    page and its [PageMeta] (internal/persistence/mysql/browser_auth.go).  The
    arithmetic is that of 64-bit integers. *)

From S2P Require Import Prelude GoStrings Effects Http.

(** [positiveQueryInt]: the value, and whether the parameter is there. *)
Definition positiveQueryInt (r : Request) (key : string) (fallback : Z) : Z * bool :=
  let value := queryValue r key in
  if String.eqb value "" then (fallback, false)
  else match parseInt value with
       | Some parsed => if parsed <=? 0 then (fallback, true) else (parsed, true)
       | None => (fallback, true)
       end.

Record PageMeta := {
  pm_Page : Z;
  pm_PageSize : Z;
  pm_Total : Z;
  pm_LastPage : Z;
  pm_HasNextPage : bool;
  pm_HasPreviousPage : bool;
  pm_Sort : string;
  pm_Direction : string;
}.

(** The last page: at least 1. *)
Definition last_page (total size : Z) : Z :=
  let lastPage := Z.quot (wrap64 (wrap64 (total + size) - 1)) size in
  if lastPage =? 0 then 1 else lastPage.

(** [pageMeta]. *)
Definition pageMeta (page size total : Z) (sort direction : string) : PageMeta :=
  let lastPage := last_page total size in
  {| pm_Page := page; pm_PageSize := size; pm_Total := total; pm_LastPage := lastPage;
     pm_HasNextPage := page <? lastPage; pm_HasPreviousPage := 1 <? page;
     pm_Sort := sort; pm_Direction := direction |}.

(** [LIMIT size OFFSET (page-1)*size]; a negative offset is a syntax error. *)
Definition page_of {A} (page size : Z) (l : list A) : option (list A) :=
  let offset := wrap64 (wrap64 (page - 1) * size) in
  if offset <? 0 then None else Some (take (Z.to_nat size) (drop (Z.to_nat offset) l)).

(** A query whose text the server may refuse. *)
Definition query_page {D A} (op : string) (f : D -> option A) : M D A :=
  let! rows := query op f in
  match rows with
  | Some l => ret l
  | None => fail (DatabaseFailure (safeDatabaseFailure op (MySQLError 1064 "syntax error")))
  end.

(** ** Theorems *)
Lemma last_page_spec (total size : Z) :
  0 <= total -> 1 <= size -> total + size <= int64_max ->
  last_page total size = Z.max 1 ((total + size - 1) / size).
Proof.
  intros Ht Hs Hb. unfold last_page.
  assert (I : forall z, 0 <= z <= int64_max -> in_int64 z = true).
  { intros z Hz. unfold in_int64, int64_min in *. apply andb_true_iff; split; apply Z.leb_le; lia. }
  rewrite !wrap64_id by (apply I; rewrite ?wrap64_id by (apply I; lia); lia).
  rewrite Z.quot_div_nonneg by lia.
  pose proof (Z.div_pos (total + size - 1) size ltac:(lia) ltac:(lia)).
  destruct (Z.eqb_spec ((total + size - 1) / size) 0); lia.
Qed.

Lemma page_of_slice {A} (page size : Z) (l : list A) :
  1 <= page -> 1 <= size -> (page - 1) * size <= int64_max ->
  page_of page size l = Some (take (Z.to_nat size) (drop (Z.to_nat ((page - 1) * size)) l)).
Proof.
  intros Hp Hs Hb. unfold page_of.
  assert (I : forall z, 0 <= z <= int64_max -> wrap64 z = z).
  { intros z Hz. apply wrap64_id. unfold in_int64, int64_min in *.
    apply andb_true_iff; split; apply Z.leb_le; lia. }
  assert (P : 0 <= page - 1 <= int64_max) by nia.
  rewrite (I (page - 1)) by done. rewrite I by nia.
  by destruct (Z.ltb_spec ((page - 1) * size) 0); [nia|].
Qed.

(** The first [n] pages are the first [n * size] rows. *)
Lemma pages_prefix {A} (size : Z) (l : list A) (n : nat) :
  1 <= size -> Z.of_nat n * size <= int64_max ->
  concat (map (fun k => default [] (page_of (Z.of_nat k) size l)) (seq 1 n))
  = take (n * Z.to_nat size) l.
Proof.
  intros Hs. induction n as [|n IH]; intros Hb; [done|].
  rewrite seq_S, map_app, concat_app, IH by lia. change (1 + n)%nat with (S n). cbn [map concat].
  rewrite page_of_slice by (try lia; nia). unfold default, from_option, id. rewrite app_nil_r.
  replace (Z.to_nat ((Z.of_nat (S n) - 1) * size)) with (n * Z.to_nat size)%nat by nia.
  replace (S n * Z.to_nat size)%nat with (n * Z.to_nat size + Z.to_nat size)%nat by lia.
  by rewrite take_take_drop.
Qed.

(** the pages of a list are a partition of it.  For every page size, the
    pages from 1 to the last one of the metadata, one after the other, are the whole
    list; every page but the last one is full and announces a next one, and the last
    one does not. *)
Theorem pages_partition {A} (size : Z) (l : list A) (sort direction : string) :
  1 <= size -> Z.of_nat (length l) + size <= int64_max ->
  let total := Z.of_nat (length l) in
  let last := Z.to_nat (last_page total size) in
  concat (map (fun k => default [] (page_of (Z.of_nat k) size l)) (seq 1 last)) = l
  /\ (forall k, (1 <= k < last)%nat ->
        length (default [] (page_of (Z.of_nat k) size l)) = Z.to_nat size
        /\ pm_HasNextPage (pageMeta (Z.of_nat k) size total sort direction) = true)
  /\ pm_HasNextPage (pageMeta (Z.of_nat last) size total sort direction) = false.
Proof.
  intros Hs Hb. cbv zeta. rewrite last_page_spec by lia.
  set (total := Z.of_nat (length l)) in *. set (q := (total + size - 1) / size).
  assert (Hq : size * q <= total + size - 1 < size * q + size)
    by (subst q; pose proof (Z.mul_div_le (total + size - 1) size); 
        pose proof (Z.mul_succ_div_gt (total + size - 1) size); lia).
  assert (Hmax : Z.max 1 q * size <= int64_max) by nia.
  split; [|split].
  - rewrite pages_prefix by (try done; rewrite Z2Nat.id; lia).
    rewrite take_ge; [done|]. nia.
  - intros k Hk. rewrite page_of_slice by (try lia; nia). unfold default, from_option, id.
    split; [rewrite length_take, length_drop; nia|].
    cbn. apply Z.ltb_lt. rewrite last_page_spec by lia. fold q. lia.
  - cbn. apply Z.ltb_ge. rewrite last_page_spec by lia. fold q. lia.
Qed.

Lemma pages_partition_witness :
  (1 <= 2 /\ Z.of_nat (length [10; 11; 12]) + 2 <= int64_max)
  /\ concat (map (fun k => default [] (page_of (Z.of_nat k) 2 [10; 11; 12])) (seq 1 2)) = [10; 11; 12].
Proof.
  assert (H : 1 <= 2 /\ Z.of_nat (length [10; 11; 12]) + 2 <= int64_max)
    by (split; vm_compute; discriminate).
  split; [exact H|]. exact (proj1 (pages_partition 2 [10; 11; 12] "" "" (proj1 H) (proj2 H))).
Defined.

(** A page number near the limit of [int] makes the offset negative: the query is
    refused and the list answers 500. *)
Example page_offset_overflow : page_of 9223372036854775807 100 [1; 2; 3] = None.
Proof. vm_compute. reflexivity. Qed.
