(* ===== verification/AccountTables.v ===== *)
(** * Accounts and browser sessions: the tables

    What internal/persistence/mysql/browser_auth.go keeps of users, browser
    sessions, customers, roles and projects, with the statements its methods share.

    What the server does with text and with the precision of a TIMESTAMP column is the
    class [MySQL] of [Effects]. *)

From stdpp Require Import sorting.
From S2P Require Import Prelude GoStrings GoTime Sha256 Json Effects.

(** ** Rows *)
Record UserRow := {
  ur_id : Z;
  ur_name : string;
  ur_email : string;
  ur_password : string;
  ur_role : Z;
  ur_idCostumer : Z;
  ur_status : string;
  ur_created_at : option time;
  ur_updated_at : option time;
}.

Record SessionRow := {
  sr_idHash : string;
  sr_csrfTokenHash : string;
  sr_userId : Z;
  sr_idCostumer : Z;
  sr_activeTenantId : option Z;
  sr_impersonationReason : option string;
  sr_impersonationExpiresAt : option time;
  sr_expiresAt : time;
  sr_updated_at : option time;
}.

Record CustomerRow := {
  co_id : Z;
  co_costumer : string;
  co_description : option string;
  co_licenseExpiration : option time;
  co_apiKey : option string;
  co_apiKeyCreatedAt : option time;
  co_created_at : option time;
  co_updated_at : option time;
}.

Record RoleRow := {
  ro_id : Z;
  ro_name : string;
  ro_created_at : option time;
  ro_updated_at : option time;
}.

Record ProjectRow := {
  pr_id : Z;
  pr_name : string;
  pr_description : option string;
  pr_idCostumer : Z;
  pr_created_at : option time;
  pr_updated_at : option time;
}.

Record AuditRow := {
  ar_actorUserId : Z;
  ar_actorTenantId : Z;
  ar_activeTenantId : Z;
  ar_action : string;
  ar_targetType : string;
  ar_targetId : string;
  ar_beforeValues : json;
  ar_afterValues : json;
  ar_sourceIp : string;
  ar_correlationId : string;
}.

#[export] Instance user_row_eq_dec : EqDecision UserRow.
Proof. solve_decision. Defined.
#[export] Instance session_row_eq_dec : EqDecision SessionRow.
Proof. solve_decision. Defined.
#[export] Instance customer_row_eq_dec : EqDecision CustomerRow.
Proof. solve_decision. Defined.

Record AccountTables := {
  at_users : list UserRow;
  at_nextUser : Z;
  at_sessions : list SessionRow;
  at_customers : list CustomerRow;
  at_nextCustomer : Z;
  at_roles : list RoleRow;
  at_roleColumns : list string;  (** the columns of roles, which differ between installations *)
  at_projects : list ProjectRow;
  at_audits : list AuditRow;
}.

Definition with_users (l : list UserRow) (d : AccountTables) : AccountTables :=
  {| at_users := l; at_nextUser := at_nextUser d; at_sessions := at_sessions d;
     at_customers := at_customers d; at_nextCustomer := at_nextCustomer d; at_roles := at_roles d;
     at_roleColumns := at_roleColumns d; at_projects := at_projects d; at_audits := at_audits d |}.
Definition with_next_user (z : Z) (d : AccountTables) : AccountTables :=
  {| at_users := at_users d; at_nextUser := z; at_sessions := at_sessions d;
     at_customers := at_customers d; at_nextCustomer := at_nextCustomer d; at_roles := at_roles d;
     at_roleColumns := at_roleColumns d; at_projects := at_projects d; at_audits := at_audits d |}.
Definition with_sessions (l : list SessionRow) (d : AccountTables) : AccountTables :=
  {| at_users := at_users d; at_nextUser := at_nextUser d; at_sessions := l;
     at_customers := at_customers d; at_nextCustomer := at_nextCustomer d; at_roles := at_roles d;
     at_roleColumns := at_roleColumns d; at_projects := at_projects d; at_audits := at_audits d |}.
Definition with_customers (l : list CustomerRow) (next : Z) (d : AccountTables) : AccountTables :=
  {| at_users := at_users d; at_nextUser := at_nextUser d; at_sessions := at_sessions d;
     at_customers := l; at_nextCustomer := next; at_roles := at_roles d;
     at_roleColumns := at_roleColumns d; at_projects := at_projects d; at_audits := at_audits d |}.
Definition with_audits (l : list AuditRow) (d : AccountTables) : AccountTables :=
  {| at_users := at_users d; at_nextUser := at_nextUser d; at_sessions := at_sessions d;
     at_customers := at_customers d; at_nextCustomer := at_nextCustomer d; at_roles := at_roles d;
     at_roleColumns := at_roleColumns d; at_projects := at_projects d; at_audits := l |}.

(** ** Statements

    [UPDATE ... WHERE p], with the rows it changes: MySQL does not count a row whose
    new value is its old one.  [DELETE ... WHERE p]. *)
Section Statements.
Context {A : Type} `{EqDecision A}.

Definition update_where (p : A -> bool) (f : A -> A) (l : list A) : list A * Z :=
  (map (fun r => if p r then f r else r) l,
   Z.of_nat (length (List.filter (fun r => p r && bool_decide (f r <> r)) l))).

Definition delete_where (p : A -> bool) (l : list A) : list A * Z :=
  (List.filter (fun r => negb (p r)) l, Z.of_nat (length (List.filter p l))).

Lemma update_where_In p f l r' :
  In r' (fst (update_where p f l)) -> exists r, In r l /\ r' = if p r then f r else r.
Proof. cbn. intros (r & <- & Hr)%in_map_iff. by exists r. Qed.

Lemma update_where_changed p f l r :
  In r l -> p r = true -> f r <> r -> 0 < snd (update_where p f l).
Proof.
  intros Hin Hp Hf. cbn. assert (H : In r (List.filter (fun r => p r && bool_decide (f r <> r)) l)).
  { apply filter_In. split; [done|]. rewrite Hp. by apply bool_decide_eq_true. }
  destruct (List.filter _ l); [done|]. cbn. lia.
Qed.
End Statements.

(** [tokenHash]: SHA-256 in hexadecimal. *)
Definition tokenHash (value : string) : string := hexEncode (sum256 value).
