(* ===== verification/Sessions.v ===== *)
(** * Browser sessions

    internal/browserauth/handler.go and the session methods of
    internal/persistence/mysql/browser_auth.go: login, logout, the current user, the
    header, the sidebar, the capabilities and the switch of the active tenant.

    What [auth.SourceIP] makes of the peer's address is [m_sourceIP]; bcrypt is the
    class [Bcrypt]. *)

From stdpp Require Import sorting pretty.
From S2P Require Import Prelude GoStrings GoTime Sha256 Json Redaction Effects Http RunTables.
From S2P Require Import AccountTables.

(** ** Types of handler.go *)
Record User := {
  u_ID : Z;
  u_TenantID : Z;
  u_ActiveTenantID : Z;
  u_Name : string;
  u_Email : string;
  u_Role : Z;
  u_PasswordHash : string;
  u_Status : string;
  u_ImpersonationReason : option string;
  u_ImpersonationExpiresAt : option time;
}.

Record Session := {
  se_ID : string;
  se_UserID : Z;
  se_TenantID : Z;
  se_CSRFToken : string;
  se_ExpiresAt : time;
}.

Record Project := {
  pj_ID : Z;
  pj_Name : string;
  pj_Description : option string;
  pj_CreatedAt : option time;
  pj_UpdatedAt : option time;
  pj_IDCostumer : Z;
}.

Record Customer := {
  cu_ID : Z;
  cu_Costumer : string;
  cu_Description : option string;
  cu_LicenseExpiration : option time;
  cu_CreatedAt : option time;
  cu_UpdatedAt : option time;
}.

Record TenantSwitch := {
  ts_SessionID : string;
  ts_UserID : Z;
  ts_ActorTenant : Z;
  ts_ActiveTenant : Z;
  ts_Reason : string;
  ts_ExpiresAt : time;
  ts_Now : time;
}.

Record AuditEvent := {
  ae_ActorUserID : Z;
  ae_ActorTenantID : Z;
  ae_ActiveTenantID : Z;
  ae_TargetID : Z;
  ae_SourceIP : string;
  ae_CorrelationID : string;
  ae_BeforeValues : json;
  ae_AfterValues : json;
}.

(** [activeTenant]. *)
Definition activeTenant (u : User) : Z :=
  if 0 <? u_ActiveTenantID u then u_ActiveTenantID u else u_TenantID u.

(** ** The repository *)
Section Repository.
Context `{S : MySQL}.
Notation R := (M AccountTables).

Definition FindByEmail (email : string) : R User :=
  let! row := query "find browser user"
    (fun d => List.find (fun u => same (ur_email u) email) (at_users d)) in
  match row with
  | None => fail ErrNotFound
  | Some u => ret {| u_ID := ur_id u; u_TenantID := ur_idCostumer u; u_ActiveTenantID := 0;
                     u_Name := ur_name u; u_Email := ur_email u; u_Role := ur_role u;
                     u_PasswordHash := ur_password u; u_Status := ur_status u;
                     u_ImpersonationReason := None; u_ImpersonationExpiresAt := None |}
  end.

(** [INSERT INTO go_browser_sessions]: idHash is unique. *)
Definition insert_session (session : Session) (d : AccountTables) : option AccountTables :=
  if existsb (fun s => String.eqb (sr_idHash s) (tokenHash (se_ID session))) (at_sessions d) then None
  else Some (with_sessions (at_sessions d ++
    [{| sr_idHash := tokenHash (se_ID session); sr_csrfTokenHash := tokenHash (se_CSRFToken session);
        sr_userId := se_UserID session; sr_idCostumer := se_TenantID session;
        sr_activeTenantId := None; sr_impersonationReason := None;
        sr_impersonationExpiresAt := None; sr_expiresAt := column_time (se_ExpiresAt session);
        sr_updated_at := None |}])%list d).

Definition Create (session : Session) : R unit :=
  insert_unique "create browser session: create browser session" (insert_session session).

Definition Delete (sessionID : string) : R unit :=
  let! affected := exec_count "delete browser session: delete browser session" (fun d =>
    let '(l, n) := delete_where (fun s => String.eqb (sr_idHash s) (tokenHash sessionID)) (at_sessions d) in
    (with_sessions l d, n)) in
  if affected =? 0 then fail ErrNotFound else ret tt.

(** The row of the join of [Get]: a live session and the active user of its tenant. *)
Definition session_user (sessionID : string) (now : time) (d : AccountTables)
  : option (SessionRow * UserRow) :=
  List.find (fun su => let '(s, u) := su in
      (ur_id u =? sr_userId s) && (ur_idCostumer u =? sr_idCostumer s)
      && String.eqb (sr_idHash s) (tokenHash sessionID) && after (sr_expiresAt s) now
      && same (ur_status u) "active")
    (list_prod (at_sessions d) (at_users d)).

Definition user_of_session (su : SessionRow * UserRow) : User :=
  let '(s, u) := su in
  {| u_ID := ur_id u; u_TenantID := ur_idCostumer u;
     u_ActiveTenantID := default (sr_idCostumer s) (sr_activeTenantId s);
     u_Name := ur_name u; u_Email := ur_email u; u_Role := ur_role u;
     u_PasswordHash := ur_password u; u_Status := ur_status u;
     u_ImpersonationReason := sr_impersonationReason s;
     u_ImpersonationExpiresAt := sr_impersonationExpiresAt s |}.

Definition Get (sessionID : string) (now : time) : R User :=
  let! row := query "load browser session" (session_user sessionID now) in
  match row with
  | None => fail ErrNotFound
  | Some su => ret (user_of_session su)
  end.

(** ORDER BY created_at ASC: NULL comes first. *)
Definition null_first (a b : option time) : bool :=
  match a, b with
  | None, _ => true
  | Some _, None => false
  | Some x, Some y => x <=? y
  end.

Definition order_by {A} (le : A -> A -> bool) (l : list A) : list A :=
  merge_sort (fun x y => Is_true (le x y)) l.

Definition ListProjects (tenantID : Z) : R (list Project) :=
  query "list browser header projects" (fun d =>
    map (fun p => {| pj_ID := pr_id p; pj_Name := pr_name p; pj_Description := pr_description p;
                     pj_CreatedAt := pr_created_at p; pj_UpdatedAt := pr_updated_at p;
                     pj_IDCostumer := pr_idCostumer p |})
      (order_by (fun p q => null_first (pr_created_at p) (pr_created_at q))
        (List.filter (fun p => pr_idCostumer p =? tenantID) (at_projects d)))).

Definition customer_of (c : CustomerRow) : Customer :=
  {| cu_ID := co_id c; cu_Costumer := co_costumer c; cu_Description := co_description c;
     cu_LicenseExpiration := co_licenseExpiration c; cu_CreatedAt := co_created_at c;
     cu_UpdatedAt := co_updated_at c |}.

Definition ListCustomers : R (list Customer) :=
  query "list browser header customers" (fun d =>
    map customer_of (order_by (fun p q => null_first (co_created_at p) (co_created_at q)) (at_customers d))).

Definition CustomerExists (customerID : Z) : R bool :=
  query "lookup browser target customer" (fun d => existsb (fun c => co_id c =? customerID) (at_customers d)).

Definition switch_row (t : TenantSwitch) (s : SessionRow) : SessionRow :=
  {| sr_idHash := sr_idHash s; sr_csrfTokenHash := sr_csrfTokenHash s; sr_userId := sr_userId s;
     sr_idCostumer := sr_idCostumer s; sr_activeTenantId := Some (ts_ActiveTenant t);
     sr_impersonationReason := Some (ts_Reason t);
     sr_impersonationExpiresAt := Some (column_time (ts_ExpiresAt t));
     sr_expiresAt := sr_expiresAt s; sr_updated_at := Some (column_time (ts_Now t)) |}.

Definition SwitchTenant (t : TenantSwitch) : R unit :=
  let! affected := exec_count "switch browser tenant" (fun d =>
    let '(l, n) := update_where
      (fun s => String.eqb (sr_idHash s) (tokenHash (ts_SessionID t)) && (sr_userId s =? ts_UserID t)
                && (sr_idCostumer s =? ts_ActorTenant t) && after (sr_expiresAt s) (ts_Now t))
      (switch_row t) (at_sessions d) in
    (with_sessions l d, n)) in
  if affected =? 0 then fail ErrNotFound else ret tt.

Definition RecordTenantSwitch (event : AuditEvent) : R unit :=
  exec "record tenant switch audit" (fun d => with_audits (at_audits d ++
    [{| ar_actorUserId := ae_ActorUserID event; ar_actorTenantId := ae_ActorTenantID event;
        ar_activeTenantId := ae_ActiveTenantID event; ar_action := "tenant.switch";
        ar_targetType := "costumer"; ar_targetId := pretty (ae_TargetID event);
        ar_beforeValues := Redact (ae_BeforeValues event);
        ar_afterValues := Redact (ae_AfterValues event);
        ar_sourceIp := ae_SourceIP event; ar_correlationId := ae_CorrelationID event |}])%list d).
End Repository.

(** ** Responses *)
Record Cookie := {
  ck_Name : string;
  ck_Value : string;
  ck_MaxAge : Z;
  ck_HttpOnly : bool;
}.

(** Path "/", Secure and SameSite=Lax are on every cookie. *)
Definition sessionCookieName : string := "idelium_session".
Definition csrfCookieName : string := "XSRF-TOKEN".

Definition cookie (name value : string) (maxAge : Z) (httpOnly : bool) : Cookie :=
  {| ck_Name := name; ck_Value := value; ck_MaxAge := maxAge; ck_HttpOnly := httpOnly |}.

Definition expireCookie (name : string) (httpOnly : bool) : Cookie := cookie name "" (-1) httpOnly.

(** [tenantContext]. *)
Record TenantContext := {
  tc_actorUserId : Z;
  tc_actorTenantId : Z;
  tc_activeTenantId : Z;
  tc_impersonating : bool;
  tc_impersonationReason : option string;
  tc_impersonationExpiresAt : option string;
}.

Definition tenantContext (user : User) : TenantContext :=
  {| tc_actorUserId := u_ID user;
     tc_actorTenantId := u_TenantID user;
     tc_activeTenantId := activeTenant user;
     tc_impersonating := negb (activeTenant user =? u_TenantID user);
     tc_impersonationReason := u_ImpersonationReason user;
     tc_impersonationExpiresAt := format_seconds <$> u_ImpersonationExpiresAt user |}.

Record sidebarItem := {
  si_Icon : string;
  si_Name : string;
  si_Link : string;
  si_Class : string;
  si_IsActiveEmptyDB : bool;
}.

Record Identity := { id_ID : Z; id_Name : string; id_Email : string; id_Role : Z }.

Inductive session_payload :=
| SMessage (text : string)
| SErrors (errors : list (string * list string))
| STenantNotFound
| SNotImplemented
| SLogin (user : Identity)
| SIdentity (user : Identity)
| SHeader (projects : list Project) (context : TenantContext) (costumers : option (list Customer))
| SSidebar (items : list sidebarItem)
| SContext (context : TenantContext)
| SCapabilities (version : string) (capabilities : list string)
| SEmpty.

(** A response: the status, the cookies it sets and its body. *)
Record reply_of (P : Type) := Reply { rp_status : Z; rp_cookies : list Cookie; rp_body : P }.
Arguments Reply {P}.
Arguments rp_status {P}.
Arguments rp_cookies {P}.
Arguments rp_body {P}.
Notation sreply := (reply_of session_payload).

Definition written {P} (status : Z) (body : P) : reply_of P := Reply status [] body.
Definition invalidLogin : sreply := written 401 (SMessage "Invalid login details").
Definition unauthorized : sreply := written 401 (SMessage "Unauthenticated.").
Definition forbidden : sreply := written 403 (SMessage "This action is unauthorized.").
Definition internalError : sreply := written 500 (SMessage "The request could not be completed.").
Definition tenantNotFound : sreply := written 404 STenantNotFound.
Definition invalid (field text : string) : sreply := written 422 (SErrors [(field, [text])]).

Definition identity_of (u : User) : Identity :=
  {| id_ID := u_ID u; id_Name := u_Name u; id_Email := u_Email u; id_Role := u_Role u |}.

(** ** Roles *)
Definition capabilitiesForRole (role : Z) : list string :=
  if role =? 1 then
    ["tenant.switch"; "accounts.manage"; "account.role.assign"; "customers.manage"; "api_keys.manage";
     "agents.manage"; "agents.read"; "audit_events.read"; "artifacts.manage"; "artifacts.read";
     "integrations.manage"; "integrations.read"; "identity.manage"; "identity.read"; "projects.manage";
     "projects.read"; "resources.manage"; "resources.read"; "runs.launch"; "profile.manage"]
  else if role =? 2 then
    ["accounts.manage"; "account.role.assign"; "api_keys.manage"; "agents.manage"; "agents.read";
     "audit_events.read"; "artifacts.manage"; "artifacts.read"; "integrations.manage";
     "integrations.read"; "identity.manage"; "identity.read"; "projects.manage"; "resources.manage";
     "resources.read"; "runs.launch"; "profile.manage"]
  else if role =? 3 then
    ["artifacts.read"; "agents.read"; "integrations.read"; "identity.read"; "projects.read";
     "resources.read"; "runs.launch"; "profile.manage"]
  else [].

Definition item (icon name link class : string) (emptyDB : bool) : sidebarItem :=
  {| si_Icon := icon; si_Name := name; si_Link := link; si_Class := class; si_IsActiveEmptyDB := emptyDB |}.

Definition sidebarForRole (role : Z) : list sidebarItem :=
  [item "vials" "testsperformed" "testsperformed" "" false;
   item "rocket" "testlauncher" "testlauncher" "" false;
   item "sync" "testcycles" "testcycles" "" false;
   item "vial" "tests" "tests" "" false;
   item "shoe-prints" "steps" "steps" "fa-rotate-270" false;
   item "plug" "plugins" "plugins" "" false;
   item "leaf" "environments" "environments" "" false;
   item "project-diagram" "projects" "projects" "" true] ++
  (if role <? 3 then
     [item "users" "account" "account" "" true; item "key" "apikey" "apikey" "" true]
   else []) ++
  (if role =? 1 then
     [item "building" "costumers" "costumers" "" true; item "laptop" "platforms" "platforms" "" true]
   else []).

(** [parseFutureTime]. *)
Definition parseFutureTime (value : string) (now : time) : option time :=
  parsed ← match parseRFC3339 value with Some t => Some t | None => parseDateTime value end;
  if after parsed now then Some parsed else None.

(** ** Bodies *)
Record login_body := { lb_Email : string; lb_Password : string }.

Definition login_fields : list (string * setter login_body) :=
  [("email", to_string (fun s b => {| lb_Email := s; lb_Password := lb_Password b |}));
   ("password", to_string (fun s b => {| lb_Email := lb_Email b; lb_Password := s |}));
   ("token", fun v b => match fl_value v with JStr _ | JNull => Some b | _ => None end)].

Record switch_body := { sb_Reason : string; sb_ExpiresAt : string }.

Definition switch_fields : list (string * setter switch_body) :=
  [("reason", to_string (fun s b => {| sb_Reason := s; sb_ExpiresAt := sb_ExpiresAt b |}));
   ("expiresAt", to_string (fun s b => {| sb_Reason := sb_Reason b; sb_ExpiresAt := s |}))].

Definition blank (s : string) : bool := String.eqb (trimSpace s) "".

(** ** The handlers *)
Section Handlers.
Context `{S : MySQL} `{B : Bcrypt} (now : time) (sourceIP : string).
Notation H := (M AccountTables sreply).

(** [randomToken]: 32 bytes in hexadecimal, [None] when the source fails. *)
Definition randomToken : M AccountTables (option string) :=
  let! b := rand_read 32 in ret (hexEncode <$> b).

(** [correlationID]. *)
Definition correlationID (r : Request) : M AccountTables string :=
  let value := header r "X-Correlation-ID" in
  if negb (String.eqb value "") then ret value
  else
    let! token := randomToken in
    ret (match token with
         | None => "00000000-0000-4000-8000-000000000000"
         | Some t => String.substring 0 8 t +:+ "-" +:+ String.substring 8 4 t +:+ "-4" +:+ String.substring 13 3 t
                     +:+ "-8" +:+ String.substring 17 3 t +:+ "-" +:+ String.substring 20 12 t
         end).

(** [authenticatedSession]: the user and the session, or the response written. *)
Definition authenticatedSession (r : Request) : M AccountTables (sreply + (User * string)) :=
  match rq_cookie r with
  | None => ret (inl unauthorized)
  | Some value =>
      if String.eqb value "" then ret (inl unauthorized)
      else
        let! user := attempt (Get value now) in
        ret (match user with
             | Ok u => inr (u, value)
             | Err ErrNotFound =>
                 inl (Reply 401 [expireCookie sessionCookieName true; expireCookie csrfCookieName false]
                        (rp_body unauthorized))
             | Err _ => inl internalError
             end)
  end.

Definition with_session (r : Request) (k : User -> string -> H) : H :=
  let! s := authenticatedSession r in
  match s with inl response => ret response | inr (u, id) => k u id end.

Definition CSRF : H :=
  let! token := randomToken in
  ret (match token with
       | None => internalError
       | Some t => Reply 204 [cookie csrfCookieName t 7200 false] SEmpty
       end).

Definition LaunchTest : sreply := written 501 SNotImplemented.

(** [Login]. *)
Definition Login (r : Request) : H :=
  match decode true login_fields {| lb_Email := ""; lb_Password := "" |} (rq_body r) with
  | Decoded input =>
      if blank (lb_Email input) || String.eqb (lb_Password input) "" then ret invalidLogin
      else
        let! found := attempt (FindByEmail (trimSpace (lb_Email input))) in
        match found with
        | Err _ => ret invalidLogin
        | Ok user =>
            if negb (String.eqb (u_Status user) "active")
               || negb (bcrypt_compare (u_PasswordHash user) (lb_Password input))
            then ret invalidLogin
            else
              let! sessionID := randomToken in
              match sessionID with
              | None => ret internalError
              | Some sessionID =>
                  let! csrfToken := randomToken in
                  match csrfToken with
                  | None => ret internalError
                  | Some csrfToken =>
                      let! created := attempt (Create
                        {| se_ID := sessionID; se_UserID := u_ID user; se_TenantID := u_TenantID user;
                           se_CSRFToken := csrfToken; se_ExpiresAt := now + 120 * minute |}) in
                      ret (match created with
                           | Err _ => internalError
                           | Ok _ =>
                               Reply 200 [cookie sessionCookieName sessionID 7200 true;
                                          cookie csrfCookieName csrfToken 7200 false]
                                     (SLogin (identity_of user))
                           end)
                  end
              end
        end
  | _ => ret invalidLogin
  end.

(** [Logout]. *)
Definition Logout (r : Request) : H :=
  match rq_cookie r with
  | None => ret unauthorized
  | Some value =>
      if String.eqb value "" then ret unauthorized
      else
        let! deleted := attempt (Delete value) in
        ret (match deleted with
             | Ok _ | Err ErrNotFound =>
                 Reply 204 [expireCookie sessionCookieName true; expireCookie csrfCookieName false] SEmpty
             | Err _ => internalError
             end)
  end.

Definition CurrentUser (r : Request) : H :=
  with_session r (fun user _ => ret (written 200 (SIdentity (identity_of user)))).

Definition Header (r : Request) : H :=
  with_session r (fun user _ =>
    let! projects := attempt (ListProjects (activeTenant user)) in
    match projects with
    | Err _ => ret internalError
    | Ok projects =>
        if u_Role user =? 1 then
          let! customers := attempt ListCustomers in
          ret (match customers with
               | Err _ => internalError
               | Ok l => written 200 (SHeader projects (tenantContext user) (Some l))
               end)
        else ret (written 200 (SHeader projects (tenantContext user) None))
    end).

Definition Sidebar (r : Request) : H :=
  with_session r (fun user _ => ret (written 200 (SSidebar (sidebarForRole (u_Role user))))).

Definition Capabilities (r : Request) : H :=
  with_session r (fun user _ =>
    ret (written 200 (SCapabilities "2026-07-28" (capabilitiesForRole (u_Role user))))).

(** The user a successful switch answers with. *)
Definition switched (user : User) (target : Z) (reason : string) (expiresAt : time) : User :=
  {| u_ID := u_ID user; u_TenantID := u_TenantID user; u_ActiveTenantID := target;
     u_Name := u_Name user; u_Email := u_Email user; u_Role := u_Role user;
     u_PasswordHash := u_PasswordHash user; u_Status := u_Status user;
     u_ImpersonationReason := Some reason; u_ImpersonationExpiresAt := Some expiresAt |}.

(** [ChangeCustomer]. *)
Definition ChangeCustomer (r : Request) : H :=
  with_session r (fun user sessionID =>
    if negb (u_Role user =? 1) then ret forbidden
    else match parsePathID (pathValue r "idCostumer") with
    | None => ret tenantNotFound
    | Some target =>
        match decode true switch_fields {| sb_Reason := ""; sb_ExpiresAt := "" |} (rq_body r) with
        | Decoded input =>
            let reason := if blank (sb_Reason input) then "customer-switch" else sb_Reason input in
            let expires := if blank (sb_ExpiresAt input) then format_seconds (now + hour)
                           else sb_ExpiresAt input in
            match parseFutureTime expires now with
            | None => ret (invalid "expiresAt" "The expires at must be a date after now.")
            | Some expiresAt =>
                let! exists_ := attempt (CustomerExists target) in
                match exists_ with
                | Err _ => ret internalError
                | Ok false => ret tenantNotFound
                | Ok true =>
                    let reason := trimSpace reason in
                    let! switch := attempt (SwitchTenant
                      {| ts_SessionID := sessionID; ts_UserID := u_ID user;
                         ts_ActorTenant := u_TenantID user; ts_ActiveTenant := target;
                         ts_Reason := reason; ts_ExpiresAt := expiresAt; ts_Now := now |}) in
                    match switch with
                    | Err _ => ret internalError
                    | Ok _ =>
                        let! correlation := correlationID r in
                        let! recorded := attempt (RecordTenantSwitch
                          {| ae_ActorUserID := u_ID user; ae_ActorTenantID := u_TenantID user;
                             ae_ActiveTenantID := target; ae_TargetID := target;
                             ae_SourceIP := sourceIP; ae_CorrelationID := correlation;
                             ae_BeforeValues := JObj [("activeTenantId", jint (activeTenant user))];
                             ae_AfterValues :=
                               JObj [("activeTenantId", jint target); ("expiresAt", JStr expires);
                                     ("reason", JStr reason); ("sessionToken", JStr "[REDACTED]")] |}) in
                        ret (match recorded with
                             | Err _ => internalError
                             | Ok _ => written 200 (SContext (tenantContext
                                 (switched user target reason expiresAt)))
                             end)
                    end
                end
            end
        | _ => ret (invalid "reason" "The reason field is required.")
        end
    end).

(** [AuthenticateRequest], which other packages use. *)
Definition AuthenticateRequest (r : Request) : M AccountTables (option User) :=
  match rq_cookie r with
  | None => ret None
  | Some value =>
      if String.eqb value "" then ret None
      else
        let! user := attempt (Get value now) in
        ret (match user with
             | Ok u => if String.eqb (u_Status u) "active" then Some u else None
             | Err _ => None
             end)
  end.
End Handlers.
