(* ===== verification/SessionTheorems.v ===== *)
(** * Sessions: login, logout and the switch of the active tenant *)

From S2P Require Import Prelude GoStrings GoTime Sha256 Json Redaction Effects Http Contracts RunTables.
From S2P Require Import RunTheorems AccountTables Sessions.

(** ** The lookup of a session *)
Record sessions_ok (d : AccountTables) : Prop := {
  so_users : List.NoDup (map ur_id (at_users d));
  so_hashes : List.NoDup (map sr_idHash (at_sessions d));
}.

Lemma keyed_unique {A K} (key : A -> K) (l : list A) x y :
  List.NoDup (map key l) -> In x l -> In y l -> key x = key y -> x = y.
Proof.
  induction l as [|z l IH]; [done|]. cbn. intros N [->|Hx] [->|Hy] E; [done|exfalso..|].
  - inversion N; subst. rewrite E in *. by apply H1, in_map.
  - inversion N; subst. rewrite <- E in *. by apply H1, in_map.
  - inversion N; subst. by apply IH.
Qed.

Section Theorems.
Context `{S : MySQL} `{L : !MySQLLaws S} `{B : Bcrypt}.
Implicit Types d : AccountTables.

(** The condition of the join in [Get]. *)
Definition live (sessionID : string) (now : time) (s : SessionRow) (u : UserRow) : Prop :=
  ur_id u = sr_userId s /\ ur_idCostumer u = sr_idCostumer s
  /\ sr_idHash s = tokenHash sessionID /\ now < sr_expiresAt s /\ same (ur_status u) "active" = true.

Lemma session_user_spec sessionID now d s u :
  session_user sessionID now d = Some (s, u) ->
  In s (at_sessions d) /\ In u (at_users d) /\ live sessionID now s u.
Proof.
  unfold session_user. intros [Hin H]%find_some. apply in_prod_iff in Hin as [Hs Hu].
  rewrite !andb_true_iff, !Z.eqb_eq, String.eqb_eq in H. unfold after, live in *.
  rewrite Z.ltb_lt in H. naive_solver.
Qed.

Lemma session_user_complete sessionID now d s u :
  sessions_ok d -> In s (at_sessions d) -> In u (at_users d) -> live sessionID now s u ->
  session_user sessionID now d = Some (s, u).
Proof.
  intros [U K] Hs Hu (H1 & H2 & H3 & H4 & H5).
  destruct (session_user sessionID now d) as [[s' u']|] eqn:E.
  - apply session_user_spec in E as (Hs' & Hu' & (G1 & G2 & G3 & G4 & G5)).
    assert (s' = s) as -> by (apply (keyed_unique sr_idHash (at_sessions d)); auto; congruence).
    f_equal. f_equal. apply (keyed_unique ur_id (at_users d)); auto. congruence.
  - exfalso. unfold session_user in E.
    pose proof (find_none _ _ E (s, u)) as N. rewrite in_prod_iff in N. specialize (N (conj Hs Hu)).
    cbv beta iota in N. apply Z.eqb_eq in H1, H2. apply String.eqb_eq in H3. apply Z.ltb_lt in H4.
    unfold after in N. by rewrite H1, H2, H3, H4, H5 in N.
Qed.

Lemma session_user_none sessionID now d :
  (forall s, In s (at_sessions d) -> sr_idHash s = tokenHash sessionID -> sr_expiresAt s <= now) ->
  session_user sessionID now d = None.
Proof.
  intros H. destruct (session_user sessionID now d) as [[s u]|] eqn:E; [exfalso|done].
  apply session_user_spec in E as (Hs & _ & _ & _ & Hh & He & _). specialize (H s Hs Hh). lia.
Qed.

(** ** Login *)
Lemma wp_FindByEmail d email (Q : outcome User -> AccountTables -> Prop) :
  (forall row, In row (at_users d) -> same (ur_email row) email = true ->
     Q (Ok {| u_ID := ur_id row; u_TenantID := ur_idCostumer row; u_ActiveTenantID := 0;
              u_Name := ur_name row; u_Email := ur_email row; u_Role := ur_role row;
              u_PasswordHash := ur_password row; u_Status := ur_status row;
              u_ImpersonationReason := None; u_ImpersonationExpiresAt := None |}) d) ->
  (forall e, (forall s, e <> Panic s) -> Q (Err e) d) ->
  wp d (FindByEmail email) Q.
Proof.
  intros H K. unfold FindByEmail. repeat wp_step; try by apply K.
  apply find_some in Heqo as [Hr Hs]. by apply H.
Qed.

Lemma insert_session_spec session d d' :
  insert_session session d = Some d' ->
  exists s, d' = with_sessions (at_sessions d ++ [s]) d
    /\ sr_idHash s = tokenHash (se_ID session) /\ sr_userId s = se_UserID session
    /\ sr_idCostumer s = se_TenantID session /\ sr_activeTenantId s = None
    /\ sr_expiresAt s = column_time (se_ExpiresAt session)
    /\ sr_csrfTokenHash s = tokenHash (se_CSRFToken session)
    /\ forall s', In s' (at_sessions d) -> sr_idHash s' <> tokenHash (se_ID session).
Proof.
  unfold insert_session. destruct (existsb _ _) eqn:E; [done|]. intros [= <-].
  eexists. split; [done|]. cbn. split_and!; [done..|].
  intros s' Hs' Heq. assert (existsb (fun s => String.eqb (sr_idHash s) (tokenHash (se_ID session)))
    (at_sessions d) = true); [|congruence].
  apply existsb_exists. exists s'. split; [done|]. by apply String.eqb_eq.
Qed.

Lemma wp_randomToken d (Q : outcome (option string) -> AccountTables -> Prop) :
  (forall token, Q (Ok token) d) -> wp d randomToken Q.
Proof. intros H. unfold randomToken. repeat wp_step; apply H. Qed.

(** What a login that answers 200 did. *)
Definition logged_in (now : time) d (r : Request) (reply : sreply) d' : Prop :=
  exists input row session s,
    decode true login_fields {| lb_Email := ""; lb_Password := "" |} (rq_body r) = Decoded input
    /\ In row (at_users d) /\ same (ur_email row) (trimSpace (lb_Email input)) = true
    /\ ur_status row = "active" /\ bcrypt_compare (ur_password row) (lb_Password input) = true
    /\ se_UserID session = ur_id row /\ se_TenantID session = ur_idCostumer row
    /\ se_ExpiresAt session = now + 120 * minute
    /\ insert_session session d = Some d'
    /\ d' = with_sessions (at_sessions d ++ [s]) d
    /\ rp_cookies reply = [cookie sessionCookieName (se_ID session) 7200 true;
                           cookie csrfCookieName (se_CSRFToken session) 7200 false].

Lemma wp_Login d now r :
  wp d (Login now r) (fun res d' =>
    (d' = d /\ forall reply, res = Ok reply -> rp_status reply <> 200) \/ exists reply, res = Ok reply /\ rp_status reply = 200 /\ logged_in now d r reply d').
Proof.
  assert (Hno : forall reply : sreply, rp_status reply <> 200 ->
    wp d (ret reply) (fun res d' =>
      (d' = d /\ forall reply, res = Ok reply -> rp_status reply <> 200) \/ exists reply,
        res = Ok reply /\ rp_status reply = 200 /\ logged_in now d r reply d')).
  { intros reply Hr. apply wp_ret. left. split; [done|]. by intros ? [= <-]. }
  unfold Login. destruct (decode _ _ _ _) as [input| |] eqn:D; try (by apply Hno).
  destruct (Sessions.blank _ || _); [by apply Hno|].
  apply wp_bind, wp_attempt, wp_FindByEmail; cycle 1.
  { intros [] He; try (by apply Hno). by left. }
  intros row Hrow Hs. cbn [u_Status u_PasswordHash].
  destruct (negb _ || _) eqn:G; [by apply Hno|].
  apply orb_false_iff in G as [G1%negb_false_iff%String.eqb_eq G2%negb_false_iff].
  apply wp_bind, wp_randomToken. intros [sessionID|]; [|by apply Hno].
  apply wp_bind, wp_randomToken. intros [csrfToken|]; [|by apply Hno].
  apply wp_bind, wp_attempt. unfold Create. apply wp_insert_unique; [|intros m; by apply Hno].
  intros d' H. apply wp_ret. right. eexists. split; [reflexivity|]. split; [reflexivity|].
  destruct (insert_session_spec _ _ _ H) as (s & E & _).
  eexists input, row, _, s. split_and!; [exact D|done|done|done|done|..|exact H|exact E|]; done.
Qed.

(** ** Logout *)
Lemma wp_Logout d r :
  wp d (Logout r) (fun res d' =>
    (d' = d /\ exists reply, res = Ok reply /\ (rp_status reply = 401 \/ rp_status reply = 500))
    \/ exists c reply, rq_cookie r = Some c /\ res = Ok reply /\ rp_status reply = 204
       /\ d' = with_sessions (List.filter (fun s => negb (String.eqb (sr_idHash s) (tokenHash c)))
                                 (at_sessions d)) d).
Proof.
  unfold Logout, Delete. destruct (rq_cookie r) as [c|]; [|apply wp_ret; left; eauto].
  destruct (String.eqb c ""); [apply wp_ret; left; eauto|].
  repeat wp_step; cbn [fst snd].
  - right. by eexists c, _.
  - right. by eexists c, _.
  - left. eauto.
Qed.

Lemma wp_apply {A} (m : M AccountTables A) (w : world AccountTables) Q r w' :
  wp (w_db w) m Q -> m w = (r, w') -> Q r (w_db w').
Proof. intros H E. specialize (H w eq_refl). by rewrite E in H. Qed.

Lemma logout_closes r c (w w' : world AccountTables) reply t :
  rq_cookie r = Some c -> Logout r w = (Ok reply, w') -> rp_status reply = 204 ->
  session_user c t (w_db w') = None.
Proof.
  intros Hc H Hs. apply (wp_apply _ _ _ _ _ (wp_Logout (w_db w) r)) in H.
  destruct H as [(_ & r' & [= <-] & [E|E])|(c' & r' & Hc' & _ & _ & ->)]; [congruence..|].
  assert (c' = c) as -> by congruence. apply session_user_none. cbn. intros s Hin Hh.
  apply filter_In in Hin as [_ Hn%negb_true_iff%String.eqb_neq]. by rewrite Hh in Hn.
Qed.

(** Claim C8: the life of a session.  A login that answers 200 checked the password
    of an active user; the cookie it sets authenticates that user, with the user's
    own tenant as the active one, for 120 minutes and not longer (up to the precision
    of the column), and no longer than until a logout that answers 204.  What the
    table keeps of the cookie and of the CSRF token is their hash. *)
Theorem session_lifecycle (now : time) (r : Request) (w w' : world AccountTables) (reply : sreply) :
  sessions_ok (w_db w) -> Login now r w = (Ok reply, w') -> rp_status reply = 200 ->
  exists input row s sessionID token,
    decode true login_fields {| lb_Email := ""; lb_Password := "" |} (rq_body r) = Decoded input
    /\ In row (at_users (w_db w)) /\ same (ur_email row) (trimSpace (lb_Email input)) = true
    /\ ur_status row = "active" /\ bcrypt_compare (ur_password row) (lb_Password input) = true
    /\ rp_cookies reply = [cookie sessionCookieName sessionID 7200 true;
                           cookie csrfCookieName token 7200 false]
    /\ at_sessions (w_db w') = (at_sessions (w_db w) ++ [s])%list
    /\ sr_idHash s = tokenHash sessionID /\ sr_csrfTokenHash s = tokenHash token
    /\ (forall t, t + second < now + 120 * minute ->
          session_user sessionID t (w_db w') = Some (s, row)
          /\ activeTenant (user_of_session (s, row)) = ur_idCostumer row)
    /\ (forall t, now + 120 * minute + second <= t -> session_user sessionID t (w_db w') = None)
    /\ (forall r' w1 w2 reply' t, rq_cookie r' = Some sessionID -> w_db w1 = w_db w' ->
          Logout r' w1 = (Ok reply', w2) -> rp_status reply' = 204 ->
          session_user sessionID t (w_db w2) = None).
Proof.
  intros [U K] H Hs. apply (wp_apply _ _ _ _ _ (wp_Login (w_db w) now r)) in H as X.
  destruct X as [E|(reply' & [= <-] & _ & input & row & session & s & D & Hr & He & Ha & Hp & H1 & H2 & H3 & I & E & Hck)].
  { exfalso. by apply (proj2 E reply). }
  exists input, row, s, (se_ID session), (se_CSRFToken session).
  destruct (insert_session_spec _ _ _ I) as (s' & E' & S1 & S2 & S3 & S4 & S5 & S6 & S7).
  assert (s' = s) as ->.
  { rewrite E in E'. injection E' as E'. by apply app_inj_tail in E' as [_ ->]. }
  destruct (column_time_close (se_ExpiresAt session)) as [C1 C2].
  assert (O : sessions_ok (w_db w')).
  { rewrite E. split; [done|]. cbn. rewrite map_app. apply NoDup_ListNoDup, NoDup_app.
    split_and!; [by apply NoDup_ListNoDup| |apply NoDup_singleton].
    intros h Hh%list_elem_of_In Hh'%list_elem_of_In. cbn in Hh'. destruct Hh' as [<-|[]].
    apply in_map_iff in Hh as (s' & Eh & Hs'). apply (S7 s' Hs'). congruence. }
  rewrite H3 in *. split_and!; try done.
  - by rewrite E.
  - intros t Ht. split.
    + apply session_user_complete; [done|rewrite E; cbn; apply in_app_iff; right; by left|by rewrite E|].
      unfold live. rewrite S1, S2, S3, S5, Ha, H1, H2. split_and!; try done; [lia|apply same_refl].
    + unfold activeTenant, user_of_session. cbn. rewrite S4, S3, H2. cbn. by case_match.
  - intros t Ht. apply session_user_none. rewrite E. cbn. intros s' [Hs'|[<-|[]]]%in_app_iff Hh.
    + by apply S7 in Hs'.
    + rewrite S5. lia.
  - intros r' w1 w2 reply' t Hc _ HL H204. by eapply logout_closes.
Qed.

(** ** The switch of the active tenant *)

(** The rows a switch applies to. *)
Definition switches (t : TenantSwitch) (s : SessionRow) : bool :=
  String.eqb (sr_idHash s) (tokenHash (ts_SessionID t)) && (sr_userId s =? ts_UserID t)
  && (sr_idCostumer s =? ts_ActorTenant t) && after (sr_expiresAt s) (ts_Now t).

(** A switch that its guards let through. *)
Definition allowed_switch (now : time) (r : Request) d (t : TenantSwitch) : Prop :=
  exists su, rq_cookie r = Some (ts_SessionID t) /\ session_user (ts_SessionID t) now d = Some su
    /\ u_Role (user_of_session su) = 1
    /\ ts_UserID t = u_ID (user_of_session su) /\ ts_ActorTenant t = u_TenantID (user_of_session su)
    /\ parsePathID (pathValue r "idCostumer") = Some (ts_ActiveTenant t)
    /\ In (ts_ActiveTenant t) (map co_id (at_customers d))
    /\ ts_Reason t <> "" /\ now < ts_ExpiresAt t /\ ts_Now t = now.

Definition after_switch (t : TenantSwitch) d (audits : list AuditRow) : AccountTables :=
  with_audits (at_audits d ++ audits)
    (with_sessions (map (fun s => if switches t s then switch_row t s else s) (at_sessions d)) d).

(** The expiry the audit shows: that of the body, or an hour from now. *)
Definition requested_expiry (now : time) (r : Request) : string :=
  match decode true switch_fields {| sb_Reason := ""; sb_ExpiresAt := "" |} (rq_body r) with
  | Decoded input => if Sessions.blank (sb_ExpiresAt input) then format_seconds (now + hour)
                     else sb_ExpiresAt input
  | _ => ""
  end.

Definition switch_audited (t : TenantSwitch) (expires : string) (audits : list AuditRow) : Prop :=
  exists audit, audits = [audit] /\ ar_action audit = "tenant.switch"
    /\ ar_actorUserId audit = ts_UserID t /\ ar_actorTenantId audit = ts_ActorTenant t
    /\ ar_activeTenantId audit = ts_ActiveTenant t
    /\ ar_afterValues audit = Redact (JObj
         [("activeTenantId", jint (ts_ActiveTenant t)); ("expiresAt", JStr expires);
          ("reason", JStr (ts_Reason t)); ("sessionToken", JStr "[REDACTED]")]).

(** What a request to switch may do. *)
Definition switch_effect (now : time) (r : Request) d (res : outcome sreply) d' : Prop :=
  (d' = d /\ forall reply, res = Ok reply -> rp_status reply <> 200)
  \/ exists t audits, allowed_switch now r d t /\ d' = after_switch t d audits
     /\ forall reply, res = Ok reply -> rp_status reply = 200 ->
          switch_audited t (requested_expiry now r) audits.

Lemma switch_refused now r d (reply : sreply) :
  rp_status reply <> 200 -> wp d (ret reply) (switch_effect now r d).
Proof. intros Hr. apply wp_ret. left. split; [done|]. by intros ? [= <-]. Qed.

Lemma switch_unfinished now r d t d1 (reply : sreply) :
  allowed_switch now r d t -> d1 = after_switch t d [] -> rp_status reply <> 200 ->
  wp d1 (ret reply) (switch_effect now r d).
Proof. intros A -> Hr. apply wp_ret. right. exists t, []. split_and!; [done..|]. by intros ? [= <-]. Qed.

Lemma parseFutureTime_after value now t : parseFutureTime value now = Some t -> now < t.
Proof.
  unfold parseFutureTime, after. intros H.
  destruct (parseRFC3339 value) as [x|]; [|destruct (parseDateTime value) as [x|]]; cbn in H; try done.
  all: destruct (now <? x) eqn:E; [|done]; injection H as <-; by apply Z.ltb_lt.
Qed.

(** The last two steps: the statement on the session, then the audit. *)
Lemma wp_switch now r d t (k : string -> AuditEvent) (reply : sreply) :
  allowed_switch now r d t ->
  (forall c, ae_ActorUserID (k c) = ts_UserID t /\ ae_ActorTenantID (k c) = ts_ActorTenant t
     /\ ae_ActiveTenantID (k c) = ts_ActiveTenant t
     /\ ae_AfterValues (k c) = JObj
         [("activeTenantId", jint (ts_ActiveTenant t)); ("expiresAt", JStr (requested_expiry now r));
          ("reason", JStr (ts_Reason t)); ("sessionToken", JStr "[REDACTED]")]) ->
  wp d
    (let! switch := attempt (SwitchTenant t) in
     match switch with
     | Err _ => ret internalError
     | Ok _ =>
         let! correlation := correlationID r in
         let! recorded := attempt (RecordTenantSwitch (k correlation)) in
         ret (match recorded with Err _ => internalError | Ok _ => reply end)
     end) (switch_effect now r d).
Proof.
  intros A Hk. unfold SwitchTenant.
  apply wp_bind, wp_attempt, wp_bind, wp_exec_count; [|intros m; by apply switch_refused].
  cbn [update_where fst snd]. set (d1 := with_sessions _ d).
  assert (E1 : d1 = after_switch t d []).
  { unfold after_switch, with_audits. cbn. by rewrite app_nil_r. }
  destruct (_ =? 0); [apply wp_fail; by eapply switch_unfinished|]. apply wp_ret, wp_bind.
  assert (Hrec : forall c, wp d1 (let! recorded := attempt (RecordTenantSwitch (k c)) in
    ret (match recorded with Err _ => internalError | Ok _ => reply end)) (switch_effect now r d)).
  { intros c. unfold RecordTenantSwitch. destruct (Hk c) as (K1 & K2 & K3 & K4).
    apply wp_bind, wp_attempt, wp_exec; [|intros m; by eapply switch_unfinished].
    apply wp_ret. right. eexists t, [_]. split_and!; [done|reflexivity|].
    intros ? _ _. eexists. split_and!; [done|done|exact K1|exact K2|exact K3|by rewrite <- K4]. }
  unfold correlationID. destruct (negb _); [by apply wp_ret, Hrec|].
  apply wp_bind, wp_randomToken. intros token. apply wp_ret, Hrec.
Qed.

Lemma wp_ChangeCustomer d now sourceIP r :
  wp d (ChangeCustomer now sourceIP r) (switch_effect now r d).
Proof.
  unfold ChangeCustomer, with_session, authenticatedSession, Get.
  destruct (rq_cookie r) as [c|] eqn:Hc; [|by apply wp_bind, wp_ret, switch_refused].
  destruct (String.eqb c ""); [by apply wp_bind, wp_ret, switch_refused|].
  apply wp_bind, wp_bind, wp_attempt, wp_bind, wp_query; [|intros m; by apply wp_ret, switch_refused].
  destruct (session_user c now d) as [su|] eqn:Hsu; [|by apply wp_fail, wp_ret, switch_refused].
  apply wp_ret, wp_ret. destruct (Z.eqb_spec (u_Role (user_of_session su)) 1) as [Hrole|];
    [|by apply switch_refused]. cbn [negb].
  destruct (parsePathID _) as [target|] eqn:Hp; [|by apply switch_refused].
  destruct (decode _ _ _ _) as [input| |] eqn:Hd; try (by apply switch_refused). cbv zeta.
  assert (Hx : requested_expiry now r = if Sessions.blank (sb_ExpiresAt input)
    then format_seconds (now + hour) else sb_ExpiresAt input) by (unfold requested_expiry; by rewrite Hd).
  rewrite <- Hx. destruct (parseFutureTime _ now) as [expiresAt|] eqn:Hf; [|by apply switch_refused].
  apply wp_bind, wp_attempt. unfold CustomerExists. apply wp_query; [|intros m; by apply switch_refused].
  destruct (existsb _ _) eqn:Hex; [|by apply switch_refused].
  apply wp_switch; [|by intros].
  exists su. split_and!; try done.
  - apply existsb_exists in Hex as (row & Hrow & E%Z.eqb_eq). apply in_map_iff. by exists row.
  - cbn. unfold Sessions.blank. destruct (String.eqb_spec (trimSpace (sb_Reason input)) ""); done.
  - by eapply parseFutureTime_after.
Qed.

(** the active tenant changes under guard.  Whatever a request to switch
    contains, users and customers stay as they are, and so do the sessions unless
    the request carries the live session of a user with role 1, names an existing
    customer, and asks for an expiry after now.  Then only the row of that session
    changes, in its active tenant and its impersonation, never in its user, its own
    tenant or its end; and an answer of 200 comes with one audit row, redacted, that
    names the actor, the actor's tenant and the target. *)
Theorem tenant_switch_guarded (now : time) (sourceIP : string) (r : Request)
    (w : world AccountTables) :
  let d := w_db w in
  let d' := w_db (snd (ChangeCustomer now sourceIP r w)) in
  at_users d' = at_users d /\ at_customers d' = at_customers d
  /\ (at_sessions d' = at_sessions d
      \/ exists t, allowed_switch now r d t
         /\ Forall2 (fun s s' => s' = s \/ sr_idHash s = tokenHash (ts_SessionID t) /\ s' = switch_row t s)
              (at_sessions d) (at_sessions d'))
  /\ (forall reply, fst (ChangeCustomer now sourceIP r w) = Ok reply -> rp_status reply = 200 ->
        exists t audits, allowed_switch now r d t
          /\ at_audits d' = (at_audits d ++ audits)%list
          /\ switch_audited t (requested_expiry now r) audits).
Proof.
  cbv zeta. destruct (wp_ChangeCustomer (w_db w) now sourceIP r w eq_refl)
    as [[-> H]|(t & audits & A & -> & H)].
  - split_and!; [done..|by left|]. intros reply E Hr. by apply H in E.
  - cbn [at_users at_customers at_sessions at_audits after_switch with_audits with_sessions].
    split_and!; [done..| |].
    + right. exists t. split; [done|]. apply Forall2_map_self. intros s.
      destruct (switches t s) eqn:E; [right|by left]. split; [|done].
      unfold switches in E. rewrite !andb_true_iff in E. by apply String.eqb_eq, E.
    + intros reply E Hr. exists t, audits. split_and!; [done..|]. by apply (H reply).
Qed.

(** The expiry of an impersonation is recorded and shown, and nothing enforces it:
    after a switch, the session acts for the target tenant until the session itself
    ends, also when the expiry has passed. *)
Theorem switch_outlives_its_expiry (t : TenantSwitch) (s : SessionRow) (u : UserRow) (later : time)
    (d : AccountTables) (audits : list AuditRow) :
  sessions_ok d -> session_user (ts_SessionID t) (ts_Now t) d = Some (s, u) ->
  ts_UserID t = ur_id u -> ts_ActorTenant t = ur_idCostumer u -> 0 < ts_ActiveTenant t ->
  ts_ExpiresAt t <= later < sr_expiresAt s ->
  exists actor, user_of_session <$> session_user (ts_SessionID t) later (after_switch t d audits) = Some actor
    /\ activeTenant actor = ts_ActiveTenant t
    /\ u_ImpersonationExpiresAt actor = Some (column_time (ts_ExpiresAt t)).
Proof.
  intros [U K] E Hu Ht Hp Hl. apply session_user_spec in E as (Hs & Hin & (L1 & L2 & L3 & L4 & L5)).
  assert (W : switches t s = true).
  { unfold switches, after. rewrite L3, String.eqb_refl, Hu, Ht, L1, L2, !Z.eqb_refl.
    by apply Z.ltb_lt. }
  assert (F : session_user (ts_SessionID t) later (after_switch t d audits) = Some (switch_row t s, u)).
  { apply session_user_complete.
    - split; [done|]. cbn. rewrite map_map. rewrite (map_ext _ sr_idHash); [done|].
      intros x. by destruct (switches t x).
    - cbn. apply in_map_iff. exists s. by rewrite W.
    - done.
    - unfold live. cbn. split_and!; [done..|lia|done]. }
  rewrite F. eexists. split; [reflexivity|]. unfold activeTenant. cbn.
  by destruct (Z.ltb_spec 0 (ts_ActiveTenant t)); [|lia].
Qed.
End Theorems.

(** ** A concrete installation *)
Definition sample_user (id role tenant : Z) (email : string) : UserRow :=
  {| ur_id := id; ur_name := "n"; ur_email := email; ur_password := "$2a$Secret-pass-1"; ur_role := role;
     ur_idCostumer := tenant; ur_status := "active"; ur_created_at := None; ur_updated_at := None |}.

Definition sample_customer (id : Z) : CustomerRow :=
  {| co_id := id; co_costumer := "C"; co_description := None; co_licenseExpiration := None;
     co_apiKey := None; co_apiKeyCreatedAt := None; co_created_at := None; co_updated_at := None |}.

Definition sample_role (id : Z) : RoleRow :=
  {| ro_id := id; ro_name := "r"; ro_created_at := None; ro_updated_at := None |}.

(** Users: a superadmin of tenant 7, an administrator and a member of tenant 8. *)
Definition sample_accounts : AccountTables :=
  {| at_users := [sample_user 1 1 7 "root@x"; sample_user 2 2 8 "admin@x"; sample_user 3 3 8 "member@x"];
     at_nextUser := 4; at_sessions := []; at_customers := [sample_customer 7; sample_customer 8];
     at_nextCustomer := 9; at_roles := [sample_role 1; sample_role 2; sample_role 3];
     at_roleColumns := []; at_projects := []; at_audits := [] |}.

Definition text_field (s : string) : field := Field (JStr s) None.

Definition login_request (email : string) : Request :=
  {| rq_path := []; rq_header := []; rq_query := []; rq_cookie := None;
     rq_body := BodyObject [("email", text_field email); ("password", text_field "Secret-pass-1")] |}.

Fixpoint repeat_text (n : nat) (s : string) : string :=
  match n with O => "" | S n' => s +:+ repeat_text n' s end.

(** A random source that can open [n] sessions. *)
Definition sample_random (n : nat) : list (option string) :=
  map (fun k => Some (repeat_text 32 (of_chars [byte (65 + k)]))) (seq 0 n).

Definition sample_world : world AccountTables := World sample_accounts [] (sample_random 8).

Definition signed_in (email : string) : outcome sreply * world AccountTables :=
  Login (B := plain_bcrypt) noon (login_request email) sample_world.

Definition first_cookie (res : outcome sreply) : option string :=
  match res with Ok reply => ck_Value <$> head (rp_cookies reply) | Err _ => None end.

Lemma session_lifecycle_witness :
  sessions_ok (w_db sample_world)
  /\ exists reply w', signed_in "root@x" = (Ok reply, w') /\ rp_status reply = 200
     /\ exists sessionID, session_user sessionID (noon + hour) (w_db w') <> None
        /\ session_user sessionID (noon + 3 * hour) (w_db w') = None.
Proof.
  assert (O : sessions_ok (w_db sample_world)).
  { split; cbn; repeat constructor; cbn; intuition congruence. }
  split; [exact O|]. destruct (signed_in "root@x") as [[reply|e] w'] eqn:E;
    [|by vm_compute in E].
  exists reply, w'. assert (H200 : rp_status reply = 200).
  { assert (X : Ok reply = fst (signed_in "root@x")) by by rewrite E.
    vm_compute in X. injection X as ->. reflexivity. }
  split; [done|]. split; [done|].
  destruct (session_lifecycle noon (login_request "root@x") sample_world w' reply O E H200)
    as (input & row & s & sessionID & token & H).
  exists sessionID. destruct H as (_ & _ & _ & _ & _ & _ & _ & _ & _ & L1 & L2 & _). split.
  - destruct (L1 (noon + hour)) as [-> _]; [by vm_compute|done].
  - apply L2. vm_compute. discriminate.
Defined.

(** The superadmin's session, switched to tenant 8 for one minute. *)
Definition root_session : string :=
  Eval vm_compute in match first_cookie (fst (signed_in "root@x")) with Some c => c | None => "" end.

Definition root_tables : AccountTables := Eval vm_compute in w_db (snd (signed_in "root@x")).

Definition root_row : SessionRow :=
  Eval vm_compute in match at_sessions root_tables with
                     | s :: _ => s
                     | [] => {| sr_idHash := ""; sr_csrfTokenHash := ""; sr_userId := 0; sr_idCostumer := 0;
                                sr_activeTenantId := None; sr_impersonationReason := None;
                                sr_impersonationExpiresAt := None; sr_expiresAt := 0; sr_updated_at := None |}
                     end.

Definition minute_switch : TenantSwitch :=
  {| ts_SessionID := root_session; ts_UserID := 1; ts_ActorTenant := 7; ts_ActiveTenant := 8;
     ts_Reason := "support"; ts_ExpiresAt := noon + minute; ts_Now := noon |}.

Lemma switch_outlives_its_expiry_witness :
  exists actor, user_of_session <$> session_user root_session (noon + hour)
                  (after_switch minute_switch root_tables []) = Some actor
    /\ activeTenant actor = 8.
Proof.
  assert (O : sessions_ok root_tables)
    by (split; cbn; repeat constructor; cbn; intuition congruence).
  assert (E : session_user root_session noon root_tables = Some (root_row, sample_user 1 1 7 "root@x"))
    by (vm_compute; reflexivity).
  assert (T : noon + minute <= noon + hour < sr_expiresAt root_row) by (split; [vm_compute; discriminate|reflexivity]).
  destruct (switch_outlives_its_expiry minute_switch root_row (sample_user 1 1 7 "root@x") (noon + hour)
              root_tables [] O E eq_refl eq_refl eq_refl T) as (actor & A1 & A2 & _).
  exists actor. split; [exact A1|exact A2].
Defined.

(** A request that switches: it answers 200 and records one audit row. *)
Definition switch_request : Request :=
  {| rq_path := [("idCostumer", "8")]; rq_header := [("X-Correlation-ID", "c-1")]; rq_query := [];
     rq_cookie := Some root_session;
     rq_body := BodyObject [("reason", text_field "support"); ("expiresAt", text_field "")] |}.

Definition root_world : world AccountTables := World root_tables [] [].

Definition switched_tables : AccountTables :=
  Eval vm_compute in w_db (snd (ChangeCustomer noon "10.0.0.1" switch_request root_world)).

Example switch_answers :
  match fst (ChangeCustomer noon "10.0.0.1" switch_request root_world) with
  | Ok reply => rp_status reply = 200 | Err _ => False end
  /\ length (at_audits switched_tables) = 1%nat.
Proof. split; vm_compute; reflexivity. Qed.
