(* ===== verification/Accounts.v ===== *)
(** * Accounts, roles and customers

    The administration of internal/browserauth/admin.go (roles, profile, accounts,
    customers) and its repository in internal/persistence/mysql/browser_auth.go. *)

From stdpp Require Import sorting.
From S2P Require Import Prelude GoStrings GoTime Sha256 Json JsonText Effects Http RunTables.
From S2P Require Import Paging AccountTables Sessions.

(** ** Types of admin.go *)
Record Role := {
  rl_ID : Z;
  rl_Name : string;
  rl_CreatedAt : option time;
  rl_UpdatedAt : option time;
}.

Record Profile := {
  pf_Email : string;
  pf_Name : string;
  pf_CompanyName : string;
  pf_RoleName : string;
}.

Record Account := {
  ac_ID : Z;
  ac_Email : string;
  ac_Name : string;
  ac_Role : Z;
  ac_IDCostumer : Z;
  ac_Costumer : string;
  ac_RoleName : string;
  ac_Status : string;
}.

Record AccountQuery := {
  aq_Page : Z;
  aq_PageSize : Z;
  aq_Paged : bool;
  aq_Search : string;
  aq_Sort : string;
  aq_Direction : string;
}.

Record AccountPage := { ap_Data : list Account; ap_Meta : option PageMeta }.

Record AccountCreate := {
  an_Name : string;
  an_Email : string;
  an_Password : string;
  an_Role : Z;
  an_IDCostumer : Z;
}.

Record AccountUpdate := {
  au_ID : Z;
  au_Name : string;
  au_Password : string;
  au_ForceActivate : bool;
}.

Record CustomerPage := { cp_Data : list Customer; cp_Meta : option PageMeta }.

(** [ErrForbidden]. *)
Definition ErrForbidden : error := OtherError "browser admin action is forbidden".

(** ** Passwords *)

(** [len([]rune(s))]: an invalid byte is one rune. *)
Definition rune_count (s : string) : Z :=
  Z.of_nat (length (List.filter (fun c => negb (continuation c)) (sanitize (chars s)))).

Definition lower_ascii (c : ascii) : bool := within 97 122 c.
Definition upper_ascii (c : ascii) : bool := within 65 90 c.

(** [containsSymbol]: a rune that is no ASCII letter or digit; every byte of a rune
    beyond ASCII is one too. *)
Definition containsSymbol (value : string) : bool :=
  existsb (fun c => negb (upper_ascii c) && negb (lower_ascii c) && negb (is_digit c)) (chars value).

Definition common_passwords : list string :=
  ["admin"; "password"; "password1"; "password123"; "qwerty"; "qwerty123"; "letmein"; "welcome";
   "welcome1"; "changeme"; "idelium"; "idelium123"].

Definition passwordViolations (password : string) : list string :=
  (if rune_count password <? 12 then ["The password must be at least 12 characters."] else []) ++
  (if negb (existsb lower_ascii (chars password)) || negb (existsb upper_ascii (chars password))
   then ["The password must contain both uppercase and lowercase letters."] else []) ++
  (if negb (existsb is_digit (chars password))
   then ["The password must contain at least one number."] else []) ++
  (if negb (containsSymbol password)
   then ["The password must contain at least one symbol."] else []) ++
  (if existsb (String.eqb (toLower (trimSpace password))) common_passwords
   then ["The password is too common."] else []).

(** [accountValidation]: the errors by field. *)
Definition accountValidation (name email password : string) (role : Z) : list (string * list string) :=
  (if blank name then [("name", ["The name field is required."])] else []) ++
  (if negb (contains email "@") then [("email", ["The email must be a valid email address."])] else []) ++
  (if role <=? 0 then [("role", ["The role field is required."])] else []) ++
  (if String.eqb password "" then [("password", ["The password field is required."])]
   else match passwordViolations password with
        | [] => []
        | violations => [("password", violations)]
        end).

(** [hashPassword]: bcrypt reads its salt and refuses more than 72 bytes. *)
Definition hashPassword `{B : Bcrypt} (password : string) : M AccountTables string :=
  let! salt := rand_read 16 in
  match salt ≫= fun s => bcrypt_generate s password with
  | Some hash => ret hash
  | None => fail (OtherError "hash password")
  end.

(** ** Who may manage whom *)
Definition canManageAccount (actor : User) (targetRole targetTenant : Z) : bool :=
  (u_Role actor =? 1)
  || ((u_Role actor =? 2) && (1 <? targetRole) && (targetTenant =? activeTenant actor)).

(** [accountScope]: the users an actor sees. *)
Definition accountScope (actor : User) (u : UserRow) : bool :=
  (u_Role actor =? 1) || ((1 <? ur_role u) && (ur_idCostumer u =? activeTenant actor)).

(** [boundedSearch]: 200 bytes. *)
Definition boundedSearch (search : string) : string :=
  let search := trimSpace search in
  if 200 <? slen search then of_chars (take 200 (chars search)) else search.

(** ** The repository *)
Section Repository.
Context `{S : MySQL} `{B : Bcrypt}.
Notation R := (M AccountTables).

(** [requireAffected]. *)
Definition requireAffected (affected : Z) : R unit :=
  if affected =? 0 then fail ErrNotFound else ret tt.

Definition mysqlColumnExists (column : string) (d : AccountTables) : bool :=
  existsb (String.eqb column) (at_roleColumns d).

(** [ListRoles]: [None] is the legacy answer to a role that sees none. *)
Definition ListRoles (actor : User) : R (option (list Role)) :=
  if 2 <? u_Role actor then ret None
  else
    let! createdAtExists := query "inspect browser role schema" (mysqlColumnExists "created_at") in
    let! updatedAtExists := query "inspect browser role schema" (mysqlColumnExists "updated_at") in
    let! roles := query "list browser roles" (fun d =>
      order_by (fun a b => ro_id a <=? ro_id b)
        (List.filter (fun r => negb (u_Role actor =? 2) || (1 <? ro_id r)) (at_roles d))) in
    ret (Some (map (fun r =>
      {| rl_ID := ro_id r; rl_Name := ro_name r;
         rl_CreatedAt := if createdAtExists then ro_created_at r else None;
         rl_UpdatedAt := if updatedAtExists then ro_updated_at r else None |}) roles)).

Definition role_of (d : AccountTables) (id : Z) : option RoleRow :=
  List.find (fun r => ro_id r =? id) (at_roles d).
Definition customer_row (d : AccountTables) (id : Z) : option CustomerRow :=
  List.find (fun c => co_id c =? id) (at_customers d).

(** A row of users joined with its customer and its role. *)
Definition account_of (d : AccountTables) (u : UserRow) : option Account :=
  c ← customer_row d (ur_idCostumer u);
  r ← role_of d (ur_role u);
  Some {| ac_ID := ur_id u; ac_Email := ur_email u; ac_Name := ur_name u; ac_Role := ur_role u;
          ac_IDCostumer := ur_idCostumer u; ac_Costumer := co_costumer c; ac_RoleName := ro_name r;
          ac_Status := ur_status u |}.

(** [Profile]. *)
Definition load_profile (actor : User) : R Profile :=
  let! row := query "load browser profile" (fun d =>
    u ← List.find (fun u => (ur_id u =? u_ID actor) && (ur_idCostumer u =? u_TenantID actor)
                            && bool_decide (is_Some (account_of d u))) (at_users d);
    account_of d u) in
  match row with
  | None => fail ErrNotFound
  | Some a => ret {| pf_Email := ac_Email a; pf_Name := ac_Name a; pf_CompanyName := ac_Costumer a;
                     pf_RoleName := ac_RoleName a |}
  end.

Definition set_password (hash : string) (now : time) (u : UserRow) : UserRow :=
  {| ur_id := ur_id u; ur_name := ur_name u; ur_email := ur_email u; ur_password := hash;
     ur_role := ur_role u; ur_idCostumer := ur_idCostumer u; ur_status := ur_status u;
     ur_created_at := ur_created_at u; ur_updated_at := Some (column_time now) |}.

(** An UPDATE of users, with the rows it changed. *)
Definition update_users (op : string) (p : UserRow -> bool) (f : UserRow -> UserRow) : R Z :=
  exec_count op (fun d => let '(l, n) := update_where p f (at_users d) in (with_users l d, n)).

Definition UpdateProfilePassword (actor : User) (password : string) (now : time) : R Profile :=
  let! hash := hashPassword password in
  let! affected := update_users "update browser profile password"
    (fun u => (ur_id u =? u_ID actor) && (ur_idCostumer u =? u_TenantID actor))
    (set_password hash now) in
  do! requireAffected affected;
  load_profile actor.

(** [accountSortColumn] and ORDER BY: text by the collation, identifiers by value. *)
Definition account_le (sort : string) (a b : Account) : bool :=
  if String.eqb sort "id" then ac_ID a <=? ac_ID b
  else if String.eqb sort "name" then text_le (ac_Name a) (ac_Name b)
  else if String.eqb sort "role" then ac_Role a <=? ac_Role b
  else if String.eqb sort "idCostumer" then ac_IDCostumer a <=? ac_IDCostumer b
  else if String.eqb sort "costumer" then text_le (ac_Costumer a) (ac_Costumer b)
  else if String.eqb sort "roleName" then text_le (ac_RoleName a) (ac_RoleName b)
  else text_le (ac_Email a) (ac_Email b).

Definition directed {A} (direction : string) (le : A -> A -> bool) (a b : A) : bool :=
  if String.eqb direction "desc" then le b a else le a b.

Definition account_matches (search : string) (a : Account) : bool :=
  String.eqb search "" ||
  let pattern := "%" +:+ boundedSearch search +:+ "%" in
  like (ac_Email a) pattern || like (ac_Name a) pattern || like (ac_Costumer a) pattern
  || like (ac_RoleName a) pattern.

(** The accounts an actor sees that match a search. *)
Definition visible_accounts (actor : User) (search : string) (d : AccountTables) : list Account :=
  List.filter (account_matches search)
    (omap (fun u => if accountScope actor u then account_of d u else None) (at_users d)).

Definition ListAccounts (actor : User) (q : AccountQuery) : R AccountPage :=
  let! total := query "count browser accounts"
    (fun d => Z.of_nat (length (visible_accounts actor (aq_Search q) d))) in
  let! accounts := query_page "list browser accounts" (fun d =>
    let l := order_by (directed (aq_Direction q) (account_le (aq_Sort q)))
               (visible_accounts actor (aq_Search q) d) in
    if aq_Paged q then page_of (aq_Page q) (aq_PageSize q) l else Some l) in
  ret {| ap_Data := accounts;
         ap_Meta := if aq_Paged q
                    then Some (pageMeta (aq_Page q) (aq_PageSize q) total (aq_Sort q) (aq_Direction q))
                    else None |}.

(** [accountTarget]: the account among those the actor sees. *)
Definition accountTarget (actor : User) (accountID : Z) : R Account :=
  let! page := ListAccounts actor
    {| aq_Page := 1; aq_PageSize := 1; aq_Paged := false; aq_Search := ""; aq_Sort := "email";
       aq_Direction := "asc" |} in
  match List.find (fun a => ac_ID a =? accountID) (ap_Data page) with
  | Some a => ret a
  | None => fail ErrNotFound
  end.

Definition role_exists (id : Z) : R bool :=
  query "check browser reference" (fun d => existsb (fun r => ro_id r =? id) (at_roles d)).
Definition customer_exists (id : Z) : R bool :=
  query "check browser reference" (fun d => existsb (fun c => co_id c =? id) (at_customers d)).

(** [INSERT INTO users]: the email is unique. *)
Definition insert_user (name hash email : string) (role tenant : Z) (status : string) (now : time)
    (d : AccountTables) : option AccountTables :=
  if existsb (fun u => same (ur_email u) email) (at_users d) then None
  else Some (with_next_user (at_nextUser d + 1) (with_users (at_users d ++
    [{| ur_id := at_nextUser d; ur_name := name; ur_email := email; ur_password := hash;
        ur_role := role; ur_idCostumer := tenant; ur_status := status;
        ur_created_at := Some (column_time now); ur_updated_at := Some (column_time now) |}])%list d)).

(** What [CreateAccount] and [CreateAccountInvitation] check before they hash. *)
Definition check_new_account (op : string) (actor : User) (email : string) (role tenant : Z) : R unit :=
  do! guard (canManageAccount actor role tenant) ErrForbidden;
  let! role_ok := role_exists role in
  do! guard role_ok ErrForbidden;
  let! customer_ok := customer_exists tenant in
  do! guard customer_ok ErrForbidden;
  let! duplicate := query op (fun d => existsb (fun u => same (ur_email u) email) (at_users d)) in
  guard (negb duplicate) ErrForbidden.

Definition CreateAccount (actor : User) (account : AccountCreate) (now : time) : R unit :=
  do! check_new_account "check browser account email" actor (an_Email account) (an_Role account)
        (an_IDCostumer account);
  let! hash := hashPassword (an_Password account) in
  insert_unique "create browser account"
    (insert_user (an_Name account) hash (an_Email account) (an_Role account) (an_IDCostumer account)
       "active" now).

(** [randomUUID]: version 4 from sixteen random bytes. *)
Definition randomUUID : R string :=
  let! value := rand_read 16 in
  ret (match value with
       | None => "00000000-0000-4000-8000-000000000000"
       | Some v =>
           let set (i : nat) (mask bits : Z) (l : list ascii) : list ascii :=
             match l !! i with
             | Some c => <[i := zbyte (Z.lor (Z.land (code c) mask) bits)]> l
             | None => l
             end in
           let encoded := hexEncode (of_chars (set 8%nat 63 128 (set 6%nat 15 64 (chars v)))) in
           String.substring 0 8 encoded +:+ "-" +:+ String.substring 8 4 encoded +:+ "-"
             +:+ String.substring 12 4 encoded +:+ "-" +:+ String.substring 16 4 encoded +:+ "-"
             +:+ String.substring 20 12 encoded
       end).

(** [CreateAccountInvitation]: the password is one that nobody knows. *)
Definition CreateAccountInvitation (actor : User) (name email : string)
    (role tenant : Z) (now : time) : R unit :=
  do! check_new_account "check browser invitation email" actor email role tenant;
  let! password := randomUUID in
  let! hash := hashPassword password in
  insert_unique "create browser account invitation"
    (insert_user name hash email role tenant "invited" now).

Definition set_profile (name : string) (password status : option string) (now : time) (u : UserRow)
  : UserRow :=
  {| ur_id := ur_id u; ur_name := name; ur_email := ur_email u;
     ur_password := default (ur_password u) password; ur_role := ur_role u;
     ur_idCostumer := ur_idCostumer u; ur_status := default (ur_status u) status;
     ur_created_at := ur_created_at u; ur_updated_at := Some (column_time now) |}.

Definition UpdateAccount (actor : User) (account : AccountUpdate) (now : time) : R unit :=
  let! target := accountTarget actor (au_ID account) in
  do! guard (canManageAccount actor (ac_Role target) (ac_IDCostumer target)) ErrForbidden;
  if String.eqb (au_Password account) "" && au_ForceActivate account then
    let! n := update_users "activate invited browser account"
      (fun u => (ur_id u =? au_ID account) && same (ur_status u) "invited")
      (set_profile (au_Name account) None (Some "active") now) in
    requireAffected n
  else if String.eqb (au_Password account) "" then
    let! n := update_users "update browser account profile" (fun u => ur_id u =? au_ID account)
      (set_profile (au_Name account) None None now) in
    requireAffected n
  else
    let! hash := hashPassword (au_Password account) in
    let! n := update_users "update browser account" (fun u => ur_id u =? au_ID account)
      (fun u => set_profile (au_Name account) (Some hash)
                  (Some (if same (ur_status u) "invited" then "active" else ur_status u)) now u) in
    requireAffected n.

Definition set_role (role : Z) (now : time) (u : UserRow) : UserRow :=
  {| ur_id := ur_id u; ur_name := ur_name u; ur_email := ur_email u; ur_password := ur_password u;
     ur_role := role; ur_idCostumer := ur_idCostumer u; ur_status := ur_status u;
     ur_created_at := ur_created_at u; ur_updated_at := Some (column_time now) |}.

Definition UpdateAccountRole (actor : User) (accountID roleID : Z) (now : time) : R unit :=
  let! target := accountTarget actor accountID in
  do! guard (canManageAccount actor roleID (ac_IDCostumer target)) ErrForbidden;
  let! ok := role_exists roleID in
  do! guard ok ErrForbidden;
  let! n := update_users "change browser account role"
    (fun u => (ur_id u =? accountID) && (ur_idCostumer u =? ac_IDCostumer target))
    (set_role roleID now) in
  requireAffected n.

Definition DeleteAccount (actor : User) (accountID : Z) : R unit :=
  let! target := accountTarget actor accountID in
  do! guard (canManageAccount actor (ac_Role target) (ac_IDCostumer target)) ErrForbidden;
  let! n := exec_count "delete browser account" (fun d =>
    let '(l, n) := delete_where (fun u => ur_id u =? accountID) (at_users d) in (with_users l d, n)) in
  requireAffected n.

(** *** Customers *)
Context (toUpper : string -> string).  (** [strings.ToUpper], over the tables of Unicode *)

(** [customerSortColumn] and ORDER BY. *)
Definition customer_le (sort : string) (a b : CustomerRow) : bool :=
  let nullable_le (x y : option string) :=
    match x, y with None, _ => true | Some _, None => false | Some s, Some t => text_le s t end in
  if String.eqb sort "id" then co_id a <=? co_id b
  else if String.eqb sort "costumer" then text_le (co_costumer a) (co_costumer b)
  else if String.eqb sort "description" then nullable_le (co_description a) (co_description b)
  else if String.eqb sort "licenseExpiration" then
    null_first (co_licenseExpiration a) (co_licenseExpiration b)
  else if String.eqb sort "updated_at" then null_first (co_updated_at a) (co_updated_at b)
  else null_first (co_created_at a) (co_created_at b).

(** A NULL description matches no pattern. *)
Definition customer_matches (search : string) (c : CustomerRow) : bool :=
  String.eqb search "" ||
  let pattern := "%" +:+ boundedSearch search +:+ "%" in
  like (co_costumer c) pattern
  || match co_description c with Some t => like t pattern | None => false end.

Definition ListAdminCustomers (q : AccountQuery) : R CustomerPage :=
  let! total := query "count browser customers" (fun d =>
    Z.of_nat (length (List.filter (customer_matches (aq_Search q)) (at_customers d)))) in
  let! customers := query_page "list browser customers" (fun d =>
    let l := order_by (directed (aq_Direction q) (customer_le (aq_Sort q)))
               (List.filter (customer_matches (aq_Search q)) (at_customers d)) in
    if aq_Paged q then page_of (aq_Page q) (aq_PageSize q) l else Some l) in
  ret {| cp_Data := map customer_of customers;
         cp_Meta := if aq_Paged q
                    then Some (pageMeta (aq_Page q) (aq_PageSize q) total (aq_Sort q) (aq_Direction q))
                    else None |}.

(** [CreateCustomer]: a key of 32 random bytes and a licence of 365 days. *)
Definition CreateCustomer (costumer description : string) (now : time) : R unit :=
  let! apiKey := randomToken in
  match apiKey with
  | None => fail (OtherError "random source failed")
  | Some apiKey =>
      exec "create browser customer" (fun d => with_customers (at_customers d ++
        [{| co_id := at_nextCustomer d; co_costumer := toUpper costumer;
            co_description := Some (toUpper description);
            co_licenseExpiration := Some (column_time (now + 365 * 24 * hour));
            co_apiKey := Some apiKey; co_apiKeyCreatedAt := Some (column_time now);
            co_created_at := Some (column_time now); co_updated_at := Some (column_time now) |}])%list
        (at_nextCustomer d + 1) d)
  end.

Definition set_customer (costumer description : string) (now : time) (c : CustomerRow) : CustomerRow :=
  {| co_id := co_id c; co_costumer := toUpper costumer; co_description := Some (toUpper description);
     co_licenseExpiration := co_licenseExpiration c; co_apiKey := co_apiKey c;
     co_apiKeyCreatedAt := co_apiKeyCreatedAt c; co_created_at := co_created_at c;
     co_updated_at := Some (column_time now) |}.

Definition UpdateCustomer (customerID : Z) (costumer description : string) (now : time) : R unit :=
  let! n := exec_count "update browser customer" (fun d =>
    let '(l, n) := update_where (fun c => co_id c =? customerID) (set_customer costumer description now)
                     (at_customers d) in
    (with_customers l (at_nextCustomer d) d, n)) in
  requireAffected n.

Definition DeleteCustomer (customerID : Z) : R unit :=
  let! n := exec_count "delete browser customer" (fun d =>
    let '(l, n) := delete_where (fun c => co_id c =? customerID) (at_customers d) in
    (with_customers l (at_nextCustomer d) d, n)) in
  requireAffected n.
End Repository.
