(* ===== verification/AccountHandlers.v ===== *)
(** * The handlers of account administration

    internal/browserauth/admin.go: roles, profile, accounts and customers.  A
    mutation that succeeds answers with the list that follows it, as the code does by
    calling the listing handler on the same request. *)

From S2P Require Import Prelude GoStrings GoTime Json JsonText Effects Http RunTables.
From S2P Require Import Paging AccountTables Sessions Accounts.

Inductive account_payload :=
| ASession (p : session_payload)
| AMessage (text : string)
| AErrors (errors : list (string * list string))
| ALegacyOK
| ARoles (roles : list Role)
| AProfile (profile : Profile)
| AAccounts (accounts : list Account)
| AAccountPage (page : AccountPage)
| ACustomers (customers : list Customer)
| ACustomerPage (page : CustomerPage)
| AStatus (status : string).

Notation areply := (reply_of account_payload).

Definition lift_reply (r : sreply) : areply :=
  Reply (rp_status r) (rp_cookies r) (ASession (rp_body r)).

Definition notFound : areply := written 404 (AMessage "Not found.").
Definition failed : areply := lift_reply internalError.
Definition denied : areply := lift_reply forbidden.
Definition validationErrors (errors : list (string * list string)) : areply := written 422 (AErrors errors).
Definition validationError (field text : string) : areply := validationErrors [(field, [text])].

(** ** Bodies *)
Definition to_bool {S} (upd : bool -> S -> S) : setter S := fun v s =>
  match fl_value v with JBool b => Some (upd b s) | JNull => Some s | _ => None end.

Definition profile_fields : list (string * setter string) := [("password", to_string (fun s _ => s))].

Definition zero_create : AccountCreate :=
  {| an_Name := ""; an_Email := ""; an_Password := ""; an_Role := 0; an_IDCostumer := 0 |}.

Definition account_fields : list (string * setter AccountCreate) :=
  [("name", to_string (fun s a => {| an_Name := s; an_Email := an_Email a;
      an_Password := an_Password a; an_Role := an_Role a; an_IDCostumer := an_IDCostumer a |}));
   ("email", to_string (fun s a => {| an_Name := an_Name a; an_Email := s;
      an_Password := an_Password a; an_Role := an_Role a; an_IDCostumer := an_IDCostumer a |}));
   ("password", to_string (fun s a => {| an_Name := an_Name a; an_Email := an_Email a;
      an_Password := s; an_Role := an_Role a; an_IDCostumer := an_IDCostumer a |}));
   ("role", to_int (fun z a => {| an_Name := an_Name a; an_Email := an_Email a;
      an_Password := an_Password a; an_Role := z; an_IDCostumer := an_IDCostumer a |}));
   ("idCostumer", to_int (fun z a => {| an_Name := an_Name a; an_Email := an_Email a;
      an_Password := an_Password a; an_Role := an_Role a; an_IDCostumer := z |}))].

Record invitation_body := {
  ib_DisplayName : string;
  ib_Email : string;
  ib_RoleID : string;
  ib_TeamID : string;
  ib_TenantID : string;
}.

Definition invitation_fields : list (string * setter invitation_body) :=
  [("displayName", to_string (fun s b => {| ib_DisplayName := s; ib_Email := ib_Email b;
      ib_RoleID := ib_RoleID b; ib_TeamID := ib_TeamID b; ib_TenantID := ib_TenantID b |}));
   ("email", to_string (fun s b => {| ib_DisplayName := ib_DisplayName b; ib_Email := s;
      ib_RoleID := ib_RoleID b; ib_TeamID := ib_TeamID b; ib_TenantID := ib_TenantID b |}));
   ("roleId", to_string (fun s b => {| ib_DisplayName := ib_DisplayName b; ib_Email := ib_Email b;
      ib_RoleID := s; ib_TeamID := ib_TeamID b; ib_TenantID := ib_TenantID b |}));
   ("teamId", to_string (fun s b => {| ib_DisplayName := ib_DisplayName b; ib_Email := ib_Email b;
      ib_RoleID := ib_RoleID b; ib_TeamID := s; ib_TenantID := ib_TenantID b |}));
   ("tenantId", to_string (fun s b => {| ib_DisplayName := ib_DisplayName b; ib_Email := ib_Email b;
      ib_RoleID := ib_RoleID b; ib_TeamID := ib_TeamID b; ib_TenantID := s |}))].

Definition update_fields : list (string * setter AccountUpdate) :=
  [("name", to_string (fun s a => {| au_ID := au_ID a; au_Name := s;
      au_Password := au_Password a; au_ForceActivate := au_ForceActivate a |}));
   ("password", to_string (fun s a => {| au_ID := au_ID a; au_Name := au_Name a;
      au_Password := s; au_ForceActivate := au_ForceActivate a |}));
   ("forceActivate", to_bool (fun b a => {| au_ID := au_ID a; au_Name := au_Name a;
      au_Password := au_Password a; au_ForceActivate := b |}))].

(** The body of [ChangeAccountRole]: only roleId is used, the others are decoded. *)
Definition ignore_any : setter json := fun _ v => Some v.
Definition ignore_string : setter json := to_string (fun _ v => v).
Definition ignore_map : setter json := to_map (fun _ => None) (fun _ v => v).

Definition role_fields : list (string * setter json) :=
  [("accountId", ignore_any); ("operation", ignore_string); ("reason", ignore_string);
   ("replacementAdminId", ignore_any); ("roleId", to_any (fun v _ => v));
   ("tenantId", ignore_any); ("audit", ignore_map)].

(** The value of [strconv.ParseInt] when its error is ignored: the nearest limit when
    the number is out of range, 0 when the text is no number. *)
Definition parseInt_value (s : string) : Z :=
  let digits (l : list ascii) : Z := match l with [] => 0 | _ => default 0 (parse_digits 0 l) end in
  match chars s with
  | "-"%char :: l => Z.max int64_min (- digits l)
  | "+"%char :: l => Z.min int64_max (digits l)
  | l => Z.min int64_max (digits l)
  end.

(** A number that is a whole [int64], or decimal text. *)
Definition role_id (v : json) : Z :=
  match v with
  | JNum x => default 0 (f_int x)
  | JStr s => parseInt_value (trimSpace s)
  | _ => 0
  end.

Record customer_body := { ub_Costumer : string; ub_Description : string }.

Definition customer_fields : list (string * setter customer_body) :=
  [("costumer", to_string (fun s b => {| ub_Costumer := s; ub_Description := ub_Description b |}));
   ("description", to_string (fun s b => {| ub_Costumer := ub_Costumer b; ub_Description := s |}))].

(** ** Queries *)
Definition list_query (default_sort : string) (r : Request) : AccountQuery :=
  let '(page, pageSet) := positiveQueryInt r "page" 1 in
  let '(pageSize, pageSizeSet) := positiveQueryInt r "pageSize" 25 in
  let sort := queryValue r "sort" in
  {| aq_Page := page;
     aq_PageSize := if 100 <? pageSize then 100 else pageSize;
     aq_Paged := pageSet || pageSizeSet;
     aq_Search := trimSpace (queryValue r "search");
     aq_Sort := if String.eqb sort "" then default_sort else sort;
     aq_Direction := if String.eqb (toLower (queryValue r "direction")) "desc" then "desc" else "asc" |}.

Definition parseAccountQuery : Request -> AccountQuery := list_query "email".
Definition parseCustomerQuery : Request -> AccountQuery := list_query "created_at".

(** ** The handlers *)
Section Handlers.
Context `{S : MySQL} `{B : Bcrypt} (toUpper : string -> string) (now : time).
Notation H := (M AccountTables areply).

Definition with_user (r : Request) (k : User -> H) : H :=
  let! s := authenticatedSession now r in
  match s with inl response => ret (lift_reply response) | inr (u, _) => k u end.

(** [requireCapability]. *)
Definition requireCapability (r : Request) (capability : string) (k : User -> H) : H :=
  with_user r (fun user =>
    if existsb (String.eqb capability) (capabilitiesForRole (u_Role user)) then k user else ret denied).

(** [request.PathValue] of the account or customer. *)
Definition with_id (r : Request) (name : string) (k : Z -> H) : H :=
  match parsePathID (pathValue r name) with None => ret notFound | Some id => k id end.

(** The responses to an error: [ErrForbidden] and [ErrNotFound] as 404. *)
Definition hidden_or_failed (e : error) : areply :=
  if bool_decide (e = ErrForbidden) || bool_decide (e = ErrNotFound) then notFound else failed.

Definition Roles (r : Request) : H :=
  with_user r (fun user =>
    let! roles := attempt (ListRoles user) in
    ret (match roles with
         | Ok None => written 200 ALegacyOK
         | Ok (Some l) => written 200 (ARoles l)
         | Err _ => failed
         end)).

Definition ShowProfile (r : Request) : H :=
  with_user r (fun user =>
    let! profile := attempt (load_profile user) in
    ret (match profile with Ok p => written 200 (AProfile p) | Err _ => failed end)).

Definition UpdateProfile (r : Request) : H :=
  with_user r (fun user =>
    match decode true profile_fields "" (rq_body r) with
    | Decoded password =>
        if String.eqb password "" then ret (validationError "password" "The password field is required.")
        else match passwordViolations password with
        | _ :: _ as violations => ret (validationErrors [("password", violations)])
        | [] =>
            let! profile := attempt (UpdateProfilePassword user password now) in
            ret (match profile with Ok p => written 200 (AProfile p) | Err _ => failed end)
        end
    | _ => ret (validationError "password" "The password field is required.")
    end).

Definition ShowAccounts (r : Request) : H :=
  requireCapability r "accounts.manage" (fun user =>
    let query := parseAccountQuery r in
    let! page := attempt (ListAccounts user query) in
    ret (match page with
         | Err _ => failed
         | Ok page => if aq_Paged query then written 200 (AAccountPage page)
                      else written 200 (AAccounts (ap_Data page))
         end)).

Definition PostAccount (r : Request) : H :=
  requireCapability r "accounts.manage" (fun user =>
    match decode true account_fields zero_create (rq_body r) with
    | Decoded input =>
        let errors :=
          (accountValidation (an_Name input) (an_Email input) (an_Password input) (an_Role input) ++
           (if (u_Role user =? 1) && (an_IDCostumer input <=? 0)
            then [("idCostumer", ["The id costumer field is required."])] else []))%list in
        match errors with
        | _ :: _ => ret (validationErrors errors)
        | [] =>
            let tenantID := if u_Role user =? 1 then an_IDCostumer input else activeTenant user in
            let! created := attempt (CreateAccount user
              {| an_Name := trimSpace (an_Name input); an_Email := trimSpace (an_Email input);
                 an_Password := an_Password input; an_Role := an_Role input;
                 an_IDCostumer := tenantID |} now) in
            match created with
            | Err e => ret (if bool_decide (e = ErrForbidden) then denied else failed)
            | Ok _ => ShowAccounts r
            end
        end
    | _ => ret (validationError "payload" "The request payload is invalid.")
    end).

Definition PostInvitation (r : Request) : H :=
  requireCapability r "accounts.manage" (fun user =>
    match decode true invitation_fields
            {| ib_DisplayName := ""; ib_Email := ""; ib_RoleID := ""; ib_TeamID := ""; ib_TenantID := "" |}
            (rq_body r) with
    | Decoded input =>
        match parseInt (trimSpace (ib_RoleID input)), parseInt (trimSpace (ib_TeamID input)) with
        | Some roleID, Some teamID =>
            if blank (ib_DisplayName input) || negb (contains (ib_Email input) "@")
            then ret (validationError "invitation" "The invitation details are invalid.")
            else
              let requested :=
                if (u_Role user =? 1) && negb (blank (ib_TenantID input))
                then default teamID (parseInt (trimSpace (ib_TenantID input))) else teamID in
              let tenantID := if u_Role user =? 1 then requested else activeTenant user in
              if tenantID <=? 0 then ret (validationError "tenantId" "The tenant id field is required.")
              else
                let! created := attempt (CreateAccountInvitation user (trimSpace (ib_DisplayName input))
                  (trimSpace (ib_Email input)) roleID tenantID now) in
                ret (match created with
                     | Err e => if bool_decide (e = ErrForbidden) then denied else failed
                     | Ok _ => written 201 (AStatus "invited")
                     end)
        | _, _ => ret (validationError "invitation" "The invitation details are invalid.")
        end
    | _ => ret (validationError "payload" "The request payload is invalid.")
    end).

Definition PutAccount (r : Request) : H :=
  requireCapability r "accounts.manage" (fun user => with_id r "idUser" (fun accountID =>
    match decode true update_fields
            {| au_ID := accountID; au_Name := ""; au_Password := ""; au_ForceActivate := false |}
            (rq_body r) with
    | Decoded input =>
        let errors :=
          ((if blank (au_Name input) then [("name", ["The name field is required."])] else []) ++
           (if String.eqb (au_Password input) "" then []
            else match passwordViolations (au_Password input) with
                 | [] => []
                 | violations => [("password", violations)]
                 end))%list in
        match errors with
        | _ :: _ => ret (validationErrors errors)
        | [] =>
            let! updated := attempt (UpdateAccount user
              {| au_ID := accountID; au_Name := trimSpace (au_Name input);
                 au_Password := au_Password input; au_ForceActivate := au_ForceActivate input |} now) in
            match updated with Err e => ret (hidden_or_failed e) | Ok _ => ShowAccounts r end
        end
    | _ => ret (validationError "payload" "The request payload is invalid.")
    end)).

Definition ChangeAccountRole (r : Request) : H :=
  requireCapability r "account.role.assign" (fun user => with_id r "idUser" (fun accountID =>
    match decode true role_fields JNull (rq_body r) with
    | Decoded input =>
        let roleID := role_id input in
        if roleID <=? 0 then ret (validationError "roleId" "The role id field is required.")
        else
          let! updated := attempt (UpdateAccountRole user accountID roleID now) in
          match updated with Err e => ret (hidden_or_failed e) | Ok _ => ShowAccounts r end
    | _ => ret (validationError "roleId" "The role id field is required.")
    end)).

Definition RemoveAccount (r : Request) : H :=
  requireCapability r "accounts.manage" (fun user => with_id r "idUser" (fun accountID =>
    let! deleted := attempt (DeleteAccount user accountID) in
    match deleted with Err e => ret (hidden_or_failed e) | Ok _ => ShowAccounts r end)).

Definition ShowCustomers (r : Request) : H :=
  requireCapability r "customers.manage" (fun _ =>
    let query := parseCustomerQuery r in
    let! page := attempt (ListAdminCustomers query) in
    ret (match page with
         | Err _ => failed
         | Ok page => if aq_Paged query then written 200 (ACustomerPage page)
                      else written 200 (ACustomers (cp_Data page))
         end)).

Definition PostCustomer (r : Request) : H :=
  requireCapability r "customers.manage" (fun _ =>
    let refused := validationError "costumer" "The costumer field is required." in
    match decode true customer_fields {| ub_Costumer := ""; ub_Description := "" |} (rq_body r) with
    | Decoded input =>
        if blank (ub_Costumer input) then ret refused
        else
          let! created := attempt (CreateCustomer toUpper (trimSpace (ub_Costumer input))
                                     (trimSpace (ub_Description input)) now) in
          match created with Err _ => ret failed | Ok _ => ShowCustomers r end
    | _ => ret refused
    end).

Definition PutCustomer (r : Request) : H :=
  requireCapability r "customers.manage" (fun _ => with_id r "idCostumer" (fun customerID =>
    let refused := validationErrors
      [("costumer", ["The costumer field is required."]);
       ("description", ["The description field is required."])] in
    match decode true customer_fields {| ub_Costumer := ""; ub_Description := "" |} (rq_body r) with
    | Decoded input =>
        if blank (ub_Costumer input) || blank (ub_Description input) then ret refused
        else
          let! updated := attempt (UpdateCustomer toUpper customerID (trimSpace (ub_Costumer input))
                                     (trimSpace (ub_Description input)) now) in
          match updated with
          | Err ErrNotFound => ret notFound
          | Err _ => ret failed
          | Ok _ => ShowCustomers r
          end
    | _ => ret refused
    end)).

Definition RemoveCustomer (r : Request) : H :=
  requireCapability r "customers.manage" (fun _ => with_id r "idCostumer" (fun customerID =>
    let! deleted := attempt (DeleteCustomer customerID) in
    match deleted with
    | Err ErrNotFound => ret notFound
    | Err _ => ret failed
    | Ok _ => ShowCustomers r
    end)).

(** ** The routes *)
Inductive account_route :=
| GetRoles | GetProfile | PostProfile | GetAccounts | PostAccounts | PostInvitations | PutAccounts
| PutRole | DeleteAccounts | GetCustomers | PostCustomers | PutCustomers | DeleteCustomers.

Definition serve_accounts (rt : account_route) (r : Request) : H :=
  match rt with
  | GetRoles => Roles r
  | GetProfile => ShowProfile r
  | PostProfile => UpdateProfile r
  | GetAccounts => ShowAccounts r
  | PostAccounts => PostAccount r
  | PostInvitations => PostInvitation r
  | PutAccounts => PutAccount r
  | PutRole => ChangeAccountRole r
  | DeleteAccounts => RemoveAccount r
  | GetCustomers => ShowCustomers r
  | PostCustomers => PostCustomer r
  | PutCustomers => PutCustomer r
  | DeleteCustomers => RemoveCustomer r
  end.
End Handlers.
