(* ===== verification/AccountTheorems.v ===== *)
(** * Accounts: who can change whom

    Every request of the account administration changes the table of users within
    the authority of the signed-in user, or not at all. *)

From stdpp Require Import sorting.
From S2P Require Import Prelude GoStrings GoTime Json JsonText Effects Http Contracts RunTables.
From S2P Require Import RunTheorems Paging AccountTables Sessions SessionTheorems Accounts AccountHandlers.

(** ** Authority *)

(** The users an actor may manage: all for role 1; for role 2, those of the active
    tenant below role 1; none for the others. *)
Definition authority (actor : User) (u : UserRow) : Prop :=
  canManageAccount actor (ur_role u) (ur_idCostumer u) = true.

(** What stays of a user that is edited. *)
Definition same_person (u v : UserRow) : Prop :=
  ur_id v = ur_id u /\ ur_email v = ur_email u /\ ur_idCostumer v = ur_idCostumer u.

(** The specification: how one request of an actor may change the users. *)
Inductive users_step (actor : User) : list UserRow -> list UserRow -> Prop :=
| us_none l : users_step actor l l
| us_insert l u :
    authority actor u -> (forall v, In v l -> ur_id v <> ur_id u) ->
    users_step actor l (l ++ [u])
| us_update l (p : UserRow -> bool) f :
    (forall u, In u l -> p u = true -> authority actor u /\ authority actor (f u) /\ same_person u (f u)) ->
    users_step actor l (map (fun u => if p u then f u else u) l)
| us_delete l (p : UserRow -> bool) :
    (forall u, In u l -> p u = true -> authority actor u) ->
    users_step actor l (List.filter (fun u => negb (p u)) l)
| us_own_password l hash updated :
    users_step actor l
      (map (fun u => if (ur_id u =? u_ID actor) && (ur_idCostumer u =? u_TenantID actor)
                     then {| ur_id := ur_id u; ur_name := ur_name u; ur_email := ur_email u;
                             ur_password := hash; ur_role := ur_role u;
                             ur_idCostumer := ur_idCostumer u; ur_status := ur_status u;
                             ur_created_at := ur_created_at u; ur_updated_at := updated |}
                     else u) l).

(** Primary keys. *)
Record accounts_ok (d : AccountTables) : Prop := {
  ok_ids : List.NoDup (map ur_id (at_users d));
  ok_next : Forall (fun u => ur_id u < at_nextUser d) (at_users d);
}.

Lemma same_row l u v :
  List.NoDup (map ur_id l) -> In u l -> In v l -> ur_id u = ur_id v -> u = v.
Proof.
  induction l as [|x l IH]; [done|]. cbn. intros N [->|Hu] [->|Hv] E; [done|exfalso..|].
  - inversion N; subst. rewrite E in *. by apply H1, in_map.
  - inversion N; subst. rewrite <- E in *. by apply H1, in_map.
  - inversion N; subst. by apply IH.
Qed.

Section Theorems.
Context `{S : MySQL} `{B : Bcrypt} (toUpper : string -> string) (now : time).
Implicit Types d : AccountTables.

(** ** The account an operation is about *)
Lemma account_of_fields d u a :
  account_of d u = Some a ->
  ac_ID a = ur_id u /\ ac_Role a = ur_role u /\ ac_IDCostumer a = ur_idCostumer u.
Proof.
  unfold account_of. destruct (customer_row _ _); [|done]. destruct (role_of _ _); [|done].
  by intros [= <-].
Qed.

Lemma visible_In actor search d a :
  In a (visible_accounts actor search d) ->
  exists u, In u (at_users d) /\ account_of d u = Some a /\ accountScope actor u = true.
Proof.
  unfold visible_accounts. intros [H _]%filter_In. apply list_elem_of_In, list_elem_of_omap in H as (u & Hu & E).
  apply list_elem_of_In in Hu. exists u. by destruct (accountScope actor u).
Qed.

Lemma order_by_In {A} (le : A -> A -> bool) l x : In x (order_by le l) <-> In x l.
Proof. unfold order_by. by rewrite <- list_elem_of_In, merge_sort_Permutation, list_elem_of_In. Qed.

Lemma wp_ListAccounts d actor q (Q : outcome AccountPage -> AccountTables -> Prop) :
  (forall page, (forall a, In a (ap_Data page) -> In a (visible_accounts actor (aq_Search q) d)) ->
     Q (Ok page) d) ->
  (forall m, Q (Err (DatabaseFailure m)) d) ->
  wp d (ListAccounts actor q) Q.
Proof.
  intros H K. unfold ListAccounts, query_page. repeat wp_step; auto.
  apply H. intros a Ha. cbn [ap_Data] in Ha. destruct (aq_Paged q).
  - unfold page_of in Heqo. case_match; [done|]. injection Heqo as <-.
    apply list_elem_of_In, elem_of_take in Ha as (i & Ha & _).
    rewrite lookup_drop in Ha. apply list_elem_of_lookup_2, list_elem_of_In, order_by_In in Ha. done.
  - injection Heqo as <-. by apply order_by_In in Ha.
Qed.

(** The target of an operation is a row the actor sees. *)
Lemma wp_accountTarget d actor id (Q : outcome Account -> AccountTables -> Prop) :
  (forall u a, In u (at_users d) -> ur_id u = id -> accountScope actor u = true ->
     account_of d u = Some a -> Q (Ok a) d) ->
  (forall e, Q (Err e) d) ->
  wp d (accountTarget actor id) Q.
Proof.
  intros H K. unfold accountTarget. apply wp_bind, wp_ListAccounts; [|done].
  intros page Hp. destruct (List.find _ _) as [a|] eqn:F; [|by apply wp_fail].
  apply find_some in F as [Ha Hid%Z.eqb_eq]. apply Hp, visible_In in Ha as (u & Hu & E & V).
  apply wp_ret. eapply H; [done| |done..]. by destruct (account_of_fields _ _ _ E) as (<- & _).
Qed.

(** ** The operations *)
Definition governed (actor : User) d d' : Prop :=
  users_step actor (at_users d) (at_users d') /\ accounts_ok d'
  /\ at_sessions d' = at_sessions d
  /\ (at_customers d' = at_customers d \/ u_Role actor = 1).

Lemma governed_refl actor d : accounts_ok d -> governed actor d d.
Proof. intros O. split_and!; auto. apply us_none. Qed.

Lemma governed_users actor d l :
  users_step actor (at_users d) l -> accounts_ok (with_users l d) ->
  governed actor d (with_users l d).
Proof. intros H O. split_and!; auto. Qed.

(** Updates keep the keys. *)
Lemma update_ok d (p : UserRow -> bool) (f : UserRow -> UserRow) :
  (forall u, ur_id (f u) = ur_id u) -> accounts_ok d ->
  accounts_ok (with_users (fst (update_where p f (at_users d))) d).
Proof.
  intros Hf [N X]. assert (E : forall u, ur_id (if p u then f u else u) = ur_id u) by (intros u; by destruct (p u)).
  split; cbn.
  - by rewrite map_map, (map_ext _ ur_id).
  - rewrite Forall_map. eapply Forall_impl; [exact X|]. intros u Hu. by rewrite E.
Qed.

Lemma delete_ok d (p : UserRow -> bool) :
  accounts_ok d -> accounts_ok (with_users (fst (delete_where p (at_users d))) d).
Proof.
  intros [N X]. split; cbn.
  - induction (at_users d) as [|u l IH]; cbn; [done|]. inversion N; subst. inversion X; subst.
    destruct (p u); cbn; [by apply IH|]. constructor; [|by apply IH].
    intros (v & E & Hv)%in_map_iff. apply filter_In in Hv as [Hv _]. by apply H1, in_map_iff; exists v.
  - apply List.Forall_forall. intros u [Hu _]%filter_In. rewrite List.Forall_forall in X. by apply X.
Qed.

Lemma wp_requireAffected d n (Q : outcome unit -> AccountTables -> Prop) :
  (forall r, Q r d) -> wp d (requireAffected n) Q.
Proof. intros H. unfold requireAffected. repeat wp_step; apply H. Qed.

Lemma wp_hashPassword d p (Q : outcome string -> AccountTables -> Prop) :
  (forall r, Q r d) -> wp d (hashPassword p) Q.
Proof. intros H. unfold hashPassword. repeat wp_step; apply H. Qed.

(** Rows the actor sees, and rows it may manage. *)
Lemma scope_authority actor d u a role :
  account_of d u = Some a -> accountScope actor u = true ->
  canManageAccount actor role (ac_IDCostumer a) = true ->
  authority actor u /\ forall v, ur_role v = role -> ur_idCostumer v = ur_idCostumer u -> authority actor v.
Proof.
  intros (_ & _ & T)%account_of_fields. rewrite T. unfold accountScope, authority, canManageAccount.
  rewrite !orb_true_iff, !andb_true_iff. intros V C. split; [|intros v -> ->; by apply orb_true_iff; rewrite !andb_true_iff].
  naive_solver.
Qed.

Context (actor : User).

Lemma step_of_target d (p : UserRow -> bool) (f : UserRow -> UserRow) u a role :
  accounts_ok d -> In u (at_users d) -> account_of d u = Some a -> accountScope actor u = true ->
  canManageAccount actor role (ac_IDCostumer a) = true ->
  (forall v, p v = true -> ur_id v = ur_id u) ->
  (forall v, ur_role (f v) = ur_role v \/ ur_role (f v) = role) -> (forall v, same_person v (f v)) ->
  governed actor d (with_users (fst (update_where p f (at_users d))) d).
Proof.
  intros O Hu E V C Hp Hr Hs. destruct (scope_authority _ _ _ _ _ E V C) as [A1 A2].
  apply governed_users; [|apply update_ok; [intros v; apply (Hs v)|done]].
  apply us_update. intros v Hv Hpv. assert (v = u) as ->.
  { apply (same_row (at_users d)); auto; apply O || by apply Hp. }
  split; [done|]. split; [|apply Hs]. destruct (Hs u) as (_ & _ & T).
  destruct (Hr u) as [R|R]; [|by apply A2]. unfold authority. by rewrite R, T.
Qed.

Lemma UpdateAccount_governed d account :
  accounts_ok d -> wp d (UpdateAccount actor account now) (fun _ d' => governed actor d d').
Proof.
  intros O. unfold UpdateAccount, update_users. apply wp_bind, wp_accountTarget; [|by intros; apply governed_refl].
  intros u a Hu Hid V E. apply wp_bind, wp_guard; [|by intros; apply governed_refl].
  intros C. repeat wp_step; try (by apply governed_refl); try apply wp_requireAffected; intros.
  all: try apply wp_hashPassword; intros; try (destruct r; [|by apply governed_refl]).
  all: repeat wp_step; try (by apply governed_refl); try apply wp_requireAffected; intros.
  all: eapply step_of_target; try done; cbn; auto; try (intros v; rewrite ?andb_true_iff; lia).
Qed.

Lemma UpdateAccountRole_governed d id role :
  accounts_ok d -> wp d (UpdateAccountRole actor id role now) (fun _ d' => governed actor d d').
Proof.
  intros O. unfold UpdateAccountRole, role_exists, update_users.
  apply wp_bind, wp_accountTarget; [|by intros; apply governed_refl].
  intros u a Hu Hid V E. apply wp_bind, wp_guard; [|by intros; apply governed_refl].
  intros C. repeat wp_step; try (by apply governed_refl); apply wp_requireAffected; intros.
  eapply step_of_target; try done; cbn; auto. intros v; rewrite ?andb_true_iff; lia.
Qed.

Lemma DeleteAccount_governed d id :
  accounts_ok d -> wp d (DeleteAccount actor id) (fun _ d' => governed actor d d').
Proof.
  intros O. unfold DeleteAccount. apply wp_bind, wp_accountTarget; [|by intros; apply governed_refl].
  intros u a Hu Hid V E. apply wp_bind, wp_guard; [|by intros; apply governed_refl].
  intros C. repeat wp_step; try (by apply governed_refl); apply wp_requireAffected; intros.
  apply governed_users; [|by apply delete_ok]. apply us_delete. intros v Hv Hp%Z.eqb_eq.
  assert (v = u) as -> by (apply (same_row (at_users d)); auto; [apply O|congruence]).
  exact (proj1 (scope_authority _ _ _ _ _ E V C)).
Qed.

Lemma wp_check_new_account d op email role tenant (Q : outcome unit -> AccountTables -> Prop) :
  (canManageAccount actor role tenant = true -> Q (Ok tt) d) -> (forall e, Q (Err e) d) ->
  wp d (check_new_account op actor email role tenant) Q.
Proof.
  intros H K. unfold check_new_account, role_exists, customer_exists. repeat wp_step; auto.
Qed.

Lemma insert_user_governed d d' name hash email role tenant status :
  accounts_ok d -> canManageAccount actor role tenant = true ->
  insert_user name hash email role tenant status now d = Some d' -> governed actor d d'.
Proof.
  intros [N X] C. unfold insert_user. case_match; [done|]. intros [= <-].
  rewrite List.Forall_forall in X.
  split_and!; cbn; auto.
  - apply us_insert; [done|]. intros v Hv. cbn. apply X in Hv. lia.
  - split; cbn.
    + rewrite map_app. apply NoDup_ListNoDup, NoDup_app. split_and!.
      * by apply NoDup_ListNoDup.
      * intros z Hz%list_elem_of_In Hz'%list_elem_of_In. cbn in Hz'. destruct Hz' as [<-|[]].
        apply in_map_iff in Hz as (v & E & Hv). apply X in Hv. lia.
      * apply NoDup_singleton.
    + apply Forall_app; split; [|by repeat constructor; cbn; lia].
      apply List.Forall_forall. intros v Hv. apply X in Hv. lia.
Qed.

Lemma CreateAccount_governed d account :
  accounts_ok d -> wp d (CreateAccount actor account now) (fun _ d' => governed actor d d').
Proof.
  intros O. unfold CreateAccount. apply wp_bind, wp_check_new_account; [|by intros; apply governed_refl].
  intros C. apply wp_bind, wp_hashPassword. intros [h|]; [|by apply governed_refl].
  repeat wp_step; [by eapply insert_user_governed|by apply governed_refl].
Qed.

Lemma CreateAccountInvitation_governed d name email role tenant :
  accounts_ok d ->
  wp d (CreateAccountInvitation actor name email role tenant now) (fun _ d' => governed actor d d').
Proof.
  intros O. unfold CreateAccountInvitation, randomUUID.
  apply wp_bind, wp_check_new_account; [|by intros; apply governed_refl]. intros C.
  repeat wp_step.
  all: apply wp_hashPassword; intros [h|]; [|by apply governed_refl].
  all: repeat wp_step; [by eapply insert_user_governed|by apply governed_refl].
Qed.

Lemma UpdateProfilePassword_governed d password :
  accounts_ok d -> wp d (UpdateProfilePassword actor password now) (fun _ d' => governed actor d d').
Proof.
  intros O. unfold UpdateProfilePassword, update_users, load_profile. apply wp_bind, wp_hashPassword.
  intros [h|]; [|by apply governed_refl].
  assert (G : governed actor d (with_users (fst (update_where
    (fun u => (ur_id u =? u_ID actor) && (ur_idCostumer u =? u_TenantID actor))
    (set_password h now) (at_users d))) d)).
  { apply governed_users; [|by apply update_ok]. apply us_own_password. }
  repeat wp_step; try (by apply governed_refl); try done.
  apply wp_requireAffected. intros [u|]; [|done]. repeat wp_step; done.
Qed.
End Theorems.

(** ** The handlers *)
Section Requests.
Context `{S : MySQL} `{B : Bcrypt} (toUpper : string -> string) (now : time).
Implicit Types d : AccountTables.

(** The signed-in user of a request. *)
Definition acts_for (r : Request) d (actor : User) : Prop :=
  exists cookie su, rq_cookie r = Some cookie /\ session_user cookie now d = Some su
                    /\ actor = user_of_session su.

(** A request leaves the tables as they are, or acts for its signed-in user. *)
Definition request_governed (r : Request) d d' : Prop :=
  d' = d \/ exists actor, acts_for r d actor /\ governed actor d d'.

Lemma wp_with_user d r k (Q : outcome areply -> AccountTables -> Prop) :
  (forall actor, acts_for r d actor -> wp d (k actor) Q) ->
  (forall reply, Q (Ok reply) d) -> (forall e, Q (Err e) d) ->
  wp d (with_user now r k) Q.
Proof.
  intros H K E. unfold with_user, authenticatedSession, Get. repeat wp_step; try apply K; try apply E.
  apply H. by eexists _, _.
Qed.

Lemma wp_requireCapability d r c k (Q : outcome areply -> AccountTables -> Prop) :
  (forall actor, acts_for r d actor -> In c (capabilitiesForRole (u_Role actor)) -> wp d (k actor) Q) ->
  (forall reply, Q (Ok reply) d) -> (forall e, Q (Err e) d) ->
  wp d (requireCapability now r c k) Q.
Proof.
  intros H K E. apply wp_with_user; [|done..]. intros actor A.
  destruct (existsb _ _) eqn:X; [|apply wp_ret, K].
  apply H; [done|]. by apply existsb_exists in X as (x & Hx & ->%String.eqb_eq).
Qed.

(** The listings leave the tables alone. *)
Lemma ShowAccounts_pure d r (P : AccountTables -> Prop) :
  P d -> wp d (ShowAccounts now r) (fun _ => P).
Proof.
  intros H. apply wp_requireCapability; [|done..]. intros actor _ _.
  repeat wp_step. apply wp_ListAccounts; [intros page _|intros m]; repeat wp_step; done.
Qed.

Lemma ShowCustomers_pure d r (P : AccountTables -> Prop) :
  P d -> wp d (ShowCustomers now r) (fun _ => P).
Proof.
  intros H. apply wp_requireCapability; [|done..]. intros actor _ _.
  unfold ListAdminCustomers, query_page. repeat wp_step; done.
Qed.

(** What a mutation and the listing after it give. *)
Lemma wp_mutation {A} d (m : M AccountTables A) (k : outcome A -> M AccountTables areply)
    (P : AccountTables -> Prop) :
  wp d m (fun _ => P) -> (forall r d', P d' -> wp d' (k r) (fun _ => P)) ->
  wp d (bind (attempt m) k) (fun _ => P).
Proof.
  intros H K. apply wp_bind, wp_attempt. eapply wp_weaken; [exact H|].
  intros [a|[]] d' Hd; auto.
Qed.

Lemma capability_role c role :
  In c (capabilitiesForRole role) -> c = "customers.manage" -> role = 1.
Proof.
  intros H ->. unfold capabilitiesForRole in H.
  destruct (Z.eqb_spec role 1); [done|]. repeat case_match; cbn in H; naive_solver.
Qed.

Lemma governed_customers actor d l next :
  accounts_ok d -> u_Role actor = 1 -> governed actor d (with_customers l next d).
Proof.
  intros [N X] R. split_and!; cbn; [apply us_none|by split|done|by right].
Qed.

Ltac account_request :=
  match goal with
  | |- wp _ (with_id _ _ _) _ => unfold with_id
  | |- wp _ (ShowAccounts _ _) _ => by apply ShowAccounts_pure
  | |- wp _ (ShowCustomers _ _) _ => by apply ShowCustomers_pure
  | |- _ => wp_step
  end.

Lemma account_requests (rt : account_route) (r : Request) (w : world AccountTables) :
  accounts_ok (w_db w) ->
  request_governed r (w_db w) (w_db (snd (serve_accounts toUpper now rt r w))).
Proof.
  set (d := w_db w). intros O.
  assert (H : wp d (serve_accounts toUpper now rt r) (fun _ d' => request_governed r d d')); [|by apply H].
  assert (Hd : request_governed r d d) by by left.
  assert (G : forall actor A (m : M AccountTables A) (k : outcome A -> M AccountTables areply), acts_for r d actor ->
    wp d m (fun _ d' => governed actor d d') ->
    (forall x d', request_governed r d d' -> wp d' (k x) (fun _ d' => request_governed r d d')) ->
    wp d (bind (attempt m) k) (fun _ d' => request_governed r d d')).
  { intros actor A m k Ha Hm Hk. apply wp_mutation; [|done].
    eapply wp_weaken; [exact Hm|]. intros x d' Hg. right. by exists actor. }
  destruct rt; cbn [serve_accounts].
  all: unfold Roles, ShowProfile, UpdateProfile, ShowAccounts, PostAccount, PostInvitation, PutAccount,
         ChangeAccountRole, RemoveAccount, ShowCustomers, PostCustomer, PutCustomer, RemoveCustomer.
  all: first [apply wp_requireCapability | apply wp_with_user]; try done; intros actor Ha;
    try (intros Hc; pose proof (fun E => capability_role _ _ Hc E) as Hrole).
  all: try solve [unfold ListRoles, load_profile, ListAdminCustomers, query_page; repeat wp_step; done].
  all: try solve [apply wp_mutation; [apply wp_ListAccounts; done|intros; repeat wp_step; done]].
  all: repeat first
    [ apply wp_ret; done
    | eapply G; [exact Ha| |intros x d' Hx; repeat account_request; done]
    | account_request ].
  all: try (by apply UpdateProfilePassword_governed).
  all: try (by apply CreateAccount_governed).
  all: try (by apply CreateAccountInvitation_governed).
  all: try (by apply UpdateAccount_governed).
  all: try (by apply UpdateAccountRole_governed).
  all: try (by apply DeleteAccount_governed).
  all: unfold CreateCustomer, UpdateCustomer, DeleteCustomer, requireAffected, randomToken.
  all: repeat wp_step; try (by apply governed_refl); by apply governed_customers; [|apply Hrole].
Qed.

(** Claim C6: account administration stays within the authority of the signed-in
    user.  Whatever a request to the account, profile, role and customer routes
    contains, and whatever calls fail, it leaves the tables as they are or changes
    them for the user whose live session it carries.  That change is one step of the
    specification: adding, editing or deleting users that this user may manage (all
    for role 1; for role 2 those of the active tenant with a role above 1, before and
    after the change), or setting the user's own password.  Customers change for
    role 1 only; sessions never; identifiers stay unique. *)
Theorem account_requests_governed (rt : account_route) (r : Request) (w : world AccountTables) :
  accounts_ok (w_db w) ->
  request_governed r (w_db w) (w_db (snd (serve_accounts toUpper now rt r w))).
Proof. apply account_requests. Qed.

(** The users beyond the reach of an actor without role 1: those at or above role 1,
    and those of other tenants. *)
Definition beyond (actor : User) (u : UserRow) : bool :=
  (ur_role u <=? 1) || negb (ur_idCostumer u =? activeTenant actor).

(** A user, without what its owner may change. *)
Definition own_erased (actor : User) (u : UserRow) : UserRow :=
  if (ur_id u =? u_ID actor) && (ur_idCostumer u =? u_TenantID actor)
  then {| ur_id := ur_id u; ur_name := ur_name u; ur_email := ur_email u; ur_password := "";
          ur_role := ur_role u; ur_idCostumer := ur_idCostumer u; ur_status := ur_status u;
          ur_created_at := ur_created_at u; ur_updated_at := None |}
  else u.

Lemma authority_not_beyond actor u : u_Role actor <> 1 -> authority actor u -> beyond actor u = false.
Proof.
  intros N. unfold authority, canManageAccount, beyond. rewrite orb_true_iff, !andb_true_iff.
  intros [H|[[_ H] ->]]; [lia|]. by rewrite orb_false_r, Z.leb_gt, <- Z.ltb_lt.
Qed.

Lemma no_authority actor u : u_Role actor <> 1 -> u_Role actor <> 2 -> ~ authority actor u.
Proof.
  intros N1 N2. unfold authority, canManageAccount. rewrite orb_true_iff, !andb_true_iff. lia.
Qed.

Lemma users_step_beyond actor l l' :
  users_step actor l l' -> u_Role actor <> 1 ->
  map (own_erased actor) (List.filter (beyond actor) l')
  = map (own_erased actor) (List.filter (beyond actor) l).
Proof.
  intros H N. destruct H as [l|l u A _|l p f Hf|l p Hp|l hash updated]; [f_equal..|].
  - rewrite List.filter_app. cbn. rewrite (authority_not_beyond _ _ N A). apply app_nil_r.
  - induction l as [|u l IH]; [done|]. cbn. rewrite IH by (intros; apply Hf; [by right|done]).
    destruct (p u) eqn:E; [|done]. destruct (Hf u ltac:(by left) E) as (A1 & A2 & _).
    by rewrite (authority_not_beyond _ _ N A1), (authority_not_beyond _ _ N A2).
  - induction l as [|u l IH]; [done|]. cbn.
    destruct (p u) eqn:E; cbn; rewrite IH by (intros; apply Hp; [by right|done]); [|done].
    by rewrite (authority_not_beyond _ _ N (Hp u ltac:(by left) E)).
  - induction l as [|u l IH]; [done|]. cbn [map List.filter]. set (v := if _ : bool then _ else u).
    assert (Hb : beyond actor v = beyond actor u) by (unfold v; by destruct (_ && _)).
    rewrite Hb. destruct (beyond actor u); [|done]. cbn [map]. rewrite IH. apply (f_equal2 cons); [|done]. unfold v, own_erased.
    destruct ((ur_id u =? u_ID actor) && _) eqn:E; cbn; by rewrite ?E.
Qed.

Lemma users_step_powerless actor l l' :
  users_step actor l l' -> u_Role actor <> 1 -> u_Role actor <> 2 ->
  map (own_erased actor) l' = map (own_erased actor) l.
Proof.
  intros H N1 N2. destruct H as [l|l u A _|l p f Hf|l p Hp|l hash updated].
  - done.
  - by apply no_authority in A.
  - rewrite map_map. apply map_ext_in. intros u Hu. destruct (p u) eqn:E; [|done].
    destruct (Hf u Hu E) as (A & _). by apply no_authority in A.
  - induction l as [|u l IH]; [done|]. cbn. destruct (p u) eqn:E; cbn.
    + pose proof (Hp u ltac:(by left) E) as A. by apply no_authority in A.
    + rewrite IH; [done|]. intros; apply Hp; [by right|done].
  - rewrite map_map. apply map_ext. intros u. unfold own_erased.
    destruct ((ur_id u =? u_ID actor) && _) eqn:E; cbn; by rewrite ?E.
Qed.

(** Claim C7: no request raises its sender's power.  A request of a user without role
    1 leaves every user at or above role 1 and every user of another tenant as it
    was: none is edited, deleted, added or given such a role, but for the sender's
    own password; and customers do not change.  A user with neither role 1 nor role 2
    changes nobody at all. *)
Theorem accounts_do_not_escalate (rt : account_route) (r : Request) (actor : User)
    (w : world AccountTables) :
  accounts_ok (w_db w) -> acts_for r (w_db w) actor -> u_Role actor <> 1 ->
  let d' := w_db (snd (serve_accounts toUpper now rt r w)) in
  map (own_erased actor) (List.filter (beyond actor) (at_users d'))
  = map (own_erased actor) (List.filter (beyond actor) (at_users (w_db w)))
  /\ at_customers d' = at_customers (w_db w)
  /\ (u_Role actor <> 2 ->
      map (own_erased actor) (at_users d') = map (own_erased actor) (at_users (w_db w))).
Proof.
  intros O A N. cbv zeta. destruct (account_requests rt r w O) as [->|(actor' & A' & U & _ & _ & C)]; [done|].
  assert (actor' = actor) as -> by (destruct A as (? & ? & ? & ? & ->), A' as (? & ? & ? & ? & ->); congruence).
  split_and!; [by apply users_step_beyond|by destruct C|intros; by apply users_step_powerless].
Qed.
End Requests.

(** ** Concrete requests *)
Lemma sample_accounts_ok : accounts_ok sample_accounts.
Proof.
  split; cbn; repeat constructor; cbn; intuition congruence.
Qed.

(** The administrator of tenant 8 asks to edit the superadmin and the member. *)
Definition admin_session : string :=
  Eval vm_compute in match first_cookie (fst (signed_in "admin@x")) with Some c => c | None => "" end.

Definition admin_world : world AccountTables :=
  Eval vm_compute in World (w_db (snd (signed_in "admin@x"))) [] [].

Definition rename_request (session id : string) : Request :=
  {| rq_path := [("idUser", id)]; rq_header := []; rq_query := []; rq_cookie := Some session;
     rq_body := BodyObject [("name", text_field "renamed")] |}.

Definition serve_sample (rt : account_route) (r : Request) : M AccountTables areply :=
  serve_accounts (B := plain_bcrypt) (fun s => s) noon rt r.

Definition names_after (r : Request) (w : world AccountTables) : list string :=
  map ur_name (at_users (w_db (snd (serve_sample PutAccounts r w)))).

Lemma admin_world_ok : accounts_ok (w_db admin_world).
Proof. split; cbn; repeat constructor; cbn; intuition congruence. Qed.

Lemma account_requests_governed_witness :
  accounts_ok (w_db admin_world)
  /\ request_governed noon (rename_request admin_session "3") (w_db admin_world)
       (w_db (snd (serve_sample PutAccounts (rename_request admin_session "3") admin_world)))
  /\ names_after (rename_request admin_session "3") admin_world = ["n"; "n"; "renamed"].
Proof.
  split; [exact admin_world_ok|]. split.
  - exact (account_requests_governed (B := plain_bcrypt) (fun s => s) noon PutAccounts
             (rename_request admin_session "3") admin_world admin_world_ok).
  - vm_compute. reflexivity.
Defined.

Definition admin_user : User :=
  {| u_ID := 2; u_TenantID := 8; u_ActiveTenantID := 8; u_Name := "n"; u_Email := "admin@x"; u_Role := 2;
     u_PasswordHash := "$2a$Secret-pass-1"; u_Status := "active"; u_ImpersonationReason := None;
     u_ImpersonationExpiresAt := None |}.

Definition admin_row : SessionRow :=
  Eval vm_compute in match at_sessions (w_db admin_world) with s :: _ => s | [] => root_row end.

Lemma accounts_do_not_escalate_witness :
  acts_for noon (rename_request admin_session "1") (w_db admin_world) admin_user
  /\ map (own_erased admin_user) (List.filter (beyond admin_user)
         (at_users (w_db (snd (serve_sample PutAccounts (rename_request admin_session "1") admin_world)))))
     = map (own_erased admin_user) (List.filter (beyond admin_user) (at_users (w_db admin_world))).
Proof.
  assert (A : acts_for noon (rename_request admin_session "1") (w_db admin_world) admin_user).
  { exists admin_session, (admin_row, sample_user 2 2 8 "admin@x"). split; [reflexivity|].
    split; vm_compute; reflexivity. }
  assert (N : u_Role admin_user <> 1) by discriminate.
  split; [exact A|].
  exact (proj1 (accounts_do_not_escalate (B := plain_bcrypt) (fun s => s) noon PutAccounts
    (rename_request admin_session "1") admin_user admin_world admin_world_ok A N)).
Defined.

(** A session keeps its active tenant when its user loses role 1: a superadmin of
    tenant 7 who switched to tenant 8 and was then made an administrator of tenant 7
    still manages the users of tenant 8. *)
Definition demoted_world : world AccountTables :=
  World (with_users (map (fun u => if ur_id u =? 1 then set_role 2 noon u else u) (at_users switched_tables))
           switched_tables) [] [].

Example demoted_user_keeps_foreign_tenant :
  names_after (rename_request root_session "3") demoted_world = ["n"; "n"; "renamed"].
Proof. vm_compute. reflexivity. Qed.
