(* ===== verification/Hmac.v ===== *)
(** * HMAC, SHA-1 and the text encodings of identity tokens

    Of Go's standard library: crypto/hmac over a hash with blocks of 64 bytes,
    crypto/sha1, encoding/base32 without padding, and base64.RawURLEncoding. *)

From S2P Require Import Prelude GoStrings Sha256 Secrets LegacyAuth.

(** ** SHA-1 *)
Record hash1 := Hash1 { g0 : Z; g1 : Z; g2 : Z; g3 : Z; g4 : Z }.

Definition rotl (n x : Z) : Z := rotr (32 - n) x.

(** The function and the constant of a round: the constants are roots. *)
Definition round_fn (i : nat) (b c d : Z) : Z :=
  if (i <? 20)%nat then ch b c d
  else if (i <? 40)%nat then Z.lxor b (Z.lxor c d)
  else if (i <? 60)%nat then maj b c d
  else Z.lxor b (Z.lxor c d).

Definition round_constant (i : nat) : Z :=
  let root n := Z.sqrt (Z.shiftl n 60) in
  if (i <? 20)%nat then root 2 else if (i <? 40)%nat then root 3
  else if (i <? 60)%nat then root 5 else root 10.

Definition sha1_round (i : nat) (w : Z) (s : hash1) : hash1 :=
  let '(Hash1 a b c d e) := s in
  let t := wadd (rotl 5 a) (wadd (round_fn i b c d) (wadd e (wadd (round_constant i) w))) in
  Hash1 t a (rotl 30 b) c d.

Fixpoint rounds1 (n i : nat) (window : list Z) (s : hash1) : hash1 :=
  match n with
  | O => s
  | S n' =>
      let at_ k := nth k window 0 in
      let next := rotl 1 (Z.lxor (at_ 13%nat) (Z.lxor (at_ 8%nat) (Z.lxor (at_ 2%nat) (at_ 0%nat)))) in
      rounds1 n' (S i) (tail window ++ [next])%list (sha1_round i (hd 0 window) s)
  end.

Definition compress1 (s : hash1) (block : list Z) : hash1 :=
  let '(Hash1 a b c d e) := rounds1 80 0 block s in
  Hash1 (wadd (g0 s) a) (wadd (g1 s) b) (wadd (g2 s) c) (wadd (g3 s) d) (wadd (g4 s) e).

Fixpoint blocks1 (fuel : nat) (ws : list Z) (s : hash1) : hash1 :=
  match fuel, ws with
  | S n, _ :: _ => blocks1 n (drop 16 ws) (compress1 s (take 16 ws))
  | _, _ => s
  end.

Definition initial_hash1 : hash1 :=
  Hash1 0x67452301 0xefcdab89 0x98badcfe 0x10325476 0xc3d2e1f0.

Definition sum1 (s : string) : string :=
  let ws := words_of (padded (map code_of (chars s))) in
  let '(Hash1 a b c d e) := blocks1 (length ws) ws initial_hash1 in
  string_of (flat_map (big_endian 4) [a; b; c; d; e]).

Example sha1_abc : hexEncode (sum1 "abc") = "a9993e364706816aba3e25717850c26c9cd0d89d".
Proof. vm_compute. reflexivity. Qed.

Example sha1_empty : hexEncode (sum1 "") = "da39a3ee5e6b4b0d3255bfef95601890afd80709".
Proof. vm_compute. reflexivity. Qed.

(** ** HMAC *)
Definition hmac (sum : string -> string) (key message : string) : string :=
  let k := bytes_of (if 64 <? slen key then sum key else key) in
  let k := (k ++ repeat 0 (64 - length k))%list in
  let pad b := string_of (map (Z.lxor b) k) in
  sum (pad 0x5c +:+ sum (pad 0x36 +:+ message)).

Definition hmac256 : string -> string -> string := hmac sum256.
Definition hmac1 : string -> string -> string := hmac sum1.

Example hmac256_jefe :
  hexEncode (hmac256 "Jefe" "what do ya want for nothing?")
  = "5bdcc146bf60754e6a042426089575c75a003f089d2739839dec58b964ec3843".
Proof. vm_compute. reflexivity. Qed.

Example hmac1_jefe :
  hexEncode (hmac1 "Jefe" "what do ya want for nothing?") = "effcdf6ae5eb2fa2d27416d5f184df9c259a7c79".
Proof. vm_compute. reflexivity. Qed.

(** ** Base 32 *)
Definition b32_char (v : Z) : ascii := if v <? 26 then z_byte (65 + v) else z_byte (50 + (v - 26)).

Definition b32_value (c : ascii) : option Z :=
  let z := byte_z c in
  if (65 <=? z) && (z <=? 90) then Some (z - 65)
  else if (50 <=? z) && (z <=? 55) then Some (z - 50 + 26)
  else None.

(** Five bytes in eight characters; a shorter group in as many as it needs. *)
Definition b32_quantum (a b c d e : Z) : list Z :=
  [a / 8; a mod 8 * 4 + b / 64; b / 2 mod 32; b mod 2 * 16 + c / 16; c mod 16 * 2 + d / 128;
   d / 4 mod 32; d mod 4 * 8 + e / 32; e mod 32].

Fixpoint b32_quanta (l : list Z) : list Z :=
  match l with
  | [] => []
  | [a] => take 2 (b32_quantum a 0 0 0 0)
  | [a; b] => take 4 (b32_quantum a b 0 0 0)
  | [a; b; c] => take 5 (b32_quantum a b c 0 0)
  | [a; b; c; d] => take 7 (b32_quantum a b c d 0)
  | a :: b :: c :: d :: e :: rest => (b32_quantum a b c d e ++ b32_quanta rest)%list
  end.

(** The bytes of up to eight values: the unused bits of the last one are ignored, and
    one, three or six values leave out their last, without an error. *)
Definition b32_bytes (v : list Z) : list Z :=
  let at_ i := nth i v 0 in
  let all := [at_ 0%nat * 8 + at_ 1%nat / 4; at_ 1%nat mod 4 * 64 + at_ 2%nat * 2 + at_ 3%nat / 16;
              at_ 3%nat mod 16 * 16 + at_ 4%nat / 2;
              at_ 4%nat mod 2 * 128 + at_ 5%nat * 4 + at_ 6%nat / 8;
              at_ 6%nat mod 8 * 32 + at_ 7%nat] in
  match length v with
  | 8%nat => all
  | 7%nat => take 4 all
  | 5%nat => take 3 all
  | 4%nat => take 2 all
  | 2%nat => take 1 all
  | _ => []
  end.

Fixpoint b32_values (l : list ascii) : option (list Z) :=
  match l with
  | [] => Some []
  | c :: l' => v ← b32_value c; vs ← b32_values l'; Some (v :: vs)
  end.

Fixpoint b32_groups (fuel : nat) (v : list Z) : list Z :=
  match fuel, v with
  | S n, _ :: _ => (b32_bytes (take 8 v) ++ b32_groups n (drop 8 v))%list
  | _, _ => []
  end.

(** [base32.StdEncoding.WithPadding(base32.NoPadding)]; the decoder skips line ends. *)
Definition base32Encode (s : string) : string := of_chars (map b32_char (b32_quanta (bytes_of s))).

Definition base32Decode (s : string) : option string :=
  v ← b32_values (List.filter (fun c => negb (Ascii.eqb c (byte 10) || Ascii.eqb c (byte 13))) (chars s));
  Some (string_of (b32_groups (length v) v)).

(** Decoding inverts encoding. *)
Definition quintet (v : Z) : Prop := 0 <= v < 32.

Lemma quintet_cases v (P : Z -> Prop) :
  quintet v -> Forall P (map Z.of_nat (seq 0 32)) -> P v.
Proof.
  intros Hv H. rewrite Forall_forall in H. apply H. unfold quintet in Hv.
  apply list_elem_of_In, in_map_iff. exists (Z.to_nat v). split; [lia|]. apply in_seq. lia.
Qed.

Lemma b32_value_char v : quintet v -> b32_value (b32_char v) = Some v.
Proof.
  intros H. apply (quintet_cases v (fun v => b32_value (b32_char v) = Some v)); [done|].
  repeat constructor; vm_compute; reflexivity.
Qed.

Lemma b32_char_kept v :
  quintet v -> negb (Ascii.eqb (b32_char v) (byte 10) || Ascii.eqb (b32_char v) (byte 13)) = true.
Proof.
  intros H. apply (quintet_cases v (fun v =>
    negb (Ascii.eqb (b32_char v) (byte 10) || Ascii.eqb (b32_char v) (byte 13)) = true)); [done|].
  repeat constructor; vm_compute; reflexivity.
Qed.

Lemma b32_quantum_range a b c d e :
  is_byte a -> is_byte b -> is_byte c -> is_byte d -> is_byte e -> Forall quintet (b32_quantum a b c d e).
Proof.
  unfold is_byte, quintet. intros. unfold b32_quantum.
  repeat (constructor; [Z.to_euclidean_division_equations; lia|]). constructor.
Qed.

Lemma b32_bytes_quantum a b c d e :
  is_byte a -> is_byte b -> is_byte c -> is_byte d -> is_byte e ->
  let q := b32_quantum a b c d e in
  b32_bytes q = [a; b; c; d; e] /\
  (b = 0 -> c = 0 -> d = 0 -> e = 0 -> b32_bytes (take 2 q) = [a]) /\
  (c = 0 -> d = 0 -> e = 0 -> b32_bytes (take 4 q) = [a; b]) /\
  (d = 0 -> e = 0 -> b32_bytes (take 5 q) = [a; b; c]) /\
  (e = 0 -> b32_bytes (take 7 q) = [a; b; c; d]).
Proof.
  unfold is_byte, b32_bytes, b32_quantum. cbn [length take nth]. intros Ha Hb Hc Hd He.
  assert (E1 : a / 8 * 8 + (a mod 8 * 4 + b / 64) / 4 = a) by (Z.to_euclidean_division_equations; lia).
  assert (E2 : (a mod 8 * 4 + b / 64) mod 4 * 64 + b / 2 mod 32 * 2 + (b mod 2 * 16 + c / 16) / 16 = b)
    by (Z.to_euclidean_division_equations; lia).
  assert (E3 : (b mod 2 * 16 + c / 16) mod 16 * 16 + (c mod 16 * 2 + d / 128) / 2 = c)
    by (Z.to_euclidean_division_equations; lia).
  assert (E4 : (c mod 16 * 2 + d / 128) mod 2 * 128 + d / 4 mod 32 * 4 + (d mod 4 * 8 + e / 32) / 8 = d)
    by (Z.to_euclidean_division_equations; lia).
  assert (E5 : (d mod 4 * 8 + e / 32) mod 8 * 32 + e mod 32 = e) by (Z.to_euclidean_division_equations; lia).
  rewrite E1, E2, E3, E4, E5. split_and!; [done|..]; intros; subst; repeat f_equal;
    Z.to_euclidean_division_equations; lia.
Qed.

Lemma b32_quanta_spec n l :
  (length l <= n)%nat -> Forall is_byte l ->
  Forall quintet (b32_quanta l) /\ forall m, (length (b32_quanta l) <= m)%nat -> b32_groups m (b32_quanta l) = l.
Proof.
  assert (Z0 : is_byte 0) by (unfold is_byte; lia).
  revert l. induction n as [|n IH]; intros l Hn Hl; [destruct l; [|cbn in Hn; lia]; by split; [|intros []]|].
  destruct l as [|a l]; [by split; [|intros []]|]. apply Forall_cons in Hl as [Ha Hl].
  destruct l as [|b l]; [|apply Forall_cons in Hl as [Hb Hl]; destruct l as [|c l];
    [|apply Forall_cons in Hl as [Hc Hl]; destruct l as [|d l];
    [|apply Forall_cons in Hl as [Hd Hl]; destruct l as [|e l]; [|apply Forall_cons in Hl as [He Hl]]]]].
  all: cbn [b32_quanta].
  all: match goal with |- context [b32_quantum ?a ?b ?c ?d ?e] =>
    pose proof (b32_quantum_range a b c d e) as R; pose proof (b32_bytes_quantum a b c d e) as E end.
  all: cbv zeta in E; repeat (specialize (R ltac:(done))); repeat (specialize (E ltac:(done)));
    destruct E as (E5 & E1 & E2 & E3 & E4).
  1-4: split; [by apply Forall_take|]; intros [|m] Hm; [cbn in Hm; lia|];
    cbn [b32_quantum take b32_groups drop]; destruct m; cbn [b32_groups]; rewrite app_nil_r; auto.
  destruct (IH l) as [R' G]; [cbn in Hn; lia|done|]. split; [by apply Forall_app|].
  intros [|m] Hm; [cbn in Hm; lia|]. rewrite length_app in Hm. cbn [b32_quantum length] in Hm.
  change (b32_groups (S m) (b32_quantum a b c d e ++ b32_quanta l))
    with (b32_bytes (b32_quantum a b c d e) ++ b32_groups m (b32_quanta l))%list.
  rewrite E5, G by lia. done.
Qed.

Lemma base32_round_trip s : base32Decode (base32Encode s) = Some s.
Proof.
  unfold base32Decode, base32Encode. rewrite chars_of_chars.
  destruct (b32_quanta_spec (length (bytes_of s)) (bytes_of s) (le_n _) (bytes_of_range s)) as [R G].
  assert (F : List.filter (fun c => negb (Ascii.eqb c (byte 10) || Ascii.eqb c (byte 13)))
                (map b32_char (b32_quanta (bytes_of s))) = map b32_char (b32_quanta (bytes_of s))).
  { clear G. induction R as [|v l Hv R IH]; [done|]. cbn [map List.filter].
    by rewrite b32_char_kept, IH. }
  rewrite F. clear F.
  assert (V : b32_values (map b32_char (b32_quanta (bytes_of s))) = Some (b32_quanta (bytes_of s))).
  { clear G. induction R as [|v l Hv R IH]; [done|]. cbn [map b32_values].
    rewrite b32_value_char by done. cbn. by rewrite IH. }
  rewrite V. cbn. rewrite G by done. by rewrite string_of_bytes_of.
Qed.

(** The alphabet: upper-case letters and digits. *)
Definition base32_char (c : ascii) : bool := bool_decide (is_Some (b32_value c)).

Lemma base32_alphabet s : forallb base32_char (chars (base32Encode s)) = true.
Proof.
  unfold base32Encode. rewrite chars_of_chars.
  destruct (b32_quanta_spec (length (bytes_of s)) (bytes_of s) (le_n _) (bytes_of_range s)) as [R _].
  induction R as [|v l Hv R IH]; [done|]. cbn [map forallb]. rewrite IH, andb_true_r.
  unfold base32_char. by rewrite b32_value_char.
Qed.

Lemma base32_char_visible c : base32_char c = true -> visible c = true.
Proof.
  unfold base32_char, b32_value. rewrite bool_decide_eq_true. intros [z H].
  destruct c as [[] [] [] [] [] [] [] []]; vm_compute in H |- *; congruence.
Qed.

(** ** [base64.RawURLEncoding] *)
Definition url_value (c : ascii) : option Z :=
  if Ascii.eqb c "-"%char then Some 62
  else if Ascii.eqb c "_"%char then Some 63
  else if Ascii.eqb c "+"%char || Ascii.eqb c "/"%char then None
  else b64_value c.

Fixpoint raw_groups (l : list ascii) : option (list Z) :=
  match l with
  | [] => Some []
  | [_] => None
  | [w; x] => w ← url_value w; x ← url_value x; Some [w * 4 + x / 16]
  | [w; x; y] =>
      w ← url_value w; x ← url_value x; y ← url_value y;
      Some [w * 4 + x / 16; x mod 16 * 16 + y / 4]
  | w :: x :: y :: z :: rest =>
      w ← url_value w; x ← url_value x; y ← url_value y; z ← url_value z;
      tail ← raw_groups rest;
      Some (w * 4 + x / 16 :: x mod 16 * 16 + y / 4 :: y mod 4 * 64 + z :: tail)
  end.

Definition rawURLDecode (s : string) : option string :=
  string_of <$>
  raw_groups (List.filter (fun c => negb (Ascii.eqb c (byte 10) || Ascii.eqb c (byte 13))) (chars s)).

Example base32_foobar : base32Encode "foobar" = "MZXW6YTBOI" /\ base32Decode "MZXW6YTBOI" = Some "foobar".
Proof. vm_compute. split; reflexivity. Qed.

Example raw_url_round : rawURLDecode (rawURLEncode "a?>~") = Some "a?>~".
Proof. vm_compute. reflexivity. Qed.
