(* ===== verification/Bodies.v ===== *)
(** * Bodies from their bytes

    What [json.NewDecoder(...).Decode] and [json.Unmarshal] see of a text before they
    store its members into a struct: the [body] of [Http], read with the grammar of
    [JsonText].  [http.MaxBytesReader] cuts the text: a value that is not complete within
    the limit is an error.

    An instant is read from the decoded text of its string. *)

From S2P Require Import Prelude GoStrings GoTime Json JsonText Http.

Section Text.
Context `{F : Floats}.

(** The value of a number outside [float64]: it is stored in no field. *)
Definition unreadable : json := JNum (Float64 None "" "").

Definition field_of (v : syntax) : field :=
  {| fl_value := default unreadable (value_of v);
     fl_int := match v with SNum t => parseInt t | _ => None end |}.

Definition body_of_syntax (v : syntax) : body :=
  match v with
  | SNull => BodyNull
  | SObj d => BodyObject (map (fun kv => (fst kv, field_of (snd kv))) d)
  | _ => BodyOther
  end.

(** [json.NewDecoder(http.MaxBytesReader(w, r.Body, limit)).Decode]: the first value. *)
Definition decoder_body (limit : Z) (text : string) : body :=
  match skip_ws (take (Z.to_nat limit) (chars text)) with
  | [] => if limit <? slen text then BodyMalformed else BodyEOF
  | l => match value (text_fuel l) 0 l with
         | Some (v, _) => body_of_syntax v
         | None => BodyMalformed
         end
  end.

(** [json.Unmarshal]: the whole text. *)
Definition unmarshal_body (text : string) : body :=
  match parse_text text with Some v => body_of_syntax v | None => BodyMalformed end.
End Text.

(** ** Fields *)
Section Setters.
Context {S : Type}.

(** [any], when every number of it fits. *)
Definition to_readable_any (upd : json -> S -> S) : setter S := fun v s =>
  if json_eqb (fl_value v) unreadable then None else to_any upd v s.

(** [*bool]. *)
Definition to_bool_pointer (upd : option bool -> S -> S) : setter S := fun v s =>
  match fl_value v with JBool b => Some (upd (Some b) s) | JNull => Some (upd None s) | _ => None end.

(** [time.Time] and [*time.Time]. *)
Definition to_time (upd : time -> S -> S) : setter S := fun v s =>
  match fl_value v with
  | JStr t => (fun t => upd t s) <$> parseRFC3339 t
  | JNull => Some s
  | _ => None
  end.

Definition to_time_pointer (upd : option time -> S -> S) : setter S := fun v s =>
  match fl_value v with
  | JStr t => (fun t => upd (Some t) s) <$> parseRFC3339 t
  | JNull => Some (upd None s)
  | _ => None
  end.

(** [[]string]: a null element is the empty string. *)
Definition string_element (v : json) : option string :=
  match v with JStr t => Some t | JNull => Some "" | _ => None end.

Definition to_strings (upd : option (list string) -> S -> S) : setter S := fun v s =>
  match fl_value v with
  | JArr l => (fun l => upd (Some l) s) <$> mapM string_element l
  | JNull => Some (upd None s)
  | _ => None
  end.
End Setters.
