(* ===== verification/IdentityTables.v ===== *)
(** * Identity: the tables

    What the identity and service-account handlers keep beside the accounts and the
    sessions: columns of users, identity providers, SSO states, service accounts, their
    audit rows, and the nonces the process remembers; then the service accounts themselves
    (internal/serviceaccounts/handler.go, mysql/service_accounts.go). *)

From S2P Require Import Prelude GoStrings GoTime Json Effects Http Contracts RunTables AccountTables Sessions.
From S2P Require Import JsonText LegacyAuth Bodies.

Record MfaColumns := { mf_secretEncrypted : option string; mf_confirmedAt : option time }.
Definition no_mfa : MfaColumns := {| mf_secretEncrypted := None; mf_confirmedAt := None |}.

Record BreakGlassColumns := { bg_reason : option string; bg_expiresAt : option time }.
Definition no_break_glass : BreakGlassColumns := {| bg_reason := None; bg_expiresAt := None |}.

#[export] Instance break_glass_eq_dec : EqDecision BreakGlassColumns.
Proof. solve_decision. Defined.

Record ProviderRow := {
  ip_id : Z;
  ip_idCostumer : Z;
  ip_type : string;
  ip_name : string;
  ip_issuer : option string;
  ip_audience : option string;
  ip_status : string;
}.

Record StateRow := {
  ss_idCostumer : Z;
  ss_identityProviderId : Z;
  ss_state : string;
  ss_codeChallenge : string;
  ss_expiresAt : time;
  ss_consumedAt : option time;
}.

Record ServiceRow := {
  sv_id : Z;
  sv_idCostumer : Z;
  sv_idProject : option Z;
  sv_name : string;
  sv_credentialId : string;
  sv_secretHash : string;
  sv_scopes : option string;
  sv_expiresAt : option time;
  sv_revokedAt : option time;
  sv_lastUsedAt : option time;
}.

#[export] Instance state_row_eq_dec : EqDecision StateRow.
Proof. solve_decision. Defined.
#[export] Instance service_row_eq_dec : EqDecision ServiceRow.
Proof. solve_decision. Defined.

(** What these handlers write of an audit row. *)
Record EventRow := {
  ev_activeTenantId : Z;
  ev_action : string;
  ev_targetType : string;
  ev_targetId : Z;
  ev_result : string;
}.

Record IdentityTables := {
  it_accounts : AccountTables;
  it_mfa : gmap Z MfaColumns;  (** the MFA columns of users, NULL when absent *)
  it_breakGlass : gmap Z BreakGlassColumns;  (** the break-glass columns of users *)
  it_providers : list ProviderRow;
  it_nextProvider : Z;
  it_states : list StateRow;
  it_services : list ServiceRow;
  it_nextService : Z;
  it_events : list EventRow;
  it_nonces : gmap string time;  (** [replayedNonces], in the memory of the process *)
}.

Definition with_accounts (x : AccountTables) (d : IdentityTables) : IdentityTables :=
  {| it_accounts := x; it_mfa := it_mfa d; it_breakGlass := it_breakGlass d;
     it_providers := it_providers d; it_nextProvider := it_nextProvider d;
     it_states := it_states d; it_services := it_services d; it_nextService := it_nextService d;
     it_events := it_events d; it_nonces := it_nonces d |}.
Definition with_mfa (x : gmap Z MfaColumns) (d : IdentityTables) : IdentityTables :=
  {| it_accounts := it_accounts d; it_mfa := x; it_breakGlass := it_breakGlass d;
     it_providers := it_providers d; it_nextProvider := it_nextProvider d;
     it_states := it_states d; it_services := it_services d; it_nextService := it_nextService d;
     it_events := it_events d; it_nonces := it_nonces d |}.
Definition with_break_glass (x : gmap Z BreakGlassColumns) (d : IdentityTables) : IdentityTables :=
  {| it_accounts := it_accounts d; it_mfa := it_mfa d; it_breakGlass := x;
     it_providers := it_providers d; it_nextProvider := it_nextProvider d;
     it_states := it_states d; it_services := it_services d; it_nextService := it_nextService d;
     it_events := it_events d; it_nonces := it_nonces d |}.
Definition with_providers (x : list ProviderRow) (next : Z) (d : IdentityTables) : IdentityTables :=
  {| it_accounts := it_accounts d; it_mfa := it_mfa d; it_breakGlass := it_breakGlass d;
     it_providers := x; it_nextProvider := next; it_states := it_states d;
     it_services := it_services d; it_nextService := it_nextService d; it_events := it_events d;
     it_nonces := it_nonces d |}.
Definition with_states (x : list StateRow) (d : IdentityTables) : IdentityTables :=
  {| it_accounts := it_accounts d; it_mfa := it_mfa d; it_breakGlass := it_breakGlass d;
     it_providers := it_providers d; it_nextProvider := it_nextProvider d; it_states := x;
     it_services := it_services d; it_nextService := it_nextService d; it_events := it_events d;
     it_nonces := it_nonces d |}.
Definition with_services (x : list ServiceRow) (next : Z) (d : IdentityTables) : IdentityTables :=
  {| it_accounts := it_accounts d; it_mfa := it_mfa d; it_breakGlass := it_breakGlass d;
     it_providers := it_providers d; it_nextProvider := it_nextProvider d;
     it_states := it_states d; it_services := x; it_nextService := next;
     it_events := it_events d; it_nonces := it_nonces d |}.
Definition with_events (x : list EventRow) (d : IdentityTables) : IdentityTables :=
  {| it_accounts := it_accounts d; it_mfa := it_mfa d; it_breakGlass := it_breakGlass d;
     it_providers := it_providers d; it_nextProvider := it_nextProvider d;
     it_states := it_states d; it_services := it_services d; it_nextService := it_nextService d;
     it_events := x; it_nonces := it_nonces d |}.
Definition with_nonces (x : gmap string time) (d : IdentityTables) : IdentityTables :=
  {| it_accounts := it_accounts d; it_mfa := it_mfa d; it_breakGlass := it_breakGlass d;
     it_providers := it_providers d; it_nextProvider := it_nextProvider d;
     it_states := it_states d; it_services := it_services d; it_nextService := it_nextService d;
     it_events := it_events d; it_nonces := x |}.

(** ** Statements *)
Definition on_accounts {A} (m : M AccountTables A) : M IdentityTables A :=
  zoom it_accounts with_accounts m.

(** An INSERT of an audit row. *)
Definition add_event (tenant : Z) (action type : string) (id : Z) (result : string)
    (d : IdentityTables) : IdentityTables :=
  with_events (it_events d ++ [{| ev_activeTenantId := tenant; ev_action := action;
    ev_targetType := type; ev_targetId := id; ev_result := result |}])%list d.

(** [_, _ = ExecContext(...)]: a failure is ignored. *)
Definition ignored {D} (m : M D unit) : M D unit := let! _ := attempt m in ret tt.

(** ** Responses of httpx *)
Record APIError := { ae_Code : string; ae_Message : string }.

Section Authenticate.
Context `{S : MySQL} (now : time).

(** [browserauth.AuthenticateRequest] with a repository, or with a nil one. *)
Definition authenticate (sessions : bool) (r : Request) : M IdentityTables (option User) :=
  if sessions then on_accounts (AuthenticateRequest now r)
  else match rq_cookie r with
       | Some value => if String.eqb value "" then ret None
                       else fail (Panic "invalid memory address or nil pointer dereference")
       | None => ret None
       end.
End Authenticate.

(** * Service accounts *)
Record Account := {
  sa_ID : Z;
  sa_Name : string;
  sa_CredentialID : string;
  sa_ProjectID : option Z;
  sa_Scopes : option (list string);
  sa_ExpiresAt : option time;
  sa_RevokedAt : option time;
  sa_LastUsedAt : option time;
}.

Inductive service_payload :=
| SvError (e : APIError)
| SvAccounts (accounts : list Account)
| SvCreated (account : Account) (secret : string)
| SvRevoked.

Notation svreply := (reply_of service_payload).

Definition sv_error (status : Z) (code message : string) : svreply :=
  written status (SvError {| ae_Code := code; ae_Message := message |}).

(** ** The repository *)
Section Repository.
Context `{S : MySQL} `{B : Bcrypt} `{F : Floats}.
Notation R := (M IdentityTables).

(** [json.Marshal] of a [[]string]. *)
Definition marshal_scopes (scopes : option (list string)) : string :=
  match scopes with None => "null" | Some l => marshal (JArr (map JStr l)) end.

(** [json.Unmarshal] into a nil [[]string], its error ignored: the elements before the
    first one that is no string are kept as the decoder had set them. *)
Definition unmarshal_scopes (raw : string) : option (list string) :=
  match parse_text raw with
  | Some (SArr l) => Some (map (fun v => match v with SStr s => s | _ => "" end) l)
  | _ => None
  end.

Definition account_of_row (row : ServiceRow) : Account :=
  {| sa_ID := sv_id row; sa_Name := sv_name row; sa_CredentialID := sv_credentialId row;
     sa_ProjectID := sv_idProject row; sa_Scopes := sv_scopes row ≫= unmarshal_scopes;
     sa_ExpiresAt := sv_expiresAt row; sa_RevokedAt := sv_revokedAt row;
     sa_LastUsedAt := sv_lastUsedAt row |}.

Definition List_ (tenant : Z) : R (list Account) :=
  query "list service accounts" (fun d =>
    map account_of_row (List.filter (fun row => sv_idCostumer row =? tenant) (it_services d))).

(** [Create]: the secret is hashed; the audit is written after the row. *)
Definition Create (tenant : Z) (a : Account) (secret : string) : R Account :=
  let! salt := rand_read 16 in
  match salt ≫= fun s => bcrypt_generate s secret with
  | None => fail (DatabaseFailure "hash service account secret: database unavailable")
  | Some hash =>
      let! id := exec_count "create service account" (fun d =>
        (with_services (it_services d ++
           [{| sv_id := it_nextService d; sv_idCostumer := tenant; sv_idProject := sa_ProjectID a;
               sv_name := sa_Name a; sv_credentialId := sa_CredentialID a; sv_secretHash := hash;
               sv_scopes := Some (marshal_scopes (sa_Scopes a));
               sv_expiresAt := column_time <$> sa_ExpiresAt a; sv_revokedAt := None;
               sv_lastUsedAt := None |}])%list (it_nextService d + 1) d, it_nextService d)) in
      do! exec "audit service account creation"
            (add_event tenant "service_account.created" "service_account" id "success");
      ret {| sa_ID := id; sa_Name := sa_Name a; sa_CredentialID := sa_CredentialID a;
             sa_ProjectID := sa_ProjectID a; sa_Scopes := sa_Scopes a; sa_ExpiresAt := sa_ExpiresAt a;
             sa_RevokedAt := sa_RevokedAt a; sa_LastUsedAt := sa_LastUsedAt a |}
  end.

Definition set_revoked (now : time) (row : ServiceRow) : ServiceRow :=
  {| sv_id := sv_id row; sv_idCostumer := sv_idCostumer row; sv_idProject := sv_idProject row;
     sv_name := sv_name row; sv_credentialId := sv_credentialId row;
     sv_secretHash := sv_secretHash row; sv_scopes := sv_scopes row; sv_expiresAt := sv_expiresAt row;
     sv_revokedAt := Some (column_time now); sv_lastUsedAt := sv_lastUsedAt row |}.

Definition Revoke (tenant id : Z) (now : time) : R unit :=
  let! n := exec_count "revoke service account" (fun d =>
    let '(l, n) := update_where (fun row => (sv_id row =? id) && (sv_idCostumer row =? tenant)
                                            && bool_decide (sv_revokedAt row = None))
                     (set_revoked now) (it_services d) in
    (with_services l (it_nextService d) d, n)) in
  do! guard (negb (n =? 0)) ErrNotFound;
  exec "audit service account revocation"
    (add_event tenant "service_account.revoked" "service_account" id "success").

(** The WHERE of [ActiveServiceAccount]. *)
Definition active_service (tenant : Z) (subject : string) (now : time) (row : ServiceRow) : bool :=
  (sv_idCostumer row =? tenant) && same (sv_credentialId row) subject
  && bool_decide (sv_revokedAt row = None)
  && match sv_expiresAt row with None => true | Some t => after t now end.

Definition ActiveServiceAccount (tenant : Z) (subject : string) (now : time) : R bool :=
  let! row := query "validate OIDC service-account binding"
    (fun d => List.find (active_service tenant subject now) (it_services d)) in
  ret (match row with Some row => 0 <? sv_id row | None => false end).

(** ** The handlers *)
Record store_body := {
  st_Name : string;
  st_ProjectID : option Z;
  st_Scopes : option (list string);
  st_ExpiresAt : option time;
}.

Definition store_fields : list (string * setter store_body) :=
  [("name", to_string (fun s b => {| st_Name := s; st_ProjectID := st_ProjectID b;
      st_Scopes := st_Scopes b; st_ExpiresAt := st_ExpiresAt b |}));
   ("idProject", to_int_pointer (fun z b => {| st_Name := st_Name b; st_ProjectID := z;
      st_Scopes := st_Scopes b; st_ExpiresAt := st_ExpiresAt b |}));
   ("scopes", to_strings (fun l b => {| st_Name := st_Name b; st_ProjectID := st_ProjectID b;
      st_Scopes := l; st_ExpiresAt := st_ExpiresAt b |}));
   ("expiresAt", to_time_pointer (fun t b => {| st_Name := st_Name b; st_ProjectID := st_ProjectID b;
      st_Scopes := st_Scopes b; st_ExpiresAt := t |}))].

Definition unavailable (message : string) : svreply :=
  sv_error 500 "SERVICE_ACCOUNT_UNAVAILABLE" message.

(** The handler: whether it has sessions and a repository, and its clock. *)
Context (sessions repository : bool) (now : time).

Definition user (r : Request) (k : User -> R svreply) : R svreply :=
  if negb repository || negb sessions then
    ret (sv_error 503 "SERVICE_ACCOUNT_UNAVAILABLE" "Service-account storage is unavailable.")
  else
    let! u := authenticate now sessions r in
    match u with
    | None => ret (sv_error 401 "UNAUTHENTICATED" "An active browser session is required.")
    | Some u => k u
    end.

Definition Index (r : Request) : R svreply :=
  user r (fun u =>
    let! v := attempt (List_ (activeTenant u)) in
    ret (match v with
         | Err _ => unavailable "Service accounts could not be loaded."
         | Ok v => written 200 (SvAccounts v)
         end)).

Definition Store (r : Request) (text : string) : R svreply :=
  user r (fun u =>
    match decode false store_fields
            {| st_Name := ""; st_ProjectID := None; st_Scopes := None; st_ExpiresAt := None |}
            (decoder_body (Z.shiftl 64 10) text) with
    | Decoded input =>
        if blank (st_Name input) then
          ret (sv_error 400 "INVALID_SERVICE_ACCOUNT" "The service-account name is required.")
        else
          let! b := rand_read 32 in
          match b with
          | None => ret (unavailable "Service account could not be created.")
          | Some b =>
              let secret := rawURLEncode b in
              let a := {| sa_ID := 0; sa_Name := trimSpace (st_Name input);
                          sa_CredentialID := rawURLEncode (of_chars (take 12 (chars b)));
                          sa_ProjectID := st_ProjectID input; sa_Scopes := st_Scopes input;
                          sa_ExpiresAt := st_ExpiresAt input; sa_RevokedAt := None;
                          sa_LastUsedAt := None |} in
              let! created := attempt (Create (activeTenant u) a secret) in
              ret (match created with
                   | Err _ => unavailable "Service account could not be created."
                   | Ok created => written 201 (SvCreated created secret)
                   end)
          end
    | _ => ret (sv_error 400 "INVALID_SERVICE_ACCOUNT" "The service-account name is required.")
    end).

Definition HandleRevoke (r : Request) : R svreply :=
  match parsePathID (pathValue r "serviceAccount") with
  | None => ret (sv_error 400 "INVALID_SERVICE_ACCOUNT" "The service-account identifier is required.")
  | Some id =>
      user r (fun u =>
        let! revoked := attempt (Revoke (activeTenant u) id now) in
        ret (match revoked with
             | Ok _ => written 200 SvRevoked
             | Err ErrNotFound =>
                 sv_error 404 "SERVICE_ACCOUNT_NOT_FOUND" "Service account not found."
             | Err _ => unavailable "Service account could not be revoked."
             end))
  end.
End Repository.
