(* ===== verification/Identity.v ===== *)
(** * Identity

    internal/identity/handler.go with its stores (identity_providers.go, mfa.go, scim.go,
    sso_state.go and the break-glass methods of browser_auth.go): providers, break-glass,
    SCIM, MFA, the OIDC token exchange and the SSO callbacks.

    The instants [time.Now] returns within one request are one instant.  AES-GCM is the
    class [Aead], the hash of passwords the class [Bcrypt], strings.ToUpper an argument;
    HMAC and the hashes are computed ([Hmac]). *)

From stdpp Require Import pretty.
From S2P Require Import Prelude GoStrings GoTime Sha256 Json JsonText Effects Http RunTables.
From S2P Require Import Secrets LegacyAuth Bodies Hmac AccountTables Sessions Accounts AccountHandlers.
From S2P Require Import IdentityTables.

(** ** Types *)
Record Provider := {
  p_ID : Z;
  p_Type : string;
  p_Name : string;
  p_Issuer : string;
  p_Audience : string;
  p_Status : string;
}.

(** Which of its repositories a handler was given. *)
Record IdentityHandler := {
  hd_sessions : bool;
  hd_providers : bool;
  hd_mfa : bool;
  hd_scim : bool;
  hd_users : bool;
  hd_sso : bool;
  hd_inspector : bool;  (** the state store is an [SSOStateInspector] *)
  hd_service : bool;
  hd_breakglass : bool;
}.

(** The environment variables the handlers read. *)
Record Environment_ := {
  env_CALLBACK_SECRET : string;
  env_MFA_ENCRYPTION_KEY : string;
  env_OIDC_ISSUER : string;
  env_OIDC_AUDIENCE : string;
  env_OIDC_HS256_SECRET : string;
}.

(** A request with the bytes of its body. *)
Record IdRequest := {
  ir_method : string;
  ir_request : Request;
  ir_text : string;
}.

Class Aead := {
  gcm_seal : string -> string -> string -> string;  (** key, nonce, plaintext *)
  gcm_open : string -> string -> string -> option string;
}.

Class AeadLaws (A : Aead) := {
  gcm_inverse : forall k n p, gcm_open k n (gcm_seal k n p) = Some p;
}.

Record oidcClaims := {
  oc_Issuer : string;
  oc_Subject : string;
  oc_Audience : json;
  oc_Exp : Z;
  oc_Nonce : string;
  oc_Email : string;
}.

Inductive identity_payload :=
| IdError (e : APIError)
| IdProviders (providers : list Provider)
| IdProvider (provider : Provider)
| IdBreakGlass (user : Z) (expiresAt : time)
| IdTested (user : Z)
| IdDeleted (id : Z)
| IdUser (id : Z) (userName : string) (active : bool)
| IdSecret (secret : string)
| IdVerified (stepUp : bool)
| IdValidated (binding : option (Z * Z)) (claims : oidcClaims)
| IdState (state challenge : string) (expires : time) (provider : string)
| IdAuthenticated (user : Z).

Notation ireply := (reply_of identity_payload).

(** [httpx.WriteError]. *)
Definition WriteError (status : Z) (code message : string) : ireply :=
  written status (IdError {| ae_Code := code; ae_Message := message |}).

(** ** The stores *)
Section Stores.
Context `{S : MySQL} `{B : Bcrypt}.
Notation R := (M IdentityTables).

Definition provider_of_row (row : ProviderRow) : Provider :=
  {| p_ID := ip_id row; p_Type := ip_type row; p_Name := ip_name row;
     p_Issuer := default "" (ip_issuer row); p_Audience := default "" (ip_audience row);
     p_Status := ip_status row |}.

(** Rows are in the order of their identifiers. *)
Definition ListProviders (tenant : Z) : R (list Provider) :=
  query "list identity providers" (fun d =>
    map provider_of_row (List.filter (fun row => ip_idCostumer row =? tenant) (it_providers d))).

Definition CreateProvider (tenant : Z) (p : Provider) : R Provider :=
  let! id := exec_count "create identity provider" (fun d =>
    (with_providers (it_providers d ++
       [{| ip_id := it_nextProvider d; ip_idCostumer := tenant; ip_type := p_Type p;
           ip_name := p_Name p; ip_issuer := Some (p_Issuer p); ip_audience := Some (p_Audience p);
           ip_status := "active" |}])%list (it_nextProvider d + 1) d, it_nextProvider d)) in
  do! ignored (exec "" (add_event tenant "identity_provider.created" "identity_provider" id "success"));
  ret {| p_ID := id; p_Type := p_Type p; p_Name := p_Name p; p_Issuer := p_Issuer p;
         p_Audience := p_Audience p; p_Status := "active" |}.

(** [Provider]: by name or by the text of the identifier, within the tenant. *)
Definition provider_named (tenant : Z) (name : string) (row : ProviderRow) : bool :=
  (ip_idCostumer row =? tenant) && (same (ip_name row) name || same (pretty (ip_id row)) name).

Definition GetProvider (tenant : Z) (name : string) : R Provider :=
  let! row := query "load identity provider"
    (fun d => List.find (provider_named tenant name) (it_providers d)) in
  match row with Some row => ret (provider_of_row row) | None => fail ErrNotFound end.

(** *** MFA *)
Definition active_user (id : Z) (u : UserRow) : bool := (ur_id u =? id) && same (ur_status u) "active".

Definition mfa_of (d : IdentityTables) (id : Z) : MfaColumns := default no_mfa (it_mfa d !! id).

Definition SetMFASecret (user : Z) (encrypted : string) : R unit :=
  exec "store MFA secret" (fun d =>
    if existsb (active_user user) (at_users (it_accounts d)) then
      with_mfa (<[user := {| mf_secretEncrypted := Some encrypted; mf_confirmedAt := None |}]> (it_mfa d)) d
    else d).

Definition GetMFASecret (user : Z) : R string :=
  let! value := query "load MFA secret" (fun d =>
    if existsb (active_user user) (at_users (it_accounts d))
    then Some (mf_secretEncrypted (mfa_of d user)) else None) in
  match value with
  | None => fail (DatabaseFailure "load MFA secret: database unavailable")
  | Some None | Some (Some "") => fail ErrNotFound
  | Some (Some value) => ret value
  end.

Definition MarkMFAConfirmed (user : Z) (at_ : time) : R unit :=
  exec "confirm MFA" (fun d =>
    if existsb (active_user user) (at_users (it_accounts d)) then
      with_mfa (<[user := {| mf_secretEncrypted := mf_secretEncrypted (mfa_of d user);
                             mf_confirmedAt := Some (column_time at_) |}]> (it_mfa d)) d
    else d).

(** *** SCIM *)
Definition scim_password : string := "scim-disabled-login".

Definition scim_status (active : bool) : string := if active then "active" else "disabled".

Definition scim_user (tenant id : Z) (email name : string) (active : bool) : User :=
  {| u_ID := id; u_TenantID := tenant; u_ActiveTenantID := tenant; u_Name := name; u_Email := email;
     u_Role := 3; u_PasswordHash := ""; u_Status := scim_status active;
     u_ImpersonationReason := None; u_ImpersonationExpiresAt := None |}.

Definition CreateSCIMUser (now : time) (tenant : Z) (email name : string) (active : bool) : R User :=
  let! hash := on_accounts (hashPassword scim_password) in
  let! id := gets (fun d => at_nextUser (it_accounts d)) in
  do! on_accounts (insert_unique "create SCIM user"
        (insert_user name hash email 3 tenant (scim_status active) now));
  do! ignored (exec "" (add_event tenant "scim.user.created" "user" id "success"));
  ret (scim_user tenant id email name active).

Definition set_scim (now : time) (email name : string) (active : bool) (u : UserRow) : UserRow :=
  {| ur_id := ur_id u; ur_name := name; ur_email := email; ur_password := ur_password u;
     ur_role := ur_role u; ur_idCostumer := ur_idCostumer u; ur_status := scim_status active;
     ur_created_at := ur_created_at u; ur_updated_at := Some (column_time now) |}.

Definition user_of_tenant (tenant id : Z) (u : UserRow) : bool :=
  (ur_id u =? id) && (ur_idCostumer u =? tenant).

(** The UPDATE; an email that another user has violates its unique key. *)
Definition update_scim (now : time) (tenant id : Z) (email name : string) (active : bool)
    (d : AccountTables) : option (AccountTables * Z) :=
  if existsb (user_of_tenant tenant id) (at_users d)
     && existsb (fun u => same (ur_email u) email && negb (user_of_tenant tenant id u)) (at_users d)
  then None
  else let '(l, n) := update_where (user_of_tenant tenant id) (set_scim now email name active) (at_users d) in
       Some (with_users l d, n).

Definition UpdateSCIMUser (now : time) (tenant id : Z) (email name : string) (active : bool) : R User :=
  let! n := on_accounts (
    do! round_trip "update SCIM user";
    let! r := gets (update_scim now tenant id email name active) in
    match r with
    | None => fail (DatabaseFailure (safeDatabaseFailure "update SCIM user" (MySQLError 1062 "Duplicate entry")))
    | Some (d, n) => do! modify (fun _ => d); ret n
    end) in
  do! guard (negb (n =? 0)) ErrNotFound;
  do! ignored (exec "" (add_event tenant "scim.user.updated" "user" id "success"));
  ret (scim_user tenant id email name active).

Definition DeleteSCIMUser (tenant id : Z) : R unit :=
  let! n := on_accounts (exec_count "delete SCIM user" (fun d =>
    let '(l, n) := delete_where (user_of_tenant tenant id) (at_users d) in (with_users l d, n))) in
  do! guard (negb (n =? 0)) ErrNotFound;
  ignored (exec "" (add_event tenant "scim.user.deleted" "user" id "success")).

(** *** SSO states *)
Definition CreateSSOState (tenant provider : Z) (state challenge : string) (expires : time) : R unit :=
  exec "persist SSO state" (fun d => with_states (it_states d ++
    [{| ss_idCostumer := tenant; ss_identityProviderId := provider; ss_state := state;
        ss_codeChallenge := challenge; ss_expiresAt := column_time expires; ss_consumedAt := None |}])%list d).

(** [state=? AND consumedAt IS NULL AND expiresAt>?]. *)
Definition open_state (state : string) (now : time) (row : StateRow) : bool :=
  same (ss_state row) state && bool_decide (ss_consumedAt row = None) && after (ss_expiresAt row) now.

Definition consumed (now : time) (row : StateRow) : StateRow :=
  {| ss_idCostumer := ss_idCostumer row; ss_identityProviderId := ss_identityProviderId row;
     ss_state := ss_state row; ss_codeChallenge := ss_codeChallenge row;
     ss_expiresAt := ss_expiresAt row; ss_consumedAt := Some (column_time now) |}.

Definition state_gone : error := OtherError "SSO state expired or already consumed".

Definition ConsumeSSOState (state : string) (now : time) : R (Z * Z) :=
  let! n := exec_count "consume SSO state" (fun d =>
    let '(l, n) := update_where (open_state state now) (consumed now) (it_states d) in
    (with_states l d, n)) in
  do! guard (negb (n =? 0)) state_gone;
  let! row := query "load SSO state" (fun d =>
    List.find (fun row => same (ss_state row) state) (it_states d)) in
  match row with
  | Some row => ret (ss_idCostumer row, ss_identityProviderId row)
  | None => fail (DatabaseFailure "load SSO state: database unavailable")
  end.

Definition SSOState (state : string) (now : time) : R (Z * Z) :=
  let! row := query "inspect SSO state" (fun d => List.find (open_state state now) (it_states d)) in
  match row with
  | Some row => ret (ss_idCostumer row, ss_identityProviderId row)
  | None => fail state_gone
  end.

(** *** Break-glass *)
Definition break_glass_of (d : IdentityTables) (id : Z) : BreakGlassColumns :=
  default no_break_glass (it_breakGlass d !! id).

Definition touch (now : time) (u : UserRow) : UserRow :=
  {| ur_id := ur_id u; ur_name := ur_name u; ur_email := ur_email u; ur_password := ur_password u;
     ur_role := ur_role u; ur_idCostumer := ur_idCostumer u; ur_status := ur_status u;
     ur_created_at := ur_created_at u; ur_updated_at := Some (column_time now) |}.

Definition set_break_glass (tenant target : Z) (reason : string) (expires now : time)
    (d : IdentityTables) : IdentityTables * Z :=
  match List.find (user_of_tenant tenant target) (at_users (it_accounts d)) with
  | None => (d, 0)
  | Some u =>
      let columns := {| bg_reason := Some reason; bg_expiresAt := Some (column_time expires) |} in
      let '(l, _) := update_where (user_of_tenant tenant target) (touch now) (at_users (it_accounts d)) in
      (with_break_glass (<[target := columns]> (it_breakGlass d))
         (with_accounts (with_users l (it_accounts d)) d),
       if bool_decide (touch now u = u) && bool_decide (break_glass_of d target = columns) then 0 else 1)
  end.

Definition SetBreakGlass (tenant target : Z) (reason : string) (expires now : time) : R unit :=
  let! n := exec_count "set break-glass control" (set_break_glass tenant target reason expires now) in
  do! guard (negb (n =? 0)) ErrNotFound;
  ignored (exec "" (add_event tenant "identity.break_glass.enabled" "user" target "success")).

Definition TestBreakGlass (tenant target : Z) (now : time) : R bool :=
  let! expires := query "test break-glass control" (fun d =>
    match List.find (fun u => user_of_tenant tenant target u && same (ur_status u) "active")
            (at_users (it_accounts d)) with
    | Some _ => Some (bg_expiresAt (break_glass_of d target))
    | None => None
    end) in
  match expires with
  | None => fail ErrNotFound
  | Some expires =>
      let valid := match expires with Some t => after t now | None => false end in
      do! ignored (exec "" (add_event tenant "identity.break_glass.test" "user" target
                              (if valid then "success" else "failure")));
      ret valid
  end.
End Stores.
