(* ===== verification/IdentityHandlers.v ===== *)
(** * The identity handlers

    internal/identity/handler.go from the signed payload to the response: the replay
    cache, MFA codes, compact JWTs, and the fifteen routes. *)

From stdpp Require Import pretty.
From S2P Require Import Prelude GoStrings GoTime Sha256 Json JsonText Effects Http RunTables.
From S2P Require Import Secrets LegacyAuth Bodies Hmac AccountTables Sessions Accounts AccountHandlers.
From S2P Require Import IdentityTables Identity.

Section Handlers.
Context `{S : MySQL} `{B : Bcrypt} `{F : Floats} `{A : Aead} (toUpper : string -> string).
Context (h : IdentityHandler) (env : Environment_) (now : time).
Notation H := (M IdentityTables ireply).

Definition seconds : Z := now / second.

Definition hasPathParam (r : IdRequest) (name : string) : bool :=
  negb (String.eqb (pathValue (ir_request r) name) "").

Definition writeMigrationDisabled : ireply :=
  WriteError 409 "IDENTITY_LARAVEL_OWNER" "Advanced identity operations remain owned by the Laravel runtime.".

Definition unauthenticated : ireply :=
  WriteError 401 "UNAUTHENTICATED" "An active browser session is required.".

Definition with_actor (r : IdRequest) (k : User -> H) : H :=
  let! u := authenticate now (hd_sessions h) (ir_request r) in
  match u with None => ret unauthenticated | Some u => k u end.

(** ** The signed payload *)
Definition replay_window : Z := 10 * minute.
Definition replay_capacity : Z := 10000.

(** The nonces that are not older than the window. *)
Definition live_nonces (nonces : gmap string time) : gmap string time :=
  filter (fun e => now - snd e <= replay_window) nonces.

(** The response that refuses the payload, or none. *)
Definition validateSignedPayload (r : IdRequest) : M IdentityTables (option ireply) :=
  let secret := env_CALLBACK_SECRET env in
  let nonce := trimSpace (header (ir_request r) "Idelium-Identity-Nonce") in
  let signature := trimSpace (header (ir_request r) "Idelium-Identity-Signature") in
  if String.eqb secret "" || String.eqb nonce "" || String.eqb signature ""
     || (Z.shiftl 256 10 <? slen (ir_text r)) then
    ret (Some (WriteError 401 "IDENTITY_SIGNATURE_REQUIRED" "A signed identity payload is required."))
  else if negb (String.eqb signature (hexEncode (hmac256 secret (ir_text r)))) then
    ret (Some (WriteError 401 "IDENTITY_SIGNATURE_INVALID" "The identity payload signature is invalid."))
  else
    do! modify (fun d => with_nonces (live_nonces (it_nonces d)) d);
    let! nonces := gets it_nonces in
    match nonces !! nonce with
    | Some _ => ret (Some (WriteError 409 "IDENTITY_REPLAY_DETECTED" "The identity payload nonce was already used."))
    | None =>
        if replay_capacity <=? Z.of_nat (size nonces) then
          ret (Some (WriteError 503 "IDENTITY_REPLAY_CACHE_FULL" "Identity replay protection is temporarily unavailable."))
        else
          do! modify (fun d => with_nonces (<[nonce := now]> (it_nonces d)) d);
          ret None
    end.

Definition with_signed (r : IdRequest) (k : H) : H :=
  let! refused := validateSignedPayload r in
  match refused with Some response => ret response | None => k end.

(** ** Providers *)
Definition zero_provider : Provider :=
  {| p_ID := 0; p_Type := ""; p_Name := ""; p_Issuer := ""; p_Audience := ""; p_Status := "" |}.

Definition provider_fields : list (string * setter Provider) :=
  [("id", to_int (fun z p => {| p_ID := z; p_Type := p_Type p; p_Name := p_Name p;
      p_Issuer := p_Issuer p; p_Audience := p_Audience p; p_Status := p_Status p |}));
   ("type", to_string (fun s p => {| p_ID := p_ID p; p_Type := s; p_Name := p_Name p;
      p_Issuer := p_Issuer p; p_Audience := p_Audience p; p_Status := p_Status p |}));
   ("name", to_string (fun s p => {| p_ID := p_ID p; p_Type := p_Type p; p_Name := s;
      p_Issuer := p_Issuer p; p_Audience := p_Audience p; p_Status := p_Status p |}));
   ("issuer", to_string (fun s p => {| p_ID := p_ID p; p_Type := p_Type p; p_Name := p_Name p;
      p_Issuer := s; p_Audience := p_Audience p; p_Status := p_Status p |}));
   ("audience", to_string (fun s p => {| p_ID := p_ID p; p_Type := p_Type p; p_Name := p_Name p;
      p_Issuer := p_Issuer p; p_Audience := s; p_Status := p_Status p |}));
   ("status", to_string (fun s p => {| p_ID := p_ID p; p_Type := p_Type p; p_Name := p_Name p;
      p_Issuer := p_Issuer p; p_Audience := p_Audience p; p_Status := s |}))].

Definition Providers (r : IdRequest) : H :=
  if negb (hd_sessions h && hd_providers h) then ret writeMigrationDisabled
  else with_actor r (fun user =>
    if String.eqb (ir_method r) "GET" then
      let! v := attempt (ListProviders (activeTenant user)) in
      ret (match v with
           | Err _ => WriteError 500 "IDENTITY_UNAVAILABLE" "Identity providers could not be loaded."
           | Ok v => written 200 (IdProviders v)
           end)
    else
      match decode false provider_fields zero_provider (decoder_body (Z.shiftl 64 10) (ir_text r)) with
      | Decoded p =>
          if blank (p_Type p) || blank (p_Name p) then
            ret (WriteError 400 "INVALID_IDENTITY_PROVIDER" "Provider type and name are required.")
          else
            let! created := attempt (CreateProvider (activeTenant user)
              {| p_ID := p_ID p; p_Type := toLower (trimSpace (p_Type p)); p_Name := trimSpace (p_Name p);
                 p_Issuer := p_Issuer p; p_Audience := p_Audience p; p_Status := p_Status p |}) in
            ret (match created with
                 | Err _ => WriteError 500 "IDENTITY_UNAVAILABLE" "Identity provider could not be created."
                 | Ok p => written 201 (IdProvider p)
                 end)
      | _ => ret (WriteError 400 "INVALID_IDENTITY_PROVIDER" "Provider type and name are required.")
      end).

(** ** Break-glass *)
Definition invalidUser : ireply := WriteError 400 "INVALID_USER" "The user identifier is required.".

Definition with_target (r : IdRequest) (k : User -> Z -> H) : H :=
  if negb (hasPathParam r "user") then ret invalidUser
  else if negb (hd_breakglass h && hd_sessions h) then
    ret (WriteError 503 "BREAK_GLASS_UNAVAILABLE" "Break-glass storage is unavailable.")
  else with_actor r (fun actor =>
    match parsePathID (pathValue (ir_request r) "user") with
    | None => ret invalidUser
    | Some target => k actor target
    end).

(** The zero [time.Time]: the first instant of year 1. *)
Definition zero_time : time := days_of_civil 1 1 1 * 24 * hour.

Record glass_body := { gl_Reason : string; gl_ExpiresAt : time }.

Definition glass_fields : list (string * setter glass_body) :=
  [("reason", to_string (fun s b => {| gl_Reason := s; gl_ExpiresAt := gl_ExpiresAt b |}));
   ("expiresAt", to_time (fun t b => {| gl_Reason := gl_Reason b; gl_ExpiresAt := t |}))].

Definition BreakGlass (r : IdRequest) : H :=
  with_target r (fun actor target =>
    let invalid := WriteError 422 "INVALID_BREAK_GLASS" "Reason and an expiry within one hour are required." in
    match decode false glass_fields {| gl_Reason := ""; gl_ExpiresAt := zero_time |}
            (decoder_body (Z.shiftl 16 10) (ir_text r)) with
    | Decoded b =>
        if blank (gl_Reason b) || (gl_ExpiresAt b =? zero_time) || negb (after (gl_ExpiresAt b) now)
           || after (gl_ExpiresAt b) (now + hour) then ret invalid
        else
          let! set_ := attempt (SetBreakGlass (activeTenant actor) target (trimSpace (gl_Reason b))
                                  (gl_ExpiresAt b) now) in
          ret (match set_ with
               | Err _ => WriteError 404 "USER_NOT_FOUND" "User not found."
               | Ok _ => written 200 (IdBreakGlass target (gl_ExpiresAt b))
               end)
    | _ => ret invalid
    end).

Definition BreakGlassTest (r : IdRequest) : H :=
  with_target r (fun actor target =>
    let! valid := attempt (TestBreakGlass (activeTenant actor) target now) in
    ret (match valid with
         | Err _ => WriteError 404 "USER_NOT_FOUND" "User not found."
         | Ok false => WriteError 409 "BREAK_GLASS_INACTIVE" "Break-glass control is inactive or expired."
         | Ok true => written 200 (IdTested target)
         end)).

(** ** SCIM *)
Record scim_body := { sc_ID : Z; sc_Name : string; sc_Email : string; sc_Active : option bool }.

Definition scim_fields : list (string * setter scim_body) :=
  [("id", to_int (fun z b => {| sc_ID := z; sc_Name := sc_Name b; sc_Email := sc_Email b; sc_Active := sc_Active b |}));
   ("name", to_string (fun s b => {| sc_ID := sc_ID b; sc_Name := s; sc_Email := sc_Email b; sc_Active := sc_Active b |}));
   ("email", to_string (fun s b => {| sc_ID := sc_ID b; sc_Name := sc_Name b; sc_Email := s; sc_Active := sc_Active b |}));
   ("active", to_bool_pointer (fun o b => {| sc_ID := sc_ID b; sc_Name := sc_Name b; sc_Email := sc_Email b; sc_Active := o |}))].

Definition invalidScim (message : string) : ireply := WriteError 400 "INVALID_SCIM_USER" message.
Definition scimNotFound : ireply := WriteError 404 "SCIM_USER_NOT_FOUND" "SCIM user not found.".
Definition providerNotFound : ireply :=
  WriteError 404 "IDENTITY_PROVIDER_NOT_FOUND" "Identity provider not found.".

Definition scim_update (tenant id : Z) (b : scim_body) (active : bool) : H :=
  let! updated := attempt (UpdateSCIMUser now tenant id (trimSpace (sc_Email b)) (trimSpace (sc_Name b)) active) in
  ret (match updated with
       | Err _ => scimNotFound
       | Ok u => written 200 (IdUser (u_ID u) (u_Email u) active)
       end).

(** What follows the check of the provider. *)
Definition scim_write (r : IdRequest) (tenant userID : Z) : H :=
  if String.eqb (ir_method r) "DELETE" then
    if userID <=? 0 then ret (invalidScim "The SCIM user identifier is required.")
    else
      let! deleted := attempt (DeleteSCIMUser tenant userID) in
      ret (match deleted with Err _ => scimNotFound | Ok _ => written 200 (IdDeleted userID) end)
  else
    match decode false scim_fields {| sc_ID := 0; sc_Name := ""; sc_Email := ""; sc_Active := None |}
            (decoder_body (Z.shiftl 64 10) (ir_text r)) with
    | Decoded b =>
        if negb (contains (sc_Email b) "@") then ret (invalidScim "A valid SCIM email is required.")
        else
          let active := default true (sc_Active b) in
          if String.eqb (ir_method r) "PUT" || String.eqb (ir_method r) "PATCH" then
            let userID := if userID <=? 0 then sc_ID b else userID in
            if userID <=? 0 then ret (invalidScim "The SCIM user identifier is required.")
            else scim_update tenant userID b active
          else if 0 <? sc_ID b then scim_update tenant (sc_ID b) b active
          else
            let! created := attempt (CreateSCIMUser now tenant (trimSpace (sc_Email b))
                                       (trimSpace (sc_Name b)) active) in
            ret (match created with
                 | Err _ => WriteError 500 "SCIM_UNAVAILABLE" "SCIM user could not be persisted."
                 | Ok u => written 201 (IdUser (u_ID u) (u_Email u) active)
                 end)
    | _ => ret (invalidScim "A valid SCIM email is required.")
    end.

Definition invalidProvider : ireply :=
  WriteError 400 "INVALID_IDENTITY_PROVIDER" "The identity provider identifier is required.".

Definition SCIMUsers (r : IdRequest) : H :=
  if negb (hasPathParam r "identityProvider") then ret invalidProvider
  else with_signed r (
    if negb (hd_scim h) then ret writeMigrationDisabled
    else with_actor r (fun user =>
      match parsePathID (pathValue (ir_request r) "identityProvider") with
      | None => ret providerNotFound
      | Some providerID =>
          if negb (hd_providers h) then ret providerNotFound
          else
            let! providers := attempt (ListProviders (activeTenant user)) in
            match providers with
            | Err _ => ret providerNotFound
            | Ok l =>
                if existsb (fun p => (p_ID p =? providerID) && String.eqb (p_Status p) "active") l
                then scim_write r (activeTenant user) (parseInt_value (pathValue (ir_request r) "user"))
                else ret providerNotFound
            end
      end)).

(** ** MFA *)

(** The bytes decoded before the first error. *)
Fixpoint hex_prefix (l : list ascii) : list Z :=
  match l with
  | a :: b :: rest =>
      match hex_value a, hex_value b with
      | Some a, Some b => a * 16 + b :: hex_prefix rest
      | _, _ => []
      end
  | _ => []
  end.

Definition encryptionKey : option string :=
  let b := hex_prefix (chars (env_MFA_ENCRYPTION_KEY env)) in
  if (length b =? 32)%nat then Some (string_of b) else None.

Definition nonce_size : nat := 12.

Definition encryptSecret (secret : string) : M IdentityTables string :=
  match encryptionKey with
  | None => ret ""
  | Some key =>
      let! nonce := rand_read nonce_size in
      let nonce := default (string_of (repeat 0 nonce_size)) nonce in
      ret (hexEncode (nonce +:+ gcm_seal key nonce secret))
  end.

Definition decryptSecret (value : string) : option string :=
  key ← encryptionKey;
  raw ← hexDecode value;
  if (length raw <? nonce_size)%nat then None
  else gcm_open key (string_of (take nonce_size raw)) (string_of (drop nonce_size raw)).

Definition newTOTPSecret : M IdentityTables (option string) :=
  let! b := rand_read 20 in ret (base32Encode <$> b).

(** [fmt.Sprintf("%06d", value%1000000)]. *)
Definition six_digits (value : Z) : string := of_chars (pad_digits 6 (value mod 1000000)).

(** The code of one counter. *)
Definition totp (key : string) (counter : Z) : string :=
  let sum := bytes_of (hmac1 key (string_of (big_endian 8 counter))) in
  let at_ i := nth i sum 0 in
  let n := Z.to_nat (Z.land (at_ (length sum - 1)%nat) 15) in
  six_digits (Z.land (Z.lor (Z.shiftl (at_ n) 24) (Z.lor (Z.shiftl (at_ (n + 1)%nat) 16)
    (Z.lor (Z.shiftl (at_ (n + 2)%nat) 8) (at_ (n + 3)%nat)))) 0x7fffffff).

Definition validTOTP (secret code : string) (at_ : time) : bool :=
  match base32Decode (toUpper (trimSpace secret)) with
  | None => false
  | Some key =>
      if negb (slen code =? 6) then false
      else existsb (fun offset => String.eqb (totp key (Z.quot (at_ / second) 30 + offset)) code) [-1; 0; 1]
  end.

Definition MFAEnroll (r : IdRequest) : H :=
  if negb (hd_mfa h && hd_sessions h) then ret writeMigrationDisabled
  else with_actor r (fun user =>
    let unavailable := WriteError 500 "MFA_UNAVAILABLE" "MFA enrollment could not be started." in
    let! secret := newTOTPSecret in
    match secret with
    | None => ret unavailable
    | Some secret =>
        let! encrypted := encryptSecret secret in
        let! stored := attempt (SetMFASecret (u_ID user) encrypted) in
        ret (match stored with
             | Err _ => unavailable
             | Ok _ => written 201 (IdSecret secret)
             end)
    end).

Definition code_fields : list (string * setter string) := [("code", to_string (fun s _ => s))].

Definition verifyMFA (confirm : bool) (r : IdRequest) : H :=
  if negb (hd_mfa h && hd_sessions h) then ret writeMigrationDisabled
  else with_actor r (fun u =>
    match decode false code_fields "" (decoder_body 4096 (ir_text r)) with
    | Decoded code =>
        if negb (slen code =? 6) then
          ret (WriteError 400 "INVALID_MFA_CODE" "A six-digit MFA code is required.")
        else
          let! enc := attempt (GetMFASecret (u_ID u)) in
          match enc with
          | Err _ => ret (WriteError 400 "MFA_NOT_ENROLLED" "MFA enrollment is required.")
          | Ok enc =>
              match decryptSecret enc with
              | Some secret =>
                  if negb (validTOTP secret code now) then
                    ret (WriteError 401 "INVALID_MFA_CODE" "The MFA code is invalid.")
                  else if confirm then
                    let! marked := attempt (MarkMFAConfirmed (u_ID u) now) in
                    ret (match marked with
                         | Err _ => WriteError 500 "MFA_UNAVAILABLE" "MFA confirmation could not be saved."
                         | Ok _ => written 200 (IdVerified false)
                         end)
                  else ret (written 200 (IdVerified true))
              | None => ret (WriteError 401 "INVALID_MFA_CODE" "The MFA code is invalid.")
              end
          end
    | _ => ret (WriteError 400 "INVALID_MFA_CODE" "A six-digit MFA code is required.")
    end).

Definition MFAConfirm : IdRequest -> H := verifyMFA true.
Definition MFAStepUp : IdRequest -> H := verifyMFA false.
End Handlers.
