(* ===== verification/IdentitySso.v ===== *)
(** * Single sign-on

    internal/identity/handler.go: compact JWTs, the OIDC token exchange, the start of a
    sign-on and the callbacks that open a browser session; and the routes of
    internal/app/router.go over every identity handler. *)

From stdpp Require Import pretty.
From S2P Require Import Prelude GoStrings GoTime Sha256 Json JsonText Effects Http RunTables.
From S2P Require Import Secrets LegacyAuth Bodies Hmac AccountTables Sessions Accounts AccountHandlers.
From S2P Require Import IdentityTables Identity IdentityHandlers.

(** ** Compact JWTs *)
Definition claims_fields : list (string * setter oidcClaims) :=
  [("iss", to_string (fun s c => {| oc_Issuer := s; oc_Subject := oc_Subject c;
      oc_Audience := oc_Audience c; oc_Exp := oc_Exp c; oc_Nonce := oc_Nonce c; oc_Email := oc_Email c |}));
   ("sub", to_string (fun s c => {| oc_Issuer := oc_Issuer c; oc_Subject := s;
      oc_Audience := oc_Audience c; oc_Exp := oc_Exp c; oc_Nonce := oc_Nonce c; oc_Email := oc_Email c |}));
   ("aud", to_readable_any (fun v c => {| oc_Issuer := oc_Issuer c; oc_Subject := oc_Subject c;
      oc_Audience := v; oc_Exp := oc_Exp c; oc_Nonce := oc_Nonce c; oc_Email := oc_Email c |}));
   ("exp", to_int (fun z c => {| oc_Issuer := oc_Issuer c; oc_Subject := oc_Subject c;
      oc_Audience := oc_Audience c; oc_Exp := z; oc_Nonce := oc_Nonce c; oc_Email := oc_Email c |}));
   ("nonce", to_string (fun s c => {| oc_Issuer := oc_Issuer c; oc_Subject := oc_Subject c;
      oc_Audience := oc_Audience c; oc_Exp := oc_Exp c; oc_Nonce := s; oc_Email := oc_Email c |}));
   ("email", to_string (fun s c => {| oc_Issuer := oc_Issuer c; oc_Subject := oc_Subject c;
      oc_Audience := oc_Audience c; oc_Exp := oc_Exp c; oc_Nonce := oc_Nonce c; oc_Email := s |}))].

Definition zero_claims : oidcClaims :=
  {| oc_Issuer := ""; oc_Subject := ""; oc_Audience := JNull; oc_Exp := 0; oc_Nonce := ""; oc_Email := "" |}.

(** The audience is the expected one, or a list that has it; an element that is no string
    counts as the empty string. *)
Definition audience_ok (audience : json) (expected : string) : bool :=
  match audience with
  | JStr a => String.eqb a expected
  | JArr l => existsb (fun v => String.eqb (str_or_empty v) expected) l
  | _ => false
  end.

Section Jwt.
Context `{F : Floats} (env : Environment_) (now : time).

(** The claims, or the text of the error. *)
Definition validateOIDCJWTForProvider (token expectedNonce expectedIssuer expectedAudience : string)
  : string + oidcClaims :=
  match split "."%char token with
  | [p0; p1; p2] =>
      match rawURLDecode p0 with
      | None => inl "malformed JWT header"
      | Some head =>
          match decode false [("alg", to_string (fun s _ => s))] "" (unmarshal_body head) with
          | Decoded "HS256" =>
              match rawURLDecode p1 with
              | None => inl "malformed JWT claims"
              | Some payload =>
                  match decode false claims_fields zero_claims (unmarshal_body payload) with
                  | Decoded c =>
                      if String.eqb (oc_Issuer c) "" || String.eqb (oc_Subject c) ""
                         || (oc_Exp c <=? now / second) || negb (String.eqb (oc_Nonce c) expectedNonce)
                      then inl "invalid JWT claims"
                      else
                        let expectedIssuer := trimSpace expectedIssuer in
                        if String.eqb expectedIssuer "" || negb (String.eqb (oc_Issuer c) expectedIssuer)
                        then inl "invalid JWT issuer"
                        else
                          let expectedAudience := trimSpace expectedAudience in
                          if String.eqb expectedAudience "" then inl "OIDC audience is not configured"
                          else if negb (audience_ok (oc_Audience c) expectedAudience)
                          then inl "invalid JWT audience"
                          else
                            let secret := env_OIDC_HS256_SECRET env in
                            if String.eqb secret "" then inl "OIDC verification key unavailable"
                            else
                              match rawURLDecode p2 with
                              | Some sig =>
                                  if String.eqb sig (hmac256 secret (p0 +:+ "." +:+ p1)) then inr c
                                  else inl "invalid JWT signature"
                              | None => inl "invalid JWT signature"
                              end
                  | _ => inl "invalid JWT claims"
                  end
              end
          | _ => inl "unsupported JWT algorithm"
          end
      end
  | _ => inl "malformed JWT"
  end.

Definition validateOIDCJWT (token expectedNonce : string) : string + oidcClaims :=
  validateOIDCJWTForProvider token expectedNonce (env_OIDC_ISSUER env) (env_OIDC_AUDIENCE env).
End Jwt.

Section Handlers.
Context `{S : MySQL} `{B : Bcrypt} `{F : Floats} `{A : Aead} (toUpper : string -> string).
Context (h : IdentityHandler) (env : Environment_) (now : time).
Notation H := (M IdentityTables ireply).

(** ** The token exchange *)
Record exchange_body := { ex_IDToken : string; ex_State : string; ex_Nonce : string }.

Definition exchange_fields : list (string * setter exchange_body) :=
  [("id_token", to_string (fun s b => {| ex_IDToken := s; ex_State := ex_State b; ex_Nonce := ex_Nonce b |}));
   ("state", to_string (fun s b => {| ex_IDToken := ex_IDToken b; ex_State := s; ex_Nonce := ex_Nonce b |}));
   ("nonce", to_string (fun s b => {| ex_IDToken := ex_IDToken b; ex_State := ex_State b; ex_Nonce := s |}))].

Definition oidcStateGone : ireply := WriteError 401 "INVALID_OIDC_STATE" "The OIDC state is invalid or expired.".

(** The exchange when the store can inspect a state. *)
Definition exchange_inspected (b : exchange_body) : H :=
  let! state := attempt (SSOState (ex_State b) now) in
  match state with
  | Err _ => ret oidcStateGone
  | Ok (tenantID, providerID) =>
      let! provider := attempt (GetProvider tenantID (pretty providerID)) in
      let bad := WriteError 401 "INVALID_OIDC_PROVIDER" "The OIDC provider binding is invalid." in
      match provider with
      | Err _ => ret bad
      | Ok provider =>
          if negb (String.eqb (p_Status provider) "active") || String.eqb (p_Issuer provider) ""
             || String.eqb (p_Audience provider) "" then ret bad
          else
            match validateOIDCJWTForProvider env now (ex_IDToken b) (ex_Nonce b)
                    (p_Issuer provider) (p_Audience provider) with
            | inl message => ret (WriteError 401 "INVALID_OIDC_TOKEN" message)
            | inr claims =>
                if negb (hd_service h) then
                  ret (WriteError 503 "OIDC_UNAVAILABLE" "Service-account binding is unavailable.")
                else
                  let! bound := attempt (ActiveServiceAccount tenantID (oc_Subject claims) now) in
                  match bound with
                  | Ok true =>
                      let! spent := attempt (ConsumeSSOState (ex_State b) now) in
                      ret (match spent with
                           | Err _ => oidcStateGone
                           | Ok _ => written 200 (IdValidated (Some (tenantID, providerID)) claims)
                           end)
                  | _ => ret (WriteError 401 "INVALID_SERVICE_ACCOUNT"
                                "The OIDC subject is not bound to an active service account.")
                  end
            end
      end
  end.

Definition exchange_plain (b : exchange_body) : H :=
  match validateOIDCJWT env now (ex_IDToken b) (ex_Nonce b) with
  | inl message => ret (WriteError 401 "INVALID_OIDC_TOKEN" message)
  | inr claims =>
      let! spent := attempt (ConsumeSSOState (ex_State b) now) in
      ret (match spent with
           | Err _ => oidcStateGone
           | Ok _ => written 200 (IdValidated None claims)
           end)
  end.

Definition OIDCTokenExchange (r : IdRequest) : H :=
  with_signed env now r (
    let bad := WriteError 400 "INVALID_OIDC_REQUEST" "id_token, state and nonce are required." in
    match decode false exchange_fields {| ex_IDToken := ""; ex_State := ""; ex_Nonce := "" |}
            (decoder_body (slen (ir_text r)) (ir_text r)) with
    | Decoded b =>
        if String.eqb (ex_IDToken b) "" || String.eqb (ex_State b) "" || String.eqb (ex_Nonce b) "" then ret bad
        else if negb (hd_sso h) then
          ret (WriteError 503 "OIDC_UNAVAILABLE" "OIDC state storage is unavailable.")
        else if hd_inspector h then exchange_inspected b else exchange_plain b
    | _ => ret bad
    end).

(** ** The start of a sign-on *)
Definition SSOStart (r : IdRequest) : H :=
  if negb (hasPathParam r "identityProvider") then ret invalidProvider
  else if negb (hd_sso h && hd_sessions h) then ret writeMigrationDisabled
  else with_actor h now r (fun user =>
    let failed := WriteError 500 "SSO_UNAVAILABLE" "SSO state could not be created." in
    let! provider := attempt (GetProvider (activeTenant user) (pathValue (ir_request r) "identityProvider")) in
    match provider with
    | Err _ => ret providerNotFound
    | Ok provider =>
        if negb (String.eqb (p_Status provider) "active") then ret providerNotFound
        else
          let! state := rand_read 32 in
          match state with
          | None => ret failed
          | Some state =>
              let! challenge := rand_read 32 in
              match challenge with
              | None => ret failed
              | Some challenge =>
                  let state := hexEncode state in
                  let challenge := hexEncode challenge in
                  let expires := now + 10 * minute in
                  let! created := attempt (CreateSSOState (activeTenant user) (p_ID provider) state
                                             challenge expires) in
                  ret (match created with
                       | Err _ => WriteError 500 "SSO_UNAVAILABLE" "SSO state could not be persisted."
                       | Ok _ => written 200 (IdState state challenge expires (p_Name provider))
                       end)
              end
          end
    end).

(** ** The callbacks *)

(** [validateCallbackBinding]: the response that refuses, or none. *)
Definition validateCallbackBinding (r : IdRequest) : M IdentityTables (option ireply) :=
  let gone := WriteError 401 "INVALID_OIDC_STATE" "The SSO state is invalid or expired." in
  if negb (hd_sso h) then ret (Some (WriteError 503 "SSO_UNAVAILABLE" "SSO state storage is unavailable."))
  else if negb (hd_inspector h) then
    ret (Some (WriteError 503 "SSO_UNAVAILABLE" "SSO state inspection is unavailable."))
  else if Z.shiftl 64 10 <? slen (ir_text r) then
    ret (Some (WriteError 400 "INVALID_SSO_ASSERTION" "The SSO assertion is invalid."))
  else
    let missing := WriteError 400 "INVALID_SSO_ASSERTION" "A valid SSO state is required." in
    match decode false [("state", to_string (fun s _ => s))] "" (unmarshal_body (ir_text r)) with
    | Decoded state =>
        if blank state then ret (Some missing)
        else
          let! binding := attempt (SSOState state now) in
          match binding with
          | Err _ => ret (Some gone)
          | Ok (tenant, provider) =>
              let! configured := attempt (GetProvider tenant (pathValue (ir_request r) "identityProvider")) in
              let bad := WriteError 401 "INVALID_OIDC_PROVIDER" "The SSO provider binding is invalid." in
              match configured with
              | Err _ => ret (Some bad)
              | Ok configured =>
                  if negb (p_ID configured =? provider) || negb (String.eqb (p_Status configured) "active")
                  then ret (Some bad)
                  else
                    let! spent := attempt (ConsumeSSOState state now) in
                    ret (match spent with Err _ => Some gone | Ok _ => None end)
              end
          end
    | _ => ret (Some missing)
    end.

Definition issueSSOSession (r : IdRequest) : H :=
  let invalid := WriteError 400 "INVALID_SSO_ASSERTION" "A validated subject email is required." in
  let failed := WriteError 500 "SSO_UNAVAILABLE" "SSO session could not be created." in
  match decode false [("email", to_string (fun s _ => s))] "" (decoder_body (Z.shiftl 16 10) (ir_text r)) with
  | Decoded email =>
      if negb (contains email "@") then ret invalid
      else
        let! user := attempt (on_accounts (FindByEmail (trimSpace email))) in
        let unknown := WriteError 401 "SSO_USER_NOT_FOUND" "The validated SSO subject is not an active user." in
        match user with
        | Err _ => ret unknown
        | Ok user =>
            if negb (String.eqb (u_Status user) "active") then ret unknown
            else
              let! sid := rand_read 32 in
              match sid with
              | None => ret failed
              | Some sid =>
                  let! csrf := rand_read 32 in
                  match csrf with
                  | None => ret failed
                  | Some csrf =>
                      let session := {| se_ID := hexEncode sid; se_UserID := u_ID user;
                                        se_TenantID := u_TenantID user; se_CSRFToken := hexEncode csrf;
                                        se_ExpiresAt := now + 8 * hour |} in
                      let! created := attempt (if hd_sessions h then on_accounts (Sessions.Create session)
                        else fail (Panic "invalid memory address or nil pointer dereference")) in
                      ret (match created with
                           | Err _ => failed
                           | Ok _ =>
                               Reply 200 [cookie sessionCookieName (se_ID session) 0 true;
                                          cookie csrfCookieName (se_CSRFToken session) 0 false]
                                     (IdAuthenticated (u_ID user))
                           end)
                  end
              end
        end
  | _ => ret invalid
  end.

(** [OIDCCallback] and [SAMLCallback] differ in what they log only. *)
Definition callback (r : IdRequest) : H :=
  if negb (hasPathParam r "identityProvider") then ret invalidProvider
  else with_signed env now r (
    let! refused := validateCallbackBinding r in
    match refused with
    | Some response => ret response
    | None => if hd_users h then issueSSOSession r else ret writeMigrationDisabled
    end).

Definition OIDCCallback : IdRequest -> H := callback.
Definition SAMLCallback : IdRequest -> H := callback.

(** ** The routes *)
Inductive identity_route :=
| ProvidersRoute | BreakGlassRoute | BreakGlassTestRoute | ScimRoute | EnrollRoute | ConfirmRoute
| StepUpRoute | ExchangeRoute | StartRoute | OidcCallbackRoute | SamlCallbackRoute.

Definition serve_identity (rt : identity_route) (r : IdRequest) : H :=
  match rt with
  | ProvidersRoute => Providers h now r
  | BreakGlassRoute => BreakGlass h now r
  | BreakGlassTestRoute => BreakGlassTest h now r
  | ScimRoute => SCIMUsers h env now r
  | EnrollRoute => MFAEnroll h env now r
  | ConfirmRoute => MFAConfirm toUpper h env now r
  | StepUpRoute => MFAStepUp toUpper h env now r
  | ExchangeRoute => OIDCTokenExchange r
  | StartRoute => SSOStart r
  | OidcCallbackRoute => OIDCCallback r
  | SamlCallbackRoute => SAMLCallback r
  end.
End Handlers.
