(* ===== verification/IdentityFacts.v ===== *)
(** * Facts about identity

    What a request may do to the SSO states, the remembered nonces and the service
    accounts ([kept_serve]), and when a state can no longer be consumed. *)

From stdpp Require Import pretty.
From S2P Require Import Prelude GoStrings GoTime Sha256 Json JsonText Effects Http RunTables Contracts.
From S2P Require Import Secrets LegacyAuth Bodies Hmac AccountTables Sessions Accounts AccountHandlers.
From S2P Require Import IdentityTables Identity IdentityHandlers IdentitySso.

(** ** What requests do to the tables *)

(** A state keeps its text, owner and expiry; once consumed it keeps that too. *)
Definition row_le (a b : StateRow) : Prop :=
  ss_state b = ss_state a /\ ss_expiresAt b = ss_expiresAt a /\ ss_idCostumer b = ss_idCostumer a
  /\ ss_identityProviderId b = ss_identityProviderId a
  /\ (ss_consumedAt a <> None -> ss_consumedAt b = ss_consumedAt a).

#[export] Instance row_le_refl : Reflexive row_le.
Proof. done. Qed.

#[export] Instance row_le_trans : Transitive row_le.
Proof.
  intros a b c (H1 & H2 & H3 & H4 & H5) (K1 & K2 & K3 & K4 & K5). split_and!; try congruence.
  intros N. rewrite K5; [auto|]. by rewrite H5.
Qed.

Definition states_le (l l' : list StateRow) : Prop :=
  exists kept added, l' = (kept ++ added)%list /\ Forall2 row_le l kept.

Lemma states_le_same l : states_le l l.
Proof. exists l, []. rewrite app_nil_r. by split; [|reflexivity]. Qed.

(** A nonce that is within the window at [now] is kept. *)
Definition nonces_le (now : time) (m m' : gmap string time) : Prop :=
  (Z.of_nat (size m) <= replay_capacity -> Z.of_nat (size m') <= replay_capacity) /\
  forall n t, now - t <= replay_window -> m !! n = Some t -> m' !! n = Some t.

(** What a request at [now] may do to states, nonces and service accounts. *)
Definition identity_le (now : time) (d d' : IdentityTables) : Prop :=
  states_le (it_states d) (it_states d') /\ nonces_le now (it_nonces d) (it_nonces d')
  /\ it_services d' = it_services d.

Lemma states_le_trans l1 l2 l3 : states_le l1 l2 -> states_le l2 l3 -> states_le l1 l3.
Proof.
  intros (k1 & a1 & -> & F1) (k2 & a2 & -> & F2).
  apply Forall2_app_inv_l in F2 as (k3 & k4 & F3 & F4 & ->).
  exists k3, (k4 ++ a2)%list. split; [by rewrite app_assoc|]. by etransitivity.
Qed.

Lemma states_le_update p f l :
  (forall row, p row = true -> row_le row (f row)) -> states_le l (fst (update_where p f l)).
Proof.
  intros H. eexists _, []. rewrite app_nil_r. split; [done|]. cbn.
  induction l as [|row l IH]; [done|]. constructor; [|done]. destruct (p row) eqn:E; [by apply H|done].
Qed.

#[export] Instance identity_le_refl now : Reflexive (identity_le now).
Proof. intros d. split; [apply states_le_same|]. by split. Qed.

#[export] Instance identity_le_trans now : Transitive (identity_le now).
Proof.
  intros d1 d2 d3 (A1 & [B1 C1] & D1) (A2 & [B2 C2] & D2).
  split; [by eapply states_le_trans|]. split; [|congruence]. split; auto.
Qed.

Lemma identity_le_same now d d' :
  it_states d' = it_states d -> it_nonces d' = it_nonces d -> it_services d' = it_services d ->
  identity_le now d d'.
Proof. intros E1 E2 E3. unfold identity_le. rewrite E1, E2. split; [apply states_le_same|]. by split. Qed.

Section Frame.
Context `{S : MySQL} `{B : Bcrypt} `{F : Floats} `{A : Aead} (toUpper : string -> string).
Context (h : IdentityHandler) (env : Environment_) (now : time).
Notation kept := (preserves (identity_le now)).

Lemma kept_on_accounts {X} (m : M AccountTables X) : kept (on_accounts m).
Proof.
  intros w. unfold on_accounts, zoom. destruct (m _) as [r w']. by apply identity_le_same.
Qed.

Lemma kept_ignored m : kept m -> kept (ignored m).
Proof.
  intros H. unfold ignored. apply preserves_bind; [apply _|by apply preserves_attempt|].
  intros _. apply preserves_ret, _.
Qed.

Lemma kept_authenticate sessions r : kept (authenticate now sessions r).
Proof. unfold authenticate. destruct sessions; [apply kept_on_accounts|]. solve_preserves. Qed.

Lemma live_kept m : nonces_le now m (live_nonces now m).
Proof.
  split; [|intros n t W L; by apply map_lookup_filter_Some].
  intros Hs. assert (size (live_nonces now m) <= size m)%nat; [|lia].
  apply map_subseteq_size, map_filter_subseteq.
Qed.

Lemma kept_signed r : kept (validateSignedPayload env now r).
Proof.
  unfold validateSignedPayload. cbv zeta. do 2 (case_match; [apply preserves_ret, _|]).
  intros w. unfold bind, modify, gets. cbn.
  assert (K : identity_le now (w_db w) (with_nonces (live_nonces now (it_nonces (w_db w))) (w_db w))).
  { split; [apply states_le_same|]. split; [apply live_kept|done]. }
  destruct (live_nonces _ _ !! _) as [t|] eqn:E; [exact K|].
  destruct (Z.leb_spec replay_capacity (Z.of_nat (size (live_nonces now (it_nonces (w_db w)))))); [exact K|]. cbn.
  etransitivity; [exact K|]. split; [apply states_le_same|]. split; [|done]. split; cbn.
  - intros _. rewrite map_size_insert_None by done. lia.
  - intros n t W L. rewrite lookup_insert_ne; [done|]. intros <-. by pose proof (eq_trans (eq_sym L) E).
Qed.

Lemma kept_stores :
  (forall t, kept (ListProviders t)) /\ (forall t p, kept (CreateProvider t p)) /\
  (forall t n, kept (GetProvider t n)) /\ (forall u s, kept (SetMFASecret u s)) /\
  (forall u, kept (GetMFASecret u)) /\ (forall u t, kept (MarkMFAConfirmed u t)) /\
  (forall t e n a, kept (CreateSCIMUser now t e n a)) /\
  (forall t i e n a, kept (UpdateSCIMUser now t i e n a)) /\ (forall t i, kept (DeleteSCIMUser t i)) /\
  (forall t p s c e, kept (CreateSSOState t p s c e)) /\ (forall s t, kept (ConsumeSSOState s t)) /\
  (forall s t, kept (SSOState s t)) /\ (forall t u r e n, kept (SetBreakGlass t u r e n)) /\
  (forall t u n, kept (TestBreakGlass t u n)) /\ (forall t s n, kept (ActiveServiceAccount t s n)).
Proof.
  split_and!; intros.
  all: unfold ListProviders, CreateProvider, GetProvider, SetMFASecret, GetMFASecret, MarkMFAConfirmed,
    CreateSCIMUser, UpdateSCIMUser, DeleteSCIMUser, CreateSSOState, ConsumeSSOState, SSOState, SetBreakGlass,
    TestBreakGlass, ActiveServiceAccount.
  all: repeat first [ apply kept_on_accounts | apply kept_ignored
    | solve [eauto with effects typeclass_instances] | preserves_step ].
  all: try (by apply identity_le_same).
  - case_match; by apply identity_le_same.
  - case_match; by apply identity_le_same.
  - split; [|by split]. eexists _, [_]. split; [done|reflexivity].
  - split; [|by split]. apply states_le_update. unfold open_state. intros row Hp.
    rewrite !andb_true_iff, bool_decide_eq_true in Hp. destruct Hp as [[_ Hc] _].
    split_and!; [done..|]. by rewrite Hc.
  - unfold set_break_glass. case_match; by apply identity_le_same.
Qed.

Lemma kept_attempt {X} (m : M IdentityTables X) : kept m -> kept (attempt m).
Proof. apply preserves_attempt. Qed.

Lemma kept_draw n : kept (rand_read n).
Proof. apply preserves_rand, _. Qed.
End Frame.

(** Walks through a handler, with what is known of its calls. *)
Ltac kept_walk :=
  repeat first
    [ apply kept_on_accounts | apply kept_authenticate | apply kept_signed
    | apply kept_attempt | apply kept_stores | apply kept_draw | apply kept_ignored
    | solve [eauto with effects typeclass_instances] | preserves_step ].

Section Routes.
Context `{S : MySQL} `{B : Bcrypt} `{F : Floats} `{A : Aead} (toUpper : string -> string).
Context (h : IdentityHandler) (env : Environment_) (now : time).

Lemma kept_serve rt r : preserves (identity_le now) (serve_identity toUpper h env now rt r).
Proof.
  destruct rt; cbn [serve_identity].
  all: unfold Providers, BreakGlass, BreakGlassTest, SCIMUsers, MFAEnroll, MFAConfirm, MFAStepUp, verifyMFA,
    OIDCTokenExchange, SSOStart, OIDCCallback, SAMLCallback, callback, with_target, with_actor, with_signed,
    newTOTPSecret, encryptSecret, scim_write, scim_update, exchange_inspected, exchange_plain,
    validateCallbackBinding, issueSSOSession.
  all: kept_walk.
Qed.
End Routes.

(** ** SSO states *)

(** No row with this text can be consumed from [t] on. *)
Definition dead `{S : MySQL} (st : string) (t : time) (row : StateRow) : Prop :=
  same (ss_state row) st = true -> ss_consumedAt row <> None \/ ss_expiresAt row <= t.

Section States.
Context `{S : MySQL}.

Lemma dead_not_open st t t' row : dead st t row -> t <= t' -> open_state st t' row = false.
Proof.
  intros H L. unfold open_state, after. destruct (same (ss_state row) st) eqn:E; [|done].
  destruct (H E) as [N|N]; [by rewrite bool_decide_eq_false_2|].
  rewrite (proj2 (Z.ltb_ge t' (ss_expiresAt row))) by lia. by rewrite andb_false_r.
Qed.

Lemma update_none st t l f :
  Forall (dead st t) l -> forall t', t <= t' -> update_where (open_state st t') f l = (l, 0).
Proof.
  intros H t' L. unfold update_where. induction H as [|row l Hd H IH]; [done|]. cbn.
  rewrite (dead_not_open st t t' row Hd L). cbn. injection IH as E1 E2. by rewrite E1, E2.
Qed.

Lemma with_same_states d : with_states (it_states d) d = d.
Proof. by destruct d. Qed.

Lemma wp_consume_dead d st t t' :
  Forall (dead st t) (it_states d) -> t <= t' ->
  wp d (ConsumeSSOState st t') (fun r d' => (exists e, r = Err e /\ forall s, e <> Panic s) /\ d' = d).
Proof.
  intros H L. unfold ConsumeSSOState. repeat wp_step.
  all: rewrite ?(update_none st t) in * by done; cbn in *; rewrite ?with_same_states in *; eauto; done.
Qed.

Lemma wp_inspect_dead d st t t' :
  Forall (dead st t) (it_states d) -> t <= t' ->
  wp d (SSOState st t') (fun r d' => (exists e, r = Err e /\ forall s, e <> Panic s) /\ d' = d).
Proof.
  intros H L. unfold SSOState. repeat wp_step; try (split; [by eexists|done]). exfalso.
  apply find_some in Heqo as [Hin Ho]. rewrite Forall_forall in H.
  rewrite (dead_not_open st t t') in Ho; [done|apply H; by apply list_elem_of_In|done].
Qed.

Lemma consumed_dead st t l :
  Forall (dead st t) (fst (update_where (open_state st t) (consumed t) l)).
Proof.
  apply Forall_forall. intros row Hin. apply list_elem_of_In, update_where_In in Hin as (row0 & _ & ->).
  destruct (open_state st t row0) eqn:Eo; intros Hs; [by left|].
  unfold open_state, after in Eo. rewrite Hs in Eo. cbn in Eo.
  destruct (bool_decide_reflect (ss_consumedAt row0 = None)); [right|by left].
  by apply Z.ltb_ge.
Qed.

(** What a successful consumption found, and how it left the states. *)
Lemma consume_state_ok st t w b w' :
  ConsumeSSOState st t w = (Ok b, w') ->
  (exists row, In row (it_states (w_db w)) /\ open_state st t row = true) /\
  it_states (w_db w') = fst (update_where (open_state st t) (consumed t) (it_states (w_db w))) /\
  Forall (dead st t) (it_states (w_db w')).
Proof.
  unfold ConsumeSSOState. intros H. invert_ok H as H1. apply exec_count_ok in H1.
  invert_ok H as H2. apply guard_ok in H2 as [G ->]. invert_ok H as H3. apply query_ok in H3 as [_ E].
  assert (E' : w_db w' = w_db w0) by (rewrite <- E; destruct a1; [by injection H as _ <-|done]).
  rewrite E'. clear E E' H. injection H1 as <- Hn. cbn [it_states with_states]. split; [|split; [done|]].
  - destruct (List.filter (open_state st t) (it_states (w_db w))) as [|row l] eqn:Ef.
    + exfalso. apply negb_true_iff, Z.eqb_neq in G. apply G. subst a. cbn.
      assert (Hf : List.filter (fun r => open_state st t r && bool_decide (consumed t r <> r)) (it_states (w_db w)) = []).
      { clear -Ef. induction (it_states (w_db w)) as [|r l IH]; [done|]. cbn in *.
        destruct (open_state st t r); [done|]. by apply IH. }
      by rewrite Hf.
    + exists row. apply filter_In. rewrite Ef. by left.
  - apply consumed_dead.
Qed.

(** The contract of a consumption. *)
Lemma wp_consume d st t (Q : outcome (Z * Z) -> IdentityTables -> Prop) :
  (forall b d', Forall (dead st t) (it_states d') -> it_accounts d' = it_accounts d -> Q (Ok b) d') ->
  (forall e d', Q (Err e) d') ->
  wp d (ConsumeSSOState st t) Q.
Proof.
  intros H K. unfold ConsumeSSOState. repeat wp_step; try (by apply K). cbn [fst snd]. apply H; [|done].
  exact (consumed_dead st t (it_states d)).
Qed.

(** Rows after the first [n] are younger. *)
Lemma dead_later st t l l' :
  Forall (dead st t) l -> states_le l l' ->
  Forall (fun row => same (ss_state row) st = false) (drop (length l) l') -> Forall (dead st t) l'.
Proof.
  intros H (kept & added & -> & F) Hf. apply Forall_app. split.
  - clear Hf. revert H. induction F as [|a b l kept Hab F IH]; intros H; [done|].
    apply Forall_cons in H as [Ha H]. constructor; [|by apply IH].
    destruct Hab as (E1 & E2 & _ & _ & E5). intros Hs. rewrite E1 in Hs. destruct (Ha Hs) as [N|N]; [left|right].
    + by rewrite E5.
    + by rewrite E2.
  - rewrite (Forall2_length _ _ _ F), drop_app_length in Hf.
    eapply Forall_impl; [exact Hf|]. intros row E Hs. congruence.
Qed.
End States.

(** ** The signed payload *)

(** The headers of a request that the secret signs. *)
Definition identity_nonce (r : IdRequest) : string := trimSpace (header (ir_request r) "Idelium-Identity-Nonce").

Definition signed (env : Environment_) (r : IdRequest) : Prop :=
  env_CALLBACK_SECRET env <> "" /\ identity_nonce r <> "" /\ slen (ir_text r) <= Z.shiftl 256 10
  /\ trimSpace (header (ir_request r) "Idelium-Identity-Signature") <> ""
  /\ trimSpace (header (ir_request r) "Idelium-Identity-Signature")
     = hexEncode (hmac256 (env_CALLBACK_SECRET env) (ir_text r)).

Section Signed.
Context (env : Environment_) (now : time) (r : IdRequest).

(** Passed on only when it is signed and its nonce is not remembered. *)
Lemma wp_signed d (Q : outcome (option ireply) -> IdentityTables -> Prop) :
  (forall response m, rp_status response <> 200 -> Q (Ok (Some response)) (with_nonces m d)) ->
  (forall m, signed env r -> live_nonces now (it_nonces d) !! identity_nonce r = None ->
     Q (Ok None) (with_nonces m d)) ->
  wp d (validateSignedPayload env now r) Q.
Proof.
  intros H K. assert (E : with_nonces (it_nonces d) d = d) by (destruct d; reflexivity).
  unfold validateSignedPayload. cbv zeta.
  destruct (_ || _) eqn:G1; [apply wp_ret; rewrite <- E; apply H; discriminate|].
  destruct (negb _) eqn:G2; [apply wp_ret; rewrite <- E; apply H; discriminate|].
  apply negb_false_iff, String.eqb_eq in G2. rewrite !orb_false_iff, !String.eqb_neq, Z.ltb_ge in G1.
  destruct G1 as [[[G3 G4] G6] G5].
  apply wp_bind, wp_modify, wp_bind, wp_gets. cbn [it_nonces with_nonces].
  destruct (live_nonces now (it_nonces d) !! _) eqn:L; [apply wp_ret; apply H; discriminate|].
  destruct (replay_capacity <=? _); [apply wp_ret; apply H; discriminate|].
  apply wp_bind, wp_modify, wp_ret. apply K; [|reflexivity].
  split_and!; [exact G3|exact G4|exact G5|exact G6|exact G2].
Qed.

(** A signed payload comes to the remembered nonces. *)
Lemma signed_checked (w : world IdentityTables) :
  signed env r ->
  let live := live_nonces now (it_nonces (w_db w)) in
  validateSignedPayload env now r w =
    match live !! identity_nonce r with
    | Some _ => (Ok (Some (WriteError 409 "IDENTITY_REPLAY_DETECTED" "The identity payload nonce was already used.")),
                 World (with_nonces live (w_db w)) (w_faults w) (w_random w))
    | None =>
        if replay_capacity <=? Z.of_nat (size live) then
          (Ok (Some (WriteError 503 "IDENTITY_REPLAY_CACHE_FULL" "Identity replay protection is temporarily unavailable.")),
           World (with_nonces live (w_db w)) (w_faults w) (w_random w))
        else (Ok None, World (with_nonces (<[identity_nonce r := now]> live) (w_db w)) (w_faults w) (w_random w))
    end.
Proof.
  intros (H1 & H2 & H3 & H4 & H5) live. unfold validateSignedPayload. cbv zeta.
  apply String.eqb_neq in H1, H2, H4. unfold identity_nonce in *. rewrite H1, H2, H4, H5.
  rewrite (proj2 (Z.ltb_ge _ _) H3), String.eqb_refl. cbn [orb negb].
  unfold bind, modify, gets. cbn [w_db w_faults w_random it_nonces with_nonces]. fold live.
  destruct (live !! _); [reflexivity|]. destruct (replay_capacity <=? _); reflexivity.
Qed.
End Signed.

(** A call whose error is turned into a refusal. *)
Lemma wp_attempt_ok {D X Y} (d : D) (m : M D X) (k : outcome X -> M D Y) (Q : outcome Y -> D -> Prop) :
  wp d m (fun res d' => match res with
                        | Ok a => wp d' (k (Ok a)) Q
                        | Err e => True
                        end) ->
  (forall e d', wp d' (k (Err e)) Q) -> (forall s d', Q (Err (Panic s)) d') ->
  wp d (bind (attempt m) k) Q.
Proof.
  intros H K P. apply wp_bind, wp_attempt. eapply wp_weaken; [exact H|].
  intros [a|e] d' Hr; [exact Hr|]. destruct e; try apply K. apply P.
Qed.
