(* ===== verification/SsoTheorems.v ===== *)
(** * Single sign-on: tokens, exchanges, callbacks

    When a compact JWT is accepted; what a token exchange and a callback that answer 200
    rest on. *)

From stdpp Require Import pretty.
From S2P Require Import Prelude GoStrings GoTime Sha256 Json JsonText Effects Http RunTables Contracts.
From S2P Require Import RunTheorems CliTheorems Secrets LegacyAuth Bodies Hmac AccountTables Sessions SessionTheorems Accounts AccountHandlers.
From S2P Require Import IdentityTables Identity IdentityHandlers IdentitySso IdentityFacts.

(** ** Compact JWTs *)
(** A text that decodes has only characters of the alphabet and line ends. *)
Lemma raw_groups_alphabet n l v :
  (length l <= n)%nat -> raw_groups l = Some v -> Forall (fun c => is_Some (url_value c)) l.
Proof.
  revert l v. induction n as [|n IH]; intros l v Hn H; [destruct l; [done|cbn in Hn; lia]|].
  destruct l as [|a [|b [|c [|d l]]]]; cbn in H; [done|done|..].
  all: repeat (match type of H with context [url_value ?x ≫= _] =>
         destruct (url_value x) eqn:?; [cbn in H|done] end).
  1,2: repeat constructor; by eexists.
  destruct (raw_groups l) as [tl|] eqn:E; [|done].
  repeat (constructor; [by eexists|]). eapply IH; [|done]. cbn in Hn. lia.
Qed.

Lemma rawURLDecode_no_dot p v : rawURLDecode p = Some v -> ~ In "."%char (chars p).
Proof.
  unfold rawURLDecode. intros H Hin. apply fmap_Some in H as (l & H & _).
  apply (raw_groups_alphabet _ _ _ (le_n _)) in H. rewrite Forall_forall in H.
  destruct (H "."%char) as [z Hz]; [|done]. apply list_elem_of_In, filter_In. by split.
Qed.

(** What a compact JWT must be: three parts, the header HS256, the claims of the second
    part current and for this nonce, issuer and audience, and the third part the HMAC of
    the first two under the configured secret. *)
Definition jwt_for `{F : Floats} (env : Environment_) (now : time)
    (token nonce issuer audience : string) (c : oidcClaims) : Prop :=
  exists p0 p1 p2 head payload,
    token = p0 +:+ "." +:+ p1 +:+ "." +:+ p2
    /\ rawURLDecode p0 = Some head
    /\ decode false [("alg", to_string (fun s _ => s))] "" (unmarshal_body head) = Decoded "HS256"
    /\ rawURLDecode p1 = Some payload
    /\ decode false claims_fields zero_claims (unmarshal_body payload) = Decoded c
    /\ oc_Subject c <> "" /\ now / second < oc_Exp c /\ oc_Nonce c = nonce
    /\ oc_Issuer c = trimSpace issuer /\ trimSpace issuer <> ""
    /\ audience_ok (oc_Audience c) (trimSpace audience) = true /\ trimSpace audience <> ""
    /\ env_OIDC_HS256_SECRET env <> ""
    /\ rawURLDecode p2 = Some (hmac256 (env_OIDC_HS256_SECRET env) (p0 +:+ "." +:+ p1)).

Lemma chars_dotted p q r : chars (p +:+ "." +:+ q +:+ "." +:+ r) = (chars p ++ "."%char :: chars q ++ "."%char :: chars r)%list.
Proof. by rewrite !chars_app. Qed.

Lemma chars_inj s t : chars s = chars t -> s = t.
Proof. intros H. by rewrite <- (of_chars_chars s), H, of_chars_chars. Qed.

Lemma split_dotted p q r :
  ~ In "."%char (chars p) -> ~ In "."%char (chars q) -> ~ In "."%char (chars r) ->
  split "."%char (p +:+ "." +:+ q +:+ "." +:+ r) = [p; q; r].
Proof.
  intros. unfold split. rewrite chars_dotted, split_chars_app, split_chars_app, split_chars_none by done.
  cbn [map]. by rewrite !of_chars_chars.
Qed.

Lemma split_parts s p q r : split "."%char s = [p; q; r] -> s = p +:+ "." +:+ q +:+ "." +:+ r.
Proof.
  unfold split. intros H. destruct (split_chars "."%char (chars s)) as [|a [|b [|c [|]]]] eqn:E; try done.
  injection H as <- <- <-. apply split_three in E. apply chars_inj.
  by rewrite chars_dotted, !chars_of_chars.
Qed.

Section Jwt.
Context `{F : Floats} (env : Environment_) (now : time).

#[local] Ltac no := let X := fresh in intros X; discriminate X.

(** Any other algorithm is unsupported. *)
Lemma if_hs256 {X} (alg : string) (x y : X) :
  alg <> "HS256" -> match alg with "HS256" => x | _ => y end = y.
Proof.
  intros N. destruct (String.eqb_spec alg "HS256") as [E|_]; [by destruct N|].
  repeat (case_match; try reflexivity). exfalso. apply N. subst. reflexivity.
Qed.

(** a compact JWT is accepted exactly when it is three base64url parts, the
    first announcing HS256, the third the HMAC of the first two under the configured
    secret, and the second claims that have not expired, name a subject, and carry the
    expected nonce, issuer and audience, none of issuer, audience and secret being empty.
    No other algorithm, and no token without a signature, is ever accepted. *)
Theorem jwt_accepted_iff token nonce issuer audience c :
  validateOIDCJWTForProvider env now token nonce issuer audience = inr c
  <-> jwt_for env now token nonce issuer audience c.
Proof.
  unfold validateOIDCJWTForProvider, jwt_for. split.
  - destruct (split _ _) as [|p0 [|p1 [|p2 [|]]]] eqn:Sp; try no. apply split_parts in Sp.
    destruct (rawURLDecode p0) as [head|] eqn:D0; [|no].
    destruct (decode _ [_] "" _) as [alg| |] eqn:Alg; [|no..].
    destruct (String.eqb_spec alg "HS256") as [->|Na].
    2:{ rewrite if_hs256 by exact Na. no. }
    destruct (rawURLDecode p1) as [payload|] eqn:D1; [|no].
    destruct (decode _ claims_fields _ _) as [c'| |] eqn:Cl; [|no..].
    destruct (String.eqb_spec (oc_Issuer c') ""); [no|].
    destruct (String.eqb_spec (oc_Subject c') ""); [no|].
    destruct (Z.leb_spec (oc_Exp c') (now / second)); [no|].
    destruct (String.eqb_spec (oc_Nonce c') nonce); [|no]. cbn [orb negb].
    destruct (String.eqb_spec (trimSpace issuer) ""); [no|].
    destruct (String.eqb_spec (oc_Issuer c') (trimSpace issuer)); [|no]. cbn [orb negb].
    destruct (String.eqb_spec (trimSpace audience) ""); [no|].
    destruct (audience_ok _ _) eqn:Au; [|no]. cbn [orb negb].
    destruct (String.eqb_spec (env_OIDC_HS256_SECRET env) ""); [no|].
    destruct (rawURLDecode p2) as [sig|] eqn:D2; [|no].
    destruct (String.eqb_spec sig (hmac256 (env_OIDC_HS256_SECRET env) (p0 +:+ "." +:+ p1))) as [Hsig|]; [|no].
    intros X. injection X as <-. exists p0, p1, p2, head, payload. rewrite <- Hsig. split_and!; assumption.
  - intros (p0 & p1 & p2 & head & payload & -> & D0 & Alg & D1 & Cl & Hs & He & Hn & Hi & Hi' & Au & Ha & Hk & D2).
    rewrite split_dotted by (by eapply rawURLDecode_no_dot). rewrite D0, Alg, D1, Cl.
    destruct (String.eqb_spec (oc_Issuer c) "") as [E|_]; [exfalso; apply Hi'; by rewrite <- Hi|].
    destruct (String.eqb_spec (oc_Subject c) "") as [E|_]; [by destruct Hs|].
    destruct (Z.leb_spec (oc_Exp c) (now / second)); [lia|].
    rewrite Hn, String.eqb_refl. cbn [orb negb].
    destruct (String.eqb_spec (trimSpace issuer) "") as [E|_]; [exfalso; exact (Hi' E)|].
    rewrite Hi, String.eqb_refl. cbn [orb negb].
    destruct (String.eqb_spec (trimSpace audience) "") as [E|_]; [exfalso; exact (Ha E)|].
    rewrite Au. cbn [orb negb].
    destruct (String.eqb_spec (env_OIDC_HS256_SECRET env) "") as [E|_]; [exfalso; exact (Hk E)|].
    rewrite D2, String.eqb_refl. exact eq_refl.
Qed.
End Jwt.

(** ** The token exchange and the callbacks *)
Section Sso.
Context `{S : MySQL} `{B : Bcrypt} `{F : Floats} (h : IdentityHandler) (env : Environment_) (now : time).
Implicit Types d : IdentityTables.

(** The only outcome a claim speaks of is a response 200. *)
Definition when_200 {P} (Q : reply_of P -> IdentityTables -> Prop) (res : outcome (reply_of P))
    (d' : IdentityTables) : Prop :=
  forall reply, res = Ok reply -> rp_status reply = 200 -> Q reply d'.

Lemma wp_not_200 {P} d (reply : reply_of P) Q : rp_status reply <> 200 -> wp d (ret reply) (when_200 Q).
Proof. intros H. apply wp_ret. intros ? [= <-] E. by destruct H. Qed.

Lemma panic_not_200 {P} s d (Q : reply_of P -> IdentityTables -> Prop) : when_200 Q (Err (Panic s)) d.
Proof. intros ? [=]. Qed.

Lemma wp_inspect d st (Q : outcome (Z * Z) -> IdentityTables -> Prop) :
  (forall row, In row (it_states d) -> open_state st now row = true ->
     Q (Ok (ss_idCostumer row, ss_identityProviderId row)) d) ->
  (forall e, Q (Err e) d) -> wp d (SSOState st now) Q.
Proof.
  intros H K. unfold SSOState. repeat wp_step; try apply K. apply find_some in Heqo as [Hin Ho]. by apply H.
Qed.

Lemma wp_provider d tenant name (Q : outcome Provider -> IdentityTables -> Prop) :
  (forall row, In row (it_providers d) -> provider_named tenant name row = true ->
     Q (Ok (provider_of_row row)) d) ->
  (forall e, Q (Err e) d) -> wp d (GetProvider tenant name) Q.
Proof.
  intros H K. unfold GetProvider. repeat wp_step; try apply K. apply find_some in Heqo as [Hin Ho]. by apply H.
Qed.

Lemma wp_service d tenant subject (Q : outcome bool -> IdentityTables -> Prop) :
  (forall row, In row (it_services d) -> active_service tenant subject now row = true -> Q (Ok true) d) ->
  Q (Ok false) d -> (forall e, Q (Err e) d) -> wp d (ActiveServiceAccount tenant subject now) Q.
Proof.
  intros H K L. unfold ActiveServiceAccount. repeat wp_step; try apply L.
  destruct (List.find _ _) as [row|] eqn:E; [|exact K]. apply find_some in E as [Hin Ho]. destruct (0 <? sv_id _); [by eapply H|exact K].
Qed.

(** What the exchange of a token rests on. *)
Definition exchanged (r : IdRequest) d (reply : ireply) d' : Prop :=
  signed env r /\ exists b row provider account c,
    decode false exchange_fields {| ex_IDToken := ""; ex_State := ""; ex_Nonce := "" |}
      (decoder_body (slen (ir_text r)) (ir_text r)) = Decoded b
    /\ In row (it_states d) /\ open_state (ex_State b) now row = true
    /\ In provider (it_providers d)
    /\ provider_named (ss_idCostumer row) (pretty (ss_identityProviderId row)) provider = true
    /\ ip_status provider = "active"
    /\ jwt_for env now (ex_IDToken b) (ex_Nonce b) (default "" (ip_issuer provider))
         (default "" (ip_audience provider)) c
    /\ In account (it_services d) /\ active_service (ss_idCostumer row) (oc_Subject c) now account = true
    /\ rp_body reply = IdValidated (Some (ss_idCostumer row, ss_identityProviderId row)) c
    /\ Forall (dead (ex_State b) now) (it_states d') /\ it_accounts d' = it_accounts d.

Lemma wp_exchange r d :
  hd_inspector h = true -> wp d (OIDCTokenExchange h env now r) (when_200 (exchanged r d)).
Proof.
  intros Hi. unfold OIDCTokenExchange, with_signed. apply wp_bind, wp_signed; [intros; by apply wp_not_200|].
  intros m Hs _. cbv zeta. destruct (decode _ _ _ _) as [b| |] eqn:Hb; try (by apply wp_not_200).
  destruct (_ || _); [by apply wp_not_200|]. destruct (negb _); [by apply wp_not_200|]. rewrite Hi.
  unfold exchange_inspected. apply wp_attempt_ok; [|by intros; apply wp_not_200|by intros; apply panic_not_200].
  apply wp_inspect; [|done]. intros row Hrow Hopen. cbv beta iota.
  apply wp_attempt_ok; [|by intros; apply wp_not_200|by intros; apply panic_not_200].
  apply wp_provider; [|done]. intros provider Hp Hn. cbv beta iota zeta.
  destruct (_ || _) eqn:G; [by apply wp_not_200|].
  rewrite !orb_false_iff, negb_false_iff, String.eqb_eq in G. destruct G as [[Ga _] _].
  destruct (validateOIDCJWTForProvider _ _ _ _ _ _) as [e|c] eqn:Hj; [by apply wp_not_200|].
  apply jwt_accepted_iff in Hj. destruct (negb (hd_service h)); [by apply wp_not_200|].
  apply wp_attempt_ok; [|by intros; apply wp_not_200|by intros; apply panic_not_200].
  apply wp_service; [|by apply wp_not_200|done]. intros account Ha Hact. cbv beta iota.
  apply wp_attempt_ok; [|by intros; apply wp_not_200|by intros; apply panic_not_200].
  apply wp_consume; [|done]. intros _ d' Hdead Hacc. apply wp_ret. intros ? [= <-] _.
  split; [exact Hs|]. exists b, row, provider, account, c. split_and!; assumption || exact eq_refl.
Qed.

(** Claim C29: what a token exchange rests on, where the state storage can be inspected (that
    of the repository can).  It answers 200 only for a body signed with the callback secret
    whose state was open, whose token is an accepted JWT for the issuer and the audience of
    an active provider row of the state's tenant whose id or whose name is the state's
    provider number, and whose subject is an unrevoked, unexpired service account of that
    tenant; the answer names that tenant and the state's provider number, the state is
    spent, and no account or session changes.  That the row found is the one with the id is
    not checked: a provider named with the number of another may stand in for it. *)
Theorem oidc_exchange_sound (r : IdRequest) (w w' : world IdentityTables) (reply : ireply) :
  hd_inspector h = true -> OIDCTokenExchange h env now r w = (Ok reply, w') -> rp_status reply = 200 ->
  exchanged r (w_db w) reply (w_db w').
Proof.
  intros Hi H E. exact (wp_elim _ _ _ _ _ (wp_exchange r (w_db w) Hi) H reply eq_refl E).
Qed.

(** What a callback that opens a session rests on. *)
Definition signed_on (r : IdRequest) d (reply : ireply) d' : Prop :=
  signed env r /\ exists st email row provider user s sid csrf,
    decode false [("state", to_string (fun s _ => s))] "" (unmarshal_body (ir_text r)) = Decoded st
    /\ decode false [("email", to_string (fun s _ => s))] "" (decoder_body (Z.shiftl 16 10) (ir_text r))
       = Decoded email
    /\ In row (it_states d) /\ open_state st now row = true
    /\ In provider (it_providers d)
    /\ provider_named (ss_idCostumer row) (pathValue (ir_request r) "identityProvider") provider = true
    /\ ip_id provider = ss_identityProviderId row /\ ip_status provider = "active"
    /\ In user (at_users (it_accounts d)) /\ same (ur_email user) (trimSpace email) = true
    /\ ur_status user = "active"
    /\ Forall (dead st now) (it_states d')
    /\ it_accounts d' = with_sessions (at_sessions (it_accounts d) ++ [s]) (it_accounts d)
    /\ sr_idHash s = tokenHash sid /\ sr_csrfTokenHash s = tokenHash csrf
    /\ sr_userId s = ur_id user /\ sr_idCostumer s = ur_idCostumer user
    /\ sr_expiresAt s = column_time (now + 8 * hour)
    /\ rp_cookies reply = [cookie sessionCookieName sid 0 true; cookie csrfCookieName csrf 0 false].

Lemma wp_binding r d (Q : outcome (option ireply) -> IdentityTables -> Prop) :
  (forall reply d', rp_status reply <> 200 -> Q (Ok (Some reply)) d') ->
  (forall s d', Q (Err (Panic s)) d') ->
  (forall st row provider d',
     decode false [("state", to_string (fun s _ => s))] "" (unmarshal_body (ir_text r)) = Decoded st ->
     In row (it_states d) -> open_state st now row = true -> In provider (it_providers d) ->
     provider_named (ss_idCostumer row) (pathValue (ir_request r) "identityProvider") provider = true ->
     ip_id provider = ss_identityProviderId row -> ip_status provider = "active" ->
     Forall (dead st now) (it_states d') -> it_accounts d' = it_accounts d -> Q (Ok None) d') ->
  wp d (validateCallbackBinding h now r) Q.
Proof.
  intros H P K. unfold validateCallbackBinding. do 3 (case_match; [by apply wp_ret, H|]).
  destruct (decode _ _ _ _) as [st| |] eqn:Hst; try (by apply wp_ret, H).
  destruct (blank st); [by apply wp_ret, H|].
  apply wp_attempt_ok; [|by intros; apply wp_ret, H|exact P].
  apply wp_inspect; [|done]. intros row Hrow Hopen. cbv beta iota.
  apply wp_attempt_ok; [|by intros; apply wp_ret, H|exact P].
  apply wp_provider; [|done]. intros provider Hp Hn. cbv beta iota zeta.
  destruct (_ || _) eqn:G; [by apply wp_ret, H|].
  rewrite orb_false_iff, !negb_false_iff, String.eqb_eq, Z.eqb_eq in G. destruct G as [Gi Ga].
  apply wp_attempt_ok; [|by intros; apply wp_ret, H|exact P].
  apply wp_consume; [|done]. intros _ d' Hdead Hacc. apply wp_ret.
  exact (K st row provider d' eq_refl Hrow Hopen Hp Hn Gi Ga Hdead Hacc).
Qed.

(** The session that the last step opens. *)
Lemma wp_issue r d (Q : reply_of identity_payload -> IdentityTables -> Prop) :
  (forall email user s sid csrf reply d',
     decode false [("email", to_string (fun s _ => s))] "" (decoder_body (Z.shiftl 16 10) (ir_text r))
       = Decoded email ->
     In user (at_users (it_accounts d)) -> same (ur_email user) (trimSpace email) = true ->
     ur_status user = "active" ->
     it_states d' = it_states d ->
     it_accounts d' = with_sessions (at_sessions (it_accounts d) ++ [s]) (it_accounts d) ->
     sr_idHash s = tokenHash sid -> sr_csrfTokenHash s = tokenHash csrf ->
     sr_userId s = ur_id user -> sr_idCostumer s = ur_idCostumer user ->
     sr_expiresAt s = column_time (now + 8 * hour) ->
     rp_cookies reply = [cookie sessionCookieName sid 0 true; cookie csrfCookieName csrf 0 false] ->
     Q reply d') ->
  wp d (issueSSOSession h now r) (when_200 Q).
Proof.
  intros H. unfold issueSSOSession. cbv zeta.
  destruct (decode _ _ _ _) as [email| |] eqn:He; try (by apply wp_not_200).
  destruct (negb _); [by apply wp_not_200|].
  apply wp_attempt_ok; [|by intros; apply wp_not_200|by intros; apply panic_not_200].
  apply wp_zoom, wp_FindByEmail; [|done]. intros user Hu Hs. cbv beta iota zeta. cbn [u_Status].
  destruct (negb _) eqn:G; [by apply wp_not_200|]. apply negb_false_iff, String.eqb_eq in G.
  apply wp_bind, wp_rand; [by apply wp_not_200|]. intros sid _. cbv beta iota.
  apply wp_bind, wp_rand; [by apply wp_not_200|]. intros csrf _. cbv beta iota.
  apply wp_attempt_ok; [|by intros; apply wp_not_200|by intros; apply panic_not_200].
  destruct (hd_sessions h); [|by apply wp_fail]. apply wp_zoom. unfold Sessions.Create.
  apply wp_insert_unique; [|done]. intros d' Hd.
  apply insert_session_spec in Hd as (s & -> & H1 & H2 & H3 & _ & H5 & H6 & _).
  apply wp_ret. intros ? [= <-] _.
  apply (H email user s (hexEncode sid) (hexEncode csrf)); first [assumption|exact eq_refl].
Qed.

Lemma wp_callback r d : wp d (callback h env now r) (when_200 (signed_on r d)).
Proof.
  unfold callback, with_signed. destruct (negb _); [by apply wp_not_200|].
  apply wp_bind, wp_signed; [intros; by apply wp_not_200|]. intros m Hs _. cbv beta iota.
  apply wp_bind, wp_binding; [intros; by apply wp_not_200|intros; apply panic_not_200|].
  intros st row provider d1 Hst Hrow Hopen Hp Hn Hi Ha Hdead Hacc. cbv beta iota.
  destruct (hd_users h); [|by apply wp_not_200]. apply wp_issue.
  intros email user s sid csrf reply d' He Hu Hsm Hact Hst' Hacc' H1 H2 H3 H4 H5 Hck.
  change (it_accounts (with_nonces m d)) with (it_accounts d) in Hacc. rewrite Hacc in *. rewrite <- Hst' in Hdead.
  split; [exact Hs|]. exists st, email, row, provider, user, s, sid, csrf. split_and!; assumption.
Qed.

(** a callback (OIDC or SAML) that answers 200 was signed with the callback
    secret and presented an open state, started for the active provider its URL names
    in the state's tenant; it spent that state and opened exactly one session, of
    the active user whose email the body gives, for eight hours, whose cookie and CSRF
    token are the two cookies of the answer and are kept as hashes only. *)
Theorem sso_callback_sound (saml : bool) (r : IdRequest) (w w' : world IdentityTables) (reply : ireply) :
  (if saml then SAMLCallback h env now r w else OIDCCallback h env now r w) = (Ok reply, w') ->
  rp_status reply = 200 -> signed_on r (w_db w) reply (w_db w').
Proof.
  intros H E. assert (H' : callback h env now r w = (Ok reply, w')) by (destruct saml; exact H).
  exact (wp_elim _ _ _ _ _ (wp_callback r (w_db w)) H' reply eq_refl E).
Qed.
End Sso.

(** ** A concrete installation *)
#[export] Instance plain_aead : Aead := {|
  gcm_seal := fun _ _ p => p +:+ "0123456789abcdef";
  gcm_open := fun _ _ c =>
    let n := (String.length c - 16)%nat in
    if String.eqb (String.substring n 16 c) "0123456789abcdef" then Some (String.substring 0 n c) else None;
|}.

Definition full_handler : IdentityHandler :=
  {| hd_sessions := true; hd_providers := true; hd_mfa := true; hd_scim := true; hd_users := true;
     hd_sso := true; hd_inspector := true; hd_service := true; hd_breakglass := true |}.

Definition sample_environment : Environment_ :=
  {| env_CALLBACK_SECRET := "callback"; env_MFA_ENCRYPTION_KEY := repeat_text 32 "5a";
     env_OIDC_ISSUER := ""; env_OIDC_AUDIENCE := ""; env_OIDC_HS256_SECRET := "idp" |}.

Definition sample_state : StateRow :=
  {| ss_idCostumer := 8; ss_identityProviderId := 4; ss_state := "st-1"; ss_codeChallenge := "c";
     ss_expiresAt := noon + 10 * minute; ss_consumedAt := None |}.

Definition sample_identity : IdentityTables :=
  {| it_accounts := sample_accounts; it_mfa := empty; it_breakGlass := empty;
     it_providers := [{| ip_id := 4; ip_idCostumer := 8; ip_type := "oidc"; ip_name := "idp";
                         ip_issuer := Some "https://idp"; ip_audience := Some "idelium"; ip_status := "active" |}];
     it_nextProvider := 5; it_states := [sample_state];
     it_services := [{| sv_id := 1; sv_idCostumer := 8; sv_idProject := None; sv_name := "ci";
                        sv_credentialId := "svc"; sv_secretHash := ""; sv_scopes := None;
                        sv_expiresAt := None; sv_revokedAt := None; sv_lastUsedAt := None |}];
     it_nextService := 2; it_events := []; it_nonces := empty |}.

Definition identity_world : world IdentityTables := World sample_identity [] (sample_random 4).

(** A request whose body is signed, under a nonce. *)
Definition signed_payload_request (path : list (string * string)) (nonce text : string) : IdRequest :=
  {| ir_method := "POST"; ir_text := text;
     ir_request :=
       {| rq_path := path; rq_query := []; rq_cookie := None; rq_body := BodyEOF;
          rq_header := [("Idelium-Identity-Nonce", nonce);
                        ("Idelium-Identity-Signature", hexEncode (hmac256 "callback" text))] |} |}.

(** The token that the provider of the sample signs for the account "svc". *)
Definition sample_token : string :=
  let part s := rawURLEncode (json_text s) in
  let two := part "{'alg':'HS256'}" +:+ "."
    +:+ part ("{'iss':'https://idp','sub':'svc','aud':['idelium'],'nonce':'n','exp':" +:+ pretty (noon / second + 60) +:+ "}") in
  two +:+ "." +:+ rawURLEncode (hmac256 "idp" two).

Definition exchange_text : string :=
  json_text ("{'id_token':'" +:+ sample_token +:+ "','state':'st-1','nonce':'n'}").

Definition exchange_request : IdRequest := signed_payload_request [] "nonce-1" exchange_text.

#[local] Notation exchange_result :=
  (OIDCTokenExchange full_handler sample_environment noon exchange_request identity_world).

Definition callback_request : IdRequest :=
  signed_payload_request [("identityProvider", "idp")] "nonce-2" (json_text "{'state':'st-1','email':'root@x'}").

#[local] Notation callback_result :=
  (OIDCCallback full_handler sample_environment noon callback_request identity_world).

Definition status_of (res : outcome ireply * world IdentityTables) : option Z :=
  match fst res with Ok reply => Some (rp_status reply) | Err _ => None end.

Lemma status_of_ok res code :
  status_of res = Some code -> exists reply w', res = (Ok reply, w') /\ rp_status reply = code.
Proof.
  destruct res as [[reply|e] w']; cbn; [|discriminate]. intros X. injection X as X. by exists reply, w'.
Qed.

Example sample_statuses : (status_of exchange_result, status_of callback_result) = (Some 200, Some 200).
Proof. vm_compute. reflexivity. Qed.

(** Spent: a second callback, and the exchange of the same state, are refused. *)
Example spent_state :
  status_of (OIDCTokenExchange full_handler sample_environment noon exchange_request (snd callback_result))
  = Some 401.
Proof. vm_compute. reflexivity. Qed.

(** The user that signs on is of tenant 7, the state of tenant 8: nothing relates them. *)
Example foreign_sign_on :
  (ss_idCostumer sample_state, map sr_idCostumer (at_sessions (it_accounts (w_db (snd callback_result)))))
  = (8, [7]).
Proof. vm_compute. reflexivity. Qed.

(** A provider named "4" vouches for the state of provider 4, which is disabled. *)
Definition named_four : world IdentityTables :=
  World {| it_accounts := it_accounts sample_identity; it_mfa := it_mfa sample_identity;
           it_breakGlass := it_breakGlass sample_identity;
           it_providers := [{| ip_id := 3; ip_idCostumer := 8; ip_type := "oidc"; ip_name := "4";
                               ip_issuer := Some "https://idp"; ip_audience := Some "idelium"; ip_status := "active" |};
                            {| ip_id := 4; ip_idCostumer := 8; ip_type := "oidc"; ip_name := "idp";
                               ip_issuer := Some "https://other"; ip_audience := Some "idelium"; ip_status := "disabled" |}];
           it_nextProvider := 5; it_states := it_states sample_identity; it_services := it_services sample_identity;
           it_nextService := 2; it_events := []; it_nonces := it_nonces sample_identity |} [] (sample_random 4).

Example provider_named_with_a_number :
  status_of (OIDCTokenExchange full_handler sample_environment noon exchange_request named_four) = Some 200.
Proof. vm_compute. reflexivity. Qed.

Lemma oidc_exchange_sound_witness :
  exists reply w', exchange_result = (Ok reply, w') /\ rp_status reply = 200
    /\ exchanged sample_environment noon exchange_request (w_db identity_world) reply (w_db w').
Proof.
  assert (X : status_of exchange_result = Some 200) by (vm_compute; reflexivity).
  apply status_of_ok in X as (reply & w' & E & H200).
  exists reply, w'. split; [exact E|]. split; [exact H200|].
  exact (oidc_exchange_sound full_handler sample_environment noon exchange_request identity_world w' reply
           eq_refl E H200).
Defined.

Lemma sso_callback_sound_witness :
  exists reply w', callback_result = (Ok reply, w') /\ rp_status reply = 200
    /\ signed_on sample_environment noon callback_request (w_db identity_world) reply (w_db w').
Proof.
  assert (X : status_of callback_result = Some 200) by (vm_compute; reflexivity).
  apply status_of_ok in X as (reply & w' & E & H200).
  exists reply, w'. split; [exact E|]. split; [exact H200|].
  exact (sso_callback_sound full_handler sample_environment noon false callback_request identity_world w' reply
           E H200).
Defined.
