(* ===== verification/IdentityTheorems.v ===== *)
(** * States and nonces

    An SSO state is spent once, whatever requests interleave; nonces are remembered for
    ten minutes.  And what the model shows to be wrong: the nonce is not signed. *)

From stdpp Require Import pretty.
From S2P Require Import Prelude GoStrings GoTime Sha256 Json JsonText Effects Http RunTables Contracts.
From S2P Require Import RunTheorems CliTheorems SessionTheorems Secrets LegacyAuth Bodies Hmac AccountTables Sessions Accounts AccountHandlers.
From S2P Require Import IdentityTables Identity IdentityHandlers IdentitySso IdentityFacts SsoTheorems.

(** ** States are spent once *)

(** A request that presents a state. *)
Inductive carries `{F : Floats} (st : string) : identity_route -> IdRequest -> Prop :=
| carries_oidc r :
    decode false [("state", to_string (fun s _ => s))] "" (unmarshal_body (ir_text r)) = Decoded st ->
    carries st OidcCallbackRoute r
| carries_saml r :
    decode false [("state", to_string (fun s _ => s))] "" (unmarshal_body (ir_text r)) = Decoded st ->
    carries st SamlCallbackRoute r
| carries_exchange r b :
    decode false exchange_fields {| ex_IDToken := ""; ex_State := ""; ex_Nonce := "" |}
      (decoder_body (slen (ir_text r)) (ir_text r)) = Decoded b ->
    ex_State b = st -> carries st ExchangeRoute r.

Section States.
Context `{S : MySQL} `{B : Bcrypt} `{F : Floats} `{A : Aead} (toUpper : string -> string).

(** One request served at [t] or later, by a handler of any configuration, whatever calls fail. *)
Inductive request_after (t : time) (d d' : IdentityTables) : Prop :=
| Request_after h env now rt r w :
    t <= now -> w_db w = d -> d' = w_db (snd (serve_identity toUpper h env now rt r w)) ->
    request_after t d d'.

Lemma requests_states t d d' : rtc (request_after t) d d' -> states_le (it_states d) (it_states d').
Proof.
  induction 1 as [d|d d1 d2 H _ IH]; [apply states_le_same|]. destruct H as [h env now rt r w _ <- ->].
  eapply states_le_trans; [|exact IH]. by destruct (kept_serve toUpper h env now rt r w).
Qed.

(** A reply that does not accept. *)
Definition refuses (res : outcome ireply) : Prop :=
  match res with Ok reply => rp_status reply <> 200 | Err _ => True end.

(** A dead state is refused wherever it is presented. *)
Lemma wp_carrier d h env now rt r st t :
  Forall (dead st t) (it_states d) -> t <= now -> carries st rt r ->
  wp d (serve_identity toUpper h env now rt r)
     (fun res d' => refuses res /\ it_accounts d' = it_accounts d).
Proof.
  intros Hd L Hc.
  assert (CB : decode false [("state", to_string (fun s _ => s))] "" (unmarshal_body (ir_text r)) = Decoded st ->
    wp d (callback h env now r) (fun res d' => refuses res /\ it_accounts d' = it_accounts d)).
  { intros Dc. unfold callback, with_signed. destruct (negb _); [by apply wp_ret|].
    apply wp_bind, wp_signed; [intros response m Hr; by apply wp_ret|intros m _ _].
    apply wp_bind. unfold validateCallbackBinding.
    do 3 (case_match; [apply wp_ret; cbv beta iota; by apply wp_ret|]). rewrite Dc.
    destruct (blank st); [apply wp_ret; cbv beta iota; by apply wp_ret|].
    apply wp_bind, wp_attempt. eapply wp_weaken; [by apply (wp_inspect_dead (with_nonces m d) st t)|].
    intros res d' [(e & -> & Np) ->]. destruct e; try (by destruct (Np message)).
    all: apply wp_ret; cbv beta iota; by apply wp_ret. }
  destruct Hc as [r' Dc|r' Dc|r' b Dc Hs]; cbn [serve_identity]; [by apply CB..|].
  unfold OIDCTokenExchange, with_signed.
  apply wp_bind, wp_signed; [intros response m Hr; by apply wp_ret|intros m _ _]. cbv zeta. rewrite Dc.
  case_match; [by apply wp_ret|]. destruct (negb (hd_sso h)); [by apply wp_ret|].
  destruct (hd_inspector h).
  - unfold exchange_inspected. rewrite Hs. apply wp_bind, wp_attempt.
    eapply wp_weaken; [by apply (wp_inspect_dead (with_nonces m d) st t)|].
    intros res d' [(e & -> & Np) ->]. destruct e; try (by destruct (Np message)); by apply wp_ret.
  - unfold exchange_plain. rewrite Hs. case_match; [by apply wp_ret|]. apply wp_bind, wp_attempt.
    eapply wp_weaken; [by apply (wp_consume_dead (with_nonces m d) st t)|].
    intros res d' [(e & -> & Np) ->]. destruct e; try (by destruct (Np message)); by apply wp_ret.
Qed.

(** Claim C28: an SSO state is spent once.  After a request at [t] consumed the state [st],
    whatever requests of whatever routes and configurations are served afterwards, with
    whatever failing calls, and provided the sign-ons started meanwhile did not draw the
    same state, no statement consumes [st] again (so of two interleaved requests that
    both found the state open only one goes on), and every callback or token exchange
    that presents it is refused, opening no session and changing no account. *)
Theorem sso_state_single_use (st : string) (t : time) (w w1 : world IdentityTables) (b : Z * Z)
  (d : IdentityTables) :
  ConsumeSSOState st t w = (Ok b, w1) ->
  rtc (request_after t) (w_db w1) d ->
  Forall (fun row => same (ss_state row) st = false) (drop (length (it_states (w_db w1))) (it_states d)) ->
  (forall t' w2, t <= t' -> w_db w2 = d ->
     exists e, fst (ConsumeSSOState st t' w2) = Err e /\ w_db (snd (ConsumeSSOState st t' w2)) = d) /\
  (forall h env now rt r w2, t <= now -> w_db w2 = d -> carries st rt r ->
     let res := serve_identity toUpper h env now rt r w2 in
     refuses (fst res) /\ it_accounts (w_db (snd res)) = it_accounts d).
Proof.
  intros H Hr Hf. apply consume_state_ok in H as (_ & _ & Hd).
  apply requests_states in Hr. pose proof (dead_later _ _ _ _ Hd Hr Hf) as Hd'. split.
  - intros t' w2 L E. destruct (wp_consume_dead d st t t' Hd' L w2 E) as [(e & -> & _) ->]. by exists e.
  - intros h env now rt r w2 L E Hc. by apply (wp_carrier d h env now rt r st t Hd' L Hc w2 E).
Qed.
End States.

(** ** Nonces are used once *)
Section Nonces.
Context `{S : MySQL} `{B : Bcrypt} `{F : Floats} `{A : Aead} (toUpper : string -> string).

(** One request served between [t] and [t']. *)
Inductive request_between (t t' : time) (d d' : IdentityTables) : Prop :=
| Request_between h env now rt r w :
    t <= now <= t' -> w_db w = d -> d' = w_db (snd (serve_identity toUpper h env now rt r w)) ->
    request_between t t' d d'.

Lemma requests_nonces t t' n d d' :
  rtc (request_between t t') d d' -> t' <= t + replay_window ->
  (it_nonces d !! n = Some t -> it_nonces d' !! n = Some t)
  /\ (Z.of_nat (size (it_nonces d)) <= replay_capacity -> Z.of_nat (size (it_nonces d')) <= replay_capacity).
Proof.
  intros H L. induction H as [d|d d1 d2 H _ [IH1 IH2]]; [done|].
  destruct H as [h env now rt r w Hn <- ->].
  destruct (kept_serve toUpper h env now rt r w) as (_ & [Hs Hk] & _). split; [|auto].
  intros E. apply IH1, Hk; [lia|exact E].
Qed.

Lemma passed env now r (w w' : world IdentityTables) :
  validateSignedPayload env now r w = (Ok None, w') ->
  signed env r /\ live_nonces now (it_nonces (w_db w)) !! identity_nonce r = None.
Proof.
  intros H.
  assert (W : wp (w_db w) (validateSignedPayload env now r) (fun res _ => res = Ok None ->
    signed env r /\ live_nonces now (it_nonces (w_db w)) !! identity_nonce r = None)).
  { apply wp_signed; [intros response m _ E; discriminate E|]. intros _ H1 H2 _. split; assumption. }
  exact (wp_elim _ _ _ _ _ W H eq_refl).
Qed.

(** an identity payload's nonce is accepted once in ten minutes.  After a
    request with nonce [n] passed, whatever requests of whatever routes are served
    within the window, every request that carries [n] is refused, a properly signed one
    with 409; and the process remembers at most ten thousand nonces. *)
Theorem identity_nonce_once (env env' : Environment_) (t t' : time) (r r' : IdRequest)
  (w w1 w2 : world IdentityTables) :
  validateSignedPayload env t r w = (Ok None, w1) ->
  rtc (request_between t t') (w_db w1) (w_db w2) -> t <= t' <= t + replay_window ->
  identity_nonce r' = identity_nonce r ->
  (forall w3, validateSignedPayload env' t' r' w2 <> (Ok None, w3))
  /\ (signed env' r' -> exists reply w3,
        validateSignedPayload env' t' r' w2 = (Ok (Some reply), w3) /\ rp_status reply = 409)
  /\ (Z.of_nat (size (it_nonces (w_db w))) <= replay_capacity ->
      Z.of_nat (size (it_nonces (w_db w2))) <= replay_capacity).
Proof.
  intros H Hr [L1 L2] En.
  assert (X : it_nonces (w_db w1) !! identity_nonce r = Some t).
  { destruct (passed _ _ _ _ _ H) as [Hs _]. rewrite (signed_checked env t r w Hs) in H.
    destruct (live_nonces _ _ !! _); [discriminate H|]. destruct (replay_capacity <=? _); [discriminate H|].
    injection H as <-. apply lookup_insert_eq. }
  destruct (kept_signed env t r w) as (_ & [Hsz _] & _). rewrite H in Hsz. cbn [snd] in Hsz.
  destruct (requests_nonces t t' (identity_nonce r) _ _ Hr L2) as [K1 K2]. specialize (K1 X).
  assert (L : live_nonces t' (it_nonces (w_db w2)) !! identity_nonce r' = Some t).
  { rewrite En. apply map_lookup_filter_Some. split; [exact K1|cbn; lia]. }
  split_and!.
  - intros w3 E.
    apply passed in E as [_ N]. rewrite L in N. discriminate N.
  - intros Hs. rewrite (signed_checked env' t' r' w2 Hs), L. eexists _, _. split; reflexivity.
  - intros Hc. apply K2, Hsz, Hc.
Qed.

(** The nonce is not part of what is signed: a body and its signature, once seen, pass
    again under any other nonce. *)
Lemma captured_payload_accepted (env : Environment_) (now : time) (r r' : IdRequest) (w : world IdentityTables) :
  signed env r -> ir_text r' = ir_text r ->
  header (ir_request r') "Idelium-Identity-Signature" = header (ir_request r) "Idelium-Identity-Signature" ->
  identity_nonce r' <> "" -> it_nonces (w_db w) !! identity_nonce r' = None ->
  Z.of_nat (size (it_nonces (w_db w))) < replay_capacity ->
  fst (validateSignedPayload env now r' w) = Ok None.
Proof.
  intros (H1 & H2 & H3 & H4 & H5) Et Es Hn Hf Hc.
  assert (Hs : signed env r') by (unfold signed; rewrite Et, Es; split_and!; assumption).
  rewrite (signed_checked env now r' w Hs).
  assert (live_nonces now (it_nonces (w_db w)) !! identity_nonce r' = None) as ->.
  { apply map_lookup_filter_None. left. exact Hf. }
  assert (Z.of_nat (size (live_nonces now (it_nonces (w_db w)))) <= Z.of_nat (size (it_nonces (w_db w)))).
  { apply inj_le, map_subseteq_size, map_filter_subseteq. }
  destruct (Z.leb_spec replay_capacity (Z.of_nat (size (live_nonces now (it_nonces (w_db w)))))) as [G|G]; [|reflexivity].
  exfalso. lia.
Qed.
End Nonces.

(** ** Witnesses *)

(** The state of the sample after it is consumed; a request served meanwhile. *)
Definition spent_world : world IdentityTables :=
  Eval vm_compute in snd (ConsumeSSOState "st-1" noon identity_world).

Definition meanwhile : IdentityTables :=
  Eval vm_compute in
    w_db (snd (serve_identity toLower full_handler sample_environment (noon + 1) OidcCallbackRoute
                 callback_request spent_world)).

Lemma sso_state_single_use_witness :
  fst (ConsumeSSOState "st-1" noon identity_world) = Ok (8, 4)
  /\ exists e, fst (ConsumeSSOState "st-1" (noon + 2) (World meanwhile [] [])) = Err e.
Proof.
  split; [reflexivity|].
  assert (C : ConsumeSSOState "st-1" noon identity_world = (Ok (8, 4), spent_world)) by (vm_compute; reflexivity).
  assert (R : rtc (request_after toLower noon) (w_db spent_world) meanwhile).
  { apply rtc_once. apply (Request_after _ _ _ _ full_handler sample_environment (noon + 1) OidcCallbackRoute
      callback_request spent_world); [lia|reflexivity|vm_compute; reflexivity]. }
  assert (Fs : Forall (fun row => same (ss_state row) "st-1" = false)
                 (drop (length (it_states (w_db spent_world))) (it_states meanwhile))) by apply Forall_nil, I.
  destruct (sso_state_single_use toLower "st-1" noon identity_world spent_world (8, 4) meanwhile C R Fs) as [H _].
  destruct (H (noon + 2) (World meanwhile [] []) ltac:(lia) eq_refl) as (e & E & _). exists e. exact E.
Defined.

Definition nonce_world : world IdentityTables :=
  Eval vm_compute in snd (validateSignedPayload sample_environment noon callback_request identity_world).

(** Nine minutes later another body comes under the nonce. *)
Definition later_request : IdRequest := signed_payload_request [] "nonce-2" "{}".

Lemma later_signed : signed sample_environment later_request.
Proof. split_and!; [discriminate|discriminate|vm_compute; discriminate|vm_compute; discriminate|vm_compute; reflexivity]. Qed.

Lemma identity_nonce_once_witness :
  exists reply w3, validateSignedPayload sample_environment (noon + 9 * minute) later_request nonce_world
                   = (Ok (Some reply), w3) /\ rp_status reply = 409.
Proof.
  assert (C : validateSignedPayload sample_environment noon callback_request identity_world = (Ok None, nonce_world))
    by (vm_compute; reflexivity).
  assert (T : noon <= noon + 9 * minute <= noon + replay_window) by (split; vm_compute; discriminate).
  destruct (identity_nonce_once toLower sample_environment sample_environment noon (noon + 9 * minute)
    callback_request later_request identity_world nonce_world nonce_world C (rtc_refl _ _) T eq_refl) as (_ & H & _).
  exact (H later_signed).
Defined.

(** The callback's body, captured, under a nonce of the attacker. *)
Example captured_body_passes :
  fst (validateSignedPayload sample_environment (noon + 1)
         {| ir_method := "POST"; ir_text := ir_text callback_request;
            ir_request :=
              {| rq_path := []; rq_query := []; rq_cookie := None; rq_body := BodyEOF;
                 rq_header := [("Idelium-Identity-Nonce", "other");
                   ("Idelium-Identity-Signature", header (ir_request callback_request) "Idelium-Identity-Signature")] |} |}
         nonce_world) = Ok None.
Proof. vm_compute. reflexivity. Qed.
