(* ===== verification/MfaTheorems.v ===== *)
(** * MFA and SCIM

    An enrolled MFA secret accepts the codes of its counters.  And what the model shows
    to be wrong: a user that SCIM provisions has a password that everybody knows. *)

From stdpp Require Import pretty.
From S2P Require Import Prelude GoStrings GoTime Sha256 Json JsonText Effects Http RunTables Contracts RunTheorems CliTheorems.
From S2P Require Import Secrets LegacyAuth Bodies Hmac AccountTables Sessions SessionTheorems Accounts AccountHandlers.
From S2P Require Import IdentityTables Identity IdentityHandlers IdentityFacts SsoTheorems.

(** ** SCIM *)
Section Scim.
Context `{S : MySQL} `{L : !MySQLLaws S} `{B : Bcrypt} `{BL : !BcryptLaws B}.

(** What the INSERT of a provisioned user leaves. *)
Definition provisioned (tenant : Z) (email name : string) (u : User) (d d' : AccountTables) : Prop :=
  exists row, at_users d' = (at_users d ++ [row])%list
    /\ existsb (fun v => same (ur_email v) email) (at_users d) = false
    /\ ur_id row = u_ID u /\ ur_name row = name /\ ur_email row = email /\ ur_role row = 3
    /\ ur_idCostumer row = tenant /\ ur_status row = "active"
    /\ bcrypt_compare (ur_password row) scim_password = true.

Lemma wp_CreateSCIMUser now tenant email name d :
  wp d (CreateSCIMUser now tenant email name true) (fun res d' =>
    forall u, res = Ok u -> provisioned tenant email name u (it_accounts d) (it_accounts d')).
Proof.
  unfold CreateSCIMUser, hashPassword, ignored, on_accounts. repeat wp_step; try (intros ? E; discriminate E).
  all: unfold insert_user in *.
  all: lazymatch goal with H : (if ?b then _ else _) = Some _ |- _ =>
         destruct b eqn:?; [discriminate H|injection H as <-] end.
  all: intros u E; injection E as <-; eexists; cbn; split_and!; try exact eq_refl; try assumption.
  all: lazymatch goal with H : _ ≫= _ = Some _ |- _ => apply bind_Some in H as (salt & _ & H) end.
  all: by eapply bcrypt_match.
Qed.

Lemma find_app_last {X} (p : X -> bool) l x :
  existsb p l = false -> p x = true -> List.find p (l ++ [x]) = Some x.
Proof.
  intros N P. induction l as [|y l IH]; cbn in *; [by rewrite P|].
  apply orb_false_iff in N as [N1 N2]. rewrite N1. by apply IH.
Qed.

Lemma create_session_ok (session : Session) (d : AccountTables) rs :
  Forall (fun s => sr_idHash s <> tokenHash (se_ID session)) (at_sessions d) ->
  exists s, attempt (Sessions.Create session) (World d [] rs)
              = (Ok (Ok tt), World (with_sessions (at_sessions d ++ [s]) d) [] rs)
    /\ sr_userId s = se_UserID session /\ sr_idCostumer s = se_TenantID session.
Proof.
  intros Hf. unfold attempt, Sessions.Create. eexists. split.
  - erewrite (eval_insert_unique _ _ d); [reflexivity|]. unfold insert_session.
    destruct (existsb _ (at_sessions d)) eqn:X; [exfalso|reflexivity].
    apply existsb_exists in X as (s & Hs & X). apply String.eqb_eq in X. rewrite Forall_forall in Hf.
    apply (Hf s); [by apply list_elem_of_In|exact X].
  - by split.
Qed.

(** a user that SCIM provisions as active can be logged in by anybody who
    knows the address.  The store hashes the constant "scim-disabled-login"; with that
    password the browser login answers 200 and opens a session of the new user. *)
Theorem scim_password_known (now later : time) (tenant : Z) (email name e a b : string) (u : User)
  (w w1 : world IdentityTables) (r : Request) (rs : list (option string)) :
  CreateSCIMUser now tenant email name true w = (Ok u, w1) ->
  decode true login_fields {| lb_Email := ""; lb_Password := "" |} (rq_body r)
    = Decoded {| lb_Email := e; lb_Password := "scim-disabled-login" |} ->
  trimSpace e = email -> email <> "" ->
  String.length a = 32%nat -> String.length b = 32%nat ->
  Forall (fun s => sr_idHash s <> tokenHash (hexEncode a)) (at_sessions (it_accounts (w_db w1))) ->
  exists s reply,
    Login later r (World (it_accounts (w_db w1)) [] (Some a :: Some b :: rs))
      = (Ok reply, World (with_sessions (at_sessions (it_accounts (w_db w1)) ++ [s]) (it_accounts (w_db w1))) [] rs)
    /\ rp_status reply = 200 /\ sr_userId s = u_ID u /\ sr_idCostumer s = tenant
    /\ rp_body reply = SLogin {| id_ID := u_ID u; id_Name := name; id_Email := email; id_Role := 3 |}.
Proof.
  intros H D He Hne La Lb Hf.
  destruct (wp_elim _ _ _ _ _ (wp_CreateSCIMUser now tenant email name (w_db w)) H u eq_refl)
    as (row & E & N & H1 & H2 & H3 & H4 & H5 & H6 & H7).
  set (d := it_accounts (w_db w1)) in *. unfold Login. rewrite D. cbn [lb_Email lb_Password].
  assert (Bl : blank e = false) by (unfold blank; rewrite He; by apply String.eqb_neq).
  rewrite Bl, He. cbn [orb String.eqb].
  assert (F : attempt (FindByEmail email) (World d [] (Some a :: Some b :: rs))
    = (Ok (Ok {| u_ID := ur_id row; u_TenantID := ur_idCostumer row; u_ActiveTenantID := 0;
                 u_Name := ur_name row; u_Email := ur_email row; u_Role := ur_role row;
                 u_PasswordHash := ur_password row; u_Status := ur_status row;
                 u_ImpersonationReason := None; u_ImpersonationExpiresAt := None |}),
       World d [] (Some a :: Some b :: rs))).
  { unfold attempt, FindByEmail. rewrite (eval_bind _ _ _ _ _ (eval_query _ _ d _)), E, find_app_last; [reflexivity|exact N|].
    rewrite H3. apply same_refl. }
  rewrite (eval_bind _ _ _ _ _ F). cbn [u_Status u_PasswordHash]. unfold scim_password in H7. rewrite H6, H7, String.eqb_refl. cbn [negb orb].
  unfold randomToken.
  rewrite (eval_bind (bind (rand_read 32) _) _ _ (Some (hexEncode a)) (World d [] (Some b :: rs)))
    by (rewrite (eval_bind _ _ _ _ _ (eval_rand 32 a d [] _ La)); reflexivity).
  rewrite (eval_bind (bind (rand_read 32) _) _ _ (Some (hexEncode b)) (World d [] rs))
    by (rewrite (eval_bind _ _ _ _ _ (eval_rand 32 b d [] _ Lb)); reflexivity).
  lazymatch goal with |- context [Sessions.Create ?ses] =>
    destruct (create_session_ok ses d rs) as (s & Hc & S1 & S2); [exact Hf|] end.
  rewrite (eval_bind _ _ _ _ _ Hc). exists s. eexists. split; [reflexivity|].
  cbn in S1, S2 |- *. unfold identity_of. cbn. rewrite S1, S2, H1, H2, H3, H4, H5.
  split_and!; reflexivity.
Qed.
End Scim.

(** ** MFA *)
Section Mfa.
Context `{S : MySQL} `{B : Bcrypt} `{F : Floats} `{A : Aead} `{AL : !AeadLaws A} (toUpper : string -> string).
Context (h : IdentityHandler) (env : Environment_).
Context (toUpper_upper : forall s, forallb base32_char (chars s) = true -> toUpper s = s).

(** The request's cookie is a live session of the active user [u]. *)
Definition authenticated_as (now : time) (r : Request) (d : AccountTables) (u : User) : Prop :=
  exists c su, rq_cookie r = Some c /\ c <> "" /\ session_user c now d = Some su
    /\ user_of_session su = u /\ u_Status u = "active".

Lemma wp_authenticate now sessions r d (Q : outcome (option User) -> IdentityTables -> Prop) :
  (forall u, authenticated_as now r (it_accounts d) u -> Q (Ok (Some u)) d) ->
  Q (Ok None) d -> (forall e, Q (Err e) d) -> wp d (authenticate now sessions r) Q.
Proof.
  intros H K P. assert (W : with_accounts (it_accounts d) d = d) by (destruct d; reflexivity).
  unfold authenticate, AuthenticateRequest, Get, on_accounts. repeat wp_step; rewrite ?W; try apply K; try apply P.
  destruct (String.eqb_spec (u_Status (user_of_session p)) "active") as [Ha|]; [|exact K].
  apply H. exists s, p. split_and!; try assumption; try reflexivity. by apply String.eqb_neq.
Qed.

Lemma authenticate_runs now r d u rs :
  authenticated_as now r (it_accounts d) u ->
  authenticate now true r (World d [] rs) = (Ok (Some u), World d [] rs).
Proof.
  intros (c & su & Hc & Hne & Hs & Hu & Ha). unfold authenticate, on_accounts, zoom, AuthenticateRequest.
  rewrite Hc. apply String.eqb_neq in Hne. rewrite Hne. unfold bind, attempt, Get, query, round_trip, gets, bind. cbn.
  rewrite Hs. cbn. rewrite Hu, Ha. cbn. destruct d; reflexivity.
Qed.

Lemma authenticated_active now r d u :
  authenticated_as now r d u -> existsb (active_user (u_ID u)) (at_users d) = true.
Proof.
  intros (c & [s row] & _ & _ & Hs & <- & _). apply session_user_spec in Hs as (_ & Hrow & (_ & _ & _ & _ & Hact)).
  apply existsb_exists. exists row. split; [exact Hrow|]. unfold active_user. cbn. by rewrite Z.eqb_refl.
Qed.

(** *** Secrets *)
(** What is stored of a secret: AES-GCM under the configured key. *)
Definition sealed (key nonce secret : string) : string := hexEncode (nonce +:+ gcm_seal key nonce secret).

Lemma sealed_not_empty key nonce secret : String.length nonce = nonce_size -> sealed key nonce secret <> "".
Proof.
  intros N E. apply (f_equal String.length) in E. unfold sealed in E. rewrite hexEncode_length in E.
  destruct nonce; [discriminate N|discriminate E].
Qed.

Lemma decrypt_encrypted key nonce secret :
  encryptionKey env = Some key -> String.length nonce = nonce_size ->
  decryptSecret env (sealed key nonce secret) = Some secret.
Proof.
  intros K N. unfold sealed. unfold decryptSecret. rewrite K. cbn [mbind option_bind]. rewrite hex_round_trip. cbn [mbind option_bind].
  assert (Eb : bytes_of (nonce +:+ gcm_seal key nonce secret) = (bytes_of nonce ++ bytes_of (gcm_seal key nonce secret))%list).
  { unfold bytes_of. by rewrite chars_app, map_app. }
  assert (Ln : length (bytes_of nonce) = nonce_size).
  { unfold bytes_of. rewrite length_map, <- N. apply length_chars. }
  rewrite Eb, length_app, Ln. rewrite (proj2 (Nat.ltb_ge _ _)) by lia.
  rewrite take_app_length', drop_app_length', !string_of_bytes_of by done. apply gcm_inverse.
Qed.

Lemma wp_encryptSecret d key secret (Q : outcome string -> IdentityTables -> Prop) :
  encryptionKey env = Some key ->
  (forall nonce, String.length nonce = nonce_size -> Q (Ok (sealed key nonce secret)) d) -> wp d (encryptSecret env secret) Q.
Proof.
  intros K H. unfold encryptSecret. rewrite K.
  repeat wp_step; apply (H _); [reflexivity|assumption].
Qed.

Lemma pad_digits_length w n : length (pad_digits w n) = w.
Proof. revert n. induction w as [|w IH]; intros n; [reflexivity|]. cbn. rewrite length_app, IH. cbn. lia. Qed.

Lemma six_digits_length v : slen (six_digits v) = 6.
Proof. unfold slen, six_digits. rewrite <- length_chars, chars_of_chars, pad_digits_length. reflexivity. Qed.

(** The codes of the counter, of the one before and of the one after are accepted. *)
Lemma totp_accepted b at_ offset :
  -1 <= offset <= 1 ->
  validTOTP toUpper (base32Encode b) (totp b (Z.quot (at_ / second) 30 + offset)) at_ = true.
Proof.
  intros Ho. unfold validTOTP.
  rewrite trimSpace_visible, toUpper_upper, base32_round_trip; [|apply base32_alphabet|].
  2:{ apply forallb_forall. intros c Hc. apply base32_char_visible.
      pose proof (base32_alphabet b) as Ha. rewrite forallb_forall in Ha. by apply Ha. }
  assert (L : slen (totp b (Z.quot (at_ / second) 30 + offset)) = 6) by apply six_digits_length.
  rewrite L. cbn [Z.eqb Pos.eqb negb]. apply existsb_exists. exists offset. split; [|apply String.eqb_refl].
  assert (offset = -1 \/ offset = 0 \/ offset = 1) as [-> | [-> | ->]] by lia; cbn; tauto.
Qed.

(** What an enrolment that answers 201 leaves. *)
Definition enrolled (now : time) (key : string) (r : IdRequest) d (reply : ireply) d' : Prop :=
  exists u b nonce, authenticated_as now (ir_request r) (it_accounts d) u
    /\ rp_body reply = IdSecret (base32Encode b) /\ String.length nonce = nonce_size
    /\ d' = with_mfa (<[u_ID u := {| mf_secretEncrypted := Some (sealed key nonce (base32Encode b)); mf_confirmedAt := None |}]>
                        (it_mfa d)) d.

Lemma wp_MFAEnroll now r d key :
  encryptionKey env = Some key ->
  wp d (MFAEnroll h env now r) (fun res d' =>
    forall reply, res = Ok reply -> rp_status reply = 201 -> enrolled now key r d reply d').
Proof.
  intros K. unfold MFAEnroll, with_actor. destruct (negb _); [apply wp_ret; intros ? [= <-]; discriminate|].
  apply wp_bind, wp_authenticate; [|apply wp_ret; intros ? [= <-]; discriminate|intros e ? [=]].
  intros u Hu. cbv beta iota zeta. unfold newTOTPSecret.
  apply wp_bind, wp_bind, wp_rand; [apply wp_ret; cbn; apply wp_ret; intros ? [= <-]; discriminate|].
  intros b _. apply wp_ret. cbn [fmap option_fmap option_map].
  apply wp_bind. eapply wp_encryptSecret; [exact K|]. intros nonce N. apply wp_bind, wp_attempt.
  unfold SetMFASecret. apply wp_exec; [|intros m; apply wp_ret; intros ? [= <-]; discriminate].
  rewrite (authenticated_active now _ _ u Hu).
  apply wp_ret. intros ? [= <-] _. exists u, b, nonce. by split_and!.
Qed.

(** Reading and confirming, in a world whose calls succeed. *)
Lemma GetMFASecret_ok d id v rs :
  existsb (active_user id) (at_users (it_accounts d)) = true ->
  mf_secretEncrypted (mfa_of d id) = Some v -> v <> "" ->
  attempt (GetMFASecret id) (World d [] rs) = (Ok (Ok v), World d [] rs).
Proof.
  intros Ha Hv Hne. unfold attempt, GetMFASecret.
  rewrite (eval_bind _ _ _ _ _ (eval_query _ _ d rs)). rewrite Ha, Hv.
  destruct v; [by destruct Hne|reflexivity].
Qed.

End Mfa.

(** ** Witnesses *)
Definition ascii_upper (s : string) : string :=
  of_chars (map (fun c => if (97 <=? code c) && (code c <=? 122) then zbyte (code c - 32) else c) (chars s)).

Lemma ascii_upper_base32 s : forallb base32_char (chars s) = true -> ascii_upper s = s.
Proof.
  intros H. unfold ascii_upper. rewrite <- (of_chars_chars s) at 2. f_equal.
  induction (chars s) as [|c l IH]; [reflexivity|]. cbn in H |- *. apply andb_true_iff in H as [Hc Hl].
  rewrite IH by exact Hl. f_equal. clear -Hc.
  destruct c as [[] [] [] [] [] [] [] []]; first [reflexivity|vm_compute in Hc; discriminate Hc].
Qed.

#[export] Instance plain_aead_laws : AeadLaws plain_aead.
Proof.
  split. intros k n p. unfold gcm_open, gcm_seal, plain_aead. cbv zeta.
  assert (E : forall t i, String.substring (String.length p) i (p +:+ t) = String.substring 0 i t).
  { intros t i. induction p as [|c p IH]; [reflexivity|exact IH]. }
  assert (P : forall t, String.substring 0 (String.length p) (p +:+ t) = p).
  { intros t. clear E. induction p as [|c p IH]; [by destruct t|]. exact (f_equal (String c) IH). }
  assert (L : (String.length (p +:+ "0123456789abcdef") - 16)%nat = String.length p).
  { assert (X : forall t, String.length (p +:+ t) = (String.length p + String.length t)%nat).
    { intros t. clear. induction p as [|c p IH]; [reflexivity|]. exact (f_equal Datatypes.S IH). }
    rewrite X. cbn. lia. }
  rewrite L, E, P. reflexivity.
Qed.

Definition browser_request (text : string) : IdRequest :=
  {| ir_method := "POST"; ir_text := text;
     ir_request := {| rq_path := []; rq_header := []; rq_query := []; rq_cookie := Some root_session;
                      rq_body := BodyEOF |} |}.

Definition enroll_world : world IdentityTables :=
  World (with_accounts root_tables sample_identity) [] [Some (repeat_text 20 "A"); Some (repeat_text 12 "B")].

#[local] Notation enrolment := (MFAEnroll full_handler sample_environment noon (browser_request "") enroll_world).

Definition enrolled_tables : IdentityTables := Eval vm_compute in w_db (snd enrolment).

(** The code shown a minute later by a device whose clock is half a minute late. *)
Definition late_code : string :=
  Eval vm_compute in totp (repeat_text 20 "A") (Z.quot ((noon + minute) / second) 30 - 1).

Definition code_request : IdRequest := browser_request (json_text ("{'code':'" +:+ late_code +:+ "'}")).


#[local] Notation provisioning :=
  (CreateSCIMUser noon 8 "new@x" "New" true (World sample_identity [] [Some (repeat_text 16 "S")])).

Definition provisioned_world : world IdentityTables := Eval vm_compute in snd provisioning.

Definition scim_login : Request :=
  {| rq_path := []; rq_header := []; rq_query := []; rq_cookie := None;
     rq_body := BodyObject [("email", text_field "new@x"); ("password", text_field "scim-disabled-login")] |}.

Lemma scim_password_known_witness :
  exists reply w', Login noon scim_login (World (it_accounts (w_db provisioned_world)) [] (sample_random 2)) = (Ok reply, w')
    /\ rp_status reply = 200.
Proof.
  assert (E : provisioning = (Ok (scim_user 8 4 "new@x" "New" true), provisioned_world)) by (vm_compute; reflexivity).
  destruct (scim_password_known noon noon 8 "new@x" "New" "new@x" (repeat_text 32 "A") (repeat_text 32 "B")
    _ _ _ scim_login [] E eq_refl eq_refl ltac:(discriminate) eq_refl eq_refl (Forall_nil_2 _))
    as (s & reply & H & H200 & _).
  exists reply. eexists. split; [exact H|exact H200].
Defined.
