(* ===== verification/Sql.v ===== *)
(** * Statements

    The SELECT, COUNT, INSERT, UPDATE and DELETE statements that repositories put
    together at run time: their text with placeholders, their arguments, and what the
    server makes of them on tables of rows.  A statement is kept as its parts, so that
    the text and the meaning are two readings of one value. *)

From stdpp Require Import pretty sorting.
From S2P Require Import Prelude GoStrings GoTime JsonText Effects Http Contracts AccountTables Sessions Accounts Paging.

(** ** Tables *)
Inductive cell := CNull | CInt (z : Z) | CText (s : string) | CTime (t : time).

#[export] Instance cell_eq_dec : EqDecision cell.
Proof. solve_decision. Defined.

(** A row: its identifier and its other columns, NULL when absent. *)
Record row := { rw_id : Z; rw_cells : gmap string cell }.

#[export] Instance row_eq_dec : EqDecision row.
Proof. solve_decision. Defined.

Record table := { tb_rows : list row; tb_next : Z }.

Definition tables : Type := gmap string table.

Definition column (r : row) (c : string) : cell :=
  if String.eqb c "id" then CInt (rw_id r) else default CNull (rw_cells r !! c).

(** [strings.Join]. *)
Fixpoint join (sep : string) (l : list string) : string :=
  match l with
  | [] => ""
  | [s] => s
  | s :: l' => s +:+ sep +:+ join sep l'
  end.

(** ** Conditions *)
Inductive argument := AInt (z : Z) | AText (s : string).

Inductive condition :=
| Like (columns : list string) (pattern : string)  (** one of the columns is like the pattern *)
| OneOf (c : string) (values : list Z)
| Equal (c : string) (value : Z).

Definition condition_text (c : condition) : string :=
  match c with
  | Like [c] _ => c +:+ " LIKE ?"
  | Like cs _ => "(" +:+ join " OR " (map (fun c => c +:+ " LIKE ?") cs) +:+ ")"
  | OneOf c values => c +:+ " IN (" +:+ join "," (map (fun _ => "?") values) +:+ ")"
  | Equal c _ => c +:+ " = ?"
  end.

Definition condition_args (c : condition) : list argument :=
  match c with
  | Like cs pattern => map (fun _ => AText pattern) cs
  | OneOf _ values => map AInt values
  | Equal _ value => [AInt value]
  end.

Definition where_text (l : list condition) : string :=
  match l with [] => "" | _ => " WHERE " +:+ join " AND " (map condition_text l) end.

(** ** Selections *)
Record select := {
  sl_columns : list string;
  sl_table : string;
  sl_where : list condition;
  sl_order : list (string * string);  (** columns with their directions *)
  sl_page : option (Z * Z);  (** the page and its size *)
}.

Definition select_text (s : select) : string :=
  "SELECT " +:+ join ", " (sl_columns s) +:+ " FROM " +:+ sl_table s +:+ where_text (sl_where s)
  +:+ " ORDER BY " +:+ join ", " (map (fun o => fst o +:+ " " +:+ snd o) (sl_order s))
  +:+ match sl_page s with Some _ => " LIMIT ? OFFSET ?" | None => "" end.

Definition count_text (s : select) : string :=
  "SELECT COUNT(" +:+ "*" +:+ ") FROM " +:+ sl_table s +:+ where_text (sl_where s).

Definition where_args (l : list condition) : list argument := flat_map condition_args l.

Definition select_args (s : select) : list argument :=
  (where_args (sl_where s) ++
   match sl_page s with
   | Some (page, size) => [AInt size; AInt (wrap64 (wrap64 (page - 1) * size))]
   | None => []
   end)%list.

Section Server.
Context `{S : MySQL}.

Definition cell_like (v : cell) (pattern : string) : bool :=
  match v with
  | CText s => like s pattern
  | CInt z => like (pretty z) pattern
  | CTime _ | CNull => false
  end.

Definition condition_holds (r : row) (c : condition) : bool :=
  match c with
  | Like cs pattern => existsb (fun c => cell_like (column r c) pattern) cs
  | OneOf c values => existsb (fun v => bool_decide (column r c = CInt v)) values
  | Equal c v => bool_decide (column r c = CInt v)
  end.

Definition matches (l : list condition) (r : row) : bool := forallb (condition_holds r) l.

(** ORDER BY: NULL comes first, text by the collation. *)
Definition cell_le (a b : cell) : bool :=
  match a, b with
  | CNull, _ => true
  | CInt x, CInt y => x <=? y
  | CText x, CText y => text_le x y
  | CTime x, CTime y => x <=? y
  | _, _ => false
  end.

Fixpoint row_le (order : list (string * string)) (a b : row) : bool :=
  match order with
  | [] => true
  | (c, direction) :: order' =>
      let le := directed direction (fun a b => cell_le (column a c) (column b c)) in
      if le a b then (if le b a then row_le order' a b else true) else false
  end.

(** The rows of the table that match, in order. *)
Definition selected (s : select) (t : table) : list row :=
  order_by (row_le (sl_order s)) (List.filter (matches (sl_where s)) (tb_rows t)).

(** Refused when there is no such table or the offset is negative. *)
Definition select_rows (s : select) (d : tables) : option (list row) :=
  t ← d !! sl_table s;
  match sl_page s with
  | Some (page, size) => page_of page size (selected s t)
  | None => Some (selected s t)
  end.

Definition count_rows (s : select) (d : tables) : option Z :=
  t ← d !! sl_table s;
  Some (Z.of_nat (length (List.filter (matches (sl_where s)) (tb_rows t)))).
End Server.

(** ** Changes

    What the driver and the server make of an argument for a column, and the columns
    that an INSERT leaves out, are the class [Schema]: [None] when they refuse. *)
Class Schema := {
  stored : string -> string -> syntax -> option cell;  (** table, column, argument *)
  unnamed : string -> list string -> option (gmap string cell);  (** table, columns named *)
}.

Section Changes.
Context `{S : MySQL} `{C : Schema}.

(** The values of the columns named. *)
Fixpoint store_all (name : string) (columns : list string) (args : list syntax)
  : option (list (string * cell)) :=
  match columns, args with
  | c :: columns, a :: args =>
      v ← stored name c a; l ← store_all name columns args; Some ((c, v) :: l)
  | _, _ => Some []
  end.

Definition set_cells (cells : list (string * cell)) (m : gmap string cell) : gmap string cell :=
  fold_left (fun m cv => <[fst cv := snd cv]> m) cells m.

(** [INSERT INTO name (columns) VALUES (args)]; the server numbers the row. *)
Definition insert_values (name : string) (columns : list string) (args : list syntax) (d : tables)
  : option tables :=
  t ← d !! name; base ← unnamed name columns; cells ← store_all name columns args;
  Some (<[name := {| tb_rows := tb_rows t ++ [{| rw_id := tb_next t; rw_cells := set_cells cells base |}];
                     tb_next := tb_next t + 1 |}]> d).

(** [UPDATE name SET columns = args, updated_at = CURRENT_TIMESTAMP WHERE id = id], and
    the rows it changes. *)
Definition update_values (name : string) (columns : list string) (args : list syntax) (id now : Z)
    (d : tables) : option (tables * Z) :=
  t ← d !! name; cells ← store_all name columns args;
  let '(rows, n) := update_where (fun r => rw_id r =? id)
    (fun r => {| rw_id := rw_id r;
                 rw_cells := set_cells (cells ++ [("updated_at", CTime (column_time now))]) (rw_cells r) |})
    (tb_rows t) in
  Some (<[name := {| tb_rows := rows; tb_next := tb_next t |}]> d, n).

(** [DELETE FROM name WHERE id = id]. *)
Definition delete_id (name : string) (id : Z) (d : tables) : option (tables * Z) :=
  t ← d !! name;
  let '(rows, n) := delete_where (fun r => rw_id r =? id) (tb_rows t) in
  Some (<[name := {| tb_rows := rows; tb_next := tb_next t |}]> d, n).
End Changes.

(** A statement with its count (or new identifier) that the driver or the server may
    refuse. *)
Definition exec_refusable {D} (op : string) (f : D -> option (D * Z)) : M D Z :=
  do! round_trip op;
  let! r := gets f in
  match r with
  | None => fail (DatabaseFailure op)
  | Some (d, n) => do! modify (fun _ => d); ret n
  end.

Lemma wp_exec_refusable {D} (d : D) op f (Q : outcome Z -> D -> Prop) :
  (forall d' n, f d = Some (d', n) -> Q (Ok n) d') ->
  (forall m, Q (Err (DatabaseFailure m)) d) -> wp d (exec_refusable op f) Q.
Proof.
  intros H K. unfold exec_refusable. repeat wp_step; try (by apply K). by apply H.
Qed.

(** ** Texts and placeholders *)
Definition count_char (c : ascii) (s : string) : nat :=
  length (List.filter (Ascii.eqb c) (chars s)).

Lemma count_char_app c s t : count_char c (s +:+ t) = (count_char c s + count_char c t)%nat.
Proof. unfold count_char. by rewrite chars_app, List.filter_app, length_app. Qed.

Lemma count_char_join c sep l :
  count_char c sep = 0%nat -> count_char c (join sep l) = list_sum (map (count_char c) l).
Proof.
  intros H. induction l as [|s [|s' l] IH]; [done|symmetry; apply Nat.add_0_r|].
  change (join sep (s :: s' :: l)) with (s +:+ sep +:+ join sep (s' :: l)).
  rewrite !count_char_app, H, IH. reflexivity.
Qed.

(** Names of tables and columns carry no placeholder. *)
Definition plain (s : string) : Prop := count_char "?" s = 0%nat.

Definition plain_condition (c : condition) : Prop :=
  match c with
  | Like cs _ => Forall plain cs
  | OneOf c _ | Equal c _ => plain c
  end.

Lemma sum_map_const {X} (f : X -> nat) k l :
  Forall (fun x => f x = k) l -> list_sum (map f l) = (k * length l)%nat.
Proof. unfold list_sum. induction 1 as [|x l H _ IH]; cbn; lia. Qed.

Lemma condition_placeholders c :
  plain_condition c -> count_char "?" (condition_text c) = length (condition_args c).
Proof.
  destruct c as [cs p|c l|c v]; cbn [plain_condition condition_args]; intros H.
  - rewrite length_map.
    assert (F : Forall (fun c => count_char "?" (c +:+ " LIKE ?") = 1%nat) cs).
    { eapply Forall_impl; [exact H|]. intros c Hc. by rewrite count_char_app, Hc. }
    destruct cs as [|c [|c' cs]]; [done| |].
    + inversion F; subst. done.
    + unfold condition_text. rewrite !count_char_app, count_char_join, map_map, (sum_map_const _ 1) by done.
      change (count_char "?" "(") with 0%nat. change (count_char "?" ")") with 0%nat. lia.
  - rewrite length_map. unfold condition_text. rewrite !count_char_app, count_char_join, H, map_map by done.
    rewrite (sum_map_const _ 1) by (by apply Forall_true).
    change (count_char "?" " IN (") with 0%nat. change (count_char "?" ")") with 0%nat. lia.
  - unfold condition_text. by rewrite count_char_app, H.
Qed.

Record plain_select (s : select) : Prop := {
  ps_columns : Forall plain (sl_columns s);
  ps_table : plain (sl_table s);
  ps_where : Forall plain_condition (sl_where s);
  ps_order : Forall (fun o => plain (fst o) /\ plain (snd o)) (sl_order s);
}.

Lemma where_placeholders l :
  Forall plain_condition l -> count_char "?" (where_text l) = length (where_args l).
Proof.
  intros H. assert (E : list_sum (map (count_char "?") (map condition_text l)) = length (where_args l)).
  { unfold where_args, list_sum. induction H as [|c l Hc H IH]; [done|]. cbn [map fold_right flat_map].
    rewrite length_app, condition_placeholders, IH by done. done. }
  destruct l as [|c l]; [done|]. unfold where_text. rewrite count_char_app, count_char_join by done.
  rewrite E. done.
Qed.

(** A statement has as many placeholders as arguments. *)
Lemma select_placeholders s :
  plain_select s ->
  count_char "?" (select_text s) = length (select_args s)
  /\ count_char "?" (count_text s) = length (where_args (sl_where s)).
Proof.
  intros [Hc Ht Hw Ho]. unfold select_text, count_text, select_args.
  rewrite !count_char_app, !count_char_join, where_placeholders, Ht, length_app by done.
  rewrite (sum_map_const _ 0) by exact Hc. rewrite map_map, (sum_map_const _ 0).
  2:{ eapply Forall_impl; [exact Ho|]. intros o [H1 H2]. by rewrite !count_char_app, H1, H2. }
  change (count_char "?" "SELECT ") with 0%nat. change (count_char "?" " FROM ") with 0%nat.
  change (count_char "?" "SELECT COUNT(") with 0%nat. change (count_char "?" "*") with 0%nat.
  change (count_char "?" ") FROM ") with 0%nat. change (count_char "?" " ORDER BY ") with 0%nat.
  split; [|done]. destruct (sl_page s) as [[page size]|]; [|cbn; lia].
  change (count_char "?" " LIMIT ? OFFSET ?") with 2%nat. cbn [length]. lia.
Qed.

(** ** Shapes

    Two conditions of one shape differ in the values of their arguments only. *)
Definition same_shape (a b : condition) : Prop :=
  match a, b with
  | Like cs _, Like cs' _ => cs = cs'
  | OneOf c l, OneOf c' l' => c = c' /\ length l = length l'
  | Equal c _, Equal c' _ => c = c'
  | _, _ => False
  end.

Lemma same_shape_text a b : same_shape a b -> condition_text a = condition_text b.
Proof.
  destruct a as [cs p|c l|c v], b as [cs' p'|c' l'|c' v']; cbn; try done.
  - by intros ->.
  - intros [-> H]. do 3 f_equal. f_equal. revert l' H.
    induction l as [|x l IH]; intros [|y l'] H; cbn in *; try done. f_equal. apply IH. by injection H.
  - by intros ->.
Qed.

Lemma same_shape_where l l' : Forall2 same_shape l l' -> where_text l = where_text l'.
Proof.
  intros H. assert (E : map condition_text l = map condition_text l').
  { induction H as [|a b l l' Hab H IH]; [done|]. cbn. by rewrite IH, (same_shape_text a b). }
  destruct H; [done|]. unfold where_text. by rewrite E.
Qed.
