(* ===== verification/Catalog.v ===== *)
(** * The platform catalogue

    internal/platforms/catalog.go and internal/persistence/mysql/platform_catalog.go:
    the reference tables (types, statuses, locations, brands, models, operating systems,
    browsers and their versions), the managed platforms and the targets of the launcher.

    Errors of this repository carry the text of the driver into the log only; they are
    the failures of [Effects] here.  The white space inside a statement is not kept. *)

From stdpp Require Import pretty.
From S2P Require Import Prelude GoStrings GoTime Json JsonText Effects Http Contracts AccountTables Sessions Accounts Paging Sql.

(** What the catalogue's handlers work on: the accounts, for their sessions, and tables. *)
Record CatalogTables := {
  ca_accounts : AccountTables;
  ca_tables : tables;
}.

Definition with_ca_accounts (x : AccountTables) (d : CatalogTables) : CatalogTables :=
  {| ca_accounts := x; ca_tables := ca_tables d |}.
Definition with_ca_tables (x : tables) (d : CatalogTables) : CatalogTables :=
  {| ca_accounts := ca_accounts d; ca_tables := x |}.

Definition on_tables {A} (m : M tables A) : M CatalogTables A := zoom ca_tables with_ca_tables m.

(** ** Items *)
Record CatalogItem := { ci_ID : Z; ci_Name : string }.

Record LocationItem := {
  lo_ID : Z; lo_Name : string; lo_CreatedAt : option time; lo_UpdatedAt : option time }.

Record BrandItem := {
  br_ID : Z; br_Brand : string; br_CreatedAt : option time; br_UpdatedAt : option time }.

Record ModelItem := {
  mo_ID : Z; mo_Model : string; mo_IDBrand : Z; mo_CreatedAt : option time; mo_UpdatedAt : option time }.

Record OperatingSystemItem := {
  os_ID : Z; os_Name : string; os_Type : Z; os_CreatedAt : option time; os_UpdatedAt : option time }.

Record OperatingSystemVersionItem := {
  ov_ID : Z; ov_Version : string; ov_IDOs : Z; ov_CreatedAt : option time; ov_UpdatedAt : option time }.

Record BrowserItem := {
  bw_ID : Z; bw_Name : string; bw_IDOs : Z; bw_CreatedAt : option time; bw_UpdatedAt : option time }.

Record BrowserVersionItem := {
  bv_ID : Z; bv_Version : string; bv_IDBrowser : Z; bv_CreatedAt : option time; bv_UpdatedAt : option time }.

Record ManagedPlatformItem := {
  mp_ID : Z; mp_Type : Z; mp_Hostname : string; mp_Location : Z; mp_OS : Z; mp_OSVersion : Z;
  mp_Brand : Z; mp_Browser : Z; mp_BrandDescription : string; mp_OSDescription : string;
  mp_BrowserDescription : string; mp_Status : Z; mp_CreatedAt : option time; mp_UpdatedAt : option time }.

Record LaunchTargetCapacity := { lc_Available : Z; lc_Max : Z; lc_Queued : Z }.

Record LaunchTargetItem := {
  lt_ID : string;
  lt_Name : string;
  lt_Type : string;
  lt_Runtime : string;
  lt_Capabilities : list string;
  lt_Capacity : LaunchTargetCapacity;
  lt_Health : string;
  lt_LastHealthAt : option time;
  lt_Region : string;
  lt_Hostname : string;
  lt_Browser : string;
  lt_IDPlatform : option Z;
  lt_PlatformID : option Z;
}.

(** ** Queries

    The eight query types have the fields of this record; [gq_Scope] is IDBrand, TypeID,
    IDOs or IDBrowser, and is not used by locations and brands. *)
Record GridQuery := {
  gq_Scope : Z;
  gq_Page : Z;
  gq_PageSize : Z;
  gq_Paged : bool;
  gq_Search : string;
  gq_Sort : string;
  gq_Direction : string;
  gq_FilterIDs : list Z;
}.

Definition LocationQuery : Type := GridQuery.
Definition BrandQuery : Type := GridQuery.
Definition ModelQuery : Type := GridQuery.
Definition OperatingSystemQuery : Type := GridQuery.
Definition OperatingSystemVersionQuery : Type := GridQuery.
Definition BrowserQuery : Type := GridQuery.
Definition BrowserVersionQuery : Type := GridQuery.
Definition ManagedPlatformQuery : Type := GridQuery.

(** A page; Stale and Partial of its metadata are always false. *)
Record GridPage (A : Type) := Page { pg_Data : list A; pg_Meta : option PageMeta }.
Arguments Page {A}.
Arguments pg_Data {A}.
Arguments pg_Meta {A}.

(** ** Conditions *)
Definition gridWhereClause (search searchColumn : string) (filterIDs : list Z) : list condition :=
  ((if String.eqb search "" then [] else [Like [searchColumn] ("%" +:+ search +:+ "%")])
   ++ match filterIDs with [] => [] | _ => [OneOf "id" filterIDs] end)%list.

Definition locationWhereClause (q : LocationQuery) : list condition :=
  gridWhereClause (gq_Search q) "name" (gq_FilterIDs q).

Definition scoped (searchColumn scope : string) (q : GridQuery) : list condition :=
  (gridWhereClause (gq_Search q) searchColumn (gq_FilterIDs q) ++ [Equal scope (gq_Scope q)])%list.

Definition modelWhereClause : ModelQuery -> list condition := scoped "model" "idBrand".
Definition operatingSystemWhereClause : OperatingSystemQuery -> list condition := scoped "name" "type".
Definition operatingSystemVersionWhereClause : OperatingSystemVersionQuery -> list condition :=
  scoped "version" "idOs".
Definition browserWhereClause : BrowserQuery -> list condition := scoped "name" "idOs".
Definition browserVersionWhereClause : BrowserVersionQuery -> list condition := scoped "version" "idBrowser".

Definition managedPlatformWhereClause (q : ManagedPlatformQuery) : list condition :=
  ([Equal "type" (gq_Scope q)]
   ++ (if String.eqb (gq_Search q) "" then []
       else [Like ["hostname"; "brandDescription"; "osDescription"; "browserDescription"]
               ("%" +:+ gq_Search q +:+ "%")])
   ++ match gq_FilterIDs q with [] => [] | _ => [OneOf "id" (gq_FilterIDs q)] end)%list.

(** ** Scanning rows: NULL fits a [sql.NullTime] only *)
Definition scan_int (r : row) (c : string) : option Z :=
  match column r c with CInt z => Some z | CText s => parseInt s | CTime _ | CNull => None end.

Definition scan_text (r : row) (c : string) : option string :=
  match column r c with CText s => Some s | CInt z => Some (pretty z) | CTime _ | CNull => None end.

Definition scan_time (r : row) (c : string) : option (option time) :=
  match column r c with CTime t => Some (Some t) | CNull => Some None | CInt _ | CText _ => None end.

Definition scan_item (r : row) : option CatalogItem :=
  id ← scan_int r "id"; name ← scan_text r "name"; Some {| ci_ID := id; ci_Name := name |}.

Definition scan_location (r : row) : option LocationItem :=
  id ← scan_int r "id"; name ← scan_text r "name";
  created ← scan_time r "created_at"; updated ← scan_time r "updated_at";
  Some {| lo_ID := id; lo_Name := name; lo_CreatedAt := created; lo_UpdatedAt := updated |}.

Definition scan_brand (r : row) : option BrandItem :=
  id ← scan_int r "id"; brand ← scan_text r "brand";
  created ← scan_time r "created_at"; updated ← scan_time r "updated_at";
  Some {| br_ID := id; br_Brand := brand; br_CreatedAt := created; br_UpdatedAt := updated |}.

Definition scan_model (r : row) : option ModelItem :=
  id ← scan_int r "id"; model ← scan_text r "model"; brand ← scan_int r "idBrand";
  created ← scan_time r "created_at"; updated ← scan_time r "updated_at";
  Some {| mo_ID := id; mo_Model := model; mo_IDBrand := brand;
          mo_CreatedAt := created; mo_UpdatedAt := updated |}.

Definition scan_os (r : row) : option OperatingSystemItem :=
  id ← scan_int r "id"; name ← scan_text r "name"; type ← scan_int r "type";
  created ← scan_time r "created_at"; updated ← scan_time r "updated_at";
  Some {| os_ID := id; os_Name := name; os_Type := type;
          os_CreatedAt := created; os_UpdatedAt := updated |}.

Definition scan_os_version (r : row) : option OperatingSystemVersionItem :=
  id ← scan_int r "id"; version ← scan_text r "version"; os ← scan_int r "idOs";
  created ← scan_time r "created_at"; updated ← scan_time r "updated_at";
  Some {| ov_ID := id; ov_Version := version; ov_IDOs := os;
          ov_CreatedAt := created; ov_UpdatedAt := updated |}.

Definition scan_browser (r : row) : option BrowserItem :=
  id ← scan_int r "id"; name ← scan_text r "name"; os ← scan_int r "idOs";
  created ← scan_time r "created_at"; updated ← scan_time r "updated_at";
  Some {| bw_ID := id; bw_Name := name; bw_IDOs := os;
          bw_CreatedAt := created; bw_UpdatedAt := updated |}.

Definition scan_browser_version (r : row) : option BrowserVersionItem :=
  id ← scan_int r "id"; version ← scan_text r "version"; browser ← scan_int r "idBrowser";
  created ← scan_time r "created_at"; updated ← scan_time r "updated_at";
  Some {| bv_ID := id; bv_Version := version; bv_IDBrowser := browser;
          bv_CreatedAt := created; bv_UpdatedAt := updated |}.

Definition scan_platform (r : row) : option ManagedPlatformItem :=
  id ← scan_int r "id"; type ← scan_int r "type"; hostname ← scan_text r "hostname";
  location ← scan_int r "location"; os ← scan_int r "os"; osversion ← scan_int r "osversion";
  brand ← scan_int r "brand"; browser ← scan_int r "browser";
  brandDescription ← scan_text r "brandDescription"; osDescription ← scan_text r "osDescription";
  browserDescription ← scan_text r "browserDescription"; status ← scan_int r "status";
  created ← scan_time r "created_at"; updated ← scan_time r "updated_at";
  Some {| mp_ID := id; mp_Type := type; mp_Hostname := hostname; mp_Location := location;
          mp_OS := os; mp_OSVersion := osversion; mp_Brand := brand; mp_Browser := browser;
          mp_BrandDescription := brandDescription; mp_OSDescription := osDescription;
          mp_BrowserDescription := browserDescription; mp_Status := status;
          mp_CreatedAt := created; mp_UpdatedAt := updated |}.

(** The loop over [rows.Next]: the first row that does not scan is an error. *)
Fixpoint scan_rows {A} (scan : row -> option A) (l : list row) : option (list A) :=
  match l with
  | [] => Some []
  | r :: l' => x ← scan r; xs ← scan_rows scan l'; Some (x :: xs)
  end.

(** ** Lists

    What distinguishes the eight lists. *)
Record grid (A : Type) := Grid {
  gr_table : string;
  gr_columns : list string;
  gr_sorts : list string;  (** [sortColumns], whose values are its keys *)
  gr_default : string;
  gr_where : GridQuery -> list condition;
  gr_tail : list (string * string);  (** what follows the sort column in ORDER BY *)
  gr_scan : row -> option A;
}.
Arguments Grid {A}.
Arguments gr_table {A}.
Arguments gr_columns {A}.
Arguments gr_sorts {A}.
Arguments gr_default {A}.
Arguments gr_where {A}.
Arguments gr_tail {A}.
Arguments gr_scan {A}.

Definition grid_sort {A} (g : grid A) (q : GridQuery) : string :=
  if existsb (String.eqb (gq_Sort q)) (gr_sorts g) then gq_Sort q else gr_default g.

Definition grid_direction (q : GridQuery) : string :=
  if String.eqb (gq_Direction q) "desc" then gq_Direction q else "asc".

Definition grid_page_size (q : GridQuery) : Z := if gq_PageSize q =? 0 then 25 else gq_PageSize q.
Definition grid_page (q : GridQuery) : Z := if gq_Page q =? 0 then 1 else gq_Page q.

Definition grid_select {A} (g : grid A) (q : GridQuery) : select :=
  {| sl_columns := gr_columns g; sl_table := gr_table g; sl_where := gr_where g q;
     sl_order := (grid_sort g q, grid_direction q) :: gr_tail g;
     sl_page := if gq_Paged q then Some (grid_page q, grid_page_size q) else None |}.

Section Lists.
Context `{S : MySQL}.
Notation R := (M tables).

Definition list_grid {A} (g : grid A) (q : GridQuery) : R (GridPage A) :=
  let s := grid_select g q in
  let! total := query_page "count platform catalog rows" (count_rows s) in
  let! rows := query_page "query platform catalog" (select_rows s) in
  match scan_rows (gr_scan g) rows with
  | None => fail (OtherError "scan platform catalog row")
  | Some items =>
      ret (Page items
             (if gq_Paged q
              then Some (pageMeta (grid_page q) (grid_page_size q) total (grid_sort g q) (grid_direction q))
              else None))
  end.

Definition locations : grid LocationItem :=
  Grid "locations" ["id"; "name"; "created_at"; "updated_at"]
    ["id"; "name"; "created_at"; "updated_at"] "id" locationWhereClause [] scan_location.
Definition ListLocations : LocationQuery -> R (GridPage LocationItem) := list_grid locations.

Definition brands : grid BrandItem :=
  Grid "brand_devices" ["id"; "brand"; "created_at"; "updated_at"]
    ["id"; "brand"; "created_at"; "updated_at"] "id"
    (fun q => gridWhereClause (gq_Search q) "brand" (gq_FilterIDs q)) [] scan_brand.
Definition ListBrands : BrandQuery -> R (GridPage BrandItem) := list_grid brands.

Definition models : grid ModelItem :=
  Grid "model_devices" ["id"; "model"; "idBrand"; "created_at"; "updated_at"]
    ["id"; "model"; "created_at"; "updated_at"] "model" modelWhereClause [] scan_model.
Definition ListModels : ModelQuery -> R (GridPage ModelItem) := list_grid models.

Definition operatingSystems : grid OperatingSystemItem :=
  Grid "os" ["id"; "name"; "type"; "created_at"; "updated_at"]
    ["id"; "name"; "created_at"; "updated_at"] "id" operatingSystemWhereClause [] scan_os.
Definition ListOperatingSystems : OperatingSystemQuery -> R (GridPage OperatingSystemItem) :=
  list_grid operatingSystems.

Definition operatingSystemVersions : grid OperatingSystemVersionItem :=
  Grid "version_os" ["id"; "version"; "idOs"; "created_at"; "updated_at"]
    ["id"; "version"; "created_at"; "updated_at"] "version" operatingSystemVersionWhereClause []
    scan_os_version.
Definition ListOperatingSystemVersions
  : OperatingSystemVersionQuery -> R (GridPage OperatingSystemVersionItem) :=
  list_grid operatingSystemVersions.

Definition browsers : grid BrowserItem :=
  Grid "browsers" ["id"; "name"; "idOs"; "created_at"; "updated_at"]
    ["id"; "name"; "created_at"; "updated_at"] "name" browserWhereClause [] scan_browser.
Definition ListBrowsers : BrowserQuery -> R (GridPage BrowserItem) := list_grid browsers.

Definition browserVersions : grid BrowserVersionItem :=
  Grid "version_browsers" ["id"; "version"; "idBrowser"; "created_at"; "updated_at"]
    ["id"; "version"; "created_at"; "updated_at"] "version" browserVersionWhereClause []
    scan_browser_version.
Definition ListBrowserVersions : BrowserVersionQuery -> R (GridPage BrowserVersionItem) :=
  list_grid browserVersions.

Definition managedPlatforms : grid ManagedPlatformItem :=
  Grid "platforms"
    ["id"; "type"; "hostname"; "location"; "os"; "osversion"; "brand"; "browser"; "brandDescription";
     "osDescription"; "browserDescription"; "status"; "created_at"; "updated_at"]
    ["hostname"; "brandDescription"; "osDescription"; "browserDescription"; "status"; "created_at";
     "updated_at"] "osDescription" managedPlatformWhereClause [("id", "ASC")] scan_platform.
Definition ListManagedPlatforms : ManagedPlatformQuery -> R (GridPage ManagedPlatformItem) :=
  list_grid managedPlatforms.

(** [listCatalogItems]: types and statuses. *)
Definition listCatalogItems (name : string) : R (list CatalogItem) :=
  let! rows := query_page "query platform catalog"
    (select_rows {| sl_columns := ["id"; "name"]; sl_table := name; sl_where := [];
                    sl_order := [("id", "ASC")]; sl_page := None |}) in
  match scan_rows scan_item rows with
  | None => fail (OtherError "scan platform catalog row")
  | Some items => ret items
  end.

Definition ListTypes : R (list CatalogItem) := listCatalogItems "types".
Definition ListStatuses : R (list CatalogItem) := listCatalogItems "statuses".

(** *** Targets of the launcher *)
Definition middle_dot : string := of_chars [byte 32; byte 194; byte 183; byte 32].

Definition pool_target (now : time) : LaunchTargetItem :=
  {| lt_ID := "platform-pool"; lt_Name := "Platform pool"; lt_Type := "platform-pool";
     lt_Runtime := "selenium"; lt_Capabilities := ["browserOverride"; "parallel"];
     lt_Capacity := {| lc_Available := 1; lc_Max := 1; lc_Queued := 0 |};
     lt_Health := "healthy"; lt_LastHealthAt := Some now; lt_Region := "project";
     lt_Hostname := ""; lt_Browser := ""; lt_IDPlatform := None; lt_PlatformID := None |}.

Definition target_name (id : Z) (hostname osDescription browserDescription : string) : string :=
  let name := trimSpace hostname in
  let name := if String.eqb name ""
              then trimSpace (osDescription +:+ middle_dot +:+ browserDescription) else name in
  if String.eqb name "" then "Platform " +:+ pretty id else name.

(** [COALESCE(t.name, '')] of the LEFT JOIN. *)
Definition type_name (types : list row) (type : cell) : string :=
  match List.find (fun t => bool_decide (CInt (rw_id t) = type)) types with
  | Some t => default "" (scan_text t "name")
  | None => ""
  end.

Definition scan_target (types : list row) (r : row) : option LaunchTargetItem :=
  id ← scan_int r "id"; _ ← scan_int r "type"; hostname ← scan_text r "hostname";
  location ← scan_int r "location"; osDescription ← scan_text r "osDescription";
  browserDescription ← scan_text r "browserDescription"; status ← scan_int r "status";
  updated ← scan_time r "updated_at";
  let healthy := status =? 1 in
  Some {| lt_ID := "platform-" +:+ pretty id;
          lt_Name := target_name id hostname osDescription browserDescription;
          lt_Type := "platform";
          lt_Runtime := if contains (toLower (type_name types (column r "type"))) "mobile"
                        then "appium" else "selenium";
          lt_Capabilities := ["browserOverride"];
          lt_Capacity := {| lc_Available := if healthy then 1 else 0; lc_Max := 1; lc_Queued := 0 |};
          lt_Health := if healthy then "healthy" else "disabled";
          lt_LastHealthAt := updated; lt_Region := pretty location; lt_Hostname := hostname;
          lt_Browser := browserDescription; lt_IDPlatform := Some id; lt_PlatformID := Some id |}.

(** The rows of the join, with LIMIT 49; the project is not used. *)
Definition target_rows (d : tables) : option (list row * list row) :=
  platforms ← d !! "platforms"; types ← d !! "types";
  Some (take 49 (order_by (row_le [("id", "ASC")]) (tb_rows platforms)), tb_rows types).

Definition ListLaunchTargets (now : time) (projectID : Z) : R (list LaunchTargetItem) :=
  let! rows := query "query launcher targets" target_rows in
  match rows with
  | None => fail (DatabaseFailure "query launcher targets")
  | Some (rows, types) =>
      match scan_rows (scan_target types) rows with
      | None => fail (OtherError "scan launcher target row")
      | Some items => ret (pool_target now :: items)
      end
  end.
End Lists.

(** ** Mutations *)
Record catalog_definition := { cd_table : string; cd_columns : list string; cd_required : list string }.

Definition catalogMutationColumns (kind : string) : option catalog_definition :=
  if String.eqb kind "brand" then Some {| cd_table := "brand_devices"; cd_columns := ["brand"];
    cd_required := ["brand"] |}
  else if String.eqb kind "browser" then Some {| cd_table := "browsers"; cd_columns := ["name"; "idOs"];
    cd_required := ["name"; "idOs"] |}
  else if String.eqb kind "browser-version" then Some {| cd_table := "version_browsers";
    cd_columns := ["version"; "idBrowser"]; cd_required := ["version"; "idBrowser"] |}
  else if String.eqb kind "location" then Some {| cd_table := "locations"; cd_columns := ["name"];
    cd_required := ["name"] |}
  else if String.eqb kind "managed-platform" then Some {| cd_table := "platforms";
    cd_columns := ["type"; "hostname"; "location"; "os"; "osversion"; "brand"; "browser";
                   "brandDescription"; "osDescription"; "browserDescription"; "status"];
    cd_required := ["type"; "hostname"; "location"; "os"; "osversion"; "brand"; "browser"; "status"] |}
  else if String.eqb kind "model" then Some {| cd_table := "model_devices";
    cd_columns := ["model"; "idBrand"]; cd_required := ["model"; "idBrand"] |}
  else if String.eqb kind "os" then Some {| cd_table := "os"; cd_columns := ["name"; "type"];
    cd_required := ["name"; "type"] |}
  else if String.eqb kind "os-version" then Some {| cd_table := "version_os";
    cd_columns := ["version"; "idOs"]; cd_required := ["version"; "idOs"] |}
  else None.

Definition normalizeCatalogValues (kind : string) (values : dict syntax) : dict syntax :=
  if negb (String.eqb kind "managed-platform") then values
  else match dget "hostname" values with
       | Some _ => values
       | None => match dget "addressname" values with
                 | Some legacy => dset "hostname" legacy values
                 | None => values
                 end
       end.

(** A required value is there, and is neither null nor the empty string. *)
Definition filled (values : dict syntax) (field : string) : bool :=
  match dget field values with
  | None | Some SNull => false
  | Some (SStr s) => negb (String.eqb s "")
  | Some _ => true
  end.

(** The columns that have a value, with their arguments. *)
Definition mutationValues (columns required : list string) (values : dict syntax)
  : option (list string * list syntax) :=
  if forallb (filled values) required then
    let selected := omap (fun c => (fun v => (c, v)) <$> dget c values) columns in
    match selected with
    | [] => None
    | _ => Some (map fst selected, map snd selected)
    end
  else None.

Section Mutations.
Context `{S : MySQL} `{C : Schema} (now : time).
Notation R := (M tables).

Definition insert_text (name : string) (columns : list string) : string :=
  "INSERT INTO " +:+ name +:+ " (" +:+ join ", " columns +:+ ") VALUES ("
  +:+ join ", " (map (fun _ => "?") columns) +:+ ")".

Definition update_text (name : string) (columns : list string) : string :=
  "UPDATE " +:+ name +:+ " SET " +:+ join ", " (map (fun c => c +:+ " = ?") columns)
  +:+ ", updated_at = CURRENT_TIMESTAMP WHERE id = ?".

Definition CreateCatalog (kind : string) (values : dict syntax) : R unit :=
  match catalogMutationColumns kind with
  | None => fail (OtherError "unsupported platform catalog kind")
  | Some definition =>
      match mutationValues (cd_columns definition) (cd_required definition)
              (normalizeCatalogValues kind values) with
      | None => fail (OtherError "missing required platform field")
      | Some (columns, args) =>
          let! _ := exec_refusable "insert platform catalog row" (fun d =>
            (fun d' => (d', 1)) <$> insert_values (cd_table definition) columns args d) in
          ret tt
      end
  end.

Definition UpdateCatalog (kind : string) (id : Z) (values : dict syntax) : R unit :=
  match catalogMutationColumns kind with
  | None => fail (OtherError "unsupported platform catalog update")
  | Some definition =>
      if id <=? 0 then fail (OtherError "unsupported platform catalog update")
      else match mutationValues (cd_columns definition) (cd_required definition)
                   (normalizeCatalogValues kind values) with
      | None => fail (OtherError "missing required platform field")
      | Some (columns, args) =>
          let! affected := exec_refusable "update platform catalog row"
            (update_values (cd_table definition) columns args id now) in
          guard (affected =? 1) (OtherError "platform catalog row not found")
      end
  end.

Definition DeleteManagedPlatform (id : Z) : R unit :=
  if id <=? 0 then fail (OtherError "managed platform identifier must be positive")
  else
    let! affected := exec_refusable "delete managed platform" (delete_id "platforms" id) in
    guard (affected =? 1) (OtherError "managed platform not found").
End Mutations.
