(* ===== verification/CatalogHandlers.v ===== *)
(** * The platform catalogue: the routes

    internal/platforms/handler.go: the query parameters, the lists, and the mutations that
    an administrator may make. *)

From stdpp Require Import pretty.
From S2P Require Import Prelude GoStrings GoTime Json JsonText Effects Http Contracts AccountTables Sessions Accounts Paging.
From S2P Require Import Bodies IdentityTables Identity Sql Catalog.

(** ** Query parameters *)

(** The runes of a text: [[]rune(value)], an invalid byte being U+FFFD. *)
Fixpoint rune_list (l : list ascii) : list (list ascii) :=
  match l with
  | [] => []
  | a :: l1 =>
      if code a <? 128 then [a] :: rune_list l1
      else
        match l1 with
        | b :: l2 =>
            if within 194 223 a && continuation b then [a; b] :: rune_list l2
            else
              match l2 with
              | c :: l3 =>
                  if three_bytes a b c then [a; b; c] :: rune_list l3
                  else
                    match l3 with
                    | d :: l4 =>
                        if four_bytes a b c d then [a; b; c; d] :: rune_list l4
                        else replacement :: rune_list l1
                    | [] => replacement :: rune_list l1
                    end
              | [] => replacement :: rune_list l1
              end
        | [] => replacement :: rune_list l1
        end
  end.

Definition parsePositivePathID (value : string) : option Z :=
  match parseInt value with Some z => if z <=? 0 then None else Some z | None => None end.

Definition boundedInt (value : string) (fallback minimum maximum : Z) : Z :=
  match parseInt value with
  | Some parsed => if parsed <? minimum then fallback else if maximum <? parsed then maximum else parsed
  | None => fallback
  end.

Definition boundedString (value : string) (maximum : nat) : string :=
  let value := trimSpace value in
  let runes := rune_list (chars value) in
  if (length runes <=? maximum)%nat then value else of_chars (concat (take maximum runes)).

Definition parseIDFilter (value : string) : list Z :=
  if String.eqb value "" then []
  else omap (fun part => match parseInt (trimSpace part) with
                         | Some parsed => if 0 <? parsed then Some parsed else None
                         | None => None
                         end) (split ","%char value).

Definition hasQuery (r : Request) (key : string) : bool :=
  match dget key (rq_query r) with Some _ => true | None => false end.

(** What the eight parsers share; they differ in the sort keys and their default. *)
Definition parseGridQuery (sorts : list string) (fallback : string) (scope : Z) (r : Request) : GridQuery :=
  let sort := queryValue r "sort" in
  let sort := if existsb (String.eqb sort) sorts then sort else fallback in
  let direction := toLower (queryValue r "direction") in
  let direction := if String.eqb direction "desc" then direction else "asc" in
  let hasPage := hasQuery r "page" in
  let hasPageSize := hasQuery r "pageSize" in
  {| gq_Scope := scope;
     gq_Page := if hasPage then boundedInt (queryValue r "page") 1 1 (Z.shiftl 1 31 - 1) else 0;
     gq_PageSize := if hasPageSize then boundedInt (queryValue r "pageSize") 1 1 100 else 0;
     gq_Paged := hasPage || hasPageSize;
     gq_Search := boundedString (queryValue r "search") 200;
     gq_Sort := sort; gq_Direction := direction;
     gq_FilterIDs := parseIDFilter (queryValue r "filter[id]") |}.

Definition parseLocationQuery : Request -> LocationQuery :=
  parseGridQuery ["name"; "created_at"; "updated_at"] "id" 0.
Definition parseBrandQuery : Request -> BrandQuery :=
  parseGridQuery ["brand"; "created_at"; "updated_at"] "id" 0.
Definition parseModelQuery (idBrand : Z) : Request -> ModelQuery :=
  parseGridQuery ["model"; "created_at"; "updated_at"] "model" idBrand.
Definition parseOperatingSystemQuery (typeID : Z) : Request -> OperatingSystemQuery :=
  parseGridQuery ["name"; "created_at"; "updated_at"] "id" typeID.
Definition parseOperatingSystemVersionQuery (idOs : Z) : Request -> OperatingSystemVersionQuery :=
  parseGridQuery ["id"; "version"; "created_at"; "updated_at"] "version" idOs.
Definition parseBrowserQuery (idOs : Z) : Request -> BrowserQuery :=
  parseGridQuery ["id"; "name"; "created_at"; "updated_at"] "name" idOs.
Definition parseBrowserVersionQuery (idBrowser : Z) : Request -> BrowserVersionQuery :=
  parseGridQuery ["id"; "version"; "created_at"; "updated_at"] "version" idBrowser.
Definition parseManagedPlatformQuery (typeID : Z) : Request -> ManagedPlatformQuery :=
  parseGridQuery ["hostname"; "brandDescription"; "osDescription"; "browserDescription"; "status";
                  "created_at"; "updated_at"] "osDescription" typeID.

(** ** Responses *)
Inductive catalog_data :=
| LocationData (l : list LocationItem)
| BrandData (l : list BrandItem)
| ModelData (l : list ModelItem)
| OSData (l : list OperatingSystemItem)
| OSVersionData (l : list OperatingSystemVersionItem)
| BrowserData (l : list BrowserItem)
| BrowserVersionData (l : list BrowserVersionItem)
| PlatformData (l : list ManagedPlatformItem).

Inductive catalog_payload :=
| CtError (e : APIError)
| CtItems (l : list CatalogItem)
| CtData (data : catalog_data)
| CtPage (data : catalog_data) (meta : PageMeta)
| CtTargets (l : list LaunchTargetItem)
| CtOK.

Notation ctreply := (reply_of catalog_payload).

Definition ct_error (status : Z) (code message : string) : ctreply :=
  written status (CtError {| ae_Code := code; ae_Message := message |}).

Definition catalogUnavailable : ctreply :=
  ct_error 500 "PLATFORM_CATALOG_UNAVAILABLE" "The platform catalog could not be loaded.".

(** ** The lists *)
Section Lists.
Context `{S : MySQL} (now : time).
Notation H := (M CatalogTables ctreply).

Definition list_reply {A} (data : list A -> catalog_data) (q : GridQuery) (m : M tables (GridPage A)) : H :=
  let! page := attempt (on_tables m) in
  ret (match page with
       | Err _ => catalogUnavailable
       | Ok page => if negb (gq_Paged q) then written 200 (CtData (data (pg_Data page)))
                    else match pg_Meta page with
                         | Some meta => written 200 (CtPage (data (pg_Data page)) meta)
                         | None => written 200 (CtData (data (pg_Data page)))
                         end
       end).

Definition items_reply (m : M tables (list CatalogItem)) : H :=
  let! items := attempt (on_tables m) in
  ret (match items with Err _ => catalogUnavailable | Ok items => written 200 (CtItems items) end).

Definition Types (r : Request) : H := items_reply ListTypes.
Definition Statuses (r : Request) : H := items_reply ListStatuses.

Definition Locations (r : Request) : H :=
  let query := parseLocationQuery r in list_reply LocationData query (ListLocations query).

Definition Brands (r : Request) : H :=
  let query := parseBrandQuery r in list_reply BrandData query (ListBrands query).

Definition with_scope (r : Request) (name code message : string) (k : Z -> H) : H :=
  match parsePositivePathID (pathValue r name) with
  | None => ret (ct_error 400 code message)
  | Some id => k id
  end.

Definition Models (r : Request) : H :=
  with_scope r "idBrand" "INVALID_PLATFORM_BRAND" "The platform brand identifier must be a positive integer."
    (fun idBrand => let query := parseModelQuery idBrand r in list_reply ModelData query (ListModels query)).

Definition OperatingSystems (r : Request) : H :=
  with_scope r "idType" "INVALID_PLATFORM_TYPE" "The platform type identifier must be a positive integer."
    (fun typeID => let query := parseOperatingSystemQuery typeID r in
                   list_reply OSData query (ListOperatingSystems query)).

Definition OperatingSystemVersions (r : Request) : H :=
  with_scope r "idOs" "INVALID_OPERATING_SYSTEM" "The operating-system identifier must be a positive integer."
    (fun idOs => let query := parseOperatingSystemVersionQuery idOs r in
                 list_reply OSVersionData query (ListOperatingSystemVersions query)).

Definition Browsers (r : Request) : H :=
  with_scope r "idOs" "INVALID_OPERATING_SYSTEM" "The operating-system identifier must be a positive integer."
    (fun idOs => let query := parseBrowserQuery idOs r in list_reply BrowserData query (ListBrowsers query)).

Definition BrowserVersions (r : Request) : H :=
  with_scope r "idBrowser" "INVALID_BROWSER" "The browser identifier must be a positive integer."
    (fun idBrowser => let query := parseBrowserVersionQuery idBrowser r in
                      list_reply BrowserVersionData query (ListBrowserVersions query)).

Definition ManagedPlatforms (r : Request) : H :=
  with_scope r "type" "INVALID_PLATFORM_TYPE" "The platform type identifier must be a positive integer."
    (fun typeID => let query := parseManagedPlatformQuery typeID r in
                   list_reply PlatformData query (ListManagedPlatforms query)).

Definition LaunchTargets (r : Request) : H :=
  match parsePositivePathID (pathValue r "idProject") with
  | None => ret (ct_error 400 "INVALID_PROJECT" "The project identifier must be a positive integer.")
  | Some projectID =>
      let! targets := attempt (on_tables (ListLaunchTargets now projectID)) in
      ret (match targets with
           | Err _ => ct_error 500 "LAUNCH_TARGETS_UNAVAILABLE" "The launcher targets could not be loaded."
           | Ok targets => written 200 (CtTargets targets)
           end)
  end.
End Lists.

(** ** Mutations *)

(** [json.NewDecoder(io.LimitReader(body, limit)).Decode], with UseNumber, of a
    [map[string]any]: an object, or null for the nil map. *)
Definition decode_values (limit : Z) (text : string) : option (dict syntax) :=
  let l := skip_ws (take (Z.to_nat limit) (chars text)) in
  match value (text_fuel l) 0 l with
  | Some (SObj d, _) => Some (dict_of_list d)
  | Some (SNull, _) => Some []
  | _ => None
  end.

Section Mutations.
Context `{S : MySQL} `{C : Schema} (now : time).
(** Whether the handler has sessions, and whether its repository takes mutations. *)
Context (sessions mutable : bool).
Notation H := (M CatalogTables ctreply).

Definition mutationUnavailable : ctreply :=
  ct_error 503 "PLATFORM_CATALOG_UNAVAILABLE" "The platform catalog is not available.".

Definition mutationRejected : ctreply :=
  ct_error 422 "PLATFORM_CATALOG_MUTATION_FAILED" "The platform catalog mutation was rejected.".

Definition with_administrator (r : Request) (k : H) : H :=
  if negb sessions then ret mutationUnavailable
  else
    let! user := zoom ca_accounts with_ca_accounts (AuthenticateRequest now r) in
    match user with
    | None => ret (ct_error 401 "UNAUTHENTICATED" "An active browser session is required.")
    | Some user =>
        if negb (u_Role user =? 1) then ret (ct_error 403 "FORBIDDEN" "Administrator access is required.")
        else if negb mutable then ret mutationUnavailable
        else k
    end.

Definition mutation_reply (m : M tables unit) : H :=
  let! done := attempt (on_tables m) in
  ret (match done with Err _ => mutationRejected | Ok _ => written 200 CtOK end).

(** The identifier of a PUT: an integer of the body. *)
Definition body_id (values : dict syntax) : ctreply + Z :=
  let invalid := ct_error 422 "INVALID_PLATFORM_ID" "The platform identifier must be a positive integer." in
  match dget "id" values with
  | None => inl (ct_error 422 "INVALID_PLATFORM_ID" "The platform identifier is required for updates.")
  | Some (SNum number) =>
      match parseInt number with
      | Some parsed => if parsed <=? 0 then inl invalid else inr parsed
      | None => inl invalid
      end
  | Some _ => inl invalid
  end.

Definition mutate (kind : string) (r : IdRequest) : H :=
  with_administrator (ir_request r) (
    match decode_values (Z.shiftl 64 10) (ir_text r) with
    | None => ret (ct_error 422 "INVALID_PLATFORM_PAYLOAD" "The platform catalog payload is invalid.")
    | Some values =>
        if String.eqb (ir_method r) "PUT" then
          match body_id values with
          | inl response => ret response
          | inr id => mutation_reply (UpdateCatalog now kind id values)
          end
        else mutation_reply (CreateCatalog kind values)
    end).

Definition HandleDeleteManagedPlatform (r : IdRequest) : H :=
  with_administrator (ir_request r) (
    match parsePositivePathID (pathValue (ir_request r) "id") with
    | None => ret (ct_error 400 "INVALID_PLATFORM_ID" "The platform identifier must be a positive integer.")
    | Some id => mutation_reply (DeleteManagedPlatform id)
    end).

Definition CreateBrand : IdRequest -> H := mutate "brand".
Definition UpdateBrand : IdRequest -> H := mutate "brand".
Definition CreateBrowser : IdRequest -> H := mutate "browser".
Definition UpdateBrowser : IdRequest -> H := mutate "browser".
Definition CreateBrowserVersion : IdRequest -> H := mutate "browser-version".
Definition UpdateBrowserVersion : IdRequest -> H := mutate "browser-version".
Definition CreateLocation : IdRequest -> H := mutate "location".
Definition UpdateLocation : IdRequest -> H := mutate "location".
Definition CreateManagedPlatform : IdRequest -> H := mutate "managed-platform".
Definition UpdateManagedPlatform : IdRequest -> H := mutate "managed-platform".
Definition CreateModel : IdRequest -> H := mutate "model".
Definition UpdateModel : IdRequest -> H := mutate "model".
Definition CreateOperatingSystem : IdRequest -> H := mutate "os".
Definition UpdateOperatingSystem : IdRequest -> H := mutate "os".
Definition CreateOperatingSystemVersion : IdRequest -> H := mutate "os-version".
Definition UpdateOperatingSystemVersion : IdRequest -> H := mutate "os-version".

(** ** The routes *)
Inductive catalog_route :=
| TypesRoute | StatusRoute | LocationsRoute | BrandsRoute | ModelsRoute | OSRoute | OSVersionRoute
| BrowsersRoute | BrowserVersionsRoute | ManagePlatformsRoute | TargetsRoute
| BrandMutation | BrowserMutation | BrowserVersionMutation | LocationMutation | PlatformMutation
| PlatformDeletion | ModelMutation | OSMutation | OSVersionMutation.

(** A mutation route takes POST and PUT. *)
Definition by_method (r : IdRequest) (post put : IdRequest -> H) : H :=
  if String.eqb (ir_method r) "PUT" then put r else post r.

Definition serve_catalog (rt : catalog_route) (r : IdRequest) : H :=
  match rt with
  | TypesRoute => Types (ir_request r)
  | StatusRoute => Statuses (ir_request r)
  | LocationsRoute => Locations (ir_request r)
  | BrandsRoute => Brands (ir_request r)
  | ModelsRoute => Models (ir_request r)
  | OSRoute => OperatingSystems (ir_request r)
  | OSVersionRoute => OperatingSystemVersions (ir_request r)
  | BrowsersRoute => Browsers (ir_request r)
  | BrowserVersionsRoute => BrowserVersions (ir_request r)
  | ManagePlatformsRoute => ManagedPlatforms (ir_request r)
  | TargetsRoute => LaunchTargets now (ir_request r)
  | BrandMutation => by_method r CreateBrand UpdateBrand
  | BrowserMutation => by_method r CreateBrowser UpdateBrowser
  | BrowserVersionMutation => by_method r CreateBrowserVersion UpdateBrowserVersion
  | LocationMutation => by_method r CreateLocation UpdateLocation
  | PlatformMutation => by_method r CreateManagedPlatform UpdateManagedPlatform
  | PlatformDeletion => HandleDeleteManagedPlatform r
  | ModelMutation => by_method r CreateModel UpdateModel
  | OSMutation => by_method r CreateOperatingSystem UpdateOperatingSystem
  | OSVersionMutation => by_method r CreateOperatingSystemVersion UpdateOperatingSystemVersion
  end.
End Mutations.
