(* ===== verification/CatalogTheorems.v ===== *)
(** * Theorems about the platform catalogue

    Statements carry user input in their arguments only; pages are the unpaged list;
    query parameters are bounded; only administrators change the catalogue, one row at a
    time; and what the model shows: a repeated update is refused, the launcher's targets
    do not depend on the project. *)

From stdpp Require Import pretty sorting.
From S2P Require Import Prelude GoStrings GoTime Json JsonText Effects Http Contracts AccountTables Sessions Accounts Paging.
From S2P Require Import RunTheorems CliTheorems SessionTheorems AccountTheorems Bodies IdentityTables Identity.
From S2P Require Import Sql Catalog CatalogHandlers.

(** ** Statements *)

(** The statements of the eight lists. *)
Definition list_selects (q : GridQuery) : list select :=
  [grid_select locations q; grid_select brands q; grid_select models q; grid_select operatingSystems q;
   grid_select operatingSystemVersions q; grid_select browsers q; grid_select browserVersions q;
   grid_select managedPlatforms q].

(** Two queries that differ in the values they look for only. *)
Record same_query (q q' : GridQuery) : Prop := {
  sq_search : String.eqb (gq_Search q) "" = String.eqb (gq_Search q') "";
  sq_ids : length (gq_FilterIDs q) = length (gq_FilterIDs q');
  sq_paged : gq_Paged q = gq_Paged q';
  sq_sort : gq_Sort q = gq_Sort q';
  sq_direction : gq_Direction q = gq_Direction q';
}.

#[local] Ltac shapes :=
  repeat first
    [ apply Forall2_nil_2
    | apply Forall2_cons_2; [cbn; first [reflexivity|split; [reflexivity|assumption]]|] ].

Lemma grid_where_shape q q' c :
  same_query q q' ->
  Forall2 same_shape (gridWhereClause (gq_Search q) c (gq_FilterIDs q))
                     (gridWhereClause (gq_Search q') c (gq_FilterIDs q')).
Proof.
  intros [E L _ _ _]. unfold gridWhereClause. rewrite E. apply Forall2_app.
  - destruct (String.eqb (gq_Search q') ""); shapes.
  - destruct (gq_FilterIDs q), (gq_FilterIDs q'); try discriminate L; shapes.
Qed.

Lemma scoped_shape q q' c s : same_query q q' -> Forall2 same_shape (scoped c s q) (scoped c s q').
Proof. intros H. apply Forall2_app; [by apply grid_where_shape|]. shapes. Qed.

Lemma managed_shape q q' :
  same_query q q' -> Forall2 same_shape (managedPlatformWhereClause q) (managedPlatformWhereClause q').
Proof.
  intros [E L _ _ _]. unfold managedPlatformWhereClause. rewrite E. apply Forall2_app; [shapes|].
  apply Forall2_app; [destruct (String.eqb (gq_Search q') ""); shapes|].
  destruct (gq_FilterIDs q), (gq_FilterIDs q'); try discriminate L; shapes.
Qed.

Lemma grid_text {A} (g : grid A) q q' :
  same_query q q' -> Forall2 same_shape (gr_where g q) (gr_where g q') ->
  select_text (grid_select g q) = select_text (grid_select g q')
  /\ count_text (grid_select g q) = count_text (grid_select g q').
Proof.
  intros [_ _ Ep Es Ed] H. unfold select_text, count_text, grid_select, grid_sort, grid_direction.
  cbn [sl_columns sl_table sl_where sl_order sl_page].
  rewrite (same_shape_where _ _ H), Ep, Es, Ed. by destruct (gq_Paged q').
Qed.

Lemma grid_sort_allowed {A} (g : grid A) q : In (gr_default g) (gr_sorts g) -> In (grid_sort g q) (gr_sorts g).
Proof.
  intros H. unfold grid_sort. destruct (existsb _ _) eqn:E; [|exact H].
  apply existsb_exists in E as (c & Hc & E). apply String.eqb_eq in E. by rewrite E.
Qed.

Lemma grid_plain {A} (g : grid A) q :
  Forall plain (gr_columns g) -> plain (gr_table g) -> Forall plain (gr_sorts g) ->
  In (gr_default g) (gr_sorts g) -> Forall plain_condition (gr_where g q) ->
  Forall (fun o => plain (fst o) /\ plain (snd o)) (gr_tail g) ->
  plain_select (grid_select g q).
Proof.
  intros Hc Ht Hs Hd Hw Ho. split; cbn [sl_columns sl_table sl_where sl_order grid_select]; try assumption.
  constructor; [|exact Ho]. cbn [fst snd]. split.
  - rewrite Forall_forall in Hs. apply Hs, list_elem_of_In. by apply grid_sort_allowed.
  - unfold grid_direction. destruct (String.eqb_spec (gq_Direction q) "desc") as [->|]; reflexivity.
Qed.

Lemma plain_grid_where search c ids : plain c -> Forall plain_condition (gridWhereClause search c ids).
Proof.
  intros H. unfold gridWhereClause. apply Forall_app. split.
  - destruct (String.eqb _ _); repeat constructor. exact H.
  - destruct ids; repeat constructor.
Qed.

Lemma plain_scoped c s q : plain c -> plain s -> Forall plain_condition (scoped c s q).
Proof. intros Hc Hs. apply Forall_app. split; [by apply plain_grid_where|]. by repeat constructor. Qed.

Lemma plain_managed q : Forall plain_condition (managedPlatformWhereClause q).
Proof.
  unfold managedPlatformWhereClause. repeat apply Forall_app_2; try by repeat constructor.
  - destruct (String.eqb _ _); by repeat constructor.
  - destruct (gq_FilterIDs q); by repeat constructor.
Qed.

Lemma list_selects_plain q : Forall plain_select (list_selects q).
Proof.
  unfold list_selects. repeat apply Forall_cons_2; try apply Forall_nil_2; apply grid_plain; cbn [gr_columns gr_table gr_sorts gr_default gr_where gr_tail
    locations brands models operatingSystems operatingSystemVersions browsers browserVersions managedPlatforms].
  all: try (by repeat constructor); try (cbn; tauto); try reflexivity.
  all: first [by apply plain_grid_where|by apply plain_scoped|apply plain_managed].
Qed.

Lemma mutation_selected columns required values selected args :
  mutationValues columns required values = Some (selected, args) ->
  incl selected columns /\ length selected = length args.
Proof.
  unfold mutationValues. destruct (forallb _ _); [|done]. intros H.
  set (l := omap (fun c => (fun v => (c, v)) <$> dget c values) columns) in *.
  assert (E : selected = map fst l /\ args = map snd l) by (destruct l; [done|by injection H as <- <-]).
  destruct E as [-> ->]. split; [|by rewrite !length_map]. intros c Hc.
  apply in_map_iff in Hc as ([c' v] & <- & Hc). subst l. apply list_elem_of_In, list_elem_of_omap in Hc as (c & Hc & E).
  destruct (dget c values); [|done]. injection E as <- <-. by apply list_elem_of_In.
Qed.

Lemma mutation_placeholders name columns :
  plain name -> Forall plain columns ->
  count_char "?" (insert_text name columns) = length columns
  /\ count_char "?" (update_text name columns) = S (length columns).
Proof.
  intros Hn Hc. unfold insert_text, update_text. rewrite !count_char_app, !count_char_join, Hn by done.
  rewrite (sum_map_const _ 0) by exact Hc. rewrite !map_map, (sum_map_const _ 1 columns), (sum_map_const _ 1 columns).
  - change (count_char "?" "INSERT INTO ") with 0%nat. change (count_char "?" " (") with 0%nat.
    change (count_char "?" ") VALUES (") with 0%nat. change (count_char "?" ")") with 0%nat.
    change (count_char "?" "UPDATE ") with 0%nat. change (count_char "?" " SET ") with 0%nat.
    change (count_char "?" ", updated_at = CURRENT_TIMESTAMP WHERE id = ?") with 1%nat. lia.
  - eapply Forall_impl; [exact Hc|]. intros c H. by rewrite count_char_app, H.
  - by apply Forall_true.
Qed.

Lemma definition_plain kind definition :
  catalogMutationColumns kind = Some definition ->
  plain (cd_table definition) /\ Forall plain (cd_columns definition).
Proof.
  unfold catalogMutationColumns. intros H.
  repeat (destruct (String.eqb kind _); [injection H as <-; cbn; by repeat constructor|]). done.
Qed.

(** no user input is part of a statement's text.  The statements of the eight
    lists interpolate a column of the allow-list and a direction of two, have exactly as
    many placeholders as arguments, and keep their text when the values that are
    searched, filtered or scoped change; the columns of an INSERT or an UPDATE are
    columns of the kind's allow-list whatever members the body has, with one
    placeholder each (and one for the identifier). *)
Theorem catalog_statements_bound (q : GridQuery) :
  Forall (fun s =>
    count_char "?" (select_text s) = length (select_args s)
    /\ count_char "?" (count_text s) = length (where_args (sl_where s))
    /\ match sl_order s with
       | (c, direction) :: _ => In c (sl_columns s) /\ In direction ["asc"; "desc"]
       | [] => False
       end) (list_selects q)
  /\ (forall q', same_query q q' ->
        map select_text (list_selects q) = map select_text (list_selects q')
        /\ map count_text (list_selects q) = map count_text (list_selects q'))
  /\ (forall kind definition values columns args,
        catalogMutationColumns kind = Some definition ->
        mutationValues (cd_columns definition) (cd_required definition) values = Some (columns, args) ->
        incl columns (cd_columns definition)
        /\ count_char "?" (insert_text (cd_table definition) columns) = length args
        /\ count_char "?" (update_text (cd_table definition) columns) = S (length args)).
Proof.
  split_and!.
  - assert (D : In (grid_direction q) ["asc"; "desc"]).
    { unfold grid_direction. destruct (String.eqb_spec (gq_Direction q) "desc") as [->|]; cbn; tauto. }
    assert (C : Forall (fun s => match sl_order s with
       | (c, direction) :: _ => In c (sl_columns s) /\ In direction ["asc"; "desc"] | [] => False end) (list_selects q)).
    { unfold list_selects. repeat apply Forall_cons_2; try apply Forall_nil_2; (split; [|exact D]).
      all: lazymatch goal with |- In (grid_sort ?g ?x) _ => pose proof (grid_sort_allowed g x) as H end.
      all: cbn in H |- *; tauto. }
    pose proof (list_selects_plain q) as P. apply Forall_and. split; [|apply Forall_and; split; [|exact C]].
    all: eapply Forall_impl; [exact P|]; intros s Hs; by apply select_placeholders.
  - intros q' H. unfold list_selects. cbn [map].
    assert (T : forall A (g : grid A), Forall2 same_shape (gr_where g q) (gr_where g q') ->
      select_text (grid_select g q) = select_text (grid_select g q')
      /\ count_text (grid_select g q) = count_text (grid_select g q')) by (intros; by apply grid_text).
    split; repeat (apply (f_equal2 cons); [apply T|]); try reflexivity; cbn [gr_where].
    all: first [by apply grid_where_shape|by apply scoped_shape|by apply managed_shape].
  - intros kind definition values columns args Hk Hm. apply mutation_selected in Hm as [I L].
    apply definition_plain in Hk as [Pt Pc]. rewrite <- L.
    assert (P : Forall plain columns).
    { apply Forall_forall. intros c Hc. rewrite Forall_forall in Pc. apply Pc, list_elem_of_In, I.
      by apply list_elem_of_In. }
    destruct (mutation_placeholders _ _ Pt P) as [E1 E2]. by split_and!.
Qed.

(** ** Pages *)
Lemma scan_rows_app {A} (scan : row -> option A) l1 l2 :
  scan_rows scan (l1 ++ l2) =
  match scan_rows scan l1, scan_rows scan l2 with Some a, Some b => Some (a ++ b)%list | _, _ => None end.
Proof.
  induction l1 as [|r l1 IH]; cbn; [by destruct (scan_rows scan l2)|].
  destruct (scan r); cbn; [|done]. rewrite IH. destruct (scan_rows scan l1), (scan_rows scan l2); done.
Qed.

Lemma scan_rows_length {A} (scan : row -> option A) l xs : scan_rows scan l = Some xs -> length xs = length l.
Proof.
  revert xs. induction l as [|r l IH]; cbn; intros xs H; [by injection H as <-|].
  destruct (scan r); cbn in H; [|done]. destruct (scan_rows scan l); cbn in H; [|done].
  injection H as <-. cbn. by rewrite (IH _ eq_refl).
Qed.

(** Scanning a part of the rows gives that part of the items. *)
Lemma scan_rows_slice {A} (scan : row -> option A) l xs n k :
  scan_rows scan l = Some xs -> scan_rows scan (take n (drop k l)) = Some (take n (drop k xs)).
Proof.
  intros H.
  assert (T : forall m l xs, scan_rows scan l = Some xs ->
    scan_rows scan (take m l) = Some (take m xs) /\ scan_rows scan (drop m l) = Some (drop m xs)).
  { clear. intros m l xs H. rewrite <- (take_drop m l), scan_rows_app in H.
    destruct (scan_rows scan (take m l)) as [a|] eqn:Ea; [|done].
    destruct (scan_rows scan (drop m l)) as [b|] eqn:Eb; [|done]. injection H as <-.
    apply scan_rows_length in Ea as La. apply scan_rows_length in Eb as Lb.
    rewrite length_take in La. rewrite length_drop in Lb.
    destruct (decide (m <= length l)%nat).
    - rewrite take_app_length', drop_app_length' by lia. done.
    - assert (b = []) as -> by (apply length_zero_iff_nil; lia). rewrite app_nil_r, take_ge, drop_ge by lia. done. }
  apply T. by apply T.
Qed.

Section Pages.
Context `{S : MySQL}.

(** The query of the page [k] of a query, with pages of [size] rows. *)
Definition page_query (q : GridQuery) (k size : Z) : GridQuery :=
  {| gq_Scope := gq_Scope q; gq_Page := k; gq_PageSize := size; gq_Paged := true;
     gq_Search := gq_Search q; gq_Sort := gq_Sort q; gq_Direction := gq_Direction q;
     gq_FilterIDs := gq_FilterIDs q |}.

(** What a list answers, in a world whose calls succeed. *)
Lemma list_grid_ok {A} (g : grid A) q d t rs :
  d !! gr_table g = Some t ->
  list_grid g q (World d [] rs) =
  match (match (if gq_Paged q then page_of (grid_page q) (grid_page_size q) (selected (grid_select g q) t)
                else Some (selected (grid_select g q) t)) with
         | Some rows => inl rows
         | None => inr (DatabaseFailure (safeDatabaseFailure "query platform catalog" (MySQLError 1064 "syntax error")))
         end) with
  | inl rows =>
      match scan_rows (gr_scan g) rows with
      | Some items =>
          (Ok (Page items (if gq_Paged q
             then Some (pageMeta (grid_page q) (grid_page_size q)
                          (Z.of_nat (length (List.filter (matches (gr_where g q)) (tb_rows t))))
                          (grid_sort g q) (grid_direction q)) else None)), World d [] rs)
      | None => (Err (OtherError "scan platform catalog row"), World d [] rs)
      end
  | inr e => (Err e, World d [] rs)
  end.
Proof.
  intros H. unfold list_grid, query_page. cbv zeta.
  unfold count_rows, select_rows. cbn [sl_table sl_where sl_page grid_select].
  unfold bind at 1. unfold bind at 1. rewrite eval_query, H. cbn [mbind option_bind].
  unfold ret at 1. unfold bind at 1. unfold bind at 1. rewrite eval_query, H. cbn [mbind option_bind].
  destruct (gq_Paged q).
  - destruct (page_of _ _ _); [|reflexivity]. unfold ret at 1. destruct (scan_rows _ _); reflexivity.
  - unfold ret at 1. destruct (scan_rows _ _); reflexivity.
Qed.

Lemma selected_length {A} (g : grid A) q t :
  length (selected (grid_select g q) t) = length (List.filter (matches (gr_where g q)) (tb_rows t)).
Proof.
  unfold selected, order_by. cbn [sl_where sl_order grid_select].
  apply Permutation_length. apply merge_sort_Permutation.
Qed.

(** reading page by page is reading the whole list.  Whatever the list, its
    filters and its order, when the unpaged list answers and the table does not change
    in between, every page from 1 to the last one of the metadata answers; the pages,
    one after the other, are the unpaged list; every page but the last one has the
    requested number of rows and announces a next one, and the last one does not; and
    the total of the metadata is the length of the list. *)
Theorem catalog_pages_agree {A} (g : grid A) (q : GridQuery) (d : tables) (rs : list (option string))
  (items : list A) (size : Z) :
  (forall k, gr_where g (page_query q k size) = gr_where g q) ->
  gq_Paged q = false -> 1 <= size -> Z.of_nat (length items) + size <= int64_max ->
  fst (list_grid g q (World d [] rs)) = Ok (Page items None) ->
  exists (pages : nat -> list A) (last : nat),
    (forall k, (1 <= k <= last)%nat ->
       list_grid g (page_query q (Z.of_nat k) size) (World d [] rs)
       = (Ok (Page (pages k) (Some {|
            pm_Page := Z.of_nat k; pm_PageSize := size; pm_Total := Z.of_nat (length items);
            pm_LastPage := Z.of_nat last; pm_HasNextPage := (k <? last)%nat; pm_HasPreviousPage := (1 <? k)%nat;
            pm_Sort := grid_sort g q; pm_Direction := grid_direction q |})), World d [] rs))
    /\ concat (map pages (seq 1 last)) = items
    /\ (forall k, (1 <= k < last)%nat -> length (pages k) = Z.to_nat size)
    /\ (1 <= last)%nat.
Proof.
  intros Hw Hp Hs Hb H.
  destruct (d !! gr_table g) as [t|] eqn:Ht.
  2:{ exfalso. revert H. unfold list_grid, query_page, count_rows. cbv zeta. cbn [sl_table grid_select].
      unfold bind at 1. unfold bind at 1. rewrite eval_query, Ht. discriminate. }
  rewrite (list_grid_ok g q d t rs Ht), Hp in H.
  destruct (scan_rows (gr_scan g) (selected (grid_select g q) t)) as [xs|] eqn:Es; [|discriminate H].
  injection H as ->. pose proof (scan_rows_length _ _ _ Es) as Le.
  pose proof (last_page_spec (Z.of_nat (length items)) size ltac:(lia) Hs Hb) as El.
  exists (fun k => default [] (page_of (Z.of_nat k) size items)), (Z.to_nat (last_page (Z.of_nat (length items)) size)).
  destruct (pages_partition size items "" "" Hs Hb) as (P1 & P2 & _). split_and!; [|exact P1| |].
  - intros k Hk.
    assert (Hq : size * ((Z.of_nat (length items) + size - 1) / size) <= Z.of_nat (length items) + size - 1)
      by (apply Z.mul_div_le; lia).
    assert (Hk' : 1 <= Z.of_nat k <= last_page (Z.of_nat (length items)) size) by lia.
    assert (Hb' : (Z.of_nat k - 1) * size <= int64_max) by nia.
    rewrite (list_grid_ok g _ d t rs Ht).
    change (gq_Paged (page_query q (Z.of_nat k) size)) with true. cbv iota.
    assert (G1 : grid_page (page_query q (Z.of_nat k) size) = Z.of_nat k).
    { unfold grid_page. cbn [gq_Page page_query]. destruct (Z.eqb_spec (Z.of_nat k) 0); [lia|done]. }
    assert (G2 : grid_page_size (page_query q (Z.of_nat k) size) = size).
    { unfold grid_page_size. cbn [gq_PageSize page_query]. destruct (Z.eqb_spec size 0); [lia|done]. }
    assert (G3 : selected (grid_select g (page_query q (Z.of_nat k) size)) t = selected (grid_select g q) t).
    { unfold selected. cbn [sl_where sl_order grid_select]. by rewrite Hw. }
    rewrite G1, G2, G3, Hw, !page_of_slice by lia.
    rewrite (scan_rows_slice _ _ _ _ _ Es), <- selected_length, <- Le. unfold pageMeta.
    rewrite Z2Nat.id by lia. do 4 f_equal. f_equal; [destruct (Z.ltb_spec (Z.of_nat k) (last_page (Z.of_nat (length items)) size)),
      (Nat.ltb_spec k (Z.to_nat (last_page (Z.of_nat (length items)) size))); lia || reflexivity|].
    destruct (Z.ltb_spec 1 (Z.of_nat k)), (Nat.ltb_spec 1 k); lia || reflexivity.
  - intros k Hk. apply P2. exact Hk.
  - lia.
Qed.
End Pages.

(** Three brands in pages of two, the last first. *)
Definition three_brands : tables :=
  {["brand_devices" :=
     {| tb_rows := map (fun ib => {| rw_id := fst ib; rw_cells := {["brand" := CText (snd ib)]} |})
                     [(1, "Acme"); (4, "Zeta"); (5, "Beta")];
        tb_next := 6 |}]}.

Definition newest_first : GridQuery :=
  {| gq_Scope := 0; gq_Page := 0; gq_PageSize := 0; gq_Paged := false; gq_Search := ""; gq_Sort := "id";
     gq_Direction := "desc"; gq_FilterIDs := [] |}.

Definition brand_items : list BrandItem :=
  map (fun ib => {| br_ID := fst ib; br_Brand := snd ib; br_CreatedAt := None; br_UpdatedAt := None |})
    [(5, "Beta"); (4, "Zeta"); (1, "Acme")].

Lemma catalog_pages_agree_witness :
  fst (list_grid brands newest_first (World three_brands [] [])) = Ok (Page brand_items None)
  /\ exists pages : nat -> list BrandItem,
       fst (list_grid brands (page_query newest_first 1 2) (World three_brands [] []))
       = Ok (Page (pages 1%nat) (Some {| pm_Page := 1; pm_PageSize := 2; pm_Total := 3; pm_LastPage := 2;
               pm_HasNextPage := true; pm_HasPreviousPage := false; pm_Sort := "id"; pm_Direction := "desc" |}))
       /\ length (pages 1%nat) = 2%nat /\ concat (map pages [1; 2]%nat) = brand_items.
Proof.
  assert (E : fst (list_grid brands newest_first (World three_brands [] [])) = Ok (Page brand_items None))
    by (vm_compute; reflexivity).
  split; [exact E|].
  destruct (catalog_pages_agree brands newest_first three_brands [] brand_items 2
              ltac:(reflexivity) eq_refl ltac:(lia) ltac:(by vm_compute) E) as (pages & last & H1 & H2 & H3 & H4).
  assert (X : last = 2%nat).
  { specialize (H1 1%nat (conj (le_n 1) H4)).
    assert (C : pm_LastPage <$> match fst (list_grid brands (page_query newest_first 1 2) (World three_brands [] [])) with
                | Ok page => pg_Meta page | Err _ => None end = Some 2) by (vm_compute; reflexivity).
    change (Z.of_nat 1) with 1 in H1. rewrite H1 in C. cbn in C. injection C as C. lia. }
  subst last. exists pages. split_and!; [|exact (H3 1%nat ltac:(lia))|exact H2].
  exact (f_equal fst (H1 1%nat ltac:(lia))).
Defined.

(** ** Bounds *)
(** ** Runes *)

(** Bytes that decode as one rune whatever follows. *)
Definition is_rune (x : list ascii) : Prop := forall rest, rune_list (x ++ rest) = x :: rune_list rest.

Lemma is_rune_replacement : is_rune replacement.
Proof. intros rest. reflexivity. Qed.

Lemma is_rune_ascii a : code a <? 128 = true -> is_rune [a].
Proof. intros H rest. cbn [rune_list app]. by rewrite H. Qed.

(** A leading byte is not ASCII. *)
Lemma leading_not_ascii a lo hi : 128 <= lo -> within lo hi a = true -> code a <? 128 = false.
Proof. unfold within. intros H [E _]%andb_true_iff. apply Z.leb_le in E. apply Z.ltb_ge. lia. Qed.

Lemma is_rune_two a b : within 194 223 a && continuation b = true -> is_rune [a; b].
Proof.
  intros H rest. pose proof H as [Ha _]%andb_true_iff. cbn [rune_list app].
  by rewrite (leading_not_ascii a 194 223), H by (done || lia).
Qed.

(** The first byte of a rune of three or four bytes is above those of two. *)
Lemma three_leading a b c : three_bytes a b c = true -> 224 <= code a <= 239.
Proof.
  unfold three_bytes, within. intros [_ H]%andb_true_iff.
  repeat rewrite ?orb_true_iff, ?andb_true_iff, ?Z.leb_le, ?Z.eqb_eq in H. lia.
Qed.

Lemma four_leading a b c d : four_bytes a b c d = true -> 240 <= code a <= 244.
Proof.
  unfold four_bytes, within. intros [_ H]%andb_true_iff.
  repeat rewrite ?orb_true_iff, ?andb_true_iff, ?Z.leb_le, ?Z.eqb_eq in H. lia.
Qed.

Lemma long_leading a : 224 <= code a -> code a <? 128 = false /\ within 194 223 a = false.
Proof.
  intros H. split; [apply Z.ltb_ge; lia|]. unfold within. apply andb_false_iff. right. apply Z.leb_gt. lia.
Qed.

Lemma is_rune_three a b c : three_bytes a b c = true -> is_rune [a; b; c].
Proof.
  intros H rest. destruct (long_leading a) as [E1 E2]; [pose proof (three_leading a b c H); lia|].
  cbn [rune_list app]. by rewrite E1, E2, H.
Qed.

Lemma is_rune_four a b c d : four_bytes a b c d = true -> is_rune [a; b; c; d].
Proof.
  intros H rest. pose proof (four_leading a b c d H) as L. destruct (long_leading a) as [E1 E2]; [lia|].
  assert (E3 : three_bytes a b c = false).
  { destruct (three_bytes a b c) eqn:E; [|done]. pose proof (three_leading a b c E). lia. }
  cbn [rune_list app]. by rewrite E1, E2, E3, H.
Qed.

Lemma rune_list_runes l : Forall is_rune (rune_list l).
Proof.
  induction l as [l IH] using (induction_ltof1 _ (@length ascii)). unfold ltof in IH.
  pose proof is_rune_replacement as R.
  destruct l as [|a l1]; [constructor|]. cbn [rune_list].
  destruct (code a <? 128) eqn:Ea; [constructor; [by apply is_rune_ascii|apply IH; cbn; lia]|].
  assert (I1 : Forall is_rune (rune_list l1)) by (apply IH; cbn; lia).
  destruct l1 as [|b l2]; [by constructor|].
  destruct (_ && _) eqn:Eb; [constructor; [by apply is_rune_two|apply IH; cbn; lia]|].
  destruct l2 as [|c l3]; [by constructor|].
  destruct (three_bytes a b c) eqn:Ec; [constructor; [by apply is_rune_three|apply IH; cbn; lia]|].
  destruct l3 as [|d l4]; [by constructor|].
  destruct (four_bytes a b c d) eqn:Ed; [constructor; [by apply is_rune_four|apply IH; cbn; lia]|by constructor].
Qed.

Lemma rune_list_concat l : Forall is_rune l -> rune_list (concat l) = l.
Proof. induction 1 as [|x l Hx _ IH]; [done|]. cbn [concat]. by rewrite Hx, IH. Qed.

(** The number of runes of a text. *)
Definition text_runes (s : string) : nat := length (rune_list (chars s)).

Lemma boundedString_runes value n : (text_runes (boundedString value n) <= n)%nat.
Proof.
  unfold boundedString, text_runes. cbv zeta. destruct (Nat.leb_spec (length (rune_list (chars (trimSpace value)))) n); [done|].
  rewrite chars_of_chars, rune_list_concat by (apply Forall_take, rune_list_runes). rewrite length_take. lia.
Qed.

(** The kept text is the first runes of the trimmed value. *)
Lemma boundedString_prefix value n :
  rune_list (chars (boundedString value n)) = take n (rune_list (chars (trimSpace value))).
Proof.
  unfold boundedString. cbv zeta. destruct (Nat.leb_spec (length (rune_list (chars (trimSpace value)))) n).
  - by rewrite take_ge.
  - by rewrite chars_of_chars, rune_list_concat by (apply Forall_take, rune_list_runes).
Qed.

(** ** Parameters *)
Lemma boundedInt_range value fallback lo hi :
  lo <= fallback <= hi -> lo <= boundedInt value fallback lo hi <= hi.
Proof.
  intros H. unfold boundedInt. destruct (parseInt value) as [z|]; [|done].
  destruct (Z.ltb_spec z lo); [lia|]. destruct (Z.ltb_spec hi z); lia.
Qed.

Lemma parseIDFilter_range value : Forall (fun id => 0 < id <= int64_max) (parseIDFilter value).
Proof.
  unfold parseIDFilter. destruct (String.eqb value ""); [constructor|].
  apply Forall_forall. intros id Hid. apply list_elem_of_omap in Hid as (part & _ & E).
  destruct (parseInt (trimSpace part)) as [z|] eqn:P; [|done]. destruct (Z.ltb_spec 0 z); [|done].
  injection E as <-. apply parseInt_in_int64 in P. apply andb_true_iff in P as [_ P]. apply Z.leb_le in P. lia.
Qed.

(** the parameters of a list are bounded whatever the request says.  The page
    that is read is between 1 and 2^31-1 and its size between 1 and 100; the search text
    is the trimmed parameter, cut at 200 runes (and re-reading the cut text gives those
    runes); the filter has positive 64-bit identifiers only; the sort column is of the
    route's list or its default, and the direction one of two.  So the offset, computed
    on 64 bits, never wraps around: a page of any list of rows is answered, is the slice
    that its number says, and has at most 100 rows. *)
Theorem catalog_query_bounded (sorts : list string) (fallback : string) (scope : Z) (r : Request) :
  let q := parseGridQuery sorts fallback scope r in
  1 <= grid_page q <= 2147483647 /\ 1 <= grid_page_size q <= 100
  /\ rune_list (chars (gq_Search q)) = take 200 (rune_list (chars (trimSpace (queryValue r "search"))))
  /\ (text_runes (gq_Search q) <= 200)%nat
  /\ Forall (fun id => 0 < id <= int64_max) (gq_FilterIDs q)
  /\ In (gq_Sort q) (fallback :: sorts) /\ In (gq_Direction q) ["asc"; "desc"]
  /\ forall (A : Type) (rows : list A), exists page,
       page_of (grid_page q) (grid_page_size q) rows = Some page
       /\ page = take (Z.to_nat (grid_page_size q))
                   (drop (Z.to_nat ((grid_page q - 1) * grid_page_size q)) rows)
       /\ (length page <= 100)%nat.
Proof.
  intros q.
  assert (P : 1 <= grid_page q <= 2147483647).
  { unfold grid_page. cbn [gq_Page q parseGridQuery]. destruct (hasQuery r "page"); [|done].
    pose proof (boundedInt_range (queryValue r "page") 1 1 (Z.shiftl 1 31 - 1) ltac:(by vm_compute)) as B.
    change (Z.shiftl 1 31 - 1) with 2147483647 in *. destruct (Z.eqb_spec (boundedInt (queryValue r "page") 1 1 2147483647) 0); lia. }
  assert (Z0 : 1 <= grid_page_size q <= 100).
  { unfold grid_page_size. cbn [gq_PageSize q parseGridQuery]. destruct (hasQuery r "pageSize"); [|done].
    pose proof (boundedInt_range (queryValue r "pageSize") 1 1 100 ltac:(done)).
    destruct (Z.eqb_spec (boundedInt (queryValue r "pageSize") 1 1 100) 0); lia. }
  split_and!; try lia.
  - apply boundedString_prefix.
  - apply boundedString_runes.
  - apply parseIDFilter_range.
  - cbn [gq_Sort q parseGridQuery]. destruct (existsb _ sorts) eqn:E; [|by left]. right.
    apply existsb_exists in E as (c & Hc & E). apply String.eqb_eq in E. by rewrite E.
  - cbn [gq_Direction q parseGridQuery]. destruct (String.eqb_spec (toLower (queryValue r "direction")) "desc") as [->|]; cbn; tauto.
  - intros A rows. eexists. split_and!; [apply page_of_slice; unfold int64_max; try lia; nia|reflexivity|].
    rewrite length_take. lia.
Qed.

(** ** The targets of the launcher *)

(** The separator of a name made from descriptions is not blank, so a platform without
    a hostname and descriptions is called by it, and never by its number. *)
Example unnamed_target : target_name 7 "" " " "" = of_chars [byte 194; byte 183].
Proof. reflexivity. Qed.

(** The project is not used. *)
Lemma launch_targets_any_project `{S : MySQL} now p p' : ListLaunchTargets now p = ListLaunchTargets now p'.
Proof. reflexivity. Qed.
