(* ===== verification/CatalogSafety.v ===== *)
(** * Who changes the platform catalogue, and how

    The invariant of the tables, that a request changes one row of the table of its
    route on behalf of an administrator, and what the model shows of repeated updates
    and of the launcher's targets. *)

From stdpp Require Import pretty sorting.
From S2P Require Import Prelude GoStrings GoTime Json JsonText Effects Http Contracts AccountTables Sessions Accounts Paging.
From S2P Require Import RunTheorems CliTheorems SessionTheorems Bodies IdentityTables Identity Sql Catalog CatalogHandlers.

(** ** The tables *)

(** Identifiers are unique and below the next one. *)
Record table_ok (t : table) : Prop := {
  ta_ids : List.NoDup (map rw_id (tb_rows t));
  ta_next : List.Forall (fun r => rw_id r < tb_next t) (tb_rows t);
}.

Definition tables_ok (d : tables) : Prop := map_Forall (fun _ => table_ok) d.

Lemma tables_ok_insert d name t : tables_ok d -> table_ok t -> tables_ok (<[name := t]> d).
Proof. intros H Ht. by apply map_Forall_insert_2. Qed.

Lemma set_cells_other cells m c : ~ In c (map fst cells) -> set_cells cells m !! c = m !! c.
Proof.
  unfold set_cells. revert m. induction cells as [|[c' v] cells IH]; intros m H; [done|]. cbn in *.
  rewrite IH by tauto. apply lookup_insert_ne. tauto.
Qed.

Lemma set_cells_same cells m m' c :
  In c (map fst cells) -> set_cells cells m !! c = set_cells cells m' !! c.
Proof.
  unfold set_cells. revert m m'. induction cells as [|[c' v] cells IH]; intros m m' H; [done|]. cbn in H |- *.
  destruct (in_dec String.string_dec c (map fst cells)) as [Hin|Hn]; [by apply IH|].
  destruct H as [<-|H]; [|done].
  pose proof (set_cells_other cells (<[c' := v]> m) c' Hn) as E1.
  pose proof (set_cells_other cells (<[c' := v]> m') c' Hn) as E2.
  unfold set_cells in E1, E2. by rewrite E1, E2, !lookup_insert_eq.
Qed.

Lemma set_cells_idempotent cells m : set_cells cells (set_cells cells m) = set_cells cells m.
Proof.
  apply map_eq. intros c. destruct (in_dec String.string_dec c (map fst cells)) as [H|H].
  - by apply set_cells_same.
  - by apply set_cells_other.
Qed.

(** Cells that agree with one assignment. *)
Lemma set_cells_lookup (f : string -> option cell) cells m c :
  List.Forall (fun cv => f (fst cv) = Some (snd cv)) cells ->
  set_cells cells m !! c = if bool_decide (c ∈ map fst cells) then f c else m !! c.
Proof.
  intros H. revert m. induction H as [|[c' v] cells Hc _ IH]; intros m; [done|]. cbn in Hc.
  unfold set_cells. cbn [fold_left fst snd]. fold (set_cells cells (<[c' := v]> m)). rewrite IH.
  cbn [map fst]. assert (E : c ∈ c' :: map fst cells <-> c = c' \/ c ∈ map fst cells) by set_solver.
  rewrite (bool_decide_ext _ _ E). case_bool_decide as H1; [by rewrite bool_decide_true by by right|].
  destruct (decide (c = c')) as [->|N]; [by rewrite lookup_insert_eq, bool_decide_true by by left|].
  rewrite lookup_insert_ne by done. by rewrite bool_decide_false by tauto.
Qed.

(** The value that a body gives a column of the allow-list, and what the column makes of
    it. *)
Definition supplied (columns : list string) (values : dict syntax) (c : string) : option syntax :=
  if bool_decide (c ∈ columns) then dget c values else None.

Definition stored_value `{C : Schema} (name : string) (columns : list string) (values : dict syntax) (c : string) : option cell :=
  a ← supplied columns values c; stored name c a.

Lemma selected_supplied columns values :
  let l := omap (fun c => (fun v => (c, v)) <$> dget c values) columns in
  (forall c, c ∈ map fst l <-> is_Some (supplied columns values c))
  /\ List.Forall (fun cv => supplied columns values (fst cv) = Some (snd cv)) l.
Proof.
  intros l. assert (H : forall c v, (c, v) ∈ l <-> c ∈ columns /\ dget c values = Some v).
  { intros c v. unfold l. rewrite list_elem_of_omap. split.
    - intros (x & Hx & E). destruct (dget x values) eqn:D; [|done]. by injection E as <- <-.
    - intros [Hc Hv]. exists c. split; [exact Hc|]. by rewrite Hv. }
  unfold supplied. split.
  - intros c. rewrite list_elem_of_fmap. split.
    + intros ([c' v] & -> & Hin). apply H in Hin as [Hc Hv]. cbn. rewrite bool_decide_true by done. by exists v.
    + case_bool_decide as Hc; [|by intros []]. intros [v Hv]. exists (c, v). split; [done|]. by apply H.
  - apply List.Forall_forall. intros [c v] Hin%list_elem_of_In. apply H in Hin as [Hc Hv]. cbn. by rewrite bool_decide_true.
Qed.

Lemma store_all_stored `{C : Schema} name columns values l cells :
  List.Forall (fun cv => supplied columns values (fst cv) = Some (snd cv)) l ->
  store_all name (map fst l) (map snd l) = Some cells ->
  map fst cells = map fst l /\ List.Forall (fun cv => stored_value name columns values (fst cv) = Some (snd cv)) cells.
Proof.
  intros F. revert cells. induction F as [|[c a] l H _ IH]; intros cells E; cbn in E; [by injection E as <-|].
  destruct (stored name c a) as [v|] eqn:Sv; cbn in E; [|done].
  destruct (store_all name (map fst l) (map snd l)) as [rest|]; cbn in E; [|done]. injection E as <-.
  destruct (IH rest eq_refl) as [I1 I2]. cbn in *. split; [by rewrite I1|]. constructor; [|exact I2].
  cbn. unfold stored_value. by rewrite H.
Qed.

(** What a statement of the repository writes. *)
Lemma written_cells `{C : Schema} name columns required values cols args cells m c :
  mutationValues columns required values = Some (cols, args) -> store_all name cols args = Some cells ->
  set_cells cells m !! c = (if bool_decide (is_Some (supplied columns values c)) then stored_value name columns values c else m !! c)
  /\ (is_Some (supplied columns values c) -> is_Some (stored_value name columns values c)).
Proof.
  unfold mutationValues. destruct (forallb _ _); [|done]. intros M St.
  set (l := omap _ _) in M. destruct (selected_supplied columns values) as [I F]. fold l in I, F.
  assert (E : cols = map fst l /\ args = map snd l) by (destruct l; [done|by injection M as <- <-]).
  destruct E as [-> ->]. destruct (store_all_stored _ _ _ _ _ F St) as [E2 F2].
  split.
  - rewrite (set_cells_lookup _ _ _ _ F2), E2. by rewrite (bool_decide_ext _ _ (I c)).
  - rewrite <- (I c), <- E2. intros ([c' v] & -> & Hin%list_elem_of_In)%list_elem_of_fmap. rewrite List.Forall_forall in F2.
    eexists. by apply (F2 (c', v)).
Qed.

Section Changes.
Context `{S : MySQL} `{C : Schema}.

Lemma insert_values_spec name columns args d d' :
  insert_values name columns args d = Some d' ->
  exists t base cells, d !! name = Some t /\ unnamed name columns = Some base /\ store_all name columns args = Some cells
    /\ d' = <[name := {| tb_rows := tb_rows t ++ [{| rw_id := tb_next t; rw_cells := set_cells cells base |}];
                         tb_next := tb_next t + 1 |}]> d.
Proof.
  unfold insert_values. intros H. apply bind_Some in H as (t & Ht & H).
  apply bind_Some in H as (base & Hb & H). apply bind_Some in H as (cells & Hc & H).
  injection H as <-. by exists t, base, cells.
Qed.

Lemma row_insert_ok t r : table_ok t -> rw_id r = tb_next t ->
  table_ok {| tb_rows := tb_rows t ++ [r]; tb_next := tb_next t + 1 |}.
Proof.
  intros [N F] E. split; cbn.
  - rewrite map_app. apply NoDup_ListNoDup, NoDup_app. split_and!; [by apply NoDup_ListNoDup| |apply NoDup_singleton].
    intros z Hz Hz'. apply list_elem_of_In in Hz, Hz'. cbn in Hz'. destruct Hz' as [<-|[]].
    apply in_map_iff in Hz as (r' & E' & Hr). rewrite List.Forall_forall in F. specialize (F r' Hr). lia.
  - apply List.Forall_app. split; [|by repeat constructor; lia].
    eapply List.Forall_impl; [|exact F]. intros r' H. cbn in H. lia.
Qed.

(** The row that an UPDATE leaves. *)
Definition touched (now : time) (cells : list (string * cell)) (r : row) : row :=
  {| rw_id := rw_id r;
     rw_cells := set_cells (cells ++ [("updated_at", CTime (column_time now))]) (rw_cells r) |}.

Lemma update_values_spec name columns args id now d d' n :
  update_values name columns args id now d = Some (d', n) ->
  exists t f, d !! name = Some t
    /\ d' = <[name := {| tb_rows := map (fun r => if rw_id r =? id then f r else r) (tb_rows t);
                         tb_next := tb_next t |}]> d
    /\ n = Z.of_nat (length (List.filter (fun r => (rw_id r =? id) && bool_decide (f r <> r)) (tb_rows t)))
    /\ exists cells, store_all name columns args = Some cells /\ f = touched now cells.
Proof.
  unfold update_values. intros H. apply bind_Some in H as (t & Ht & H).
  apply bind_Some in H as (cells & Hc & H). injection H as <- <-.
  exists t, (touched now cells). split_and!; try reflexivity; [exact Ht|by exists cells].
Qed.

Lemma map_ids (f : row -> row) id l :
  (forall r, rw_id (f r) = rw_id r) -> map rw_id (map (fun r => if rw_id r =? id then f r else r) l) = map rw_id l.
Proof. intros H. rewrite map_map. apply map_ext. intros r. by destruct (rw_id r =? id). Qed.

Lemma row_update_ok t f id : table_ok t -> (forall r, rw_id (f r) = rw_id r) ->
  table_ok {| tb_rows := map (fun r => if rw_id r =? id then f r else r) (tb_rows t); tb_next := tb_next t |}.
Proof.
  intros [N F] Hf. split; cbn; [by rewrite map_ids|].
  apply List.Forall_map. eapply List.Forall_impl; [|exact F]. intros r H. by destruct (rw_id r =? id); rewrite ?Hf.
Qed.

Lemma row_delete_ok t p : table_ok t -> table_ok {| tb_rows := List.filter p (tb_rows t); tb_next := tb_next t |}.
Proof.
  intros [N F]. split; cbn.
  - induction (tb_rows t) as [|r l IH]; [done|]. cbn in N |- *. inversion N; subst. inversion F; subst.
    destruct (p r); [|by apply IH]. cbn. constructor; [|by apply IH].
    intros Hin. apply in_map_iff in Hin as (r' & E & Hr). apply filter_In in Hr as [Hr _].
    apply H1. rewrite <- E. by apply in_map.
  - apply List.Forall_forall. intros r Hr. apply filter_In in Hr as [Hr _]. rewrite List.Forall_forall in F. by apply F.
Qed.

(** At most one row has an identifier. *)
Lemma ids_once t id p :
  table_ok t -> (length (List.filter (fun r => (rw_id r =? id)%Z && p r) (tb_rows t)) <= 1)%nat.
Proof.
  intros [N _]. induction (tb_rows t) as [|r l IH]; cbn; [lia|]. cbn in N. inversion N; subst.
  destruct (Z.eqb_spec (rw_id r) id) as [<-|]; [|by apply IH]. cbn.
  assert (E : List.filter (fun r' => (rw_id r' =? rw_id r) && p r') l = []).
  { destruct (List.filter _ l) as [|r' l'] eqn:E; [done|exfalso].
    assert (Hin : In r' (List.filter (fun r' => (rw_id r' =? rw_id r) && p r') l)) by (rewrite E; by left).
    apply filter_In in Hin as [Hr' Hp]. apply andb_true_iff in Hp as [Hp _]. apply Z.eqb_eq in Hp.
    apply H1. rewrite <- Hp. by apply in_map. }
  destruct (p r); cbn; rewrite E; cbn; lia.
Qed.

(** ** Requests *)
Definition mutation_kind (rt : catalog_route) : option string :=
  match rt with
  | BrandMutation => Some "brand"
  | BrowserMutation => Some "browser"
  | BrowserVersionMutation => Some "browser-version"
  | LocationMutation => Some "location"
  | PlatformMutation => Some "managed-platform"
  | ModelMutation => Some "model"
  | OSMutation => Some "os"
  | OSVersionMutation => Some "os-version"
  | _ => None
  end.

(** The text of a request about the catalogue, and the columns that it gives a value. *)
Definition body_of (r : IdRequest) : option (dict syntax) := decode_values (Z.shiftl 64 10) (ir_text r).

Definition named_columns (columns : list string) (values : dict syntax) : list string :=
  List.filter (fun c => bool_decide (is_Some (dget c values))) columns.

(** A change of one row, as the request says: a new row with the values of the body, the row
    whose identifier is in the body with the values of the body, or the platform in the
    path taken out. *)
Inductive catalog_change (now : time) (rt : catalog_route) (r : IdRequest) (d : tables) : tables -> Prop :=
| change_insert kind definition values t base row :
    mutation_kind rt = Some kind -> catalogMutationColumns kind = Some definition ->
    ir_method r <> "PUT" -> body_of r = Some values ->
    let given := normalizeCatalogValues kind values in
    forallb (filled given) (cd_required definition) = true ->
    d !! cd_table definition = Some t -> rw_id row = tb_next t ->
    unnamed (cd_table definition) (named_columns (cd_columns definition) given) = Some base ->
    (forall c, match supplied (cd_columns definition) given c with
               | Some a => exists v, stored (cd_table definition) c a = Some v /\ rw_cells row !! c = Some v
               | None => rw_cells row !! c = base !! c
               end) ->
    catalog_change now rt r d
      (<[cd_table definition := {| tb_rows := tb_rows t ++ [row]; tb_next := tb_next t + 1 |}]> d)
| change_update kind definition values t id row row' l1 l2 :
    mutation_kind rt = Some kind -> catalogMutationColumns kind = Some definition ->
    ir_method r = "PUT" -> body_of r = Some values -> body_id values = inr id ->
    let given := normalizeCatalogValues kind values in
    forallb (filled given) (cd_required definition) = true ->
    d !! cd_table definition = Some t -> tb_rows t = (l1 ++ row :: l2)%list -> rw_id row = id -> rw_id row' = id ->
    (forall c, c <> "updated_at" ->
       match supplied (cd_columns definition) given c with
       | Some a => exists v, stored (cd_table definition) c a = Some v /\ rw_cells row' !! c = Some v
       | None => rw_cells row' !! c = rw_cells row !! c
       end) ->
    rw_cells row' !! "updated_at" = Some (CTime (column_time now)) -> row' <> row ->
    catalog_change now rt r d
      (<[cd_table definition := {| tb_rows := l1 ++ row' :: l2; tb_next := tb_next t |}]> d)
| change_delete t id row l1 l2 :
    rt = PlatformDeletion -> parsePositivePathID (pathValue (ir_request r) "id") = Some id ->
    d !! "platforms" = Some t -> tb_rows t = (l1 ++ row :: l2)%list -> rw_id row = id ->
    catalog_change now rt r d (<["platforms" := {| tb_rows := l1 ++ l2; tb_next := tb_next t |}]> d).

(** The cookie is a live session of an active user of role 1. *)
Definition administrator (now : time) (r : Request) (d : AccountTables) : Prop :=
  exists c su, rq_cookie r = Some c /\ session_user c now d = Some su
    /\ ur_status (snd su) = "active" /\ ur_role (snd su) = 1.

(** Rows around the only one with an identifier. *)
Lemma only_row t r id :
  table_ok t -> In r (tb_rows t) -> rw_id r = id ->
  exists l1 l2, tb_rows t = (l1 ++ r :: l2)%list
    /\ (forall f, map (fun r => if rw_id r =? id then f r else r) (tb_rows t) = (l1 ++ f r :: l2)%list)
    /\ List.filter (fun r => negb (rw_id r =? id)) (tb_rows t) = (l1 ++ l2)%list.
Proof.
  intros [N _] Hin E. apply in_split in Hin as (l1 & l2 & El). exists l1, l2. split; [exact El|].
  rewrite El, map_app in N. cbn in N. apply NoDup_remove_2 in N.
  assert (O : forall l, (forall x, In x l -> In (rw_id x) (map rw_id l1 ++ map rw_id l2)) ->
    (forall f : row -> row, map (fun r => if rw_id r =? id then f r else r) l = l)
    /\ List.filter (fun r => negb (rw_id r =? id)) l = l).
  { intros l Hl. induction l as [|x l IH]; [done|]. destruct IH as [IH1 IH2]; [intros; apply Hl; by right|].
    assert (Nx : rw_id x <> id) by (intros Ex; apply N; rewrite E, <- Ex; apply Hl; by left).
    apply Z.eqb_neq in Nx. split; [intros f|]; cbn; rewrite Nx; cbn; [by rewrite IH1|by rewrite IH2]. }
  destruct (O l1) as [A1 B1]; [intros; apply in_app_iff; left; by apply in_map|].
  destruct (O l2) as [A2 B2]; [intros; apply in_app_iff; right; by apply in_map|].
  apply Z.eqb_eq in E. split.
  - intros f. rewrite El, map_app. cbn. by rewrite A1, A2, E.
  - rewrite El, List.filter_app. cbn. by rewrite B1, B2, E.
Qed.

Lemma counted_row p l : Z.of_nat (length (List.filter p l)) = 1 -> exists r : row, In r l /\ p r = true.
Proof.
  intros H. destruct (List.filter p l) as [|r l'] eqn:E; [done|]. exists r. apply filter_In. rewrite E. by left.
Qed.

(** What a mutation of the repository does. *)
Definition confined now rt r d (res : outcome unit) d' : Prop :=
  tables_ok d' /\ match res with
                  | Ok _ => catalog_change now rt r d d'
                  | Err e => d' = d /\ forall s, e <> Panic s
                  end.

Lemma mutation_filled columns required values cols args :
  mutationValues columns required values = Some (cols, args) ->
  forallb (filled values) required = true /\ cols = named_columns columns values.
Proof.
  unfold mutationValues. destruct (forallb _ _); [|done]. intros H. split; [done|].
  set (l := omap _ _) in H. assert (E : cols = map fst l) by (destruct l; [done|by injection H as <-]).
  rewrite E. unfold l, named_columns. clear. induction columns as [|c columns IH]; [done|]. cbn.
  destruct (dget c values); cbn; by rewrite IH.
Qed.

Lemma wp_CreateCatalog now rt r kind values d :
  mutation_kind rt = Some kind -> ir_method r <> "PUT" -> body_of r = Some values -> tables_ok d ->
  wp d (CreateCatalog kind values) (confined now rt r d).
Proof.
  intros Hk Hr Hb O. unfold CreateCatalog. destruct (catalogMutationColumns kind) as [definition|] eqn:Hd; [|by apply wp_fail].
  destruct (mutationValues _ _ _) as [[columns args]|] eqn:Hm; [|by apply wp_fail].
  apply wp_bind, wp_exec_refusable; [|done]. intros d' n H. apply fmap_Some in H as (d1 & H & [= -> ->]).
  apply wp_ret. apply insert_values_spec in H as (t & base & cells & Ht & Hu & Hc & ->). split.
  - apply tables_ok_insert; [exact O|]. by apply row_insert_ok; [apply (O (cd_table definition))|].
  - pose proof (mutation_filled _ _ _ _ _ Hm) as [Hf ->].
    eapply (change_insert now rt r d kind definition values t base); try eassumption; [done|]. intros c. cbn [rw_cells].
    destruct (written_cells _ _ _ _ _ _ _ base c Hm Hc) as [-> W]. unfold stored_value in *.
    destruct (supplied _ _ c) as [a|] eqn:Su; [|by rewrite bool_decide_false by by intros []].
    rewrite bool_decide_true by by eexists. cbn in *. destruct W as [v Hv]; [by eexists|]. by exists v.
Qed.

Lemma wp_UpdateCatalog now rt r kind id values d :
  mutation_kind rt = Some kind -> ir_method r = "PUT" -> body_of r = Some values -> body_id values = inr id -> tables_ok d ->
  wp d (UpdateCatalog now kind id values) (confined now rt r d).
Proof.
  intros Hk Hr Hb Hi O. unfold UpdateCatalog. destruct (catalogMutationColumns kind) as [definition|] eqn:Hd; [|by apply wp_fail].
  destruct (Z.leb_spec id 0) as [|Hid]; [by apply wp_fail|].
  destruct (mutationValues _ _ _) as [[columns args]|] eqn:Hm; [|by apply wp_fail].
  apply wp_bind, wp_exec_refusable; [|done]. intros d' n H.
  apply update_values_spec in H as (t & f & Ht & -> & -> & cells & Hc & Ef).
  assert (Hf : forall x, rw_id (f x) = rw_id x) by (by subst f).
  pose proof (O _ _ Ht) as Ot.
  apply wp_guard; intros G.
  - apply Z.eqb_eq in G. apply counted_row in G as (x & Hx & Hp). apply andb_true_iff in Hp as [Hp Hd'].
    apply Z.eqb_eq in Hp. apply bool_decide_eq_true in Hd'. destruct (only_row t x id Ot Hx Hp) as (l1 & l2 & El & Em & _). rewrite Em. split.
    + apply tables_ok_insert; [exact O|]. rewrite <- Em. by apply row_update_ok.
    + pose proof (mutation_filled _ _ _ _ _ Hm) as [Hq _].
      eapply (change_update now rt r d kind definition values t id x (f x)); try eassumption; [by rewrite Hf| |].
      * intros c Hn. subst f. cbn [touched rw_cells]. unfold set_cells. rewrite fold_left_app. cbn [fold_left fst snd].
        rewrite lookup_insert_ne by done. fold (set_cells cells (rw_cells x)).
        destruct (written_cells _ _ _ _ _ _ _ (rw_cells x) c Hm Hc) as [-> W]. unfold stored_value in *.
        destruct (supplied _ _ c) as [a|] eqn:Su; [|by rewrite bool_decide_false by by intros []].
        rewrite bool_decide_true by by eexists. cbn in *. destruct W as [v Hv]; [by eexists|]. by exists v.
      * subst f. cbn [touched rw_cells]. unfold set_cells. rewrite fold_left_app. cbn. by rewrite lookup_insert_eq.
  - apply Z.eqb_neq in G. pose proof (ids_once t id (fun r => bool_decide (f r <> r)) Ot) as Hlen.
    assert (Z0 : List.filter (fun r => (rw_id r =? id) && bool_decide (f r <> r)) (tb_rows t) = []).
    { destruct (List.filter _ _) as [|x [|y l]]; [done|cbn in G; lia|cbn in Hlen; lia]. }
    assert (Es : map (fun r => if rw_id r =? id then f r else r) (tb_rows t) = tb_rows t).
    { clear -Z0. induction (tb_rows t) as [|r l IH]; [done|]. cbn in Z0 |- *.
      destruct (rw_id r =? id); cbn in Z0.
      - destruct (bool_decide_reflect (f r <> r)) as [|Hn]; [done|]. rewrite IH by exact Z0.
        f_equal. by apply dec_stable.
      - by rewrite IH. }
    rewrite Es. assert (Ed : <[cd_table definition := {| tb_rows := tb_rows t; tb_next := tb_next t |}]> d = d).
    { apply insert_id. etransitivity; [exact Ht|]. by destruct t. }
    rewrite Ed. split; [exact O|]. done.
Qed.

Lemma wp_DeleteManagedPlatform now r d id :
  tables_ok d -> parsePositivePathID (pathValue (ir_request r) "id") = Some id ->
  wp d (DeleteManagedPlatform id) (confined now PlatformDeletion r d).
Proof.
  intros O Hpath. unfold DeleteManagedPlatform. destruct (id <=? 0); [by apply wp_fail|].
  apply wp_bind, wp_exec_refusable; [|done]. intros d' n H. unfold delete_id in H.
  apply bind_Some in H as (t & Ht & H). injection H as <- <-. pose proof (O _ _ Ht) as Ot.
  apply wp_guard; intros G.
  - apply Z.eqb_eq in G. apply counted_row in G as (x & Hr & Hp). apply Z.eqb_eq in Hp.
    destruct (only_row t x id Ot Hr Hp) as (l1 & l2 & El & _ & Ed). split.
    + apply tables_ok_insert; [exact O|]. by apply row_delete_ok.
    + rewrite Ed. by eapply change_delete.
  - apply Z.eqb_neq in G. pose proof (ids_once t id (fun _ => true) Ot) as Hlen.
    assert (Z0 : List.filter (fun r => rw_id r =? id) (tb_rows t) = []).
    { assert (E : List.filter (fun r => (rw_id r =? id) && true) (tb_rows t) = List.filter (fun r => rw_id r =? id) (tb_rows t))
        by (apply filter_ext; intros x; apply andb_true_r).
      cbv beta in Hlen. rewrite E in Hlen. destruct (List.filter _ _) as [|x [|y l]]; [done|cbn in G; lia|cbn in Hlen; lia]. }
    assert (Es : List.filter (fun r => negb (rw_id r =? id)) (tb_rows t) = tb_rows t).
    { clear -Z0. induction (tb_rows t) as [|r l IH]; [done|]. cbn in Z0 |- *.
      destruct (rw_id r =? id); [done|]. cbn. by rewrite IH. }
    rewrite Es. assert (Ed : <["platforms" := {| tb_rows := tb_rows t; tb_next := tb_next t |}]> d = d).
    { apply insert_id. etransitivity; [exact Ht|]. by destruct t. }
    rewrite Ed. split; [exact O|]. done.
Qed.
End Changes.

Section Requests.
Context `{S : MySQL} `{C : Schema} (now : time) (sessions mutable : bool).

(** What a request does to the catalogue. *)
Definition handled (rt : catalog_route) (r : IdRequest) d (res : outcome ctreply) d' : Prop :=
  ca_accounts d' = ca_accounts d /\ tables_ok (ca_tables d')
  /\ ((exists reply, res = Ok reply /\ rp_status reply = 200 /\ rp_body reply = CtOK
         /\ administrator now (ir_request r) (ca_accounts d) /\ catalog_change now rt r (ca_tables d) (ca_tables d'))
      \/ (ca_tables d' = ca_tables d /\ forall reply, res = Ok reply -> rp_body reply <> CtOK)).

Lemma handled_same rt r d res :
  tables_ok (ca_tables d) -> (forall reply, res = Ok reply -> rp_body reply <> CtOK) -> handled rt r d res d.
Proof. intros O H. split; [done|]. split; [exact O|]. right. by split. Qed.

Lemma handled_reply rt r d status body :
  tables_ok (ca_tables d) -> body <> CtOK -> handled rt r d (Ok (written status body)) d.
Proof. intros O H. apply handled_same; [exact O|]. by intros ? [= <-]. Qed.

Lemma wp_with_administrator rt r d k :
  tables_ok (ca_tables d) ->
  (administrator now (ir_request r) (ca_accounts d) -> wp d k (handled rt r d)) ->
  wp d (with_administrator now sessions mutable (ir_request r) k) (handled rt r d).
Proof.
  intros O H. assert (W : with_ca_accounts (ca_accounts d) d = d) by by destruct d.
  unfold with_administrator, AuthenticateRequest, Get, ct_error, mutationUnavailable.
  repeat wp_step; rewrite ?W; try (apply handled_reply; [exact O|discriminate]);
    try (apply handled_same; [exact O|discriminate]).
  apply H. lazymatch goal with
  | Hc : rq_cookie (ir_request r) = Some ?c, Hs : session_user ?c now _ = Some ?su, E : (if ?b then _ else _) = Some _ |- _ =>
      exists c, su; destruct b eqn:Ha; [injection E as <-|discriminate E]; destruct su as [s' u']
  end.
  split_and!; try assumption; cbn in *; [by apply String.eqb_eq|].
  by apply Z.eqb_eq, negb_false_iff.
Qed.

Lemma wp_mutation_reply rt r d m :
  tables_ok (ca_tables d) -> administrator now (ir_request r) (ca_accounts d) ->
  wp (ca_tables d) m (confined now rt r (ca_tables d)) -> wp d (mutation_reply m) (handled rt r d).
Proof.
  intros O A H. unfold mutation_reply, on_tables. apply wp_bind, wp_attempt, wp_zoom.
  eapply wp_weaken; [exact H|]. intros [[]|e] t' [O' K].
  - apply wp_ret. split; [done|]. split; [exact O'|]. left. eexists. by split_and!.
  - destruct K as [-> Hp]. assert (W : with_ca_tables (ca_tables d) d = d) by by destruct d. rewrite W.
    destruct e; try (by apply wp_ret, handled_reply). by edestruct Hp.
Qed.

Lemma wp_mutate rt r d kind :
  mutation_kind rt = Some kind -> tables_ok (ca_tables d) ->
  wp d (mutate now sessions mutable kind r) (handled rt r d).
Proof.
  intros K O. apply wp_with_administrator; [exact O|]. intros A.
  destruct (decode_values _ _) as [values|] eqn:B; [|by apply wp_ret, handled_reply].
  destruct (String.eqb_spec (ir_method r) "PUT").
  - destruct (body_id values) as [response|id] eqn:E; [|by apply wp_mutation_reply, wp_UpdateCatalog].
    apply wp_ret, handled_same; [exact O|]. intros ? [= <-]. revert E. unfold body_id.
    destruct (dget "id" values) as [[]|]; try (by intros [= <-]).
    destruct (parseInt _) as [z|]; [destruct (z <=? 0)|]; by intros [= <-].
  - by apply wp_mutation_reply, wp_CreateCatalog.
Qed.

(** The lists only read. *)
Lemma wp_list_grid {A} (g : grid A) q d : wp d (list_grid g q) (fun res d' => d' = d /\ forall s, res <> Err (Panic s)).
Proof. unfold list_grid, query_page. repeat wp_step; by split. Qed.

Lemma wp_reading rt r d {A} (m : M tables A) (k : outcome A -> ctreply) :
  tables_ok (ca_tables d) -> (forall res, rp_body (k res) <> CtOK) ->
  wp (ca_tables d) m (fun _ d' => d' = ca_tables d) ->
  wp d (bind (attempt (on_tables m)) (fun res => ret (k res))) (handled rt r d).
Proof.
  intros O K H. assert (W : with_ca_tables (ca_tables d) d = d) by by destruct d.
  apply wp_bind, wp_attempt, wp_zoom. eapply wp_weaken; [exact H|]. intros res t' ->. rewrite W.
  destruct res as [a|[]]; try (apply wp_ret, handled_same; [exact O|]; intros ? [= <-]; apply K).
  by apply handled_same.
Qed.

Lemma wp_list rt r d {A} (data : list A -> catalog_data) (g : grid A) q :
  tables_ok (ca_tables d) -> wp d (list_reply data q (list_grid g q)) (handled rt r d).
Proof.
  intros O. apply wp_reading; [exact O| |].
  - intros [page|e]; [|done]. destruct (negb _); [done|]. by destruct (pg_Meta page).
  - eapply wp_weaken; [apply wp_list_grid|]. by intros ? ? [-> _].
Qed.

Lemma wp_with_scope rt r r' d name code message k :
  tables_ok (ca_tables d) -> (forall id, wp d (k id) (handled rt r d)) ->
  wp d (with_scope r' name code message k) (handled rt r d).
Proof. intros O H. unfold with_scope. destruct (parsePositivePathID _); [apply H|by apply wp_ret, handled_reply]. Qed.

Lemma wp_items rt r d name :
  tables_ok (ca_tables d) -> wp d (items_reply (listCatalogItems name)) (handled rt r d).
Proof.
  intros O. apply wp_reading; [exact O|by intros []|]. unfold listCatalogItems, query_page. repeat wp_step; done.
Qed.

Lemma wp_targets rt r r' d : tables_ok (ca_tables d) -> wp d (LaunchTargets now r') (handled rt r d).
Proof.
  intros O. unfold LaunchTargets. destruct (parsePositivePathID _); [|by apply wp_ret, handled_reply].
  apply wp_reading; [exact O|by intros []|]. unfold ListLaunchTargets. repeat wp_step; done.
Qed.

Lemma wp_serve_catalog rt r d :
  tables_ok (ca_tables d) ->
  wp d (serve_catalog now sessions mutable rt r) (handled rt r d).
Proof.
  intros O. destruct rt; cbn [serve_catalog].
  all: try (by apply wp_items). all: try (by apply wp_list).
  all: try (apply wp_with_scope; [exact O|]; intros id; by apply wp_list).
  1: by apply wp_targets.
  all: try (unfold by_method; destruct (String.eqb _ _); by apply wp_mutate).
  apply wp_with_administrator; [exact O|]. intros A.
  destruct (parsePositivePathID _) eqn:P; [|by apply wp_ret, handled_reply].
  by apply wp_mutation_reply, wp_DeleteManagedPlatform.
Qed.

(** Claim C30: the catalogue changes one row at a time, by administrators, as the request
    says.  Whatever the request, the route and the failures of the database: no account
    changes; identifiers stay unique and below the next one; and the tables change only
    when the answer is the 200 of a mutation, for the live session of an active user of
    role 1, and then in one table, that of the route, and by one row.  A POST adds a row
    with a fresh identifier; a PUT changes the row whose identifier is the id of the body;
    either way exactly the columns of the kind's allow-list that the body gives a value
    have that value, as the column stores it, the required ones among them, and the others
    their default or what they had (an update also sets its instant).  The route that
    deletes takes out the platform whose identifier is in the path.  No other answer
    reports success, so a listing, a refusal and a failure change nothing. *)
Theorem catalog_requests_confined (rt : catalog_route) (r : IdRequest) (w w' : world CatalogTables) res :
  tables_ok (ca_tables (w_db w)) ->
  serve_catalog now sessions mutable rt r w = (res, w') ->
  let d := w_db w in let d' := w_db w' in
  ca_accounts d' = ca_accounts d /\ tables_ok (ca_tables d')
  /\ ((exists reply, res = Ok reply /\ rp_status reply = 200 /\ rp_body reply = CtOK
         /\ administrator now (ir_request r) (ca_accounts d)
         /\ catalog_change now rt r (ca_tables d) (ca_tables d'))
      \/ (ca_tables d' = ca_tables d /\ forall reply, res = Ok reply -> rp_body reply <> CtOK)).
Proof. intros O H. exact (wp_elim _ _ _ _ _ (wp_serve_catalog rt r (w_db w) O) H). Qed.
End Requests.

(** ** The same update twice *)
Section Twice.
Context `{S : MySQL} `{C : Schema}.

(** What an update that succeeds leaves, and what the next one meets. *)
Definition updated_by (now : time) (kind : string) (id : Z) (values : dict syntax) (d d' : tables) : Prop :=
  exists definition columns args t cells,
    catalogMutationColumns kind = Some definition /\ (id <=? 0) = false
    /\ mutationValues (cd_columns definition) (cd_required definition) (normalizeCatalogValues kind values)
       = Some (columns, args)
    /\ store_all (cd_table definition) columns args = Some cells
    /\ d' = <[cd_table definition :=
               {| tb_rows := map (fun r => if rw_id r =? id then touched now cells r else r) (tb_rows t);
                  tb_next := tb_next t |}]> d.

Lemma wp_updated now kind id values d :
  wp d (UpdateCatalog now kind id values) (fun res d' => res = Ok tt -> updated_by now kind id values d d').
Proof.
  unfold UpdateCatalog. destruct (catalogMutationColumns kind) as [definition|] eqn:Hd; [|by apply wp_fail].
  destruct (id <=? 0) eqn:Hid; [by apply wp_fail|].
  destruct (mutationValues _ _ _) as [[columns args]|] eqn:Hm; [|by apply wp_fail].
  apply wp_bind, wp_exec_refusable; [|done]. intros d' n H.
  apply update_values_spec in H as (t & f & Ht & -> & -> & cells & Hc & ->).
  apply wp_guard; intros _; [|done]. intros _. exists definition, columns, args, t, cells. by split_and!.
Qed.

Lemma touched_twice now later cells r :
  column_time later = column_time now -> touched later cells (touched now cells r) = touched now cells r.
Proof. intros E. unfold touched. rewrite E. cbn [rw_id rw_cells]. by rewrite set_cells_idempotent. Qed.

Lemma touched_rows now later cells id l :
  column_time later = column_time now ->
  let l' := map (fun r => if rw_id r =? id then touched now cells r else r) l in
  map (fun r => if rw_id r =? id then touched later cells r else r) l' = l'
  /\ List.filter (fun r => (rw_id r =? id) && bool_decide (touched later cells r <> r)) l' = [].
Proof.
  intros E. induction l as [|r l [IH1 IH2]]; [done|]. cbn.
  destruct (rw_id r =? id) eqn:X; cbn [touched rw_id]; rewrite X; cbn [andb]; [|by rewrite IH1, IH2].
  rewrite IH1, IH2. pose proof (touched_twice now later cells r E) as T.
  split; [exact (f_equal2 cons T eq_refl)|].
  rewrite bool_decide_eq_false_2; [done|]. intros N. by apply N.
Qed.

(** The answer of an update that finds nothing to change. *)
Definition refused_update (res : outcome unit) : Prop :=
  res = Err (OtherError "platform catalog row not found") \/ exists m, res = Err (DatabaseFailure m).

Lemma wp_update_again now later kind id values d d' :
  updated_by now kind id values d d' -> column_time later = column_time now ->
  wp d' (UpdateCatalog later kind id values) (fun res d2 => refused_update res /\ d2 = d').
Proof.
  intros (definition & columns & args & t & cells & Hd & Hid & Hm & Hc & U) E.
  unfold UpdateCatalog. rewrite Hd, Hid, Hm. apply wp_bind, wp_exec_refusable.
  - intros d2 n H. apply update_values_spec in H as (t' & f & Ht & -> & -> & cells' & Hc' & ->).
    rewrite Hc in Hc'. injection Hc' as <-. rewrite U in Ht.
    pose proof (eq_trans (eq_sym Ht) (lookup_insert_eq d _ _)) as [= ->].
    cbn [tb_rows tb_next]. destruct (touched_rows now later cells id (tb_rows t) E) as [-> ->]. cbn [length].
    apply wp_fail. split; [by left|]. rewrite U. apply insert_insert_eq.
  - intros m. split; [|done]. right. by exists m.
Qed.

(** an update is not repeatable.  After a PUT that succeeded, the same PUT in
    the same second changes no row, so the server counts none and the repository
    reports a row that is not there: it is refused, whatever else fails, and the tables
    stay. *)
Theorem same_second_update_refused (now later : time) kind id values (w w1 w2 w3 : world tables) res :
  UpdateCatalog now kind id values w = (Ok tt, w1) ->
  column_time later = column_time now -> w_db w2 = w_db w1 ->
  UpdateCatalog later kind id values w2 = (res, w3) ->
  (res = Err (OtherError "platform catalog row not found") \/ exists m, res = Err (DatabaseFailure m))
  /\ w_db w3 = w_db w1.
Proof.
  intros H1 E Ew H2.
  pose proof (wp_elim _ _ _ _ _ (wp_updated now kind id values (w_db w)) H1 eq_refl) as U.
  rewrite <- Ew in *. exact (wp_elim _ _ _ _ _ (wp_update_again now later kind id values _ _ U E) H2).
Qed.
End Twice.

(** ** Examples *)

(** A schema whose columns take whole numbers and texts, and have no defaults. *)
#[export] Instance plain_schema : Schema := {|
  stored _ _ a := match a with
                  | SNum n => CInt <$> parseInt n
                  | SStr s => Some (CText s)
                  | SNull => Some CNull
                  | _ => None
                  end;
  unnamed _ _ := Some ∅;
|}.

Definition brand_row (id : Z) (brand : string) : row :=
  {| rw_id := id; rw_cells := {["brand" := CText brand]} |}.

(** Brands, and the superadmin's session. *)
Definition sample_catalog : CatalogTables :=
  {| ca_accounts := root_tables;
     ca_tables := {["brand_devices" := {| tb_rows := [brand_row 1 "Acme"; brand_row 4 "Zeta"; brand_row 5 "Beta"];
                                          tb_next := 6 |}]} |}.

Definition catalog_request (cookie method text : string) : IdRequest :=
  {| ir_method := method;
     ir_request := {| rq_path := []; rq_header := []; rq_query := []; rq_cookie := Some cookie; rq_body := BodyObject [] |};
     ir_text := text |}.

Definition rename_brand : string :=
  of_chars (chars "{" ++ byte 34 :: chars "id" ++ [byte 34] ++ chars ":4," ++ byte 34 :: chars "brand" ++ [byte 34]
    ++ chars ":" ++ byte 34 :: chars "Omega" ++ [byte 34] ++ chars "}").

Definition brands_of (d : tables) : list (Z * cell) :=
  match d !! "brand_devices" with Some t => map (fun r => (rw_id r, column r "brand")) (tb_rows t) | None => [] end.

#[local] Notation renaming cookie :=
  (serve_catalog noon true true BrandMutation (catalog_request cookie "PUT" rename_brand) (World sample_catalog [] [])).

Lemma sample_catalog_ok : tables_ok (ca_tables sample_catalog).
Proof.
  apply map_Forall_singleton. split; cbn; [|by repeat constructor].
  repeat constructor; cbn; intuition discriminate.
Qed.

Lemma catalog_requests_confined_witness :
  tables_ok (ca_tables sample_catalog)
  /\ (exists reply, fst (renaming root_session) = Ok reply /\ rp_status reply = 200
      /\ catalog_change noon BrandMutation (catalog_request root_session "PUT" rename_brand)
           (ca_tables sample_catalog) (ca_tables (w_db (snd (renaming root_session)))))
  /\ brands_of (ca_tables (w_db (snd (renaming root_session))))
     = [(1, CText "Acme"); (4, CText "Omega"); (5, CText "Beta")]
  /\ fst (renaming "nobody") = Ok (ct_error 401 "UNAUTHENTICATED" "An active browser session is required.").
Proof.
  split; [exact sample_catalog_ok|]. split; [|split; vm_compute; reflexivity].
  destruct (renaming root_session) as [res w'] eqn:E.
  destruct (catalog_requests_confined noon true true BrandMutation (catalog_request root_session "PUT" rename_brand)
              (World sample_catalog [] []) w' res sample_catalog_ok E) as (_ & _ & [(reply & Hr & Hs & _ & _ & Hc)|[_ Hn]]).
  - exists reply. cbn [fst snd]. split; [exact Hr|]. split; [exact Hs|exact Hc].
  - exfalso. assert (X : fst (renaming root_session) = Ok (written 200 CtOK)) by (vm_compute; reflexivity).
    rewrite E in X. cbn [fst] in X. exact (Hn _ X eq_refl).
Defined.

#[local] Notation brand_values := [("id", SNum "4"); ("brand", SStr "Omega")].
#[local] Notation first_update := (UpdateCatalog noon "brand" 4 brand_values (World (ca_tables sample_catalog) [] [])).
#[local] Notation second_update := (UpdateCatalog (noon + 3) "brand" 4 brand_values (snd first_update)).

Lemma same_second_update_refused_witness :
  fst first_update = Ok tt
  /\ (fst second_update = Err (OtherError "platform catalog row not found")
      \/ exists m, fst second_update = Err (DatabaseFailure m))
  /\ w_db (snd second_update) = w_db (snd first_update).
Proof.
  assert (E1 : fst first_update = Ok tt) by (vm_compute; reflexivity). split; [exact E1|].
  apply (same_second_update_refused noon (noon + 3) "brand" 4 brand_values (World (ca_tables sample_catalog) [] [])
           (snd first_update) (snd first_update) (snd second_update) (fst second_update)).
  - rewrite <- E1. apply surjective_pairing.
  - vm_compute. reflexivity.
  - reflexivity.
  - apply surjective_pairing.
Defined.

(** The same answer from the route, for an administrator who saves twice. *)
Example saved_twice :
  rp_status <$> match fst (renaming root_session) with Ok reply => Some reply | Err _ => None end = Some 200
  /\ fst (serve_catalog (noon + 3) true true BrandMutation (catalog_request root_session "PUT" rename_brand)
            (snd (renaming root_session))) = Ok mutationRejected.
Proof. split; vm_compute; reflexivity. Qed.

(** A list is read without any session. *)
Example anonymous_read :
  fst (serve_catalog noon true true BrandsRoute (catalog_request "" "GET" "") (World sample_catalog [] []))
  = Ok (written 200 (CtData (BrandData
      (map (fun ib => {| br_ID := fst ib; br_Brand := snd ib; br_CreatedAt := None; br_UpdatedAt := None |})
         [(1, "Acme"); (4, "Zeta"); (5, "Beta")])))).
Proof. vm_compute. reflexivity. Qed.
