(* ===== verification/Workspace.v ===== *)
(** * Projects and their resources: the tables and the repository

    internal/persistence/mysql/browser_projects.go, browser_steps.go, browser_plugins.go,
    browser_environments.go and the test cycles, tests and steps of browser_auth.go.

    The five tables of resources have the columns of [ResourceRow].  What a column makes
    of a text (JSON columns refuse or rewrite it, others limit its length) is the class
    [Columns].  Errors of the driver carry their text into the log only. *)

From stdpp Require Import pretty sorting.
From S2P Require Import Prelude GoStrings GoTime Json JsonText Redaction Effects Http Contracts AccountTables Sessions Accounts Paging Sql.

(** ** Tables *)

(** A test cycle, a test, a step, an environment or a plugin.  The name of an
    environment is its column code, the document of a plugin its column code; the order
    is a column of steps. *)
Record ResourceRow := {
  rs_id : Z;
  rs_name : string;
  rs_description : option string;
  rs_config : option string;
  rs_order : Z;
  rs_idProject : Z;
  rs_idCostumer : Z;
  rs_created_at : option time;
  rs_updated_at : option time;
}.

Inductive resource := TestCycleR | TestR | StepR | EnvironmentR | PluginR.

Record ResourceTable := { rt_rows : list ResourceRow; rt_next : Z }.

(** [asset_versions]. *)
Record VersionRow := {
  vr_idCostumer : Z;
  vr_idProject : Z;
  vr_assetType : string;
  vr_assetId : Z;
  vr_version : Z;
  vr_actorUserId : Z;
  vr_reason : string;
  vr_snapshot : string;
}.

(** What the deletion of a project reads of the results: the owner, and the test cycle
    of a performed cycle or the performed cycle of the others. *)
Record PerformedRow := { pf_id : Z; pf_idCostumer : Z; pf_parent : Z }.

#[export] Instance resource_row_eq_dec : EqDecision ResourceRow.
Proof. solve_decision. Defined.
#[export] Instance project_row_eq_dec : EqDecision ProjectRow.
Proof. solve_decision. Defined.
#[export] Instance resource_eq_dec : EqDecision resource.
Proof. solve_decision. Defined.

(** Accounts, sessions and projects are those of [AccountTables]; archivedAt is a column
    of projects, NULL when absent. *)
Record WorkTables := {
  wk_accounts : AccountTables;
  wk_nextProject : Z;
  wk_archivedAt : gmap Z time;
  wk_test_cycles : ResourceTable;
  wk_tests : ResourceTable;
  wk_steps : ResourceTable;
  wk_environments : ResourceTable;
  wk_plugins : ResourceTable;
  wk_versions : list VersionRow;
  wk_performed_cycles : list PerformedRow;
  wk_performed_tests : list PerformedRow;
  wk_performed_steps : list PerformedRow;
}.

Definition with_projects (l : list ProjectRow) (d : AccountTables) : AccountTables :=
  {| at_users := at_users d; at_nextUser := at_nextUser d; at_sessions := at_sessions d;
     at_customers := at_customers d; at_nextCustomer := at_nextCustomer d; at_roles := at_roles d;
     at_roleColumns := at_roleColumns d; at_projects := l; at_audits := at_audits d |}.

Definition with_wk_accounts (x : AccountTables) (d : WorkTables) : WorkTables :=
  {| wk_accounts := x; wk_nextProject := wk_nextProject d; wk_archivedAt := wk_archivedAt d;
     wk_test_cycles := wk_test_cycles d; wk_tests := wk_tests d; wk_steps := wk_steps d;
     wk_environments := wk_environments d; wk_plugins := wk_plugins d; wk_versions := wk_versions d;
     wk_performed_cycles := wk_performed_cycles d; wk_performed_tests := wk_performed_tests d;
     wk_performed_steps := wk_performed_steps d |}.

Definition set_projects (l : list ProjectRow) (next : Z) (d : WorkTables) : WorkTables :=
  {| wk_accounts := with_projects l (wk_accounts d); wk_nextProject := next;
     wk_archivedAt := wk_archivedAt d;
     wk_test_cycles := wk_test_cycles d; wk_tests := wk_tests d; wk_steps := wk_steps d;
     wk_environments := wk_environments d; wk_plugins := wk_plugins d; wk_versions := wk_versions d;
     wk_performed_cycles := wk_performed_cycles d; wk_performed_tests := wk_performed_tests d;
     wk_performed_steps := wk_performed_steps d |}.

Definition table_of (k : resource) (d : WorkTables) : ResourceTable :=
  match k with
  | TestCycleR => wk_test_cycles d
  | TestR => wk_tests d
  | StepR => wk_steps d
  | EnvironmentR => wk_environments d
  | PluginR => wk_plugins d
  end.

Definition with_table (k : resource) (t : ResourceTable) (d : WorkTables) : WorkTables :=
  let put k' old := if decide (k = k') then t else old in
  {| wk_accounts := wk_accounts d; wk_nextProject := wk_nextProject d; wk_archivedAt := wk_archivedAt d;
     wk_test_cycles := put TestCycleR (wk_test_cycles d); wk_tests := put TestR (wk_tests d);
     wk_steps := put StepR (wk_steps d); wk_environments := put EnvironmentR (wk_environments d);
     wk_plugins := put PluginR (wk_plugins d); wk_versions := wk_versions d;
     wk_performed_cycles := wk_performed_cycles d; wk_performed_tests := wk_performed_tests d;
     wk_performed_steps := wk_performed_steps d |}.

Definition with_versions (l : list VersionRow) (d : WorkTables) : WorkTables :=
  {| wk_accounts := wk_accounts d; wk_nextProject := wk_nextProject d; wk_archivedAt := wk_archivedAt d;
     wk_test_cycles := wk_test_cycles d; wk_tests := wk_tests d; wk_steps := wk_steps d;
     wk_environments := wk_environments d; wk_plugins := wk_plugins d; wk_versions := l;
     wk_performed_cycles := wk_performed_cycles d; wk_performed_tests := wk_performed_tests d;
     wk_performed_steps := wk_performed_steps d |}.

Definition with_performed (cycles tests steps : list PerformedRow) (d : WorkTables) : WorkTables :=
  {| wk_accounts := wk_accounts d; wk_nextProject := wk_nextProject d; wk_archivedAt := wk_archivedAt d;
     wk_test_cycles := wk_test_cycles d; wk_tests := wk_tests d; wk_steps := wk_steps d;
     wk_environments := wk_environments d; wk_plugins := wk_plugins d; wk_versions := wk_versions d;
     wk_performed_cycles := cycles; wk_performed_tests := tests; wk_performed_steps := steps |}.

(** ** Columns *)
Inductive work_table := ProjectsT | ResourcesT (k : resource).

(** What a column keeps of a text; [None] when the server refuses it. *)
Class Columns := { kept : work_table -> string -> string -> option string }.

(** ** Structs *)
Record TestCycleItem := {
  tci_ID : Z; tci_Name : string; tci_Description : string;
  tci_CreatedAt : option time; tci_UpdatedAt : option time }.
Record TestItem := {
  tsi_ID : Z; tsi_Name : string; tsi_Description : string;
  tsi_CreatedAt : option time; tsi_UpdatedAt : option time }.
Record StepListItem := { sli_ID : Z; sli_Name : string; sli_Description : string; sli_Order : Z }.

Record TestCycleDetail := {
  tcd_ID : Z; tcd_Name : string; tcd_Description : string; tcd_Config : string; tcd_IDProject : Z }.
Record TestDetail := {
  tsd_ID : Z; tsd_Name : string; tsd_Description : string; tsd_Config : string; tsd_IDProject : Z }.
Record StepDetail := {
  sd_ID : Z; sd_Name : string; sd_Description : string; sd_Config : json; sd_IDProject : Z; sd_Order : Z }.
Record EnvironmentDetail := {
  ed_ID : Z; ed_Code : string; ed_Description : string; ed_Config : json; ed_IDProject : Z }.
Record PluginDetail := {
  pd_ID : Z; pd_Name : string; pd_Description : string; pd_Code : json; pd_IDProject : Z }.

(** StepInput, PluginInput (name, description, code) and EnvironmentInput (code,
    description, config). *)
Record ResourceInput := {
  ri_IDProject : Z; ri_ID : Z; ri_Name : string; ri_Description : string; ri_Config : json }.
Definition StepInput : Type := ResourceInput.
Definition PluginInput : Type := ResourceInput.
Definition EnvironmentInput : Type := ResourceInput.

Record TestCycleCreate := { cyc_Name : string; cyc_Description : string; cyc_Config : string; cyc_IDProject : Z }.
Record TestCycleUpdate := { cyu_ID : Z; cyu_IDProject : Z; cyu_Description : string; cyu_Config : string }.
Record TestCreate := { tec_Name : string; tec_Description : string; tec_Config : string; tec_IDProject : Z }.
Record TestUpdate := { teu_ID : Z; teu_IDProject : Z; teu_Config : string }.
Record TestImport := { tim_Name : string; tim_Description : string; tim_Import : string; tim_IDProject : Z }.
Record StepReorder := { sro_IDProject : Z; sro_Offset : Z; sro_Order : list Z }.

Record ResourceQuery := {
  wq_ProjectID : Z; wq_Page : Z; wq_PageSize : Z; wq_Paged : bool;
  wq_Search : string; wq_Sort : string; wq_Direction : string; wq_FilterIDs : list Z }.

(** A page of the listing: its items and its metadata, which unpaged answers drop. *)
Definition ResourcePage (A : Type) : Type := list A * PageMeta.

(** ** Statements *)
Definition owns (tenantID projectID : Z) (p : ProjectRow) : bool :=
  (pr_id p =? projectID) && (pr_idCostumer p =? tenantID).

(** [WHERE id = ? AND idProject = ? AND idCostumer = ?]. *)
Definition of_project (tenantID projectID id : Z) (r : ResourceRow) : bool :=
  (rs_id r =? id) && (rs_idProject r =? projectID) && (rs_idCostumer r =? tenantID).

Definition in_project (tenantID projectID : Z) (r : ResourceRow) : bool :=
  (rs_idProject r =? projectID) && (rs_idCostumer r =? tenantID).

Definition requireAffectedRows (affected : Z) : M WorkTables unit :=
  if affected =? 0 then fail ErrNotFound else ret tt.

(** The loop over the rows of a list. *)
Fixpoint scan_all {A} (scan : ResourceRow -> option A) (l : list ResourceRow) : option (list A) :=
  match l with
  | [] => Some []
  | r :: l' => x ← scan r; xs ← scan_all scan l'; Some (x :: xs)
  end.

Section Repository.
Context `{S : MySQL} `{F : Floats} `{C : Columns} (now : time).
Notation R := (M WorkTables).

(** The new row of an INSERT, and its identifier. *)
Definition insert_resource (k : resource) (name description config : string) (order projectID tenantID : Z)
    (d : WorkTables) : option (WorkTables * Z) :=
  let columns := match k with
                 | EnvironmentR => ("code", "config")
                 | PluginR => ("name", "code")
                 | _ => ("name", "config")
                 end in
  name ← kept (ResourcesT k) (fst columns) name;
  description ← kept (ResourcesT k) "description" description;
  config ← kept (ResourcesT k) (snd columns) config;
  let t := table_of k d in
  Some (with_table k
    {| rt_rows := rt_rows t ++
         [{| rs_id := rt_next t; rs_name := name; rs_description := Some description; rs_config := Some config;
             rs_order := order; rs_idProject := projectID; rs_idCostumer := tenantID;
             rs_created_at := Some (column_time now); rs_updated_at := Some (column_time now) |}];
       rt_next := rt_next t + 1 |} d, rt_next t).

(** [UPDATE ... WHERE id = ? AND idProject = ? AND idCostumer = ?] on a table. *)
Definition update_resource (k : resource) (tenantID projectID id : Z) (f : ResourceRow -> ResourceRow)
    (d : WorkTables) : WorkTables * Z :=
  let '(rows, n) := update_where (of_project tenantID projectID id) f (rt_rows (table_of k d)) in
  (with_table k {| rt_rows := rows; rt_next := rt_next (table_of k d) |} d, n).

Definition delete_resource (k : resource) (tenantID projectID id : Z) (d : WorkTables) : WorkTables * Z :=
  let '(rows, n) := delete_where (of_project tenantID projectID id) (rt_rows (table_of k d)) in
  (with_table k {| rt_rows := rows; rt_next := rt_next (table_of k d) |} d, n).

Definition set_resource (name description config : option string) (r : ResourceRow) : ResourceRow :=
  {| rs_id := rs_id r; rs_name := default (rs_name r) name;
     rs_description := match description with Some s => Some s | None => rs_description r end;
     rs_config := match config with Some s => Some s | None => rs_config r end;
     rs_order := rs_order r; rs_idProject := rs_idProject r; rs_idCostumer := rs_idCostumer r;
     rs_created_at := rs_created_at r; rs_updated_at := Some (column_time now) |}.

Definition set_order (order : Z) (r : ResourceRow) : ResourceRow :=
  {| rs_id := rs_id r; rs_name := rs_name r; rs_description := rs_description r; rs_config := rs_config r;
     rs_order := order; rs_idProject := rs_idProject r; rs_idCostumer := rs_idCostumer r;
     rs_created_at := rs_created_at r; rs_updated_at := Some (column_time now) |}.

(** The row that a SELECT by identifier, project and customer finds. *)
Definition select_resource (k : resource) (tenantID projectID id : Z) (d : WorkTables) : option ResourceRow :=
  List.find (of_project tenantID projectID id) (rt_rows (table_of k d)).

(** [ensureProject] and [ensureProjectTx]. *)
Definition ensureBrowserProject (tenantID projectID : Z) : R unit :=
  let! exists_ := query "check browser project ownership"
    (fun d => existsb (owns tenantID projectID) (at_projects (wk_accounts d))) in
  guard exists_ ErrNotFound.

(** ** Projects *)
Definition project_of (p : ProjectRow) : Project :=
  {| pj_ID := pr_id p; pj_Name := pr_name p; pj_Description := pr_description p;
     pj_CreatedAt := pr_created_at p; pj_UpdatedAt := pr_updated_at p; pj_IDCostumer := pr_idCostumer p |}.

Definition CreateProject (tenantID : Z) (name description : string) : R unit :=
  let! _ := exec_refusable "create browser project" (fun d =>
    name ← kept ProjectsT "name" name; description ← kept ProjectsT "description" description;
    let id := wk_nextProject d in
    Some (set_projects (at_projects (wk_accounts d) ++
      [{| pr_id := id; pr_name := name; pr_description := Some description; pr_idCostumer := tenantID;
          pr_created_at := Some (column_time now); pr_updated_at := Some (column_time now) |}]) (id + 1) d, id)) in
  ret tt.

(** A project that is not archived. *)
Definition open_project (tenantID projectID : Z) (d : WorkTables) (p : ProjectRow) : bool :=
  owns tenantID projectID p && bool_decide (wk_archivedAt d !! pr_id p = None).

Definition UpdateProject (tenantID projectID : Z) (name description : string) : R unit :=
  let! affected := exec_refusable "update browser project" (fun d =>
    name ← kept ProjectsT "name" name; description ← kept ProjectsT "description" description;
    let '(l, n) := update_where (open_project tenantID projectID d)
      (fun p => {| pr_id := pr_id p; pr_name := name; pr_description := Some description;
                   pr_idCostumer := pr_idCostumer p; pr_created_at := pr_created_at p;
                   pr_updated_at := Some (column_time now) |}) (at_projects (wk_accounts d)) in
    Some (set_projects l (wk_nextProject d) d, n)) in
  requireAffectedRows affected.

Definition GetProject (tenantID projectID : Z) : R Project :=
  let! row := query "show browser project" (fun d =>
    List.find (open_project tenantID projectID d) (at_projects (wk_accounts d))) in
  match row with None => fail ErrNotFound | Some p => ret (project_of p) end.

(** The subselects of the deletion: the test cycles of the project and their performed
    cycles. *)
Definition cycles_of (tenantID projectID : Z) (d : WorkTables) : list Z :=
  map rs_id (List.filter (in_project tenantID projectID) (rt_rows (wk_test_cycles d))).

Definition performed_in (tenantID : Z) (parents : list Z) (p : PerformedRow) : bool :=
  (pf_idCostumer p =? tenantID) && existsb (Z.eqb (pf_parent p)) parents.

Definition performed_of (tenantID projectID : Z) (d : WorkTables) : list Z :=
  map pf_id (List.filter (performed_in tenantID (cycles_of tenantID projectID d)) (wk_performed_cycles d)).

Definition rows_without {A} (p : A -> bool) (l : list A) : list A := List.filter (fun r => negb (p r)) l.

(** One of the deletions of resources. *)
Definition clear_table (k : resource) (tenantID projectID : Z) (d : WorkTables) : WorkTables :=
  with_table k {| rt_rows := rows_without (in_project tenantID projectID) (rt_rows (table_of k d));
                  rt_next := rt_next (table_of k d) |} d.

(** The nine statements, in order. *)
Definition deletions (tenantID projectID : Z) : list (WorkTables -> WorkTables) :=
  [ (fun d => with_performed (wk_performed_cycles d) (wk_performed_tests d)
       (rows_without (performed_in tenantID (performed_of tenantID projectID d)) (wk_performed_steps d)) d);
    (fun d => with_performed (wk_performed_cycles d)
       (rows_without (performed_in tenantID (performed_of tenantID projectID d)) (wk_performed_tests d))
       (wk_performed_steps d) d);
    (fun d => with_performed
       (rows_without (performed_in tenantID (cycles_of tenantID projectID d)) (wk_performed_cycles d))
       (wk_performed_tests d) (wk_performed_steps d) d);
    clear_table TestCycleR tenantID projectID;
    clear_table EnvironmentR tenantID projectID;
    clear_table PluginR tenantID projectID;
    clear_table StepR tenantID projectID;
    clear_table TestR tenantID projectID;
    (fun d => set_projects (rows_without (owns tenantID projectID) (at_projects (wk_accounts d)))
       (wk_nextProject d) d) ].

(** The loop over the statements. *)
Fixpoint delete_all (l : list (WorkTables -> WorkTables)) : R unit :=
  match l with
  | [] => ret tt
  | f :: l' => do! exec "delete browser project data" f; delete_all l'
  end.

Definition DeleteProject (tenantID projectID : Z) : R unit :=
  transaction "start delete browser project" "commit delete browser project" (
    let! exists_ := query "lock browser project"
      (fun d => existsb (owns tenantID projectID) (at_projects (wk_accounts d))) in
    do! guard exists_ ErrNotFound;
    delete_all (deletions tenantID projectID)).

(** ** Documents *)

(** [stepConfig] and [envConfig]: nil is the empty object; encoding a decoded document
    does not fail. *)
Definition stepConfig (v : json) : string := match v with JNull => "{}" | _ => marshal v end.
Definition envConfig : json -> string := stepConfig.

(** What reading a config gives: a step's that does not decode is an error, a plugin's is
    dropped; a null leaves nil.  (A number that does not fit a float64 counts as a
    document that does not decode.) *)
Definition read_step_config (config : option string) : option json :=
  match config with
  | None => Some (JObj [])
  | Some s => if String.eqb s "" then Some (JObj []) else unmarshalAny s
  end.

Definition read_plugin_code (code : option string) : json :=
  match code with
  | None => JObj []
  | Some s => match unmarshalAny s with Some v => v | None => JObj [] end
  end.

Definition read_environment_config (config : option string) : json :=
  match config with
  | None => JObj []
  | Some s => match unmarshalAny s with Some v => redactEnvironment v | None => JObj [] end
  end.

Definition scan_failed (op : string) : error := DatabaseFailure op.

(** ** Steps, plugins and environments *)
Definition create_resource (op : string) (k : resource) (actor : User) (input : ResourceInput) (config : string)
    (order : Z) : R unit :=
  do! ensureBrowserProject (activeTenant actor) (ri_IDProject input);
  let! _ := exec_refusable op
    (insert_resource k (ri_Name input) (ri_Description input) config order (ri_IDProject input) (activeTenant actor)) in
  ret tt.

Definition change_resource (op : string) (k : resource) (actor : User) (projectID id : Z)
    (name description config : option (string * string)) : R unit :=
  let keep (x : option (string * string)) : option (option string) :=
    match x with
    | None => Some None
    | Some (column, text) => s ← kept (ResourcesT k) column text; Some (Some s)
    end in
  let! affected := exec_refusable op (fun d =>
    name ← keep name; description ← keep description; config ← keep config;
    Some (update_resource k (activeTenant actor) projectID id (set_resource name description config) d)) in
  requireAffectedRows affected.

Definition remove_resource (op : string) (k : resource) (actor : User) (projectID id : Z) : R unit :=
  let! affected := exec_count op (delete_resource k (activeTenant actor) projectID id) in
  requireAffectedRows affected.

Definition get_resource {A} (op : string) (k : resource) (scan : ResourceRow -> option A) (actor : User)
    (projectID id : Z) : R A :=
  let! row := query op (select_resource k (activeTenant actor) projectID id) in
  match row with
  | None => fail ErrNotFound
  | Some r => match scan r with None => fail (scan_failed op) | Some a => ret a end
  end.

(** [ORDER BY id] without a page, for plugins and environments. *)
Definition list_all {A} (op : string) (k : resource) (scan : ResourceRow -> option A) (actor : User)
    (projectID : Z) : R (list A) :=
  let! rows := query op (fun d =>
    order_by (fun a b => rs_id a <=? rs_id b)
      (List.filter (in_project (activeTenant actor) projectID) (rt_rows (table_of k d)))) in
  match scan_all scan rows with None => fail (scan_failed op) | Some l => ret l end.

Definition scan_step_detail (r : ResourceRow) : option StepDetail :=
  description ← rs_description r; config ← read_step_config (rs_config r);
  Some {| sd_ID := rs_id r; sd_Name := rs_name r; sd_Description := description; sd_Config := config;
          sd_IDProject := rs_idProject r; sd_Order := rs_order r |}.

Definition scanBrowserPlugin (r : ResourceRow) : option PluginDetail :=
  description ← rs_description r;
  Some {| pd_ID := rs_id r; pd_Name := rs_name r; pd_Description := description;
          pd_Code := read_plugin_code (rs_config r); pd_IDProject := rs_idProject r |}.

Definition scanBrowserEnvironment (r : ResourceRow) : option EnvironmentDetail :=
  description ← rs_description r;
  Some {| ed_ID := rs_id r; ed_Code := rs_name r; ed_Description := description;
          ed_Config := read_environment_config (rs_config r); ed_IDProject := rs_idProject r |}.

Definition CreateStep (actor : User) (input : StepInput) : R unit :=
  create_resource "create browser step" StepR actor
    {| ri_IDProject := ri_IDProject input; ri_ID := ri_ID input; ri_Name := trimSpace (ri_Name input);
       ri_Description := ri_Description input; ri_Config := ri_Config input |}
    (stepConfig (ri_Config input)) 9999999.

Definition UpdateStep (actor : User) (input : StepInput) : R unit :=
  change_resource "update browser step" StepR actor (ri_IDProject input) (ri_ID input)
    (Some ("name", ri_Name input)) (Some ("description", ri_Description input))
    (Some ("config", stepConfig (ri_Config input))).

Definition DeleteStep (actor : User) (projectID stepID : Z) : R unit :=
  remove_resource "delete browser step" StepR actor projectID stepID.

Definition GetBrowserStep (actor : User) (projectID stepID : Z) : R StepDetail :=
  get_resource "show browser step" StepR scan_step_detail actor projectID stepID.

Definition CreateBrowserPlugin (actor : User) (input : PluginInput) : R unit :=
  create_resource "create browser plugin" PluginR actor input (marshal (ri_Config input)) 0.

Definition UpdateBrowserPlugin (actor : User) (input : PluginInput) : R unit :=
  change_resource "update browser plugin" PluginR actor (ri_IDProject input) (ri_ID input)
    None (Some ("description", ri_Description input)) (Some ("code", marshal (ri_Config input))).

Definition DeleteBrowserPlugin (actor : User) (projectID pluginID : Z) : R unit :=
  remove_resource "delete browser plugin" PluginR actor projectID pluginID.

Definition ListBrowserPlugins (actor : User) (projectID : Z) : R (list PluginDetail) :=
  list_all "list browser plugins" PluginR scanBrowserPlugin actor projectID.

Definition GetBrowserPlugin (actor : User) (projectID pluginID : Z) : R PluginDetail :=
  get_resource "show browser plugin" PluginR scanBrowserPlugin actor projectID pluginID.

Definition CreateEnvironment (actor : User) (input : EnvironmentInput) : R unit :=
  create_resource "create browser environment" EnvironmentR actor input (envConfig (ri_Config input)) 0.

Definition UpdateEnvironment (actor : User) (input : EnvironmentInput) : R unit :=
  change_resource "update browser environment" EnvironmentR actor (ri_IDProject input) (ri_ID input)
    (Some ("code", ri_Name input)) (Some ("description", ri_Description input))
    (Some ("config", envConfig (ri_Config input))).

Definition DeleteEnvironment (actor : User) (projectID environmentID : Z) : R unit :=
  remove_resource "delete browser environment" EnvironmentR actor projectID environmentID.

Definition ListBrowserEnvironments (actor : User) (projectID : Z) : R (list EnvironmentDetail) :=
  list_all "list browser environments" EnvironmentR scanBrowserEnvironment actor projectID.

Definition GetBrowserEnvironment (actor : User) (projectID environmentID : Z) : R EnvironmentDetail :=
  get_resource "show browser environment" EnvironmentR scanBrowserEnvironment actor projectID environmentID.

(** ** Versions of test cycles and tests *)

(** The greatest version of an asset, NULL when it has none. *)
Definition versions_of (tenantID : Z) (assetType : string) (assetID : Z) (d : WorkTables) : list VersionRow :=
  List.filter (fun v => (vr_idCostumer v =? tenantID) && String.eqb (vr_assetType v) assetType
                        && (vr_assetId v =? assetID)) (wk_versions d).

Definition max_version (l : list VersionRow) : option Z :=
  match map vr_version l with
  | [] => None
  | v :: vs => Some (fold_left Z.max vs v)
  end.

(** [json.Marshal] of a map: the members in the order of their names. *)
Definition members_text (l : list (string * string)) : string :=
  of_chars ("{"%char :: comma_separated
    (map (fun m => (marshal_string (fst m) ++ ":"%char :: chars (snd m))%list) l) ++ ["}"%char])%list.

Definition text_member (name value : string) : string * string := (name, of_chars (marshal_string value)).
Definition int_member (name : string) (value : Z) : string * string := (name, pretty value).

Definition asset_snapshot (id : Z) (name description config : string) (projectID tenantID : Z) : string :=
  members_text [text_member "config" config; text_member "description" description; int_member "id" id;
                int_member "idCostumer" tenantID; int_member "idProject" projectID; text_member "name" name].

Definition recordAssetVersion (actor : User) (assetType : string) (assetID projectID : Z)
    (reason snapshot : string) : R unit :=
  let! current := query "read browser asset version"
    (fun d => max_version (versions_of (activeTenant actor) assetType assetID d)) in
  let next := match current with None => 1 | Some v => wrap64 (v + 1) end in
  exec "record browser asset version" (fun d =>
    with_versions (wk_versions d ++
      [{| vr_idCostumer := activeTenant actor; vr_idProject := projectID; vr_assetType := assetType;
          vr_assetId := assetID; vr_version := next; vr_actorUserId := u_ID actor; vr_reason := reason;
          vr_snapshot := snapshot |}]) d).

(** ** Test cycles and tests *)

(** CreateTestCycle and CreateTest: a row and its first version, in a transaction. *)
Definition create_asset (begin_ op commit : string) (k : resource) (assetType : string) (actor : User)
    (name description config : string) (projectID : Z) : R unit :=
  do! ensureBrowserProject (activeTenant actor) projectID;
  transaction begin_ commit (
    let! id := exec_refusable op (insert_resource k name description config 0 projectID (activeTenant actor)) in
    recordAssetVersion actor assetType id projectID "asset.created"
      (asset_snapshot id name description config projectID (activeTenant actor))).

Definition CreateTestCycle (actor : User) (input : TestCycleCreate) : R unit :=
  create_asset "start browser test cycle create" "create browser test cycle" "commit browser test cycle create"
    TestCycleR "test_cycle" actor (cyc_Name input) (cyc_Description input) (cyc_Config input) (cyc_IDProject input).

Definition CreateTest (actor : User) (input : TestCreate) : R unit :=
  create_asset "start browser test create" "create browser test" "commit browser test create"
    TestR "test" actor (tec_Name input) (tec_Description input) (tec_Config input) (tec_IDProject input).

(** The join with projects of GetTestCycle and GetTest. *)
Definition project_exists (tenantID projectID : Z) (d : WorkTables) : bool :=
  existsb (owns tenantID projectID) (at_projects (wk_accounts d)).

Definition get_asset {A} (op : string) (k : resource) (scan : ResourceRow -> option A) (actor : User)
    (projectID id : Z) : R A :=
  let! row := query op (fun d =>
    if project_exists (activeTenant actor) projectID d
    then select_resource k (activeTenant actor) projectID id d else None) in
  match row with
  | None => fail ErrNotFound
  | Some r => match scan r with None => fail (scan_failed op) | Some a => ret a end
  end.

Definition scan_cycle_detail (r : ResourceRow) : option TestCycleDetail :=
  description ← rs_description r; config ← rs_config r;
  Some {| tcd_ID := rs_id r; tcd_Name := rs_name r; tcd_Description := description; tcd_Config := config;
          tcd_IDProject := rs_idProject r |}.

Definition scan_test_detail (r : ResourceRow) : option TestDetail :=
  description ← rs_description r; config ← rs_config r;
  Some {| tsd_ID := rs_id r; tsd_Name := rs_name r; tsd_Description := description; tsd_Config := config;
          tsd_IDProject := rs_idProject r |}.

Definition GetBrowserTestCycle : User -> Z -> Z -> R TestCycleDetail :=
  get_asset "load browser test cycle" TestCycleR scan_cycle_detail.
Definition GetBrowserTest : User -> Z -> Z -> R TestDetail :=
  get_asset "load browser test" TestR scan_test_detail.

(** UpdateTestCycle and UpdateTest: what the snapshot takes from the row ([scan]), the
    update of the description (when there is one) and the config, and a version. *)
Definition update_asset (begin_ load op commit : string) (k : resource) (assetType : string) (actor : User)
    (projectID id : Z) (scan : ResourceRow -> option (string * string)) (description : option string)
    (config : string) : R unit :=
  transaction begin_ commit (
    let! row := query load (select_resource k (activeTenant actor) projectID id) in
    match row with
    | None => fail ErrNotFound
    | Some r =>
        match scan r with
        | None => fail (scan_failed load)
        | Some (name, stored) =>
            do! change_resource op k actor projectID id None
                  ((fun s => ("description", s)) <$> description) (Some ("config", config));
            recordAssetVersion actor assetType id projectID "asset.updated"
              (asset_snapshot id name stored config projectID (activeTenant actor))
        end
    end).

Definition UpdateTestCycle (actor : User) (input : TestCycleUpdate) : R unit :=
  update_asset "start browser test cycle update" "load browser test cycle for update" "update browser test cycle"
    "commit browser test cycle update" TestCycleR "test_cycle" actor (cyu_IDProject input) (cyu_ID input)
    (fun r => Some (rs_name r, cyu_Description input)) (Some (cyu_Description input)) (cyu_Config input).

Definition UpdateTest (actor : User) (input : TestUpdate) : R unit :=
  update_asset "start browser test update" "load browser test for update" "update browser test"
    "commit browser test update" TestR "test" actor (teu_IDProject input) (teu_ID input)
    (fun r => description ← rs_description r; Some (rs_name r, description)) None (teu_Config input).

(** ** Reordering *)

(** [input.Offset+position] is an [int]. *)
Fixpoint reorder_loop (actor : User) (projectID : Z) (position : Z) (l : list Z) : R unit :=
  match l with
  | [] => ret tt
  | id :: l' =>
      let! affected := exec_count "reorder browser step"
        (update_resource StepR (activeTenant actor) projectID id (set_order position)) in
      do! requireAffectedRows affected;
      reorder_loop actor projectID (wrap64 (position + 1)) l'
  end.

Definition ReorderSteps (actor : User) (input : StepReorder) : R unit :=
  transaction "start browser step reorder" "commit browser step reorder" (
    do! ensureBrowserProject (activeTenant actor) (sro_IDProject input);
    reorder_loop actor (sro_IDProject input) (sro_Offset input) (sro_Order input)).

(** ** Import *)

(** [json.Unmarshal] into a [[]map[string]any]: the elements, a null being a nil map;
    [None] is an error or no element. *)
Definition imported_steps (text : string) : option (list json) :=
  match unmarshalAny text with
  | Some (JArr l) =>
      if forallb (fun v => match v with JObj _ | JNull => true | _ => false end) l
      then match l with [] => None | _ => Some l end
      else None
  | _ => None
  end.

Definition underscored (s : string) : string := replaceByte " "%char "_" s.

Fixpoint import_steps (actor : User) (projectID : Z) (l : list json) : R (list string) :=
  match l with
  | [] => ret []
  | v :: l' =>
      let trimmedName := trimSpace (str_or_empty (jidx (obj_or_empty v) "name")) in
      let! id := exec_refusable "create browser imported step"
        (insert_resource StepR (underscored trimmedName) trimmedName (marshal v) 9999999 projectID
           (activeTenant actor)) in
      let! rest := import_steps actor projectID l' in
      ret (members_text [text_member "description" trimmedName; int_member "id" id;
                         text_member "name" (underscored trimmedName)] :: rest)
  end.

Definition ImportTest (actor : User) (input : TestImport) : R unit :=
  match imported_steps (tim_Import input) with
  | None => fail ErrNotFound
  | Some l =>
      transaction "start browser test import" "commit browser test import" (
        do! ensureBrowserProject (activeTenant actor) (tim_IDProject input);
        let! config := import_steps actor (tim_IDProject input) l in
        let! _ := exec_refusable "create browser imported test"
          (insert_resource TestR (tim_Name input) (tim_Description input)
             (of_chars ("["%char :: comma_separated (map chars config) ++ ["]"%char])%list) 0
             (tim_IDProject input) (activeTenant actor)) in
        ret tt)
  end.

(** ** Lists *)
Definition resourceSortColumn (sort : string) : string :=
  if existsb (String.eqb sort) ["name"; "description"; "created_at"; "updated_at"; "order"] then sort else "id".

(** ORDER BY a column: the order of steps only, which the other tables do not have. *)
Definition resource_cell (column : string) (r : ResourceRow) : cell :=
  if String.eqb column "name" then CText (rs_name r)
  else if String.eqb column "description" then match rs_description r with Some s => CText s | None => CNull end
  else if String.eqb column "created_at" then match rs_created_at r with Some t => CTime t | None => CNull end
  else if String.eqb column "updated_at" then match rs_updated_at r with Some t => CTime t | None => CNull end
  else if String.eqb column "order" then CInt (rs_order r)
  else CInt (rs_id r).

Definition resource_le (q : ResourceQuery) (a b : ResourceRow) : bool :=
  directed (wq_Direction q)
    (fun a b => cell_le (resource_cell (resourceSortColumn (wq_Sort q)) a)
                        (resource_cell (resourceSortColumn (wq_Sort q)) b)) a b.

(** [resourceWhere]. *)
Definition resource_matches (tenantID : Z) (q : ResourceQuery) (r : ResourceRow) : bool :=
  in_project tenantID (wq_ProjectID q) r
  && (if String.eqb (wq_Search q) "" then true
      else let pattern := "%" +:+ boundedSearch (wq_Search q) +:+ "%" in
           like (rs_name r) pattern
           || match rs_description r with Some s => like s pattern | None => false end)
  && match wq_FilterIDs q with [] => true | ids => existsb (Z.eqb (rs_id r)) ids end.

Definition select_page (k : resource) (tenantID : Z) (q : ResourceQuery) (d : WorkTables)
  : option (list ResourceRow) :=
  if negb (bool_decide (k = StepR)) && String.eqb (resourceSortColumn (wq_Sort q)) "order" then None
  else
    let rows := order_by (resource_le q) (List.filter (resource_matches tenantID q) (rt_rows (table_of k d))) in
    if wq_Paged q then page_of (wq_Page q) (wq_PageSize q) rows else Some rows.

Definition list_resources {A} (op : string) (k : resource) (scan : ResourceRow -> option A) (actor : User)
    (q : ResourceQuery) : R (ResourcePage A) :=
  do! ensureBrowserProject (activeTenant actor) (wq_ProjectID q);
  let! total := query "count browser resources" (fun d =>
    Z.of_nat (length (List.filter (resource_matches (activeTenant actor) q) (rt_rows (table_of k d))))) in
  let! rows := query_page op (select_page k (activeTenant actor) q) in
  match scan_all scan rows with
  | None => fail (scan_failed op)
  | Some items => ret (items, pageMeta (wq_Page q) (wq_PageSize q) total (wq_Sort q) (wq_Direction q))
  end.

Definition scan_cycle_item (r : ResourceRow) : option TestCycleItem :=
  description ← rs_description r;
  Some {| tci_ID := rs_id r; tci_Name := rs_name r; tci_Description := description;
          tci_CreatedAt := rs_created_at r; tci_UpdatedAt := rs_updated_at r |}.
Definition scan_test_item (r : ResourceRow) : option TestItem :=
  description ← rs_description r;
  Some {| tsi_ID := rs_id r; tsi_Name := rs_name r; tsi_Description := description;
          tsi_CreatedAt := rs_created_at r; tsi_UpdatedAt := rs_updated_at r |}.
Definition scan_step_item (r : ResourceRow) : option StepListItem :=
  description ← rs_description r;
  Some {| sli_ID := rs_id r; sli_Name := rs_name r; sli_Description := description; sli_Order := rs_order r |}.

Definition ListTestCycles : User -> ResourceQuery -> R (ResourcePage TestCycleItem) :=
  list_resources "list browser test cycles" TestCycleR scan_cycle_item.
Definition ListTests : User -> ResourceQuery -> R (ResourcePage TestItem) :=
  list_resources "list browser tests" TestR scan_test_item.
Definition ListStepsForReorder : User -> ResourceQuery -> R (ResourcePage StepListItem) :=
  list_resources "list browser steps after reorder" StepR scan_step_item.
End Repository.
