(* ===== verification/WorkspaceHandlers.v ===== *)
(** * Projects and their resources: the routes

    internal/browserauth/admin.go: projects, environments, plugins, test cycles, steps and
    tests, and the routes of internal/app/router.go that lead to them.  A mutation ends
    with the listing of its resource. *)

From stdpp Require Import pretty.
From S2P Require Import Prelude GoStrings GoTime Json JsonText Redaction Effects Http Contracts AccountTables Sessions Accounts Paging Sql.
From S2P Require Import Workspace.

(** ** Responses *)
Inductive work_payload :=
| WSession (p : session_payload)
| WMessage (text : string)
| WErrors (errors : list (string * list string))
| WProjects (l : list Project)
| WProject (p : Project)
| WEnvironments (l : list EnvironmentDetail)
| WEnvironment (e : EnvironmentDetail)
| WPlugins (l : list PluginDetail)
| WPlugin (p : PluginDetail)
| WTestCycles (l : list TestCycleItem)
| WTestCyclePage (p : ResourcePage TestCycleItem)
| WTestCycle (c : TestCycleDetail)
| WTests (l : list TestItem)
| WTestPage (p : ResourcePage TestItem)
| WTest (t : TestDetail)
| WSteps (l : list StepListItem)
| WStepPage (p : ResourcePage StepListItem)
| WStep (s : StepDetail)
| WStatus (status : string).

Notation wreply := (reply_of work_payload).

Definition session_reply (r : sreply) : wreply := Reply (rp_status r) (rp_cookies r) (WSession (rp_body r)).
Definition wk_notFound : wreply := written 404 (WMessage "Not found.").
Definition wk_failed : wreply := session_reply internalError.
Definition wk_errors (l : list (string * list string)) : wreply := written 422 (WErrors l).
Definition wk_error (field text : string) : wreply := wk_errors [(field, [text])].

(** ** Bodies

    [decodeJSON]: unknown members are errors; [None] is an error. *)
Definition decodeJSON {A} (fields : list (string * setter A)) (zero : A) (r : Request) : option A :=
  match decode true fields zero (rq_body r) with Decoded b => Some b | DecodedEOF | DecodeError => None end.

(** The members of the bodies of all these routes. *)
Record ResourceBody := {
  bd_IDProject : Z; bd_Name : string; bd_Description : string; bd_Document : json; bd_Text : string;
  bd_Offset : Z; bd_Order : list Z }.

Definition zero_resource : ResourceBody :=
  {| bd_IDProject := 0; bd_Name := ""; bd_Description := ""; bd_Document := JNull; bd_Text := "";
     bd_Offset := 0; bd_Order := [] |}.

Definition set_bd_project (z : Z) (b : ResourceBody) : ResourceBody :=
  {| bd_IDProject := z; bd_Name := bd_Name b; bd_Description := bd_Description b; bd_Document := bd_Document b;
     bd_Text := bd_Text b; bd_Offset := bd_Offset b; bd_Order := bd_Order b |}.
Definition set_bd_name (s : string) (b : ResourceBody) : ResourceBody :=
  {| bd_IDProject := bd_IDProject b; bd_Name := s; bd_Description := bd_Description b; bd_Document := bd_Document b;
     bd_Text := bd_Text b; bd_Offset := bd_Offset b; bd_Order := bd_Order b |}.
Definition set_bd_description (s : string) (b : ResourceBody) : ResourceBody :=
  {| bd_IDProject := bd_IDProject b; bd_Name := bd_Name b; bd_Description := s; bd_Document := bd_Document b;
     bd_Text := bd_Text b; bd_Offset := bd_Offset b; bd_Order := bd_Order b |}.
Definition set_bd_document (v : json) (b : ResourceBody) : ResourceBody :=
  {| bd_IDProject := bd_IDProject b; bd_Name := bd_Name b; bd_Description := bd_Description b; bd_Document := v;
     bd_Text := bd_Text b; bd_Offset := bd_Offset b; bd_Order := bd_Order b |}.
Definition set_bd_text (s : string) (b : ResourceBody) : ResourceBody :=
  {| bd_IDProject := bd_IDProject b; bd_Name := bd_Name b; bd_Description := bd_Description b;
     bd_Document := bd_Document b; bd_Text := s; bd_Offset := bd_Offset b; bd_Order := bd_Order b |}.
Definition set_bd_offset (z : Z) (b : ResourceBody) : ResourceBody :=
  {| bd_IDProject := bd_IDProject b; bd_Name := bd_Name b; bd_Description := bd_Description b;
     bd_Document := bd_Document b; bd_Text := bd_Text b; bd_Offset := z; bd_Order := bd_Order b |}.
Definition set_bd_order (l : list Z) (b : ResourceBody) : ResourceBody :=
  {| bd_IDProject := bd_IDProject b; bd_Name := bd_Name b; bd_Description := bd_Description b;
     bd_Document := bd_Document b; bd_Text := bd_Text b; bd_Offset := bd_Offset b; bd_Order := l |}.

Definition project_field : string * setter ResourceBody := ("idProject", to_int set_bd_project).
Definition text_fields : list (string * setter ResourceBody) :=
  [("name", to_string set_bd_name); ("description", to_string set_bd_description)].

Definition create_step_fields : list (string * setter ResourceBody) :=
  (project_field :: text_fields ++ [("config", to_any set_bd_document)])%list.
Definition update_step_fields : list (string * setter ResourceBody) :=
  (text_fields ++ [("config", to_any set_bd_document)])%list.
Definition create_plugin_fields : list (string * setter ResourceBody) :=
  (project_field :: text_fields ++ [("code", to_any set_bd_document)])%list.
Definition update_plugin_fields : list (string * setter ResourceBody) :=
  [("description", to_string set_bd_description); ("code", to_any set_bd_document)].
Definition create_environment_fields : list (string * setter ResourceBody) :=
  [project_field; ("code", to_string set_bd_name); ("description", to_string set_bd_description);
   ("config", to_any set_bd_document)].
Definition update_environment_fields : list (string * setter ResourceBody) :=
  [("code", to_string set_bd_name); ("description", to_string set_bd_description);
   ("config", to_any set_bd_document)].
Definition create_asset_fields : list (string * setter ResourceBody) :=
  (text_fields ++ [("config", to_string set_bd_text); project_field])%list.
Definition update_cycle_fields : list (string * setter ResourceBody) :=
  [("description", to_string set_bd_description); ("config", to_string set_bd_text)].
Definition update_test_fields : list (string * setter ResourceBody) := [("config", to_string set_bd_text)].
Definition import_fields : list (string * setter ResourceBody) :=
  (text_fields ++ [("import", to_string set_bd_text); project_field])%list.

(** The identifier of an element of [order]: an object with an integer id and no other
    member; null leaves the zero value. *)
Definition order_element (v : json) : option Z :=
  match v with
  | JNull => Some 0
  | JObj d =>
      fold_left (fun acc kv =>
        z ← acc;
        if String.eqb (foldName (fst kv)) (foldName "id") then
          match snd kv with JNum x => f_int x | JNull => Some z | _ => None end
        else None) d (Some 0)
  | _ => None
  end.

Fixpoint order_elements (l : list json) : option (list Z) :=
  match l with
  | [] => Some []
  | v :: l' => z ← order_element v; zs ← order_elements l'; Some (z :: zs)
  end.

Definition reorder_fields : list (string * setter ResourceBody) :=
  [("offset", to_int set_bd_offset);
   ("order", fun v b => match fl_value v with
                        | JArr l => (fun zs => set_bd_order zs b) <$> order_elements l
                        | JNull => Some (set_bd_order [] b)
                        | _ => None
                        end)].

(** ** Imported steps *)
Definition isPostmanPayload (payload : dict json) : bool :=
  existsb (fun field => match jidx payload field with
                        | JStr value => contains (toLower value) "postman"
                        | _ => false
                        end) ["editorType"; "runtime"; "stepType"; "type"; "actionType"].

(** A collection may be nested under its own name any number of times. *)
Fixpoint isPostmanCollectionPayload (payload : json) : bool :=
  match payload with
  | JObj object =>
      let nested := (fix find (d : dict json) : option bool :=
        match d with
        | [] => None
        | (k, v) :: d' =>
            if String.eqb k "collection"
            then match v with JObj _ => Some (isPostmanCollectionPayload v) | _ => None end
            else find d'
        end) object in
      match nested with
      | Some b => b
      | None => match jidx object "info", jidx object "item" with
                | JObj _, JArr _ => true
                | _, _ => false
                end
      end
  | _ => false
  end.

Definition containsExecutablePostmanCollection (step : dict json) : bool :=
  match jidx step "steps" with
  | JArr actions =>
      existsb (fun action => match action with
                             | JObj d => isPostmanPayload d && isPostmanCollectionPayload (jidx d "collection")
                             | _ => false
                             end) actions
  | _ => false
  end.

(** A text that is not blank. *)
Definition named (v : json) : bool :=
  match v with JStr s => negb (String.eqb (trimSpace s) "") | _ => false end.

Definition checked_step (v : json) : option string :=
  let step := obj_or_empty v in
  if negb (named (jidx step "name")) then Some "Every imported step must have a non-empty name."
  else match jidx step "steps" with
       | JArr (a :: actions) =>
           if negb (forallb (fun action => match action with
                                           | JObj d => named (jidx d "stepType")
                                           | _ => false
                                           end) (a :: actions))
           then Some "Every imported action must include a stepType."
           else if isPostmanPayload step && negb (containsExecutablePostmanCollection step)
           then Some "Every imported Postman step must include a postman_collection action with a collection payload."
           else None
       | _ => Some "Every imported Idelium step must include at least one executable action."
       end.

(** The first message, when there is one. *)
Fixpoint first_message (l : list json) : option string :=
  match l with
  | [] => None
  | v :: l' => match checked_step v with Some m => Some m | None => first_message l' end
  end.

(** ** Queries *)
Definition set_path (r : Request) (name value : string) : Request :=
  {| rq_path := dset name value (rq_path r); rq_header := rq_header r; rq_query := rq_query r;
     rq_cookie := rq_cookie r; rq_body := rq_body r |}.

Definition parseResourceQuery (r : Request) (projectID : Z) (defaultSort : string) : ResourceQuery :=
  let '(page, pageSet) := positiveQueryInt r "page" 1 in
  let '(pageSize, pageSizeSet) := positiveQueryInt r "pageSize" 25 in
  let sort := queryValue r "sort" in
  let ids := queryValue r "filter[id]" in
  {| wq_ProjectID := projectID; wq_Page := page;
     wq_PageSize := if 100 <? pageSize then 100 else pageSize;
     wq_Paged := pageSet || pageSizeSet;
     wq_Search := trimSpace (queryValue r "search");
     wq_Sort := if String.eqb sort "" then defaultSort else sort;
     wq_Direction := if String.eqb (toLower (queryValue r "direction")) "desc" then "desc" else "asc";
     wq_FilterIDs :=
       if String.eqb ids "" then []
       else omap (fun raw => match parseInt (trimSpace raw) with
                             | Some id => if 0 <? id then Some id else None
                             | None => None
                             end) (split ","%char ids) |}.

(** [validateImportedSteps]: the message of its error. *)
Definition validateImportedSteps `{F : Floats} (rawImport : string) : option string :=
  match imported_steps rawImport with
  | None => Some "The import field must contain a non-empty JSON array of Idelium steps."
  | Some l => first_message l
  end.

(** ** The handlers *)
Section Handlers.
Context `{S : MySQL} `{F : Floats} `{C : Columns} (toUpper : string -> string) (now : time).
Notation H := (M WorkTables wreply).

Definition on_accounts_of {A} (m : M AccountTables A) : M WorkTables A := zoom wk_accounts with_wk_accounts m.

(** [authenticatedUser] and [requireCapability]. *)
Definition as_user (r : Request) (k : User -> H) : H :=
  let! s := on_accounts_of (authenticatedSession now r) in
  match s with inl response => ret (session_reply response) | inr (u, _) => k u end.

Definition as_capable (r : Request) (capability : string) (k : User -> H) : H :=
  as_user r (fun user =>
    if existsb (String.eqb capability) (capabilitiesForRole (u_Role user)) then k user
    else ret (session_reply forbidden)).

Definition path_id (r : Request) (name : string) (k : Z -> H) : H :=
  match parsePathID (pathValue r name) with None => ret wk_notFound | Some id => k id end.

(** [ErrNotFound] is 404, any other error 500. *)
Definition hidden_or_500 (e : error) : wreply := if bool_decide (e = ErrNotFound) then wk_notFound else wk_failed.

Definition show {A} (m : M WorkTables A) (reply : A -> work_payload) : H :=
  let! a := attempt m in
  ret (match a with Ok a => written 200 (reply a) | Err e => hidden_or_500 e end).

(** A mutation, what its errors answer, and the listing that follows it. *)
Definition followed_by (m : M WorkTables unit) (refused : error -> wreply) (k : H) : H :=
  let! done := attempt m in
  match done with Ok _ => k | Err e => ret (refused e) end.

(** *** Projects *)
Definition Projects (r : Request) : H :=
  as_capable r "projects.read" (fun user =>
    let! projects := attempt (on_accounts_of (ListProjects (activeTenant user))) in
    ret (match projects with Ok l => written 200 (WProjects l) | Err _ => wk_failed end)).

Definition PostProject (r : Request) : H :=
  as_capable r "projects.manage" (fun user =>
    match decodeJSON text_fields zero_resource r with
    | None => ret (wk_error "name" "The name field is required.")
    | Some b =>
        if String.eqb (trimSpace (bd_Name b)) "" then ret (wk_error "name" "The name field is required.")
        else followed_by (CreateProject now (activeTenant user) (toUpper (trimSpace (bd_Name b)))
                         (trimSpace (bd_Description b))) (fun _ => wk_failed) (Projects r)
    end).

Definition PutProject (r : Request) : H :=
  as_capable r "projects.manage" (fun user =>
    path_id r "idProject" (fun id =>
      match decodeJSON text_fields zero_resource r with
      | None => ret (wk_error "name" "The name field is required.")
      | Some b =>
          if String.eqb (trimSpace (bd_Name b)) "" then ret (wk_error "name" "The name field is required.")
          else followed_by (UpdateProject now (activeTenant user) id (trimSpace (bd_Name b))
                           (trimSpace (bd_Description b))) hidden_or_500 (Projects r)
      end)).

Definition RemoveProject (r : Request) : H :=
  as_capable r "projects.manage" (fun user =>
    path_id r "idProject" (fun id =>
      followed_by (DeleteProject (activeTenant user) id) hidden_or_500 (Projects r))).

Definition ShowProject (r : Request) : H :=
  as_capable r "projects.read" (fun user =>
    path_id r "idProject" (fun id => show (GetProject (activeTenant user) id) WProject)).

(** *** Steps *)
Definition Steps (r : Request) : H :=
  as_capable r "resources.read" (fun user =>
    path_id r "idProject" (fun projectID =>
      show (ListStepsForReorder user (parseResourceQuery r projectID "id")) WStepPage)).

Definition resource_input (b : ResourceBody) (projectID id : Z) : ResourceInput :=
  {| ri_IDProject := projectID; ri_ID := id; ri_Name := trimSpace (bd_Name b);
     ri_Description := trimSpace (bd_Description b); ri_Config := bd_Document b |}.

Definition PostStep (r : Request) : H :=
  as_capable r "resources.manage" (fun user =>
    let refused := wk_error "name" "The name field is required." in
    match decodeJSON create_step_fields zero_resource r with
    | None => ret refused
    | Some b =>
        if (bd_IDProject b <? 1) || String.eqb (trimSpace (bd_Name b)) "" then ret refused
        else followed_by (CreateStep now user (resource_input b (bd_IDProject b) 0)) (fun _ => wk_failed) (Steps r)
    end).

Definition PutStep (r : Request) : H :=
  as_capable r "resources.manage" (fun user =>
    path_id r "idProject" (fun projectID => path_id r "step" (fun stepID =>
      let refused := wk_error "name" "The name field is required." in
      match decodeJSON update_step_fields zero_resource r with
      | None => ret refused
      | Some b =>
          if String.eqb (trimSpace (bd_Name b)) "" then ret refused
          else followed_by (UpdateStep now user (resource_input b projectID stepID)) hidden_or_500 (Steps r)
      end))).

Definition RemoveStep (r : Request) : H :=
  as_capable r "resources.manage" (fun user =>
    path_id r "idProject" (fun projectID =>
      let stepID := match parsePathID (pathValue r "environment") with
                    | Some id => Some id
                    | None => parsePathID (pathValue r "step")
                    end in
      match stepID with
      | None => ret wk_notFound
      | Some id => followed_by (DeleteStep user projectID id) hidden_or_500 (Steps r)
      end)).

Definition ShowStep (r : Request) : H :=
  as_capable r "resources.read" (fun user =>
    path_id r "idProject" (fun projectID => path_id r "step" (fun stepID =>
      show (GetBrowserStep user projectID stepID) WStep))).

Definition ReorderStepsRoute (r : Request) : H :=
  as_user r (fun user =>
    path_id r "idProject" (fun projectID =>
      let refused := wk_error "order" "The order field is required." in
      match decodeJSON reorder_fields zero_resource r with
      | None => ret refused
      | Some b =>
          if (length (bd_Order b) =? 0)%nat || (bd_Offset b <? 0) then ret refused
          else
            followed_by (ReorderSteps now user
                        {| sro_IDProject := projectID; sro_Offset := bd_Offset b; sro_Order := bd_Order b |})
              hidden_or_500
              (let query := parseResourceQuery r projectID "order" in
               let! page := attempt (ListStepsForReorder user query) in
               ret (match page with
                    | Err _ => wk_failed
                    | Ok page => written 200 (if negb (wq_Paged query) then WSteps (fst page) else WStepPage page)
                    end))
      end)).

(** *** Plugins *)
Definition Plugins (r : Request) : H :=
  as_capable r "resources.read" (fun user =>
    path_id r "idProject" (fun projectID =>
      let! l := attempt (ListBrowserPlugins user projectID) in
      ret (match l with Ok l => written 200 (WPlugins l) | Err _ => wk_failed end))).

Definition validPluginCode (v : json) : bool := match v with JObj (_ :: _) => true | _ => false end.

Definition plugin_refused : wreply := wk_error "code" "The plugin manifest must be a non-empty JSON object.".

Definition PostPlugin (r : Request) : H :=
  as_capable r "resources.manage" (fun user =>
    match decodeJSON create_plugin_fields zero_resource r with
    | None => ret plugin_refused
    | Some b =>
        if (bd_IDProject b <? 1) || String.eqb (trimSpace (bd_Name b)) "" || negb (validPluginCode (bd_Document b))
        then ret plugin_refused
        else followed_by (CreateBrowserPlugin now user (resource_input b (bd_IDProject b) 0)) (fun _ => wk_failed)
               (Plugins r)
    end).

Definition PutPlugin (r : Request) : H :=
  as_capable r "resources.manage" (fun user =>
    path_id r "idProject" (fun projectID => path_id r "plugin" (fun id =>
      match decodeJSON update_plugin_fields zero_resource r with
      | None => ret plugin_refused
      | Some b =>
          if negb (validPluginCode (bd_Document b)) then ret plugin_refused
          else followed_by (UpdateBrowserPlugin now user (resource_input b projectID id)) hidden_or_500 (Plugins r)
      end))).

Definition RemovePlugin (r : Request) : H :=
  as_capable r "resources.manage" (fun user =>
    path_id r "idProject" (fun projectID => path_id r "plugin" (fun id =>
      followed_by (DeleteBrowserPlugin user projectID id) hidden_or_500 (Plugins r)))).

Definition ShowPlugin (r : Request) : H :=
  as_capable r "resources.read" (fun user =>
    path_id r "idProject" (fun projectID => path_id r "plugin" (fun id =>
      show (GetBrowserPlugin user projectID id) WPlugin))).

(** *** Environments *)
Definition Environments (r : Request) : H :=
  as_capable r "resources.read" (fun user =>
    path_id r "idProject" (fun projectID =>
      let! l := attempt (ListBrowserEnvironments user projectID) in
      ret (match l with Ok l => written 200 (WEnvironments l) | Err _ => wk_failed end))).

Definition code_refused : wreply := wk_error "code" "The code field is required.".
Definition secret_refused : wreply :=
  wk_error "config" "Inline secrets are not allowed in environment configuration.".

Definition PostEnvironment (r : Request) : H :=
  as_capable r "resources.manage" (fun user =>
    match decodeJSON create_environment_fields zero_resource r with
    | None => ret code_refused
    | Some b =>
        if (bd_IDProject b <? 1) || String.eqb (trimSpace (bd_Name b)) "" then ret code_refused
        else if environmentHasInlineSecret (bd_Document b) then ret secret_refused
        else followed_by (CreateEnvironment now user (resource_input b (bd_IDProject b) 0)) (fun _ => wk_failed)
               (Environments r)
    end).

Definition PutEnvironment (r : Request) : H :=
  as_capable r "resources.manage" (fun user =>
    path_id r "idProject" (fun projectID => path_id r "environment" (fun id =>
      match decodeJSON update_environment_fields zero_resource r with
      | None => ret code_refused
      | Some b =>
          if String.eqb (trimSpace (bd_Name b)) "" then ret code_refused
          else if environmentHasInlineSecret (bd_Document b) then ret secret_refused
          else followed_by (UpdateEnvironment now user (resource_input b projectID id)) hidden_or_500 (Environments r)
      end))).

Definition RemoveEnvironment (r : Request) : H :=
  as_capable r "resources.manage" (fun user =>
    path_id r "idProject" (fun projectID => path_id r "environment" (fun id =>
      followed_by (DeleteEnvironment user projectID id) hidden_or_500 (Environments r)))).

Definition ShowEnvironment (r : Request) : H :=
  as_capable r "resources.read" (fun user =>
    path_id r "idProject" (fun projectID => path_id r "environment" (fun id =>
      show (GetBrowserEnvironment user projectID id) WEnvironment))).

(** *** Test cycles *)
Definition list_reply_of {A} (query : ResourceQuery) (m : M WorkTables (ResourcePage A))
    (items : list A -> work_payload) (paged : ResourcePage A -> work_payload) : H :=
  show m (fun page => if negb (wq_Paged query) then items (fst page) else paged page).

Definition TestCycles (r : Request) : H :=
  as_user r (fun user =>
    path_id r "idProject" (fun projectID =>
      let query := parseResourceQuery r projectID "id" in
      list_reply_of query (ListTestCycles user query) WTestCycles WTestCyclePage)).

(** An unknown project of a creation is an error of its field. *)
Definition project_refused (e : error) : wreply :=
  if bool_decide (e = ErrNotFound) then wk_error "idProject" "The selected id project is invalid." else wk_failed.

Definition PostTestCycle (r : Request) : H :=
  as_user r (fun user =>
    let refused := wk_errors [("name", ["The name field is required."]);
                              ("idProject", ["The id project field is required."])] in
    match decodeJSON create_asset_fields zero_resource r with
    | None => ret refused
    | Some b =>
        if String.eqb (trimSpace (bd_Name b)) "" || (bd_IDProject b <=? 0) then ret refused
        else followed_by (CreateTestCycle now user
                         {| cyc_Name := trimSpace (bd_Name b); cyc_Description := trimSpace (bd_Description b);
                            cyc_Config := bd_Text b; cyc_IDProject := bd_IDProject b |})
               project_refused (TestCycles (set_path r "idProject" (pretty (bd_IDProject b))))
    end).

(** [parseProjectResourcePath]. *)
Definition project_path (r : Request) (name : string) (k : Z -> Z -> H) : H :=
  path_id r "idProject" (fun projectID => path_id r name (fun id => k projectID id)).

Definition ShowTestCycle (r : Request) : H :=
  as_user r (fun user => project_path r "testcycle" (fun projectID cycleID =>
    show (GetBrowserTestCycle user projectID cycleID) WTestCycle)).

Definition PutTestCycle (r : Request) : H :=
  as_user r (fun user => project_path r "testcycle" (fun projectID cycleID =>
    match decodeJSON update_cycle_fields zero_resource r with
    | None => ret (wk_error "payload" "The request payload is invalid.")
    | Some b =>
        followed_by (UpdateTestCycle now user
                    {| cyu_ID := cycleID; cyu_IDProject := projectID; cyu_Description := bd_Description b;
                       cyu_Config := bd_Text b |}) hidden_or_500 (TestCycles r)
    end)).

(** *** Tests *)
Definition Tests (r : Request) : H :=
  as_user r (fun user =>
    path_id r "idProject" (fun projectID =>
      let query := parseResourceQuery r projectID "id" in
      list_reply_of query (ListTests user query) WTests WTestPage)).

Definition blank_text (s : string) : bool := String.eqb (trimSpace s) "".

Definition PostTest (r : Request) : H :=
  as_user r (fun user =>
    let refused := wk_errors [("name", ["The name field is required."]);
                              ("description", ["The description field is required."]);
                              ("config", ["The config field is required."]);
                              ("idProject", ["The id project field is required."])] in
    match decodeJSON create_asset_fields zero_resource r with
    | None => ret refused
    | Some b =>
        if blank_text (bd_Name b) || blank_text (bd_Description b) || blank_text (bd_Text b) || (bd_IDProject b <=? 0)
        then ret refused
        else followed_by (CreateTest now user
                         {| tec_Name := trimSpace (bd_Name b); tec_Description := trimSpace (bd_Description b);
                            tec_Config := bd_Text b; tec_IDProject := bd_IDProject b |})
               project_refused (Tests (set_path r "idProject" (pretty (bd_IDProject b))))
    end).

Definition ShowTest (r : Request) : H :=
  as_user r (fun user => project_path r "test" (fun projectID testID =>
    show (GetBrowserTest user projectID testID) WTest)).

Definition PutTest (r : Request) : H :=
  as_user r (fun user => project_path r "test" (fun projectID testID =>
    match decodeJSON update_test_fields zero_resource r with
    | None => ret (wk_error "config" "The config field is required.")
    | Some b =>
        if blank_text (bd_Text b) then ret (wk_error "config" "The config field is required.")
        else followed_by (UpdateTest now user {| teu_ID := testID; teu_IDProject := projectID; teu_Config := bd_Text b |})
               hidden_or_500 (Tests r)
    end)).

Definition PostImport (r : Request) : H :=
  as_user r (fun user =>
    let refused := wk_errors [("name", ["The name field is required."]);
                              ("description", ["The description field is required."]);
                              ("import", ["The import field is required."]);
                              ("idProject", ["The id project field is required."])] in
    match decodeJSON import_fields zero_resource r with
    | None => ret refused
    | Some b =>
        if blank_text (bd_Name b) || blank_text (bd_Description b) || blank_text (bd_Text b) || (bd_IDProject b <=? 0)
        then ret refused
        else match validateImportedSteps (bd_Text b) with
             | Some message => ret (wk_error "import" message)
             | None =>
                 followed_by (ImportTest now user
                             {| tim_Name := trimSpace (bd_Name b); tim_Description := trimSpace (bd_Description b);
                                tim_Import := bd_Text b; tim_IDProject := bd_IDProject b |})
                   project_refused (ret (written 200 (WStatus "ok")))
             end
    end).

(** ** The routes *)
Inductive work_route :=
| GetProjects | GetOneProject | CreateProjectRoute | UpdateProjectRoute | DeleteProjectRoute
| GetEnvironments | GetOneEnvironment | CreateEnvironmentRoute | UpdateEnvironmentRoute | DeleteEnvironmentRoute
| GetPlugins | GetOnePlugin | CreatePluginRoute | UpdatePluginRoute | DeletePluginRoute
| GetTestCycles | GetOneTestCycle | UpdateTestCycleRoute | CreateTestCycleRoute
| ReorderRoute | GetSteps | GetOneStep | CreateStepRoute | UpdateStepRoute | DeleteStepRoute
| GetTests | GetOneTest | UpdateTestRoute | CreateTestRoute | ImportRoute.

Definition serve_work (rt : work_route) : Request -> H :=
  match rt with
  | GetProjects => Projects
  | GetOneProject => ShowProject
  | CreateProjectRoute => PostProject
  | UpdateProjectRoute => PutProject
  | DeleteProjectRoute => RemoveProject
  | GetEnvironments => Environments
  | GetOneEnvironment => ShowEnvironment
  | CreateEnvironmentRoute => PostEnvironment
  | UpdateEnvironmentRoute => PutEnvironment
  | DeleteEnvironmentRoute => RemoveEnvironment
  | GetPlugins => Plugins
  | GetOnePlugin => ShowPlugin
  | CreatePluginRoute => PostPlugin
  | UpdatePluginRoute => PutPlugin
  | DeletePluginRoute => RemovePlugin
  | GetTestCycles => TestCycles
  | GetOneTestCycle => ShowTestCycle
  | UpdateTestCycleRoute => PutTestCycle
  | CreateTestCycleRoute => PostTestCycle
  | ReorderRoute => ReorderStepsRoute
  | GetSteps => Steps
  | GetOneStep => ShowStep
  | CreateStepRoute => PostStep
  | UpdateStepRoute => PutStep
  | DeleteStepRoute => RemoveStep
  | GetTests => Tests
  | GetOneTest => ShowTest
  | UpdateTestRoute => PutTest
  | CreateTestRoute => PostTest
  | ImportRoute => PostImport
  end.
End Handlers.
