(* ===== verification/WorkspaceFacts.v ===== *)
(** * Projects and their resources: the invariant and who changes what

    [governs t]: what a change on behalf of the customer [t] respects.  Rows of other
    customers, accounts and sessions stay, and so does the invariant [work_ok]. *)

From stdpp Require Import pretty sorting.
From S2P Require Import Prelude GoStrings GoTime Json JsonText Redaction Effects Http Contracts AccountTables Sessions Accounts Paging Sql.
From S2P Require Import Workspace.

(** ** Rows of other customers *)
Definition theirs {A} (owner : A -> Z) (t : Z) (l : list A) : list A :=
  List.filter (fun r => negb (owner r =? t)) l.

Section Theirs.
Context {A : Type} (owner : A -> Z) (t : Z).

Lemma theirs_app_own l r : owner r = t -> theirs owner t (l ++ [r]) = theirs owner t l.
Proof. intros E. unfold theirs. rewrite List.filter_app. cbn. by rewrite E, Z.eqb_refl, app_nil_r. Qed.

Lemma theirs_update (p : A -> bool) f l :
  (forall r, p r = true -> owner r = t) -> (forall r, owner (f r) = owner r) ->
  theirs owner t (map (fun r => if p r then f r else r) l) = theirs owner t l.
Proof.
  intros H K. unfold theirs. induction l as [|r l IH]; [done|]. cbn.
  destruct (p r) eqn:E; [|by rewrite IH]. by rewrite K, (H r E), Z.eqb_refl.
Qed.

Lemma theirs_without (p : A -> bool) l :
  (forall r, p r = true -> owner r = t) -> theirs owner t (rows_without p l) = theirs owner t l.
Proof.
  intros H. unfold theirs, rows_without. induction l as [|r l IH]; [done|]. cbn.
  destruct (p r) eqn:E; cbn; rewrite IH; [by rewrite (H r E), Z.eqb_refl|done].
Qed.
End Theirs.

(** Everything that does not belong to the customer [t] is the same. *)
Record foreign_kept (t : Z) (d d' : WorkTables) : Prop := {
  fk_accounts : with_projects [] (wk_accounts d') = with_projects [] (wk_accounts d);
  fk_archived : wk_archivedAt d' = wk_archivedAt d;
  fk_projects : theirs pr_idCostumer t (at_projects (wk_accounts d'))
                = theirs pr_idCostumer t (at_projects (wk_accounts d));
  fk_tables : forall k, theirs rs_idCostumer t (rt_rows (table_of k d'))
                        = theirs rs_idCostumer t (rt_rows (table_of k d));
  fk_versions : theirs vr_idCostumer t (wk_versions d') = theirs vr_idCostumer t (wk_versions d);
  fk_cycles : theirs pf_idCostumer t (wk_performed_cycles d') = theirs pf_idCostumer t (wk_performed_cycles d);
  fk_tests : theirs pf_idCostumer t (wk_performed_tests d') = theirs pf_idCostumer t (wk_performed_tests d);
  fk_steps : theirs pf_idCostumer t (wk_performed_steps d') = theirs pf_idCostumer t (wk_performed_steps d);
}.

(** ** The invariant *)

(** Identifiers are unique and below the next one, and every row belongs to a project of
    its customer. *)
Record resources_ok (projects : list ProjectRow) (t : ResourceTable) : Prop := {
  ro_ids : List.NoDup (map rs_id (rt_rows t));
  ro_next : List.Forall (fun r => rs_id r < rt_next t) (rt_rows t);
  ro_owned : List.Forall (fun r => existsb (owns (rs_idCostumer r) (rs_idProject r)) projects = true) (rt_rows t);
}.

Record projects_ok (d : WorkTables) : Prop := {
  po_ids : List.NoDup (map pr_id (at_projects (wk_accounts d)));
  po_next : List.Forall (fun p => pr_id p < wk_nextProject d) (at_projects (wk_accounts d));
}.

(** The versions of an asset are 1, 2, 3 and so on, in the order they were recorded. *)
Definition numbered (l : list VersionRow) : Prop :=
  map vr_version l = map Z.of_nat (seq 1 (length l)).

Record work_ok (d : WorkTables) : Prop := {
  wo_projects : projects_ok d;
  wo_tables : forall k, resources_ok (at_projects (wk_accounts d)) (table_of k d);
  wo_versions : forall t a id, numbered (versions_of t a id d);
}.

(** Fewer versions than a 64-bit integer counts. *)
Definition countable_versions (d : WorkTables) : Prop := Z.of_nat (length (wk_versions d)) <= int64_max.

Record governs (t : Z) (d d' : WorkTables) : Prop := {
  go_foreign : foreign_kept t d d';
  go_versions : (length (wk_versions d) <= length (wk_versions d'))%nat;
  go_ok : countable_versions d' -> work_ok d -> work_ok d';
}.

#[export] Instance foreign_kept_preorder t : PreOrder (foreign_kept t).
Proof.
  split; [intros d; by split|]. intros d1 d2 d3 H K.
  split; try intros k; (etransitivity; [apply K|apply H]).
Qed.

#[export] Instance governs_preorder t : PreOrder (governs t).
Proof.
  split; [intros d; split; [reflexivity|done|done]|].
  intros d1 d2 d3 [F1 V1 K1] [F2 V2 K2]. split; [by etransitivity|lia|]. intros B O.
  apply K2; [exact B|]. apply K1; [|exact O]. unfold countable_versions in *. lia.
Qed.

(** ** Tables *)
Lemma table_of_with k k' x d : table_of k (with_table k' x d) = if decide (k' = k) then x else table_of k d.
Proof. by destruct k, k'. Qed.

Lemma foreign_table t k x d :
  theirs rs_idCostumer t (rt_rows x) = theirs rs_idCostumer t (rt_rows (table_of k d)) ->
  foreign_kept t d (with_table k x d).
Proof.
  intros H. split; try done. intros k'. rewrite table_of_with. by destruct (decide (k = k')) as [->|].
Qed.

Lemma governs_table t k x d :
  theirs rs_idCostumer t (rt_rows x) = theirs rs_idCostumer t (rt_rows (table_of k d)) ->
  (resources_ok (at_projects (wk_accounts d)) (table_of k d) -> resources_ok (at_projects (wk_accounts d)) x) ->
  governs t d (with_table k x d).
Proof.
  intros H K. split; [by apply foreign_table|done|]. intros _ [[N P] T V]. split; [by split| |exact V].
  intros k'. rewrite table_of_with. change (wk_accounts (with_table k x d)) with (wk_accounts d).
  destruct (decide (k = k')) as [<-|]; [apply K, T|apply T].
Qed.

Lemma resources_update ps x (p : ResourceRow -> bool) f :
  (forall r, rs_id (f r) = rs_id r) -> (forall r, rs_idProject (f r) = rs_idProject r) ->
  (forall r, rs_idCostumer (f r) = rs_idCostumer r) ->
  resources_ok ps x ->
  resources_ok ps {| rt_rows := map (fun r => if p r then f r else r) (rt_rows x); rt_next := rt_next x |}.
Proof.
  intros E1 E2 E3 [N B O]. split; cbn.
  - rewrite map_map. erewrite map_ext; [exact N|]. intros r. by destruct (p r).
  - apply List.Forall_map. eapply List.Forall_impl; [|exact B]. intros r H. by destruct (p r); rewrite ?E1.
  - apply List.Forall_map. eapply List.Forall_impl; [|exact O]. intros r H. by destruct (p r); rewrite ?E2, ?E3.
Qed.

Lemma nodup_without {A B} (key : A -> B) (p : A -> bool) l :
  List.NoDup (map key l) -> List.NoDup (map key (rows_without p l)).
Proof.
  induction l as [|x l IH]; [done|]. cbn. intros N. inversion N as [|? ? H1 H2]; subst.
  destruct (p x); cbn; [by apply IH|]. constructor; [|by apply IH].
  intros (y & E & Hy)%in_map_iff. apply filter_In in Hy as [Hy _]. apply H1. rewrite <- E. by apply in_map.
Qed.

Lemma forall_without {A} (Q : A -> Prop) (p : A -> bool) l : List.Forall Q l -> List.Forall Q (rows_without p l).
Proof. rewrite !List.Forall_forall. intros H x [Hx _]%filter_In. by apply H. Qed.

Lemma resources_without ps x p :
  resources_ok ps x -> resources_ok ps {| rt_rows := rows_without p (rt_rows x); rt_next := rt_next x |}.
Proof. intros [N B O]. split; cbn; [by apply nodup_without|by apply forall_without..]. Qed.

Lemma of_project_owner t p id r : of_project t p id r = true -> rs_idCostumer r = t.
Proof. unfold of_project. rewrite !andb_true_iff, !Z.eqb_eq. tauto. Qed.

Lemma in_project_owner t p r : in_project t p r = true -> rs_idCostumer r = t.
Proof. unfold in_project. rewrite !andb_true_iff, !Z.eqb_eq. tauto. Qed.

Lemma owns_owner t p r : owns t p r = true -> pr_idCostumer r = t.
Proof. unfold owns. rewrite andb_true_iff, !Z.eqb_eq. tauto. Qed.

Lemma performed_owner t l r : performed_in t l r = true -> pf_idCostumer r = t.
Proof. unfold performed_in. rewrite andb_true_iff, Z.eqb_eq. tauto. Qed.

#[export] Hint Resolve of_project_owner in_project_owner owns_owner performed_owner : work.

Lemma governs_update_resource t p id k f d d' n :
  (forall r, rs_id (f r) = rs_id r) -> (forall r, rs_idProject (f r) = rs_idProject r) ->
  (forall r, rs_idCostumer (f r) = rs_idCostumer r) ->
  update_resource k t p id f d = (d', n) -> governs t d d'.
Proof.
  intros E1 E2 E3 [= <- <-]. apply governs_table; cbn; [apply theirs_update; eauto with work|].
  by apply resources_update.
Qed.

Lemma governs_delete_resource t p id k d : governs t d (fst (delete_resource k t p id d)).
Proof.
  apply governs_table; cbn; [apply (theirs_without rs_idCostumer); eauto with work|]. apply resources_without.
Qed.

(** ** Insertions *)

(** What is done under a project: nothing else happens to projects. *)
Record under (t p : Z) (d d' : WorkTables) : Prop := {
  un_projects : at_projects (wk_accounts d') = at_projects (wk_accounts d);
  un_governs : project_exists t p d = true -> governs t d d';
}.

#[export] Instance under_preorder t p : PreOrder (under t p).
Proof.
  split; [intros d; split; [done|intros _; reflexivity]|]. intros d1 d2 d3 [P1 G1] [P2 G2].
  split; [by rewrite P2|]. intros E. etransitivity; [by apply G1|]. apply G2.
  unfold project_exists in *. by rewrite P1.
Qed.

Section Operations.
Context `{MS : MySQL} `{F : Floats} `{C : Columns} (now : time).

Lemma under_insert k name description config order p t d d' n :
  insert_resource now k name description config order p t d = Some (d', n) ->
  under t p d d' /\ n = rt_next (table_of k d).
Proof.
  unfold insert_resource. intros H. apply bind_Some in H as (name' & _ & H).
  apply bind_Some in H as (description' & _ & H). apply bind_Some in H as (config' & _ & H).
  injection H as <- <-. split; [|done]. split; [reflexivity|]. intros E.
  apply governs_table; cbn; [by apply theirs_app_own|]. intros [N B O]. split; cbn.
  - rewrite map_app. apply NoDup_ListNoDup, NoDup_app. split_and!; [by apply NoDup_ListNoDup| |apply NoDup_singleton].
    intros z Hz Hz'. apply list_elem_of_In in Hz, Hz'. cbn in Hz'. destruct Hz' as [<-|[]].
    apply in_map_iff in Hz as (r & E' & Hr). rewrite List.Forall_forall in B. specialize (B r Hr). lia.
  - apply List.Forall_app. split; [|by repeat constructor; cbn; lia].
    eapply List.Forall_impl; [|exact B]. cbn. intros r H. lia.
  - apply List.Forall_app. split; [exact O|]. by repeat constructor.
Qed.

(** ** Versions *)
Lemma max_version_numbered l : numbered l -> max_version l = match l with [] => None | _ => Some (Z.of_nat (length l)) end.
Proof.
  unfold numbered, max_version. intros H. destruct l as [|v l]; [done|]. rewrite H. cbn [length seq map]. f_equal.
  assert (G : forall n k z, z = Z.of_nat k -> fold_left Z.max (map Z.of_nat (seq (S k) n)) z = Z.of_nat (k + n)).
  { induction n as [|n IH]; intros k z ->; cbn [seq map fold_left]; [f_equal; lia|].
    rewrite (IH (S k)) by lia. f_equal. lia. }
  rewrite (G (length l) 1%nat) by done. f_equal.
Qed.

Lemma versions_of_app t a id l v d :
  versions_of t a id (with_versions (l ++ [v]) d) =
  (versions_of t a id (with_versions l d) ++
   (if (vr_idCostumer v =? t) && String.eqb (vr_assetType v) a && (vr_assetId v =? id) then [v] else []))%list.
Proof. unfold versions_of. cbn. by rewrite List.filter_app. Qed.

Lemma length_filter_le {A} (p : A -> bool) l : (length (List.filter p l) <= length l)%nat.
Proof. induction l as [|x l IH]; cbn; [done|]. destruct (p x); cbn; lia. Qed.

Lemma governs_version t a id d v :
  vr_idCostumer v = t -> vr_assetType v = a -> vr_assetId v = id ->
  vr_version v = match max_version (versions_of t a id d) with None => 1 | Some n => wrap64 (n + 1) end ->
  governs t d (with_versions (wk_versions d ++ [v]) d).
Proof.
  intros E1 E2 E3 Ev. split.
  - split; try done. cbn. by apply theirs_app_own.
  - cbn. rewrite length_app. cbn. lia.
  - unfold countable_versions. cbn. rewrite length_app. cbn [length]. intros B [P T V].
    split; [by destruct P|exact T|]. intros t' a' id'. rewrite versions_of_app.
    assert (W : with_versions (wk_versions d) d = d) by by destruct d. rewrite W.
    destruct (_ && _ && _) eqn:X; [|rewrite app_nil_r; apply V].
    rewrite !andb_true_iff, !Z.eqb_eq, String.eqb_eq in X. destruct X as [[<- <-] <-].
    subst t a id. set (t := vr_idCostumer v) in *. set (a := vr_assetType v) in *. set (id := vr_assetId v) in *.
    specialize (V t a id). rewrite (max_version_numbered _ V) in Ev.
    unfold numbered in *. rewrite map_app, V, length_app. cbn [length map]. rewrite Nat.add_1_r, seq_S, map_app.
    cbn [map]. f_equal. f_equal. rewrite Ev.
    pose proof (length_filter_le (fun v => (vr_idCostumer v =? t) && String.eqb (vr_assetType v) a
                        && (vr_assetId v =? id)) (wk_versions d)) as L. fold (versions_of t a id d) in L.
    destruct (versions_of t a id d) as [|v0 l]; [done|]. cbn [length] in *.
    rewrite wrap64_id; [lia|]. unfold in_int64, int64_min, int64_max in *.
    apply andb_true_iff. rewrite !Z.leb_le. lia.
Qed.

(** ** Computations *)
Notation moves R d m := (wp d m (fun _ d' => R d d')).

Lemma moves_bind {A B} (R : WorkTables -> WorkTables -> Prop) `{!PreOrder R} d (m : M WorkTables A) (k : A -> M WorkTables B) :
  moves R d m -> (forall a d1, moves R d1 (k a)) -> moves R d (bind m k).
Proof.
  intros H K. apply wp_bind. eapply wp_weaken; [exact H|]. intros [a|e] d1 H1; [|done].
  eapply wp_weaken; [apply K|]. cbn. intros _ d2 H2. by etransitivity.
Qed.

Lemma moves_transaction {A} (R : WorkTables -> WorkTables -> Prop) `{!PreOrder R} d ob oc (m : M WorkTables A) :
  moves R d m -> moves R d (transaction ob oc m).
Proof.
  intros H. apply wp_transaction; [|by intros; reflexivity]. eapply wp_weaken; [exact H|].
  intros [a|e] d' H'; [exact H'|reflexivity].
Qed.

Lemma moves_exec_refusable (R : WorkTables -> WorkTables -> Prop) `{!PreOrder R} d op f :
  (forall d' n, f d = Some (d', n) -> R d d') -> moves R d (exec_refusable op f).
Proof. intros H. apply wp_exec_refusable; [exact H|by intros; reflexivity]. Qed.

Lemma moves_requireAffected (R : WorkTables -> WorkTables -> Prop) `{!PreOrder R} d n : moves R d (requireAffectedRows n).
Proof. unfold requireAffectedRows. destruct (n =? 0); [apply wp_fail|apply wp_ret]; reflexivity. Qed.

Lemma moves_query {A} (R : WorkTables -> WorkTables -> Prop) `{!PreOrder R} d op (f : WorkTables -> A) :
  moves R d (query op f).
Proof. apply wp_query; intros; reflexivity. Qed.

Lemma moves_ret {A} (R : WorkTables -> WorkTables -> Prop) `{!PreOrder R} d (a : A) : moves R d (ret a).
Proof. apply wp_ret. reflexivity. Qed.

Lemma moves_fail {A} (R : WorkTables -> WorkTables -> Prop) `{!PreOrder R} d e : moves R d (fail (A := A) e).
Proof. apply wp_fail. reflexivity. Qed.

Lemma moves_ensureBrowserProject (R : WorkTables -> WorkTables -> Prop) `{!PreOrder R} d t p : moves R d (ensureBrowserProject t p).
Proof.
  apply moves_bind; [apply _|by apply moves_query|]. intros b d1. apply wp_guard; intros _; reflexivity.
Qed.

(** A project is looked up first. *)
Lemma wp_ensureProject {A} d t p (k : unit -> M WorkTables A) (Q : outcome A -> WorkTables -> Prop) :
  (project_exists t p d = true -> wp d (k tt) Q) -> (forall e, Q (Err e) d) ->
  wp d (bind (ensureBrowserProject t p) k) Q.
Proof.
  intros H K. apply wp_bind. unfold ensureBrowserProject. repeat wp_step; try apply K. by apply H.
Qed.

(** *** Resources *)
Lemma moves_change op k actor p id name description config d :
  moves (governs (activeTenant actor)) d (change_resource now op k actor p id name description config).
Proof.
  unfold change_resource. cbv zeta. apply moves_bind; [apply _| |intros; apply moves_requireAffected; apply _].
  apply moves_exec_refusable; [apply _|]. intros d' n H.
  apply bind_Some in H as (x1 & _ & H). apply bind_Some in H as (x2 & _ & H). apply bind_Some in H as (x3 & _ & H).
  destruct (update_resource _ _ _ _ _ _) as [d1 n1] eqn:E. injection H as <- <-.
  eapply governs_update_resource; [| | |exact E]; done.
Qed.

Lemma moves_remove op k actor p id d :
  moves (governs (activeTenant actor)) d (remove_resource op k actor p id).
Proof.
  apply moves_bind; [apply _| |intros; apply moves_requireAffected; apply _].
  apply wp_exec_count; [apply governs_delete_resource|by intros; reflexivity].
Qed.

Lemma moves_insert op k name description config order p t d :
  moves (under t p) d (exec_refusable op (insert_resource now k name description config order p t)).
Proof. apply moves_exec_refusable; [apply _|]. intros d' n H. by apply under_insert in H as [H _]. Qed.

Lemma moves_create op k actor input config order d :
  moves (governs (activeTenant actor)) d (create_resource now op k actor input config order).
Proof.
  apply wp_ensureProject; [|by intros; reflexivity]. intros E. apply wp_bind.
  eapply wp_weaken; [apply moves_insert|]. intros [n|e] d' H; [apply wp_ret|]; by apply H.
Qed.

Lemma moves_version actor a id p reason snapshot d :
  wp d (recordAssetVersion actor a id p reason snapshot)
    (fun _ d' => governs (activeTenant actor) d d' /\ at_projects (wk_accounts d') = at_projects (wk_accounts d)).
Proof.
  unfold recordAssetVersion. apply wp_bind, wp_query; [|by intros; split; [reflexivity|]].
  apply wp_exec; [|by intros; split; [reflexivity|]]. split; [|done]. by apply (governs_version _ a id).
Qed.

Lemma moves_create_asset ob op oc k a actor name description config p d :
  moves (governs (activeTenant actor)) d (create_asset now ob op oc k a actor name description config p).
Proof.
  apply wp_ensureProject; [|by intros; reflexivity]. intros E.
  apply wp_weaken with (Q := fun _ d' => under (activeTenant actor) p d d'); [|intros _ d' H; by apply H].
  apply moves_transaction; [apply _|]. apply moves_bind; [apply _|apply moves_insert|].
  intros id d1. eapply wp_weaken; [apply moves_version|]. intros _ d2 [G P]. by split.
Qed.

Lemma moves_update_asset ob load op oc k a actor p id scan description config d :
  moves (governs (activeTenant actor)) d
    (update_asset now ob load op oc k a actor p id scan description config).
Proof.
  apply moves_transaction; [apply _|]. apply moves_bind; [apply _|by apply moves_query; apply _|].
  intros [r|] d1; [|apply moves_fail; apply _]. destruct (scan r) as [[name stored]|]; [|apply moves_fail; apply _].
  apply moves_bind; [apply _|apply moves_change|]. intros _ d2.
  eapply wp_weaken; [apply moves_version|]. by intros _ d3 [G _].
Qed.

(** *** Reordering and import *)
Lemma moves_reorder actor p n l d : moves (governs (activeTenant actor)) d (reorder_loop now actor p n l).
Proof.
  revert n d. induction l as [|id l IH]; intros n d; [apply moves_ret; apply _|].
  apply moves_bind; [apply _| |].
  - apply wp_exec_count; [|by intros; reflexivity].
    destruct (update_resource _ _ _ _ _ _) as [d1 n1] eqn:E. eapply governs_update_resource; [| | |exact E]; done.
  - intros x d1. apply moves_bind; [apply _|apply moves_requireAffected; apply _|]. intros _ d2. apply IH.
Qed.

Lemma moves_ReorderSteps actor input d : moves (governs (activeTenant actor)) d (ReorderSteps now actor input).
Proof.
  apply moves_transaction; [apply _|]. apply moves_bind; [apply _|by apply moves_ensureBrowserProject; apply _|].
  intros _ d1. apply moves_reorder.
Qed.

Lemma moves_import actor p l d : moves (under (activeTenant actor) p) d (import_steps now actor p l).
Proof.
  revert d. induction l as [|v l IH]; intros d; [apply moves_ret; apply _|]. cbn [import_steps]. cbv zeta.
  apply moves_bind; [apply _|apply moves_insert|]. intros id d1. apply moves_bind; [apply _|apply IH|].
  intros rest d2. apply moves_ret; apply _.
Qed.

Lemma moves_ImportTest actor input d : moves (governs (activeTenant actor)) d (ImportTest now actor input).
Proof.
  unfold ImportTest. destruct (imported_steps _) as [l|]; [|apply moves_fail; apply _].
  apply wp_transaction; [|by intros; reflexivity]. apply wp_ensureProject; [|by intros; reflexivity]. intros E.
  apply wp_weaken with (Q := fun _ d' => under (activeTenant actor) (tim_IDProject input) d d').
  2:{ intros [[]|e] d' H; [by apply H|reflexivity]. }
  apply moves_bind; [apply _|apply moves_import|]. intros config d1.
  apply moves_bind; [apply _|apply moves_insert|]. intros id d2. apply moves_ret; apply _.
Qed.
End Operations.

(** ** Projects *)
Lemma governs_projects t d l next :
  theirs pr_idCostumer t l = theirs pr_idCostumer t (at_projects (wk_accounts d)) ->
  (projects_ok d -> projects_ok (set_projects l next d)) ->
  (forall c p, existsb (owns c p) (at_projects (wk_accounts d)) = true -> existsb (owns c p) l = true) ->
  governs t d (set_projects l next d).
Proof.
  intros H K E. split; [by split|done|]. intros _ [P T V]. split; [by apply K| |exact V].
  intros k. destruct (T k) as [N B O].
  assert (X : table_of k (set_projects l next d) = table_of k d) by by destruct k. rewrite X.
  split; [exact N|exact B|]. eapply List.Forall_impl; [|exact O]. cbn. intros r Hr. by apply E.
Qed.

Lemma existsb_owns_map c p (q : ProjectRow -> bool) f l :
  (forall r, pr_id (f r) = pr_id r) -> (forall r, pr_idCostumer (f r) = pr_idCostumer r) ->
  existsb (owns c p) (map (fun r => if q r then f r else r) l) = existsb (owns c p) l.
Proof.
  intros E1 E2. induction l as [|r l IH]; [done|]. cbn. rewrite IH. f_equal.
  unfold owns. by destruct (q r); rewrite ?E1, ?E2.
Qed.

Section Projects.
Context `{MS : MySQL} `{F : Floats} `{C : Columns} (now : time).

Lemma moves_CreateProject t name description d : wp d (CreateProject now t name description) (fun _ d' => governs t d d').
Proof.
  apply moves_bind; [apply _| |by intros; apply moves_ret; apply _].
  apply moves_exec_refusable; [apply _|]. intros d' n H.
  apply bind_Some in H as (x1 & _ & H). apply bind_Some in H as (x2 & _ & H). injection H as <- _.
  apply governs_projects; [by apply theirs_app_own| |].
  - intros [N B]. split; cbn.
    + rewrite map_app. apply NoDup_ListNoDup, NoDup_app. split_and!; [by apply NoDup_ListNoDup| |apply NoDup_singleton].
      intros z Hz Hz'. apply list_elem_of_In in Hz, Hz'. cbn in Hz'. destruct Hz' as [<-|[]].
      apply in_map_iff in Hz as (r & E' & Hr). rewrite List.Forall_forall in B. specialize (B r Hr). lia.
    + apply List.Forall_app. split; [|by repeat constructor; cbn; lia].
      eapply List.Forall_impl; [|exact B]. cbn. intros r H. lia.
  - intros c p E. rewrite existsb_app, E. done.
Qed.

Lemma open_project_owner t p d r : open_project t p d r = true -> pr_idCostumer r = t.
Proof. unfold open_project. rewrite andb_true_iff. intros [H _]. by apply owns_owner in H. Qed.

Lemma moves_UpdateProject t p name description d :
  wp d (UpdateProject now t p name description) (fun _ d' => governs t d d').
Proof.
  apply moves_bind; [apply _| |by intros; apply moves_requireAffected; apply _].
  apply moves_exec_refusable; [apply _|]. intros d' n H.
  apply bind_Some in H as (x1 & _ & H). apply bind_Some in H as (x2 & _ & H). injection H as <- _.
  apply governs_projects.
  - apply theirs_update; [|done]. intros r. apply open_project_owner.
  - intros [N B]. split; cbn.
    + rewrite map_map. erewrite map_ext; [exact N|]. intros r. cbn. by destruct (open_project t p d r).
    + apply List.Forall_map. eapply List.Forall_impl; [|exact B]. intros r Hr. by destruct (open_project t p d r).
  - intros c q E. by rewrite existsb_owns_map.
Qed.

(** *** Deletion *)

(** What the nine statements leave. *)
Definition without_project (t p : Z) (d : WorkTables) : WorkTables :=
  let clear k := {| rt_rows := rows_without (in_project t p) (rt_rows (table_of k d)); rt_next := rt_next (table_of k d) |} in
  {| wk_accounts := with_projects (rows_without (owns t p) (at_projects (wk_accounts d))) (wk_accounts d);
     wk_nextProject := wk_nextProject d; wk_archivedAt := wk_archivedAt d;
     wk_test_cycles := clear TestCycleR; wk_tests := clear TestR; wk_steps := clear StepR;
     wk_environments := clear EnvironmentR; wk_plugins := clear PluginR; wk_versions := wk_versions d;
     wk_performed_cycles := rows_without (performed_in t (cycles_of t p d)) (wk_performed_cycles d);
     wk_performed_tests := rows_without (performed_in t (performed_of t p d)) (wk_performed_tests d);
     wk_performed_steps := rows_without (performed_in t (performed_of t p d)) (wk_performed_steps d) |}.

Lemma deletions_all t p d : fold_left (fun d f => f d) (deletions t p) d = without_project t p d.
Proof. reflexivity. Qed.

Lemma wp_delete_all l d :
  wp d (delete_all l) (fun res d' => match res with Ok _ => d' = fold_left (fun d f => f d) l d | Err _ => True end).
Proof.
  revert d. induction l as [|f l IH]; intros d; [by apply wp_ret|]. cbn [delete_all fold_left].
  apply wp_bind, wp_exec; [|done]. apply IH.
Qed.

(** All of it, or nothing. *)
Lemma wp_DeleteProject t p d :
  wp d (DeleteProject t p) (fun res d' => match res with
                                          | Ok _ => project_exists t p d = true /\ d' = without_project t p d
                                          | Err _ => d' = d
                                          end).
Proof.
  apply wp_transaction; [|done]. apply wp_bind, wp_query; [|done]. apply wp_bind, wp_guard; intros G; [|done].
  eapply wp_weaken; [apply wp_delete_all|]. intros [a|e] d' H; [|done]. by rewrite deletions_all in H.
Qed.

Lemma table_without k t p d :
  table_of k (without_project t p d)
  = {| rt_rows := rows_without (in_project t p) (rt_rows (table_of k d)); rt_next := rt_next (table_of k d) |}.
Proof. by destruct k. Qed.

Lemma governs_without t p d : governs t d (without_project t p d).
Proof.
  split; [| |].
  - split; try done; cbn; try (apply theirs_without; eauto with work).
    intros k. rewrite table_without. apply (theirs_without rs_idCostumer); eauto with work.
  - done.
  - intros _ [[N B] T V]. split; [by split; cbn; [apply nodup_without|apply forall_without]| |exact V].
    intros k. rewrite table_without. destruct (T k) as [N' B' O'].
    split; cbn; [by apply nodup_without|by apply forall_without|].
    rewrite List.Forall_forall in O' |- *. intros r [Hr Hp]%filter_In. specialize (O' r Hr).
    apply existsb_exists in O' as (q & Hq & Eq). apply existsb_exists. exists q. split; [|exact Eq].
    apply filter_In. split; [exact Hq|]. unfold owns, in_project in *.
    rewrite andb_true_iff, !Z.eqb_eq in Eq. destruct Eq as [-> ->]. exact Hp.
Qed.

Lemma moves_DeleteProject t p d : wp d (DeleteProject t p) (fun _ d' => governs t d d').
Proof.
  eapply wp_weaken; [apply wp_DeleteProject|]. intros [a|e] d' H; [destruct H as [_ ->]; apply governs_without|].
  rewrite H. reflexivity.
Qed.
End Projects.
