(* ===== verification/WorkspaceTheorems.v ===== *)
(** * Theorems about projects and their resources

    Every route acts for its signed-in user on rows of the active customer only, keeps
    the invariant, and needs the capability of its route; a deletion takes everything of
    the project; versions are numbered; and the mutations whose success is answered as a
    failure. *)

From stdpp Require Import pretty sorting.
From S2P Require Import Prelude GoStrings GoTime Json JsonText Redaction Effects Http Contracts AccountTables Sessions Accounts Paging Sql.
From S2P Require Import RunTheorems CliTheorems SessionTheorems AccountHandlers AccountTheorems Workspace WorkspaceHandlers WorkspaceFacts.

Section Requests.
Context `{MS : MySQL} `{F : Floats} `{C : Columns} (toUpper : string -> string) (now : time).
Implicit Types d : WorkTables.

Definition actor_of (r : Request) d (actor : User) : Prop := acts_for now r (wk_accounts d) actor.

Lemma wp_authenticated d r (Q : outcome (sreply + (User * string)) -> WorkTables -> Prop) :
  (forall actor s, actor_of r d actor -> Q (Ok (inr (actor, s))) d) ->
  (forall reply, rp_status reply <> 200 -> Q (Ok (inl reply)) d) -> (forall e, Q (Err e) d) ->
  wp d (on_accounts_of (authenticatedSession now r)) Q.
Proof.
  intros H K E. assert (W : with_wk_accounts (wk_accounts d) d = d) by by destruct d.
  unfold on_accounts_of, authenticatedSession, Get. repeat wp_step; rewrite ?W; try (by apply K); try apply E.
  apply H. by eexists _, _.
Qed.

Lemma wp_as_user d r k (Q : outcome wreply -> WorkTables -> Prop) :
  (forall actor, actor_of r d actor -> wp d (k actor) Q) ->
  (forall reply, rp_status reply <> 200 -> Q (Ok reply) d) -> (forall e, Q (Err e) d) ->
  wp d (as_user now r k) Q.
Proof.
  intros H K E. apply wp_bind, wp_authenticated; [|intros reply Hr; apply wp_ret; by apply K|exact E].
  intros actor s A. by apply H.
Qed.

Lemma wp_as_capable d r c k (Q : outcome wreply -> WorkTables -> Prop) :
  (forall actor, actor_of r d actor -> In c (capabilitiesForRole (u_Role actor)) -> wp d (k actor) Q) ->
  (forall reply, rp_status reply <> 200 -> Q (Ok reply) d) -> (forall e, Q (Err e) d) ->
  wp d (as_capable now r c k) Q.
Proof.
  intros H K E. apply wp_as_user; [|done..]. intros actor A.
  destruct (existsb _ _) eqn:X; [|apply wp_ret, K; discriminate].
  apply H; [done|]. by apply existsb_exists in X as (x & Hx & ->%String.eqb_eq).
Qed.

Lemma wp_path_id d r name k (Q : outcome wreply -> WorkTables -> Prop) :
  (forall id, parsePathID (pathValue r name) = Some id -> wp d (k id) Q) -> Q (Ok wk_notFound) d ->
  wp d (path_id r name k) Q.
Proof. intros H K. unfold path_id. destruct (parsePathID _) eqn:E; [by apply H|by apply wp_ret]. Qed.

(** ** Reads *)
Notation pure m := (forall d, wp d m (fun _ d' => d' = d)).

Lemma pure_show {A} (m : M WorkTables A) reply : pure m -> pure (show m reply).
Proof.
  intros H d. apply wp_bind, wp_attempt. eapply wp_weaken; [apply H|].
  intros [a|[]] d' ->; try apply wp_ret; done.
Qed.

Lemma pure_attempt {A} (m : M WorkTables A) (k : outcome A -> wreply) :
  pure m -> pure (let! x := attempt m in ret (k x)).
Proof.
  intros H d. apply wp_bind, wp_attempt. eapply wp_weaken; [apply H|].
  intros [a|[]] d' ->; try apply wp_ret; done.
Qed.

Lemma pure_user r k : (forall u, pure (k u)) -> pure (as_user now r k).
Proof. intros H d. apply wp_as_user; [|done..]. intros actor _. apply H. Qed.

Lemma pure_capable r c k : (forall u, pure (k u)) -> pure (as_capable now r c k).
Proof. intros H d. apply wp_as_capable; [|done..]. intros actor _ _. apply H. Qed.

Lemma pure_path r name k : (forall id, pure (k id)) -> pure (path_id r name k).
Proof. intros H d. apply wp_path_id; [|done]. intros id _. apply H. Qed.

Lemma pure_ensureProject t p : pure (ensureBrowserProject t p).
Proof. intros d. unfold ensureBrowserProject. repeat wp_step; done. Qed.

Lemma pure_list {A} op k (scan : ResourceRow -> option A) actor q : pure (list_resources op k scan actor q).
Proof.
  intros d. unfold list_resources, query_page. apply wp_bind. eapply wp_weaken; [apply pure_ensureProject|].
  intros [a|e] d' ->; [|done]. repeat wp_step; done.
Qed.

Lemma pure_projects t : pure (on_accounts_of (ListProjects t)).
Proof. intros d. unfold on_accounts_of, ListProjects. repeat wp_step; by destruct d. Qed.

Lemma pure_get {A} op k (scan : ResourceRow -> option A) actor p id : pure (get_resource op k scan actor p id).
Proof. intros d. unfold get_resource. repeat wp_step; done. Qed.

Lemma pure_asset {A} op k (scan : ResourceRow -> option A) actor p id : pure (get_asset op k scan actor p id).
Proof. intros d. unfold get_asset. repeat wp_step; done. Qed.

Lemma pure_all {A} op k (scan : ResourceRow -> option A) actor p : pure (list_all op k scan actor p).
Proof. intros d. unfold list_all. repeat wp_step; done. Qed.

Lemma pure_GetProject t p : pure (GetProject t p).
Proof. intros d. unfold GetProject. repeat wp_step; done. Qed.

#[local] Ltac solve_pure :=
  intros;
  first [ apply pure_capable; intros | apply pure_user; intros ];
  repeat first [ apply pure_path; intros
               | apply pure_show; intros
               | apply pure_attempt; intros ];
  first [ apply pure_list | apply pure_projects | apply pure_get | apply pure_asset | apply pure_all | apply pure_GetProject ].

Lemma pure_Projects r : pure (Projects now r). Proof. solve_pure. Qed.
Lemma pure_Steps r : pure (Steps now r). Proof. solve_pure. Qed.
Lemma pure_Plugins r : pure (Plugins now r). Proof. solve_pure. Qed.
Lemma pure_Environments r : pure (Environments now r). Proof. solve_pure. Qed.
Lemma pure_TestCycles r : pure (TestCycles now r). Proof. solve_pure. Qed.
Lemma pure_Tests r : pure (Tests now r). Proof. solve_pure. Qed.

(** The routes that read. *)
Definition reads (rt : work_route) : bool :=
  match rt with
  | GetProjects | GetOneProject | GetEnvironments | GetOneEnvironment | GetPlugins | GetOnePlugin
  | GetTestCycles | GetOneTestCycle | GetSteps | GetOneStep | GetTests | GetOneTest => true
  | _ => false
  end.

Lemma pure_reads rt r : reads rt = true -> pure (serve_work toUpper now rt r).
Proof.
  destruct rt; intros H; try discriminate H; cbn [serve_work];
    auto using pure_Projects, pure_Steps, pure_Plugins, pure_Environments, pure_TestCycles, pure_Tests; solve_pure.
Qed.

(** ** Mutations *)

(** The capability that a mutation needs; test cycles, tests and the order of steps need
    a session only. *)
Definition capability_of (rt : work_route) : option string :=
  match rt with
  | CreateProjectRoute | UpdateProjectRoute | DeleteProjectRoute => Some "projects.manage"
  | CreateEnvironmentRoute | UpdateEnvironmentRoute | DeleteEnvironmentRoute
  | CreatePluginRoute | UpdatePluginRoute | DeletePluginRoute
  | CreateStepRoute | UpdateStepRoute | DeleteStepRoute => Some "resources.manage"
  | _ => None
  end.

Definition asked (rt : work_route) (r : Request) d d' : Prop :=
  d' = d \/ exists actor, actor_of r d actor
    /\ (forall c, capability_of rt = Some c -> In c (capabilitiesForRole (u_Role actor)))
    /\ governs (activeTenant actor) d d'.

Lemma wp_and_then t d m refused k :
  wp d m (fun _ d' => governs t d d') -> pure k -> wp d (followed_by m refused k) (fun _ d' => governs t d d').
Proof.
  intros H K. apply wp_bind, wp_attempt. eapply wp_weaken; [exact H|]. intros [[]|[]] d' Hd; try by apply wp_ret.
  - eapply wp_weaken; [apply K|]. by intros _ d2 ->.
  - exact Hd.
Qed.

Lemma asked_user rt r d k :
  capability_of rt = None ->
  (forall u, wp d (k u) (fun _ d' => governs (activeTenant u) d d')) ->
  wp d (as_user now r k) (fun _ d' => asked rt r d d').
Proof.
  intros Hc H. apply wp_as_user; [|by left..]. intros actor A. eapply wp_weaken; [apply H|].
  intros ? d' G. right. exists actor. split; [exact A|]. split; [by rewrite Hc|exact G].
Qed.

Lemma asked_capable rt r d c k :
  capability_of rt = Some c ->
  (forall u, wp d (k u) (fun _ d' => governs (activeTenant u) d d')) ->
  wp d (as_capable now r c k) (fun _ d' => asked rt r d d').
Proof.
  intros Hc H. apply wp_as_capable; [|by left..]. intros actor A I. eapply wp_weaken; [apply H|].
  intros ? d' G. right. exists actor. split; [exact A|]. split; [|exact G]. rewrite Hc. by intros ? [= <-].
Qed.

Lemma governs_path t d r name k :
  (forall id, wp d (k id) (fun _ d' => governs t d d')) -> wp d (path_id r name k) (fun _ d' => governs t d d').
Proof. intros H. apply wp_path_id; [by intros|reflexivity]. Qed.

Lemma governs_ret t d reply : wp d (ret reply : M WorkTables wreply) (fun _ d' => governs t d d').
Proof. apply wp_ret. reflexivity. Qed.

#[local] Ltac mutation :=
  repeat first
    [ apply governs_ret
    | apply governs_path; intros
    | lazymatch goal with
      | |- wp _ (match ?x with _ => _ end) _ => destruct x eqn:?
      | |- wp _ (let _ := _ in _) _ => cbv zeta
      | |- wp _ (project_path _ _ _) _ => unfold project_path
      | |- wp _ (followed_by _ _ _) _ =>
          apply wp_and_then;
          [ first [ apply moves_CreateProject | apply moves_UpdateProject | apply moves_DeleteProject
                  | apply moves_create | apply moves_change | apply moves_remove | apply moves_create_asset
                  | apply moves_update_asset | apply moves_ReorderSteps | apply moves_ImportTest ]
          | auto using pure_Projects, pure_Steps, pure_Plugins, pure_Environments, pure_TestCycles, pure_Tests ]
      end ].

Lemma wp_serve_work rt r d : wp d (serve_work toUpper now rt r) (fun _ d' => asked rt r d d').
Proof.
  destruct (reads rt) eqn:R.
  { eapply wp_weaken; [by apply pure_reads|]. intros _ d' ->. by left. }
  destruct rt; try discriminate R; cbn [serve_work]; (apply asked_capable || apply asked_user);
    try reflexivity; intros u; mutation.
  - intros d1. apply (pure_attempt (ListStepsForReorder u _)). apply pure_list.
  - intros d1. by apply wp_ret.
Qed.

(** Claim C9: users work on the rows of their active customer only.  Whatever the route,
    the request and the failures of the database: identifiers stay unique, every
    resource stays under a project of its own customer, and the versions of an asset
    stay 1, 2, 3...; the routes that read change nothing; and when a request changes
    anything, it carries the live session of an active user who has the capability of
    the route (when it needs one), and accounts, sessions and every project, resource,
    version and result of another customer are what they were. *)
Theorem work_requests_isolated (rt : work_route) (r : Request) (w w' : world WorkTables) res :
  work_ok (w_db w) -> countable_versions (w_db w') ->
  serve_work toUpper now rt r w = (res, w') ->
  let d := w_db w in let d' := w_db w' in
  work_ok d'
  /\ (reads rt = true -> d' = d)
  /\ (d' = d \/ exists actor, actor_of r d actor
        /\ (forall c, capability_of rt = Some c -> In c (capabilitiesForRole (u_Role actor)))
        /\ foreign_kept (activeTenant actor) d d').
Proof.
  intros O B H. cbv zeta. split_and!.
  - destruct (wp_elim _ _ _ _ _ (wp_serve_work rt r (w_db w)) H) as [->|(actor & _ & _ & [_ _ K])]; [exact O|].
    by apply K.
  - intros R. exact (wp_elim _ _ _ _ _ (pure_reads rt r R (w_db w)) H).
  - destruct (wp_elim _ _ _ _ _ (wp_serve_work rt r (w_db w)) H) as [E|(actor & A & I & [K _ _])]; [by left|].
    right. by exists actor.
Qed.
End Requests.

(** * What requests do *)
(** ** Deletions *)

(** Results hang together: a performed cycle has its test cycle, a performed test or step
    its performed cycle, of the same customer. *)
Record linked (d : WorkTables) : Prop := {
  li_cycles : forall x, In x (wk_performed_cycles d) ->
    exists c, In c (rt_rows (wk_test_cycles d)) /\ rs_id c = pf_parent x /\ rs_idCostumer c = pf_idCostumer x;
  li_tests : forall x, In x (wk_performed_tests d) ->
    exists c, In c (wk_performed_cycles d) /\ pf_id c = pf_parent x /\ pf_idCostumer c = pf_idCostumer x;
  li_steps : forall x, In x (wk_performed_steps d) ->
    exists c, In c (wk_performed_cycles d) /\ pf_id c = pf_parent x /\ pf_idCostumer c = pf_idCostumer x;
}.

Lemma in_without {A} (p : A -> bool) l x : In x (rows_without p l) <-> In x l /\ p x = false.
Proof. unfold rows_without. by rewrite filter_In, negb_true_iff. Qed.

Lemma performed_in_spec t l x : performed_in t l x = false -> pf_idCostumer x = t -> ~ In (pf_parent x) l.
Proof.
  unfold performed_in. intros H E Hin. rewrite E, Z.eqb_refl in H. cbn in H.
  assert (X : existsb (Z.eqb (pf_parent x)) l = true) by (apply existsb_exists; exists (pf_parent x); by rewrite Z.eqb_refl).
  by rewrite X in H.
Qed.

Lemma linked_without t p d : linked d -> linked (without_project t p d).
Proof.
  assert (K : forall x c, In c (wk_performed_cycles d) -> pf_id c = pf_parent x -> pf_idCostumer c = pf_idCostumer x ->
    performed_in t (performed_of t p d) x = false ->
    In c (wk_performed_cycles (without_project t p d))).
  { intros x c Hc E1 E2 Hx. apply in_without. split; [exact Hc|].
    destruct (performed_in t (cycles_of t p d) c) eqn:X; [exfalso|done].
    pose proof (performed_owner _ _ _ X) as O. rewrite E2 in O.
    apply (performed_in_spec _ _ _ Hx O). unfold performed_of. rewrite <- E1. apply in_map, filter_In. by split. }
  intros [L1 L2 L3]. split; intros x [Hx Hp]%in_without.
  - destruct (L1 x Hx) as (c & Hc & E1 & E2). exists c. split; [|by split].
    apply in_without. split; [exact Hc|]. destruct (in_project t p c) eqn:X; [exfalso|done].
    pose proof (in_project_owner _ _ _ X) as O. rewrite E2 in O.
    apply (performed_in_spec _ _ _ Hp O). unfold cycles_of. rewrite <- E1. apply in_map, filter_In. by split.
  - destruct (L2 x Hx) as (c & Hc & E1 & E2). exists c. split; [by apply (K x)|by split].
  - destruct (L3 x Hx) as (c & Hc & E1 & E2). exists c. split; [by apply (K x)|by split].
Qed.

Section Effects.
Context `{MS : MySQL} `{F : Floats} `{C : Columns} (toUpper : string -> string) (now : time).

(** Claim C11: what the deletion of a project takes, exactly.  When it succeeds the project
    existed and is gone; its test cycles, tests, steps, environments and plugins are gone,
    and so are the performed cycles of its test cycles with their performed tests and
    steps.  Every other project, resource and result stays, of this customer and of
    others, and nothing else changes: users, sessions and customers, and the versions of
    the deleted resources, which are left behind.  Results that hung together still do,
    which the order of the nine statements is there for.  When any statement fails,
    nothing has changed. *)
Theorem project_deletion_complete (t p : Z) (w w' : world WorkTables) res :
  linked (w_db w) -> DeleteProject t p w = (res, w') ->
  let d := w_db w in let d' := w_db w' in
  linked d'
  /\ (res <> Ok tt -> d' = d)
  /\ (res = Ok tt ->
        project_exists t p d = true /\ project_exists t p d' = false
        /\ (forall q, In q (at_projects (wk_accounts d')) <->
              In q (at_projects (wk_accounts d)) /\ ~ (pr_id q = p /\ pr_idCostumer q = t))
        /\ wk_accounts d' = with_projects (at_projects (wk_accounts d')) (wk_accounts d)
        /\ wk_versions d' = wk_versions d /\ wk_archivedAt d' = wk_archivedAt d
        /\ (forall k r, In r (rt_rows (table_of k d')) <->
              In r (rt_rows (table_of k d)) /\ ~ (rs_idProject r = p /\ rs_idCostumer r = t))
        /\ (forall x, In x (wk_performed_cycles d') <-> In x (wk_performed_cycles d)
              /\ ~ (pf_idCostumer x = t /\ In (pf_parent x) (cycles_of t p d)))
        /\ (forall x, In x (wk_performed_tests d') <-> In x (wk_performed_tests d)
              /\ ~ (pf_idCostumer x = t /\ In (pf_parent x) (performed_of t p d)))
        /\ (forall x, In x (wk_performed_steps d') <-> In x (wk_performed_steps d)
              /\ ~ (pf_idCostumer x = t /\ In (pf_parent x) (performed_of t p d)))).
Proof.
  intros L H. cbv zeta. pose proof (wp_elim _ _ _ _ _ (wp_DeleteProject t p (w_db w)) H) as W.
  assert (P : forall l x, performed_in t l x = false <-> ~ (pf_idCostumer x = t /\ In (pf_parent x) l)).
  { intros l x. unfold performed_in. rewrite andb_false_iff, Z.eqb_neq. split.
    - intros [Hn|Hn] [E Hin]; [done|]. apply (performed_in_spec t l x); [|exact E|exact Hin].
      unfold performed_in. by rewrite Hn, andb_false_r.
    - intros N. destruct (Z.eq_dec (pf_idCostumer x) t) as [E|]; [right|by left].
      destruct (existsb _ l) eqn:X; [exfalso|done]. apply existsb_exists in X as (y & Hy & Ey%Z.eqb_eq).
      apply N. subst y. by split. }
  destruct res as [[]|e]; [|by rewrite W]. destruct W as [E ->]. split; [by apply linked_without|].
  split; [done|]. intros _. split; [exact E|]. split; [|split; [|split; [done|split; [done|split; [done|split; [|split; [|split]]]]]]].
  - unfold project_exists. cbn. apply not_true_is_false. intros (q & [_ Hq]%in_without & Hq')%existsb_exists. by rewrite Hq in Hq'.
  - intros q. cbn [without_project wk_accounts with_projects at_projects]. rewrite in_without. unfold owns.
    rewrite andb_false_iff, !Z.eqb_neq. destruct (Z.eq_dec (pr_id q) p), (Z.eq_dec (pr_idCostumer q) t); tauto.
  - intros k r. rewrite table_without. cbn [rt_rows]. rewrite in_without. unfold in_project.
    rewrite andb_false_iff, !Z.eqb_neq. destruct (Z.eq_dec (rs_idProject r) p), (Z.eq_dec (rs_idCostumer r) t); tauto.
  - intros x. cbn [without_project wk_performed_cycles]. by rewrite in_without, P.
  - intros x. cbn [without_project wk_performed_tests]. by rewrite in_without, P.
  - intros x. cbn [without_project wk_performed_steps]. by rewrite in_without, P.
Qed.

(** ** Answers *)
Notation not_ok := (fun (res : outcome wreply) (_ : WorkTables) => forall reply, res = Ok reply -> rp_status reply <> 200).

Lemma not_ok_reply d reply : rp_status reply <> 200 -> wp d (ret reply) not_ok.
Proof. intros H. apply wp_ret. by intros ? [= <-]. Qed.

(** A mutation whose listing never answers 200. *)
Lemma not_ok_and_then d m refused k :
  (forall e, rp_status (refused e) <> 200) ->
  wp d m (fun res d' => res = Ok tt -> wp d' k not_ok) -> wp d (followed_by m refused k) not_ok.
Proof.
  intros R H. apply wp_bind, wp_attempt. eapply wp_weaken; [exact H|].
  intros [[]|[]] d' K; try (by apply not_ok_reply); [by apply K|by intros ? [=]].
Qed.

Lemma not_ok_capable d r c k :
  (forall u, actor_of now r d u -> In c (capabilitiesForRole (u_Role u)) -> wp d (k u) not_ok) ->
  wp d (as_capable now r c k) not_ok.
Proof.
  intros H. apply wp_as_capable; [exact H| |by intros e ? [=]]. by intros reply Hr ? [= <-].
Qed.

Lemma not_ok_pathless d r c k :
  dget "idProject" (rq_path r) = None -> wp d (as_capable now r c (fun u => path_id r "idProject" (k u))) not_ok.
Proof.
  intros E. apply not_ok_capable. intros u _ _. unfold path_id, pathValue. rewrite E.
  by apply not_ok_reply.
Qed.

Lemma hidden_not_ok e : rp_status (hidden_or_500 e) <> 200.
Proof. unfold hidden_or_500. by destruct (bool_decide _). Qed.

(** Who is signed in does not depend on projects and resources. *)
Lemma actor_kept t r d d' u : foreign_kept t d d' -> actor_of now r d' u -> actor_of now r d u.
Proof.
  intros [E _ _ _ _ _ _ _] (cookie & su & H1 & H2 & H3). exists cookie, su. split; [exact H1|]. split; [|exact H3].
  rewrite <- H2. unfold session_user.
  assert (E1 : at_sessions (wk_accounts d') = at_sessions (wk_accounts d)) by exact (f_equal at_sessions E).
  assert (E2 : at_users (wk_accounts d') = at_users (wk_accounts d)) by exact (f_equal at_users E).
  by rewrite E1, E2.
Qed.

Lemma not_ok_Projects t r d d' :
  foreign_kept t d d' ->
  (forall u, actor_of now r d u -> u_Role u = 2) -> wp d' (Projects now r) not_ok.
Proof.
  intros K H. apply not_ok_capable. intros u A I. exfalso. apply (actor_kept _ _ _ _ _ K), H in A. rewrite A in I.
  cbn in I. intuition discriminate.
Qed.

(** Claim C31: mutations that never report success.  The routes that create a step, a
    plugin or an environment end with the listing of the project in their path, and have
    none: whatever they did, they do not answer 200.  Nor does a change of projects for
    a user of role 2, who may manage projects and not list them. *)
Theorem success_answered_as_failure (rt : work_route) (r : Request) (w w' : world WorkTables) reply :
  (In rt [CreateStepRoute; CreatePluginRoute; CreateEnvironmentRoute] /\ dget "idProject" (rq_path r) = None)
  \/ (In rt [CreateProjectRoute; UpdateProjectRoute; DeleteProjectRoute]
      /\ forall u, actor_of now r (w_db w) u -> u_Role u = 2) ->
  serve_work toUpper now rt r w = (Ok reply, w') ->
  rp_status reply <> 200.
Proof.
  intros Hrt H. refine (wp_elim _ w not_ok _ _ _ H reply eq_refl).
  assert (S0 : forall d c (m : M WorkTables unit) refused k, (forall e, rp_status (refused e) <> 200) ->
    dget "idProject" (rq_path r) = None ->
    wp d (followed_by m refused (as_capable now r c (fun u => path_id r "idProject" (k u)))) not_ok).
  { intros d c m refused k R E. apply not_ok_and_then; [exact R|]. intros w0 _ _. by apply not_ok_pathless. }
  assert (P0 : forall t (m : M WorkTables unit) refused, (forall e, rp_status (refused e) <> 200) ->
    (forall u, actor_of now r (w_db w) u -> u_Role u = 2) ->
    wp (w_db w) m (fun _ d' => governs t (w_db w) d') ->
    wp (w_db w) (followed_by m refused (Projects now r)) not_ok).
  { intros t m refused R Hu Hm. apply not_ok_and_then; [exact R|]. eapply wp_weaken; [exact Hm|].
    intros res d' G _. eapply not_ok_Projects; [apply (go_foreign _ _ _ G)|exact Hu]. }
  destruct Hrt as [[Hin E]|[Hin E]]; cbn in Hin; repeat (destruct Hin as [<-|Hin]); try done;
    cbn [serve_work]; apply not_ok_capable; intros u A _.
  1-3: destruct (decodeJSON _ _ _) as [b|]; [|by apply not_ok_reply].
  - destruct (_ || _); [by apply not_ok_reply|]. by apply S0.
  - destruct (_ || _ || _); [by apply not_ok_reply|]. by apply S0.
  - destruct (_ || _); [by apply not_ok_reply|]. destruct (environmentHasInlineSecret _); [by apply not_ok_reply|]. by apply S0.
  - destruct (decodeJSON _ _ _) as [b|]; [|by apply not_ok_reply]. destruct (String.eqb _ _); [by apply not_ok_reply|].
    eapply P0; [done|exact E|apply moves_CreateProject].
  - apply wp_path_id; [|by intros ? [= <-]]. intros id _.
    destruct (decodeJSON _ _ _) as [b|]; [|by apply not_ok_reply]. destruct (String.eqb _ _); [by apply not_ok_reply|].
    eapply P0; [apply hidden_not_ok|exact E|apply moves_UpdateProject].
  - apply wp_path_id; [|by intros ? [= <-]]. intros id _.
    eapply P0; [apply hidden_not_ok|exact E|apply moves_DeleteProject].
Qed.

(** ** Versions *)

(** The row an update leaves for the statement's identifier. *)
Lemma select_update k t p id f d d' n r :
  (forall r, rs_id (f r) = rs_id r) -> (forall r, rs_idProject (f r) = rs_idProject r) ->
  (forall r, rs_idCostumer (f r) = rs_idCostumer r) ->
  update_resource k t p id f d = (d', n) ->
  select_resource k t p id d = Some r -> select_resource k t p id d' = Some (f r).
Proof.
  intros E1 E2 E3 [= <- _]. unfold select_resource. rewrite table_of_with. destruct (decide (k = k)); [|done]. cbn.
  assert (K : forall r, of_project t p id (f r) = of_project t p id r) by (intros x; unfold of_project; by rewrite E1, E2, E3).
  induction (rt_rows (table_of k d)) as [|x l IH]; [done|]. cbn.
  destruct (of_project t p id x) eqn:X; [rewrite K, X; by intros [= ->]|rewrite X; exact IH].
Qed.

Lemma change_versions k t p id f d d' n :
  update_resource k t p id f d = (d', n) -> wk_versions d' = wk_versions d.
Proof. by intros [= <- _]. Qed.

(** What a change of a test cycle or a test records. *)
Definition version_recorded (k : resource) (a : string) (actor : User) (p id : Z)
    (description : option string) (config : string) (d d' : WorkTables) : Prop :=
  exists r r' kept_config, select_resource k (activeTenant actor) p id d = Some r
    /\ select_resource k (activeTenant actor) p id d' = Some r'
    /\ kept (ResourcesT k) "config" config = Some kept_config /\ rs_config r' = Some kept_config
    /\ rs_name r' = rs_name r
    /\ exists text, (description = None -> rs_description r = Some text /\ rs_description r' = rs_description r)
         /\ (forall s, description = Some s -> text = s /\ rs_description r' = kept (ResourcesT k) "description" s)
         /\ wk_versions d' = (wk_versions d ++
              [{| vr_idCostumer := activeTenant actor; vr_idProject := p; vr_assetType := a; vr_assetId := id;
                  vr_version := Z.of_nat (length (versions_of (activeTenant actor) a id d)) + 1;
                  vr_actorUserId := u_ID actor; vr_reason := "asset.updated";
                  vr_snapshot := asset_snapshot id (rs_name r) text config p (activeTenant actor) |}])%list.

(** An update succeeds with a version, or leaves the tables. *)
Definition recorded_or_same (k : resource) (a : string) (actor : User) (p id : Z)
    (description : option string) (config : string) (d : WorkTables) (res : outcome unit) (d' : WorkTables) : Prop :=
  match res with
  | Ok _ => version_recorded k a actor p id description config d d'
  | Err _ => d' = d
  end.

Lemma wp_change op k actor p id description config d (Q : outcome unit -> WorkTables -> Prop) :
  (forall x y d' n, match description with
                    | None => x = None
                    | Some s => x = kept (ResourcesT k) "description" s /\ is_Some x
                    end -> kept (ResourcesT k) "config" config = Some y ->
     update_resource k (activeTenant actor) p id (set_resource now None x (Some y)) d = (d', n) -> Q (Ok tt) d') ->
  (forall e d', Q (Err e) d') ->
  wp d (change_resource now op k actor p id None ((fun s => ("description", s)) <$> description)
          (Some ("config", config))) Q.
Proof.
  intros H K. unfold change_resource. cbv zeta. apply wp_bind, wp_exec_refusable; [|intros; apply K].
  intros d' n E. cbn [mbind option_bind] in E. apply bind_Some in E as (x & Ex & E).
  apply bind_Some in E as (y & Ey & E). apply bind_Some in Ey as (y' & Ey & E'). injection E' as <-.
  unfold requireAffectedRows. destruct (n =? 0); [apply wp_fail, K|apply wp_ret].
  destruct (update_resource _ _ _ _ _ _) as [d1 n1] eqn:U. injection E as <- <-.
  apply (H x y' d1 n1); [|exact Ey|exact U]. destruct description as [s|]; cbn in Ex.
  - apply bind_Some in Ex as (s' & Es & Ex). injection Ex as <-. by rewrite Es.
  - by injection Ex as <-.
Qed.

Lemma wp_update_asset ob load op oc k a actor p id scan description config d :
  work_ok d -> Z.of_nat (length (wk_versions d)) < int64_max ->
  (forall r name text, scan r = Some (name, text) -> name = rs_name r /\
     match description with Some s => text = s | None => rs_description r = Some text end) ->
  wp d (update_asset now ob load op oc k a actor p id scan description config)
    (recorded_or_same k a actor p id description config d).
Proof.
  intros O B Hs. apply wp_transaction; [|done]. apply wp_bind, wp_query; [|done].
  destruct (select_resource k _ p id d) as [r|] eqn:Er; [|by apply wp_fail].
  destruct (scan r) as [[name text]|] eqn:Es; [|by apply wp_fail]. apply Hs in Es as [-> Et].
  apply wp_bind, wp_change; [|done]. intros x y d1 n Hx Hy U.
  pose proof (change_versions _ _ _ _ _ _ _ _ U) as V.
  apply wp_bind, wp_query; [|done]. apply wp_exec; [|done].
  exists r, (set_resource now None x (Some y) r), y. split_and!; try done.
  { change (select_resource k (activeTenant actor) p id d1 = Some (set_resource now None x (Some y) r)).
    eapply select_update; [| | |exact U|exact Er]; done. }
  exists text. split_and!.
  - intros ->. subst x. by split.
  - intros s ->. destruct Hx as [-> [s' Es]]. split; [exact Et|]. cbn. by rewrite Es.
  - cbn [wk_versions with_versions]. rewrite V. f_equal. f_equal. f_equal.
    assert (W : versions_of (activeTenant actor) a id d1 = versions_of (activeTenant actor) a id d)
      by (unfold versions_of; by rewrite V).
    rewrite W, max_version_numbered by apply O.
    pose proof (length_filter_le (fun v => (vr_idCostumer v =? activeTenant actor) && String.eqb (vr_assetType v) a
                        && (vr_assetId v =? id)) (wk_versions d)) as L.
    fold (versions_of (activeTenant actor) a id d) in L.
    destruct (versions_of (activeTenant actor) a id d) as [|v0 l]; [done|]. apply wrap64_id.
    unfold in_int64, int64_min, int64_max in *. apply andb_true_iff. rewrite !Z.leb_le. lia.
Qed.

(** a change of a test or a test cycle and its version are one.  A successful
    update changes the row of the active customer, and records exactly one version, with
    the number after those of the asset, the user, and the name, description and config
    of the row; a failed one, whatever failed, changes neither. *)
Theorem asset_update_versioned (actor : User) (cycle : TestCycleUpdate) (test : TestUpdate)
  (w w1 w2 : world WorkTables) res1 res2 :
  work_ok (w_db w) -> Z.of_nat (length (wk_versions (w_db w))) < int64_max ->
  UpdateTestCycle now actor cycle w = (res1, w1) -> UpdateTest now actor test w = (res2, w2) ->
  recorded_or_same TestCycleR "test_cycle" actor (cyu_IDProject cycle) (cyu_ID cycle)
    (Some (cyu_Description cycle)) (cyu_Config cycle) (w_db w) res1 (w_db w1)
  /\ recorded_or_same TestR "test" actor (teu_IDProject test) (teu_ID test) None (teu_Config test)
       (w_db w) res2 (w_db w2).
Proof.
  intros O B H1 H2. split.
  - eapply wp_elim; [|exact H1]; apply wp_update_asset; [exact O|exact B|]. by intros r name text [= <- <-].
  - eapply wp_elim; [|exact H2]; apply wp_update_asset; [exact O|exact B|].
    intros r name text E. apply bind_Some in E as (s & Es & E). by injection E as <- <-.
Qed.
End Effects.
