(* ===== verification/WorkspaceReads.v ===== *)
(** * Reading projects and resources

    What a reading route answers is a function of the accounts and of the rows of the
    active customer.  Concrete requests end the file. *)

From stdpp Require Import pretty sorting.
From S2P Require Import Prelude GoStrings GoTime Json JsonText Redaction Effects Http Contracts AccountTables Sessions Accounts Paging Sql.
From S2P Require Import RunTheorems CliTheorems SessionTheorems AccountHandlers AccountTheorems Workspace WorkspaceHandlers WorkspaceFacts WorkspaceTheorems.

(** ** Rows of one customer *)
Definition own {A} (owner : A -> Z) (t : Z) (l : list A) : list A := List.filter (fun r => owner r =? t) l.

Section Own.
Context {A : Type} (owner : A -> Z) (t : Z) (p : A -> bool).
Context (H : forall r, p r = true -> owner r = t).

Lemma filter_own l : List.filter p l = List.filter p (own owner t l).
Proof.
  unfold own. induction l as [|r l IH]; [done|]. cbn. destruct (p r) eqn:E.
  - rewrite (H r E), Z.eqb_refl. cbn. by rewrite E, IH.
  - destruct (owner r =? t); cbn; rewrite ?E; exact IH.
Qed.

Lemma find_own l : List.find p l = List.find p (own owner t l).
Proof.
  unfold own. induction l as [|r l IH]; [done|]. cbn. destruct (p r) eqn:E.
  - rewrite (H r E), Z.eqb_refl. cbn. by rewrite E.
  - destruct (owner r =? t); cbn; rewrite ?E; exact IH.
Qed.

Lemma existsb_own l : existsb p l = existsb p (own owner t l).
Proof.
  unfold own. induction l as [|r l IH]; [done|]. cbn. destruct (p r) eqn:E.
  - rewrite (H r E), Z.eqb_refl. cbn. by rewrite E.
  - destruct (owner r =? t); cbn; rewrite ?E; exact IH.
Qed.
End Own.

(** Two databases that the customer [t] cannot tell apart. *)
Record same_view (t : Z) (d1 d2 : WorkTables) : Prop := {
  sv_accounts : with_projects [] (wk_accounts d1) = with_projects [] (wk_accounts d2);
  sv_projects : own pr_idCostumer t (at_projects (wk_accounts d1)) = own pr_idCostumer t (at_projects (wk_accounts d2));
  sv_archived : forall p, In p (at_projects (wk_accounts d1)) -> pr_idCostumer p = t ->
    wk_archivedAt d1 !! pr_id p = wk_archivedAt d2 !! pr_id p;
  sv_tables : forall k, own rs_idCostumer t (rt_rows (table_of k d1)) = own rs_idCostumer t (rt_rows (table_of k d2));
}.

Section Reads.
Context `{MS : MySQL} `{F : Floats} `{C : Columns} (toUpper : string -> string) (now : time).
Context (r : Request) (t : Z).

(** Two worlds in which a request of the customer [t] meets the same failures. *)
Definition alike (w1 w2 : world WorkTables) : Prop :=
  same_view t (w_db w1) (w_db w2) /\ w_faults w1 = w_faults w2 /\ w_random w1 = w_random w2
  /\ forall u, actor_of now r (w_db w1) u -> activeTenant u = t.

(** One outcome in both. *)
Definition sim {A} (m : M WorkTables A) : Prop :=
  forall w1 w2, alike w1 w2 -> fst (m w1) = fst (m w2) /\ alike (snd (m w1)) (snd (m w2)).

Lemma sim_ret {A} (a : A) : sim (ret a).
Proof. intros w1 w2 H. split; [reflexivity|exact H]. Qed.

Lemma sim_fail {A} e : sim (fail (A := A) e).
Proof. intros w1 w2 H. split; [reflexivity|exact H]. Qed.

Lemma sim_guard b e : sim (guard b e).
Proof. destruct b; [apply sim_ret|apply sim_fail]. Qed.

Lemma sim_bind {A B} (m : M WorkTables A) (k : A -> M WorkTables B) : sim m -> (forall a, sim (k a)) -> sim (bind m k).
Proof.
  intros H K w1 w2 W. destruct (H w1 w2 W) as [E W']. unfold bind.
  destruct (m w1) as [[a|e] w1'], (m w2) as [[a'|e'] w2']; cbn in *; try discriminate E.
  - injection E as <-. by apply K.
  - split; [by injection E as <-|exact W'].
Qed.

Lemma sim_attempt {A} (m : M WorkTables A) : sim m -> sim (attempt m).
Proof.
  intros H w1 w2 W. destruct (H w1 w2 W) as [E W']. unfold attempt.
  destruct (m w1) as [[a|[]] w1'], (m w2) as [[a'|[]] w2']; cbn in *; try discriminate E;
    (split; [congruence|exact W']).
Qed.

Lemma sim_query {A} op (f : WorkTables -> A) :
  (forall d1 d2, same_view t d1 d2 -> f d1 = f d2) -> sim (query op f).
Proof.
  intros H [d1 f1 r1] [d2 f2 r2] (V & Ef & Er & Ha). cbn in *. subst f2 r2.
  unfold query, bind, round_trip, gets. cbn. destruct f1 as [|[e|] f1]; cbn; (split; [|by split]); try done.
  - f_equal. by apply H.
  - f_equal. by apply H.
Qed.

Lemma sim_query_page {A} op (f : WorkTables -> option A) :
  (forall d1 d2, same_view t d1 d2 -> f d1 = f d2) -> sim (query_page op f).
Proof.
  intros H. apply sim_bind; [by apply sim_query|]. intros [a|]; [apply sim_ret|apply sim_fail].
Qed.

(** *** What the repository reads *)
Lemma same_rows k p d1 d2 :
  same_view t d1 d2 -> (forall x, p x = true -> rs_idCostumer x = t) ->
  List.filter p (rt_rows (table_of k d1)) = List.filter p (rt_rows (table_of k d2))
  /\ List.find p (rt_rows (table_of k d1)) = List.find p (rt_rows (table_of k d2)).
Proof.
  intros V H. by rewrite (filter_own rs_idCostumer t p H), (find_own rs_idCostumer t p H), (sv_tables _ _ _ V k),
    <- (filter_own rs_idCostumer t p H), <- (find_own rs_idCostumer t p H).
Qed.

Lemma same_project p d1 d2 :
  same_view t d1 d2 ->
  existsb (owns t p) (at_projects (wk_accounts d1)) = existsb (owns t p) (at_projects (wk_accounts d2)).
Proof.
  intros V. pose proof (owns_owner t p) as H.
  by rewrite (existsb_own pr_idCostumer t _ H), (sv_projects _ _ _ V), <- (existsb_own pr_idCostumer t _ H).
Qed.

Lemma sim_ensureProject p : sim (ensureBrowserProject t p).
Proof. apply sim_bind; [|intros b; apply sim_guard]. apply sim_query. intros d1 d2. apply same_project. Qed.

Lemma sim_option {A B} (f : A -> option B) (e1 e2 : error) (o : option A) :
  sim (match o with None => fail e1 | Some a => match f a with None => fail e2 | Some b => ret b end end).
Proof. destruct o as [a|]; [destruct (f a)|]; first [apply sim_ret|apply sim_fail]. Qed.

Section Actor.
Context (u : User) (Hu : activeTenant u = t).

Lemma sim_get {A} op k (scan : ResourceRow -> option A) p id : sim (get_resource op k scan u p id).
Proof.
  apply sim_bind; [|intros o; apply sim_option]. apply sim_query. intros d1 d2 V. rewrite Hu.
  apply (same_rows k _ d1 d2 V). eauto with work.
Qed.

Lemma sim_asset {A} op k (scan : ResourceRow -> option A) p id : sim (get_asset op k scan u p id).
Proof.
  apply sim_bind; [|intros o; apply sim_option]. apply sim_query. intros d1 d2 V. rewrite Hu.
  unfold project_exists. rewrite (same_project p d1 d2 V). destruct (existsb _ _); [|done].
  apply (same_rows k _ d1 d2 V). eauto with work.
Qed.

Lemma sim_all {A} op k (scan : ResourceRow -> option A) p : sim (list_all op k scan u p).
Proof.
  apply sim_bind.
  - apply sim_query. intros d1 d2 V. rewrite Hu. f_equal. apply (same_rows k _ d1 d2 V). eauto with work.
  - intros l. destruct (scan_all scan l); [apply sim_ret|apply sim_fail].
Qed.

Lemma matches_owner q x : resource_matches t q x = true -> rs_idCostumer x = t.
Proof. unfold resource_matches. rewrite !andb_true_iff. intros [[H _] _]. by apply in_project_owner in H. Qed.

Lemma sim_list {A} op k (scan : ResourceRow -> option A) q : sim (list_resources op k scan u q).
Proof.
  unfold list_resources. rewrite Hu. apply sim_bind; [apply sim_ensureProject|]. intros _. apply sim_bind.
  - apply sim_query. intros d1 d2 V. do 2 f_equal. apply (same_rows k _ d1 d2 V). apply matches_owner.
  - intros total. apply sim_bind.
    + apply sim_query_page. intros d1 d2 V. unfold select_page.
      destruct (same_rows k (resource_matches t q) d1 d2 V (matches_owner q)) as [-> _]. done.
    + intros rows. destruct (scan_all scan rows); [apply sim_ret|apply sim_fail].
Qed.

Lemma sim_GetProject p : sim (GetProject (activeTenant u) p).
Proof.
  rewrite Hu. apply sim_bind; [|intros [q|]; [apply sim_ret|apply sim_fail]]. apply sim_query. intros d1 d2 V.
  rewrite (find_own pr_idCostumer t _ (open_project_owner t p d1)).
  rewrite (find_own pr_idCostumer t _ (open_project_owner t p d2)).
  rewrite <- (sv_projects _ _ _ V).
  assert (G : forall l, (forall q, In q l -> In q (at_projects (wk_accounts d1)) /\ pr_idCostumer q = t) ->
    List.find (open_project t p d1) l = List.find (open_project t p d2) l).
  { induction l as [|q l IH]; [done|]. intros Hl. cbn. unfold open_project at 1 3.
    destruct (Hl q (or_introl eq_refl)) as [Hq Ht]. rewrite (sv_archived _ _ _ V q Hq Ht).
    rewrite IH by (intros; apply Hl; by right). done. }
  apply G. intros q [Hq Ht]%filter_In. split; [exact Hq|by apply Z.eqb_eq].
Qed.

Lemma sim_ListProjects : sim (on_accounts_of (ListProjects (activeTenant u))).
Proof.
  rewrite Hu. intros [d1 f1 r1] [d2 f2 r2] (V & Ef & Er & Ha). cbn in *. subst f2 r2.
  assert (W1 : with_wk_accounts (wk_accounts d1) d1 = d1) by by destruct d1.
  assert (W2 : with_wk_accounts (wk_accounts d2) d2 = d2) by by destruct d2.
  assert (E : List.filter (fun p => pr_idCostumer p =? t) (at_projects (wk_accounts d1))
              = List.filter (fun p => pr_idCostumer p =? t) (at_projects (wk_accounts d2))) by apply V.
  unfold on_accounts_of, zoom, ListProjects, query, bind, round_trip, gets. cbn.
  destruct f1 as [|[e|] f1]; cbn; rewrite ?W1, ?W2, ?E; by split.
Qed.
End Actor.

(** *** Who asks *)
Lemma same_session value d1 d2 :
  same_view t d1 d2 -> session_user value now (wk_accounts d1) = session_user value now (wk_accounts d2).
Proof.
  intros V. pose proof (sv_accounts _ _ _ V) as E.
  assert (E1 : at_sessions (wk_accounts d1) = at_sessions (wk_accounts d2)) by exact (f_equal at_sessions E).
  assert (E2 : at_users (wk_accounts d1) = at_users (wk_accounts d2)) by exact (f_equal at_users E).
  unfold session_user. by rewrite E1, E2.
Qed.

Lemma sim_authenticated : sim (on_accounts_of (authenticatedSession now r)).
Proof.
  intros [d1 f1 r1] [d2 f2 r2] (V & Ef & Er & Ha). cbn in *. subst f2 r2.
  assert (W1 : with_wk_accounts (wk_accounts d1) d1 = d1) by by destruct d1.
  assert (W2 : with_wk_accounts (wk_accounts d2) d2 = d2) by by destruct d2.
  unfold on_accounts_of, zoom, authenticatedSession. cbn.
  destruct (rq_cookie r) as [value|]; cbn; [|by rewrite W1, W2].
  destruct (String.eqb value ""); cbn; [by rewrite W1, W2|].
  unfold bind, attempt, Get, query, bind, round_trip, gets. cbn.
  destruct f1 as [|[e|] f1]; cbn; rewrite ?(same_session value d1 d2 V);
    try destruct (session_user value now (wk_accounts d2)); cbn; rewrite W1, W2; by split.
Qed.

Lemma authenticated_actor d :
  wp d (on_accounts_of (authenticatedSession now r))
    (fun res _ => forall u s, res = Ok (inr (u, s)) -> actor_of now r d u).
Proof. apply wp_authenticated; [by intros actor s A u s' [= <- _]|discriminate|discriminate]. Qed.

Lemma sim_user k : (forall u, activeTenant u = t -> sim (k u)) -> sim (as_user now r k).
Proof.
  intros H w1 w2 W. pose proof (sim_authenticated w1 w2 W) as [E W'].
  pose proof (authenticated_actor (w_db w1) w1 eq_refl) as A.
  unfold as_user, bind. destruct (on_accounts_of _ w1) as [res w1'], (on_accounts_of _ w2) as [res' w2'].
  cbn in E, W', A. subst res'. destruct res as [[reply|[u s]]|e]; [by split|apply H; [|exact W']|by split].
  destruct W as (_ & _ & _ & Ha). by apply Ha, (A u s).
Qed.

Lemma sim_capable c k : (forall u, activeTenant u = t -> sim (k u)) -> sim (as_capable now r c k).
Proof.
  intros H. apply sim_user. intros u Hu. destruct (existsb _ _); [by apply H|apply sim_ret].
Qed.

Lemma sim_path name k : (forall id, sim (k id)) -> sim (path_id r name k).
Proof. intros H. unfold path_id. destruct (parsePathID _); [apply H|apply sim_ret]. Qed.

Lemma sim_show {A} (m : M WorkTables A) reply : sim m -> sim (show m reply).
Proof. intros H. apply sim_bind; [by apply sim_attempt|]. intros a. apply sim_ret. Qed.

Lemma sim_attempt_ret {A} (m : M WorkTables A) (k : outcome A -> wreply) :
  sim m -> sim (let! x := attempt m in ret (k x)).
Proof. intros H. apply sim_bind; [by apply sim_attempt|]. intros a. apply sim_ret. Qed.

Lemma sim_reads rt : reads rt = true -> sim (serve_work toUpper now rt r).
Proof.
  destruct rt; intros R; try discriminate R; cbn [serve_work];
    first [apply sim_capable; intros u Hu | apply sim_user; intros u Hu];
    unfold project_path; repeat (apply sim_path; intros ?);
    first [apply sim_show|apply sim_attempt_ret];
    first [ by apply sim_list | by apply sim_ListProjects | by apply sim_get | by apply sim_asset
          | by apply sim_all | by apply sim_GetProject ].
Qed.

(** Claim C10: a read shows the active customer's rows, and only those.  In two databases
    with the same accounts and sessions and the same projects, resources and archive
    marks of one customer, whatever rows other customers have, a request whose user
    works on that customer gets the same answer from every reading route, under the same
    failures: nothing of another customer can be learnt. *)
Theorem reads_see_own_rows (rt : work_route) (w1 w2 : world WorkTables) :
  reads rt = true -> same_view t (w_db w1) (w_db w2) ->
  w_faults w1 = w_faults w2 -> w_random w1 = w_random w2 ->
  (forall u, actor_of now r (w_db w1) u -> activeTenant u = t) ->
  fst (serve_work toUpper now rt r w1) = fst (serve_work toUpper now rt r w2).
Proof. intros R V Ef Er A. apply (sim_reads rt R w1 w2). by split_and!. Qed.
End Reads.

(** * Requests of two customers *)
(** Columns that keep every text. *)
#[export] Instance plain_columns : Columns := {| kept _ _ s := Some s |}.

Definition sample_resource (id project owner : Z) (name : string) : ResourceRow :=
  {| rs_id := id; rs_name := name; rs_description := Some "d"; rs_config := Some "{}"; rs_order := id;
     rs_idProject := project; rs_idCostumer := owner; rs_created_at := None; rs_updated_at := None |}.

Definition sample_project (id owner : Z) : ProjectRow :=
  {| pr_id := id; pr_name := "P"; pr_description := None; pr_idCostumer := owner; pr_created_at := None;
     pr_updated_at := None |}.

(** Project 1 is customer 8's, project 2 is customer 7's; [foreign] are further steps of
    customer 7. *)
Definition workspace (foreign : list ResourceRow) : WorkTables :=
  {| wk_accounts := with_projects [sample_project 1 8; sample_project 2 7] (w_db admin_world);
     wk_nextProject := 3; wk_archivedAt := ∅;
     wk_test_cycles := {| rt_rows := [sample_resource 1 1 8 "cycle"; sample_resource 2 2 7 "cycle"]; rt_next := 3 |};
     wk_tests := {| rt_rows := [sample_resource 1 1 8 "login"; sample_resource 2 2 7 "login"]; rt_next := 3 |};
     wk_steps := {| rt_rows := sample_resource 1 1 8 "open" :: foreign; rt_next := 10 |};
     wk_environments := {| rt_rows := []; rt_next := 1 |};
     wk_plugins := {| rt_rows := []; rt_next := 1 |};
     wk_versions := [];
     wk_performed_cycles := [{| pf_id := 1; pf_idCostumer := 8; pf_parent := 1 |};
                             {| pf_id := 2; pf_idCostumer := 7; pf_parent := 2 |}];
     wk_performed_tests := [{| pf_id := 1; pf_idCostumer := 8; pf_parent := 1 |};
                            {| pf_id := 2; pf_idCostumer := 7; pf_parent := 2 |}];
     wk_performed_steps := [{| pf_id := 1; pf_idCostumer := 8; pf_parent := 1 |}] |}.

Definition work_world : world WorkTables := World (workspace [sample_resource 4 2 7 "theirs"]) [] [].

(** A request of the administrator of customer 8, who has role 2. *)
Definition work_request (path : list (string * string)) (members : list (string * field)) : Request :=
  {| rq_path := path; rq_header := []; rq_query := []; rq_cookie := Some admin_session;
     rq_body := BodyObject members |}.

Definition serve_sample_work (rt : work_route) (r : Request) : M WorkTables wreply :=
  serve_work (fun s => s) noon rt r.

Definition status_of_work (res : outcome wreply) : option Z :=
  match res with Ok reply => Some (rp_status reply) | Err _ => None end.

Lemma work_world_ok : work_ok (w_db work_world).
Proof.
  split.
  - split; cbn; repeat constructor; cbn; intuition discriminate.
  - intros k. split; destruct k; cbn; repeat constructor; cbn; intuition discriminate.
  - intros t a id. reflexivity.
Qed.

Lemma work_linked : linked (w_db work_world).
Proof.
  split; cbn; intros x Hx; repeat (destruct Hx as [<-|Hx]); try done; cbn.
  - exists (sample_resource 1 1 8 "cycle"). auto.
  - exists (sample_resource 2 2 7 "cycle"). auto.
  - exists {| pf_id := 1; pf_idCostumer := 8; pf_parent := 1 |}. auto.
  - exists {| pf_id := 2; pf_idCostumer := 7; pf_parent := 2 |}. auto.
  - exists {| pf_id := 1; pf_idCostumer := 8; pf_parent := 1 |}. auto.
Qed.

(** Only the administrator is signed in with that cookie. *)
Lemma only_admin r w (u : User) :
  rq_cookie r = Some admin_session -> wk_accounts (w_db w) = wk_accounts (w_db work_world) ->
  actor_of noon r (w_db w) u -> u = admin_user.
Proof.
  intros E Ew (c & su & Hc & Hs & ->). rewrite E in Hc. injection Hc as <-. rewrite Ew in Hs.
  assert (X : session_user admin_session noon (wk_accounts (w_db work_world))
              = Some (admin_row, sample_user 2 2 8 "admin@x")) by (vm_compute; reflexivity).
  pose proof (eq_trans (eq_sym Hs) X) as Y. injection Y as ->. vm_compute. reflexivity.
Qed.

(** The administrator edits test 1: a version is recorded. *)
Definition edit_test (id : string) : Request :=
  work_request [("idProject", "1"); ("test", id)] [("config", text_field "[]")].

#[local] Notation edited := (serve_sample_work UpdateTestRoute (edit_test "1") work_world).

Lemma work_requests_isolated_witness :
  work_ok (w_db work_world)
  /\ work_ok (w_db (snd edited))
  /\ status_of_work (fst edited) = Some 200
  /\ map vr_version (wk_versions (w_db (snd edited))) = [1]
  /\ status_of_work (fst (serve_sample_work UpdateTestRoute (edit_test "2") work_world)) = Some 404.
Proof.
  split; [exact work_world_ok|]. split; [|split; [|split]; vm_compute; reflexivity].
  assert (B : countable_versions (w_db (snd edited))) by (vm_compute; discriminate).
  exact (proj1 (work_requests_isolated (fun s => s) noon UpdateTestRoute (edit_test "1") work_world (snd edited)
    (fst edited) work_world_ok B (surjective_pairing _))).
Defined.

(** Steps of customer 7 make no difference to what customer 8 reads. *)
#[local] Notation reading w := (serve_sample_work GetSteps (work_request [("idProject", "1")] []) w).

Lemma reads_see_own_rows_witness :
  fst (reading work_world) = fst (reading (World (workspace []) [] []))
  /\ status_of_work (fst (reading work_world)) = Some 200.
Proof.
  split; [|vm_compute; reflexivity].
  apply (reads_see_own_rows (fun s => s) noon (work_request [("idProject", "1")] []) 8 GetSteps).
  - reflexivity.
  - split; [reflexivity|reflexivity|reflexivity|]. intros []; reflexivity.
  - reflexivity.
  - reflexivity.
  - intros u A. rewrite (only_admin (work_request [("idProject", "1")] []) work_world u eq_refl eq_refl A). reflexivity.
Defined.

Lemma project_deletion_complete_witness :
  linked (w_db work_world)
  /\ fst (DeleteProject 8 1 work_world) = Ok tt
  /\ linked (w_db (snd (DeleteProject 8 1 work_world)))
  /\ map pf_id (wk_performed_tests (w_db (snd (DeleteProject 8 1 work_world)))) = [2]
  /\ w_db (snd (DeleteProject 8 1 (World (w_db work_world) [None; None; None; None; Some Canceled] [])))
     = w_db work_world.
Proof.
  split; [exact work_linked|]. split; [vm_compute; reflexivity|]. split; [|split].
  - exact (proj1 (project_deletion_complete 8 1 work_world (snd (DeleteProject 8 1 work_world))
      (fst (DeleteProject 8 1 work_world)) work_linked (surjective_pairing _))).
  - vm_compute. reflexivity.
  - reflexivity.
Defined.

(** A step is created and the answer is 404; a second try creates a second step. *)
Definition step_creation : Request :=
  work_request [] [("idProject", Field (jint 1) (Some 1)); ("name", text_field "click")].

#[local] Notation created := (serve_sample_work CreateStepRoute step_creation work_world).

(** A project is created and the answer is 403. *)
Definition project_creation : Request := work_request [] [("name", text_field "X")].
#[local] Notation founded := (serve_sample_work CreateProjectRoute project_creation work_world).

Lemma success_answered_as_failure_witness :
  (exists reply, fst created = Ok reply /\ rp_status reply = 404 /\ rp_status reply <> 200)
  /\ map rs_name (rt_rows (wk_steps (w_db (snd (serve_sample_work CreateStepRoute step_creation (snd created))))))
     = ["open"; "theirs"; "click"; "click"]
  /\ (exists reply, fst founded = Ok reply /\ rp_status reply = 403 /\ rp_status reply <> 200)
  /\ map pr_name (at_projects (wk_accounts (w_db (snd founded)))) = ["P"; "P"; "X"].
Proof.
  split; [|split; [vm_compute; reflexivity|split; [|vm_compute; reflexivity]]].
  - destruct created as [res w'] eqn:E. cbn [fst].
    assert (X : status_of_work (fst created) = Some 404) by (vm_compute; reflexivity).
    rewrite E in X. destruct res as [reply|e]; [|discriminate X]. injection X as X.
    exists reply. split; [reflexivity|]. split; [exact X|].
    apply (success_answered_as_failure (fun s => s) noon CreateStepRoute step_creation work_world w' reply); [|exact E].
    left. split; [by left|reflexivity].
  - destruct founded as [res w'] eqn:E. cbn [fst].
    assert (X : status_of_work (fst founded) = Some 403) by (vm_compute; reflexivity).
    rewrite E in X. destruct res as [reply|e]; [|discriminate X]. injection X as X.
    exists reply. split; [reflexivity|]. split; [exact X|].
    apply (success_answered_as_failure (fun s => s) noon CreateProjectRoute project_creation work_world w' reply); [|exact E].
    right. split; [by left|]. intros u A. rewrite (only_admin project_creation work_world u eq_refl eq_refl A). reflexivity.
Defined.

Definition sample_cycle_update : TestCycleUpdate :=
  {| cyu_ID := 1; cyu_IDProject := 1; cyu_Description := "e"; cyu_Config := "[]" |}.
Definition sample_test_update : TestUpdate := {| teu_ID := 2; teu_IDProject := 1; teu_Config := "[]" |}.

#[local] Notation cycle_updated := (UpdateTestCycle noon admin_user sample_cycle_update work_world).
#[local] Notation test_updated := (UpdateTest noon admin_user sample_test_update work_world).

Lemma asset_update_versioned_witness :
  recorded_or_same TestCycleR "test_cycle" admin_user 1 1 (Some "e") "[]" (w_db work_world)
    (fst cycle_updated) (w_db (snd cycle_updated))
  /\ fst cycle_updated = Ok tt
  /\ map vr_version (wk_versions (w_db (snd cycle_updated))) = [1]
  /\ fst test_updated = Err ErrNotFound /\ w_db (snd test_updated) = w_db work_world.
Proof.
  assert (B : Z.of_nat (length (wk_versions (w_db work_world))) < int64_max) by (vm_compute; reflexivity).
  destruct (asset_update_versioned noon admin_user sample_cycle_update sample_test_update work_world
    (snd cycle_updated) (snd test_updated) (fst cycle_updated) (fst test_updated) work_world_ok B
    (surjective_pairing _) (surjective_pairing _)) as [H1 H2].
  split; [exact H1|]. split; [vm_compute; reflexivity|]. split; [vm_compute; reflexivity|].
  assert (E : fst test_updated = Err ErrNotFound) by (vm_compute; reflexivity). split; [exact E|].
  rewrite E in H2. exact H2.
Defined.

(** ** Single requests *)
#[local] Notation status rt r w := (status_of_work (fst (serve_sample_work rt r w))).

(** The config of a test goes into its version as it is. *)
Definition secret_edit : Request :=
  work_request [("idProject", "1"); ("test", "1")]
    [("config", text_field (json_text "{'password':'hunter2'}"))].

Example snapshot_not_redacted :
  existsb (fun v => contains (vr_snapshot v) "hunter2")
    (wk_versions (w_db (snd (serve_sample_work UpdateTestRoute secret_edit work_world)))) = true.
Proof. vm_compute. reflexivity. Qed.

(** Tests have no column for the order that the query may ask for. *)
Example order_of_tests_500 :
  status GetTests {| rq_path := [("idProject", "1")]; rq_header := []; rq_query := [("sort", "order")];
                     rq_cookie := Some admin_session; rq_body := BodyEOF |} work_world = Some 500.
Proof. vm_compute. reflexivity. Qed.

(** An unknown project is a 422 for a test and a 500 for a step. *)
Example unknown_project :
  status CreateTestRoute (work_request [] [("name", text_field "t"); ("description", text_field "d");
    ("config", text_field "{}"); ("idProject", Field (jint 9) (Some 9))]) work_world = Some 422
  /\ status CreateStepRoute (work_request [] [("name", text_field "t");
       ("idProject", Field (jint 9) (Some 9))]) work_world = Some 500.
Proof. split; vm_compute; reflexivity. Qed.

(** Saving an order twice in one second is a 404. *)
Definition new_order : Request :=
  work_request [("idProject", "1")]
    [("offset", Field (jint 5) (Some 5)); ("order", Field (JArr [JObj [("id", jint 1)]]) None)].

Example reordered_twice :
  status ReorderRoute new_order work_world = Some 200
  /\ status ReorderRoute new_order (snd (serve_sample_work ReorderRoute new_order work_world)) = Some 404.
Proof. split; vm_compute; reflexivity. Qed.

(** An archived project is listed, and not shown. *)
Definition archived_world : world WorkTables :=
  let d := workspace [] in
  World {| wk_accounts := with_projects [sample_project 1 7] root_tables; wk_nextProject := 3;
           wk_archivedAt := {[1 := noon]}; wk_test_cycles := wk_test_cycles d; wk_tests := wk_tests d;
           wk_steps := wk_steps d; wk_environments := wk_environments d; wk_plugins := wk_plugins d;
           wk_versions := []; wk_performed_cycles := []; wk_performed_tests := []; wk_performed_steps := [] |} [] [].

Definition root_request (path : list (string * string)) : Request :=
  {| rq_path := path; rq_header := []; rq_query := []; rq_cookie := Some root_session; rq_body := BodyEOF |}.

Example archived_project_listed :
  fst (serve_sample_work GetProjects (root_request []) archived_world)
    = Ok (written 200 (WProjects [project_of (sample_project 1 7)]))
  /\ status GetOneProject (root_request [("idProject", "1")]) archived_world = Some 404.
Proof. split; vm_compute; reflexivity. Qed.
