(* ===== verification/Desk.v ===== *)
(** * The desk: what the administration routes share

    The routes of internal/browserauth/admin.go work on accounts, on the audit log and on
    tables of their own.  The class [Desk] is what they ask of their state; who a request
    acts for and what an audit event adds is proved here once, for every such state.

    JSON columns keep the value of a document, not its text ([JsonColumn]). *)

From stdpp Require Import pretty.
From S2P Require Import Prelude GoStrings GoTime Json JsonText JsonRoundTrip Redaction Effects Http Contracts AccountTables Sessions Accounts Sql.
From S2P Require Import SessionTheorems AccountTheorems.

(** ** JSON columns *)

(** The text that a JSON column gives back; [None] when the server refuses it. *)
Class JsonColumn := { json_column : string -> option string }.

Class JsonColumnLaws `{F : Floats} (C : JsonColumn) := {
  json_column_value : forall s s',
    json_column s = Some s' -> unmarshalAny s' = unmarshalAny s;
}.

(** A nullable JSON column. *)
Definition json_nullable `{C : JsonColumn} (s : option string) : option (option string) :=
  match s with None => Some None | Some s => Some <$> json_column s end.

(** ** The audit log *)

(** A row of audit_events. *)
Record EventRow := {
  ev_id : Z;
  ev_actorUserId : option Z;
  ev_actorTenantId : option Z;
  ev_activeTenantId : Z;
  ev_idProject : option Z;
  ev_action : string;
  ev_targetType : string;
  ev_targetId : option string;
  ev_beforeValues : option string;
  ev_afterValues : option string;
  ev_result : string;
  ev_sourceIp : option string;
  ev_correlationId : string;
  ev_metadata : option string;
  ev_created_at : time;
}.

#[export] Instance event_row_eq_dec : EqDecision EventRow.
Proof. solve_decision. Defined.

Record EventTable := { et_rows : list EventRow; et_next : Z }.

(** ** Responses *)
Inductive desk_payload (A : Type) :=
| DSession (p : session_payload)
| DMessage (text : string)
| DErrors (errors : list (string * list string))
| DData (data : A)
| DNothing.  (** the handler wrote nothing: 200 with an empty body *)
Arguments DNothing {A}.
Arguments DSession {A}.
Arguments DMessage {A}.
Arguments DErrors {A}.
Arguments DData {A}.

Notation desk_reply_of A := (reply_of (desk_payload A)).

Definition desk_reply {A} (r : sreply) : desk_reply_of A := Reply (rp_status r) (rp_cookies r) (DSession (rp_body r)).
Definition desk_notFound {A} : desk_reply_of A := written 404 (DMessage "Not found.").
Definition desk_failed {A} : desk_reply_of A := desk_reply internalError.
Definition desk_errors {A} (l : list (string * list string)) : desk_reply_of A := written 422 (DErrors l).
Definition desk_unwritten {A} : desk_reply_of A := written 200 DNothing.
Definition desk_error {A} (field text : string) : desk_reply_of A := desk_errors [(field, [text])].

(** What most routes answer to an error of the repository. *)
Definition desk_refused {A} (e : error) : desk_reply_of A :=
  match e with
  | ErrNotFound => desk_notFound
  | ValidationFailure errors => desk_errors errors
  | _ => desk_failed
  end.

(** ** Bodies

    [decodeJSON]: unknown members are errors; [None] is an error.  A pointer is nil when
    its member is null or absent. *)
Definition decode_body {A} (fields : list (string * setter A)) (zero : A) (r : Request) : option A :=
  match decode true fields zero (rq_body r) with Decoded b => Some b | DecodedEOF | DecodeError => None end.

Definition to_bool_pointer {A} (upd : option bool -> A -> A) : setter A := fun v s =>
  match fl_value v with JBool b => Some (upd (Some b) s) | JNull => Some (upd None s) | _ => None end.

Definition to_string_pointer {A} (upd : option string -> A -> A) : setter A := fun v s =>
  match fl_value v with JStr t => Some (upd (Some t) s) | JNull => Some (upd None s) | _ => None end.

(** ** The interface *)
Class Desk (D : Type) := {
  accounts : D -> AccountTables;
  with_accounts : AccountTables -> D -> D;
  events : D -> EventTable;
  with_events : EventTable -> D -> D;
}.

Class DeskLaws (D : Type) `{K : Desk D} := {
  with_accounts_same : forall d, with_accounts (accounts d) d = d;
  accounts_with_events : forall t d, accounts (with_events t d) = accounts d;
  events_with_events : forall t d, events (with_events t d) = t;
}.

(** What one event says: the columns that the callers fill. *)
Record Event := {
  vt_project : Z;
  vt_action : string;
  vt_targetType : string;
  vt_target : Z;
  vt_before : option (dict json);
  vt_after : option (dict json);
  vt_metadata : option (dict json);
}.

Definition redacted_text `{F : Floats} (d : dict json) : string := marshal (Redact (JObj d)).

Section Operations.
Context `{MS : MySQL} `{F : Floats} `{C : JsonColumn} {D : Type} `{K : Desk D}.
Context {A : Type} (now : time) (sourceIP : string).
Notation H := (M D (desk_reply_of A)).

(** [correlationID] of the mysql package: the header, or a fresh identifier. *)
Definition correlation (r : Request) : M D string :=
  let value := header r "X-Correlation-ID" in
  if negb (String.eqb value "") then ret value else zoom accounts with_accounts randomUUID.

(** The row of an event; the server stamps it. *)
Definition event_row (actor : User) (e : Event) (correlationId : string) (d : D) : option EventRow :=
  before ← json_nullable (redacted_text <$> vt_before e);
  after ← json_nullable (redacted_text <$> vt_after e);
  metadata ← json_nullable (redacted_text <$> vt_metadata e);
  Some {| ev_id := et_next (events d); ev_actorUserId := Some (u_ID actor);
          ev_actorTenantId := Some (u_TenantID actor); ev_activeTenantId := activeTenant actor;
          ev_idProject := Some (vt_project e); ev_action := vt_action e; ev_targetType := vt_targetType e;
          ev_targetId := Some (pretty (vt_target e)); ev_beforeValues := before; ev_afterValues := after;
          ev_result := "success"; ev_sourceIp := Some sourceIP; ev_correlationId := correlationId;
          ev_metadata := metadata; ev_created_at := column_time now |}.

Definition add_event (row : EventRow) (d : D) : D :=
  with_events {| et_rows := et_rows (events d) ++ [row]; et_next := et_next (events d) + 1 |} d.

(** The INSERT INTO audit_events that [recordArtifactLifecycleAudit],
    [recordIntegrationAudit] and [TransitionAssetVersionReview] end with. *)
Definition record_event (op : string) (r : Request) (actor : User) (e : Event) : M D unit :=
  let! correlationId := correlation r in
  let! _ := exec_refusable op (fun d =>
    row ← event_row actor e correlationId d; Some (add_event row d, ev_id row)) in
  ret tt.

(** ** Who asks *)

(** [authenticatedUser], [requireCapability] and [requireAnyCapability]. *)
Definition signed_in (r : Request) (k : User -> H) : H :=
  let! s := zoom accounts with_accounts (authenticatedSession now r) in
  match s with inl response => ret (desk_reply response) | inr (u, _) => k u end.

Definition permitted (user : User) (capabilities : list string) : bool :=
  existsb (fun c => existsb (String.eqb c) (capabilitiesForRole (u_Role user))) capabilities.

Definition requireAnyCapabilityForUser (user : User) (capabilities : list string) (k : H) : H :=
  if permitted user capabilities then k else ret (desk_reply forbidden).

Definition requireAnyCapability (r : Request) (capabilities : list string) (k : User -> H) : H :=
  signed_in r (fun user => requireAnyCapabilityForUser user capabilities (k user)).

Definition with_capability (r : Request) (capability : string) (k : User -> H) : H :=
  requireAnyCapability r [capability] k.

(** [parsePathID(request.PathValue(...))]. *)
Definition desk_id (r : Request) (name : string) (k : Z -> H) : H :=
  match parsePathID (pathValue r name) with None => ret desk_notFound | Some id => k id end.

(** A call of the repository, and what its outcome answers. *)
Definition answer {B} (m : M D B) (status : Z) (data : B -> A) : H :=
  let! x := attempt m in
  ret (match x with Ok b => written status (DData (data b)) | Err e => desk_refused e end).
End Operations.

(** ** Contracts *)
Section Rules.
Context `{MS : MySQL} `{F : Floats} `{C : JsonColumn} {D : Type} `{K : Desk D} `{!DeskLaws D}.
Context {A : Type} (now : time) (sourceIP : string).
Implicit Types d : D.
Notation reply := (desk_reply_of A).

(** The request carries the session of this user. *)
Definition asks_as (r : Request) d (actor : User) : Prop := acts_for now r (accounts d) actor.

Lemma wp_signed_in d r (k : User -> M D reply) (Q : outcome reply -> D -> Prop) :
  (forall actor, asks_as r d actor -> wp d (k actor) Q) ->
  (forall x, rp_status x <> 200 -> Q (Ok (desk_reply x)) d) -> (forall e, Q (Err e) d) ->
  wp d (signed_in now r k) Q.
Proof.
  intros H X E. unfold signed_in, authenticatedSession, Get.
  repeat wp_step; rewrite ?with_accounts_same; try (by apply X); try apply E.
  apply H. by eexists _, _.
Qed.

Lemma permitted_In user l : permitted user l = true -> exists c, In c l /\ In c (capabilitiesForRole (u_Role user)).
Proof.
  intros (c & Hc & X)%existsb_exists. apply existsb_exists in X as (x & Hx & ->%String.eqb_eq). by exists x.
Qed.

Lemma wp_any_capability d r l (k : User -> M D reply) (Q : outcome reply -> D -> Prop) :
  (forall actor, asks_as r d actor -> permitted actor l = true -> wp d (k actor) Q) ->
  (forall x, rp_status x <> 200 -> Q (Ok (desk_reply x)) d) -> (forall e, Q (Err e) d) ->
  wp d (requireAnyCapability now r l k) Q.
Proof.
  intros H X E. apply wp_signed_in; [|done..]. intros actor Ha. unfold requireAnyCapabilityForUser.
  destruct (permitted actor l) eqn:G; [by apply H|by apply wp_ret, X].
Qed.

Lemma wp_capability d r c (k : User -> M D reply) (Q : outcome reply -> D -> Prop) :
  (forall actor, asks_as r d actor -> In c (capabilitiesForRole (u_Role actor)) -> wp d (k actor) Q) ->
  (forall x, rp_status x <> 200 -> Q (Ok (desk_reply x)) d) -> (forall e, Q (Err e) d) ->
  wp d (with_capability now r c k) Q.
Proof.
  intros H X E. apply wp_any_capability; [|done..]. intros actor Ha G. apply H; [done|].
  apply permitted_In in G as (c' & [<-|[]] & I). exact I.
Qed.

Lemma wp_desk_id d r name (k : Z -> M D reply) (Q : outcome reply -> D -> Prop) :
  (forall id, parsePathID (pathValue r name) = Some id -> wp d (k id) Q) -> Q (Ok desk_notFound) d ->
  wp d (desk_id r name k) Q.
Proof. intros H X. unfold desk_id. destruct (parsePathID _) eqn:E; [by apply H|by apply wp_ret]. Qed.

Lemma desk_refused_status e : rp_status (desk_refused e : reply) <> 200.
Proof. by destruct e. Qed.

Lemma wp_answer {B} d (m : M D B) status (data : B -> A) (Q : outcome reply -> D -> Prop) :
  wp d m (fun x d' => match x with
                      | Ok b => Q (Ok (written status (DData (data b)))) d'
                      | Err (Panic t) => Q (Err (Panic t)) d'
                      | Err e => Q (Ok (desk_refused e)) d'
                      end) ->
  wp d (answer m status data) Q.
Proof.
  intros H. apply wp_bind, wp_attempt. eapply wp_weaken; [exact H|].
  intros [b|[]] d' X; try apply wp_ret; exact X.
Qed.

(** What an event adds: one row with a new identifier, for the customer of its actor,
    whose values are redacted. *)
Record audited (actor : User) (e : Event) d d' : Prop := {
  ad_row : exists row correlationId, event_row now sourceIP actor e correlationId d = Some row /\ d' = add_event row d;
}.

Lemma wp_uuid d (Q : outcome string -> D -> Prop) :
  (forall s, Q (Ok s) d) -> wp d (zoom accounts with_accounts randomUUID) Q.
Proof. intros H. unfold randomUUID. repeat wp_step; rewrite ?with_accounts_same; apply H. Qed.

Lemma wp_correlation d r (Q : outcome string -> D -> Prop) :
  (forall s, Q (Ok s) d) -> wp d (correlation r) Q.
Proof.
  intros H. unfold correlation. destruct (negb _); [by apply wp_ret|by apply wp_uuid].
Qed.

Lemma wp_record_event d op r actor e (Q : outcome unit -> D -> Prop) :
  (forall d', audited actor e d d' -> Q (Ok tt) d') -> (forall x, Q (Err (DatabaseFailure x)) d) ->
  wp d (record_event now sourceIP op r actor e) Q.
Proof.
  intros H E. apply wp_bind, wp_correlation. intros c. apply wp_bind, wp_exec_refusable; [|done].
  intros d' n (row & R & [= <- <-])%bind_Some. apply wp_ret, H. split. by exists row, c.
Qed.

Lemma event_row_fields actor e c d row :
  event_row now sourceIP actor e c d = Some row ->
  ev_id row = et_next (events d) /\ ev_activeTenantId row = activeTenant actor
  /\ ev_actorUserId row = Some (u_ID actor) /\ ev_action row = vt_action e
  /\ ev_idProject row = Some (vt_project e) /\ ev_targetId row = Some (pretty (vt_target e)).
Proof.
  unfold event_row. intros (? & _ & X)%bind_Some. apply bind_Some in X as (? & _ & X).
  apply bind_Some in X as (? & _ & [= <-]). done.
Qed.
End Rules.

(** A primary key tells rows apart. *)
Lemma nodup_key {A} (key : A -> Z) (l : list A) x y :
  List.NoDup (map key l) -> In x l -> In y l -> key x = key y -> x = y.
Proof.
  induction l as [|z l IH]; [done|]. cbn. intros N. inversion N as [|? ? H1 H2]; subst.
  intros [->|Hx] [->|Hy] E; [done|..|by apply IH].
  - destruct H1. rewrite E. by apply in_map.
  - destruct H1. rewrite <- E. by apply in_map.
Qed.


(** ** Reading

    A computation that changes nothing, whatever it meets. *)
Definition keeps {D A} (m : M D A) : Prop := forall d, wp d m (fun _ d' => d' = d).

Section Keeps.
Context {D : Type}.

Lemma keeps_ret {A} (a : A) : keeps (ret a : M D A).
Proof. intros d. by apply wp_ret. Qed.

Lemma keeps_fail {A} e : keeps (fail e : M D A).
Proof. intros d. by apply wp_fail. Qed.

Lemma keeps_query {A} op (f : D -> A) : keeps (query op f).
Proof. intros d. by apply wp_query. Qed.

Lemma keeps_guard b e : keeps (guard b e : M D unit).
Proof. destruct b; [apply keeps_ret|apply keeps_fail]. Qed.

Lemma keeps_bind {A B} (m : M D A) (k : A -> M D B) : keeps m -> (forall a, keeps (k a)) -> keeps (bind m k).
Proof. intros H K d. apply wp_bind. eapply wp_weaken; [apply H|]. intros [a|e] d' ->; [apply K|done]. Qed.

Lemma keeps_attempt {A} (m : M D A) : keeps m -> keeps (attempt m).
Proof. intros H d. apply wp_attempt. eapply wp_weaken; [apply H|]. by intros [a|[]] d'. Qed.

Lemma keeps_mapM {A B} (f : A -> M D B) l : (forall x, keeps (f x)) -> keeps (mapM f l).
Proof.
  intros H. induction l as [|x l IH]; [apply keeps_ret|]. apply keeps_bind; [apply H|]. intros y.
  apply keeps_bind; [exact IH|]. intros ys. apply keeps_ret.
Qed.

Lemma keeps_elim {A} (m : M D A) w x w' : keeps m -> m w = (x, w') -> w_db w' = w_db w.
Proof. intros H E. exact (wp_elim _ _ _ _ _ (H (w_db w)) E). Qed.
End Keeps.

Section KeepsDesk.
Context `{MS : MySQL} {D : Type} `{K : Desk D} `{!DeskLaws D} {A : Type} (now : time).
Notation H := (M D (desk_reply_of A)).

Lemma keeps_answer {B} (m : M D B) status (data : B -> A) : keeps m -> keeps (answer m status data : H).
Proof. intros Hm. apply keeps_bind; [by apply keeps_attempt|]. intros x. apply keeps_ret. Qed.

Lemma keeps_signed_in r (k : User -> H) : (forall u, keeps (k u)) -> keeps (signed_in now r k).
Proof. intros Hk d. apply wp_signed_in; [|done..]. intros u _. apply Hk. Qed.

Lemma keeps_any_capability r l (k : User -> H) : (forall u, keeps (k u)) -> keeps (requireAnyCapability now r l k).
Proof. intros Hk d. apply wp_any_capability; [|done..]. intros u _ _. apply Hk. Qed.

Lemma keeps_capability r c (k : User -> H) : (forall u, keeps (k u)) -> keeps (with_capability now r c k).
Proof. apply keeps_any_capability. Qed.

Lemma keeps_desk_id r name (k : Z -> H) : (forall id, keeps (k id)) -> keeps (desk_id r name k).
Proof. intros Hk d. apply wp_desk_id; [|done]. intros id _. apply Hk. Qed.
End KeepsDesk.

Create HintDb keeps discriminated.
#[export] Hint Resolve keeps_ret keeps_fail keeps_query keeps_guard keeps_bind keeps_attempt keeps_mapM
  keeps_answer keeps_signed_in keeps_any_capability keeps_capability keeps_desk_id : keeps.
