(* ===== verification/AuditEvents.v ===== *)
(** * Reading the audit log

    internal/persistence/mysql/browser_audit.go and the routes AuditEvents and
    AccountAudit of internal/browserauth/admin.go, on any state with a [Desk].

    [r.URL.Query()] is a dictionary of first values; the driver sends an instant as it
    is. *)

From stdpp Require Import pretty sorting.
From S2P Require Import Prelude GoStrings GoTime Json JsonText JsonRoundTrip Redaction Effects Http Contracts AccountTables Sessions Accounts Sql.
From S2P Require Import SessionTheorems AccountTheorems Desk.
From S2P Require Import RunTheorems CliTheorems.

(** ** Filters and records *)
Record AuditEventFilter := {
  fl_Action : string;
  fl_TargetType : string;
  fl_TargetID : string;
  fl_CorrelationID : string;
  fl_From : option time;
  fl_To : option time;
  fl_Limit : Z;
}.

Record AuditEventRecord := {
  rc_ID : Z;
  rc_ActorUserID : option Z;
  rc_ActorTenantID : option Z;
  rc_ActiveTenantID : Z;
  rc_IDProject : option Z;
  rc_Action : string;
  rc_TargetType : string;
  rc_TargetID : option string;
  rc_BeforeValues : option (dict json);
  rc_AfterValues : option (dict json);
  rc_Result : string;
  rc_SourceIP : option string;
  rc_CorrelationID : string;
  rc_Metadata : option (dict json);
  rc_CreatedAt : time;
}.

(** A layout of time.Parse with the date only. *)
Definition parseDate (s : string) : option time :=
  '(y, l) ← num 4 0 (chars s); l ← expect "-"%char l;
  '(m, l) ← num 2 0 l; l ← expect "-"%char l;
  '(d, l) ← num 2 0 l;
  if (1 <=? m) && (m <=? 12) && (1 <=? d) && (d <=? days_in y m) && match l with [] => true | _ => false end
  then Some (days_of_civil y m d * 86400 * second) else None.

Definition parseAuditDate (value : string) : option time :=
  match parseRFC3339 value with
  | Some t => Some t
  | None => match parseDateTime value with Some t => Some t | None => parseDate value end
  end.

(** The pattern of a UUID: groups of hexadecimal digits, with what the version and the
    variant may begin with. *)
Definition hex_any (c : ascii) : bool := within 48 57 c || within 65 70 c || within 97 102 c.

Definition uuid_variant (c : ascii) : bool := existsb (Ascii.eqb c) ["8"; "9"; "a"; "b"; "A"; "B"]%char.

Definition group_of (n : nat) (first : ascii -> bool) (l : list ascii) : bool :=
  (length l =? n)%nat && match l with c :: l' => first c && forallb hex_any l' | [] => false end.

Definition uuid_pattern (version : ascii -> bool) (s : string) : bool :=
  match split_chars "-"%char (chars s) with
  | [a; b; c; d; e] =>
      group_of 8 hex_any a && group_of 4 hex_any b && group_of 4 version c && group_of 4 uuid_variant d
      && group_of 12 hex_any e
  | _ => false
  end.

Definition auditUUIDPattern : string -> bool := uuid_pattern hex_any.

(** [decodeRedactedAuditMap]: NULL is no map, a document that is no object an error. *)
Definition decodeRedactedAuditMap `{F : Floats} (value : option string) : option (option (dict json)) :=
  match value with
  | None => Some None
  | Some text =>
      match unmarshalAny text with
      | Some JNull => Some (Some [])
      | Some (JObj d) => Some (as_obj (Redact (JObj d)))
      | _ => None
      end
  end.

Section Reader.
Context `{MS : MySQL} `{F : Floats} {D : Type} `{K : Desk D} (now : time).

(** The conditions of the WHERE clause. *)
Definition filter_text (value column : string) : bool := String.eqb value "" || same column value.

Definition filter_nullable (value : string) (column : option string) : bool :=
  String.eqb value "" || match column with Some s => same s value | None => false end.

Definition event_matches (tenantID : Z) (f : AuditEventFilter) (e : EventRow) : bool :=
  (ev_activeTenantId e =? tenantID)
  && filter_text (fl_Action f) (ev_action e)
  && filter_text (fl_TargetType f) (ev_targetType e)
  && filter_nullable (fl_TargetID f) (ev_targetId e)
  && filter_text (fl_CorrelationID f) (ev_correlationId e)
  && match fl_From f with Some t => t <=? ev_created_at e | None => true end
  && match fl_To f with Some t => ev_created_at e <=? t | None => true end.

(** ORDER BY created_at DESC, id DESC. *)
Definition newest_first (a b : EventRow) : bool :=
  (ev_created_at b <? ev_created_at a)
  || ((ev_created_at a =? ev_created_at b) && (ev_id b <=? ev_id a)).

Definition scan_event (e : EventRow) : option AuditEventRecord :=
  before ← decodeRedactedAuditMap (ev_beforeValues e);
  after ← decodeRedactedAuditMap (ev_afterValues e);
  metadata ← decodeRedactedAuditMap (ev_metadata e);
  Some {| rc_ID := ev_id e; rc_ActorUserID := ev_actorUserId e; rc_ActorTenantID := ev_actorTenantId e;
          rc_ActiveTenantID := ev_activeTenantId e; rc_IDProject := ev_idProject e; rc_Action := ev_action e;
          rc_TargetType := ev_targetType e; rc_TargetID := ev_targetId e; rc_BeforeValues := before;
          rc_AfterValues := after; rc_Result := ev_result e; rc_SourceIP := ev_sourceIp e;
          rc_CorrelationID := ev_correlationId e; rc_Metadata := metadata; rc_CreatedAt := ev_created_at e |}.

(** The loop over the rows. *)
Fixpoint scan_rows {A B} (scan : A -> option B) (l : list A) : option (list B) :=
  match l with
  | [] => Some []
  | a :: l' => b ← scan a; bs ← scan_rows scan l'; Some (b :: bs)
  end.

Definition selected_events (tenantID : Z) (f : AuditEventFilter) (d : D) : list EventRow :=
  take (Z.to_nat (fl_Limit f))
    (order_by newest_first (List.filter (event_matches tenantID f) (et_rows (events d)))).

Definition ListAuditEvents (actor : User) (f : AuditEventFilter) : M D (list AuditEventRecord) :=
  let! rows := query "list browser audit events" (selected_events (activeTenant actor) f) in
  match scan_rows scan_event rows with
  | Some l => ret l
  | None => fail (DatabaseFailure "decode browser audit event values: database unavailable")
  end.

(** ** The routes *)
Notation H := (M D (desk_reply_of (list AuditEventRecord))).

Definition too_long (field value : string) : list (string * list string) :=
  if 128 <? slen value then [(field, ["The " +:+ field +:+ " field must not exceed 128 characters."])] else [].

(** A bound of the query: absent, an instant, or an error. *)
Definition date_bound (r : Request) (field : string) : option time * list (string * list string) :=
  let value := queryValue r field in
  if String.eqb value "" then (None, [])
  else match parseAuditDate value with
       | Some t => (Some t, [])
       | None => (None, [(field, ["The " +:+ field +:+ " field must be a valid date."])])
       end.

Definition limit_of (r : Request) : Z * list (string * list string) :=
  let value := queryValue r "limit" in
  if String.eqb value "" then (100, [])
  else match parseInt value with
       | Some n => if (n <? 1) || (200 <? n)
                   then (100, [("limit", ["The limit field must be between 1 and 200."])]) else (n, [])
       | None => (100, [("limit", ["The limit field must be between 1 and 200."])])
       end.

(** The filter of a query, or the errors by field. *)
Definition audit_filter (r : Request) : list (string * list string) + AuditEventFilter :=
  let '(from, e1) := date_bound r "from" in
  let '(to, e2) := date_bound r "to" in
  let '(limit, e3) := limit_of r in
  let correlationID := queryValue r "correlationId" in
  let validation :=
    (too_long "action" (queryValue r "action") ++ too_long "targetType" (queryValue r "targetType")
     ++ too_long "targetId" (queryValue r "targetId")
     ++ (if negb (String.eqb correlationID "") && negb (auditUUIDPattern correlationID)
         then [("correlationId", ["The correlation id field must be a valid UUID."])] else [])
     ++ e1 ++ e2 ++ e3)%list in
  match validation with
  | [] => inr {| fl_Action := queryValue r "action"; fl_TargetType := queryValue r "targetType";
                 fl_TargetID := queryValue r "targetId"; fl_CorrelationID := correlationID;
                 fl_From := from; fl_To := to; fl_Limit := limit |}
  | _ => inl validation
  end.

Definition AuditEvents (r : Request) : H :=
  with_capability now r "audit_events.read" (fun user =>
    match audit_filter r with
    | inl validation => ret (desk_errors validation)
    | inr f =>
        let! found := attempt (ListAuditEvents user f) in
        ret (match found with Ok l => written 200 (DData l) | Err _ => desk_failed end)
    end).

(** The query of the clone. *)
Definition set_query (r : Request) (name value : string) : Request :=
  {| rq_path := rq_path r; rq_header := rq_header r; rq_query := dset name value (rq_query r);
     rq_cookie := rq_cookie r; rq_body := rq_body r |}.

Definition AccountAudit (r : Request) : H :=
  let accountID := pathValue r "idUser" in
  match parsePathID accountID with
  | None => ret desk_notFound
  | Some _ =>
      let r1 := set_query (set_query r "targetType" "user") "targetId" accountID in
      let pageSize := queryValue r "pageSize" in
      AuditEvents (if negb (String.eqb pageSize "") && String.eqb (queryValue r "limit") ""
                   then set_query r1 "limit" pageSize else r1)
  end.

End Reader.

(** * Theorems *)
(** ** Sorted lists *)
Section Order.
Context {A : Type} (le : A -> A -> bool).
Hypothesis total : forall a b, le a b = true \/ le b a = true.
Hypothesis trans : forall a b c, le a b = true -> le b c = true -> le a c = true.

Lemma order_by_sorted l : StronglySorted (fun a b => le a b = true) (order_by le l).
Proof.
  assert (S : StronglySorted (fun x y => Is_true (le x y)) (order_by le l)).
  { apply StronglySorted_merge_sort.
    - intros a b c H K. apply Is_true_true in H, K. apply Is_true_true. by eapply trans.
    - intros a b. destruct (total a b) as [H|H]; [left|right]; by apply Is_true_true. }
  clear -S. induction S as [|a l' S IH H]; constructor; [done|].
  eapply Forall_impl; [exact H|]. intros b. apply Is_true_true.
Qed.

(** What the first rows of a sorted list leave out comes after them. *)
Lemma take_sorted n l x :
  In x l -> In x (take n (order_by le l))
            \/ length (take n (order_by le l)) = n /\ forall y, In y (take n (order_by le l)) -> le y x = true.
Proof.
  intros H. rewrite <- (order_by_In le), <- (take_drop n (order_by le l)) in H.
  apply in_app_iff in H as [H|H]; [by left|right]. split.
  - rewrite length_take. destruct (decide (n <= length (order_by le l))%nat); [lia|].
    rewrite drop_ge in H by lia. destruct H.
  - intros y Hy. pose proof (order_by_sorted l) as S. rewrite <- (take_drop n (order_by le l)) in S.
    apply (StronglySorted_app_1_elem_of (fun a b => le a b = true) _ _ _ _ S); by apply list_elem_of_In.
Qed.

Lemma take_sorted_sorted n l : StronglySorted (fun a b => le a b = true) (take n (order_by le l)).
Proof.
  pose proof (order_by_sorted l) as S. rewrite <- (take_drop n (order_by le l)) in S.
  by apply (StronglySorted_app_1_l (fun a b => le a b = true)) in S.
Qed.
End Order.

Lemma newest_total a b : newest_first a b = true \/ newest_first b a = true.
Proof.
  unfold newest_first. rewrite !orb_true_iff, !andb_true_iff, !Z.ltb_lt, !Z.eqb_eq, !Z.leb_le. lia.
Qed.

Lemma newest_trans a b c : newest_first a b = true -> newest_first b c = true -> newest_first a c = true.
Proof.
  unfold newest_first. rewrite !orb_true_iff, !andb_true_iff, !Z.ltb_lt, !Z.eqb_eq, !Z.leb_le. lia.
Qed.

(** ** What a reader sees *)
Definition masked_map (m : option (dict json)) : Prop :=
  forall d, m = Some d -> masked SensitiveKey (JObj d) = true.

(** A record shows its row, with its maps masked. *)
Record shows (e : EventRow) (x : AuditEventRecord) : Prop := {
  sh_id : rc_ID x = ev_id e;
  sh_tenant : rc_ActiveTenantID x = ev_activeTenantId e;
  sh_action : rc_Action x = ev_action e;
  sh_created : rc_CreatedAt x = ev_created_at e;
  sh_before : masked_map (rc_BeforeValues x);
  sh_after : masked_map (rc_AfterValues x);
  sh_metadata : masked_map (rc_Metadata x);
}.

(** The listing: matching events, the newest first, as many as the limit allows and
    nothing newer left out. *)
Record newest_events (matches : EventRow -> bool) (limit : Z) (log : list EventRow)
    (l : list AuditEventRecord) : Prop := {
  ne_rows : exists rows,
    Forall2 shows rows l
    /\ (forall e, In e rows -> In e log /\ matches e = true)
    /\ StronglySorted (fun a b => newest_first a b = true) rows
    /\ (forall e, In e log -> matches e = true ->
          In e rows \/ Z.of_nat (length rows) = limit /\ forall e', In e' rows -> newest_first e' e = true);
  ne_bound : Z.of_nat (length l) <= limit;
}.

Section Reading.
Context `{MS : MySQL} `{F : Floats} {D : Type} `{K : Desk D} `{!DeskLaws D} (now : time).
Implicit Types d : D.

Lemma decode_masked value m : decodeRedactedAuditMap value = Some m -> masked_map m.
Proof.
  unfold decodeRedactedAuditMap. destruct value as [text|]; [|by intros [= <-]].
  destruct (unmarshalAny text) as [[| | | | |o]|]; try done; intros [= <-] x [= <-]; [done|].
  exact (redact_with_masked SensitiveKey (JObj o)).
Qed.

Lemma scan_shows e x : scan_event e = Some x -> shows e x.
Proof.
  unfold scan_event. intros (b & B & H)%bind_Some. apply bind_Some in H as (a & A & H).
  apply bind_Some in H as (m & M & [= <-]). split; try done; by eapply decode_masked.
Qed.

Lemma scan_rows_Forall2 {A B} (scan : A -> option B) l l' :
  scan_rows scan l = Some l' -> Forall2 (fun a b => scan a = Some b) l l'.
Proof.
  revert l'. induction l as [|a l IH]; intros l'; [intros [= <-]; constructor|].
  intros (b & E & H)%bind_Some. apply bind_Some in H as (bs & Eb & [= <-]). constructor; auto.
Qed.

Lemma selected_newest t f d l :
  0 <= fl_Limit f -> scan_rows scan_event (selected_events t f d) = Some l ->
  newest_events (event_matches t f) (fl_Limit f) (et_rows (events d)) l.
Proof.
  intros L E. apply scan_rows_Forall2 in E. pose proof (Forall2_length _ _ _ E) as Len. split.
  - exists (selected_events t f d). split_and!.
    + eapply Forall2_impl; [exact E|]. intros e x. apply scan_shows.
    + intros e He. apply filter_In, (order_by_In newest_first). rewrite <- (take_drop (Z.to_nat (fl_Limit f))).
      apply in_app_iff. by left.
    + apply take_sorted_sorted; [exact newest_total|exact newest_trans].
    + intros e He Hm. destruct (take_sorted newest_first newest_total newest_trans (Z.to_nat (fl_Limit f))
        (List.filter (event_matches t f) (et_rows (events d))) e) as [H|[H1 H2]]; [by apply filter_In|by left|right].
      split; [|exact H2]. unfold selected_events. lia.
  - rewrite <- Len. unfold selected_events. rewrite length_take. lia.
Qed.

Lemma filter_limit r f : audit_filter r = inr f -> 1 <= fl_Limit f <= 200.
Proof.
  unfold audit_filter. destruct (date_bound r "from") as [? e1], (date_bound r "to") as [? e2].
  destruct (limit_of r) as [limit e3] eqn:E. cbv zeta.
  match goal with |- match ?v with _ => _ end = _ -> _ => destruct v eqn:V; [|done] end.
  intros [= <-]. cbn. unfold limit_of in E.
  assert (E3 : e3 = []) by (rewrite !app_nil in V; tauto). subst e3. clear V.
  destruct (String.eqb (queryValue r "limit") ""); [injection E as <-; lia|].
  destruct (parseInt _) as [n|]; [|discriminate E].
  destruct ((n <? 1) || (200 <? n)) eqn:B; [discriminate E|]. injection E as <-.
  rewrite orb_false_iff, !Z.ltb_ge in B. lia.
Qed.

(** What the answer of a reader says. *)
Definition reads_events (r : Request) d (reply : desk_reply_of (list AuditEventRecord)) : Prop :=
  forall l, rp_body reply = DData l ->
  exists actor f, asks_as now r d actor /\ In "audit_events.read" (capabilitiesForRole (u_Role actor))
    /\ audit_filter r = inr f
    /\ newest_events (event_matches (activeTenant actor) f) (fl_Limit f) (et_rows (events d)) l.

Lemma wp_AuditEvents d r :
  wp d (AuditEvents now r) (fun x d' => d' = d /\ forall reply, x = Ok reply -> reads_events r d reply).
Proof.
  apply wp_capability; [|intros x _; split; [done|by intros ? [= <-] l]|done]. intros actor Ha Hc.
  destruct (audit_filter r) as [v|f] eqn:E; [apply wp_ret; split; [done|by intros ? [= <-] l]|].
  apply wp_bind, wp_attempt. unfold ListAuditEvents. apply wp_bind, wp_query; [|intros m; apply wp_ret; split; [done|by intros ? [= <-] l]].
  destruct (scan_rows _ _) as [l|] eqn:X; repeat wp_step; (split; [done|]); intros ? [= <-] l' [= ->].
  exists actor, f. split_and!; [done..|]. apply selected_newest; [|exact X]. pose proof (filter_limit r f E). lia.
Qed.

(** What is listed is of the customer, and has the action asked for. *)
Lemma listed_matches t f limit log l x :
  newest_events (event_matches t f) limit log l -> In x l ->
  rc_ActiveTenantID x = t /\ (fl_Action f <> "" -> same (rc_Action x) (fl_Action f) = true).
Proof.
  intros [(rows & S & M & _ & _) _] Hx. apply list_elem_of_In, list_elem_of_lookup in Hx as [i Hi].
  destruct (Forall2_lookup_r _ _ _ _ _ S Hi) as (e & He & Sh).
  apply list_elem_of_lookup_2, list_elem_of_In, M in He as [_ He].
  rewrite (sh_tenant _ _ Sh), (sh_action _ _ Sh). unfold event_matches in He.
  rewrite !andb_true_iff in He. destruct He as ((((((T & A) & _) & _) & _) & _) & _).
  apply Z.eqb_eq in T. split; [exact T|]. intros N. unfold filter_text in A.
  destruct (String.eqb_spec (fl_Action f) ""); [done|]. exact A.
Qed.

(** the audit log is read by those who may, about their active customer, the
    newest events first.  Whatever fails, reading changes nothing; and when events are
    returned, the request carries the live session of an active user with the capability
    audit_events.read and a valid filter, the events are rows of the active customer that
    match it (with the action asked for), sorted, at most 200 and at most the limit of the filter, no event that was
    left out is newer than one returned, and every value under a sensitive key is
    masked. *)
Theorem audit_log_read (r : Request) (w w' : world D) reply l :
  AuditEvents now r w = (Ok reply, w') -> rp_body reply = DData l ->
  w_db w' = w_db w
  /\ exists actor f, asks_as now r (w_db w) actor
       /\ In "audit_events.read" (capabilitiesForRole (u_Role actor))
       /\ audit_filter r = inr f /\ 1 <= fl_Limit f <= 200
       /\ newest_events (event_matches (activeTenant actor) f) (fl_Limit f) (et_rows (events (w_db w))) l
       /\ forall x, In x l -> rc_ActiveTenantID x = activeTenant actor
                            /\ (fl_Action f <> "" -> same (rc_Action x) (fl_Action f) = true).
Proof.
  intros H E. destruct (wp_elim _ _ _ _ _ (wp_AuditEvents (w_db w) r) H) as [X Y]. split; [exact X|].
  destruct (Y reply eq_refl l E) as (actor & f & Ha & Hc & Hf & Hn). exists actor, f.
  split_and!; try done; try by apply (filter_limit r). intros x. by eapply listed_matches.
Qed.
End Reading.

(** ** A log of two customers

    A state with accounts and a log and nothing else. *)
#[export] Instance pair_desk : Desk (AccountTables * EventTable) := {|
  accounts := fst; with_accounts a d := (a, snd d); events := snd; with_events t d := (fst d, t);
|}.

#[export] Instance pair_desk_laws : DeskLaws (AccountTables * EventTable).
Proof. split; [by intros []|done..]. Qed.

Definition sample_event (id tenant : Z) (target : string) (at_ : time) : EventRow :=
  {| ev_id := id; ev_actorUserId := Some 2; ev_actorTenantId := Some tenant; ev_activeTenantId := tenant;
     ev_idProject := None; ev_action := "user.updated"; ev_targetType := "user"; ev_targetId := Some target;
     ev_beforeValues := None; ev_afterValues := Some (json_text "{'password':'p','name':'n'}");
     ev_result := "success"; ev_sourceIp := None; ev_correlationId := "c"; ev_metadata := None; ev_created_at := at_ |}.

Definition audit_world : world (AccountTables * EventTable) :=
  World (w_db admin_world, {| et_rows := [sample_event 1 8 "7" 10; sample_event 2 7 "7" 11; sample_event 3 8 "9" 12];
                              et_next := 4 |}) [] [].

Definition audit_request (path query : list (string * string)) : Request :=
  {| rq_path := path; rq_header := []; rq_query := query; rq_cookie := Some admin_session; rq_body := BodyEOF |}.

Definition ids_of (res : outcome (desk_reply_of (list AuditEventRecord))) : option (list Z) :=
  match res with Ok reply => match rp_body reply with DData l => Some (map rc_ID l) | _ => None end | Err _ => None end.

#[local] Notation read_all := (AuditEvents noon (audit_request [] [("action", "user.updated")]) audit_world).

Lemma audit_log_read_witness :
  ids_of (fst read_all) = Some [3; 1]
  /\ exists reply l, fst read_all = Ok reply /\ rp_body reply = DData l
      /\ exists actor f, In "audit_events.read" (capabilitiesForRole (u_Role actor))
           /\ newest_events (event_matches (activeTenant actor) f) 100 (et_rows (snd (w_db audit_world))) l.
Proof.
  split; [vm_compute; reflexivity|].
  destruct read_all as [[reply|e] w'] eqn:E; [|vm_compute in E; discriminate E].
  destruct (rp_body reply) as [p|t|es|l|] eqn:B; try (vm_compute in E; injection E as <- _; discriminate B).
  exists reply, l. split; [done|]. split; [exact B|].
  destruct (audit_log_read noon _ audit_world w' reply l E B) as (_ & actor & f & _ & Hc & Hf & _ & Hn & _).
  exists actor, f. split; [exact Hc|].
  assert (L : fl_Limit f = 100) by (vm_compute in Hf; by injection Hf as <-). rewrite <- L. exact Hn.
Defined.

(** The account is matched as the text of the path: 07 is a valid identifier of account 7
    and finds none of its events. *)
Example padded_account_id :
  ids_of (fst (AccountAudit noon (audit_request [("idUser", "7")] []) audit_world)) = Some [1]
  /\ ids_of (fst (AccountAudit noon (audit_request [("idUser", "07")] []) audit_world)) = Some [].
Proof. split; vm_compute; reflexivity. Qed.
