(* ===== verification/Evidence.v ===== *)
(** * Evidence: the artifacts of a run

    The artifact descriptors of internal/persistence/mysql/browser_auth.go: listing,
    registration and the lifecycle (legal hold, deletion marker, archive, restore), each
    change with its audit event in one transaction.

    A Go map is a reference: [cloneMap] copies a map and shares the maps in it.  Where
    the code writes into such a map, the model has a store of maps and references
    ([slot]). *)

From stdpp Require Import pretty sorting.
From S2P Require Import Prelude GoStrings GoTime Json JsonText JsonRoundTrip Redaction Effects Http Contracts AccountTables Sessions Accounts Sql.
From S2P Require Import Desk.
From S2P Require CliTables Artifacts.

(** ** Tables *)
Record ArtifactRow := {
  af_id : Z;
  af_idCostumer : Z;
  af_idProject : Z;
  af_performedTestCycleId : Z;
  af_performedTestId : option Z;
  af_performedStepId : option Z;
  af_artifactType : string;
  af_name : string;
  af_contentType : string;
  af_sizeBytes : Z;
  af_checksumSha256 : string;
  af_storageKey : string;
  af_state : string;
  af_retentionUntil : option time;
  af_metadata : option string;
  af_created_at : option time;
  af_updated_at : option time;
}.

#[export] Instance artifact_row_eq_dec : EqDecision ArtifactRow.
Proof. solve_decision. Defined.

(** A row of result_exports. *)
Record ExportRow := {
  xp_id : Z;
  xp_idCostumer : Z;
  xp_performedTestCycleId : Z;
  xp_format : string;
  xp_status : string;
  xp_filename : string;
  xp_contentType : string;
  xp_payload : option string;
  xp_errorMessage : option string;
  xp_expiresAt : option time;
}.

(** Accounts and log, the results that the command line wrote, and the tables of this
    component. *)
Record EvidenceTables := {
  vd_accounts : AccountTables;
  vd_events : EventTable;
  vd_results : CliTables.CliTables;
  vd_artifacts : list ArtifactRow;
  vd_nextArtifact : Z;
  vd_exports : list ExportRow;
  vd_nextExport : Z;
}.

#[export] Instance evidence_desk : Desk EvidenceTables := {|
  accounts := vd_accounts;
  with_accounts a d := {| vd_accounts := a; vd_events := vd_events d; vd_results := vd_results d;
                          vd_artifacts := vd_artifacts d; vd_nextArtifact := vd_nextArtifact d;
                          vd_exports := vd_exports d; vd_nextExport := vd_nextExport d |};
  events := vd_events;
  with_events t d := {| vd_accounts := vd_accounts d; vd_events := t; vd_results := vd_results d;
                        vd_artifacts := vd_artifacts d; vd_nextArtifact := vd_nextArtifact d;
                        vd_exports := vd_exports d; vd_nextExport := vd_nextExport d |};
|}.

#[export] Instance evidence_desk_laws : DeskLaws EvidenceTables.
Proof. split; [by intros []|done..]. Qed.

Definition with_artifacts (l : list ArtifactRow) (next : Z) (d : EvidenceTables) : EvidenceTables :=
  {| vd_accounts := vd_accounts d; vd_events := vd_events d; vd_results := vd_results d; vd_artifacts := l;
     vd_nextArtifact := next; vd_exports := vd_exports d; vd_nextExport := vd_nextExport d |}.

Definition with_exports (l : list ExportRow) (next : Z) (d : EvidenceTables) : EvidenceTables :=
  {| vd_accounts := vd_accounts d; vd_events := vd_events d; vd_results := vd_results d;
     vd_artifacts := vd_artifacts d; vd_nextArtifact := vd_nextArtifact d; vd_exports := l; vd_nextExport := next |}.

(** ** Structs *)

(** ArtifactDescriptor: the columns of the row, with the metadata as raw text ([nil] is
    the empty text). *)
Record ArtifactDescriptor := { ds_row : ArtifactRow; ds_Metadata : string }.

Record ArtifactDescriptorCreate := {
  dc_IDProject : Z;
  dc_PerformedTestCycleID : Z;
  dc_PerformedTestID : option Z;
  dc_PerformedStepID : option Z;
  dc_ArtifactType : string;
  dc_Name : string;
  dc_ContentType : string;
  dc_SizeBytes : Z;
  dc_ChecksumSHA256 : string;
  dc_StorageKey : string;
  dc_State : string;
  dc_RetentionUntil : option time;
  dc_Metadata : string;
  dc_Now : time;
}.

Record ArtifactLifecycleUpdate := {
  lu_ProjectID : Z;
  lu_PerformedTestCycleID : Z;
  lu_ArtifactDescriptorID : Z;
  lu_Enabled : bool;
  lu_Reason : option string;
  lu_RestoreBy : option string;
}.

(** [redactResultJSONString]: a text that is no document stays. *)
Definition redactResultJSONString `{F : Floats} (payload : string) : string :=
  match unmarshalAny payload with Some v => marshal (Redact v) | None => payload end.

(** [scanArtifactDescriptorWithRedaction]. *)
Definition scanArtifactDescriptor `{F : Floats} (redact : bool) (row : ArtifactRow) : ArtifactDescriptor :=
  {| ds_row := row;
     ds_Metadata := match af_metadata row with
                    | None => ""
                    | Some value => if redact then redactResultJSONString value else value
                    end |}.

(** ** Maps

    [artifactMetadataMap]: the members of an object; nothing for any other text. *)
Definition artifactMetadataMap `{F : Floats} (metadata : string) : dict json :=
  match unmarshalAny metadata with Some (JObj d) => d | _ => [] end.

(** [nullableString] and [nullableRawJSON]. *)
Definition nullableString (value : option string) : json := match value with Some s => JStr s | None => JNull end.

Definition nullableRawJSON (value : string) : option string := if String.eqb value "" then None else Some value.

Definition artifactLegalHoldEnabled `{F : Floats} (metadata : string) : bool :=
  match jidx (artifactMetadataMap metadata) "legalHold" with
  | JObj hold => match jidx hold "enabled" with JBool b => b | _ => false end
  | _ => false
  end.

(** A value of a map: a map is a reference into the store. *)
Inductive slot := Plain (v : json) | MapAt (l : nat).
Notation maps := (gmap nat (dict json)).

(** The maps directly in a map, at fresh locations. *)
Fixpoint share (next : nat) (d : dict json) : maps * dict slot :=
  match d with
  | [] => (∅, [])
  | (k, JObj m) :: d' => let '(st, sl) := share (S next) d' in (<[next := m]> st, (k, MapAt next) :: sl)
  | (k, v) :: d' => let '(st, sl) := share next d' in (st, (k, Plain v) :: sl)
  end.

(** What a map holds now. *)
Definition read_slot (st : maps) (s : slot) : json :=
  match s with Plain v => v | MapAt l => JObj (default [] (st !! l : option (dict json))) end.
Definition read_map (st : maps) (d : dict slot) : dict json := map (fun kv => (fst kv, read_slot st (snd kv))) d.

(** [cloneMap]: a new map with the same values, and so with the same references. *)
Definition cloneMap (d : dict slot) : dict slot := d.

(** ** The lifecycle *)

(** What a change makes of a descriptor: errors, or the values before and after and the
    next state. *)
Definition mutation : Type := ArtifactDescriptor -> list (string * list string) + (dict json * dict json * string).

Section Lifecycle.
Context `{F : Floats} (now : time).

Definition state_of (d : ArtifactDescriptor) : string := af_state (ds_row d).

Definition hold_mutation (input : ArtifactLifecycleUpdate) : mutation := fun descriptor =>
  let metadata := artifactMetadataMap (ds_Metadata descriptor) in
  let reason := if lu_Enabled input then nullableString (lu_Reason input) else JNull in
  let updated := dset "legalHold"
    (JObj (dict_of_list [("enabled", JBool (lu_Enabled input)); ("reason", reason);
                         ("changedAt", JStr (format_seconds now))])) metadata in
  inr ([("metadata", JObj metadata)], [("metadata", JObj updated)], state_of descriptor).

Definition delete_mutation : mutation := fun descriptor =>
  if artifactLegalHoldEnabled (ds_Metadata descriptor)
  then inl [("artifact", ["Artifact is under legal hold and cannot be deleted."])]
  else inr ([("state", JStr (state_of descriptor))], [("state", JStr "deleted")], "deleted").

Definition archive_mutation (input : ArtifactLifecycleUpdate) : mutation := fun descriptor =>
  if artifactLegalHoldEnabled (ds_Metadata descriptor)
  then inl [("artifact", ["Artifact is under legal hold and cannot be archived."])]
  else if String.eqb (state_of descriptor) "deleted"
  then inl [("state", ["Deleted artifacts cannot be archived."])]
  else
    let metadata := artifactMetadataMap (ds_Metadata descriptor) in
    let updated := dset "archive"
      (JObj (dict_of_list [("reason", nullableString (lu_Reason input)); ("archivedAt", JStr (format_seconds now));
                           ("restoreBy", nullableString (lu_RestoreBy input))])) metadata in
    inr (dict_of_list [("state", JStr (state_of descriptor)); ("metadata", JObj metadata)],
         dict_of_list [("state", JStr "archived"); ("metadata", JObj updated)], "archived").

(** [archive["restoredAt"] = ...] writes into the map that the clone shares with the
    original. *)
Definition restore_mutation : mutation := fun descriptor =>
  if negb (String.eqb (state_of descriptor) "archived")
  then inl [("state", ["Only archived artifacts can be restored."])]
  else
    let values := artifactMetadataMap (ds_Metadata descriptor) in
    let '(st, metadata) := share 0 values in
    let updated := cloneMap metadata in
    let fresh := length values in
    let '(st, archive) := match dget "archive" updated with
                          | Some (MapAt l) => (st, l)
                          | _ => (<[fresh := []]> st, fresh)
                          end in
    let st := <[archive := dset "restoredAt" (JStr (format_seconds now)) (default [] (st !! archive))]> st in
    let updated := dset "archive" (MapAt archive) updated in
    inr (dict_of_list [("state", JStr (state_of descriptor)); ("metadata", JObj (read_map st metadata))],
         dict_of_list [("state", JStr "available"); ("metadata", JObj (read_map st updated))], "available").
End Lifecycle.

(** ** The repository *)
Section Repository.
Context `{MS : MySQL} `{F : Floats} `{C : JsonColumn} (now : time) (sourceIP : string).
Notation R := (M EvidenceTables).

(** [WHERE idCostumer = ? AND idProject = ? AND performedTestCycleId = ?], with the
    identifier. *)
Definition of_cycle (tenantID projectID cycleID : Z) (a : ArtifactRow) : bool :=
  (af_idCostumer a =? tenantID) && (af_idProject a =? projectID) && (af_performedTestCycleId a =? cycleID).

Definition this_artifact (tenantID projectID cycleID id : Z) (a : ArtifactRow) : bool :=
  (af_id a =? id) && of_cycle tenantID projectID cycleID a.

(** ORDER BY artifactType ASC, name ASC. *)
Definition artifact_le (a b : ArtifactRow) : bool :=
  if text_le (af_artifactType a) (af_artifactType b)
  then if text_le (af_artifactType b) (af_artifactType a) then text_le (af_name a) (af_name b) else true
  else false.

Definition ListArtifactDescriptors (actor : User) (projectID cycleID : Z) : R (list ArtifactDescriptor) :=
  query "list browser artifact descriptors" (fun d =>
    map (scanArtifactDescriptor true)
      (order_by artifact_le (List.filter (of_cycle (activeTenant actor) projectID cycleID) (vd_artifacts d)))).

Definition find_artifact (tenantID projectID cycleID id : Z) (d : EvidenceTables) : option ArtifactRow :=
  List.find (this_artifact tenantID projectID cycleID id) (vd_artifacts d).

Definition GetArtifactDescriptor (actor : User) (projectID cycleID id : Z) : R ArtifactDescriptor :=
  let! row := query "scan browser artifact descriptor" (find_artifact (activeTenant actor) projectID cycleID id) in
  match row with
  | None => fail ErrNotFound
  | Some row => ret (scanArtifactDescriptor true row)
  end.

(** [performedCycle]: its status and the rest of its row. *)
Definition performedCycle (tenantID cycleID : Z) : R CliTables.PerformedCycle :=
  let! row := query "load browser result export run" (fun d =>
    CliTables.select_owned CliTables.pc_idCostumer cycleID tenantID (CliTables.performed_test_cycles (vd_results d))) in
  match row with None => fail ErrNotFound | Some c => ret c end.

(** [validateArtifactDescriptorCreate]: the text of its error. *)
Definition isHex (value : string) : bool := forallb Artifacts.hex_either_case (chars value).

Definition missing_fields (input : ArtifactDescriptorCreate) : list string :=
  ((if dc_IDProject input <=? 0 then ["idProject"] else [])
   ++ (if dc_PerformedTestCycleID input <=? 0 then ["performedTestCycleId"] else [])
   ++ (if blank (dc_ArtifactType input) then ["artifactType"] else [])
   ++ (if blank (dc_Name input) then ["name"] else [])
   ++ (if blank (dc_ContentType input) then ["contentType"] else [])
   ++ (if dc_SizeBytes input =? 0 then ["sizeBytes"] else [])
   ++ (if blank (dc_ChecksumSHA256 input) then ["checksumSha256"] else [])
   ++ (if blank (dc_StorageKey input) then ["storageKey"] else []))%list.

Definition validateArtifactDescriptorCreate (input : ArtifactDescriptorCreate) : option string :=
  match missing_fields input with
  | [] =>
      if negb (slen (dc_ChecksumSHA256 input) =? 64) || negb (isHex (dc_ChecksumSHA256 input))
      then Some "artifact descriptor checksum must be a SHA-256 hex digest"
      else if negb (String.eqb (dc_Metadata input) "")
              && match parse_text (dc_Metadata input) with Some _ => false | None => true end
      then Some "artifact descriptor metadata must be valid JSON"
      else None
  | missing => Some ("artifact descriptor fields are required: " +:+ String.concat ", " missing)
  end.

Definition new_artifact (tenantID id : Z) (input : ArtifactDescriptorCreate) (metadata : option string) : ArtifactRow :=
  let at_ := Some (column_time (dc_Now input)) in
  {| af_id := id; af_idCostumer := tenantID; af_idProject := dc_IDProject input;
     af_performedTestCycleId := dc_PerformedTestCycleID input; af_performedTestId := dc_PerformedTestID input;
     af_performedStepId := dc_PerformedStepID input; af_artifactType := trimSpace (dc_ArtifactType input);
     af_name := trimSpace (dc_Name input); af_contentType := trimSpace (dc_ContentType input);
     af_sizeBytes := dc_SizeBytes input; af_checksumSha256 := toLower (trimSpace (dc_ChecksumSHA256 input));
     af_storageKey := trimSpace (dc_StorageKey input);
     af_state := trimSpace (if String.eqb (dc_State input) "" then "available" else dc_State input);
     af_retentionUntil := Some (column_time (default (dc_Now input + 30 * 24 * hour) (dc_RetentionUntil input)));
     af_metadata := metadata; af_created_at := at_; af_updated_at := at_ |}.

Definition RegisterArtifactDescriptor (actor : User) (input : ArtifactDescriptorCreate) : R ArtifactDescriptor :=
  match validateArtifactDescriptorCreate input with
  | Some message => fail (OtherError message)
  | None =>
      let tenantID := activeTenant actor in
      let! _ := performedCycle tenantID (dc_PerformedTestCycleID input) in
      let! id := exec_refusable "register browser artifact descriptor" (fun d =>
        metadata ← json_nullable (nullableRawJSON (dc_Metadata input));
        let id := vd_nextArtifact d in
        Some (with_artifacts (vd_artifacts d ++ [new_artifact tenantID id input metadata]) (id + 1) d, id)) in
      GetArtifactDescriptor actor (dc_IDProject input) (dc_PerformedTestCycleID input) id
  end.

Definition set_lifecycle (state : string) (metadata : option string) (a : ArtifactRow) : ArtifactRow :=
  {| af_id := af_id a; af_idCostumer := af_idCostumer a; af_idProject := af_idProject a;
     af_performedTestCycleId := af_performedTestCycleId a; af_performedTestId := af_performedTestId a;
     af_performedStepId := af_performedStepId a; af_artifactType := af_artifactType a; af_name := af_name a;
     af_contentType := af_contentType a; af_sizeBytes := af_sizeBytes a; af_checksumSha256 := af_checksumSha256 a;
     af_storageKey := af_storageKey a; af_state := state; af_retentionUntil := af_retentionUntil a;
     af_metadata := metadata; af_created_at := af_created_at a; af_updated_at := Some (column_time now) |}.

(** The metadata that the UPDATE writes. *)
Definition next_metadata (descriptor : ArtifactDescriptor) (after : dict json) : option string :=
  match jidx after "metadata" with
  | JObj metadata => Some (marshal (JObj metadata))
  | _ => nullableRawJSON (ds_Metadata descriptor)
  end.

Definition updateArtifactLifecycle (r : Request) (actor : User) (input : ArtifactLifecycleUpdate) (action : string)
    (mutate : mutation) : R ArtifactDescriptor :=
  let tenantID := activeTenant actor in
  let projectID := lu_ProjectID input in
  let cycleID := lu_PerformedTestCycleID input in
  let id := lu_ArtifactDescriptorID input in
  let! _ := transaction "start browser artifact lifecycle update" "commit browser artifact lifecycle update" (
    let! row := query "scan browser artifact descriptor" (find_artifact tenantID projectID cycleID id) in
    match row with
    | None => fail ErrNotFound
    | Some row =>
        let descriptor := scanArtifactDescriptor false row in
        match mutate descriptor with
        | inl errors => fail (ValidationFailure errors)
        | inr (before, after, nextState) =>
            let nextState := if String.eqb nextState "" then state_of descriptor else nextState in
            let! _ := exec_refusable "update browser artifact lifecycle" (fun d =>
              metadata ← json_nullable (next_metadata descriptor after);
              let '(l, n) := update_where (this_artifact tenantID projectID cycleID id)
                               (set_lifecycle nextState metadata) (vd_artifacts d) in
              Some (with_artifacts l (vd_nextArtifact d) d, n)) in
            record_event now sourceIP "record browser artifact lifecycle audit" r actor
              {| vt_project := af_idProject row; vt_action := action; vt_targetType := "artifact_descriptor";
                 vt_target := id; vt_before := Some before; vt_after := Some after; vt_metadata := None |}
        end
    end) in
  GetArtifactDescriptor actor projectID cycleID id.

Definition SetArtifactLegalHold (r : Request) (actor : User) (input : ArtifactLifecycleUpdate) : R ArtifactDescriptor :=
  updateArtifactLifecycle r actor input "artifact.legal_hold" (hold_mutation now input).

Definition MarkArtifactDeleted (r : Request) (actor : User) (input : ArtifactLifecycleUpdate) : R ArtifactDescriptor :=
  updateArtifactLifecycle r actor input "artifact.mark_deleted" delete_mutation.

Definition ArchiveArtifact (r : Request) (actor : User) (input : ArtifactLifecycleUpdate) : R ArtifactDescriptor :=
  updateArtifactLifecycle r actor input "artifact.archive" (archive_mutation now input).

Definition RestoreArtifact (r : Request) (actor : User) (input : ArtifactLifecycleUpdate) : R ArtifactDescriptor :=
  updateArtifactLifecycle r actor input "artifact.restore" (restore_mutation now).
End Repository.
