(* ===== verification/Results.v ===== *)
(** * Results: the runs that the browser shows and exports

    The performed cycles, tests and steps of internal/persistence/mysql/browser_auth.go,
    read from the tables that the command line writes ([CliTables]), and the exports of a
    run.  The tables have the columns of those rows: an ORDER BY on another column is an
    error of the server. *)

From stdpp Require Import pretty sorting.
From S2P Require Import Prelude GoStrings GoTime Json JsonText JsonRoundTrip Redaction Effects Http Contracts AccountTables Sessions Accounts Paging Sql.
From S2P Require Import Desk Evidence.
From S2P Require CliTables.

Notation cycle_row := (Z * CliTables.PerformedCycle)%type.
Notation test_row := (Z * CliTables.PerformedTest)%type.
Notation step_row := (Z * CliTables.PerformedStep)%type.

(** ** Structs *)
Record ResultQuery := {
  qr_ParentID : Z;
  qr_Page : Z;
  qr_PerPage : Z;
  qr_Paged : bool;
  qr_Status : option Z;
  qr_Sort : string;
  qr_Direction : string;
}.

Record ResultMeta := {
  rm_Page : Z;
  rm_PerPage : Z;
  rm_Total : Z;
  rm_LastPage : Z;
  rm_Sort : string;
  rm_Direction : string;
}.

Definition resultMeta (page perPage total : Z) (sort direction : string) : ResultMeta :=
  {| rm_Page := page; rm_PerPage := perPage; rm_Total := total; rm_LastPage := last_page total perPage;
     rm_Sort := sort; rm_Direction := direction |}.

Record CycleResult := {
  cr_ID : Z;
  cr_TestCycleID : Z;
  cr_Date : time;
  cr_Status : Z;
  cr_UpdatedAt : time;
  cr_CreatedAt : time;
}.

Record TestResult := {
  tr_ID : Z;
  tr_TestCycleDoneID : Z;
  tr_TestID : Z;
  tr_Status : Z;
  tr_PostmanData : option string;
  tr_Name : string;
  tr_UpdatedAt : time;
  tr_CreatedAt : time;
}.

Record StepResult := {
  stp_ID : Z;
  stp_TestCycleDoneID : Z;
  stp_TestDoneID : Z;
  stp_Name : string;
  stp_Status : Z;
  stp_Screenshots : string;
  stp_Data : string;
  stp_Type : string;
  stp_UpdatedAt : time;
  stp_CreatedAt : time;
}.

Record ResultExportDescriptor := {
  xd_ID : Z;
  xd_Format : string;
  xd_Status : string;
  xd_Filename : string;
  xd_ContentType : string;
  xd_URL : string;
  xd_ExpiresAt : option time;
  xd_Authorized : bool;
  xd_Ready : bool;
  xd_ErrorMessage : option string;
}.

Record ResultExportDownload := { dl_Filename : string; dl_ContentType : string; dl_Payload : string }.

(** ** Statements *)
Definition rows_of {A} (t : CliTables.table A) : list (Z * A) := map_to_list (CliTables.t_rows t).

(** [resultSortColumn]. *)
Definition resultSortColumn (sort defaultSort : string) : string :=
  if existsb (String.eqb sort) ["id"; "name"; "date"; "status"; "created_at"; "updated_at"] then sort else defaultSort.

(** [resultWhere]. *)
Definition resultWhere {A} (owner parent status : A -> Z) (tenantID : Z) (q : ResultQuery) (row : Z * A) : bool :=
  (owner (snd row) =? tenantID) && (parent (snd row) =? qr_ParentID q)
  && match qr_Status q with Some s => status (snd row) =? s | None => true end.

(** The order by a column; [None] for a column that the table does not have. *)
Definition by_number {A} (f : A -> Z) (a b : A) : bool := f a <=? f b.

Definition cycle_order (column : string) : option (cycle_row -> cycle_row -> bool) :=
  if String.eqb column "id" then Some (by_number fst)
  else if String.eqb column "date" then Some (by_number (fun c => CliTables.pc_date (snd c)))
  else if String.eqb column "status" then Some (by_number (fun c => CliTables.pc_status (snd c)))
  else if String.eqb column "created_at" then Some (by_number (fun c => CliTables.pc_created_at (snd c)))
  else if String.eqb column "updated_at" then Some (by_number (fun c => CliTables.pc_updated_at (snd c)))
  else None.

Definition test_order `{MS : MySQL} (column : string) : option (test_row -> test_row -> bool) :=
  if String.eqb column "id" then Some (by_number fst)
  else if String.eqb column "name" then Some (fun a b => text_le (CliTables.pt_name (snd a)) (CliTables.pt_name (snd b)))
  else if String.eqb column "status" then Some (by_number (fun c => CliTables.pt_status (snd c)))
  else if String.eqb column "created_at" then Some (by_number (fun c => CliTables.pt_created_at (snd c)))
  else if String.eqb column "updated_at" then Some (by_number (fun c => CliTables.pt_updated_at (snd c)))
  else None.

(** [parseResultQuery]. *)
Definition parseResultQuery (r : Request) (parentID : Z) (defaultSort defaultDirection : string) : ResultQuery :=
  let '(page, pageSet) := positiveQueryInt r "page" 1 in
  let '(perPage, perPageSet) := positiveQueryInt r "perPage" 25 in
  let sort := queryValue r "sort" in
  let direction := toLower (queryValue r "direction") in
  let rawStatus := trimSpace (queryValue r "status") in
  {| qr_ParentID := parentID; qr_Page := page; qr_PerPage := if 100 <? perPage then 100 else perPage;
     qr_Paged := pageSet || perPageSet;
     qr_Status := if String.eqb rawStatus "" then None else parseInt rawStatus;
     qr_Sort := if String.eqb sort "" then defaultSort else sort;
     qr_Direction := if negb (String.eqb direction "asc") && negb (String.eqb direction "desc")
                     then defaultDirection else direction |}.

(** ** Texts of an export *)

(** The fraction of a second, without trailing zeros. *)
Fixpoint trim_zeros (l : list ascii) : list ascii :=
  match l with
  | [] => []
  | c :: l' => match trim_zeros l' with [] => if Ascii.eqb c "0"%char then [] else [c] | t => c :: t end
  end.

Definition fraction_text (t : time) : list ascii :=
  let ns := t mod second in if ns =? 0 then [] else "."%char :: trim_zeros (pad_digits 9 ns).

(** A date and a time of day with the text between them. *)
Definition date_time (separator : ascii) (t : time) : list ascii :=
  let secs := t / second in
  let '(y, m, d) := civil_of_days (secs / 86400) in
  let sod := secs mod 86400 in
  (year_text y ++ "-"%char :: pad_digits 2 m ++ "-"%char :: pad_digits 2 d ++ separator ::
   pad_digits 2 (sod / 3600) ++ ":"%char :: pad_digits 2 (sod / 60 mod 60) ++ ":"%char :: pad_digits 2 (sod mod 60)
   ++ fraction_text t)%list.

(** time.RFC3339Nano in UTC, and [Time.String]. *)
Definition format_nanos (t : time) : string := of_chars (date_time "T"%char t ++ ["Z"%char])%list.
Definition time_string (t : time) : string := of_chars (date_time " "%char t) +:+ " +0000 UTC".

(** [Time.MarshalJSON] refuses other years. *)
Definition json_time (t : time) : option json := if four_digit_year t then Some (JStr (format_nanos t)) else None.

(** [json.MarshalIndent(v, "", "  ")] of a document whose numbers are integers. *)
Definition newline_at (depth : nat) : list ascii := byte 10 :: chars (String.concat "" (repeat "  " depth)).

Fixpoint indented (depth : nat) (v : json) : list ascii :=
  match v with
  | JNull => chars "null"
  | JBool b => chars (if b then "true" else "false")
  | JNum x => chars (f_plain x)
  | JStr s => marshal_string s
  | JArr [] => chars "[]"
  | JArr l =>
      ("["%char :: comma_separated (map (fun v => newline_at (S depth) ++ indented (S depth) v)%list l)
       ++ newline_at depth ++ ["]"%char])%list
  | JObj [] => chars "{}"
  | JObj d =>
      ("{"%char :: comma_separated
         (map (fun kv => newline_at (S depth) ++ marshal_string (fst kv) ++ ":"%char :: " "%char
                          :: indented (S depth) (snd kv))%list d)
       ++ newline_at depth ++ ["}"%char])%list
  end.

(** A test of the document with its steps. *)
Record ExportTest := { xt_ID : Z; xt_Name : string; xt_Status : Z; xt_Steps : list step_row }.

Definition step_document (s : step_row) : option json :=
  let row := snd s in
  created ← json_time (CliTables.ps_created_at row);
  updated ← json_time (CliTables.ps_updated_at row);
  Some (JObj (dict_of_list
    [("id", jint (fst s)); ("name", JStr (CliTables.ps_name row)); ("status", jint (CliTables.ps_status row));
     ("type", JStr (CliTables.ps_type row)); ("created_at", created); ("updated_at", updated)])).

Fixpoint all_some {A B} (f : A -> option B) (l : list A) : option (list B) :=
  match l with [] => Some [] | a :: l' => b ← f a; bs ← all_some f l'; Some (b :: bs) end.

Definition test_document (t : ExportTest) : option json :=
  steps ← all_some step_document (xt_Steps t);
  Some (JObj (dict_of_list [("id", jint (xt_ID t)); ("name", JStr (xt_Name t)); ("status", jint (xt_Status t));
                            ("steps", JArr steps)])).

Definition export_document (id : Z) (run : CliTables.PerformedCycle) (tests : list ExportTest) : option json :=
  tests ← all_some test_document tests;
  date ← json_time (CliTables.pc_date run);
  Some (JObj (dict_of_list
    [("schemaVersion", JStr "result-export.v1"); ("performedTestCycleId", jint id);
     ("testCycleId", jint (CliTables.pc_testCycleId run)); ("status", jint (CliTables.pc_status run));
     ("date", date); ("tests", JArr tests)])).

Definition newline : string := of_chars [byte 10].

Definition resultExportMarkdown (id : Z) (run : CliTables.PerformedCycle) (tests : list ExportTest) : string :=
  let lines :=
    (["# Idelium execution report"; "";
      "- Schema: result-export.v1";
      "- Performed test cycle: " +:+ pretty id;
      "- Source test cycle: " +:+ pretty (CliTables.pc_testCycleId run);
      "- Status: " +:+ pretty (CliTables.pc_status run);
      "- Date: " +:+ time_string (CliTables.pc_date run);
      ""; "## Tests"; ""]
     ++ flat_map (fun t => ["### " +:+ xt_Name t; "";
                            "- Test ID: " +:+ pretty (xt_ID t);
                            "- Status: " +:+ pretty (xt_Status t);
                            "- Steps: " +:+ pretty (Z.of_nat (length (xt_Steps t))); ""]) tests)%list in
  String.concat newline lines +:+ newline.

Definition resultExportFilename (performedCycleID : Z) (format : string) : string :=
  "idelium-run-" +:+ pretty performedCycleID +:+ "." +:+ (if String.eqb format "json" then "json" else "md").

Definition resultExportContentType (format : string) : string :=
  if String.eqb format "json" then "application/json" else "text/markdown".

Definition resultExportURL (exportID : Z) : string := "/api/admin/result-exports/" +:+ pretty exportID +:+ "/download".

(** ** The repository *)
Section Repository.
Context `{MS : MySQL} `{F : Floats} (now : time).
Notation R := (M EvidenceTables).

(** COUNT and the page of a listing. *)
Definition list_results {A} (op : string) (table : CliTables.CliTables -> CliTables.table A)
    (keep : Z * A -> bool) (order : option (Z * A -> Z * A -> bool)) (q : ResultQuery)
    : R (list (Z * A) * Z) :=
  let rows d := List.filter keep (rows_of (table (vd_results d))) in
  let! total := query "count browser resources" (fun d => Z.of_nat (length (rows d))) in
  let! page := query_page op (fun d =>
    le ← order;
    let l := order_by (directed (qr_Direction q) le) (rows d) in
    if qr_Paged q then page_of (qr_Page q) (qr_PerPage q) l else Some l) in
  ret (page, total).

Definition cycle_result (row : cycle_row) : CycleResult :=
  let c := snd row in
  {| cr_ID := fst row; cr_TestCycleID := CliTables.pc_testCycleId c; cr_Date := CliTables.pc_date c;
     cr_Status := CliTables.pc_status c; cr_UpdatedAt := CliTables.pc_updated_at c;
     cr_CreatedAt := CliTables.pc_created_at c |}.

Definition test_result (row : test_row) : TestResult :=
  let t := snd row in
  {| tr_ID := fst row; tr_TestCycleDoneID := CliTables.pt_testCycleDoneId t; tr_TestID := CliTables.pt_testId t;
     tr_Status := CliTables.pt_status t; tr_PostmanData := redactResultJSONString <$> CliTables.pt_postmanData t;
     tr_Name := CliTables.pt_name t; tr_UpdatedAt := CliTables.pt_updated_at t;
     tr_CreatedAt := CliTables.pt_created_at t |}.

Definition step_result (row : step_row) : StepResult :=
  let s := snd row in
  {| stp_ID := fst row; stp_TestCycleDoneID := CliTables.ps_testCycleDoneId s;
     stp_TestDoneID := CliTables.ps_testDoneId s; stp_Name := CliTables.ps_name s; stp_Status := CliTables.ps_status s;
     stp_Screenshots := redactResultJSONString (CliTables.ps_screenshots s);
     stp_Data := redactResultJSONString (CliTables.ps_data s); stp_Type := CliTables.ps_type s;
     stp_UpdatedAt := CliTables.ps_updated_at s; stp_CreatedAt := CliTables.ps_created_at s |}.

Definition page_meta_of (q : ResultQuery) (total : Z) : ResultMeta :=
  resultMeta (qr_Page q) (qr_PerPage q) total (qr_Sort q) (qr_Direction q).

Definition ListPerformedCycles (actor : User) (q : ResultQuery) : R (list CycleResult * ResultMeta) :=
  let! (rows, total) := list_results "list browser performed cycles" CliTables.performed_test_cycles
    (resultWhere CliTables.pc_idCostumer CliTables.pc_testCycleId CliTables.pc_status (activeTenant actor) q)
    (cycle_order (resultSortColumn (qr_Sort q) "date")) q in
  ret (map cycle_result rows, page_meta_of q total).

Definition ListPerformedTests (actor : User) (q : ResultQuery) : R (list TestResult * ResultMeta) :=
  let! (rows, total) := list_results "list browser performed tests" CliTables.performed_tests
    (resultWhere CliTables.pt_idCostumer CliTables.pt_testCycleDoneId CliTables.pt_status (activeTenant actor) q)
    (test_order (resultSortColumn (qr_Sort q) "id")) q in
  ret (map test_result rows, page_meta_of q total).

Definition ListPerformedSteps (actor : User) (performedTestID : Z) : R (list StepResult) :=
  query "list browser performed steps" (fun d =>
    map step_result (order_by (by_number fst) (List.filter
      (fun s => (CliTables.ps_testDoneId (snd s) =? performedTestID)
                && (CliTables.ps_idCostumer (snd s) =? activeTenant actor))
      (rows_of (CliTables.performed_steps (vd_results d)))))).

(** *** Exports *)
Definition resultExportSteps (tenantID cycleID testID : Z) : R (list step_row) :=
  query "list browser result export steps" (fun d =>
    order_by (by_number fst) (List.filter
      (fun s => (CliTables.ps_testCycleDoneId (snd s) =? cycleID) && (CliTables.ps_testDoneId (snd s) =? testID)
                && (CliTables.ps_idCostumer (snd s) =? tenantID))
      (rows_of (CliTables.performed_steps (vd_results d))))).

Definition resultExportTests (tenantID cycleID : Z) : R (list ExportTest) :=
  let! tests := query "list browser result export tests" (fun d =>
    order_by (by_number fst) (List.filter
      (fun t => (CliTables.pt_testCycleDoneId (snd t) =? cycleID) && (CliTables.pt_idCostumer (snd t) =? tenantID))
      (rows_of (CliTables.performed_tests (vd_results d))))) in
  mapM (fun t =>
    let! steps := resultExportSteps tenantID cycleID (fst t) in
    ret {| xt_ID := fst t; xt_Name := CliTables.pt_name (snd t); xt_Status := CliTables.pt_status (snd t);
           xt_Steps := steps |}) tests.

Definition resultExportPayload (tenantID id : Z) (run : CliTables.PerformedCycle) (format : string) : R string :=
  let! tests := resultExportTests tenantID id in
  if String.eqb format "json"
  then match export_document id run tests with
       | Some document => ret (of_chars (indented 0 document))
       | None => fail (OtherError "encode browser result export payload")
       end
  else ret (resultExportMarkdown id run tests).

Definition CreateResultExport (actor : User) (cycleID : Z) (format : string) : R ResultExportDescriptor :=
  let tenantID := activeTenant actor in
  let! run := performedCycle tenantID cycleID in
  let! payload := resultExportPayload tenantID cycleID run format in
  let expiresAt := now + 24 * hour in
  let filename := resultExportFilename cycleID format in
  let contentType := resultExportContentType format in
  let! id := exec_count "create browser result export" (fun d =>
    let id := vd_nextExport d in
    (with_exports (vd_exports d ++
       [{| xp_id := id; xp_idCostumer := tenantID; xp_performedTestCycleId := cycleID; xp_format := format;
           xp_status := "completed"; xp_filename := filename; xp_contentType := contentType;
           xp_payload := Some payload; xp_errorMessage := None; xp_expiresAt := Some (column_time expiresAt) |}])
       (id + 1) d, id)) in
  ret {| xd_ID := id; xd_Format := format; xd_Status := "completed"; xd_Filename := filename;
         xd_ContentType := contentType; xd_URL := resultExportURL id; xd_ExpiresAt := Some expiresAt;
         xd_Authorized := true; xd_Ready := true; xd_ErrorMessage := None |}.

(** [resultExport]: the error message of a failed export only. *)
Definition resultExport (tenantID exportID : Z) : R ExportRow :=
  let! row := query "load browser result export" (fun d =>
    List.find (fun x => (xp_id x =? exportID) && (xp_idCostumer x =? tenantID)) (vd_exports d)) in
  match row with None => fail ErrNotFound | Some x => ret x end.

Definition export_descriptor (x : ExportRow) : ResultExportDescriptor :=
  {| xd_ID := xp_id x; xd_Format := xp_format x; xd_Status := xp_status x; xd_Filename := xp_filename x;
     xd_ContentType := xp_contentType x; xd_URL := resultExportURL (xp_id x); xd_ExpiresAt := xp_expiresAt x;
     xd_Authorized := true; xd_Ready := String.eqb (xp_status x) "completed";
     xd_ErrorMessage := if String.eqb (xp_status x) "failed" then xp_errorMessage x else None |}.

Definition GetResultExport (actor : User) (exportID : Z) : R ResultExportDescriptor :=
  let! x := resultExport (activeTenant actor) exportID in ret (export_descriptor x).

Definition DownloadResultExport (actor : User) (exportID : Z) : R ResultExportDownload :=
  let! x := resultExport (activeTenant actor) exportID in
  if negb (String.eqb (xp_status x) "completed") then fail ErrConflict
  else if match xp_expiresAt x with Some t => before t now | None => false end then fail ErrGone
  else match xp_payload x with
       | None => fail ErrConflict
       | Some payload => ret {| dl_Filename := xp_filename x; dl_ContentType := xp_contentType x; dl_Payload := payload |}
       end.
End Repository.

(** * The routes *)
(** ** Responses *)
Inductive evidence_data :=
| VCycles (l : list CycleResult)
| VCyclePage (l : list CycleResult) (meta : ResultMeta)
| VTests (l : list TestResult)
| VTestPage (l : list TestResult) (meta : ResultMeta)
| VSteps (l : list StepResult)
| VExport (x : ResultExportDescriptor)
| VDownload (x : ResultExportDownload)  (** Content-Type, Content-Disposition and the payload *)
| VDescriptors (l : list ArtifactDescriptor)
| VDescriptor (x : ArtifactDescriptor).

Notation vreply := (desk_reply_of evidence_data).

(** ** Bodies *)
Record export_body := { xb_PerformedTestCycleID : Z; xb_Format : string }.

Definition export_fields : list (string * setter export_body) :=
  [("performedTestCycleId", to_int (fun z b => {| xb_PerformedTestCycleID := z; xb_Format := xb_Format b |}));
   ("format", to_string (fun s b => {| xb_PerformedTestCycleID := xb_PerformedTestCycleID b; xb_Format := s |}))].

Record hold_body := { hb_Enabled : option bool; hb_Reason : option string }.

Definition hold_fields : list (string * setter hold_body) :=
  [("enabled", to_bool_pointer (fun x b => {| hb_Enabled := x; hb_Reason := hb_Reason b |}));
   ("reason", to_string_pointer (fun x b => {| hb_Enabled := hb_Enabled b; hb_Reason := x |}))].

Record archive_body := { ab_Reason : option string; ab_RestoreBy : option string }.

Definition archive_fields : list (string * setter archive_body) :=
  [("reason", to_string_pointer (fun x b => {| ab_Reason := x; ab_RestoreBy := ab_RestoreBy b |}));
   ("restoreBy", to_string_pointer (fun x b => {| ab_Reason := ab_Reason b; ab_RestoreBy := x |}))].

(** ** The handlers *)
Section Handlers.
Context `{MS : MySQL} `{F : Floats} `{C : JsonColumn} (now : time) (sourceIP : string).
Notation H := (M EvidenceTables vreply).

(** An error of these listings is 500. *)
Definition listing {A} (m : M EvidenceTables A) (data : A -> evidence_data) : H :=
  let! x := attempt m in
  ret (match x with Ok a => written 200 (DData (data a)) | Err _ => desk_failed end).

Definition PerformedCycles (r : Request) : H :=
  signed_in now r (fun user => desk_id r "idTestCyclePerformed" (fun parentID =>
    let q := parseResultQuery r parentID "date" "desc" in
    listing (ListPerformedCycles user q)
      (fun page => if qr_Paged q then VCyclePage (fst page) (snd page) else VCycles (fst page)))).

Definition PerformedTests (r : Request) : H :=
  signed_in now r (fun user => desk_id r "idTestPerformed" (fun parentID =>
    let q := parseResultQuery r parentID "id" "asc" in
    listing (ListPerformedTests user q)
      (fun page => if qr_Paged q then VTestPage (fst page) (snd page) else VTests (fst page)))).

Definition PerformedSteps (r : Request) : H :=
  signed_in now r (fun user => desk_id r "idTestPerformed" (fun id => listing (ListPerformedSteps user id) VSteps)).

Definition PostResultExport (r : Request) : H :=
  signed_in now r (fun user =>
    let refused := desk_errors [("performedTestCycleId", ["The performed test cycle id field is required."]);
                                ("format", ["The selected format is invalid."])] in
    match decode_body export_fields {| xb_PerformedTestCycleID := 0; xb_Format := "" |} r with
    | None => ret refused
    | Some b =>
        if (xb_PerformedTestCycleID b <=? 0)
           || negb (String.eqb (xb_Format b) "json") && negb (String.eqb (xb_Format b) "markdown")
        then ret refused
        else answer (CreateResultExport now user (xb_PerformedTestCycleID b) (xb_Format b)) 202 VExport
    end).

Definition ShowResultExport (r : Request) : H :=
  signed_in now r (fun user => desk_id r "resultExport" (fun id => answer (GetResultExport user id) 200 VExport)).

Definition DownloadExport (r : Request) : H :=
  signed_in now r (fun user => desk_id r "resultExport" (fun id =>
    let! x := attempt (DownloadResultExport now user id) in
    ret (match x with
         | Ok download => written 200 (DData (VDownload download))
         | Err ErrNotFound => desk_notFound
         | Err ErrConflict => written 409 (DMessage "Conflict.")
         | Err ErrGone => written 410 (DMessage "Gone.")
         | Err _ => desk_failed
         end))).

(** [parseProjectPerformedCyclePath]. *)
Definition cycle_path (r : Request) (k : Z -> Z -> H) : H :=
  desk_id r "idProject" (fun projectID => desk_id r "performedTestCycleId" (fun cycleID => k projectID cycleID)).

Definition ArtifactDescriptors (r : Request) : H :=
  with_capability now r "artifacts.read" (fun user => cycle_path r (fun projectID cycleID =>
    answer (ListArtifactDescriptors user projectID cycleID) 200 VDescriptors)).

Definition ShowArtifactDescriptor (r : Request) : H :=
  with_capability now r "artifacts.read" (fun user => cycle_path r (fun projectID cycleID =>
    desk_id r "artifactDescriptor" (fun id => answer (GetArtifactDescriptor user projectID cycleID id) 200 VDescriptor))).

(** [artifactLifecycleInput]. *)
Definition artifactLifecycleInput (r : Request) (k : User -> ArtifactLifecycleUpdate -> H) : H :=
  with_capability now r "artifacts.manage" (fun user => cycle_path r (fun projectID cycleID =>
    desk_id r "artifactDescriptor" (fun id =>
      k user {| lu_ProjectID := projectID; lu_PerformedTestCycleID := cycleID; lu_ArtifactDescriptorID := id;
                lu_Enabled := false; lu_Reason := None; lu_RestoreBy := None |}))).

Definition with_inputs (enabled : bool) (reason restoreBy : option string) (input : ArtifactLifecycleUpdate)
    : ArtifactLifecycleUpdate :=
  {| lu_ProjectID := lu_ProjectID input; lu_PerformedTestCycleID := lu_PerformedTestCycleID input;
     lu_ArtifactDescriptorID := lu_ArtifactDescriptorID input; lu_Enabled := enabled;
     lu_Reason := trimSpace <$> reason; lu_RestoreBy := trimSpace <$> restoreBy |}.

Definition PutLegalHold (r : Request) : H :=
  artifactLifecycleInput r (fun user input =>
    match decode_body hold_fields {| hb_Enabled := None; hb_Reason := None |} r with
    | Some {| hb_Enabled := Some enabled; hb_Reason := reason |} =>
        answer (SetArtifactLegalHold now sourceIP r user (with_inputs enabled reason None input)) 200 VDescriptor
    | _ => ret (desk_error "enabled" "The enabled field is required.")
    end).

Definition PostDeleteMarker (r : Request) : H :=
  artifactLifecycleInput r (fun user input =>
    answer (MarkArtifactDeleted now sourceIP r user input) 200 VDescriptor).

Definition PostArchive (r : Request) : H :=
  artifactLifecycleInput r (fun user input =>
    let zero := {| ab_Reason := None; ab_RestoreBy := None |} in
    match (match rq_body r with BodyEOF => Some zero | _ => decode_body archive_fields zero r end) with
    | None => ret (desk_error "payload" "The request payload is invalid.")
    | Some b =>
        answer (ArchiveArtifact now sourceIP r user (with_inputs false (ab_Reason b) (ab_RestoreBy b) input)) 200
          VDescriptor
    end).

Definition PostRestore (r : Request) : H :=
  artifactLifecycleInput r (fun user input => answer (RestoreArtifact now sourceIP r user input) 200 VDescriptor).

(** ** The routes *)
Inductive evidence_route :=
| GetCycles | GetResults | GetStepResults | CreateExport | GetExport | GetDownload
| GetArtifacts | GetArtifact | HoldRoute | DeleteRoute | ArchiveRoute | RestoreRoute.

Definition serve_evidence (rt : evidence_route) : Request -> H :=
  match rt with
  | GetCycles => PerformedCycles
  | GetResults => PerformedTests
  | GetStepResults => PerformedSteps
  | CreateExport => PostResultExport
  | GetExport => ShowResultExport
  | GetDownload => DownloadExport
  | GetArtifacts => ArtifactDescriptors
  | GetArtifact => ShowArtifactDescriptor
  | HoldRoute => PutLegalHold
  | DeleteRoute => PostDeleteMarker
  | ArchiveRoute => PostArchive
  | RestoreRoute => PostRestore
  end.
End Handlers.
