(* ===== verification/EvidenceFacts.v ===== *)
(** * Evidence: maps, metadata and the lifecycle machine

    What the mutations of an artifact make of its state and its legal hold: the abstract
    machine [lifecycle_step], with the metadata read back from its column. *)

From stdpp Require Import pretty sorting.
From S2P Require Import Prelude GoStrings GoTime Json JsonText JsonRoundTrip Redaction Effects Http Contracts AccountTables Sessions Accounts Sql.
From S2P Require Import Desk Evidence Results.

(** ** Shared maps *)
Definition objects_below (next n : nat) (st : maps) : Prop :=
  forall l, is_Some (st !! l) -> (next <= l < next + n)%nat.

Lemma share_below next d st sl :
  share next d = (st, sl) ->
  objects_below next (length d) st /\ (forall k l, In (k, MapAt l) sl -> is_Some (st !! l)).
Proof.
  revert next st sl. induction d as [|[k v] d IH]; intros next st sl; cbn.
  { intros [= <- <-]. split; [|by intros ? ? []]. intros l [? E]. by rewrite lookup_empty in E. }
  assert (W : forall st' sl', share next d = (st', sl') ->
            objects_below next (S (length d)) st' /\ forall j l, In (j, MapAt l) sl' -> is_Some (st' !! l)).
  { intros st' sl' E. destruct (IH _ _ _ E) as [B I]. split; [|exact I]. intros l H. apply B in H. lia. }
  destruct v as [| | | | |m].
  6:{ destruct (share (S next) d) as [st' sl'] eqn:E. intros [= <- <-]. destruct (IH _ _ _ E) as [B I]. split.
      - intros i. destruct (decide (next = i)) as [->|N]; [lia|]. rewrite lookup_insert_ne by done. intros H. apply B in H. lia.
      - intros j i [[= <- <-]|H]; [by rewrite lookup_insert_eq; eexists|].
        destruct (decide (next = i)) as [->|N]; [by rewrite lookup_insert_eq; eexists|].
        rewrite lookup_insert_ne by done. by eapply I. }
  all: destruct (share next d) as [st' sl'] eqn:E; intros [= <- <-]; destruct (W _ _ eq_refl) as [B I]; split; [exact B|].
  all: intros j i [[=]|H]; by eapply I.
Qed.

Lemma read_map_at st k l sl :
  read_map st ((k, MapAt l) :: sl) = (k, JObj (default [] (st !! l : option (dict json)))) :: read_map st sl.
Proof. done. Qed.

Lemma read_map_plain st k v sl : read_map st ((k, Plain v) :: sl) = (k, v) :: read_map st sl.
Proof. done. Qed.

Lemma share_read next d st sl :
  share next d = (st, sl) ->
  forall st', (forall l, is_Some (st !! l) -> st' !! l = st !! l) -> read_map st' sl = d.
Proof.
  revert next st sl. induction d as [|[k v] d IH]; intros next st sl; cbn.
  { by intros [= <- <-]. }
  destruct v as [| | | | |m].
  6:{ destruct (share (S next) d) as [st1 sl1] eqn:E. intros [= <- <-] st' H. rewrite read_map_at.
      destruct (share_below _ _ _ _ E) as [B _].
      rewrite (H next) by (rewrite lookup_insert_eq; by eexists). rewrite lookup_insert_eq. cbn. f_equal.
      apply (IH _ _ _ E). intros l Hl. pose proof (B l Hl). rewrite H; rewrite lookup_insert_ne by lia; done. }
  all: destruct (share next d) as [st1 sl1] eqn:E; intros [= <- <-] st' H; rewrite read_map_plain; f_equal;
    by apply (IH _ _ _ E).
Qed.

(** A reference is a map of the document, and a write through it replaces that map. *)
Lemma share_at k next d st sl l :
  dwf d = true -> share next d = (st, sl) -> dget k sl = Some (MapAt l) ->
  exists m, dget k d = Some (JObj m) /\ st !! l = Some m
            /\ forall m', read_map (<[l := m']> st) sl = dset k (JObj m') d.
Proof.
  revert next st sl. induction d as [|[j v] d IH]; intros next st sl W; cbn [share].
  { by intros [= <- <-]. }
  assert (G : forall (w : json) x, dget k d = Some w -> k <> j ->
                dset k x ((j, v) :: d) = (j, v) :: dset k x d).
  { intros w x Hw N. cbn. destruct (String.compare k j) eqn:C; [|exfalso|done].
    - by apply String.compare_eq_iff in C.
    - apply dwf_cons in W as [Hf _]. rewrite List.Forall_forall in Hf. apply dget_In, Hf in Hw.
      by apply (slt_irrefl k), (slt_trans k j k). }
  assert (W' : dwf d = true) by by apply dwf_cons in W as [_ ?].
  destruct v as [| | | | |m].
  6:{ destruct (share (S next) d) as [st1 sl1] eqn:E. intros [= <- <-]. cbn [dget].
      destruct (share_below _ _ _ _ E) as [B I]. destruct (String.eqb_spec k j) as [->|N].
      - intros [= <-]. exists m. split; [done|]. split; [apply lookup_insert_eq|]. intros m'. rewrite read_map_at. cbn [dset].
        rewrite string_compare_refl, insert_insert_eq, lookup_insert_eq. cbn. f_equal.
        apply (share_read _ _ _ _ E). intros l Hl. pose proof (B l Hl). by rewrite lookup_insert_ne by lia.
      - intros H. destruct (IH _ _ _ W' E H) as (m0 & H1 & H2 & H3). exists m0. split; [done|].
        assert (L : next <> l) by (pose proof (B l ltac:(by eexists)); lia).
        split; [by rewrite lookup_insert_ne|]. intros m'. rewrite (G _ _ H1) by done.
        rewrite read_map_at, insert_insert_ne, lookup_insert_eq by done. cbn [default]. f_equal. rewrite <- (H3 m').
        unfold read_map. apply map_ext_in. intros [i s] Hi. cbn. f_equal. destruct s as [|l']; [done|]. cbn.
        assert (L' : next <> l') by (pose proof (B l' (I _ _ Hi)); lia). by rewrite lookup_insert_ne. }
  all: destruct (share next d) as [st1 sl1] eqn:E; intros [= <- <-]; cbn [dget];
    destruct (String.eqb_spec k j) as [->|N]; [done|]; intros H;
    destruct (IH _ _ _ W' E H) as (m0 & H1 & H2 & H3); exists m0; (split; [done|]); (split; [done|]); intros m';
    rewrite (G _ _ H1) by done; rewrite read_map_plain; f_equal; apply H3.
Qed.

Lemma share_absent k next d st sl :
  share next d = (st, sl) -> (forall l, dget k sl <> Some (MapAt l)) ->
  match dget k d with Some (JObj _) => False | _ => True end.
Proof.
  revert next st sl. induction d as [|[j v] d IH]; intros next st sl; cbn [share]; [done|].
  destruct v as [| | | | |m].
  6:{ destruct (share (S next) d) as [st1 sl1] eqn:E. intros [= <- <-]. cbn [dget].
      destruct (String.eqb_spec k j); [intros H; by apply (H next)|]. by apply (IH _ _ _ E). }
  all: destruct (share next d) as [st1 sl1] eqn:E; intros [= <- <-]; cbn [dget];
    destruct (String.eqb_spec k j); [done|]; by apply (IH _ _ _ E).
Qed.

Lemma read_map_dset st k x sl : read_map st (dset k x sl) = dset k (read_slot st x) (read_map st sl).
Proof.
  induction sl as [|[j y] sl IH]; [done|]. cbn [dset].
  destruct (String.compare k j) eqn:E; unfold read_map in *; cbn [map fst snd dset]; rewrite E; [done|done|].
  by rewrite IH.
Qed.

Lemma dset_twice {V} k (v w : V) d : dwf d = true -> dset k v (dset k w d) = dset k v d.
Proof.
  intros W. apply dict_ext; [by repeat apply dwf_dset..|]. intros j. rewrite !dget_dset.
  by destruct (String.eqb k j).
Qed.

(** ** Metadata *)
Section Metadata.
Context `{F : Floats} `{!FloatsLaws F} `{C : JsonColumn} `{!JsonColumnLaws C}.

(** The legal hold of a map. *)
Definition held (d : dict json) : bool :=
  match jidx d "legalHold" with
  | JObj hold => match jidx hold "enabled" with JBool b => b | _ => false end
  | _ => false
  end.

Lemma held_spec s : artifactLegalHoldEnabled s = held (artifactMetadataMap s).
Proof. done. Qed.

Definition repair_map (d : dict json) : dict json := map (fun kv => (fst kv, repair (snd kv))) d.

Lemma jidx_repair d k : jidx (repair_map d) k = repair (jidx d k).
Proof. unfold jidx, repair_map. rewrite (dget_map (fun _ => repair)). by destruct (dget k d). Qed.

Lemma held_repair d : held (repair_map d) = held d.
Proof.
  unfold held. rewrite jidx_repair. destruct (jidx d "legalHold") as [| | | | |hold]; try done. cbn [repair].
  change (map (fun kv => (fst kv, repair (snd kv))) hold) with (repair_map hold). rewrite jidx_repair.
  by destruct (jidx hold "enabled").
Qed.

(** A map that Marshal can write and Unmarshal reads. *)
Definition readable (d : dict json) : Prop := wf_json (JObj d) /\ height (JObj d) <= maxNestingDepth.

Lemma metadata_readable s :
  readable (artifactMetadataMap s) /\ repair_map (artifactMetadataMap s) = artifactMetadataMap s.
Proof.
  unfold artifactMetadataMap. destruct (unmarshalAny s) as [[| | | | |d]|] eqn:E; try by split.
  apply unmarshal_wf in E as (W & D & R). split; [by split|]. by injection R.
Qed.

Lemma readable_sorted d : readable d -> dwf d = true.
Proof. intros [W _]. by apply wf_obj in W as [W _]. Qed.

Lemma column_map d s : readable d -> json_column (marshal (JObj d)) = Some s -> artifactMetadataMap s = repair_map d.
Proof.
  intros [W D] E. unfold artifactMetadataMap. rewrite (json_column_value _ _ E).
  by rewrite marshal_back by done.
Qed.

Lemma max_of_In x l : In x l -> x <= max_of l.
Proof. induction l as [|y l IH]; [done|]. rewrite max_of_cons. intros [->|H%IH]; lia. Qed.

Lemma readable_member d k v : readable d -> dget k d = Some v -> wf_json v /\ 1 + height v <= maxNestingDepth.
Proof.
  intros [W D] H%dget_In. apply wf_obj in W as [_ W]. rewrite List.Forall_forall in W. destruct (W _ H) as [_ Wv].
  split; [exact Wv|]. cbn [height] in D.
  pose proof (max_of_In (height v) (map (fun kv => height (snd kv)) d) (in_map (fun kv => height (snd kv)) _ _ H)). lia.
Qed.

Lemma readable_dset k v d :
  readable d -> valid_utf8 k -> wf_json v -> 1 + height v <= maxNestingDepth -> readable (dset k v d).
Proof.
  intros [W D] K Wv Hv. apply wf_obj in W as [S W]. split.
  - apply wf_obj. split; [by apply dwf_dset|]. apply List.Forall_forall. intros kv [->|H]%In_dset; [done|].
    rewrite List.Forall_forall in W. by apply W.
  - cbn [height] in *. enough (max_of (map (fun kv => height (snd kv)) (dset k v d)) <= maxNestingDepth - 1) by lia.
    apply max_of_le; [done|]. apply List.Forall_map, List.Forall_forall. intros kv [->|H]%In_dset; [cbn; lia|].
    pose proof (max_of_In _ _ (in_map (fun kv => height (snd kv)) _ _ H)). lia.
Qed.

Lemma readable_object d k m : readable d -> dget k d = Some (JObj m) -> readable m.
Proof. intros R H. destruct (readable_member _ _ _ R H) as [W D]. split; [exact W|]. cbn [height] in *. lia. Qed.

Lemma held_dset k v d : k <> "legalHold" -> held (dset k v d) = held d.
Proof. intros N. unfold held. by rewrite jidx_dset_ne. Qed.

(** ** The mutations *)
Variable now : time.

(** The archive of a restored artifact. *)
Definition restored_archive (values : dict json) : json :=
  JObj (dset "restoredAt" (JStr (format_seconds now))
         (match dget "archive" values with Some (JObj m) => m | _ => [] end)).

(** Without an archive map, the restoration makes one of its own. *)
Lemma restore_fresh values st sl :
  dwf values = true -> share 0 values = (st, sl) -> objects_below 0 (length values) st ->
  match dget "archive" values with Some (JObj _) => False | _ => True end ->
  let fresh := length values in
  let st1 : maps := <[fresh := []]> st in
  let st2 : maps := <[fresh := dset "restoredAt" (JStr (format_seconds now)) (default [] (st1 !! fresh))]> st1 in
  let updated := dset "archive" (restored_archive values) values in
  (inr (dict_of_list [("state", JStr "archived"); ("metadata", JObj (read_map st2 sl))],
        dict_of_list [("state", JStr "available"); ("metadata", JObj (read_map st2 (dset "archive" (MapAt fresh) sl)))],
        "available") : list (string * list string) + (dict json * dict json * string))
  = inr (dict_of_list [("state", JStr "archived");
                       ("metadata", JObj (match dget "archive" values with Some (JObj _) => updated | _ => values end))],
         dict_of_list [("state", JStr "available"); ("metadata", JObj updated)], "available").
Proof.
  intros R X B N. cbv zeta.
  assert (E : forall x, read_map (<[length values := x]> (<[length values := []]> st)) sl = values).
  { intros x. apply (share_read _ _ _ _ X). intros l Hl. pose proof (B l Hl).
    by rewrite !lookup_insert_ne by lia. }
  rewrite read_map_dset, !E. cbn [read_slot]. rewrite !lookup_insert_eq. cbn [default].
  unfold restored_archive. by destruct (dget "archive" values) as [[]|].
Qed.

(** What a restoration makes of the metadata, and what it reports as the metadata before:
    the write goes through the reference that both maps hold. *)
Lemma restore_spec descriptor :
  state_of descriptor = "archived" ->
  let values := artifactMetadataMap (ds_Metadata descriptor) in
  let updated := dset "archive" (restored_archive values) values in
  let reported := match dget "archive" values with Some (JObj _) => updated | _ => values end in
  restore_mutation now descriptor =
    inr (dict_of_list [("state", JStr "archived"); ("metadata", JObj reported)],
         dict_of_list [("state", JStr "available"); ("metadata", JObj updated)], "available").
Proof.
  intros E values. unfold restore_mutation. rewrite E. cbn [negb String.eqb Ascii.eqb Bool.eqb].
  fold values. cbv zeta. destruct (metadata_readable (ds_Metadata descriptor)) as [R _]. fold values in R.
  apply readable_sorted in R. destruct (share 0 values) as [st sl] eqn:X. unfold cloneMap.
  destruct (share_below _ _ _ _ X) as [B I].
  destruct (dget "archive" sl) as [[v|l]|] eqn:A.
  - assert (N : forall l, dget "archive" sl <> Some (MapAt l)) by (rewrite A; done).
    apply (share_absent _ _ _ _ _ X) in N. apply restore_fresh; [exact R|exact X|exact B|exact N].
  - destruct (share_at "archive" _ _ _ _ _ R X A) as (m & H1 & H2 & H3). rewrite H2. cbn [default].
    rewrite read_map_dset. unfold restored_archive. rewrite H1, H3. cbn [read_slot].
    rewrite lookup_insert_eq, dset_twice by done. done.
  - assert (N : forall l, dget "archive" sl <> Some (MapAt l)) by (rewrite A; done).
    apply (share_absent _ _ _ _ _ X) in N. apply restore_fresh; [exact R|exact X|exact B|exact N].
Qed.

End Metadata.

Section Machine.
Context `{MS : MySQL} `{F : Floats} `{!FloatsLaws F} `{C : JsonColumn} `{!JsonColumnLaws C} (now : time).

(** ** The lifecycle machine

    A state and whether a legal hold is on. *)
Inductive lifecycle_step : evidence_route -> string * bool -> string * bool -> Prop :=
| StepHold s h b : lifecycle_step HoldRoute (s, h) (s, b)
| StepDelete s : lifecycle_step DeleteRoute (s, false) ("deleted", false)
| StepArchive s : s <> "deleted" -> lifecycle_step ArchiveRoute (s, false) ("archived", false)
| StepRestore h : lifecycle_step RestoreRoute ("archived", h) ("available", h).

Definition lifecycle_of (a : ArtifactRow) : string * bool :=
  (af_state a, artifactLegalHoldEnabled (default "" (af_metadata a))).

(** The mutation of a route. *)
Inductive mutates : evidence_route -> mutation -> Prop :=
| MutateHold input : mutates HoldRoute (hold_mutation now input)
| MutateDelete : mutates DeleteRoute delete_mutation
| MutateArchive input : mutates ArchiveRoute (archive_mutation now input)
| MutateRestore : mutates RestoreRoute (restore_mutation now).

Lemma written_held d metadata :
  readable d -> json_nullable (Some (marshal (JObj d))) = Some metadata ->
  artifactLegalHoldEnabled (default "" metadata) = held d.
Proof.
  intros R. unfold json_nullable. intros (s & E & ->)%fmap_Some. cbn [default].
  rewrite held_spec, (column_map d) by done. apply held_repair.
Qed.

Lemma raw_held (row : ArtifactRow) metadata :
  json_nullable (nullableRawJSON (default "" (af_metadata row))) = Some metadata ->
  artifactLegalHoldEnabled (default "" metadata) = artifactLegalHoldEnabled (default "" (af_metadata row)).
Proof.
  unfold nullableRawJSON. destruct (String.eqb_spec (default "" (af_metadata row)) "") as [->|N]; [by intros [= <-]|].
  cbn. intros (s & E & ->)%fmap_Some. cbn. rewrite !held_spec. unfold artifactMetadataMap.
  by rewrite (json_column_value _ _ E).
Qed.

Lemma height_dset k v d : height (JObj (dset k v d)) <= Z.max (height (JObj d)) (1 + height v).
Proof.
  cbn [height]. pose proof (max_of_nonneg (map (fun kv => height (snd kv)) d)).
  enough (max_of (map (fun kv => height (snd kv)) (dset k v d))
          <= Z.max (max_of (map (fun kv => height (snd kv)) d)) (height v)) by lia.
  apply max_of_le; [lia|]. apply List.Forall_map, List.Forall_forall. intros kv [->|H']%In_dset; [cbn; lia|].
  pose proof (max_of_In _ _ (in_map (fun kv => height (snd kv)) _ _ H')). lia.
Qed.

(** The archive of a restoration fits where the old one did. *)
Lemma readable_restored values : readable values -> readable (dset "archive" (restored_archive now values) values).
Proof.
  intros R. unfold restored_archive. set (t := JStr (format_seconds now)).
  assert (X : forall m, readable m -> 1 + height (JObj m) <= maxNestingDepth ->
                readable (dset "archive" (JObj (dset "restoredAt" t m)) values)).
  { intros m Rm Hm. apply readable_dset; [exact R|reflexivity| |].
    - by apply (readable_dset "restoredAt" t).
    - pose proof (height_dset "restoredAt" t m) as Y.
      change (height t) with 0 in Y. unfold maxNestingDepth in *. lia. }
  destruct (dget "archive" values) as [[| | | | |m]|] eqn:G; try (by apply X).
  apply X; [by eapply readable_object|]. by apply (readable_member _ _ _ R G).
Qed.

Lemma readable_flat k d v :
  readable d -> valid_utf8 k -> wf_json v -> height v <= 1 -> readable (dset k v d).
Proof. intros R K W D. apply readable_dset; [done..|]. unfold maxNestingDepth. lia. Qed.

Lemma mutation_step rt m row before after next metadata :
  mutates rt m ->
  let descriptor := scanArtifactDescriptor false row in
  m descriptor = inr (before, after, next) ->
  json_nullable (next_metadata descriptor after) = Some metadata ->
  lifecycle_step rt (lifecycle_of row)
    (lifecycle_of (set_lifecycle now (if String.eqb next "" then state_of descriptor else next) metadata row)).
Proof.
  intros Hm descriptor. assert (Md : ds_Metadata descriptor = default "" (af_metadata row))
    by (unfold descriptor; cbn; by destruct (af_metadata row)).
  destruct (metadata_readable (ds_Metadata descriptor)) as [R _]. unfold lifecycle_of. cbn [af_state af_metadata set_lifecycle].
  destruct Hm as [input| |input|].
  - intros [= _ _ <-] _. replace (if String.eqb (state_of descriptor) "" then _ else _) with (af_state row)
      by (by destruct (String.eqb _ "")). constructor.
  - unfold delete_mutation. destruct (artifactLegalHoldEnabled (ds_Metadata descriptor)) eqn:E; [done|].
    intros [= _ <- <-] J. change (next_metadata descriptor _) with (nullableRawJSON (ds_Metadata descriptor)) in J.
    rewrite Md in J, E. apply raw_held in J. rewrite J, E. constructor.
  - unfold archive_mutation. destruct (artifactLegalHoldEnabled (ds_Metadata descriptor)) eqn:E; [done|].
    destruct (String.eqb_spec (state_of descriptor) "deleted") as [|N]; [done|]. intros [= _ <- <-] J.
    change (next_metadata descriptor _) with (Some (marshal (JObj (dset "archive"
      (JObj [("archivedAt", JStr (format_seconds now)); ("reason", nullableString (lu_Reason input));
             ("restoreBy", nullableString (lu_RestoreBy input))]) (artifactMetadataMap (ds_Metadata descriptor)))))) in J.
    apply written_held in J.
    + rewrite J, held_dset by done. rewrite held_spec in E. rewrite E. rewrite Md in E.
      rewrite held_spec, E. by constructor.
    + apply readable_flat; [done|reflexivity|..]; destruct (lu_Reason input), (lu_RestoreBy input); cbn; tauto || done.
  - destruct (decide (state_of descriptor = "archived")) as [A|A].
    2:{ unfold restore_mutation. apply String.eqb_neq in A. by rewrite A. }
    rewrite restore_spec by done. intros [= _ <- <-] J. cbv zeta in J.
    set (values := artifactMetadataMap (ds_Metadata descriptor)) in *.
    change (next_metadata descriptor _) with (Some (marshal (JObj (dset "archive" (restored_archive now values) values)))) in J.
    apply written_held in J.
    + rewrite J, held_dset by done. unfold values. rewrite Md, (held_spec (default "" (af_metadata row))).
      rewrite (A : af_state row = "archived"). constructor.
    + apply readable_restored. exact R.
Qed.
End Machine.
