(* ===== verification/EvidenceTheorems.v ===== *)
(** * Theorems about the evidence of runs

    Every request is a step of the lifecycle machine for one artifact of the active
    customer, with its audit event, or a new export, or nothing; an artifact under legal
    hold is neither deleted nor archived; a deleted one stays deleted. *)

From stdpp Require Import pretty sorting.
From S2P Require Import Prelude GoStrings GoTime Json JsonText JsonRoundTrip Redaction Effects Http Contracts AccountTables Sessions Accounts Paging Sql.
From S2P Require Import Desk Evidence Results EvidenceFacts.

(** ** The invariant *)
Record evidence_ok (d : EvidenceTables) : Prop := {
  eo_artifacts : List.NoDup (map af_id (vd_artifacts d));
  eo_nextArtifact : List.Forall (fun a => af_id a < vd_nextArtifact d) (vd_artifacts d);
  eo_exports : List.NoDup (map xp_id (vd_exports d));
  eo_nextExport : List.Forall (fun x => xp_id x < vd_nextExport d) (vd_exports d);
}.

(** One row replaced. *)
Definition replaced (a a' : ArtifactRow) (l : list ArtifactRow) : list ArtifactRow :=
  map (fun x => if af_id x =? af_id a then a' else x) l.

Section Steps.
Context `{MS : MySQL} `{F : Floats} `{C : JsonColumn}.
Implicit Types d : EvidenceTables.

Definition action_of (rt : evidence_route) : string :=
  match rt with
  | HoldRoute => "artifact.legal_hold"
  | DeleteRoute => "artifact.mark_deleted"
  | ArchiveRoute => "artifact.archive"
  | _ => "artifact.restore"
  end.

(** An artifact of the customer takes a step of its route, with an audit event. *)
Record artifact_change (rt : evidence_route) (t : Z) d d' (a a' : ArtifactRow) (e : EventRow) : Prop := {
  ac_in : In a (vd_artifacts d);
  ac_owner : af_idCostumer a = t;
  ac_step : lifecycle_step rt (lifecycle_of a) (lifecycle_of a');
  ac_same : exists now, a' = set_lifecycle now (af_state a') (af_metadata a') a;
  ac_action : ev_action e = action_of rt;
  ac_tenant : ev_activeTenantId e = t;
  ac_target : ev_targetId e = Some (pretty (af_id a));
  ac_after : d' = add_event e (with_artifacts (replaced a a' (vd_artifacts d)) (vd_nextArtifact d) d);
}.

(** What a route may do for an actor. *)
Inductive evidence_change (rt : evidence_route) (actor : User) d : EvidenceTables -> Prop :=
| ChangeNone : evidence_change rt actor d d
| ChangeExport x :
    rt = CreateExport -> xp_idCostumer x = activeTenant actor -> xp_id x = vd_nextExport d ->
    evidence_change rt actor d (with_exports (vd_exports d ++ [x]) (vd_nextExport d + 1) d)
| ChangeArtifact d' a a' e :
    In "artifacts.manage" (capabilitiesForRole (u_Role actor)) ->
    artifact_change rt (activeTenant actor) d d' a a' e -> evidence_change rt actor d d'.

Lemma this_artifact_spec t p c id a :
  this_artifact t p c id a = true <-> af_id a = id /\ af_idCostumer a = t /\ af_idProject a = p /\ af_performedTestCycleId a = c.
Proof. unfold this_artifact, of_cycle. rewrite !andb_true_iff, !Z.eqb_eq. tauto. Qed.

Lemma update_replaced t p c id f d a :
  evidence_ok d -> find_artifact t p c id d = Some a ->
  fst (update_where (this_artifact t p c id) f (vd_artifacts d)) = replaced a (f a) (vd_artifacts d).
Proof.
  intros O H. apply find_some in H as [Hin Ha]. cbn. apply map_ext_in. intros x Hx.
  destruct (Z.eqb_spec (af_id x) (af_id a)) as [E|E].
  - rewrite (nodup_key af_id _ x a (eo_artifacts d O) Hx Hin E). by rewrite Ha.
  - destruct (this_artifact t p c id x) eqn:X; [|done]. apply this_artifact_spec in X, Ha. destruct E. by destruct X as [-> _], Ha as [-> _].
Qed.

Lemma replaced_ids a a' l : af_id a' = af_id a -> map af_id (replaced a a' l) = map af_id l.
Proof.
  intros E. unfold replaced. rewrite map_map. apply map_ext. intros x.
  by destruct (Z.eqb_spec (af_id x) (af_id a)) as [->|].
Qed.

Lemma change_ok rt actor d d' : evidence_change rt actor d d' -> evidence_ok d -> evidence_ok d'.
Proof.
  intros [|x _ _ E|d1 a a' e _ [_ _ _ [now S] _ _ _ ->]] [N1 B1 N2 B2]; [done|..].
  - split; cbn; [done..| |].
    + rewrite map_app. apply NoDup_ListNoDup, NoDup_app. split_and!; [by apply NoDup_ListNoDup| |apply NoDup_singleton].
      intros z Hz Hz'. apply list_elem_of_In in Hz, Hz'. cbn in Hz'. destruct Hz' as [<-|[]].
      rewrite E in Hz. apply in_map_iff in Hz as (y & Ey & Hy). rewrite List.Forall_forall in B2. apply B2 in Hy. lia.
    + apply List.Forall_app. split; [|by repeat constructor; lia].
      eapply List.Forall_impl; [|exact B2]. intros y. cbn. lia.
  - assert (I : af_id a' = af_id a) by by rewrite S.
    split; cbn; [by rewrite replaced_ids| |done..].
    apply List.Forall_forall. intros y Hy. apply (in_map af_id) in Hy. rewrite replaced_ids in Hy by done.
    apply in_map_iff in Hy as (z & <- & Hz). rewrite List.Forall_forall in B1. by apply B1.
Qed.
End Steps.

Section Requests.
Context `{MS : MySQL} `{F : Floats} `{!FloatsLaws F} `{C : JsonColumn} `{!JsonColumnLaws C}.
Context (now : time) (sourceIP : string).
Implicit Types d : EvidenceTables.

Lemma wp_update d rt r actor input m :
  evidence_ok d -> mutates now rt m -> In "artifacts.manage" (capabilitiesForRole (u_Role actor)) ->
  wp d (updateArtifactLifecycle now sourceIP r actor input (action_of rt) m)
    (fun _ d' => evidence_change rt actor d d').
Proof.
  intros O Hm Hc. unfold updateArtifactLifecycle. cbv zeta. apply wp_bind, wp_transaction; [|intros; constructor].
  apply wp_bind, wp_query; [|intros; constructor].
  destruct (find_artifact _ _ _ _ d) as [row|] eqn:E; [|apply wp_fail; constructor].
  destruct (m (scanArtifactDescriptor false row)) as [errors|[[before after] next]] eqn:Em; [apply wp_fail; constructor|].
  apply wp_bind, wp_exec_refusable; [|intros; constructor].
  intros d1 n (metadata & J & Hd)%bind_Some. injection Hd as <- _.
  apply wp_record_event; [|intros; constructor].
  intros d2 [(e & c & He & ->)]. unfold GetArtifactDescriptor.
  assert (G : evidence_change rt actor d (add_event e (with_artifacts (fst (update_where
      (this_artifact (activeTenant actor) (lu_ProjectID input) (lu_PerformedTestCycleID input) (lu_ArtifactDescriptorID input))
      (set_lifecycle now (if String.eqb next "" then state_of (scanArtifactDescriptor false row) else next) metadata)
      (vd_artifacts d))) (vd_nextArtifact d) d))).
  { pose proof E as Hf. apply find_some in E as [Hin Ht]. apply this_artifact_spec in Ht as (Hid & Hown & Hp & Hcy).
    apply event_row_fields in He as (_ & He2 & _ & He4 & _ & He6). cbn in He2, He4, He6.
    eapply ChangeArtifact; [exact Hc|]. rewrite (update_replaced _ _ _ _ _ _ _ O Hf). eapply Build_artifact_change; [exact Hin|done|..].
    - by eapply mutation_step.
    - by eexists.
    - exact He4.
    - exact He2.
    - by rewrite Hid.
    - done. }
  repeat wp_step; exact G.
Qed.

Definition requested (rt : evidence_route) (r : Request) d d' : Prop :=
  d' = d \/ exists actor, asks_as now r d actor /\ evidence_change rt actor d d'.

Lemma requested_weaken rt r d actor d' :
  asks_as now r d actor -> evidence_change rt actor d d' -> requested rt r d d'.
Proof. intros Ha Hc. right. by exists actor. Qed.

Lemma wp_lifecycle d rt r (k : User -> ArtifactLifecycleUpdate -> M EvidenceTables vreply) :
  evidence_ok d ->
  (forall actor input, In "artifacts.manage" (capabilitiesForRole (u_Role actor)) ->
     wp d (k actor input) (fun _ d' => evidence_change rt actor d d')) ->
  wp d (artifactLifecycleInput now r k) (fun _ d' => requested rt r d d').
Proof.
  intros O H. apply wp_capability; [|by left..]. intros actor Ha Hc. unfold cycle_path.
  apply wp_desk_id; [|by left]. intros p _. apply wp_desk_id; [|by left]. intros c _.
  apply wp_desk_id; [|by left]. intros id _. eapply wp_weaken; [by apply H|]. intros x d'. by apply requested_weaken.
Qed.

Lemma wp_answer_change {B} rt actor d (m : M EvidenceTables B) status data :
  wp d m (fun _ d' => evidence_change rt actor d d') ->
  wp d (answer m status data : M EvidenceTables vreply) (fun _ d' => evidence_change rt actor d d').
Proof. intros H. apply wp_answer. eapply wp_weaken; [exact H|]. by intros [b|[]] d'. Qed.

(** *** Reads *)
Lemma keeps_listing {B} (m : M EvidenceTables B) data : keeps m -> keeps (listing m data).
Proof. intros H. apply keeps_bind; [by apply keeps_attempt|]. intros x. apply keeps_ret. Qed.

Lemma keeps_list_results {A} op table keep order q : keeps (list_results (A := A) op table keep order q).
Proof. intros d. unfold list_results, query_page. repeat wp_step; done. Qed.

Lemma keeps_resultExport t id : keeps (resultExport t id).
Proof. apply keeps_bind; [apply keeps_query|]. intros []; auto with keeps. Qed.

Lemma keeps_GetArtifact actor p c id : keeps (GetArtifactDescriptor actor p c id).
Proof. apply keeps_bind; [apply keeps_query|]. intros []; auto with keeps. Qed.

Lemma keeps_Download actor id : keeps (DownloadResultExport now actor id).
Proof. apply keeps_bind; [apply keeps_resultExport|]. intros x. repeat case_match; auto with keeps. Qed.

Lemma keeps_payload t id run format : keeps (resultExportPayload t id run format).
Proof.
  apply keeps_bind; [|intros tests; repeat case_match; auto with keeps].
  apply keeps_bind; [apply keeps_query|]. intros tests. apply keeps_mapM. intros x.
  apply keeps_bind; [apply keeps_query|]. intros steps. apply keeps_ret.
Qed.

Definition reading (rt : evidence_route) : bool :=
  match rt with CreateExport | HoldRoute | DeleteRoute | ArchiveRoute | RestoreRoute => false | _ => true end.

Lemma keeps_reading rt r : reading rt = true -> keeps (serve_evidence now sourceIP rt r).
Proof.
  destruct rt; try discriminate; intros _; cbn [serve_evidence].
  - apply keeps_signed_in. intros u. apply keeps_desk_id. intros id. apply keeps_listing, keeps_bind;
      [apply keeps_list_results|intros []; apply keeps_ret].
  - apply keeps_signed_in. intros u. apply keeps_desk_id. intros id. apply keeps_listing, keeps_bind;
      [apply keeps_list_results|intros []; apply keeps_ret].
  - apply keeps_signed_in. intros u. apply keeps_desk_id. intros id. apply keeps_listing, keeps_query.
  - apply keeps_signed_in. intros u. apply keeps_desk_id. intros id. apply keeps_answer, keeps_bind;
      [apply keeps_resultExport|intros x; apply keeps_ret].
  - apply keeps_signed_in. intros u. apply keeps_desk_id. intros id. apply keeps_bind; [apply keeps_attempt, keeps_Download|].
    intros x. apply keeps_ret.
  - apply keeps_capability. intros u. apply keeps_desk_id. intros p. apply keeps_desk_id. intros c. apply keeps_answer, keeps_query.
  - apply keeps_capability. intros u. apply keeps_desk_id. intros p. apply keeps_desk_id. intros c.
    apply keeps_desk_id. intros id. apply keeps_answer, keeps_GetArtifact.
Qed.

(** *** Every route *)
Lemma wp_export d actor id format :
  wp d (CreateResultExport now actor id format) (fun _ d' => evidence_change CreateExport actor d d').
Proof.
  unfold CreateResultExport. cbv zeta. apply wp_bind. unfold performedCycle. apply wp_bind, wp_query; [|intros; constructor].
  destruct (CliTables.select_owned _ _ _ _) as [run|]; [|apply wp_fail; constructor]. apply wp_ret.
  apply wp_bind. eapply wp_weaken; [apply keeps_payload|]. intros [payload|e] d' ->; [|constructor].
  apply wp_bind, wp_exec_count; [|intros; constructor]. apply wp_ret. by apply ChangeExport.
Qed.

Lemma wp_serve_evidence rt r d :
  evidence_ok d -> wp d (serve_evidence now sourceIP rt r) (fun _ d' => requested rt r d d').
Proof.
  intros O. destruct (reading rt) eqn:R.
  { eapply wp_weaken; [by apply keeps_reading|]. intros _ d' ->. by left. }
  destruct rt; try discriminate R; cbn [serve_evidence].
  - apply wp_signed_in; [|by left..]. intros actor Ha. cbv zeta. repeat first
      [ apply wp_ret; by left
      | lazymatch goal with |- wp _ (match ?x with _ => _ end) _ => destruct x end ].
    eapply wp_weaken; [apply wp_answer_change, wp_export|]. intros x d'. by apply requested_weaken.
  - apply wp_lifecycle; [exact O|]. intros actor input Hc. unfold SetArtifactLegalHold.
    repeat lazymatch goal with |- wp _ (match ?x with _ => _ end) _ => destruct x end; try (apply wp_ret; constructor).
    apply wp_answer_change, (wp_update d HoldRoute); [exact O|constructor|exact Hc].
  - apply wp_lifecycle; [exact O|]. intros actor input Hc.
    apply wp_answer_change, (wp_update d DeleteRoute); [exact O|constructor|exact Hc].
  - apply wp_lifecycle; [exact O|]. intros actor input Hc. cbv zeta.
    destruct (match rq_body r with BodyEOF => _ | _ => _ end); [|apply wp_ret; constructor].
    apply wp_answer_change, (wp_update d ArchiveRoute); [exact O|constructor|exact Hc].
  - apply wp_lifecycle; [exact O|]. intros actor input Hc.
    apply wp_answer_change, (wp_update d RestoreRoute); [exact O|constructor|exact Hc].
Qed.

Lemma evidence_step rt r w w' res :
  evidence_ok (w_db w) -> serve_evidence now sourceIP rt r w = (res, w') ->
  evidence_ok (w_db w') /\ requested rt r (w_db w) (w_db w').
Proof.
  intros O H. pose proof (wp_elim _ _ _ _ _ (wp_serve_evidence rt r (w_db w) O) H) as R. split; [|exact R].
  destruct R as [->|(actor & _ & Hc)]; [exact O|by eapply change_ok].
Qed.

(** Claim C12: a request about runs and artifacts is a step of the abstract machine.
    Whatever the route, the request and the failures of the database, identifiers stay
    unique, and either nothing changes, or the request carries the live session of an
    active user and adds an export for the active customer, or, with the capability
    artifacts.manage, moves one artifact of that customer by a step of its route
    (hold, delete, archive, restore: [lifecycle_step], on the state and the legal hold
    that the stored metadata says), keeps its other columns, and appends the audit event
    of that change.  The routes that read change nothing. *)
Theorem evidence_requests_refine (rt : evidence_route) (r : Request) (w w' : world EvidenceTables) res :
  evidence_ok (w_db w) -> serve_evidence now sourceIP rt r w = (res, w') ->
  evidence_ok (w_db w')
  /\ (reading rt = true -> w_db w' = w_db w)
  /\ (w_db w' = w_db w
      \/ exists actor, asks_as now r (w_db w) actor /\ evidence_change rt actor (w_db w) (w_db w')).
Proof.
  intros O H. destruct (evidence_step rt r w w' res O H) as [O' R]. split_and!; [exact O'| |exact R].
  intros Hr. exact (wp_elim _ _ _ _ _ (keeps_reading rt r Hr (w_db w)) H).
Qed.
End Requests.

(** ** The life of an artifact *)

(** Requests of allowed routes, one after the other, at any time and from anywhere. *)
Inductive history `{MS : MySQL} `{F : Floats} `{C : JsonColumn} (allow : evidence_route -> bool)
    : EvidenceTables -> EvidenceTables -> Prop :=
| HistoryEnd d : history allow d d
| HistoryStep rt now sourceIP r w w' res d :
    allow rt = true -> serve_evidence now sourceIP rt r w = (res, w') ->
    history allow (w_db w') d -> history allow (w_db w) d.

Section Fate.
Context `{MS : MySQL} `{F : Floats} `{!FloatsLaws F} `{C : JsonColumn} `{!JsonColumnLaws C}.

(** What an artifact becomes in one request. *)
Lemma change_fate rt actor d d' a :
  evidence_ok d -> evidence_change rt actor d d' -> In a (vd_artifacts d) ->
  exists a', In a' (vd_artifacts d') /\ (a' = a \/ (exists now, a' = set_lifecycle now (af_state a') (af_metadata a') a)
                                               /\ lifecycle_step rt (lifecycle_of a) (lifecycle_of a')).
Proof.
  intros O [|x _ _ _|d1 b b' e _ [Hin _ St [now Sm] _ _ _ ->]] Ha; [exists a; auto..|]. cbn.
  destruct (decide (af_id a = af_id b)) as [E|E].
  - rewrite (nodup_key af_id _ a b (eo_artifacts d O) Ha Hin E). exists b'. split; [|right; split; [by exists now|done]].
    apply in_map_iff. exists b. by rewrite Z.eqb_refl.
  - exists a. split; [|by left]. apply in_map_iff. exists a. split; [|done]. by apply Z.eqb_neq in E as ->.
Qed.

(** The columns that no request changes. *)
Definition same_artifact (a a' : ArtifactRow) : Prop :=
  af_id a' = af_id a /\ af_idCostumer a' = af_idCostumer a /\ af_idProject a' = af_idProject a
  /\ af_performedTestCycleId a' = af_performedTestCycleId a /\ af_checksumSha256 a' = af_checksumSha256 a
  /\ af_storageKey a' = af_storageKey a /\ af_retentionUntil a' = af_retentionUntil a.

Definition is_held (a : ArtifactRow) : bool := snd (lifecycle_of a).

Lemma step_facts rt a b :
  lifecycle_step rt (lifecycle_of a) (lifecycle_of b) ->
  (af_state a = "deleted" -> af_state b = "deleted")
  /\ (is_held a = true -> rt = HoldRoute
        \/ is_held b = true /\ (af_state b = af_state a \/ af_state a = "archived" /\ af_state b = "available")).
Proof.
  unfold is_held, lifecycle_of. cbn [snd]. intros St. inversion St; subst; auto.
  - split; [done|]. congruence.
  - split; [done|]. congruence.
  - split; [congruence|]. intros Hh. right. split; [congruence|]. by right.
Qed.

(** Claim C13: artifacts are never lost, deletion is final, and a legal hold protects.
    After any sequence of requests, every artifact is still there with the columns that
    identify it; one that was deleted is deleted; and one under legal hold, when no
    request was one about holds, is still under hold, and its state is what it was or
    has been restored from the archive: it was neither deleted nor archived. *)
Theorem artifact_fate allow d d' a :
  evidence_ok d -> history allow d d' -> In a (vd_artifacts d) ->
  exists a', In a' (vd_artifacts d') /\ same_artifact a a'
    /\ (af_state a = "deleted" -> af_state a' = "deleted")
    /\ (is_held a = true -> allow HoldRoute = false ->
          is_held a' = true /\ (af_state a' = af_state a \/ af_state a = "archived" /\ af_state a' = "available")).
Proof.
  intros O H. revert a O. induction H as [d|rt now ip r w w' res d' Al Sv H IH]; intros a O Ha.
  { exists a. split; [done|]. split; [by repeat split|]. auto. }
  destruct (evidence_step now ip rt r w w' res O Sv) as (O' & R).
  assert (X : exists b, In b (vd_artifacts (w_db w')) /\ (b = a \/ (exists t, b = set_lifecycle t (af_state b) (af_metadata b) a)
                          /\ lifecycle_step rt (lifecycle_of a) (lifecycle_of b))).
  { destruct R as [E|(actor & _ & Hc)]; [exists a; rewrite E; auto|exact (change_fate rt actor _ _ a O Hc Ha)]. }
  destruct X as (b & Hb & B). destruct (IH b O' Hb) as (a' & Ha' & Sa & Del & Hold). exists a'. split; [exact Ha'|].
  destruct B as [->|[[t Sb] St]]; [by split|]. split.
  { rewrite Sb in Sa. exact Sa. }
  destruct (step_facts rt a b St) as [D1 H1]. split; [by intros Hs%D1; apply Del|]. intros Hh Hn.
  destruct (H1 Hh) as [->|[Hb' Hs]]; [by rewrite Hn in Al|]. destruct (Hold Hb' Hn) as [Ha2 Hs2]. split; [exact Ha2|].
  destruct Hs as [E|[E1 E2]], Hs2 as [E3|[E3 E4]]; [left|right|right|]; try (by rewrite E3); try (by rewrite <- E).
  by rewrite E2 in E3.
Qed.
End Fate.
