(* ===== verification/EvidenceExports.v ===== *)
(** * What leaves with the results

    The documents in the answers are masked, an export does not depend on the documents
    of its run, and it can be downloaded for a day, with the content it was made with.
    Concrete requests end the file. *)

From stdpp Require Import pretty sorting.
From S2P Require Import Prelude GoStrings GoTime Json JsonText JsonRoundTrip Redaction Effects Http Contracts AccountTables Sessions Accounts Paging Sql.
From S2P Require Import RunTheorems CliTheorems SessionTheorems AccountHandlers.
From S2P Require Import AccountTheorems Desk AuditEvents Evidence Results EvidenceFacts EvidenceTheorems.
From S2P Require CliTables.

(** ** Masked documents *)
Section Masked.
Context `{F : Floats} `{!FloatsLaws F} (sensitive : string -> bool).

Lemma repair_masked v : masked sensitive v = true -> masked sensitive (repair v) = true.
Proof.
  induction v as [| | | |l IH|d IH] using json_ind; [done..| |]; cbn [masked repair]; rewrite !forallb_forall;
    intros H x (y & <- & Hy)%in_map_iff; rewrite List.Forall_forall in IH; specialize (H y Hy).
  - by apply IH.
  - cbn [fst snd]. destruct (sensitive (fst y)); [|by apply IH]. by apply json_eqb_eq in H as ->.
Qed.

Lemma redact_with_wf v : wf_json v -> wf_json (redact_with sensitive v).
Proof.
  induction v as [| | | |l IH|d IH] using json_ind; [done..| |]; cbn [redact_with].
  - rewrite !wf_arr, !List.Forall_forall in *. intros W x (y & <- & Hy)%in_map_iff. by apply IH, W.
  - rewrite !wf_obj. intros [S W]. split.
    { by rewrite (dwf_map (fun k v => if sensitive k then redacted_mark else redact_with sensitive v)). } rewrite List.Forall_forall in *.
    intros x (y & <- & Hy)%in_map_iff. destruct (W y Hy) as [K V]. cbn. split; [exact K|].
    destruct (sensitive (fst y)); [done|by apply IH].
Qed.

Lemma height_nonneg v : 0 <= height v.
Proof. destruct v as [| | | |l|d]; cbn [height]; [done..| |]; [pose proof (max_of_nonneg (map height l))|
  pose proof (max_of_nonneg (map (fun kv => height (snd kv)) d))]; lia. Qed.

Lemma redact_with_height v : height (redact_with sensitive v) <= height v.
Proof.
  induction v as [| | | |l IH|d IH] using json_ind; [done..| |]; cbn [redact_with height]; rewrite List.Forall_forall in IH.
  - enough (max_of (map height (map (redact_with sensitive) l)) <= max_of (map height l)) by lia.
    apply max_of_le; [apply max_of_nonneg|]. rewrite map_map. apply List.Forall_map, List.Forall_forall. intros x Hx.
    etransitivity; [by apply IH|]. by apply max_of_In, in_map.
  - set (g := fun kv : string * json => height (snd kv)) in *.
    enough (max_of (map g (map (fun kv => (fst kv, if sensitive (fst kv) then redacted_mark
              else redact_with sensitive (snd kv))) d)) <= max_of (map g d)) by lia.
    apply max_of_le; [apply max_of_nonneg|]. rewrite map_map. apply List.Forall_map, List.Forall_forall. intros x Hx.
    etransitivity; [|by apply max_of_In, (in_map g), Hx]. unfold g. cbn [snd].
    destruct (sensitive (fst x)); [apply height_nonneg|by apply IH].
Qed.

(** A text that decodes to a masked document, if it decodes. *)
Definition masked_text (text : string) : Prop := forall v, unmarshalAny text = Some v -> masked SensitiveKey v = true.
End Masked.

Section Texts.
Context `{F : Floats} `{!FloatsLaws F}.

Lemma redacted_masked text : masked_text (redactResultJSONString text).
Proof.
  unfold redactResultJSONString. destruct (unmarshalAny text) as [v|] eqn:E; intros u H; [|congruence].
  apply unmarshal_wf in E as (W & D & _). unfold Redact in H. rewrite marshal_back in H.
  - injection H as <-. apply repair_masked, redact_with_masked.
  - by apply redact_with_wf.
  - etransitivity; [apply redact_with_height|exact D].
Qed.

(** The documents of an answer. *)
Definition documents_of (data : evidence_data) : list string :=
  match data with
  | VTests l | VTestPage l _ => flat_map (fun t => match tr_PostmanData t with Some s => [s] | None => [] end) l
  | VSteps l => flat_map (fun s => [stp_Screenshots s; stp_Data s]) l
  | VDescriptors l => map ds_Metadata l
  | VDescriptor x => [ds_Metadata x]
  | VCycles _ | VCyclePage _ _ | VExport _ | VDownload _ => []
  end.

Definition masked_data (data : evidence_data) : Prop := forall text, In text (documents_of data) -> masked_text text.

Lemma tests_masked rows : masked_data (VTests (map test_result rows)).
Proof.
  intros text (x & (row & <- & _)%in_map_iff & H)%in_flat_map. cbn in H.
  destruct (CliTables.pt_postmanData (snd row)) as [s|]; [|done]. destruct H as [<-|[]]. apply redacted_masked.
Qed.

Lemma steps_masked rows : masked_data (VSteps (map step_result rows)).
Proof. intros text (x & (row & <- & _)%in_map_iff & [<-|[<-|[]]])%in_flat_map; apply redacted_masked. Qed.

Lemma descriptor_masked row : masked_text (ds_Metadata (scanArtifactDescriptor true row)).
Proof. cbn. destruct (af_metadata row); [apply redacted_masked|by intros v [=]]. Qed.
End Texts.

(** What a computation can return. *)
Definition returns {D A} (m : M D A) (P : A -> Prop) : Prop := forall w a w', m w = (Ok a, w') -> P a.

Section Returns.
Context {D : Type}.

Lemma returns_ret {A} (a : A) P : P a -> returns (ret a : M D A) P.
Proof. by intros H w b w' [= <- _]. Qed.

Lemma returns_bind {A B} (m : M D A) (k : A -> M D B) P : (forall a, returns (k a) P) -> returns (bind m k) P.
Proof. intros H w b w' E. apply bind_ok in E as (a & w1 & _ & E). by eapply H. Qed.

Lemma returns_then {A B} (m : M D A) (k : A -> M D B) (P : A -> Prop) Q :
  returns m P -> (forall a, P a -> returns (k a) Q) -> returns (bind m k) Q.
Proof. intros Hm H w b w' E. apply bind_ok in E as (a & w1 & Ea & E). eapply H; [by eapply Hm|exact E]. Qed.

Lemma returns_attempt {A} (m : M D A) P :
  returns m P -> returns (attempt m) (fun x => match x with Ok a => P a | Err _ => True end).
Proof.
  intros H w x w'. unfold attempt. destruct (m w) as [[a|[]] w1] eqn:E; intros [= <- _]; try done. by eapply H.
Qed.
End Returns.

Section Answers.
Context `{MS : MySQL} `{F : Floats} `{!FloatsLaws F} `{C : JsonColumn} (now : time) (sourceIP : string).
Notation R := (M EvidenceTables).

Definition masked_reply (reply : vreply) : Prop := forall data, rp_body reply = DData data -> masked_data data.
Notation safe m := (returns (m : R vreply) masked_reply).

Lemma safe_refused (e : error) : masked_reply (desk_refused e).
Proof. intros data. by destruct e. Qed.

(** A reply that carries no data. *)
Lemma safe_ret (reply : vreply) : (forall data, rp_body reply <> DData data) -> safe (ret reply).
Proof. intros H. apply returns_ret. intros data E. by destruct (H data). Qed.

Lemma safe_answer {B} (m : R B) status data :
  returns m (fun b => masked_data (data b)) -> safe (answer m status data).
Proof.
  intros H. apply (returns_then _ _ _ _ (returns_attempt _ _ H)). intros [b|e] Hb; apply returns_ret.
  - by intros x [= <-].
  - apply safe_refused.
Qed.

Lemma safe_listing {B} (m : R B) data : returns m (fun b => masked_data (data b)) -> safe (listing m data).
Proof.
  intros H. apply (returns_then _ _ _ _ (returns_attempt _ _ H)). intros [b|e] Hb; apply returns_ret; [by intros x [= <-]|done].
Qed.

Lemma safe_signed_in r (k : User -> R vreply) : (forall u, safe (k u)) -> safe (signed_in now r k).
Proof. intros H. apply returns_bind. intros [x|[u s]]; [by apply returns_ret|apply H]. Qed.

Lemma safe_capability r c (k : User -> R vreply) : (forall u, safe (k u)) -> safe (with_capability now r c k).
Proof.
  intros H. apply safe_signed_in. intros u. unfold requireAnyCapabilityForUser.
  destruct (permitted u [c]); [apply H|by apply safe_ret].
Qed.

Lemma safe_desk_id r name (k : Z -> R vreply) : (forall id, safe (k id)) -> safe (desk_id r name k).
Proof. intros H. unfold desk_id. destruct (parsePathID _); [apply H|by apply safe_ret]. Qed.

Lemma safe_cycle_path r (k : Z -> Z -> R vreply) : (forall p c, safe (k p c)) -> safe (cycle_path r k).
Proof. intros H. apply safe_desk_id. intros p. apply safe_desk_id, H. Qed.

(** Where the answer has no documents. *)
Lemma safe_plain {B} (m : R B) (data : B -> evidence_data) :
  (forall b, documents_of (data b) = []) -> returns m (fun b => masked_data (data b)).
Proof. intros H w b w' _ text. by rewrite H. Qed.

Lemma descriptor_returned actor p c id :
  returns (GetArtifactDescriptor actor p c id) (fun x => masked_data (VDescriptor x)).
Proof.
  apply returns_bind. intros [row|]; [|by intros w b w']. apply returns_ret. intros text [<-|[]]. apply descriptor_masked.
Qed.

Lemma update_returned r actor input action m :
  returns (updateArtifactLifecycle now sourceIP r actor input action m) (fun x => masked_data (VDescriptor x)).
Proof. apply returns_bind. intros _. apply descriptor_returned. Qed.

Lemma descriptors_returned actor p c :
  returns (ListArtifactDescriptors actor p c) (fun l => masked_data (VDescriptors l)).
Proof.
  apply returns_bind. intros _ w b w' [= <- _] text Ht. cbn in Ht. rewrite map_map in Ht.
  apply in_map_iff in Ht as (row & <- & _). apply descriptor_masked.
Qed.

Lemma tests_returned actor q (data := fun page : list TestResult * ResultMeta =>
    if qr_Paged q then VTestPage (fst page) (snd page) else VTests (fst page)) :
  returns (ListPerformedTests actor q) (fun page => masked_data (data page)).
Proof.
  apply returns_bind. intros [rows total]. apply returns_ret. unfold data.
  by destruct (qr_Paged q); apply tests_masked.
Qed.

Lemma steps_returned actor id : returns (ListPerformedSteps actor id) (fun l => masked_data (VSteps l)).
Proof. apply returns_bind. intros _ w b w' [= <- _]. apply steps_masked. Qed.

Lemma safe_lifecycle r (k : User -> ArtifactLifecycleUpdate -> R vreply) :
  (forall u input, safe (k u input)) -> safe (artifactLifecycleInput now r k).
Proof.
  intros H. apply safe_capability. intros u. apply safe_cycle_path. intros p c. apply safe_desk_id. intros id. apply H.
Qed.

Lemma safe_serve_evidence rt r : safe (serve_evidence now sourceIP rt r).
Proof.
  destruct rt; cbn [serve_evidence].
  - apply safe_signed_in. intros u. apply safe_desk_id. intros id. apply safe_listing, safe_plain. intros b. by case_match.
  - apply safe_signed_in. intros u. apply safe_desk_id. intros id. apply safe_listing, tests_returned.
  - apply safe_signed_in. intros u. apply safe_desk_id. intros id. apply safe_listing, steps_returned.
  - apply safe_signed_in. intros u. cbv zeta.
    repeat lazymatch goal with |- returns (match ?x with _ => _ end) _ => destruct x end; try by apply safe_ret.
    by apply safe_answer, safe_plain.
  - apply safe_signed_in. intros u. apply safe_desk_id. intros id. by apply safe_answer, safe_plain.
  - apply safe_signed_in. intros u. apply safe_desk_id. intros id. apply returns_bind. intros x. apply returns_ret.
    destruct x as [x|[]]; intros data [= <-]. by intros text [].
  - apply safe_capability. intros u. apply safe_cycle_path. intros p c. apply safe_answer, descriptors_returned.
  - apply safe_capability. intros u. apply safe_cycle_path. intros p c. apply safe_desk_id. intros id.
    apply safe_answer, descriptor_returned.
  - apply safe_lifecycle. intros u input.
    repeat lazymatch goal with |- returns (match ?x with _ => _ end) _ => destruct x end; try by apply safe_ret.
    apply safe_answer, update_returned.
  - apply safe_lifecycle. intros u input. apply safe_answer, update_returned.
  - apply safe_lifecycle. intros u input. cbv zeta.
    repeat lazymatch goal with |- returns (match ?x with _ => _ end) _ => destruct x end; try by apply safe_ret.
    all: apply safe_answer, update_returned.
  - apply safe_lifecycle. intros u input. apply safe_answer, update_returned.
Qed.

(** Claim C15: what the browser shows of results and artifacts is masked.  Whatever the
    route and whatever a stored column holds, each screenshot, data, Postman and metadata
    text in the answer decodes, when it decodes at all, to a document with the mark under
    every sensitive key. *)
Theorem results_leave_masked (rt : evidence_route) (r : Request) (w w' : world EvidenceTables) reply data text v :
  serve_evidence now sourceIP rt r w = (Ok reply, w') -> rp_body reply = DData data ->
  In text (documents_of data) -> unmarshalAny text = Some v -> masked SensitiveKey v = true.
Proof. intros H E I. exact (safe_serve_evidence rt r w reply w' H data E text I v). Qed.
End Answers.

(** ** Exports live a day *)
Section Downloads.
Context `{MS : MySQL} `{F : Floats} `{C : JsonColumn}.
Implicit Types d : EvidenceTables.

(** Exports are only added, by any request. *)
Definition exports_kept d d' : Prop := exists l, vd_exports d' = (vd_exports d ++ l)%list.

Lemma change_exports rt actor d d' : evidence_change rt actor d d' -> exports_kept d d'.
Proof.
  intros [|x _ _ _|d1 a a' e _ [_ _ _ _ _ _ _ ->]]; [exists []|by exists [x]|exists []]; by rewrite app_nil_r.
Qed.

Lemma history_exports `{!FloatsLaws F} `{!JsonColumnLaws C} allow d d' :
  evidence_ok d -> history allow d d' -> exports_kept d d'.
Proof.
  intros O H. revert O. induction H as [d|rt now ip r w w' res d' _ Sv _ IH]; intros O.
  { exists []. by rewrite app_nil_r. }
  destruct (evidence_step now ip rt r w w' res O Sv) as (O' & R). destruct (IH O') as [l2 E].
  destruct R as [R|(actor & _ & Hc)]; [exists l2; by rewrite E, R|].
  destruct (change_exports _ _ _ _ Hc) as [l1 E1]. exists (l1 ++ l2)%list. by rewrite E, E1, app_assoc.
Qed.

Lemma history_ok `{!FloatsLaws F} `{!JsonColumnLaws C} allow d d' : evidence_ok d -> history allow d d' -> evidence_ok d'.
Proof.
  intros O H. revert O. induction H as [d|rt now ip r w w' res d' _ Sv _ IH]; [done|]. intros O.
  apply IH. by eapply evidence_step.
Qed.

Lemma created_ok now actor cycleID format w x w' :
  evidence_ok (w_db w) -> CreateResultExport now actor cycleID format w = (Ok x, w') -> evidence_ok (w_db w').
Proof.
  intros O H. exact (change_ok _ _ _ _ (wp_elim _ _ _ _ _ (wp_export now (w_db w) actor cycleID format) H) O).
Qed.

Lemma find_last_row {A} (p : A -> bool) l x l' :
  List.Forall (fun y => p y = false) l -> p x = true -> List.find p ((l ++ [x]) ++ l') = Some x.
Proof. intros H Hx. induction H as [|y l Hy _ IH]; cbn; [by rewrite Hx|by rewrite Hy]. Qed.

Lemma find_none_iff {A} (p : A -> bool) l : (forall x, In x l -> p x = false) -> List.find p l = None.
Proof. induction l as [|y l IH]; intros H; cbn; [done|]. rewrite H by by left. apply IH. intros x Hx. apply H. by right. Qed.

(** What the row of a new export says. *)
Record new_export (now : time) (actor : User) (cycleID : Z) (format payload : string) (x : ResultExportDescriptor)
    (row : ExportRow) : Prop := {
  ne_id : xp_id row = xd_ID x;
  ne_owner : xp_idCostumer row = activeTenant actor;
  ne_status : xp_status row = "completed";
  ne_filename : xp_filename row = resultExportFilename cycleID format;
  ne_contentType : xp_contentType row = resultExportContentType format;
  ne_payload : xp_payload row = Some payload;
  ne_expiresAt : xp_expiresAt row = Some (column_time (now + 24 * hour));
}.

Lemma create_export now actor cycleID format w x w' :
  CreateResultExport now actor cycleID format w = (Ok x, w') ->
  exists run payload w1 w2 row,
    CliTables.select_owned CliTables.pc_idCostumer cycleID (activeTenant actor)
      (CliTables.performed_test_cycles (vd_results (w_db w))) = Some run
    /\ w_db w1 = w_db w /\ resultExportPayload (activeTenant actor) cycleID run format w1 = (Ok payload, w2)
    /\ new_export now actor cycleID format payload x row /\ xp_id row = vd_nextExport (w_db w)
    /\ vd_exports (w_db w') = (vd_exports (w_db w) ++ [row])%list.
Proof.
  intros H. apply bind_ok in H as (run & w1 & Hrun & H). unfold performedCycle in Hrun.
  apply bind_ok in Hrun as (found & w0 & Hq & Hrun). apply query_ok in Hq as [-> E0].
  destruct (CliTables.select_owned _ _ _ _) as [run'|] eqn:Ef; [|discriminate Hrun]. injection Hrun as -> ->.
  apply bind_ok in H as (payload & w2 & Hp & H). apply bind_ok in H as (id & w3 & He & H).
  injection H as <- <-. apply exec_count_ok in He. injection He as He <-.
  assert (E2 : w_db w2 = w_db w) by (rewrite <- E0; exact (wp_elim _ _ _ _ _ (keeps_payload _ _ _ _ (w_db w1)) Hp)).
  match type of He with with_exports (_ ++ [?row]) _ _ = _ => exists run, payload, w1, w2, row end. split_and!; [done|exact E0|exact Hp|split; reflexivity|cbn; by rewrite E2|].
  rewrite <- He, E2. done.
Qed.

Lemma download_row now actor id row w :
  List.find (fun x => (xp_id x =? id) && (xp_idCostumer x =? activeTenant actor)) (vd_exports (w_db w)) = row ->
  healthy w ->
  fst (DownloadResultExport now actor id w)
  = match row with
    | None => Err ErrNotFound
    | Some x =>
        if negb (String.eqb (xp_status x) "completed") then Err ErrConflict
        else if match xp_expiresAt x with Some t => before t now | None => false end then Err ErrGone
        else match xp_payload x with
             | None => Err ErrConflict
             | Some payload => Ok {| dl_Filename := xp_filename x; dl_ContentType := xp_contentType x; dl_Payload := payload |}
             end
    end.
Proof.
  intros <- (w1 & E & Ed & _)%(round_trip_healthy "load browser result export").
  unfold DownloadResultExport, resultExport, query, gets, bind. rewrite E, Ed.
  destruct (List.find _ _) as [x|]; [|done]. cbn. by repeat case_match.
Qed.

(** an export is served for a day, as it was made, to its customer only.  When
    an export is created, the run is one of the active customer and the payload is the
    text of the run at that moment; after any requests of anybody, a download by a user
    of that customer gives exactly this payload, with the name and type of its format, up
    to a second before a day has passed, and is refused as gone from a second after; to
    any other customer the export does not exist. *)
Theorem export_lives_a_day `{!MySQLLaws MS} `{!FloatsLaws F} `{!JsonColumnLaws C} now actor cycleID format
    (w w' : world EvidenceTables) x :
  evidence_ok (w_db w) -> CreateResultExport now actor cycleID format w = (Ok x, w') ->
  exists run payload w1 w2,
    CliTables.select_owned CliTables.pc_idCostumer cycleID (activeTenant actor)
      (CliTables.performed_test_cycles (vd_results (w_db w))) = Some run
    /\ w_db w1 = w_db w /\ resultExportPayload (activeTenant actor) cycleID run format w1 = (Ok payload, w2)
    /\ forall later allow reader wl,
         history allow (w_db w') (w_db wl) -> healthy wl ->
         (activeTenant reader = activeTenant actor -> later <= now + 24 * hour - second ->
            fst (DownloadResultExport later reader (xd_ID x) wl)
            = Ok {| dl_Filename := resultExportFilename cycleID format;
                    dl_ContentType := resultExportContentType format; dl_Payload := payload |})
         /\ (activeTenant reader = activeTenant actor -> now + 24 * hour + second < later ->
               fst (DownloadResultExport later reader (xd_ID x) wl) = Err ErrGone)
         /\ (activeTenant reader <> activeTenant actor ->
               fst (DownloadResultExport later reader (xd_ID x) wl) = Err ErrNotFound).
Proof.
  intros O H. destruct (create_export _ _ _ _ _ _ _ H) as (run & payload & w1 & w2 & row & H1 & H2 & H3 & N & Hid & Hx).
  exists run, payload, w1, w2. split_and!; [done..|]. intros later allow reader wl Hh Hw.
  pose proof (created_ok _ _ _ _ _ _ _ O H) as O'. destruct (history_exports _ _ _ O' Hh) as [l Hl].
  destruct (column_time_close (now + 24 * hour)) as [T1 T2].
  assert (Same : activeTenant reader = activeTenant actor ->
            List.find (fun x0 => (xp_id x0 =? xd_ID x) && (xp_idCostumer x0 =? activeTenant reader)) (vd_exports (w_db wl))
            = Some row).
  { intros T. rewrite Hl, Hx. apply find_last_row.
    - eapply List.Forall_impl; [|exact (eo_nextExport _ O)]. intros y Hy. rewrite <- (ne_id _ _ _ _ _ _ _ N), Hid.
      cbn in Hy. apply andb_false_iff. left. apply Z.eqb_neq. lia.
    - by rewrite (ne_id _ _ _ _ _ _ _ N), (ne_owner _ _ _ _ _ _ _ N), T, !Z.eqb_refl. }
  split_and!.
  - intros T B. rewrite (download_row _ _ _ _ _ (Same T) Hw), (ne_status _ _ _ _ _ _ _ N), (ne_expiresAt _ _ _ _ _ _ _ N).
    cbn [String.eqb negb]. replace (before _ later) with false by (symmetry; apply Z.ltb_ge; lia).
    by rewrite (ne_payload _ _ _ _ _ _ _ N), (ne_filename _ _ _ _ _ _ _ N), (ne_contentType _ _ _ _ _ _ _ N).
  - intros T B. rewrite (download_row _ _ _ _ _ (Same T) Hw), (ne_status _ _ _ _ _ _ _ N), (ne_expiresAt _ _ _ _ _ _ _ N).
    cbn [String.eqb negb]. by replace (before _ later) with true by (symmetry; apply Z.ltb_lt; lia).
  - intros T. rewrite (download_row _ _ _ None _); [done| |done]. apply find_none_iff. intros y Hy.
    destruct (Z.eqb_spec (xp_id y) (xd_ID x)) as [E|]; [|done]. apply Z.eqb_neq. intros E2. destruct T. cbn in E2.
    assert (y = row) as ->.
    { apply (nodup_key xp_id (vd_exports (w_db wl))); [|exact Hy| |by rewrite E, (ne_id _ _ _ _ _ _ _ N)].
      - exact (eo_exports _ (history_ok _ _ _ O' Hh)).
      - rewrite Hl, Hx, !in_app_iff. left. right. by left. }
    by rewrite <- E2, (ne_owner _ _ _ _ _ _ _ N).
Qed.
End Downloads.

(** ** Sorting commutes with a change of the rows *)
Section SortMap.
Context {A B : Type} (le : A -> A -> bool) (le' : B -> B -> bool) (g : A -> B).
Hypothesis same : forall a b, le' (g a) (g b) = le a b.
#[local] Notation R := (fun x y => Is_true (le x y)).
#[local] Notation R' := (fun x y => Is_true (le' x y)).

Lemma list_merge_map l1 l2 : list_merge R' (map g l1) (map g l2) = map g (list_merge R l1 l2).
Proof.
  revert l2. induction l1 as [|a l1 IH1]; intros l2; [by destruct l2|].
  induction l2 as [|b l2 IH2]; [done|]. cbn. rewrite same. destruct (decide (Is_true (le a b))); cbn.
  - f_equal. exact (IH1 (b :: l2)).
  - f_equal. exact IH2.
Qed.

Definition map_stack : list (option (list A)) -> list (option (list B)) := map (fmap (map g)).

Lemma merge_list_to_stack_map st l :
  merge_list_to_stack R' (map_stack st) (map g l) = map_stack (merge_list_to_stack R st l).
Proof.
  revert l. induction st as [|[l'|] st IH]; intros l; [done| |done]. cbn. f_equal. by rewrite list_merge_map, IH.
Qed.

Lemma merge_stack_map st : merge_stack R' (map_stack st) = map g (merge_stack R st).
Proof. induction st as [|[l|] st IH]; cbn; [done| |done]. by rewrite IH, list_merge_map. Qed.

Lemma merge_sort_aux_map st l : merge_sort_aux R' (map_stack st) (map g l) = map g (merge_sort_aux R st l).
Proof.
  revert st. induction l as [|a l IH]; intros st; cbn; [apply merge_stack_map|].
  change [g a] with (map g [a]). by rewrite merge_list_to_stack_map, IH.
Qed.

Lemma order_by_map l : order_by le' (map g l) = map g (order_by le l).
Proof. exact (merge_sort_aux_map [] l). Qed.
End SortMap.

(** ** Exports and documents *)

(** The results without their documents. *)
Definition bare_test (t : CliTables.PerformedTest) : CliTables.PerformedTest :=
  {| CliTables.pt_testCycleDoneId := CliTables.pt_testCycleDoneId t; CliTables.pt_testId := CliTables.pt_testId t;
     CliTables.pt_name := CliTables.pt_name t; CliTables.pt_status := CliTables.pt_status t;
     CliTables.pt_postmanData := None; CliTables.pt_idCostumer := CliTables.pt_idCostumer t;
     CliTables.pt_idempotencyKey := CliTables.pt_idempotencyKey t; CliTables.pt_created_at := CliTables.pt_created_at t;
     CliTables.pt_updated_at := CliTables.pt_updated_at t |}.

Definition bare_step (s : CliTables.PerformedStep) : CliTables.PerformedStep :=
  {| CliTables.ps_testCycleDoneId := CliTables.ps_testCycleDoneId s; CliTables.ps_testDoneId := CliTables.ps_testDoneId s;
     CliTables.ps_stepId := CliTables.ps_stepId s; CliTables.ps_status := CliTables.ps_status s;
     CliTables.ps_name := CliTables.ps_name s; CliTables.ps_screenshots := ""; CliTables.ps_type := CliTables.ps_type s;
     CliTables.ps_data := ""; CliTables.ps_idCostumer := CliTables.ps_idCostumer s;
     CliTables.ps_idempotencyKey := CliTables.ps_idempotencyKey s; CliTables.ps_created_at := CliTables.ps_created_at s;
     CliTables.ps_updated_at := CliTables.ps_updated_at s |}.

Definition map_table {A B} (f : A -> B) (t : CliTables.table A) : CliTables.table B :=
  CliTables.Table (f <$> CliTables.t_rows t) (CliTables.t_next t).

Definition bare (r : CliTables.CliTables) : CliTables.CliTables :=
  {| CliTables.costumers := CliTables.costumers r; CliTables.key_audits := CliTables.key_audits r;
     CliTables.configuration := CliTables.configuration r;
     CliTables.performed_test_cycles := CliTables.performed_test_cycles r;
     CliTables.performed_tests := map_table bare_test (CliTables.performed_tests r);
     CliTables.performed_steps := map_table bare_step (CliTables.performed_steps r) |}.

Definition without_documents (d : EvidenceTables) : EvidenceTables :=
  {| vd_accounts := vd_accounts d; vd_events := vd_events d; vd_results := bare (vd_results d);
     vd_artifacts := vd_artifacts d; vd_nextArtifact := vd_nextArtifact d; vd_exports := vd_exports d;
     vd_nextExport := vd_nextExport d |}.

Definition bare_world (w : world EvidenceTables) : world EvidenceTables :=
  World (without_documents (w_db w)) (w_faults w) (w_random w).

Section Independence.
Context `{MS : MySQL} `{F : Floats}.
Notation R := (M EvidenceTables).

Definition outcome_map {A B} (f : A -> B) (x : outcome A) : outcome B :=
  match x with Ok a => Ok (f a) | Err e => Err e end.

(** On the bare tables, [m'] does what [m] does, and returns what [f] makes of its value. *)
Definition tracks {A B} (f : A -> B) (m : R A) (m' : R B) : Prop :=
  forall w, m' (bare_world w) = (outcome_map f (fst (m w)), bare_world (snd (m w))).

Lemma tracks_ret {A B} (f : A -> B) a b : b = f a -> tracks f (ret a) (ret b).
Proof. by intros -> w. Qed.

Lemma tracks_fail {A B} (f : A -> B) e : tracks f (fail e) (fail e).
Proof. done. Qed.

Lemma tracks_bind {A A' B B'} (f : A -> A') (g : B -> B') m m' k k' :
  tracks f m m' -> (forall a, tracks g (k a) (k' (f a))) -> tracks g (bind m k) (bind m' k').
Proof. intros H K w. unfold bind. rewrite (H w). destruct (m w) as [[a|e] w1]; [apply K|done]. Qed.

Lemma tracks_query {A B} (f : A -> B) op (p : EvidenceTables -> A) p' :
  (forall d, p' (without_documents d) = f (p d)) -> tracks f (query op p) (query op p').
Proof.
  intros H w. unfold query, bind, round_trip, gets. cbn. destruct (w_faults w) as [|[x|] fs]; cbn; by rewrite ?H.
Qed.

Lemma tracks_mapM {A A' B B'} (f : A -> A') (g : B -> B') (h : A -> R B) h' l :
  (forall a, tracks g (h a) (h' (f a))) -> tracks (map g) (mapM h l) (mapM h' (map f l)).
Proof.
  intros H. induction l as [|a l IH]; cbn [mapM map]; [by apply tracks_ret|].
  apply (tracks_bind g); [apply H|]. intros b. apply (tracks_bind (map g)); [exact IH|]. intros bs. by apply tracks_ret.
Qed.

Lemma filter_map_same {A B} (g : A -> B) (p : A -> bool) (p' : B -> bool) l :
  (forall a, p' (g a) = p a) -> List.filter p' (map g l) = map g (List.filter p l).
Proof. intros H. induction l as [|a l IH]; cbn; [done|]. rewrite H. destruct (p a); cbn; by rewrite IH. Qed.

Definition on_row {A B} (f : A -> B) (row : Z * A) : Z * B := (fst row, f (snd row)).

Lemma rows_of_map {A B} (f : A -> B) t : rows_of (map_table f t) = map (on_row f) (rows_of t).
Proof. exact (map_to_list_fmap f (CliTables.t_rows t)). Qed.

(** A selection sorted by identifier. *)
Lemma selection_map {A B} (f : A -> B) t (p : Z * A -> bool) p' :
  (forall row, p' (on_row f row) = p row) ->
  order_by (by_number fst) (List.filter p' (rows_of (map_table f t)))
  = map (on_row f) (order_by (by_number fst) (List.filter p (rows_of t))).
Proof. intros H. by rewrite rows_of_map, (filter_map_same _ p) by done; apply order_by_map. Qed.

Definition bare_export_test (t : ExportTest) : ExportTest :=
  {| xt_ID := xt_ID t; xt_Name := xt_Name t; xt_Status := xt_Status t; xt_Steps := map (on_row bare_step) (xt_Steps t) |}.

Lemma tracks_steps tenant cycle test :
  tracks (map (on_row bare_step)) (resultExportSteps tenant cycle test) (resultExportSteps tenant cycle test).
Proof. apply tracks_query. intros d. by apply selection_map. Qed.

Lemma tracks_tests tenant cycle :
  tracks (map bare_export_test) (resultExportTests tenant cycle) (resultExportTests tenant cycle).
Proof.
  apply (tracks_bind (map (on_row bare_test))); [apply tracks_query; intros d; by apply selection_map|].
  intros tests. apply tracks_mapM. intros t. apply (tracks_bind (map (on_row bare_step))); [apply tracks_steps|].
  intros steps. by apply tracks_ret.
Qed.

Lemma all_some_map {A B D} (g : A -> B) (f : B -> option D) l : all_some f (map g l) = all_some (fun a => f (g a)) l.
Proof. induction l as [|a l IH]; cbn; [done|]. by rewrite IH. Qed.

Lemma all_some_ext {A B} (f g : A -> option B) l : (forall a, f a = g a) -> all_some f l = all_some g l.
Proof. intros H. induction l as [|a l IH]; cbn; [done|]. by rewrite H, IH. Qed.

Lemma test_document_bare t : test_document (bare_export_test t) = test_document t.
Proof. unfold test_document. cbn. by rewrite all_some_map. Qed.

Lemma document_bare id run tests :
  export_document id run (map bare_export_test tests) = export_document id run tests.
Proof. unfold export_document. by rewrite all_some_map, (all_some_ext _ test_document) by apply test_document_bare. Qed.

Lemma flat_map_same {A B D} (g : A -> B) (f' : B -> list D) (f : A -> list D) l :
  (forall a, f' (g a) = f a) -> flat_map f' (map g l) = flat_map f l.
Proof. intros H. induction l as [|a l IH]; cbn; [done|]. by rewrite H, IH. Qed.

Lemma markdown_bare id run tests :
  resultExportMarkdown id run (map bare_export_test tests) = resultExportMarkdown id run tests.
Proof.
  unfold resultExportMarkdown. cbv zeta. erewrite flat_map_same; [reflexivity|].
  intros t. cbn [bare_export_test xt_Name xt_ID xt_Status xt_Steps]. by rewrite length_map.
Qed.

Lemma tracks_payload tenant id run format :
  tracks (fun s => s) (resultExportPayload tenant id run format) (resultExportPayload tenant id run format).
Proof.
  apply (tracks_bind (map bare_export_test)); [apply tracks_tests|]. intros tests.
  rewrite document_bare, markdown_bare. destruct (String.eqb format "json"); [|by apply tracks_ret].
  destruct (export_document id run tests); [by apply tracks_ret|apply tracks_fail].
Qed.

Lemma tracks_create now actor cycleID format :
  tracks (fun x => x) (CreateResultExport now actor cycleID format) (CreateResultExport now actor cycleID format).
Proof.
  apply (tracks_bind (fun run => run)).
  { apply (tracks_bind (fun row => row)); [by apply tracks_query|]. intros [run|]; [by apply tracks_ret|apply tracks_fail]. }
  intros run. apply (tracks_bind (fun s => s)); [apply tracks_payload|]. intros payload. cbv zeta.
  apply (tracks_bind (fun id => id)); [|intros id; by apply tracks_ret].
  intros w. unfold exec_count, bind, round_trip. cbn. destruct (w_faults w) as [|[x|] fs]; done.
Qed.

(** Claim C14: an export has nothing of the documents of its run.  On two states that
    differ in screenshots, step data and Postman data only, with the same failures, the
    creation of an export has the same outcome, and the states after it, with the payload
    that was stored, differ in these documents only. *)
Theorem export_ignores_documents now actor cycleID format (w1 w2 : world EvidenceTables) :
  bare_world w1 = bare_world w2 ->
  let m := CreateResultExport now actor cycleID format in
  fst (m w1) = fst (m w2) /\ bare_world (snd (m w1)) = bare_world (snd (m w2))
  /\ vd_exports (w_db (snd (m w1))) = vd_exports (w_db (snd (m w2))).
Proof.
  intros E m. pose proof (tracks_create now actor cycleID format w1) as T.
  rewrite E, (tracks_create now actor cycleID format w2) in T. fold m in T.
  assert (S : forall x : outcome ResultExportDescriptor, outcome_map (fun y => y) x = x) by by intros [].
  pose proof (f_equal fst T) as X. pose proof (f_equal snd T) as Y. cbn [fst snd] in X, Y. rewrite !S in X.
  split_and!; [done..|]. exact (eq_sym (f_equal (fun w => vd_exports (w_db w)) Y)).
Qed.
End Independence.

(** * Requests about evidence *)
(** The floats of the samples keep the text of a number. *)
#[export] Instance plain_floats_laws : FloatsLaws plain_floats.
Proof. split; intros t x Ht [= <-]; done. Qed.

(** A column that keeps the text of a document. *)
#[export] Instance text_column : JsonColumn := {|
  json_column s := match parse_text s with Some _ => Some s | None => None end;
|}.

#[export] Instance text_column_laws `{F : Floats} : JsonColumnLaws text_column.
Proof. split. intros s s'. unfold json_column, text_column. destruct (parse_text s); [|done]. by intros [= ->]. Qed.

(** ** Documents *)
Definition sample_document : json :=
  JObj [("a", JArr [jint 12; JStr (of_chars [byte 34; byte 60; byte 9; byte 233]); JNull]); ("b", JObj [("c", JBool true)])].

Lemma marshal_round_trip_witness :
  wf_json sample_document /\ height sample_document <= maxNestingDepth
  /\ unmarshalAny (marshal sample_document) = Some (repair sample_document)
  /\ repair sample_document <> sample_document.
Proof.
  assert (W : wf_json sample_document).
  { apply wf_obj. split; [reflexivity|]. repeat apply Forall_cons_2; [..|apply Forall_nil_2]; (split; [reflexivity|]).
    - apply wf_arr. repeat constructor. exists "12". by vm_compute.
    - apply wf_obj. split; [reflexivity|]. by repeat constructor. }
  assert (D : height sample_document <= maxNestingDepth) by (vm_compute; discriminate).
  split; [exact W|]. split; [exact D|]. split; [exact (proj1 marshal_round_trip sample_document W D)|].
  vm_compute. discriminate.
Defined.

(** ** The state *)
Definition sample_artifact (id owner : Z) (state metadata : string) : ArtifactRow :=
  {| af_id := id; af_idCostumer := owner; af_idProject := 1; af_performedTestCycleId := 5;
     af_performedTestId := None; af_performedStepId := None; af_artifactType := "screenshot"; af_name := "a.png";
     af_contentType := "image/png"; af_sizeBytes := 1; af_checksumSha256 := "00"; af_storageKey := "k";
     af_state := state; af_retentionUntil := None; af_metadata := Some (json_text metadata);
     af_created_at := Some noon; af_updated_at := Some noon |}.

Definition sample_run (owner : Z) : CliTables.PerformedCycle :=
  {| CliTables.pc_testCycleId := 1; CliTables.pc_date := noon; CliTables.pc_status := 2;
     CliTables.pc_idCostumer := owner; CliTables.pc_idempotencyKey := None; CliTables.pc_context := None;
     CliTables.pc_created_at := noon; CliTables.pc_updated_at := noon |}.

Definition sample_test (name : string) : CliTables.PerformedTest :=
  {| CliTables.pt_testCycleDoneId := 5; CliTables.pt_testId := 1; CliTables.pt_name := name;
     CliTables.pt_status := 2; CliTables.pt_postmanData := Some (json_text "{'token':'t'}");
     CliTables.pt_idCostumer := 8; CliTables.pt_idempotencyKey := None; CliTables.pt_created_at := noon;
     CliTables.pt_updated_at := noon |}.

Definition sample_step (data : string) : CliTables.PerformedStep :=
  {| CliTables.ps_testCycleDoneId := 5; CliTables.ps_testDoneId := 6; CliTables.ps_stepId := 1;
     CliTables.ps_status := 2; CliTables.ps_name := "open"; CliTables.ps_screenshots := "[]";
     CliTables.ps_type := "browser"; CliTables.ps_data := json_text data;
     CliTables.ps_idCostumer := 8; CliTables.ps_idempotencyKey := None; CliTables.ps_created_at := noon;
     CliTables.ps_updated_at := noon |}.

(** Run 5 of customer 8 with one test and one step, and run 9 of customer 7; artifact 1 is
    archived, artifact 2 is under legal hold, artifact 3 is of customer 7. *)
Definition stored_results (name data : string) : CliTables.CliTables :=
  {| CliTables.costumers := []; CliTables.key_audits := [];
     CliTables.configuration := {| CliTables.test_cycles := ∅; CliTables.tests := ∅; CliTables.steps := ∅;
       CliTables.plugins := ∅; CliTables.environments := ∅; CliTables.performed_test_cycles_columns := [] |};
     CliTables.performed_test_cycles := CliTables.Table {[5 := sample_run 8; 9 := sample_run 7]} 10;
     CliTables.performed_tests := CliTables.Table {[6 := sample_test name]} 7;
     CliTables.performed_steps := CliTables.Table {[7 := sample_step data]} 8 |}.

Definition evidence (name data : string) : EvidenceTables :=
  {| vd_accounts := w_db admin_world; vd_events := {| et_rows := []; et_next := 1 |};
     vd_results := stored_results name data;
     vd_artifacts := [sample_artifact 1 8 "archived" "{'archive':{'reason':'old'}}";
                      sample_artifact 2 8 "available" "{'legalHold':{'enabled':true}}";
                      sample_artifact 3 7 "available" "{}"];
     vd_nextArtifact := 4; vd_exports := []; vd_nextExport := 1 |}.

Definition evidence_world : world EvidenceTables := World (evidence "login" "{'password':'hunter2'}") [] [].

Lemma evidence_world_ok : evidence_ok (w_db evidence_world).
Proof. split; cbn; repeat constructor; cbn; intuition discriminate. Qed.

(** The administrator of customer 8. *)
Definition evidence_request (path query : list (string * string)) (body : list (string * field)) : Request :=
  {| rq_path := path; rq_header := []; rq_query := query; rq_cookie := Some admin_session;
     rq_body := match body with [] => BodyEOF | _ => BodyObject body end |}.

Definition artifact_path (id : string) : list (string * string) :=
  [("idProject", "1"); ("performedTestCycleId", "5"); ("artifactDescriptor", id)].

Definition serve_sample_evidence (rt : evidence_route) (r : Request) : M EvidenceTables vreply :=
  serve_evidence noon "10.0.0.1" rt r.

Definition status_of_evidence (res : outcome vreply) : option Z :=
  match res with Ok reply => Some (rp_status reply) | Err _ => None end.

#[local] Notation after rt r w := (snd (serve_sample_evidence rt r w)).
#[local] Notation status rt r w := (status_of_evidence (fst (serve_sample_evidence rt r w))).

(** ** Artifacts *)
Definition restoration : Request := evidence_request (artifact_path "1") [] [].

Lemma evidence_requests_refine_witness :
  evidence_ok (w_db evidence_world)
  /\ status RestoreRoute restoration evidence_world = Some 200
  /\ map af_state (vd_artifacts (w_db (after RestoreRoute restoration evidence_world))) = ["available"; "available"; "available"]
  /\ exists actor, asks_as noon restoration (w_db evidence_world) actor
       /\ evidence_change RestoreRoute actor (w_db evidence_world) (w_db (after RestoreRoute restoration evidence_world)).
Proof.
  split; [exact evidence_world_ok|]. split; [vm_compute; reflexivity|]. split; [vm_compute; reflexivity|].
  destruct (evidence_requests_refine noon "10.0.0.1" RestoreRoute restoration evidence_world
    (after RestoreRoute restoration evidence_world) (fst (serve_sample_evidence RestoreRoute restoration evidence_world))
    evidence_world_ok (surjective_pairing _)) as (_ & _ & [E|H]); [|exact H].
  assert (N : map af_state (vd_artifacts (w_db (after RestoreRoute restoration evidence_world)))
              <> map af_state (vd_artifacts (w_db evidence_world))) by (vm_compute; discriminate).
  destruct N. by rewrite E.
Defined.

(** Deleting and archiving the artifact under hold, and restoring the other. *)
Definition not_about_holds (rt : evidence_route) : bool := match rt with HoldRoute => false | _ => true end.

Definition deletion : Request := evidence_request (artifact_path "2") [] [].

#[local] Notation later := (after RestoreRoute restoration (after DeleteRoute deletion evidence_world)).

Lemma artifact_fate_witness :
  status DeleteRoute deletion evidence_world = Some 422
  /\ exists a', In a' (vd_artifacts (w_db later)) /\ af_id a' = 2 /\ is_held a' = true /\ af_state a' <> "deleted".
Proof.
  split; [vm_compute; reflexivity|].
  assert (H : history not_about_holds (w_db evidence_world) (w_db later)).
  { eapply HistoryStep; [|exact (surjective_pairing (serve_sample_evidence DeleteRoute deletion evidence_world))|]; [done|].
    eapply HistoryStep; [|exact (surjective_pairing (serve_sample_evidence RestoreRoute restoration
      (after DeleteRoute deletion evidence_world)))|]; [done|]. apply HistoryEnd. }
  set (a := sample_artifact 2 8 "available" "{'legalHold':{'enabled':true}}").
  assert (Ha : In a (vd_artifacts (w_db evidence_world))) by (right; left; reflexivity).
  destruct (artifact_fate not_about_holds (w_db evidence_world) (w_db later) a evidence_world_ok H Ha)
    as (a' & H1 & (H2 & _) & _ & H3).
  exists a'. split; [exact H1|]. split; [exact H2|].
  destruct H3 as [H4 [->|[E _]]]; [vm_compute; reflexivity|reflexivity|split; [exact H4|discriminate]|discriminate E].
Defined.

(** The audit event of a restoration shows restoredAt in the values before it. *)
Example restoration_seen_before :
  match et_rows (vd_events (w_db (after RestoreRoute restoration evidence_world))) with
  | [e] => match ev_beforeValues e with Some t => contains t "restoredAt" | None => false end
  | _ => false
  end = true.
Proof. vm_compute. reflexivity. Qed.

(** ** Results *)

(** Sorts that the code accepts and the tables do not have. *)
Example results_sorted_by_missing_column :
  status GetCycles (evidence_request [("idTestCyclePerformed", "1")] [("sort", "name")] []) evidence_world = Some 500
  /\ status GetResults (evidence_request [("idTestPerformed", "5")] [("sort", "date")] []) evidence_world = Some 500
  /\ status GetResults (evidence_request [("idTestPerformed", "5")] [] []) evidence_world = Some 200.
Proof. split_and!; vm_compute; reflexivity. Qed.

Definition steps_request : Request := evidence_request [("idTestPerformed", "6")] [] [].

#[local] Notation steps_answer := (serve_sample_evidence GetStepResults steps_request evidence_world).

Lemma results_leave_masked_witness :
  exists reply l s v, fst steps_answer = Ok reply /\ rp_body reply = DData (VSteps l) /\ In s l
    /\ unmarshalAny (stp_Data s) = Some v /\ masked SensitiveKey v = true
    /\ v = JObj [("password", redacted_mark)].
Proof.
  assert (X : match fst steps_answer with
              | Ok reply => match rp_body reply with DData (VSteps [s]) => unmarshalAny (stp_Data s) | _ => None end
              | Err _ => None
              end = Some (JObj [("password", redacted_mark)])) by (vm_compute; reflexivity).
  destruct steps_answer as [[reply|e] w'] eqn:E; cbn [fst] in X; [|discriminate X].
  assert (B : exists s, rp_body reply = DData (VSteps [s])
              /\ unmarshalAny (stp_Data s) = Some (JObj [("password", redacted_mark)])).
  { destruct (rp_body reply) as [| | |[| | | |[|s [|]]| | | |]|]; try discriminate X. exists s. split; [reflexivity|exact X]. }
  destruct B as (s & B & D). exists reply, [s], s, (JObj [("password", redacted_mark)]).
  split; [reflexivity|]. split; [exact B|]. split; [left; reflexivity|]. split; [exact D|]. split; [|reflexivity].
  unfold serve_sample_evidence in E.
  assert (I : In (stp_Data s) (documents_of (VSteps [s]))) by (right; left; reflexivity).
  exact (results_leave_masked noon "10.0.0.1" GetStepResults steps_request evidence_world w' reply (VSteps [s])
           (stp_Data s) (JObj [("password", redacted_mark)]) E B I D).
Defined.

(** *** Exports *)
#[local] Notation exported := (CreateResultExport noon admin_user 5 "json" evidence_world).
#[local] Notation download at_ w := (fst (DownloadResultExport at_ admin_user 1 w)).

Lemma export_lives_a_day_witness :
  exists x payload, fst exported = Ok x /\ contains payload "login" = true
    /\ download (noon + 23 * hour) (snd exported)
       = Ok {| dl_Filename := "idelium-run-5.json"; dl_ContentType := "application/json"; dl_Payload := payload |}
    /\ download (noon + 25 * hour) (snd exported) = Err ErrGone.
Proof.
  assert (X : match fst exported with Ok x => Some (xd_ID x) | Err _ => None end = Some 1) by (vm_compute; reflexivity).
  destruct exported as [[x|e] w'] eqn:E; cbn [fst] in X; [|discriminate X]. injection X as I.
  assert (K : w' = snd exported) by (rewrite E; reflexivity).
  destruct (export_lives_a_day noon admin_user 5 "json" evidence_world w' x evidence_world_ok E)
    as (run & payload & w1 & w2 & _ & _ & _ & H).
  assert (Hw : healthy w') by (rewrite K; vm_compute; constructor).
  destruct (H (noon + 23 * hour) not_about_holds admin_user w' (HistoryEnd _ _) Hw) as (A & _ & _).
  destruct (H (noon + 25 * hour) not_about_holds admin_user w' (HistoryEnd _ _) Hw) as (_ & B & _).
  rewrite I in A, B. specialize (A eq_refl ltac:(vm_compute; discriminate)). specialize (B eq_refl ltac:(vm_compute; reflexivity)).
  exists x, payload. split; [reflexivity|]. cbn [snd]. split; [|split; [exact A|exact B]].
  assert (P : match download (noon + 23 * hour) w' with
              | Ok d => contains (dl_Payload d) "login" | Err _ => false end = true) by (rewrite K; vm_compute; reflexivity).
  rewrite A in P. exact P.
Defined.

(** Two runs that differ in the data of a step. *)
Definition other_world : world EvidenceTables := World (evidence "login" "{'page':'home'}") [] [].

Lemma export_ignores_documents_witness :
  w_db other_world <> w_db evidence_world
  /\ fst (CreateResultExport noon admin_user 5 "markdown" evidence_world)
     = fst (CreateResultExport noon admin_user 5 "markdown" other_world)
  /\ map xp_status (vd_exports (w_db (snd (CreateResultExport noon admin_user 5 "markdown" evidence_world)))) = ["completed"].
Proof.
  split; [|split; [|vm_compute; reflexivity]].
  - intros H. assert (X : (fun d => CliTables.ps_data <$> (CliTables.t_rows (CliTables.performed_steps (vd_results d)) !! 7)) (w_db other_world)
      = (fun d => CliTables.ps_data <$> (CliTables.t_rows (CliTables.performed_steps (vd_results d)) !! 7)) (w_db evidence_world)) by by rewrite H.
    vm_compute in X. discriminate X.
  - apply (export_ignores_documents noon admin_user 5 "markdown" evidence_world other_world). vm_compute. reflexivity.
Defined.

(** The name of a test is a line of the Markdown: with a line feed in it the export shows
    another status. *)
Definition forged_name : string := "login" +:+ newline +:+ newline +:+ "- Status: 1".

Example markdown_line_forged :
  match fst (resultExportPayload 8 5 (sample_run 8) "markdown" (World (evidence forged_name "{}") [] [])) with
  | Ok text => contains text (newline +:+ "- Status: 1" +:+ newline)
  | Err _ => false
  end = true.
Proof. vm_compute. reflexivity. Qed.
