(* ===== verification/Reviews.v ===== *)
(** * Reviews: versions of assets, their review and their impact

    internal/persistence/mysql/browser_assets.go and the asset routes of
    internal/browserauth/admin.go.  The versions are the rows that recordAssetVersion
    writes; a review is a row of asset_version_review_events for each transition. *)

From stdpp Require Import pretty sorting.
From S2P Require Import Prelude GoStrings GoTime Json JsonText JsonRoundTrip Redaction Effects Http Contracts AccountTables Sessions Accounts Sql.
From S2P Require Import Desk Workspace.

(** ** Tables *)
Record AssetRow := {
  av_id : Z;
  av_idCostumer : Z;
  av_idProject : Z;
  av_assetType : string;
  av_assetId : Z;
  av_version : Z;
  av_actorUserId : option Z;
  av_reason : string;
  av_snapshot : string;
  av_created_at : option time;
}.

(** A row of asset_version_review_events. *)
Record ReviewRow := {
  re_id : Z;
  re_idCostumer : Z;
  re_idProject : Z;
  re_assetVersionId : Z;
  re_fromStatus : string;
  re_toStatus : string;
  re_comment : option string;
  re_actorUserId : option Z;
  re_created_at : option time;
}.

Record ReviewTables := {
  rv_accounts : AccountTables;
  rv_events : EventTable;
  rv_tests : list ResourceRow;
  rv_test_cycles : list ResourceRow;
  rv_versions : list AssetRow;
  rv_reviews : list ReviewRow;
  rv_nextReview : Z;
}.

#[export] Instance review_desk : Desk ReviewTables := {|
  accounts := rv_accounts;
  with_accounts a d := {| rv_accounts := a; rv_events := rv_events d; rv_tests := rv_tests d;
                          rv_test_cycles := rv_test_cycles d; rv_versions := rv_versions d;
                          rv_reviews := rv_reviews d; rv_nextReview := rv_nextReview d |};
  events := rv_events;
  with_events t d := {| rv_accounts := rv_accounts d; rv_events := t; rv_tests := rv_tests d;
                        rv_test_cycles := rv_test_cycles d; rv_versions := rv_versions d;
                        rv_reviews := rv_reviews d; rv_nextReview := rv_nextReview d |};
|}.

#[export] Instance review_desk_laws : DeskLaws ReviewTables.
Proof. split; [by intros []|done..]. Qed.

Definition with_reviews (l : list ReviewRow) (next : Z) (d : ReviewTables) : ReviewTables :=
  {| rv_accounts := rv_accounts d; rv_events := rv_events d; rv_tests := rv_tests d;
     rv_test_cycles := rv_test_cycles d; rv_versions := rv_versions d; rv_reviews := l; rv_nextReview := next |}.

(** ** Structs *)
Record AssetImpactItem := { im_ID : Z; im_Name : string; im_Description : string }.

(** AssetImpact: the two numbers of its summary are the lengths. *)
Record AssetImpact := {
  ai_AssetType : string;
  ai_AssetID : Z;
  ai_Tests : list AssetImpactItem;
  ai_TestCycles : list AssetImpactItem;
}.

Record AssetReview := {
  ar_Status : string;
  ar_LastEventID : option Z;
  ar_LastComment : option string;
  ar_ReviewedByUserID : option Z;
  ar_ReviewedAt : option time;
  ar_AuthorUserID : option Z;
}.

(** AssetVersion: the columns of the row but the snapshot, the review and the snapshot. *)
Record AssetVersion := {
  ve_row : AssetRow;
  ve_Review : AssetReview;
  ve_Snapshot : option (dict json);
}.

Record AssetReviewEvent := {
  rw_ID : Z;
  rw_AssetVersionID : Z;
  rw_FromStatus : string;
  rw_ToStatus : string;
  rw_Comment : option string;
  rw_ActorUserID : option Z;
  rw_CreatedAt : option time;
}.

(** ** References in a config *)
Definition referenceKeys (assetType : string) : list string :=
  if String.eqb assetType "environment" then ["environment"; "environments"]
  else if String.eqb assetType "plugin" then ["plugin"; "plugins"]
  else if String.eqb assetType "step" then ["step"; "steps"]
  else if String.eqb assetType "test" then ["test"; "tests"]
  else if String.eqb assetType "test_cycle" then ["testCycle"; "testCycles"; "test_cycle"; "test_cycles"]
  else [].

(** A number that is the integer of one of the assets. *)
Definition number_in (ids : list Z) (x : float64) : bool :=
  match f_int x with Some z => existsb (Z.eqb z) ids | None => false end.

Definition arrayReferences (value : json) (ids : list Z) : bool :=
  match value with
  | JArr items =>
      existsb (fun item =>
        match item with
        | JNum x => number_in ids x
        | JObj m => existsb (fun key => match jidx m key with JNum x => number_in ids x | _ => false end) ["id"; "assetId"]
        | _ => false
        end) items
  | _ => false
  end.

Fixpoint nodeReferences (node : json) (keys : list string) (ids : list Z) (parent : string) : bool :=
  match node with
  | JNum x => negb (String.eqb parent "") && existsb (String.eqb parent) keys && number_in ids x
  | JObj d =>
      existsb (fun kv => existsb (String.eqb (fst kv)) keys && arrayReferences (snd kv) ids
                         || nodeReferences (snd kv) keys ids (fst kv)) d
  | JArr l => existsb (fun child => nodeReferences child keys ids parent) l
  | _ => false
  end.

Definition configReferences `{F : Floats} (config : string) (keys : list string) (assetIDs : list Z) : bool :=
  match unmarshalAny config with None => false | Some decoded => nodeReferences decoded keys assetIDs "" end.

(** ** The difference of two versions *)

(** [reflect.DeepEqual] of two decoded numbers: [==]. *)
Definition same_number (x y : float64) : bool :=
  match f_int x, f_int y with
  | Some a, Some b => a =? b
  | None, None => String.eqb (f_plain x) (f_plain y)
  | _, _ => false
  end.

Fixpoint deep_equal (a b : json) : bool :=
  match a, b with
  | JNull, JNull => true
  | JBool x, JBool y => Bool.eqb x y
  | JNum x, JNum y => same_number x y
  | JStr x, JStr y => String.eqb x y
  | JArr l, JArr m =>
      (fix go l m := match l, m with
                     | [], [] => true
                     | x :: l', y :: m' => deep_equal x y && go l' m'
                     | _, _ => false
                     end) l m
  | JObj l, JObj m =>
      (fix go (l m : list (string * json)) :=
         match l, m with
         | [], [] => true
         | (j, x) :: l', (k, y) :: m' => String.eqb j k && deep_equal x y && go l' m'
         | _, _ => false
         end) l m
  | _, _ => false
  end.

Record SnapshotDiff := {
  df_added : dict json;
  df_removed : dict json;
  df_changed : dict (json * json);
}.

Definition no_diff : SnapshotDiff := {| df_added := []; df_removed := []; df_changed := [] |}.

(** One turn of the loop over the keys. *)
Definition diff_key (from to : dict json) (acc : SnapshotDiff) (key : string) : SnapshotDiff :=
  match dget key from, dget key to with
  | None, v => {| df_added := dset key (default JNull v) (df_added acc); df_removed := df_removed acc;
                  df_changed := df_changed acc |}
  | Some v, None => {| df_added := df_added acc; df_removed := dset key v (df_removed acc);
                       df_changed := df_changed acc |}
  | Some v, Some v' =>
      if deep_equal v v' then acc
      else {| df_added := df_added acc; df_removed := df_removed acc; df_changed := dset key (v, v') (df_changed acc) |}
  end.

(** [sort.Strings]. *)
Definition sort_strings (l : list string) : list string := order_by String.leb l.

Definition diff_keys (from to : dict json) : list string :=
  sort_strings (map fst from ++ List.filter (fun k => match dget k from with Some _ => false | None => true end) (map fst to)).

Definition snapshot_diff (from to : dict json) : SnapshotDiff :=
  fold_left (diff_key from to) (diff_keys from to) no_diff.

(** [assetVersionDiff]: the two versions, and the changes between their snapshots. *)
Record VersionDiff := { vd_From : AssetRow; vd_To : AssetRow; vd_Changes : SnapshotDiff }.

Definition assetVersionDiff (from to : AssetVersion) : VersionDiff :=
  {| vd_From := ve_row from; vd_To := ve_row to;
     vd_Changes := snapshot_diff (default [] (ve_Snapshot from)) (default [] (ve_Snapshot to)) |}.

(** ** The repository *)
Section Repository.
Context `{MS : MySQL} `{F : Floats} `{C : JsonColumn} (now : time) (sourceIP : string).
Notation R := (M ReviewTables).

(** [ensureProject]. *)
Definition ensure_project (tenantID projectID : Z) : R unit :=
  let! exists_ := query "check browser project ownership"
    (fun d => existsb (owns tenantID projectID) (at_projects (rv_accounts d))) in
  guard exists_ ErrNotFound.

Definition impact_item (r : ResourceRow) : AssetImpactItem :=
  {| im_ID := rs_id r; im_Name := rs_name r; im_Description := default "" (rs_description r) |}.

Definition impact_row (tenantID projectID : Z) (r : ResourceRow) : bool :=
  (rs_idCostumer r =? tenantID) && (rs_idProject r =? projectID).

(** The body of the loop: is a test, or a test cycle, affected? *)
Definition affected (of_cycles : bool) (assetType : string) (assetID : Z) (dependentTestIDs : list Z) (r : ResourceRow) : bool :=
  let config := default "" (rs_config r) in
  if negb of_cycles && String.eqb assetType "test" then rs_id r =? assetID
  else if of_cycles && String.eqb assetType "test_cycle" then rs_id r =? assetID
  else
    configReferences config (referenceKeys assetType) [assetID]
    || of_cycles && negb (Nat.eqb (length dependentTestIDs) 0)
       && configReferences config (referenceKeys "test") dependentTestIDs.

Definition assetImpactItems (of_cycles : bool) (tenantID projectID : Z) (assetType : string) (assetID : Z)
    (dependentTestIDs : list Z) : R (list AssetImpactItem) :=
  query "list browser asset impact resources" (fun d =>
    map impact_item (List.filter (affected of_cycles assetType assetID dependentTestIDs)
      (order_by (fun a b => text_le (rs_name a) (rs_name b))
        (List.filter (impact_row tenantID projectID) (if of_cycles then rv_test_cycles d else rv_tests d))))).

(** [AssetImpact]. *)
Definition asset_impact (actor : User) (projectID : Z) (assetType : string) (assetID : Z) : R AssetImpact :=
  do! ensure_project (activeTenant actor) projectID;
  let! tests := assetImpactItems false (activeTenant actor) projectID assetType assetID [] in
  let! cycles := assetImpactItems true (activeTenant actor) projectID assetType assetID (map im_ID tests) in
  ret {| ai_AssetType := assetType; ai_AssetID := assetID; ai_Tests := tests; ai_TestCycles := cycles |}.

(** *** Versions *)

(** The events of a version, the last first. *)
Definition of_version (tenantID projectID versionID : Z) (e : ReviewRow) : bool :=
  (re_idCostumer e =? tenantID) && (re_idProject e =? projectID) && (re_assetVersionId e =? versionID).

Definition last_event (tenantID projectID versionID : Z) (d : ReviewTables) : option ReviewRow :=
  head (order_by (fun a b => re_id b <=? re_id a) (List.filter (of_version tenantID projectID versionID) (rv_reviews d))).

Definition assetReview (tenantID projectID : Z) (version : AssetRow) : R AssetReview :=
  let! event := query "load browser asset review" (last_event tenantID projectID (av_id version)) in
  ret (match event with
       | None => {| ar_Status := "draft"; ar_LastEventID := None; ar_LastComment := None; ar_ReviewedByUserID := None;
                    ar_ReviewedAt := None; ar_AuthorUserID := av_actorUserId version |}
       | Some e => {| ar_Status := re_toStatus e; ar_LastEventID := Some (re_id e); ar_LastComment := re_comment e;
                      ar_ReviewedByUserID := re_actorUserId e; ar_ReviewedAt := re_created_at e;
                      ar_AuthorUserID := av_actorUserId version |}
       end).

(** [scanAssetVersion]: the snapshot of a row, when it is asked for. *)
Definition scan_snapshot (includeSnapshot : bool) (row : AssetRow) : R (option (dict json)) :=
  if includeSnapshot then
    match unmarshalAny (av_snapshot row) with
    | Some (JObj d) => ret (as_obj (Redact (JObj d)))
    | Some JNull => ret (Some [])
    | _ => fail (DatabaseFailure (safeDatabaseFailure "decode browser asset version snapshot" (OtherFault "json")))
    end
  else ret None.

Definition of_asset (tenantID projectID : Z) (assetType : string) (assetID : Z) (v : AssetRow) : bool :=
  (av_idCostumer v =? tenantID) && (av_idProject v =? projectID) && same (av_assetType v) assetType
  && (av_assetId v =? assetID).

Definition ListAssetVersions (actor : User) (projectID : Z) (assetType : string) (assetID : Z) : R (list AssetVersion) :=
  do! ensure_project (activeTenant actor) projectID;
  let! rows := query "list browser asset versions" (fun d =>
    order_by (fun a b => av_version b <=? av_version a)
      (List.filter (of_asset (activeTenant actor) projectID assetType assetID) (rv_versions d))) in
  mapM (fun row =>
    let! review := assetReview (activeTenant actor) projectID row in
    ret {| ve_row := row; ve_Review := review; ve_Snapshot := None |}) rows.

Definition this_version (tenantID projectID versionID : Z) (v : AssetRow) : bool :=
  (av_id v =? versionID) && (av_idCostumer v =? tenantID) && (av_idProject v =? projectID).

Definition find_version (tenantID projectID versionID : Z) (d : ReviewTables) : option AssetRow :=
  List.find (this_version tenantID projectID versionID) (rv_versions d).

Definition GetAssetVersion (actor : User) (projectID versionID : Z) : R AssetVersion :=
  let! row := query "scan browser asset version" (find_version (activeTenant actor) projectID versionID) in
  match row with
  | None => fail ErrNotFound
  | Some row =>
      let! snapshot := scan_snapshot true row in
      let! review := assetReview (activeTenant actor) projectID row in
      ret {| ve_row := row; ve_Review := review; ve_Snapshot := snapshot |}
  end.

(** *** Reviews *)
Definition allowed_from (fromStatus : string) : list string :=
  if String.eqb fromStatus "draft" then ["in_review"]
  else if String.eqb fromStatus "in_review" then ["approved"; "deprecated"]
  else if String.eqb fromStatus "approved" then ["deprecated"]
  else [].

Definition new_review (tenantID projectID versionID id : Z) (fromStatus toStatus : string) (comment : option string)
    (actor : User) : ReviewRow :=
  {| re_id := id; re_idCostumer := tenantID; re_idProject := projectID; re_assetVersionId := versionID;
     re_fromStatus := fromStatus; re_toStatus := toStatus; re_comment := comment;
     re_actorUserId := Some (u_ID actor); re_created_at := Some (column_time now) |}.

Definition review_audit (projectID versionID eventID : Z) (version : AssetRow) (fromStatus toStatus : string) : Event :=
  {| vt_project := projectID; vt_action := "asset_version.review_transitioned"; vt_targetType := "asset_version";
     vt_target := versionID; vt_before := Some [("status", JStr fromStatus)]; vt_after := Some [("status", JStr toStatus)];
     vt_metadata := Some (dict_of_list [("assetType", JStr (av_assetType version)); ("assetId", jint (av_assetId version));
                                        ("version", jint (av_version version)); ("reviewEventId", jint eventID)]) |}.

Definition authored_by (actor : User) (version : AssetRow) : bool :=
  match av_actorUserId version with Some a => a =? u_ID actor | None => false end.

Definition TransitionAssetVersionReview (r : Request) (actor : User) (projectID versionID : Z) (toStatus : string)
    (comment : option string) : R AssetReviewEvent :=
  let tenantID := activeTenant actor in
  transaction "start browser asset review transition" "commit browser asset review transition" (
    let! row := query "scan browser asset version" (find_version tenantID projectID versionID) in
    match row with
    | None => fail ErrNotFound
    | Some version =>
        let! latest := query "load browser asset review status" (last_event tenantID projectID versionID) in
        let fromStatus := match latest with Some e => re_toStatus e | None => "draft" end in
        if negb (existsb (String.eqb toStatus) (allowed_from fromStatus))
        then fail (ReviewFailure "The requested review transition is not allowed." fromStatus toStatus)
        else if String.eqb toStatus "approved" && authored_by actor version
        then fail (ReviewFailure "Asset authors cannot approve their own versions." "" "")
        else
          let! eventID := exec_count "create browser asset review event" (fun d =>
            let id := rv_nextReview d in
            (with_reviews (rv_reviews d ++ [new_review tenantID projectID versionID id fromStatus toStatus comment actor])
               (id + 1) d, id)) in
          let! _ := record_event now sourceIP "record browser asset review audit" r actor
            (review_audit projectID versionID eventID version fromStatus toStatus) in
          ret {| rw_ID := eventID; rw_AssetVersionID := versionID; rw_FromStatus := fromStatus; rw_ToStatus := toStatus;
                 rw_Comment := comment; rw_ActorUserID := Some (u_ID actor); rw_CreatedAt := Some now |}
    end).
End Repository.

(** ** The routes *)
Inductive review_data :=
| RvImpact (x : AssetImpact)
| RvVersions (l : list AssetVersion)
| RvVersion (x : AssetVersion)
| RvDiff (x : VersionDiff)
| RvEvent (x : AssetReviewEvent)
| RvRefused (message : string) (statuses : option (string * string)).

Notation rreply := (desk_reply_of review_data).

Record review_body := { rb_ToStatus : string; rb_Comment : option string }.

Definition review_fields : list (string * setter review_body) :=
  [("toStatus", to_string (fun s b => {| rb_ToStatus := s; rb_Comment := rb_Comment b |}));
   ("comment", to_string_pointer (fun x b => {| rb_ToStatus := rb_ToStatus b; rb_Comment := x |}))].

Section Handlers.
Context `{MS : MySQL} `{F : Floats} `{C : JsonColumn} (now : time) (sourceIP : string).
Notation H := (M ReviewTables rreply).

Definition known_asset (allowPlugin : bool) (assetType : string) : bool :=
  existsb (String.eqb assetType) ["environment"; "step"; "test"; "test_cycle"]
  || allowPlugin && String.eqb assetType "plugin".

Definition assetPath (r : Request) (allowPlugin : bool) (k : User -> Z -> string -> Z -> H) : H :=
  with_capability now r "resources.read" (fun user =>
    desk_id r "idProject" (fun projectID => desk_id r "assetId" (fun assetID =>
      let assetType := pathValue r "assetType" in
      if known_asset allowPlugin assetType then k user projectID assetType assetID
      else ret (desk_error "assetType" "The selected asset type is invalid.")))).

(** [AssetImpact], the handler. *)
Definition ShowAssetImpact (r : Request) : H :=
  assetPath r true (fun user projectID assetType assetID =>
    answer (asset_impact user projectID assetType assetID) 200 RvImpact).

Definition AssetVersions (r : Request) : H :=
  assetPath r false (fun user projectID assetType assetID =>
    answer (ListAssetVersions user projectID assetType assetID) 200 RvVersions).

(** A path that is no number: the message has no full stop. *)
Definition version_not_found : rreply := written 404 (DMessage "Not Found").

Definition parseAssetVersionPath (r : Request) (k : Z -> Z -> H) : H :=
  match parsePathID (pathValue r "idProject"), parsePathID (pathValue r "assetVersion") with
  | Some projectID, Some versionID => k projectID versionID
  | _, _ => ret version_not_found
  end.

Definition ShowAssetVersion (r : Request) : H :=
  with_capability now r "resources.read" (fun user =>
    parseAssetVersionPath r (fun projectID versionID =>
      answer (GetAssetVersion user projectID versionID) 200 RvVersion)).

(** What an error of the repository answers in the comparison. *)
Definition diff_refused (e : error) : rreply := match e with ErrNotFound => desk_notFound | _ => desk_failed end.

Definition DiffAssetVersions (r : Request) : H :=
  with_capability now r "resources.read" (fun user =>
    desk_id r "idProject" (fun projectID => desk_id r "fromVersion" (fun fromID => desk_id r "toVersion" (fun toID =>
      let! from := attempt (GetAssetVersion user projectID fromID) in
      match from with
      | Err e => ret (diff_refused e)
      | Ok from =>
          let! to := attempt (GetAssetVersion user projectID toID) in
          match to with
          | Err e => ret (diff_refused e)
          | Ok to =>
              if negb (String.eqb (av_assetType (ve_row from)) (av_assetType (ve_row to)))
                 || negb (av_assetId (ve_row from) =? av_assetId (ve_row to))
              then ret (written 422 (DMessage "Asset versions must belong to the same asset before they can be compared."))
              else ret (written 200 (DData (RvDiff (assetVersionDiff from to))))
          end
      end)))).

Definition PostReviewEvent (r : Request) : H :=
  with_capability now r "resources.manage" (fun user =>
    parseAssetVersionPath r (fun projectID versionID =>
      match decode_body review_fields {| rb_ToStatus := ""; rb_Comment := None |} r with
      | None => ret desk_unwritten
      | Some b =>
          if negb (existsb (String.eqb (rb_ToStatus b)) ["in_review"; "approved"; "deprecated"])
          then ret (desk_error "toStatus" "The selected to status is invalid.")
          else if match rb_Comment b with Some c => 2000 <? slen c | None => false end
          then ret (desk_error "comment" "The comment field must not exceed 2000 characters.")
          else
            let! x := attempt (TransitionAssetVersionReview now sourceIP r user projectID versionID (rb_ToStatus b) (rb_Comment b)) in
            ret (match x with
                 | Ok event => written 201 (DData (RvEvent event))
                 | Err ErrNotFound => desk_notFound
                 | Err (ReviewFailure message from to) =>
                     written 422 (DData (RvRefused message (if String.eqb from "" then None else Some (from, to))))
                 | Err _ => desk_failed
                 end)
      end)).

Inductive review_route := ImpactRoute | VersionsRoute | DiffRoute | ReviewRoute | VersionRoute.

Definition serve_review (rt : review_route) : Request -> H :=
  match rt with
  | ImpactRoute => ShowAssetImpact
  | VersionsRoute => AssetVersions
  | DiffRoute => DiffAssetVersions
  | ReviewRoute => PostReviewEvent
  | VersionRoute => ShowAssetVersion
  end.
End Handlers.
