(* ===== verification/ReviewTheorems.v ===== *)
(** * Theorems about asset reviews

    What a config refers to, what a change of an asset affects, what the difference of
    two versions says, and the review of a version as a machine: an approval needs a
    second person, and deprecation is final. *)

From stdpp Require Import pretty sorting.
From S2P Require Import Prelude GoStrings GoTime Json JsonText JsonRoundTrip Redaction Effects Http Contracts AccountTables Sessions Accounts Sql.
From S2P Require Import AccountTheorems Desk AuditEvents Workspace Reviews.
From S2P Require Import Paging RunTheorems CliTheorems SessionTheorems AccountHandlers WorkspaceReads EvidenceExports.

(** ** References *)

(** A document refers to an asset: a number under one of the keys, through arrays, or a
    member [id] or [assetId] of an object in an array under one of the keys. *)
Inductive refers (keys : list string) (ids : list Z) : string -> json -> Prop :=
| RefNumber parent x z : parent <> "" -> In parent keys -> f_int x = Some z -> In z ids -> refers keys ids parent (JNum x)
| RefArray parent l v : In v l -> refers keys ids parent v -> refers keys ids parent (JArr l)
| RefMember parent d k v : In (k, v) d -> refers keys ids k v -> refers keys ids parent (JObj d)
| RefObject parent d k items m key x z :
    In (k, JArr items) d -> In k keys -> In (JObj m) items -> In key ["id"; "assetId"] ->
    jidx m key = JNum x -> f_int x = Some z -> In z ids -> refers keys ids parent (JObj d).

Lemma key_In k keys : existsb (String.eqb k) keys = true <-> In k keys.
Proof.
  rewrite existsb_exists. split; [by intros (x & H & ->%String.eqb_eq)|]. intros H. exists k. by rewrite String.eqb_refl.
Qed.

Lemma number_in_spec ids x : number_in ids x = true <-> exists z, f_int x = Some z /\ In z ids.
Proof.
  unfold number_in. destruct (f_int x) as [z|]; [|naive_solver]. rewrite existsb_exists.
  split; [intros (y & H & ->%Z.eqb_eq); eauto|]. intros (y & [= <-] & H). exists z. by rewrite Z.eqb_refl.
Qed.

Lemma array_references_sound keys ids parent d k v :
  ~ In "" keys -> In k keys -> In (k, v) d -> arrayReferences v ids = true -> refers keys ids parent (JObj d).
Proof.
  intros N K Hd H. destruct v as [| | | |items|]; try discriminate H. apply existsb_exists in H as (item & Hi & H).
  destruct item as [| |x| | |m]; try discriminate H.
  - apply number_in_spec in H as (z & E & Hz). eapply RefMember; [exact Hd|]. eapply RefArray; [exact Hi|].
    apply (RefNumber _ _ _ _ z); [by intros ->|done..].
  - apply existsb_exists in H as (key & Hk & H). destruct (jidx m key) as [| |x| | |] eqn:J; try discriminate H.
    apply number_in_spec in H as (z & E & Hz). by eapply (RefObject _ _ _ d k items m key x z).
Qed.

Lemma array_references_complete ids items m key x z :
  In (JObj m) items -> In key ["id"; "assetId"] -> jidx m key = JNum x -> f_int x = Some z -> In z ids ->
  arrayReferences (JArr items) ids = true.
Proof.
  intros Hi Hk J E Hz. apply existsb_exists. exists (JObj m). split; [done|]. apply existsb_exists. exists key. split; [done|].
  rewrite J. apply number_in_spec. eauto.
Qed.

(** The walk of the code finds exactly these references. *)
Lemma nodeReferences_iff keys ids v parent :
  ~ In "" keys -> nodeReferences v keys ids parent = true <-> refers keys ids parent v.
Proof.
  intros N. revert parent. induction v as [| |x| |l IH|d IH] using json_ind; intros parent; cbn [nodeReferences];
    try (split; [discriminate|by inversion 1]).
  - rewrite !andb_true_iff, negb_true_iff, String.eqb_neq, key_In, number_in_spec. split.
    + intros [[H1 H2] (z & E & Hz)]. by eapply RefNumber.
    + inversion 1; subst. eauto.
  - rewrite existsb_exists. rewrite List.Forall_forall in IH. split.
    + intros (c & Hc & H). eapply RefArray; [exact Hc|]. by apply IH.
    + inversion 1 as [|? ? c Hc H'| |]; subst. exists c. split; [done|]. by apply IH.
  - rewrite existsb_exists. rewrite List.Forall_forall in IH. split.
    + intros ([k c] & Hc & H). cbn [fst snd] in H. apply orb_true_iff in H as [H|H].
      * apply andb_true_iff in H as [K%key_In H]. by eapply array_references_sound.
      * eapply RefMember; [exact Hc|]. by apply (IH _ Hc).
    + inversion 1 as [| |? ? k c Hc H'|? ? k items m key x z Hk K Hm Hkey J E Hz]; subst.
      * exists (k, c). split; [done|]. apply orb_true_iff. right. by apply (IH _ Hc).
      * exists (k, JArr items). split; [done|]. apply orb_true_iff. left. cbn [fst snd].
        apply andb_true_iff. split; [by apply key_In|]. by eapply array_references_complete.
Qed.

(** References to several assets are references to one of them. *)
Lemma refers_one keys ids parent v : refers keys ids parent v <-> exists id, In id ids /\ refers keys [id] parent v.
Proof.
  split.
  - induction 1 as [parent x z|parent l v Hv _ (id & Hi & H)|parent d k v Hv _ (id & Hi & H)|parent d k items m key x z].
    + exists z. split; [done|]. eapply RefNumber; try done. by left.
    + exists id. split; [done|]. by eapply RefArray.
    + exists id. split; [done|]. by eapply RefMember.
    + exists z. split; [done|]. eapply RefObject; try done. by left.
  - intros (id & Hi & H). induction H as [parent x z ? ? ? [->|[]]| | |parent d k items m key x z ? ? ? ? ? ? [->|[]]].
    + by eapply RefNumber.
    + by eapply RefArray.
    + by eapply RefMember.
    + by eapply RefObject.
Qed.

Lemma referenceKeys_nonempty assetType : ~ In "" (referenceKeys assetType).
Proof. unfold referenceKeys. repeat case_match; cbn; intuition discriminate. Qed.

(** ** Impact *)
Section Impact.
Context `{MS : MySQL} `{F : Floats}.

(** The config of a row refers to an asset of this type. *)
Definition config_refers (assetType : string) (id : Z) (r : ResourceRow) : Prop :=
  exists v, unmarshalAny (default "" (rs_config r)) = Some v /\ refers (referenceKeys assetType) [id] "" v.

Lemma configReferences_iff assetType ids r :
  configReferences (default "" (rs_config r)) (referenceKeys assetType) ids = true
  <-> exists id, In id ids /\ config_refers assetType id r.
Proof.
  unfold configReferences, config_refers. destruct (unmarshalAny _) as [v|].
  - rewrite (nodeReferences_iff _ _ _ _ (referenceKeys_nonempty assetType)), refers_one.
    split; [intros (id & Hi & H); eauto|]. intros (id & Hi & u & [= <-] & H). eauto.
  - split; [discriminate|]. by intros (? & ? & ? & ? & ?).
Qed.

(** The tests that an asset affects: the test itself, or those that use the asset. *)
Definition test_affected (assetType : string) (assetID : Z) (r : ResourceRow) : Prop :=
  if String.eqb assetType "test" then rs_id r = assetID else config_refers assetType assetID r.

(** The cycles: the cycle itself, or those that use the asset or a test of the list. *)
Definition cycle_affected (assetType : string) (assetID : Z) (tests : list AssetImpactItem) (r : ResourceRow) : Prop :=
  if String.eqb assetType "test_cycle" then rs_id r = assetID
  else config_refers assetType assetID r \/ exists t, In t tests /\ config_refers "test" (im_ID t) r.

Lemma config_one assetType id r :
  configReferences (default "" (rs_config r)) (referenceKeys assetType) [id] = true <-> config_refers assetType id r.
Proof.
  rewrite configReferences_iff. split; [by intros (x & [<-|[]] & H)|]. intros H. exists id. split; [by left|done].
Qed.

Lemma affected_test assetType assetID r : affected false assetType assetID [] r = true <-> test_affected assetType assetID r.
Proof.
  unfold affected, test_affected. cbn [negb andb]. destruct (String.eqb assetType "test"); [apply Z.eqb_eq|].
  rewrite orb_false_r. apply config_one.
Qed.

Lemma affected_cycle assetType assetID tests r :
  affected true assetType assetID (map im_ID tests) r = true <-> cycle_affected assetType assetID tests r.
Proof.
  unfold affected, cycle_affected. cbn [negb andb]. destruct (String.eqb assetType "test_cycle"); [apply Z.eqb_eq|].
  rewrite orb_true_iff, andb_true_iff, config_one, configReferences_iff, negb_true_iff, Nat.eqb_neq, length_map.
  split; (intros [H|H]; [by left|right]).
  - destruct H as (_ & id & (t & <- & Ht)%in_map_iff & H). eauto.
  - destruct H as (t & Ht & H). split; [by destruct tests|]. exists (im_ID t). split; [by apply in_map|done].
Qed.

Lemma impact_items keep tenant project rows item :
  In item (map impact_item (List.filter keep (order_by (fun a b => text_le (rs_name a) (rs_name b))
             (List.filter (impact_row tenant project) rows))))
  <-> exists r, In r rows /\ rs_idCostumer r = tenant /\ rs_idProject r = project /\ keep r = true /\ item = impact_item r.
Proof.
  rewrite in_map_iff. split.
  - intros (r & <- & [H K]%filter_In). apply order_by_In, filter_In in H as [H E].
    apply andb_true_iff in E as [E1%Z.eqb_eq E2%Z.eqb_eq]. by exists r.
  - intros (r & H & E1 & E2 & K & ->). exists r. split; [done|]. apply filter_In. split; [|done].
    apply order_by_In, filter_In. split; [done|]. apply andb_true_iff. by rewrite !Z.eqb_eq.
Qed.

(** Claim C20: the impact of an asset is complete and exact.  When it is computed, the
    project is one of the active customer and nothing changes; the tests are exactly its
    tests whose config refers to the asset (or the test itself), and the cycles exactly
    its cycles whose config refers to the asset or to one of those tests (or the cycle
    itself), where a config refers to an asset as the declarative [refers] says. *)
Theorem impact_exact (actor : User) (projectID : Z) (assetType : string) (assetID : Z) (w w' : world ReviewTables) impact :
  asset_impact actor projectID assetType assetID w = (Ok impact, w') ->
  w_db w' = w_db w
  /\ existsb (owns (activeTenant actor) projectID) (at_projects (rv_accounts (w_db w))) = true
  /\ (forall item, In item (ai_Tests impact) <->
        exists r, In r (rv_tests (w_db w)) /\ rs_idCostumer r = activeTenant actor /\ rs_idProject r = projectID
                  /\ test_affected assetType assetID r /\ item = impact_item r)
  /\ forall item, In item (ai_TestCycles impact) <->
        exists r, In r (rv_test_cycles (w_db w)) /\ rs_idCostumer r = activeTenant actor /\ rs_idProject r = projectID
                  /\ cycle_affected assetType assetID (ai_Tests impact) r /\ item = impact_item r.
Proof.
  intros H. apply bind_ok in H as ([] & w1 & H1 & H). apply bind_ok in H1 as (owned & w0 & Hq & Hg).
  apply query_ok in Hq as [-> E0]. apply guard_ok in Hg as [Hown ->].
  apply bind_ok in H as (tests & w2 & Ht & H). apply query_ok in Ht as [-> E2].
  apply bind_ok in H as (cycles & w3 & Hc & H). apply query_ok in Hc as [-> E3]. injection H as <- <-.
  cbn [ai_Tests ai_TestCycles]. rewrite E3, E2, E0. split_and!; [done|exact Hown|..]; intros item; rewrite impact_items.
  - by setoid_rewrite affected_test.
  - by setoid_rewrite affected_cycle.
Qed.
End Impact.

(** ** The review of a version *)

(** The machine. *)
Inductive review_step : string -> string -> Prop :=
| StepSubmit : review_step "draft" "in_review"
| StepApprove : review_step "in_review" "approved"
| StepReject : review_step "in_review" "deprecated"
| StepRetire : review_step "approved" "deprecated".

Lemma allowed_step from to : existsb (String.eqb to) (allowed_from from) = true <-> review_step from to.
Proof.
  rewrite key_In. unfold allowed_from. split.
  - repeat case_match; cbn; intros I; repeat (destruct I as [<-|I]); try done;
      repeat match goal with E : String.eqb _ _ = true |- _ => apply String.eqb_eq in E as -> end; constructor.
  - intros []; cbn; auto.
Qed.

(** The status after some events, and events that follow the machine. *)
Fixpoint status_after (status : string) (l : list ReviewRow) : string :=
  match l with [] => status | e :: l' => status_after (re_toStatus e) l' end.

Fixpoint chained (status : string) (l : list ReviewRow) : Prop :=
  match l with
  | [] => True
  | e :: l' => re_fromStatus e = status /\ review_step status (re_toStatus e) /\ chained (re_toStatus e) l'
  end.

Lemma status_after_app s l l' : status_after s (l ++ l') = status_after (status_after s l) l'.
Proof. revert s. induction l as [|e l IH]; intros s; [done|apply IH]. Qed.

Lemma chained_app s l l' : chained s (l ++ l') <-> chained s l /\ chained (status_after s l) l'.
Proof. revert s. induction l as [|e l IH]; intros s; cbn; [tauto|]. rewrite IH. tauto. Qed.

Lemma chained_rtc s l : chained s l -> rtc review_step s (status_after s l).
Proof. revert s. induction l as [|e l IH]; intros s; cbn; [done|]. intros (_ & H & K). eapply rtc_l; [exact H|by apply IH]. Qed.

(** The events of a version, in the order of the log. *)
Definition events_of (t p v : Z) (d : ReviewTables) : list ReviewRow := List.filter (of_version t p v) (rv_reviews d).
Definition status_of_version (t p v : Z) (d : ReviewTables) : string := status_after "draft" (events_of t p v d).

(** An approval by somebody who is not the author of the version. *)
Definition approved_by_other (d : ReviewTables) (e : ReviewRow) : Prop :=
  exists a v, re_actorUserId e = Some a /\ In v (rv_versions d)
    /\ this_version (re_idCostumer e) (re_idProject e) (re_assetVersionId e) v = true /\ av_actorUserId v <> Some a.

Record reviews_ok (d : ReviewTables) : Prop := {
  ro_sorted : StronglySorted (fun a b => re_id a < re_id b) (rv_reviews d);
  ro_next : List.Forall (fun e => re_id e < rv_nextReview d) (rv_reviews d);
  ro_versions : List.NoDup (map av_id (rv_versions d));
  ro_chained : forall t p v, chained "draft" (events_of t p v d);
  ro_approved : List.Forall (fun e => re_toStatus e = "approved" -> approved_by_other d e) (rv_reviews d);
}.

(** The first of the events sorted backwards is the last of the log. *)
Lemma sorted_filter {A} (R : A -> A -> Prop) p l : StronglySorted R l -> StronglySorted R (List.filter p l).
Proof.
  induction 1 as [|a l S IH H]; cbn; [constructor|]. destruct (p a); [|done]. constructor; [done|].
  apply Forall_forall. intros x Hx. rewrite Forall_forall in H. apply H.
  apply list_elem_of_In, filter_In in Hx as [Hx _]. by apply list_elem_of_In.
Qed.

Lemma head_of_backwards l :
  StronglySorted (fun a b => re_id a < re_id b) l ->
  head (order_by (fun a b => re_id b <=? re_id a) l) = last l.
Proof.
  intros S. pose proof (order_by_sorted (fun a b => re_id b <=? re_id a) ltac:(intros a b; rewrite !Z.leb_le; lia)
    ltac:(intros a b c; rewrite !Z.leb_le; lia) l) as B.
  destruct l as [|x0 l0] using rev_ind; [done|]. clear IHl0. rewrite last_snoc.
  assert (M : forall y, In y l0 -> re_id y < re_id x0).
  { intros y Hy. apply (StronglySorted_app_1_elem_of (fun a b => re_id a < re_id b) _ _ _ _ S); [by apply list_elem_of_In|apply list_elem_of_singleton; done]. }
  destruct (order_by _ (l0 ++ [x0])) as [|y o] eqn:E.
  { pose proof (order_by_In (fun a b => re_id b <=? re_id a) (l0 ++ [x0])%list x0) as X. rewrite E in X. cbn in X.
    destruct X as [_ X]. destruct X. apply in_app_iff. right. by left. }
  cbn. assert (Hx : In x0 (y :: o)) by (rewrite <- E; apply order_by_In, in_app_iff; right; by left).
  assert (Hy : In y (l0 ++ [x0])) by (apply (order_by_In (fun a b => re_id b <=? re_id a)); rewrite E; by left).
  destruct Hx as [->|Hx]; [done|]. apply in_app_iff in Hy as [Hy|[->|[]]]; [|done].
  apply StronglySorted_inv in B as [_ B]. rewrite Forall_forall in B. apply list_elem_of_In, B in Hx.
  apply Z.leb_le in Hx. apply M in Hy. lia.
Qed.

Lemma last_status s l : match last l with Some e => re_toStatus e | None => s end = status_after s l.
Proof.
  destruct l as [|e l] using rev_ind; [done|]. by rewrite last_snoc, status_after_app.
Qed.

Lemma status_read t p v d :
  reviews_ok d -> match last_event t p v d with Some e => re_toStatus e | None => "draft" end = status_of_version t p v d.
Proof.
  intros O. unfold last_event. rewrite head_of_backwards by apply sorted_filter, (ro_sorted d O). apply last_status.
Qed.

(** ** Every request is a step *)
Section Steps.
Context `{MS : MySQL} `{F : Floats} `{C : JsonColumn}.
Implicit Types d : ReviewTables.

(** A transition of a version, with its row and its audit event. *)
Record transition (actor : User) d (v : AssetRow) (e : ReviewRow) (ev : EventRow) : Prop := {
  tn_version : In v (rv_versions d);
  tn_owner : av_idCostumer v = activeTenant actor;
  tn_this : re_idCostumer e = av_idCostumer v /\ re_idProject e = av_idProject v /\ re_assetVersionId e = av_id v;
  tn_id : re_id e = rv_nextReview d;
  tn_from : re_fromStatus e = status_of_version (av_idCostumer v) (av_idProject v) (av_id v) d;
  tn_step : review_step (re_fromStatus e) (re_toStatus e);
  tn_actor : re_actorUserId e = Some (u_ID actor);
  tn_other : re_toStatus e = "approved" -> av_actorUserId v <> Some (u_ID actor);
  tn_audit : ev_action ev = "asset_version.review_transitioned" /\ ev_activeTenantId ev = activeTenant actor
             /\ ev_actorUserId ev = Some (u_ID actor) /\ ev_targetId ev = Some (pretty (av_id v));
}.

Inductive review_change (rt : review_route) (actor : User) d : ReviewTables -> Prop :=
| ReviewNone : review_change rt actor d d
| ReviewAdded v e ev :
    rt = ReviewRoute -> In "resources.manage" (capabilitiesForRole (u_Role actor)) -> transition actor d v e ev ->
    review_change rt actor d (add_event ev (with_reviews (rv_reviews d ++ [e]) (rv_nextReview d + 1) d)).

Lemma events_added ev e d n t p v :
  events_of t p v (add_event ev (with_reviews (rv_reviews d ++ [e]) n d))
  = (events_of t p v d ++ (if of_version t p v e then [e] else []))%list.
Proof. unfold events_of. cbn. rewrite List.filter_app. cbn. by destruct (of_version t p v e). Qed.

Lemma of_version_spec t p v e : of_version t p v e = true <-> re_idCostumer e = t /\ re_idProject e = p /\ re_assetVersionId e = v.
Proof. unfold of_version. rewrite !andb_true_iff, !Z.eqb_eq. tauto. Qed.

Lemma this_version_spec t p id v : this_version t p id v = true <-> av_id v = id /\ av_idCostumer v = t /\ av_idProject v = p.
Proof. unfold this_version. rewrite !andb_true_iff, !Z.eqb_eq. tauto. Qed.

(** The events of a version grow by a step of the machine, or stay. *)
Lemma change_events rt actor d d' t p v :
  review_change rt actor d d' ->
  exists l, events_of t p v d' = (events_of t p v d ++ l)%list /\ chained (status_of_version t p v d) l.
Proof.
  intros [|w e ev _ _ T]; [exists []; by rewrite app_nil_r|]. rewrite events_added.
  destruct (of_version t p v e) eqn:X; [exists [e]|by exists []]. split; [done|].
  apply of_version_spec in X as (<- & <- & <-). destruct (tn_this _ _ _ _ _ T) as (E1 & E2 & E3).
  cbn. rewrite E1, E2, E3. rewrite <- (tn_from _ _ _ _ _ T). split; [done|]. split; [exact (tn_step _ _ _ _ _ T)|done].
Qed.

Lemma review_versions_kept rt actor d d' : review_change rt actor d d' -> rv_versions d' = rv_versions d.
Proof. by intros []. Qed.

Lemma review_change_ok rt actor d d' : review_change rt actor d d' -> reviews_ok d -> reviews_ok d'.
Proof.
  intros H [S N V Ch A]. pose proof (fun t p v => change_events rt actor d d' t p v H) as G.
  pose proof (review_versions_kept _ _ _ _ H) as Vs. split.
  - destruct H as [|w e ev _ _ T]; [done|]. cbn. apply StronglySorted_app_2; [|done|by repeat constructor].
    intros x y Hx Hy. apply list_elem_of_singleton in Hy as ->. rewrite (tn_id _ _ _ _ _ T).
    rewrite List.Forall_forall in N. by apply N, list_elem_of_In.
  - destruct H as [|w e ev _ _ T]; [done|]. cbn. apply List.Forall_app. split.
    + eapply List.Forall_impl; [|exact N]. intros x. cbn. lia.
    + constructor; [|done]. rewrite (tn_id _ _ _ _ _ T). lia.
  - by rewrite Vs.
  - intros t p v. destruct (G t p v) as (l & -> & Hl). apply chained_app. by split.
  - assert (K : forall x, approved_by_other d x -> approved_by_other d' x).
    { intros x (a & v & E & Hv & R). exists a, v. by rewrite Vs. }
    destruct H as [|w e ev _ _ T]; [done|]. cbn. apply List.Forall_app. split.
    + eapply List.Forall_impl; [|exact A]. intros x Hx Ha. by apply K, Hx.
    + constructor; [|done]. intros Ha. apply K. exists (u_ID actor), w. split_and!.
      * exact (tn_actor _ _ _ _ _ T).
      * exact (tn_version _ _ _ _ _ T).
      * apply this_version_spec. destruct (tn_this _ _ _ _ _ T) as (-> & -> & ->). done.
      * exact (tn_other _ _ _ _ _ T Ha).
Qed.
End Steps.

Section Requests.
Context `{MS : MySQL} `{F : Floats} `{C : JsonColumn} (now : time) (sourceIP : string).
Implicit Types d : ReviewTables.

Lemma keeps_review t p v : keeps (assetReview t p v).
Proof. apply keeps_bind; [apply keeps_query|]. intros x. apply keeps_ret. Qed.

Lemma keeps_GetVersion actor p id : keeps (GetAssetVersion actor p id).
Proof.
  apply keeps_bind; [apply keeps_query|]. intros [row|]; [|apply keeps_fail].
  apply keeps_bind; [unfold scan_snapshot; repeat case_match; auto with keeps|]. intros s.
  apply keeps_bind; [apply keeps_review|]. intros x. apply keeps_ret.
Qed.

Lemma keeps_versions actor p ty id : keeps (ListAssetVersions actor p ty id).
Proof.
  apply keeps_bind; [apply keeps_bind; [apply keeps_query|intros x; apply keeps_guard]|]. intros _.
  apply keeps_bind; [apply keeps_query|]. intros rows. apply keeps_mapM. intros row.
  apply keeps_bind; [apply keeps_review|]. intros x. apply keeps_ret.
Qed.

Lemma keeps_impact actor p ty id : keeps (asset_impact actor p ty id).
Proof.
  apply keeps_bind; [apply keeps_bind; [apply keeps_query|intros x; apply keeps_guard]|]. intros _.
  apply keeps_bind; [apply keeps_query|]. intros tests. apply keeps_bind; [apply keeps_query|]. intros cycles. apply keeps_ret.
Qed.

Definition review_reading (rt : review_route) : bool := match rt with ReviewRoute => false | _ => true end.

Lemma keeps_asset_path r allowPlugin (k : User -> Z -> string -> Z -> M ReviewTables rreply) :
  (forall u p ty id, keeps (k u p ty id)) -> keeps (assetPath now r allowPlugin k).
Proof.
  intros H. apply keeps_capability. intros u. apply keeps_desk_id. intros p. apply keeps_desk_id. intros id.
  cbv zeta. case_match; [apply H|apply keeps_ret].
Qed.

Lemma keeps_version_path r (k : Z -> Z -> M ReviewTables rreply) :
  (forall p v, keeps (k p v)) -> keeps (parseAssetVersionPath r k).
Proof. intros H. unfold parseAssetVersionPath. repeat case_match; auto with keeps. Qed.

Lemma keeps_review_reading rt r : review_reading rt = true -> keeps (serve_review now sourceIP rt r).
Proof.
  destruct rt; try discriminate; intros _; cbn [serve_review].
  - apply keeps_asset_path. intros u p ty id. apply keeps_answer, keeps_impact.
  - apply keeps_asset_path. intros u p ty id. apply keeps_answer, keeps_versions.
  - apply keeps_capability. intros u. apply keeps_desk_id. intros p. apply keeps_desk_id. intros a. apply keeps_desk_id. intros b.
    apply keeps_bind; [apply keeps_attempt, keeps_GetVersion|]. intros [x|e]; [|apply keeps_ret].
    apply keeps_bind; [apply keeps_attempt, keeps_GetVersion|]. intros [y|e]; [|apply keeps_ret]. case_match; apply keeps_ret.
  - apply keeps_capability. intros u. apply keeps_version_path. intros p v. apply keeps_answer, keeps_GetVersion.
Qed.

(** A transition that the code makes is one of the machine. *)
Lemma made_transition actor d p id v e ev c to comment :
  reviews_ok d -> find_version (activeTenant actor) p id d = Some v ->
  let from := match last_event (activeTenant actor) p id d with Some x => re_toStatus x | None => "draft" end in
  existsb (String.eqb to) (allowed_from from) = true -> String.eqb to "approved" && authored_by actor v = false ->
  e = new_review now (activeTenant actor) p id (rv_nextReview d) from to comment actor ->
  event_row now sourceIP actor (review_audit p id (rv_nextReview d) v from to) c
    (with_reviews (rv_reviews d ++ [e]) (rv_nextReview d + 1) d) = Some ev ->
  transition actor d v e ev.
Proof.
  intros O Hf from Ha Hn -> He. pose proof Hf as Hv. apply find_some in Hv as [Hin Ht].
  apply this_version_spec in Ht as (E1 & E2 & E3).
  apply event_row_fields in He as (_ & X2 & X3 & X4 & _ & X6). split; cbn; try done.
  - rewrite E2, E3, E1. by apply status_read.
  - by apply allowed_step.
  - intros ->. cbn in Hn. unfold authored_by in Hn. intros E. by rewrite E, Z.eqb_refl in Hn.
  - rewrite E1. split_and!; done.
Qed.

Lemma wp_transition d r actor p id to comment :
  reviews_ok d -> In "resources.manage" (capabilitiesForRole (u_Role actor)) ->
  wp d (TransitionAssetVersionReview now sourceIP r actor p id to comment)
    (fun _ d' => review_change ReviewRoute actor d d').
Proof.
  intros O Hc. unfold TransitionAssetVersionReview. cbv zeta. apply wp_transaction; [|intros; constructor].
  apply wp_bind, wp_query; [|intros; constructor]. destruct (find_version _ _ _ d) as [v|] eqn:Hf; [|apply wp_fail; constructor].
  apply wp_bind, wp_query; [|intros; constructor].
  set (from := match last_event _ _ _ d with Some e => re_toStatus e | None => "draft" end).
  destruct (existsb (String.eqb to) (allowed_from from)) eqn:Ha; cbn [negb]; [|apply wp_fail; constructor].
  destruct (String.eqb to "approved" && authored_by actor v) eqn:Hn; [apply wp_fail; constructor|].
  apply wp_bind, wp_exec_count; [|intros; constructor]. cbn [fst snd].
  apply wp_bind, wp_record_event; [|intros; constructor]. intros d2 [(ev & c & He & ->)].
  apply wp_ret. eapply ReviewAdded; [done|exact Hc|]. by eapply (made_transition actor d p id v).
Qed.

Definition review_requested (rt : review_route) (r : Request) d d' : Prop :=
  d' = d \/ exists actor, asks_as now r d actor /\ review_change rt actor d d'.

Lemma wp_serve_review rt r d :
  reviews_ok d -> wp d (serve_review now sourceIP rt r) (fun _ d' => review_requested rt r d d').
Proof.
  intros O. destruct (review_reading rt) eqn:R.
  { eapply wp_weaken; [by apply keeps_review_reading|]. intros _ d' ->. by left. }
  destruct rt; try discriminate R. cbn [serve_review].
  apply wp_capability; [|by left..]. intros actor Ha Hc. unfold parseAssetVersionPath.
  repeat first [apply wp_ret; by left | lazymatch goal with |- wp _ (match ?x with _ => _ end) _ => destruct x end ].
  apply wp_bind, wp_attempt. eapply wp_weaken; [by apply wp_transition|].
  intros x d' Hx. assert (X : review_requested ReviewRoute r d d') by (right; by exists actor).
  destruct x as [x|[]]; try apply wp_ret; exact X.
Qed.

Lemma review_request_step rt r w w' res :
  reviews_ok (w_db w) -> serve_review now sourceIP rt r w = (res, w') ->
  reviews_ok (w_db w') /\ review_requested rt r (w_db w) (w_db w').
Proof.
  intros O H. pose proof (wp_elim _ _ _ _ _ (wp_serve_review rt r (w_db w) O) H) as R. split; [|exact R].
  destruct R as [->|(actor & _ & Hc)]; [exact O|by eapply review_change_ok].
Qed.

(** Claim C19: a request about versions is a step of the review machine.  Whatever the
    route, the request and the failures of the database, the log of reviews stays a path
    of the machine draft, in review, approved, deprecated for every version, with every
    approval by somebody other than the author; and either nothing changes, or the
    request carries the live session of an active user with resources.manage and appends
    one transition of a version of the active customer, from its present status, with
    its audit event.  The routes that read change nothing. *)
Theorem review_requests_refine (rt : review_route) (r : Request) (w w' : world ReviewTables) res :
  reviews_ok (w_db w) -> serve_review now sourceIP rt r w = (res, w') ->
  reviews_ok (w_db w')
  /\ (review_reading rt = true -> w_db w' = w_db w)
  /\ (w_db w' = w_db w
      \/ exists actor, asks_as now r (w_db w) actor /\ review_change rt actor (w_db w) (w_db w')).
Proof.
  intros O H. destruct (review_request_step rt r w w' res O H) as [O' R]. split_and!; [exact O'| |exact R].
  intros Hr. exact (keeps_elim _ _ _ _ (keeps_review_reading rt r Hr) H).
Qed.
End Requests.

(** ** The life of a version *)
Inductive review_history `{MS : MySQL} `{F : Floats} `{C : JsonColumn} : ReviewTables -> ReviewTables -> Prop :=
| ReviewsEnd d : review_history d d
| ReviewsStep rt now sourceIP r w w' res d :
    serve_review now sourceIP rt r w = (res, w') -> review_history (w_db w') d -> review_history (w_db w) d.

Section Fate.
Context `{MS : MySQL} `{F : Floats} `{C : JsonColumn}.
Implicit Types d : ReviewTables.

Lemma history_events d d' t p v :
  reviews_ok d -> review_history d d' ->
  reviews_ok d' /\ rv_versions d' = rv_versions d
  /\ exists l, events_of t p v d' = (events_of t p v d ++ l)%list /\ chained (status_of_version t p v d) l.
Proof.
  intros O H. revert O. induction H as [d|rt now ip r w w' res d' Sv _ IH]; intros O.
  { split_and!; [done..|]. exists []. by rewrite app_nil_r. }
  destruct (review_request_step now ip rt r w w' res O Sv) as (O' & R). destruct (IH O') as (O2 & Vs & l2 & E2 & C2).
  destruct R as [R|(actor & _ & Hc)]; [rewrite <- R; eauto|].
  destruct (change_events _ _ _ _ t p v Hc) as (l1 & E1 & C1). split; [done|].
  split; [by rewrite Vs; eapply review_versions_kept|].
  exists (l1 ++ l2)%list. split; [by rewrite E2, E1, app_assoc|]. apply chained_app. split; [done|].
  unfold status_of_version in *. by rewrite E1, status_after_app in C2.
Qed.

Lemma approval_in_log s l : s <> "approved" -> chained s l -> status_after s l = "approved" ->
  exists l' e, l = (l' ++ [e])%list /\ re_toStatus e = "approved" /\ re_fromStatus e = "in_review".
Proof.
  destruct l as [|e l] using rev_ind; [done|]. intros _ Ch. rewrite status_after_app. cbn. intros E.
  exists l, e. split; [done|]. split; [done|]. apply chained_app in Ch as [_ (-> & St & _)]. rewrite E in St.
  by inversion St.
Qed.

(** Claim C18: the review of a version only goes forward, and it takes two.  After any
    requests of anybody, the events of a version are those it had and new ones after
    them, its status is reached by steps of the machine (so deprecated is final), and
    when it is approved its last event is an approval out of review by a user who is
    recorded and is not the author of the version. *)
Theorem review_fate d d' (v : AssetRow) :
  reviews_ok d -> review_history d d' -> In v (rv_versions d) ->
  let status := status_of_version (av_idCostumer v) (av_idProject v) (av_id v) in
  (exists l, events_of (av_idCostumer v) (av_idProject v) (av_id v) d'
             = (events_of (av_idCostumer v) (av_idProject v) (av_id v) d ++ l)%list)
  /\ rtc review_step (status d) (status d')
  /\ (status d = "deprecated" -> status d' = "deprecated")
  /\ (status d' = "approved" -> exists e a,
        last (events_of (av_idCostumer v) (av_idProject v) (av_id v) d') = Some e /\ re_fromStatus e = "in_review"
        /\ re_toStatus e = "approved" /\ re_actorUserId e = Some a /\ av_actorUserId v <> Some a).
Proof.
  intros O H Hv status. destruct (history_events d d' (av_idCostumer v) (av_idProject v) (av_id v) O H) as (O' & Vs & l & E & Ch).
  assert (St : rtc review_step (status d) (status d')).
  { unfold status, status_of_version at 2. rewrite E, status_after_app. by apply chained_rtc. }
  split_and!; [by exists l|exact St| |].
  - intros Ed. rewrite Ed in St. inversion St as [|? y ? Hy]; [done|]. inversion Hy.
  - intros Ea. destruct (approval_in_log "draft" _ ltac:(discriminate) (ro_chained d' O' _ _ _) Ea) as (l' & e & El & Et & Ef).
    assert (He : In e (events_of (av_idCostumer v) (av_idProject v) (av_id v) d')) by (rewrite El; apply in_app_iff; right; by left).
    apply filter_In in He as [He Ho]. pose proof (ro_approved d' O') as A. rewrite List.Forall_forall in A.
    destruct (A e He Et) as (a & u & Ea' & Hu & Tu & N). exists e, a. split_and!; [by rewrite El, last_snoc|done..|].
    assert (u = v) as ->; [|done]. rewrite Vs in Hu. apply of_version_spec in Ho as (_ & _ & Ho).
    apply this_version_spec in Tu as (Tu & _). apply (nodup_key av_id (rv_versions d)); [exact (ro_versions d O)|done..|congruence].
Qed.
End Fate.

(** ** The difference of two versions *)
Section Difference.
Variables from to : dict json.

(** What the difference says of one key. *)
Definition added_at (k : string) : option json :=
  match dget k from, dget k to with None, v => v | _, _ => None end.
Definition removed_at (k : string) : option json :=
  match dget k from, dget k to with v, None => v | _, _ => None end.
Definition changed_at (k : string) : option (json * json) :=
  match dget k from, dget k to with
  | Some v, Some v' => if deep_equal v v' then None else Some (v, v')
  | _, _ => None
  end.

Definition known (k : string) : Prop := dget k from <> None \/ dget k to <> None.

Lemma diff_fold keys acc k :
  List.Forall known keys ->
  let c := fold_left (diff_key from to) keys acc in
  let here := existsb (String.eqb k) keys in
  dget k (df_added c) = (match added_at k with Some v => if here then Some v else dget k (df_added acc) | None => dget k (df_added acc) end)
  /\ dget k (df_removed c) = (match removed_at k with Some v => if here then Some v else dget k (df_removed acc) | None => dget k (df_removed acc) end)
  /\ dget k (df_changed c) = (match changed_at k with Some v => if here then Some v else dget k (df_changed acc) | None => dget k (df_changed acc) end).
Proof.
  intros H. revert acc. induction H as [|j keys Hj _ IH]; intros acc; cbn [fold_left existsb]; cbv zeta.
  { split_and!; by repeat case_match. }
  destruct (IH (diff_key from to acc j)) as (-> & -> & ->). unfold added_at, removed_at, changed_at, diff_key.
  destruct (String.eqb_spec k j) as [->|N]; cbn [orb].
  - unfold known in Hj. destruct (dget j from) as [v|], (dget j to) as [v'|]; try (by destruct Hj); cbn;
      try (destruct (deep_equal v v')); cbn; rewrite ?dget_dset_eq; split_and!; by repeat case_match.
  - assert (N' : j <> k) by done.
    destruct (dget j from) as [v|], (dget j to) as [v'|]; cbn; try (destruct (deep_equal v v')); cbn;
      rewrite ?dget_dset_ne by done; done.
Qed.

Lemma diff_keys_In k : In k (diff_keys from to) <-> known k.
Proof.
  unfold diff_keys, sort_strings, known. rewrite order_by_In, in_app_iff, filter_In.
  assert (K : forall d : dict json, In k (map fst d) <-> dget k d <> None).
  { intros d. pose proof (dget_None_keys k d) as X. unfold dkeys in X. destruct (dget k d) eqn:E.
    - split; [done|]. intros _. destruct (in_dec String.string_dec k (map fst d)) as [I|I]; [done|]. by apply X in I.
    - split; [|done]. intros I. by destruct (proj1 X eq_refl). }
  rewrite !K. destruct (dget k from), (dget k to); intuition congruence.
Qed.

Lemma snapshot_diff_at k :
  dget k (df_added (snapshot_diff from to)) = added_at k
  /\ dget k (df_removed (snapshot_diff from to)) = removed_at k
  /\ dget k (df_changed (snapshot_diff from to)) = changed_at k.
Proof.
  assert (H : List.Forall known (diff_keys from to)) by (apply List.Forall_forall; intros j; apply diff_keys_In).
  destruct (diff_fold _ no_diff k H) as (A & B & C). fold (snapshot_diff from to) in A, B, C. rewrite A, B, C. clear A B C.
  assert (X : known k -> existsb (String.eqb k) (diff_keys from to) = true).
  { intros Hk%diff_keys_In. apply existsb_exists. exists k. by rewrite String.eqb_refl. }
  unfold added_at, removed_at, changed_at, known in *. cbn.
  destruct (dget k from) as [v|], (dget k to) as [v'|]; try (rewrite X by (by left + by right)); cbn; try done.
  by destruct (deep_equal v v').
Qed.
End Difference.

(** What somebody who applies a difference makes of a snapshot. *)
Definition patch (c : SnapshotDiff) (d : dict json) : dict json :=
  fold_right (fun kv acc => dset (fst kv) (snd kv) acc)
    (fold_right (fun kv acc => dset (fst kv) (snd (snd kv)) acc)
      (fold_right (fun kv acc => ddel (fst kv) acc) d (df_removed c)) (df_changed c)) (df_added c).

Lemma dget_inserted {V W} (f : V -> W) (l : dict V) d k :
  dget k (fold_right (fun kv acc => dset (fst kv) (f (snd kv)) acc) d l)
  = match dget k l with Some v => Some (f v) | None => dget k d end.
Proof.
  induction l as [|[j v] l IH]; cbn; [done|]. rewrite dget_dset, IH.
  destruct (String.eqb_spec j k) as [->|N]; [by rewrite String.eqb_refl|]. by destruct (String.eqb_spec k j); [congruence|].
Qed.

Lemma dget_deleted {V W} (l : dict V) (d : dict W) k :
  dget k (fold_right (fun kv acc => ddel (fst kv) acc) d l) = match dget k l with Some _ => None | None => dget k d end.
Proof.
  induction l as [|[j v] l IH]; cbn; [done|]. destruct (String.eqb_spec k j) as [->|N]; [apply dget_ddel_eq|].
  by rewrite dget_ddel_ne by congruence.
Qed.

(** Two values of a member are the same, or there is none. *)
Definition same_member (a b : option json) : Prop :=
  match a, b with Some v, Some v' => deep_equal v v' = true | None, None => True | _, _ => False end.

Lemma deep_equal_refl v : deep_equal v v = true.
Proof.
  induction v as [|b|x|s|l IH|d IH] using json_ind; cbn.
  - done.
  - by destruct b.
  - unfold same_number. destruct (f_int x); [apply Z.eqb_refl|apply String.eqb_refl].
  - apply String.eqb_refl.
  - induction IH as [|v l Hv _ IHl]; [done|]. by rewrite Hv.
  - induction IH as [|[k v] d Hv _ IHd]; [done|]. cbn in Hv. by rewrite String.eqb_refl, Hv.
Qed.

(** the difference of two versions is exact, and turns one into the other.
    Between the snapshots that GetAssetVersion reads, a key is added when only the later
    version has it, removed when only the earlier has it, changed when both have it with
    values that are not deeply equal, and no key is in two of these; and applying the
    difference to the earlier snapshot gives, member by member, the later one. *)
Theorem version_diff_exact (v v' : AssetVersion) (k : string) :
  let from := default [] (ve_Snapshot v) in
  let to := default [] (ve_Snapshot v') in
  let c := vd_Changes (assetVersionDiff v v') in
  dget k (df_added c) = added_at from to k
  /\ dget k (df_removed c) = removed_at from to k
  /\ dget k (df_changed c) = changed_at from to k
  /\ same_member (dget k (patch c from)) (dget k to).
Proof.
  intros from to c. destruct (snapshot_diff_at from to k) as (A & R & Ch).
  change (snapshot_diff from to) with c in A, R, Ch. split_and!; [done..|].
  unfold patch. rewrite (dget_inserted (fun x => x)), (dget_inserted snd), dget_deleted, A, Ch, R.
  unfold added_at, removed_at, changed_at. destruct (dget k from) as [x|], (dget k to) as [y|]; cbn; try done.
  - destruct (deep_equal x y) eqn:E; cbn; [done|apply deep_equal_refl].
  - apply deep_equal_refl.
Qed.

(** ** The versions of two customers *)
Definition sample_version (id owner : Z) (author : option Z) (snapshot : string) : AssetRow :=
  {| av_id := id; av_idCostumer := owner; av_idProject := 1; av_assetType := "test"; av_assetId := 1; av_version := id;
     av_actorUserId := author; av_reason := "asset.updated"; av_snapshot := json_text snapshot; av_created_at := None |}.

Definition configured (id : Z) (name config : string) : ResourceRow :=
  {| rs_id := id; rs_name := name; rs_description := None; rs_config := Some (json_text config); rs_order := 0;
     rs_idProject := 1; rs_idCostumer := 8; rs_created_at := None; rs_updated_at := None |}.

Definition submitted (version : Z) : ReviewRow :=
  {| re_id := version; re_idCostumer := 8; re_idProject := 1; re_assetVersionId := version; re_fromStatus := "draft";
     re_toStatus := "in_review"; re_comment := None; re_actorUserId := Some 3; re_created_at := None |}.

(** Customer 8 has the versions 1, by the administrator, and 2, by user 3, both in review,
    and 3, of nobody, a draft. *)
Definition reviews : ReviewTables :=
  {| rv_accounts := with_projects [sample_project 1 8; sample_project 2 7] (w_db admin_world);
     rv_events := {| et_rows := []; et_next := 1 |};
     rv_tests := [configured 1 "login" "{'steps':[{'id':5},9]}"; configured 2 "logout" "{'step':6}"; configured 3 "menu" "{'a':{'step':5}}"];
     rv_test_cycles := [configured 1 "all" "{'tests':[2,3]}"; configured 2 "some" "{'tests':[2]}"];
     rv_versions := [sample_version 1 8 (Some 2) "{'config':'a','password':'p'}"; sample_version 2 8 (Some 3) "{'config':'b','password':'q'}";
                     sample_version 3 8 None "[]"];
     rv_reviews := [submitted 1; submitted 2]; rv_nextReview := 3 |}.

Definition review_world : world ReviewTables := World reviews [] [].

Lemma review_world_ok : reviews_ok (w_db review_world).
Proof.
  split; cbn.
  - by repeat constructor.
  - by repeat constructor.
  - repeat constructor; cbn; intuition discriminate.
  - intros t p v. unfold events_of. cbn.
    destruct (of_version t p v (submitted 1)) eqn:E1, (of_version t p v (submitted 2)) eqn:E2;
      [|cbn; repeat split; constructor|cbn; repeat split; constructor|done].
    apply of_version_spec in E1 as (_ & _ & <-), E2 as (_ & _ & E2). discriminate E2.
  - repeat constructor; discriminate.
Qed.

#[local] Notation impact := (asset_impact admin_user 1 "step" 5 review_world).

Lemma impact_exact_witness :
  exists i, fst impact = Ok i /\ map im_Name (ai_Tests i) = ["login"; "menu"] /\ map im_Name (ai_TestCycles i) = ["all"]
    /\ exists r, In r (rv_tests reviews) /\ test_affected "step" 5 r /\ im_Name (impact_item r) = "login".
Proof.
  assert (X : match fst impact with Ok i => Some (map im_Name (ai_Tests i), map im_Name (ai_TestCycles i)) | Err _ => None end
              = Some (["login"; "menu"], ["all"])) by (vm_compute; reflexivity).
  destruct impact as [[i|e] w'] eqn:E; cbn [fst] in X; [|discriminate X].
  exists i. split; [reflexivity|].
  assert (N : map im_Name (ai_Tests i) = ["login"; "menu"] /\ map im_Name (ai_TestCycles i) = ["all"]) by (injection X; auto).
  destruct N as [N1 N2]. split; [exact N1|]. split; [exact N2|].
  destruct (impact_exact admin_user 1 "step" 5 review_world w' i E) as (_ & _ & T & _).
  destruct (ai_Tests i) as [|t l] eqn:L; [discriminate N1|]. injection N1 as N1 _.
  destruct (proj1 (T t) (or_introl eq_refl)) as (r & Hr & _ & _ & A & ->). exists r. split; [exact Hr|]. split; [exact A|exact N1].
Defined.

Definition review_of (version status : string) : Request :=
  work_request [("idProject", "1"); ("assetVersion", version)] [("toStatus", text_field status)].

Definition serve_sample_review (rt : review_route) (r : Request) : M ReviewTables rreply := serve_review noon "10.0.0.1" rt r.
Definition status_of_review (res : outcome rreply) : option Z :=
  match res with Ok reply => Some (rp_status reply) | Err _ => None end.

#[local] Notation after rt r w := (snd (serve_sample_review rt r w)).
#[local] Notation status rt r w := (status_of_review (fst (serve_sample_review rt r w))).

(** The administrator approves the version of another user, and not the own one. *)
#[local] Notation approval := (review_of "2" "approved").

Lemma review_requests_refine_witness :
  reviews_ok (w_db review_world)
  /\ status ReviewRoute approval review_world = Some 201
  /\ status ReviewRoute (review_of "1" "approved") review_world = Some 422
  /\ exists actor, asks_as noon approval (w_db review_world) actor
       /\ review_change ReviewRoute actor (w_db review_world) (w_db (after ReviewRoute approval review_world)).
Proof.
  split; [exact review_world_ok|]. split; [vm_compute; reflexivity|]. split; [vm_compute; reflexivity|].
  destruct (review_requests_refine noon "10.0.0.1" ReviewRoute approval review_world (after ReviewRoute approval review_world)
    (fst (serve_sample_review ReviewRoute approval review_world)) review_world_ok (surjective_pairing _)) as (_ & _ & [E|H]); [|exact H].
  assert (N : length (rv_reviews (w_db (after ReviewRoute approval review_world))) <> length (rv_reviews (w_db review_world)))
    by (vm_compute; discriminate).
  destruct N. by rewrite E.
Defined.

#[local] Notation approved_world := (after ReviewRoute approval review_world).

Lemma review_fate_witness :
  status_of_version 8 1 2 (w_db approved_world) = "approved"
  /\ exists e a, last (events_of 8 1 2 (w_db approved_world)) = Some e /\ re_actorUserId e = Some a /\ Some 3 <> Some a.
Proof.
  assert (S : status_of_version 8 1 2 (w_db approved_world) = "approved") by (vm_compute; reflexivity). split; [exact S|].
  assert (H : review_history (w_db review_world) (w_db approved_world)).
  { eapply ReviewsStep; [exact (surjective_pairing (serve_sample_review ReviewRoute approval review_world))|apply ReviewsEnd]. }
  set (v := sample_version 2 8 (Some 3) "{'config':'b','password':'q'}").
  assert (Hv : In v (rv_versions (w_db review_world))) by (right; left; reflexivity).
  destruct (review_fate (w_db review_world) (w_db approved_world) v review_world_ok H Hv) as (_ & _ & _ & A).
  destruct (A S) as (e & a & L & _ & _ & Ea & N). exists e, a. split; [exact L|]. split; [exact Ea|exact N].
Defined.

(** ** Single requests *)

(** A comment is counted in bytes: 1001 letters of two bytes are too many. *)
Definition long_comment : string := of_chars (concat (repeat [byte 195; byte 169] 1001)).

Example comment_counted_in_bytes :
  status ReviewRoute (work_request [("idProject", "1"); ("assetVersion", "2")]
    [("toStatus", text_field "approved"); ("comment", text_field long_comment)]) review_world = Some 422.
Proof. vm_compute. reflexivity. Qed.

(** A body with a member that is not known is answered by nothing. *)
Example undecodable_review_unanswered :
  status ReviewRoute (work_request [("idProject", "1"); ("assetVersion", "2")]
    [("toStatus", text_field "approved"); ("note", text_field "n")]) review_world = Some 200
  /\ status_of_version 8 1 2 (w_db (after ReviewRoute (work_request [("idProject", "1"); ("assetVersion", "2")]
    [("toStatus", text_field "approved"); ("note", text_field "n")]) review_world)) = "in_review".
Proof. split; vm_compute; reflexivity. Qed.

(** A snapshot that is no object is a 500. *)
Example snapshot_of_array :
  status VersionRoute (work_request [("idProject", "1"); ("assetVersion", "3")] []) review_world = Some 500.
Proof. vm_compute. reflexivity. Qed.
