(* ===== verification/IntegrationAdmin.v ===== *)
(** * Integrations: the endpoints and deliveries that the browser administers

    internal/persistence/mysql/browser_integrations.go and the integration routes of
    internal/browserauth/admin.go.  The rows hold the endpoints and deliveries of
    [Integrations], so that [worker_view] is what the worker sees of these tables. *)

From stdpp Require Import pretty sorting.
From S2P Require Import Prelude GoStrings GoTime Json Redaction Effects Secrets Integrations Sha256.
From S2P Require Import JsonText JsonRoundTrip Http Contracts AccountTables Sessions Accounts Bodies Sql Desk Workspace.
From S2P Require Results.

(** ** Tables *)
Record EndpointRow := {
  en_endpoint : Endpoint;
  en_name : string;
  en_events : option string;
  en_metadata : option string;
  en_created_at : option time;
  en_updated_at : option time;
}.

#[export] Instance endpoint_eq_dec : EqDecision Endpoint.
Proof. solve_decision. Defined.
#[export] Instance endpoint_row_eq_dec : EqDecision EndpointRow.
Proof. solve_decision. Defined.

Record QueueRow := {
  qw_row : DeliveryRow;
  qw_idempotencyKey : string;
  qw_payloadDigest : string;
}.

Record IntegrationTables := {
  ig_accounts : AccountTables;
  ig_events : EventTable;
  ig_endpoints : list EndpointRow;
  ig_nextEndpoint : Z;
  ig_deliveries : gmap Z QueueRow;
  ig_nextDelivery : Z;
}.

#[export] Instance integration_desk : Desk IntegrationTables := {|
  accounts := ig_accounts;
  with_accounts a d := {| ig_accounts := a; ig_events := ig_events d; ig_endpoints := ig_endpoints d;
                          ig_nextEndpoint := ig_nextEndpoint d; ig_deliveries := ig_deliveries d;
                          ig_nextDelivery := ig_nextDelivery d |};
  events := ig_events;
  with_events t d := {| ig_accounts := ig_accounts d; ig_events := t; ig_endpoints := ig_endpoints d;
                        ig_nextEndpoint := ig_nextEndpoint d; ig_deliveries := ig_deliveries d;
                        ig_nextDelivery := ig_nextDelivery d |};
|}.

#[export] Instance integration_desk_laws : DeskLaws IntegrationTables.
Proof. split; [by intros []|done..]. Qed.

Definition with_endpoints (l : list EndpointRow) (next : Z) (d : IntegrationTables) : IntegrationTables :=
  {| ig_accounts := ig_accounts d; ig_events := ig_events d; ig_endpoints := l; ig_nextEndpoint := next;
     ig_deliveries := ig_deliveries d; ig_nextDelivery := ig_nextDelivery d |}.

Definition with_queue (m : gmap Z QueueRow) (next : Z) (d : IntegrationTables) : IntegrationTables :=
  {| ig_accounts := ig_accounts d; ig_events := ig_events d; ig_endpoints := ig_endpoints d;
     ig_nextEndpoint := ig_nextEndpoint d; ig_deliveries := m; ig_nextDelivery := next |}.

(** What the worker sees. *)
Definition worker_view (d : IntegrationTables) : IntTables :=
  {| endpoints := map en_endpoint (ig_endpoints d); deliveries := qw_row <$> ig_deliveries d;
     dispatch_audits := []; jobs := None; failed_jobs := None; has_deliveries_table := true;
     result_exports := None; sent_requests := [] |}.

(** ** Structs *)
Record IntegrationEndpoint := {
  ie_ID : Z;
  ie_IDProject : Z;
  ie_Name : string;
  ie_Adapter : string;
  ie_URL : string;
  ie_Events : list string;
  ie_Status : string;
  ie_SecretConfigured : bool;
  ie_SchemaVersion : string;
  ie_CreatedAt : option time;
}.

Record IntegrationEndpointCreate := {
  ic_ProjectID : Z;
  ic_Name : string;
  ic_Adapter : string;
  ic_URL : string;
  ic_Secret : string;
  ic_Events : list string;
}.

Record IntegrationDelivery := {
  id_ID : Z;
  id_DeliveryID : string;
  id_Event : string;
  id_Status : string;
  id_Attempts : Z;
  id_ResponseStatus : option Z;
  id_NextAttemptAt : option time;
  id_SentAt : option time;
}.

Definition integrationSchemaVersion : string := "2026-07-28.v1".

(** [sha256Hex]. *)
Definition sha256Hex (value : string) : string := hexEncode (sum256 value).

(** [now.Format("20060102150405")], in UTC. *)
Definition compact_time (t : time) : string :=
  let secs := t / second in
  let '(y, m, d) := civil_of_days (secs / 86400) in
  let sod := secs mod 86400 in
  of_chars (year_text y ++ pad_digits 2 m ++ pad_digits 2 d ++ pad_digits 2 (sod / 3600)
            ++ pad_digits 2 (sod / 60 mod 60) ++ pad_digits 2 (sod mod 60))%list.

(** ** Scanning *)
Section Scan.
Context `{F : Floats}.

(** [json.Unmarshal] into a nil [[]string]. *)
Definition unmarshal_strings (text : string) : option (list string) :=
  match parse_text text with
  | Some SNull => Some []
  | Some (SArr l) =>
      list_rect _ (Some [])
        (fun v _ rest => match v with
                         | SStr s => cons s <$> rest
                         | SNull => cons "" <$> rest
                         | _ => None
                         end) l
  | _ => None
  end.

(** [json.Unmarshal] into a map that is empty: [None] is an error, [Some None] the nil
    map that null leaves. *)
Definition unmarshal_map (text : string) : option (option (dict json)) :=
  match unmarshalAny text with
  | Some (JObj d) => Some (Some d)
  | Some JNull => Some None
  | _ => None
  end.

Definition undecodable (op : string) : error := DatabaseFailure (safeDatabaseFailure op (OtherFault "json")).

(** [scanIntegrationEndpointRecord]: the endpoint and its metadata. *)
Definition scanIntegrationEndpointRecord (row : EndpointRow) : error + (IntegrationEndpoint * option (dict json)) :=
  match from_option unmarshal_strings (Some []) (en_events row) with
  | None => inl (undecodable "decode browser integration endpoint events")
  | Some events =>
      match from_option unmarshal_map (Some (Some [])) (en_metadata row) with
      | None => inl (undecodable "decode browser integration endpoint metadata")
      | Some metadata =>
          let version := str_or_empty (jidx (default [] metadata) "schemaVersion") in
          let ep := en_endpoint row in
          inr ({| ie_ID := ep_ID ep; ie_IDProject := ep_ProjectID ep; ie_Name := en_name row;
                  ie_Adapter := ep_Adapter ep; ie_URL := ep_URL ep;
                  ie_Events := match events with [] => ["*"] | l => l end; ie_Status := ep_Status ep;
                  ie_SecretConfigured := negb (String.eqb (ep_SecretEncrypted ep) "");
                  ie_SchemaVersion := if String.eqb version "" then integrationSchemaVersion else version;
                  ie_CreatedAt := en_created_at row |}, metadata)
      end
  end.

Definition scanIntegrationDelivery (row : QueueRow) : IntegrationDelivery :=
  let r := qw_row row in
  let d := dr_delivery r in
  {| id_ID := dl_ID d; id_DeliveryID := dl_DeliveryID d; id_Event := dl_Event d; id_Status := dl_Status d;
     id_Attempts := dl_Attempts d; id_ResponseStatus := dr_responseStatus r;
     id_NextAttemptAt := dr_nextAttemptAt r; id_SentAt := dr_sentAt r |}.
End Scan.

(** ** The repository *)
Section Repository.
Context `{MS : MySQL} `{F : Floats} `{JC : JsonColumn} `{Cr : Crypto}.
Context (getenv : string -> string) (readFile : string -> option string) (now : time) (sourceIP : string).
Notation R := (M IntegrationTables).

Definition or_fail {A} (x : error + A) : R A := match x with inl e => fail e | inr a => ret a end.

(** [integrationApplicationKey], and the secret encrypted with it. *)
Definition encrypted_secret (message secret : string) : R string :=
  match ApplicationKeyFromEnvironment getenv readFile with
  | inl e => fail (OtherError e)
  | inr key =>
      let! iv := rand_read 16 in
      match EncryptLaravelString key secret (bytes_of <$> iv) with
      | inl _ => fail (OtherError message)
      | inr envelope => ret envelope
      end
  end.

Definition owns_project (tenantID projectID : Z) (d : IntegrationTables) : bool :=
  existsb (owns tenantID projectID) (at_projects (ig_accounts d)).

(** [ensureProject] and [ensureProjectTx]. *)
Definition ensure_integration_project (tenantID projectID : Z) : R unit :=
  let! owned := query "check browser project ownership" (owns_project tenantID projectID) in
  guard owned ErrNotFound.

Definition endpoint_of_project (tenantID projectID : Z) (row : EndpointRow) : bool :=
  (ep_TenantID (en_endpoint row) =? tenantID) && (ep_ProjectID (en_endpoint row) =? projectID).

Definition this_endpoint (tenantID projectID endpointID : Z) (row : EndpointRow) : bool :=
  (ep_ID (en_endpoint row) =? endpointID) && endpoint_of_project tenantID projectID row.

Definition ListIntegrationEndpoints (actor : User) (projectID : Z) : R (list IntegrationEndpoint) :=
  do! ensure_integration_project (activeTenant actor) projectID;
  let! rows := query "list browser integration endpoints" (fun d =>
    order_by (fun a b => text_le (en_name a) (en_name b))
      (List.filter (endpoint_of_project (activeTenant actor) projectID) (ig_endpoints d))) in
  mapM (fun row => let! x := or_fail (scanIntegrationEndpointRecord row) in ret (fst x)) rows.

(** [integrationEndpoint] and [integrationEndpointTx]. *)
Definition endpoint_record (tenantID projectID endpointID : Z) : R (IntegrationEndpoint * option (dict json)) :=
  let! row := query "scan browser integration endpoint" (fun d =>
    List.find (this_endpoint tenantID projectID endpointID) (ig_endpoints d)) in
  match row with None => fail ErrNotFound | Some row => or_fail (scanIntegrationEndpointRecord row) end.

Definition integrationEndpoint (actor : User) (projectID endpointID : Z) : R IntegrationEndpoint :=
  let! x := endpoint_record (activeTenant actor) projectID endpointID in ret (fst x).

(** [recordIntegrationAudit]. *)
Definition recordIntegrationAudit (r : Request) (actor : User) (projectID : Z) (action targetType : string) (id : Z)
    (before after : option (dict json)) : R unit :=
  record_event now sourceIP "record browser integration audit" r actor
    {| vt_project := projectID; vt_action := action; vt_targetType := targetType; vt_target := id;
       vt_before := before; vt_after := after; vt_metadata := None |}.

Definition new_endpoint (tenantID id : Z) (input : IntegrationEndpointCreate) (encrypted : string)
    (events metadata : option string) : EndpointRow :=
  {| en_endpoint := {| ep_ID := id; ep_TenantID := tenantID; ep_ProjectID := ic_ProjectID input;
                       ep_Adapter := ic_Adapter input; ep_URL := ic_URL input; ep_Status := "active";
                       ep_SecretEncrypted := encrypted |};
     en_name := ic_Name input; en_events := events; en_metadata := metadata;
     en_created_at := Some (column_time now); en_updated_at := Some (column_time now) |}.

(** The unique key of the names in a project (database_integration_test.go). *)
Definition name_taken (tenantID projectID : Z) (name : string) (d : IntegrationTables) : bool :=
  existsb (fun row => endpoint_of_project tenantID projectID row && same (en_name row) name) (ig_endpoints d).

Definition strings (l : list string) : json := JArr (map JStr l).

Definition CreateIntegrationEndpoint (r : Request) (actor : User) (input : IntegrationEndpointCreate) : R IntegrationEndpoint :=
  let tenantID := activeTenant actor in
  let projectID := ic_ProjectID input in
  let! encrypted := encrypted_secret "encrypt integration endpoint secret" (ic_Secret input) in
  let! id := transaction "start browser integration endpoint create" "commit browser integration endpoint create" (
    do! ensure_integration_project tenantID projectID;
    let metadata := JObj [("schemaVersion", JStr integrationSchemaVersion); ("secretRotatedAt", JStr (Results.format_nanos now))] in
    let! id := exec_refusable "create browser integration endpoint" (fun d =>
      events ← json_column (marshal (strings (ic_Events input)));
      metadata ← json_column (marshal metadata);
      if name_taken tenantID projectID (ic_Name input) d then None
      else
        let id := ig_nextEndpoint d in
        Some (with_endpoints (ig_endpoints d ++ [new_endpoint tenantID id input encrypted (Some events) (Some metadata)])
                (id + 1) d, id)) in
    do! recordIntegrationAudit r actor projectID "integration_endpoint.create" "integration_endpoint" id None
      (Some (dict_of_list [("name", JStr (ic_Name input)); ("adapter", JStr (ic_Adapter input)); ("url", JStr (ic_URL input));
                           ("events", strings (ic_Events input)); ("secret", JStr "[REDACTED]")]));
    ret id) in
  integrationEndpoint actor projectID id.

(** *** Deliveries *)
Definition delivery_of_project (tenantID projectID : Z) (row : QueueRow) : bool :=
  (dl_TenantID (dr_delivery (qw_row row)) =? tenantID) && (dl_ProjectID (dr_delivery (qw_row row)) =? projectID).

Definition find_delivery (tenantID projectID deliveryID : Z) (d : IntegrationTables) : option QueueRow :=
  row ← ig_deliveries d !! deliveryID; if delivery_of_project tenantID projectID row then Some row else None.

(** [integrationDelivery] and [integrationDeliveryTx]. *)
Definition integrationDelivery (tenantID projectID deliveryID : Z) : R IntegrationDelivery :=
  let! row := query "scan browser integration delivery" (find_delivery tenantID projectID deliveryID) in
  match row with None => fail ErrNotFound | Some row => ret (scanIntegrationDelivery row) end.

(** A row that the unique keys of the table make this delivery. *)
Definition same_delivery (tenantID projectID endpointID : Z) (idempotencyKey deliveryID : string) (row : QueueRow) : bool :=
  let d := dr_delivery (qw_row row) in
  (dl_TenantID d =? tenantID) && (dl_ProjectID d =? projectID) && (dl_EndpointID d =? endpointID)
    && same (qw_idempotencyKey row) idempotencyKey
  || same (dl_DeliveryID d) deliveryID.

Definition new_delivery (tenantID projectID endpointID id : Z) (deliveryIdentifier idempotencyKey digest : string)
    (payload : option json) : QueueRow :=
  {| qw_row := {| dr_delivery := {| dl_ID := id; dl_TenantID := tenantID; dl_ProjectID := projectID;
                                    dl_EndpointID := endpointID; dl_DeliveryID := deliveryIdentifier;
                                    dl_Event := "integration.test"; dl_SchemaVersion := integrationSchemaVersion;
                                    dl_Status := "pending"; dl_Attempts := 0; dl_Payload := JNull |};
                  dr_payload := payload; dr_responseStatus := None; dr_lastError := None; dr_nextAttemptAt := None;
                  dr_sentAt := None; dr_created_at := Some (column_time now); dr_updated_at := Some (column_time now) |};
     qw_idempotencyKey := idempotencyKey; qw_payloadDigest := digest |}.

(** INSERT ... ON DUPLICATE KEY UPDATE id = LAST_INSERT_ID(id). *)
Definition insert_delivery (tenantID projectID endpointID : Z) (deliveryIdentifier idempotencyKey digest payload : string)
    (d : IntegrationTables) : option (IntegrationTables * Z) :=
  text ← json_column payload;
  match List.find (fun kv => same_delivery tenantID projectID endpointID idempotencyKey deliveryIdentifier (snd kv))
          (map_to_list (ig_deliveries d)) with
  | Some (id, _) => Some (d, id)
  | None =>
      let id := ig_nextDelivery d in
      let row := new_delivery tenantID projectID endpointID id deliveryIdentifier idempotencyKey digest (unmarshalAny text) in
      Some (with_queue (<[id := row]> (ig_deliveries d)) (id + 1) d, id)
  end.

Definition accepts_tests (events : list string) : bool :=
  existsb (fun e => String.eqb e "*" || String.eqb e "integration.test") events.

Definition test_payload (actor : User) : json :=
  JObj [("message", JStr "Idelium integration test delivery."); ("requestedBy", JStr (u_Email actor))].

Definition CreateIntegrationTestDelivery (r : Request) (actor : User) (projectID endpointID : Z) : R IntegrationDelivery :=
  let tenantID := activeTenant actor in
  let! id := transaction "start browser integration test delivery" "commit browser integration test delivery" (
    let! (endpoint, _) := endpoint_record tenantID projectID endpointID in
    if negb (String.eqb (ie_Status endpoint) "active")
    then fail (ValidationFailure [("endpoint", ["The integration endpoint is disabled."])])
    else if negb (accepts_tests (ie_Events endpoint))
    then fail (ValidationFailure [("event", ["The integration endpoint is not subscribed to this event."])])
    else
      let payload := marshal (test_payload actor) in
      let! uuid := zoom accounts with_accounts Accounts.randomUUID in
      let deliveryIdentifier := "idwh_" +:+ uuid in
      let idempotencyKey := "integration.test:" +:+ compact_time now +:+ ":" +:+ pretty (u_ID actor) in
      let! id := exec_refusable "create browser integration test delivery"
        (insert_delivery tenantID projectID endpointID deliveryIdentifier idempotencyKey (sha256Hex payload) payload) in
      let! created := integrationDelivery tenantID projectID id in
      do! recordIntegrationAudit r actor projectID "integration_delivery.test" "integration_delivery" id None
        (Some (dict_of_list [("deliveryId", JStr (id_DeliveryID created)); ("event", JStr (id_Event created));
                             ("status", JStr (id_Status created))]));
      ret id) in
  integrationDelivery tenantID projectID id.

(** *** Status and secret *)
Definition with_endpoint (f : Endpoint -> Endpoint) (metadata : option string -> option string) (row : EndpointRow) : EndpointRow :=
  {| en_endpoint := f (en_endpoint row); en_name := en_name row; en_events := en_events row;
     en_metadata := metadata (en_metadata row); en_created_at := en_created_at row;
     en_updated_at := Some (column_time now) |}.

Definition set_endpoint_status (status : string) (e : Endpoint) : Endpoint :=
  {| ep_ID := ep_ID e; ep_TenantID := ep_TenantID e; ep_ProjectID := ep_ProjectID e; ep_Adapter := ep_Adapter e;
     ep_URL := ep_URL e; ep_Status := status; ep_SecretEncrypted := ep_SecretEncrypted e |}.

Definition set_endpoint_secret (encrypted : string) (e : Endpoint) : Endpoint :=
  {| ep_ID := ep_ID e; ep_TenantID := ep_TenantID e; ep_ProjectID := ep_ProjectID e; ep_Adapter := ep_Adapter e;
     ep_URL := ep_URL e; ep_Status := ep_Status e; ep_SecretEncrypted := encrypted |}.

Definition update_endpoint (tenantID projectID endpointID : Z) (f : EndpointRow -> EndpointRow) (d : IntegrationTables)
    : IntegrationTables :=
  with_endpoints (fst (update_where (this_endpoint tenantID projectID endpointID) f (ig_endpoints d))) (ig_nextEndpoint d) d.

Definition UpdateIntegrationEndpointStatus (r : Request) (actor : User) (projectID endpointID : Z) (status : string)
    : R IntegrationEndpoint :=
  let tenantID := activeTenant actor in
  do! transaction "start browser integration status update" "commit browser integration status update" (
    let! (endpoint, _) := endpoint_record tenantID projectID endpointID in
    do! exec "update browser integration endpoint status"
      (update_endpoint tenantID projectID endpointID (with_endpoint (set_endpoint_status status) (fun m => m)));
    recordIntegrationAudit r actor projectID "integration_endpoint.status_update" "integration_endpoint" endpointID
      (Some [("status", JStr (ie_Status endpoint))]) (Some [("status", JStr status)]));
  integrationEndpoint actor projectID endpointID.

Definition RotateIntegrationEndpointSecret (r : Request) (actor : User) (projectID endpointID : Z) (secret : string)
    : R IntegrationEndpoint :=
  let tenantID := activeTenant actor in
  let! encrypted := encrypted_secret "encrypt rotated integration endpoint secret" secret in
  do! transaction "start browser integration secret rotation" "commit browser integration secret rotation" (
    let! (_, metadata) := endpoint_record tenantID projectID endpointID in
    match metadata with
    | None => fail (Panic "assignment to entry in nil map")
    | Some metadata =>
        let rotated := JStr (Results.format_nanos now) in
        let metadata := dset "secretRotatedAt" rotated metadata in
        let! _ := exec_refusable "rotate browser integration endpoint secret" (fun d =>
          text ← json_column (marshal (JObj metadata));
          Some (update_endpoint tenantID projectID endpointID
                  (with_endpoint (set_endpoint_secret encrypted) (fun _ => Some text)) d, 0)) in
        recordIntegrationAudit r actor projectID "integration_endpoint.rotate_secret" "integration_endpoint" endpointID
          None (Some (dict_of_list [("secret", JStr "[REDACTED]"); ("secretRotatedAt", rotated)]))
    end);
  integrationEndpoint actor projectID endpointID.

(** *** The queue *)

(** ORDER BY created_at DESC: NULL is last. *)
Definition created_later (a b : QueueRow) : bool :=
  match dr_created_at (qw_row a), dr_created_at (qw_row b) with
  | Some x, Some y => y <=? x
  | _, None => true
  | None, Some _ => false
  end.

Definition ListIntegrationDeliveries (actor : User) (projectID : Z) (status : string) : R (list IntegrationDelivery) :=
  do! ensure_integration_project (activeTenant actor) projectID;
  query "list browser integration deliveries" (fun d =>
    map scanIntegrationDelivery (take 100 (order_by created_later
      (List.filter (fun row => delivery_of_project (activeTenant actor) projectID row
                               && (String.eqb status "" || same (dl_Status (dr_delivery (qw_row row))) status))
        (map snd (map_to_list (ig_deliveries d))))))).

Definition replayed (row : QueueRow) : QueueRow :=
  let r := qw_row row in
  let d := dr_delivery r in
  {| qw_row := {| dr_delivery := {| dl_ID := dl_ID d; dl_TenantID := dl_TenantID d; dl_ProjectID := dl_ProjectID d;
                                    dl_EndpointID := dl_EndpointID d; dl_DeliveryID := dl_DeliveryID d;
                                    dl_Event := dl_Event d; dl_SchemaVersion := dl_SchemaVersion d;
                                    dl_Status := "pending"; dl_Attempts := dl_Attempts d; dl_Payload := dl_Payload d |};
                  dr_payload := dr_payload r; dr_responseStatus := dr_responseStatus r; dr_lastError := dr_lastError r;
                  dr_nextAttemptAt := None; dr_sentAt := dr_sentAt r; dr_created_at := dr_created_at r;
                  dr_updated_at := Some (column_time now) |};
     qw_idempotencyKey := qw_idempotencyKey row; qw_payloadDigest := qw_payloadDigest row |}.

Definition replay_row (tenantID projectID deliveryID : Z) (d : IntegrationTables) : IntegrationTables :=
  match find_delivery tenantID projectID deliveryID d with
  | Some row => with_queue (<[deliveryID := replayed row]> (ig_deliveries d)) (ig_nextDelivery d) d
  | None => d
  end.

Definition ReplayIntegrationDelivery (r : Request) (actor : User) (projectID deliveryID : Z) : R IntegrationDelivery :=
  let tenantID := activeTenant actor in
  do! transaction "start browser integration delivery replay" "commit browser integration delivery replay" (
    let! _ := integrationDelivery tenantID projectID deliveryID in
    do! exec "replay browser integration delivery" (replay_row tenantID projectID deliveryID);
    recordIntegrationAudit r actor projectID "integration_delivery.replay" "integration_delivery" deliveryID None
      (Some [("status", JStr "pending")]));
  integrationDelivery tenantID projectID deliveryID.
End Repository.

(** ** Validation *)
Definition uniqueStrings (values : list string) : list string :=
  rev (fst (fold_left (fun '(result, seen) value =>
    if existsb (String.eqb value) seen then (result, seen) else (value :: result, value :: seen)) values ([], []))).

Definition invalid_event (event : string) : bool := blank event || (128 <? slen event).

(** [validateIntegrationEndpointInput]. *)
Definition validateIntegrationEndpointInput `{Network} (name adapter destination secret : string) (events : list string)
    : list (string * list string) :=
  ((if blank name || (128 <? slen name)
    then [("name", ["The name field is required and must not exceed 128 characters."])] else [])
   ++ (if negb (existsb (String.eqb adapter) ["webhook"; "jira"; "slack"; "teams"])
       then [("adapter", ["The selected adapter is invalid."])] else [])
   ++ (if (2048 <? slen destination) || negb (SafeDestination destination)
       then [("url", ["The integration destination must be a safe public HTTP or HTTPS URL."])] else [])
   ++ (if (slen secret <? 16) || (2000 <? slen secret)
       then [("secret", ["The secret field must be between 16 and 2000 characters."])] else [])
   ++ (if existsb invalid_event events
       then [("events", ["Each event must be a non-empty string of at most 128 characters."])] else []))%list.

(** ** The routes *)
Inductive integration_data :=
| IgEndpoints (l : list IntegrationEndpoint)
| IgEndpoint (x : IntegrationEndpoint)
| IgDeliveries (l : list IntegrationDelivery)
| IgDelivery (x : IntegrationDelivery).

Notation ireply := (desk_reply_of integration_data).

Record endpoint_body := {
  eb_Name : string; eb_Adapter : string; eb_URL : string; eb_Secret : string; eb_Events : option (list string);
}.

Definition endpoint_fields : list (string * setter endpoint_body) :=
  [("name", to_string (fun s b => {| eb_Name := s; eb_Adapter := eb_Adapter b; eb_URL := eb_URL b;
      eb_Secret := eb_Secret b; eb_Events := eb_Events b |}));
   ("adapter", to_string (fun s b => {| eb_Name := eb_Name b; eb_Adapter := s; eb_URL := eb_URL b;
      eb_Secret := eb_Secret b; eb_Events := eb_Events b |}));
   ("url", to_string (fun s b => {| eb_Name := eb_Name b; eb_Adapter := eb_Adapter b; eb_URL := s;
      eb_Secret := eb_Secret b; eb_Events := eb_Events b |}));
   ("secret", to_string (fun s b => {| eb_Name := eb_Name b; eb_Adapter := eb_Adapter b; eb_URL := eb_URL b;
      eb_Secret := s; eb_Events := eb_Events b |}));
   ("events", to_strings (fun l b => {| eb_Name := eb_Name b; eb_Adapter := eb_Adapter b; eb_URL := eb_URL b;
      eb_Secret := eb_Secret b; eb_Events := l |}))].

Definition no_endpoint : endpoint_body := {| eb_Name := ""; eb_Adapter := ""; eb_URL := ""; eb_Secret := ""; eb_Events := None |}.

(** A body with one string. *)
Definition one_field (name : string) : list (string * setter string) := [(name, to_string (fun s _ => s))].

Section Handlers.
Context `{MS : MySQL} `{F : Floats} `{JC : JsonColumn} `{Cr : Crypto} `{Net : Network}.
Context (getenv : string -> string) (readFile : string -> option string) (now : time) (sourceIP : string).
Notation H := (M IntegrationTables ireply).

Definition IntegrationEndpoints (r : Request) : H :=
  with_capability now r "integrations.read" (fun user => desk_id r "idProject" (fun projectID =>
    answer (ListIntegrationEndpoints user projectID) 200 IgEndpoints)).

Definition PostIntegrationEndpoint (r : Request) : H :=
  with_capability now r "integrations.manage" (fun user => desk_id r "idProject" (fun projectID =>
    match decode_body endpoint_fields no_endpoint r with
    | None => ret desk_unwritten
    | Some b =>
        let events := default [] (eb_Events b) in
        match validateIntegrationEndpointInput (eb_Name b) (eb_Adapter b) (eb_URL b) (eb_Secret b) events with
        | [] =>
            let events := match events with [] => ["*"] | l => l end in
            answer (CreateIntegrationEndpoint getenv readFile now sourceIP r user
                      {| ic_ProjectID := projectID; ic_Name := eb_Name b; ic_Adapter := eb_Adapter b; ic_URL := eb_URL b;
                         ic_Secret := eb_Secret b; ic_Events := uniqueStrings events |}) 201 IgEndpoint
        | validation => ret (desk_errors validation)
        end
    end)).

(** [integrationEndpointPath]. *)
Definition integrationEndpointPath (r : Request) (capability : string) (k : User -> Z -> Z -> H) : H :=
  with_capability now r capability (fun user => desk_id r "idProject" (fun projectID =>
    desk_id r "integrationEndpoint" (fun endpointID => k user projectID endpointID))).

Definition TestIntegrationEndpoint (r : Request) : H :=
  integrationEndpointPath r "integrations.manage" (fun user projectID endpointID =>
    answer (CreateIntegrationTestDelivery now sourceIP r user projectID endpointID) 202 IgDelivery).

Definition PutIntegrationEndpointStatus (r : Request) : H :=
  integrationEndpointPath r "integrations.manage" (fun user projectID endpointID =>
    match decode_body (one_field "status") "" r with
    | None => ret desk_unwritten
    | Some status =>
        if negb (existsb (String.eqb status) ["active"; "disabled"])
        then ret (desk_error "status" "The selected status is invalid.")
        else answer (UpdateIntegrationEndpointStatus now sourceIP r user projectID endpointID status) 200 IgEndpoint
    end).

Definition PostIntegrationEndpointSecret (r : Request) : H :=
  integrationEndpointPath r "integrations.manage" (fun user projectID endpointID =>
    match decode_body (one_field "secret") "" r with
    | None => ret desk_unwritten
    | Some secret =>
        if (slen secret <? 16) || (2000 <? slen secret)
        then ret (desk_error "secret" "The secret field must be between 16 and 2000 characters.")
        else answer (RotateIntegrationEndpointSecret getenv readFile now sourceIP r user projectID endpointID secret) 200 IgEndpoint
    end).

Definition IntegrationDeliveries (r : Request) : H :=
  with_capability now r "integrations.read" (fun user => desk_id r "idProject" (fun projectID =>
    let status := queryValue r "status" in
    if negb (existsb (String.eqb status) [""; "pending"; "sent"; "failed"; "dead_letter"])
    then ret (desk_error "status" "The selected status is invalid.")
    else answer (ListIntegrationDeliveries user projectID status) 200 IgDeliveries)).

Definition PostReplay (r : Request) : H :=
  with_capability now r "integrations.manage" (fun user => desk_id r "idProject" (fun projectID =>
    desk_id r "integrationDelivery" (fun deliveryID =>
      answer (ReplayIntegrationDelivery now sourceIP r user projectID deliveryID) 202 IgDelivery))).

Inductive integration_route :=
| EndpointsRoute | CreateEndpointRoute | TestEndpointRoute | EndpointStatusRoute | RotateSecretRoute
| DeliveriesRoute | ReplayRoute.

Definition serve_integration (rt : integration_route) : Request -> H :=
  match rt with
  | EndpointsRoute => IntegrationEndpoints
  | CreateEndpointRoute => PostIntegrationEndpoint
  | TestEndpointRoute => TestIntegrationEndpoint
  | EndpointStatusRoute => PutIntegrationEndpointStatus
  | RotateSecretRoute => PostIntegrationEndpointSecret
  | DeliveriesRoute => IntegrationDeliveries
  | ReplayRoute => PostReplay
  end.
End Handlers.
