(* ===== verification/IntegrationAdminTheorems.v ===== *)
(** * Theorems about the administration of integrations

    Every request is a step on the endpoints or the queue of the active customer with its
    audit event; secrets are stored so that the worker opens them; and a test delivery is
    sent signed with the secret that was given. *)

From stdpp Require Import pretty sorting.
From S2P Require Import Prelude GoStrings GoTime Json Redaction Effects Secrets Integrations Sha256.
From S2P Require Import JsonText JsonRoundTrip Http Contracts AccountTables Sessions Accounts Bodies Sql AccountTheorems Desk Workspace IntegrationTheorems IntegrationAdmin.
From S2P Require Import Paging RunTheorems CliTheorems SessionTheorems AccountHandlers WorkspaceReads EvidenceExports.

(** ** Secrets *)
Lemma bytes_of_length s : length (bytes_of s) = String.length s.
Proof. unfold bytes_of. rewrite length_map. apply length_chars. Qed.

Lemma application_key_length value key : ParseApplicationKey value = Some key -> length key = 32%nat.
Proof.
  unfold ParseApplicationKey. destruct (hasPrefix _ _).
  - intros (l & _ & H)%bind_Some. destruct (Nat.eqb_spec (length l) 32) as [E|]; [by injection H as <-|done].
  - destruct (Z.eqb_spec (slen (trimSpace value)) 32) as [E|]; [|done]. intros [= <-]. rewrite bytes_of_length.
    unfold slen in E. lia.
Qed.

(** The branches where nothing happened. *)
Ltac no_change := first [by left | by split; [left|discriminate]].

Section Theorems.
Context `{MS : MySQL} `{F : Floats} `{JC : JsonColumn} `{Cr : Crypto} `{!CryptoLaws Cr} `{Net : Network}.
Context (getenv : string -> string) (readFile : string -> option string) (now : time) (sourceIP : string).
Implicit Types d : IntegrationTables.

(** The envelope holds this secret, under the application key. *)
Definition opens (secret envelope : string) : Prop :=
  exists key, ApplicationKeyFromEnvironment getenv readFile = inr key /\ DecryptLaravelString key envelope = inr secret.

Lemma environment_key_length key : ApplicationKeyFromEnvironment getenv readFile = inr key -> length key = 32%nat.
Proof.
  unfold ApplicationKeyFromEnvironment.
  repeat case_match; try done; intros [= ->]; by eapply application_key_length.
Qed.

Lemma wp_encrypted d message secret (Q : outcome string -> IntegrationTables -> Prop) :
  (forall envelope, opens secret envelope -> Q (Ok envelope) d) -> (forall e, Q (Err e) d) ->
  wp d (encrypted_secret getenv readFile message secret) Q.
Proof.
  intros H X. unfold encrypted_secret. destruct (ApplicationKeyFromEnvironment getenv readFile) as [e|key] eqn:K; [apply wp_fail, X|].
  pose proof (environment_key_length key K) as L. apply wp_bind, wp_rand.
  - cbn. unfold EncryptLaravelString. rewrite L. apply wp_fail, X.
  - intros b Hb. cbn. destruct (EncryptLaravelString key secret (Some (bytes_of b))) as [e|envelope] eqn:E; [apply wp_fail, X|].
    apply wp_ret, H. exists key. split; [exact K|]. eapply envelope_inverse; [exact L| | |exact E].
    + by rewrite bytes_of_length.
    + apply bytes_of_range.
Qed.

(** ** Steps *)
Record integrations_ok d : Prop := {
  ino_ids : List.NoDup (map (fun row => ep_ID (en_endpoint row)) (ig_endpoints d));
  ino_next : List.Forall (fun row => ep_ID (en_endpoint row) < ig_nextEndpoint d) (ig_endpoints d);
  ino_queue : forall id row, ig_deliveries d !! id = Some row ->
                dl_ID (dr_delivery (qw_row row)) = id /\ id < ig_nextDelivery d;
}.

Definition action_name (rt : integration_route) : string :=
  match rt with
  | CreateEndpointRoute => "integration_endpoint.create"
  | TestEndpointRoute => "integration_delivery.test"
  | EndpointStatusRoute => "integration_endpoint.status_update"
  | RotateSecretRoute => "integration_endpoint.rotate_secret"
  | _ => "integration_delivery.replay"
  end.

(** What a request may do to the endpoints and the queue, for a customer. *)
Inductive integration_step (tenant : Z) d : integration_route -> IntegrationTables -> Prop :=
| StepCreated row secret :
    owns_project tenant (ep_ProjectID (en_endpoint row)) d = true -> ep_TenantID (en_endpoint row) = tenant ->
    ep_ID (en_endpoint row) = ig_nextEndpoint d -> ep_Status (en_endpoint row) = "active" ->
    name_taken tenant (ep_ProjectID (en_endpoint row)) (en_name row) d = false ->
    SafeDestination (ep_URL (en_endpoint row)) = true -> 16 <= slen secret <= 2000 ->
    opens secret (ep_SecretEncrypted (en_endpoint row)) ->
    integration_step tenant d CreateEndpointRoute (with_endpoints (ig_endpoints d ++ [row]) (ig_nextEndpoint d + 1) d)
| StepQueued ep row :
    In ep (ig_endpoints d) -> this_endpoint tenant (dl_ProjectID (dr_delivery (qw_row row))) (dl_EndpointID (dr_delivery (qw_row row))) ep = true ->
    ep_Status (en_endpoint ep) = "active" -> dl_TenantID (dr_delivery (qw_row row)) = tenant ->
    dl_ID (dr_delivery (qw_row row)) = ig_nextDelivery d -> dl_Status (dr_delivery (qw_row row)) = "pending" ->
    dl_Attempts (dr_delivery (qw_row row)) = 0 ->
    integration_step tenant d TestEndpointRoute (with_queue (<[ig_nextDelivery d := row]> (ig_deliveries d)) (ig_nextDelivery d + 1) d)
| StepKnown id row :
    ig_deliveries d !! id = Some row -> dl_TenantID (dr_delivery (qw_row row)) = tenant ->
    integration_step tenant d TestEndpointRoute d
| StepStatus project id row status :
    List.find (this_endpoint tenant project id) (ig_endpoints d) = Some row -> In status ["active"; "disabled"] ->
    integration_step tenant d EndpointStatusRoute
      (update_endpoint tenant project id (with_endpoint now (set_endpoint_status status) (fun m => m)) d)
| StepRotated project id row envelope secret metadata :
    List.find (this_endpoint tenant project id) (ig_endpoints d) = Some row -> opens secret envelope -> 16 <= slen secret <= 2000 ->
    integration_step tenant d RotateSecretRoute
      (update_endpoint tenant project id (with_endpoint now (set_endpoint_secret envelope) (fun _ => Some metadata)) d)
| StepReplayed id row :
    ig_deliveries d !! id = Some row -> dl_TenantID (dr_delivery (qw_row row)) = tenant ->
    integration_step tenant d ReplayRoute (with_queue (<[id := replayed now row]> (ig_deliveries d)) (ig_nextDelivery d) d).

(** Nothing, or a step with its audit event. *)
Definition integration_change (rt : integration_route) (actor : User) d d' : Prop :=
  d' = d
  \/ In "integrations.manage" (capabilitiesForRole (u_Role actor))
     /\ exists d1 ev, integration_step (activeTenant actor) d rt d1 /\ d' = add_event ev d1
          /\ ev_action ev = action_name rt /\ ev_activeTenantId ev = activeTenant actor
          /\ ev_actorUserId ev = Some (u_ID actor).

Lemma updated_ids f tenant project id l :
  (forall row, ep_ID (en_endpoint (f row)) = ep_ID (en_endpoint row)) ->
  map (fun row => ep_ID (en_endpoint row)) (fst (update_where (this_endpoint tenant project id) f l))
  = map (fun row => ep_ID (en_endpoint row)) l.
Proof. intros H. cbn. rewrite map_map. apply map_ext. intros row. by destruct (this_endpoint _ _ _ row). Qed.

Lemma updated_ok f tenant project id d :
  (forall row, ep_ID (en_endpoint (f row)) = ep_ID (en_endpoint row)) ->
  integrations_ok d -> integrations_ok (update_endpoint tenant project id f d).
Proof.
  intros H [N B Q]. split; [cbn [ig_endpoints update_endpoint with_endpoints]; by rewrite updated_ids| |exact Q].
  apply List.Forall_forall. intros row Hr. apply (in_map (fun row => ep_ID (en_endpoint row))) in Hr.
  cbn [ig_endpoints update_endpoint with_endpoints] in Hr. rewrite updated_ids in Hr by done.
  apply in_map_iff in Hr as (row' & E & Hr). rewrite <- E. rewrite List.Forall_forall in B. by apply B.
Qed.

Lemma integration_step_ok tenant d rt d' : integration_step tenant d rt d' -> integrations_ok d -> integrations_ok d'.
Proof.
  intros [row secret _ _ E|ep row _ _ _ _ E _ _| |project id row status _ _|project id row envelope secret metadata _ _ _|id row E _] [N B Q].
  - split; cbn; [| |done].
    + rewrite map_app. apply NoDup_ListNoDup, NoDup_app. split_and!; [by apply NoDup_ListNoDup| |apply NoDup_singleton].
      intros z Hz Hz'. apply list_elem_of_singleton in Hz'. apply list_elem_of_In, in_map_iff in Hz as (y & Ey & Hy).
      rewrite List.Forall_forall in B. apply B in Hy. lia.
    + apply List.Forall_app. split; [|by repeat constructor; lia]. eapply List.Forall_impl; [|exact B]. intros y. cbn. lia.
  - split; cbn; [done..|]. intros id row'. destruct (decide (id = ig_nextDelivery d)) as [->|Ne].
    + rewrite lookup_insert_eq. intros [= <-]. split; [done|lia].
    + rewrite lookup_insert_ne by done. intros H. destruct (Q _ _ H). split; [done|lia].
  - done.
  - by apply updated_ok.
  - by apply updated_ok.
  - split; cbn; [done..|]. intros j row'. destruct (decide (j = id)) as [->|Ne].
    + rewrite lookup_insert_eq. intros [= <-]. cbn. by apply Q.
    + rewrite lookup_insert_ne by done. by apply Q.
Qed.

Lemma integration_change_ok rt actor d d' : integration_change rt actor d d' -> integrations_ok d -> integrations_ok d'.
Proof.
  intros [->|(_ & d1 & ev & S & -> & _)] O; [done|]. destruct (integration_step_ok _ _ _ _ S O) as [N B Q]. by split.
Qed.

(** ** Requests *)
Lemma keeps_or_fail {A} (x : error + A) : keeps (or_fail x : M IntegrationTables A).
Proof. destruct x; [apply keeps_fail|apply keeps_ret]. Qed.

Lemma keeps_endpoint_record t p id : keeps (endpoint_record t p id).
Proof. apply keeps_bind; [apply keeps_query|]. intros [row|]; [apply keeps_or_fail|apply keeps_fail]. Qed.

Lemma keeps_endpoint actor p id : keeps (integrationEndpoint actor p id).
Proof. apply keeps_bind; [apply keeps_endpoint_record|]. intros x. apply keeps_ret. Qed.

Lemma keeps_delivery t p id : keeps (integrationDelivery t p id).
Proof. apply keeps_bind; [apply keeps_query|]. intros [row|]; [apply keeps_ret|apply keeps_fail]. Qed.

Lemma keeps_project t p : keeps (ensure_integration_project t p).
Proof. apply keeps_bind; [apply keeps_query|]. intros x. apply keeps_guard. Qed.

Lemma keeps_endpoints actor p : keeps (ListIntegrationEndpoints actor p).
Proof.
  apply keeps_bind; [apply keeps_project|]. intros _. apply keeps_bind; [apply keeps_query|]. intros rows. apply keeps_mapM.
  intros row. apply keeps_bind; [apply keeps_or_fail|]. intros x. apply keeps_ret.
Qed.

Lemma keeps_deliveries actor p status : keeps (ListIntegrationDeliveries actor p status).
Proof. apply keeps_bind; [apply keeps_project|]. intros _. apply keeps_query. Qed.

(** The endpoint that is read at the end is the one asked for. *)
Lemma wp_endpoint d actor p id : wp d (integrationEndpoint actor p id) (fun res d' => d' = d /\ forall x, res = Ok x -> ie_ID x = id).
Proof.
  apply wp_bind, wp_bind, wp_query; [|done]. destruct (List.find _ _) as [row|] eqn:E; [|by apply wp_fail].
  apply find_some in E as [_ E]. unfold this_endpoint in E. apply andb_true_iff in E as [E%Z.eqb_eq _].
  unfold or_fail, scanIntegrationEndpointRecord. destruct (from_option unmarshal_strings _ _) as [l|]; [|by apply wp_fail].
  destruct (from_option unmarshal_map _ _) as [md|]; [|by apply wp_fail]. apply wp_ret, wp_ret. split; [done|].
  by intros x [= <-].
Qed.

Lemma wp_then_endpoint {A} rt actor d project (m : M IntegrationTables A) (id : A -> Z) (P : Z -> IntegrationTables -> Prop) :
  wp d m (fun res d' => integration_change rt actor d d' /\ forall a, res = Ok a -> P (id a) d') ->
  wp d (bind m (fun a => integrationEndpoint actor project (id a)))
    (fun res d' => integration_change rt actor d d' /\ forall x, res = Ok x -> P (ie_ID x) d').
Proof.
  intros H. apply wp_bind. eapply wp_weaken; [exact H|]. intros [a|e] d' [C K]; [|by split].
  eapply wp_weaken; [apply wp_endpoint|]. intros x d2 [-> I]. split; [done|]. intros y E. rewrite (I y E). by apply K.
Qed.

Lemma wp_then_delivery {A} rt actor d (m : M IntegrationTables A) t p (id : A -> Z) :
  wp d m (fun _ d' => integration_change rt actor d d') ->
  wp d (bind m (fun a => integrationDelivery t p (id a))) (fun _ d' => integration_change rt actor d d').
Proof.
  intros H. apply wp_bind. eapply wp_weaken; [exact H|]. intros [a|e] d' C; [|done].
  eapply wp_weaken; [apply keeps_delivery|]. by intros x d2 ->.
Qed.

(** A step and its audit event. *)
Lemma wp_recorded rt r actor project ty id before after d d1 (Q : outcome unit -> IntegrationTables -> Prop) :
  In "integrations.manage" (capabilitiesForRole (u_Role actor)) -> integration_step (activeTenant actor) d rt d1 ->
  (forall ev, integration_change rt actor d (add_event ev d1) -> Q (Ok tt) (add_event ev d1)) -> (forall e, Q (Err e) d1) ->
  wp d1 (recordIntegrationAudit now sourceIP r actor project (action_name rt) ty id before after) Q.
Proof.
  intros Hc S H X. unfold recordIntegrationAudit. apply wp_record_event; [|intros; apply X].
  intros d2 [(ev & c & He & ->)]. apply H. right. split; [exact Hc|]. apply event_row_fields in He as (_ & E2 & E3 & E4 & _).
  by exists d1, ev.
Qed.

Lemma change_none rt actor d : integration_change rt actor d d.
Proof. by left. Qed.

(** The table holds this secret for an endpoint. *)
Definition holds (secret : string) (id : Z) d : Prop :=
  exists row, In row (ig_endpoints d) /\ ep_ID (en_endpoint row) = id /\ opens secret (ep_SecretEncrypted (en_endpoint row)).

Lemma wp_create d r actor input :
  In "integrations.manage" (capabilitiesForRole (u_Role actor)) -> SafeDestination (ic_URL input) = true ->
  16 <= slen (ic_Secret input) <= 2000 ->
  wp d (CreateIntegrationEndpoint getenv readFile now sourceIP r actor input)
    (fun res d' => integration_change CreateEndpointRoute actor d d' /\ forall x, res = Ok x -> holds (ic_Secret input) (ie_ID x) d').
Proof.
  intros Hc Hu Hs. unfold CreateIntegrationEndpoint. cbv zeta. apply wp_bind, wp_encrypted; [|intros; no_change].
  intros envelope Ho. apply (wp_then_endpoint _ _ _ _ _ (fun a => a) (holds (ic_Secret input))).
  apply wp_transaction; [|intros; no_change]. apply wp_bind. unfold ensure_integration_project.
  apply wp_bind, wp_query; [|intros; no_change]. apply wp_guard; [intros Hp|intros _; no_change].
  apply wp_bind, wp_exec_refusable; [|intros; no_change]. intros d1 n (ev & _ & X)%bind_Some.
  apply bind_Some in X as (md & _ & X). destruct (name_taken _ _ _ d) eqn:T; [done|]. injection X as <- <-.
  apply wp_bind. eapply (wp_recorded CreateEndpointRoute r actor).
  - exact Hc.
  - eapply (StepCreated _ _ _ (ic_Secret input)); cbn; done.
  - intros x C. apply wp_ret. split; [exact C|]. intros ? [= <-].
    eexists. split; [apply in_app_iff; right; left; reflexivity|done].
  - intros. no_change.
Qed.

Lemma wp_endpoint_record d t p id (Q : outcome (IntegrationEndpoint * option (dict json)) -> IntegrationTables -> Prop) :
  (forall row ep metadata, List.find (this_endpoint t p id) (ig_endpoints d) = Some row -> ie_Status ep = ep_Status (en_endpoint row) ->
     Q (Ok (ep, metadata)) d) ->
  (forall e, Q (Err e) d) -> wp d (endpoint_record t p id) Q.
Proof.
  intros H X. apply wp_bind, wp_query; [|intros; apply X]. destruct (List.find _ _) as [row|] eqn:E; [|by apply wp_fail].
  unfold or_fail, scanIntegrationEndpointRecord. destruct (from_option unmarshal_strings _ _) as [l|]; [|by apply wp_fail].
  destruct (from_option unmarshal_map _ _) as [md|]; [|by apply wp_fail]. by eapply wp_ret, H.
Qed.

(** The delivery of a test: a new row, or the one that was there. *)
Lemma inserted_step d t project id row identifier key digest payload d' n row' :
  List.find (this_endpoint t project id) (ig_endpoints d) = Some row -> ep_Status (en_endpoint row) = "active" ->
  insert_delivery now t project id identifier key digest payload d = Some (d', n) ->
  find_delivery t project n d' = Some row' -> integration_step t d TestEndpointRoute d'.
Proof.
  intros Hr A (text & _ & X)%bind_Some Hf. unfold find_delivery in Hf. apply bind_Some in Hf as (x & Hx & Hf).
  destruct (delivery_of_project t project x) eqn:P; [|done]. unfold delivery_of_project in P. apply andb_true_iff in P as [P%Z.eqb_eq _].
  destruct (List.find _ (map_to_list (ig_deliveries d))) as [[m y]|].
  - injection X as <- <-. by eapply StepKnown.
  - injection X as <- <-. apply find_some in Hr as [Hin Ht]. eapply StepQueued; cbn; done.
Qed.

Lemma wp_test d r actor project id :
  In "integrations.manage" (capabilitiesForRole (u_Role actor)) ->
  wp d (CreateIntegrationTestDelivery now sourceIP r actor project id) (fun _ d' => integration_change TestEndpointRoute actor d d').
Proof.
  intros Hc. unfold CreateIntegrationTestDelivery. cbv zeta. apply wp_then_delivery.
  apply wp_transaction; [|intros; no_change]. apply wp_bind, wp_endpoint_record; [|intros; no_change].
  intros row ep md Hr Es. destruct (String.eqb_spec (ie_Status ep) "active") as [A|]; cbn [negb]; [|apply wp_fail; no_change].
  destruct (accepts_tests (ie_Events ep)); cbn [negb]; [|apply wp_fail; no_change].
  apply wp_bind, wp_uuid. intros uuid. apply wp_bind, wp_exec_refusable; [|intros; no_change]. intros d1 n Hi.
  apply wp_bind, wp_bind, wp_query; [|intros; no_change].
  destruct (find_delivery _ _ n d1) as [row'|] eqn:Hf; [|apply wp_fail; no_change].
  apply wp_ret, wp_bind. eapply (wp_recorded TestEndpointRoute r actor); [exact Hc| | |intros; no_change].
  - eapply inserted_step; [exact Hr|congruence|exact Hi|exact Hf].
  - intros ev C. by apply wp_ret.
Qed.

Lemma wp_status d r actor project id status :
  In "integrations.manage" (capabilitiesForRole (u_Role actor)) -> In status ["active"; "disabled"] ->
  wp d (UpdateIntegrationEndpointStatus now sourceIP r actor project id status)
    (fun res d' => integration_change EndpointStatusRoute actor d d' /\ forall x, res = Ok x -> True).
Proof.
  intros Hc Hs. unfold UpdateIntegrationEndpointStatus. cbv zeta. apply (wp_then_endpoint _ _ _ _ _ (fun _ => id) (fun _ _ => True)).
  apply wp_transaction; [|intros; no_change]. apply wp_bind, wp_endpoint_record; [|intros; no_change].
  intros row ep md Hr _. apply wp_bind, wp_exec; [|intros; no_change].
  eapply (wp_recorded EndpointStatusRoute r actor); [exact Hc| | |intros; no_change].
  - by eapply StepStatus.
  - intros ev C. by split.
Qed.

Lemma updated_holds t project id secret envelope metadata row d :
  List.find (this_endpoint t project id) (ig_endpoints d) = Some row -> opens secret envelope ->
  holds secret id (update_endpoint t project id (with_endpoint now (set_endpoint_secret envelope) metadata) d).
Proof.
  intros Hr Ho. apply find_some in Hr as [Hin Ht]. eexists. split; [|split].
  - cbn. apply in_map_iff. exists row. split; [by rewrite Ht|exact Hin].
  - cbn. unfold this_endpoint in Ht. apply andb_true_iff in Ht as [E%Z.eqb_eq _]. exact E.
  - exact Ho.
Qed.

Lemma wp_rotate d r actor project id secret :
  In "integrations.manage" (capabilitiesForRole (u_Role actor)) -> 16 <= slen secret <= 2000 ->
  wp d (RotateIntegrationEndpointSecret getenv readFile now sourceIP r actor project id secret)
    (fun res d' => integration_change RotateSecretRoute actor d d' /\ forall x, res = Ok x -> holds secret (ie_ID x) d').
Proof.
  intros Hc Hs. unfold RotateIntegrationEndpointSecret. cbv zeta. apply wp_bind, wp_encrypted; [|intros; no_change].
  intros envelope Ho. apply (wp_then_endpoint _ _ _ _ _ (fun _ => id) (holds secret)).
  apply wp_transaction; [|intros; no_change]. apply wp_bind, wp_endpoint_record; [|intros; no_change].
  intros row ep [md|] Hr _; [|apply wp_fail; no_change]. apply wp_bind, wp_exec_refusable; [|intros; no_change].
  intros d1 n (text & _ & [= <- _])%bind_Some.
  eapply (wp_recorded RotateSecretRoute r actor); [exact Hc| | |intros; no_change].
  - by eapply StepRotated.
  - intros ev C. split; [exact C|]. intros _ _. by eapply updated_holds.
Qed.

Lemma wp_replay d r actor project id :
  In "integrations.manage" (capabilitiesForRole (u_Role actor)) ->
  wp d (ReplayIntegrationDelivery now sourceIP r actor project id) (fun _ d' => integration_change ReplayRoute actor d d').
Proof.
  intros Hc. unfold ReplayIntegrationDelivery. cbv zeta. apply (wp_then_delivery _ _ _ _ _ _ (fun _ => id)).
  apply wp_transaction; [|intros; no_change]. apply wp_bind, wp_bind, wp_query; [|intros; no_change].
  destruct (find_delivery _ _ id d) as [row|] eqn:Hf; [|apply wp_fail; no_change]. apply wp_ret, wp_bind, wp_exec; [|intros; no_change].
  eapply (wp_recorded ReplayRoute r actor); [exact Hc| |done|intros; no_change].
  unfold replay_row. rewrite Hf. unfold find_delivery in Hf. apply bind_Some in Hf as (x & Hx & Hf).
  destruct (delivery_of_project _ _ x) eqn:P; [|done]. injection Hf as ->. unfold delivery_of_project in P.
  apply andb_true_iff in P as [P%Z.eqb_eq _]. by apply StepReplayed.
Qed.

(** ** Requests *)
Definition integration_reading (rt : integration_route) : bool :=
  match rt with EndpointsRoute | DeliveriesRoute => true | _ => false end.

Lemma keeps_integration_reading rt r :
  integration_reading rt = true -> keeps (serve_integration getenv readFile now sourceIP rt r).
Proof.
  destruct rt; try discriminate; intros _; cbn [serve_integration]; apply keeps_capability; intros u; apply keeps_desk_id; intros p.
  - apply keeps_answer, keeps_endpoints.
  - cbv zeta. destruct (negb _); [apply keeps_ret|]. apply keeps_answer, keeps_deliveries.
Qed.

(** The secret that a request gives. *)
Definition secret_given (rt : integration_route) (r : Request) : option string :=
  match rt with
  | CreateEndpointRoute => eb_Secret <$> decode_body endpoint_fields no_endpoint r
  | RotateSecretRoute => decode_body (one_field "secret") "" r
  | _ => None
  end.

(** What a request does: nothing, or a step for its actor; and the endpoint it answers
    with has the secret it gave. *)
Definition integration_requested (rt : integration_route) (r : Request) d (res : outcome ireply) d' : Prop :=
  (d' = d \/ exists actor, asks_as now r d actor /\ integration_change rt actor d d')
  /\ forall secret reply x, secret_given rt r = Some secret -> res = Ok reply -> rp_body reply = DData (IgEndpoint x) ->
       holds secret (ie_ID x) d'.

Lemma requested_nothing rt r d res :
  (forall reply x, res = Ok reply -> rp_body reply <> DData (IgEndpoint x)) -> integration_requested rt r d res d.
Proof. intros H. split; [by left|]. intros secret reply x _ E B. by destruct (H reply x E). Qed.

Lemma wp_requested {B} rt r d actor (m : M IntegrationTables B) status (data : B -> integration_data) :
  asks_as now r d actor ->
  wp d m (fun res d' => integration_change rt actor d d' /\ forall b, res = Ok b ->
            forall secret x, secret_given rt r = Some secret -> data b = IgEndpoint x -> holds secret (ie_ID x) d') ->
  wp d (answer m status data) (integration_requested rt r d).
Proof.
  intros Ha H. apply wp_answer. eapply wp_weaken; [exact H|].
  assert (N : forall e d', integration_change rt actor d d' -> integration_requested rt r d (Ok (desk_refused e)) d').
  { intros e d' C. split; [right; by exists actor|]. intros secret reply x _ [= <-] E. by destruct e. }
  intros [b|e] d' [C K].
  - split; [right; by exists actor|]. intros secret reply x G [= <-] [= E]. by eapply K.
  - destruct e; try by apply N. split; [right; by exists actor|]. by intros secret reply x _ [=].
Qed.

Lemma safe_input name adapter url secret evs :
  validateIntegrationEndpointInput name adapter url secret evs = [] -> SafeDestination url = true /\ 16 <= slen secret <= 2000.
Proof.
  unfold validateIntegrationEndpointInput. intros H.
  apply app_eq_nil in H as [_ H]. apply app_eq_nil in H as [_ H]. apply app_eq_nil in H as [Hu H]. apply app_eq_nil in H as [Hs _].
  destruct (2048 <? slen url), (SafeDestination url), (Z.ltb_spec (slen secret) 16), (Z.ltb_spec 2000 (slen secret)); try done; by split.
Qed.

(** The branches that answer without an endpoint. *)
Ltac refuse := intros; try apply wp_ret; apply requested_nothing; intros ? ? ?; by simplify_eq.

Lemma wp_serve_integration rt r d :
  wp d (serve_integration getenv readFile now sourceIP rt r) (integration_requested rt r d).
Proof.
  destruct rt; cbn [serve_integration].
  - apply wp_capability; [|refuse..]. intros actor Ha Hc. apply wp_desk_id; [|refuse]. intros p _.
    apply (wp_requested EndpointsRoute r d actor); [exact Ha|]. eapply wp_weaken; [apply keeps_endpoints|]. intros res d' ->. by split; [left|].
  - apply wp_capability; [|refuse..]. intros actor Ha Hc. apply wp_desk_id; [|refuse]. intros p _.
    destruct (decode_body endpoint_fields no_endpoint r) as [b|] eqn:E; [|refuse]. cbv zeta.
    destruct (validateIntegrationEndpointInput _ _ _ _ _) as [|v l] eqn:V; [|refuse]. apply safe_input in V as [V1 V2].
    apply (wp_requested CreateEndpointRoute r d actor); [exact Ha|]. eapply wp_weaken; [by apply wp_create|].
    intros res d' [C K]. split; [exact C|]. intros x -> secret y G [= <-]. cbn in G. rewrite E in G. injection G as <-. by apply K.
  - apply wp_capability; [|refuse..]. intros actor Ha Hc. do 2 (apply wp_desk_id; [|refuse]; intros ? _).
    apply (wp_requested TestEndpointRoute r d actor); [exact Ha|]. eapply wp_weaken; [by apply wp_test|]. intros res d' C. by split.
  - apply wp_capability; [|refuse..]. intros actor Ha Hc. do 2 (apply wp_desk_id; [|refuse]; intros ? _).
    destruct (decode_body _ _ r) as [status|]; [|refuse].
    destruct (existsb (String.eqb status) _) eqn:E; cbn [negb]; [|refuse].
    apply existsb_exists in E as (s & Hs & <-%String.eqb_eq).
    apply (wp_requested EndpointStatusRoute r d actor); [exact Ha|]. eapply wp_weaken; [by apply wp_status|]. intros res d' [C _]. by split.
  - apply wp_capability; [|refuse..]. intros actor Ha Hc. do 2 (apply wp_desk_id; [|refuse]; intros ? _).
    destruct (decode_body _ _ r) as [secret|] eqn:E; [|refuse].
    destruct (Z.ltb_spec (slen secret) 16), (Z.ltb_spec 2000 (slen secret)); cbn [orb]; try refuse.
    apply (wp_requested RotateSecretRoute r d actor); [exact Ha|]. eapply wp_weaken; [by apply wp_rotate|].
    intros res d' [C K]. split; [exact C|]. intros x -> secret' y G [= <-]. cbn [secret_given] in G. rewrite E in G. injection G as <-. by apply K.
  - apply wp_capability; [|refuse..]. intros actor Ha Hc. apply wp_desk_id; [|refuse]. intros p _. cbv zeta. destruct (negb _); [refuse|].
    apply (wp_requested DeliveriesRoute r d actor); [exact Ha|]. eapply wp_weaken; [apply keeps_deliveries|]. intros res d' ->. by split; [left|].
  - apply wp_capability; [|refuse..]. intros actor Ha Hc. do 2 (apply wp_desk_id; [|refuse]; intros ? _).
    apply (wp_requested ReplayRoute r d actor); [exact Ha|]. eapply wp_weaken; [by apply wp_replay|]. intros res d' C. by split.
Qed.

Lemma integration_request_step rt r w w' res :
  integrations_ok (w_db w) -> serve_integration getenv readFile now sourceIP rt r w = (res, w') ->
  integrations_ok (w_db w') /\ integration_requested rt r (w_db w) res (w_db w').
Proof.
  intros O H. pose proof (wp_elim _ _ _ _ _ (wp_serve_integration rt r (w_db w)) H) as R. split; [|exact R].
  destruct R as [[->|(actor & _ & Hc)] _]; [exact O|by eapply integration_change_ok].
Qed.

(** Claim C16: a request about integrations is a step on the customer's endpoints and
    queue.  Whatever the route, the request and the failures of the database, the
    identifiers stay distinct and below the counters; and either nothing changes, or the
    request carries the live session of an active user with integrations.manage, and does
    the step of its route for the active customer - a new active endpoint of a project it
    owns, with a safe destination and a name of its own; a new pending delivery for an
    active endpoint; a status; a new secret; a delivery pending again - with its audit
    event.  The routes that read change nothing. *)
Theorem integration_requests_refine (rt : integration_route) (r : Request) (w w' : world IntegrationTables) res :
  integrations_ok (w_db w) -> serve_integration getenv readFile now sourceIP rt r w = (res, w') ->
  integrations_ok (w_db w')
  /\ (integration_reading rt = true -> w_db w' = w_db w)
  /\ (w_db w' = w_db w
      \/ exists actor, asks_as now r (w_db w) actor /\ integration_change rt actor (w_db w) (w_db w')).
Proof.
  intros O H. destruct (integration_request_step rt r w w' res O H) as [O' [R _]]. split_and!; [exact O'| |exact R].
  intros Hr. exact (keeps_elim _ _ _ _ (keeps_integration_reading rt r Hr) H).
Qed.

(** The worker opens the secret of the endpoint of a delivery. *)
Lemma worker_opens d secret (di : Dispatcher) id ep secret' :
  integrations_ok d -> holds secret id d -> ApplicationKeyFromEnvironment getenv readFile = inr (di_ApplicationKey di) ->
  In ep (endpoints (worker_view d)) -> ep_ID ep = id ->
  DecryptLaravelString (di_ApplicationKey di) (ep_SecretEncrypted ep) = inr secret' -> secret' = secret.
Proof.
  intros O (x & Hx & Ex & key & Hk & Hd) K Hin E D. rewrite K in Hk. injection Hk as <-.
  cbn in Hin. apply in_map_iff in Hin as (y & <- & Hy).
  assert (y = x) as ->; [|congruence]. apply (nodup_key (fun row => ep_ID (en_endpoint row)) (ig_endpoints d)); [apply O|done..|].
  by rewrite E, Ex.
Qed.

(** The endpoint keeps its encrypted secret. *)
Definition secret_kept (id : Z) d d' : Prop :=
  forall row, In row (ig_endpoints d) -> ep_ID (en_endpoint row) = id ->
    exists row', In row' (ig_endpoints d') /\ ep_ID (en_endpoint row') = id
      /\ ep_SecretEncrypted (en_endpoint row') = ep_SecretEncrypted (en_endpoint row).

Lemma kept_holds secret id d d' : secret_kept id d d' -> holds secret id d -> holds secret id d'.
Proof.
  intros K (row & Hin & E & Ho). destruct (K row Hin E) as (row' & Hin' & E' & S). exists row'. by rewrite S.
Qed.

Lemma request_keeps_secret rt actor id d d' :
  rt <> RotateSecretRoute -> integration_change rt actor d d' -> secret_kept id d d'.
Proof.
  intros N [->|(_ & d1 & ev & S & -> & _)] row Hin E; [by exists row|]. revert N.
  destruct S as [new secret _ _ _ _ _ _ _ _|ep new _ _ _ _ _ _ _|i old _ _|project i old status _ _|? ? ? ? ? ? _ _ _|i old _ _];
    intros N; try (by exists row).
  - exists row. split; [|done]. cbn. apply in_app_iff. by left.
  - eexists. split; [|split]; [cbn; apply in_map_iff; exists row; split; [reflexivity|exact Hin]|..];
      by destruct (this_endpoint _ _ _ row).
Qed.
End Theorems.

(** What may happen to the tables later: any request but a rotation, at any time, and
    anything else that leaves this endpoint its encrypted secret (the worker, the releases
    and runs that queue deliveries, rotations of other endpoints). *)
Inductive later_step `{MS : MySQL} `{F : Floats} `{JC : JsonColumn} `{Cr : Crypto} `{Net : Network}
    (id : Z) (d : IntegrationTables) : IntegrationTables -> Prop :=
| later_request getenv readFile now sourceIP rt r w w' res :
    w_db w = d -> rt <> RotateSecretRoute ->
    serve_integration getenv readFile now sourceIP rt r w = (res, w') -> later_step id d (w_db w')
| later_other d' : integrations_ok d' -> secret_kept id d d' -> later_step id d d'.

Lemma later_keeps `{MS : MySQL} `{F : Floats} `{JC : JsonColumn} `{Cr : Crypto} `{!CryptoLaws Cr} `{Net : Network} getenv readFile secret id d d' :
  rtc (later_step id) d d' -> integrations_ok d -> holds getenv readFile secret id d ->
  integrations_ok d' /\ holds getenv readFile secret id d'.
Proof.
  induction 1 as [|d d1 d2 S _ IH]; intros O H; [by split|].
  destruct S as [getenv' readFile' now ip rt r w w' res <- N E|d1 O1 K]; [|by apply IH; [|eapply kept_holds]].
  destruct (integration_request_step getenv' readFile' now ip rt r w w' res O E) as [O1 [R _]].
  apply IH; [exact O1|]. eapply kept_holds; [|exact H].
  destruct R as [->|(actor & _ & C)]; [by intros row ? ?; exists row|by eapply request_keeps_secret].
Qed.

(** Claim C17: the worker signs with the secret that was given.  When a request that creates
    an endpoint or rotates its secret is answered with the endpoint, then from that moment
    until its encrypted secret is replaced - whatever other requests are served, deliveries
    queued and endpoints changed in between - a worker with the same application key,
    through any number of turns and failures, only sends requests for deliveries of the
    queue, each with a marshalled payload, and those of this endpoint are signed with
    exactly the secret in the body of that request, although the table only holds its
    encryption. *)
Theorem given_secret_signs `{MS : MySQL} `{F : Floats} `{JC : JsonColumn} `{Cr : Crypto} `{!CryptoLaws Cr} `{Net : Network}
    `{Tr : Transport} getenv readFile now sourceIP (rt : integration_route) (r : Request) (secret : string)
    (w w' : world IntegrationTables) reply x d2 (di : Dispatcher) ticks (v v' : world IntTables) res :
  integrations_ok (w_db w) -> secret_given rt r = Some secret ->
  serve_integration getenv readFile now sourceIP rt r w = (Ok reply, w') -> rp_body reply = DData (IgEndpoint x) ->
  ApplicationKeyFromEnvironment getenv readFile = inr (di_ApplicationKey di) ->
  rtc (later_step (ie_ID x)) (w_db w') d2 -> w_db v = worker_view d2 -> Run di ticks v = (res, v') ->
  forall id rq, In (id, rq) (sent_requests (w_db v')) ->
  exists row ep dl body s at_ t,
    deliveries (w_db v) !! id = Some row /\ dl_EndpointID (dr_delivery row) = ep_ID ep /\ In ep (endpoints (w_db v))
    /\ dl_ID dl = id /\ Integrations.marshal (adapterPayload (ep_Adapter ep) dl t) = Some body
    /\ rq = signed_request ep dl body s at_ /\ (ep_ID ep = ie_ID x -> s = secret).
Proof.
  intros O G H B K L V Rn id rq Hin.
  destruct (integration_request_step getenv readFile now sourceIP rt r w w' (Ok reply) O H) as [O' [_ Hs]].
  destruct (later_keeps getenv readFile secret _ _ _ L O' (Hs secret reply x G eq_refl B)) as [O2 S].
  pose proof (signs_run di ticks v) as [_ (new & E & M)]. rewrite Rn in E. cbn [snd] in E.
  rewrite E, V in Hin. cbn in Hin. rewrite List.Forall_forall in M.
  destruct (M _ Hin) as (i & row & ep & dl & body & s & a & t & Lr & I & J & He & I2 & J2 & D & Mr & Q). cbn [fst snd] in *.
  assert (i = id) as ->.
  { rewrite <- I. rewrite V in Lr. cbn in Lr. apply lookup_fmap_Some in Lr as (q & <- & Lq). symmetry. by apply O2. }
  exists row, ep, dl, body, s, a, t. split_and!; [done..|]. intros X. rewrite V in He.
  by eapply worker_opens.
Qed.

(** ** An endpoint, its secret and its deliveries *)
Definition key_text : string := "0123456789abcdef0123456789abcdef".
Definition sample_getenv (name : string) : string := if String.eqb name "APP_KEY" then key_text else "".
Definition no_file (path : string) : option string := None.

Definition stored_endpoint (id : Z) (name metadata : string) : EndpointRow :=
  {| en_endpoint := {| ep_ID := id; ep_TenantID := 8; ep_ProjectID := 1; ep_Adapter := "slack";
                       ep_URL := "https://hooks.example.com/x"; ep_Status := "active"; ep_SecretEncrypted := "" |};
     en_name := name; en_events := None; en_metadata := Some metadata; en_created_at := None; en_updated_at := None |}.

Definition queued (id : Z) (status : string) (attempts : Z) : QueueRow :=
  {| qw_row := {| dr_delivery := {| dl_ID := id; dl_TenantID := 8; dl_ProjectID := 1; dl_EndpointID := 4;
                                    dl_DeliveryID := "dv-" +:+ pretty id; dl_Event := "run.completed"; dl_SchemaVersion := "1";
                                    dl_Status := status; dl_Attempts := attempts; dl_Payload := JNull |};
                  dr_payload := Some (JObj []); dr_responseStatus := None; dr_lastError := None; dr_nextAttemptAt := None;
                  dr_sentAt := None; dr_created_at := Some 0; dr_updated_at := None |};
     qw_idempotencyKey := "k" +:+ pretty id; qw_payloadDigest := "" |}.

(** Customer 8 has the endpoints 4 and 5, the second with metadata that is null, a dead
    letter and a pending delivery. *)
Definition integration_tables : IntegrationTables :=
  {| ig_accounts := with_projects [sample_project 1 8; sample_project 2 7] (w_db admin_world);
     ig_events := {| et_rows := []; et_next := 1 |};
     ig_endpoints := [stored_endpoint 4 "hook" "{}"; stored_endpoint 5 "other" "null"]; ig_nextEndpoint := 6;
     ig_deliveries := {[ 1 := queued 1 "dead_letter" 3; 2 := queued 2 "pending" 0 ]}; ig_nextDelivery := 3 |}.

Definition sixteen : option string := Some (of_chars (repeat (byte 65) 16)).

Definition integration_world : world IntegrationTables := World integration_tables [] [sixteen; sixteen; sixteen].

Lemma integration_world_ok : integrations_ok (w_db integration_world).
Proof.
  split; cbn.
  - repeat constructor; cbn; intuition discriminate.
  - repeat constructor.
  - intros id row H. apply lookup_insert_Some in H as [[<- <-]|[_ H]]; [done|].
    apply lookup_singleton_Some in H as [<- <-]. done.
Qed.

Definition serve_sample_integration (rt : integration_route) (r : Request) : M IntegrationTables ireply :=
  serve_integration sample_getenv no_file noon "10.0.0.1" rt r.
Definition status_of_integration (res : outcome ireply) : option Z :=
  match res with Ok reply => Some (rp_status reply) | Err _ => None end.

#[local] Notation after rt r w := (snd (serve_sample_integration rt r w)).
#[local] Notation status rt r w := (status_of_integration (fst (serve_sample_integration rt r w))).

Definition rotation (endpoint : string) : Request :=
  work_request [("idProject", "1"); ("integrationEndpoint", endpoint)] [("secret", text_field "correct horse battery")].

Lemma integration_requests_refine_witness :
  integrations_ok (w_db integration_world)
  /\ status RotateSecretRoute (rotation "4") integration_world = Some 200
  /\ exists actor, asks_as noon (rotation "4") (w_db integration_world) actor
       /\ integration_change sample_getenv no_file noon RotateSecretRoute actor (w_db integration_world)
            (w_db (after RotateSecretRoute (rotation "4") integration_world)).
Proof.
  split; [exact integration_world_ok|]. split; [vm_compute; reflexivity|].
  destruct (integration_requests_refine sample_getenv no_file noon "10.0.0.1" RotateSecretRoute (rotation "4") integration_world
    (after RotateSecretRoute (rotation "4") integration_world)
    (fst (serve_sample_integration RotateSecretRoute (rotation "4") integration_world)) integration_world_ok (surjective_pairing _))
    as (_ & _ & [E|H]); [|exact H].
  assert (N : length (et_rows (ig_events (w_db (after RotateSecretRoute (rotation "4") integration_world))))
              <> length (et_rows (ig_events (w_db integration_world)))) by (vm_compute; discriminate).
  destruct N. by rewrite E.
Defined.

Definition sample_worker : Dispatcher := {| di_ApplicationKey := bytes_of key_text; di_MaxAttempts := 3; di_Backoff := [] |}.

#[local] Notation worker_of w := (World (worker_view (w_db w)) [] []).
#[local] Notation rotated_world := (after RotateSecretRoute (rotation "4") integration_world).

Definition creation (name : string) : Request :=
  work_request [("idProject", "1")]
    [("name", text_field name); ("adapter", text_field "slack"); ("url", text_field "https://hooks.example.com/x");
     ("secret", text_field "correct horse battery")].

Definition test_of (endpoint : string) : Request :=
  work_request [("idProject", "1"); ("integrationEndpoint", endpoint)] [].

(** An endpoint is created, a test delivery for it queued, and the worker turns twice:
    the delivery of the other endpoint, whose secret does not decrypt, fails; that of the
    new one is sent. *)
#[local] Notation created_world := (after CreateEndpointRoute (creation "new") integration_world).
#[local] Notation tested_world := (after TestEndpointRoute (test_of "6") created_world).
#[local] Notation turns := [(noon, sample_clock noon); (noon, sample_clock noon)].
#[local] Notation sent := (Run sample_worker turns (worker_of tested_world)).

Lemma given_secret_signs_witness :
  status CreateEndpointRoute (creation "new") integration_world = Some 201
  /\ map fst (sent_requests (w_db (snd sent))) = [3]
  /\ forall rq, In (3, rq) (sent_requests (w_db (snd sent))) ->
       exists ep dl body at_, rq = signed_request ep dl body "correct horse battery" at_.
Proof.
  split; [vm_compute; reflexivity|]. split; [vm_compute; reflexivity|]. intros rq Hin.
  destruct (serve_sample_integration CreateEndpointRoute (creation "new") integration_world) as [[reply|e] w'] eqn:E; [|vm_compute in E; discriminate E].
  cbn [snd] in Hin.
  destruct (rp_body reply) as [| | |[|x| |]|] eqn:B; try (exfalso; vm_compute in E; injection E as <- _; vm_compute in B; discriminate B).
  assert (X : ie_ID x = 6) by (vm_compute in E; injection E as <- _; vm_compute in B; injection B as <-; reflexivity).
  assert (W : w' = created_world) by (rewrite E; reflexivity).
  destruct (given_secret_signs sample_getenv no_file noon "10.0.0.1" CreateEndpointRoute (creation "new") "correct horse battery"
    integration_world w' reply x (w_db (after TestEndpointRoute (test_of "6") w')) sample_worker turns
    (worker_of (after TestEndpointRoute (test_of "6") w')) (snd (Run sample_worker turns (worker_of (after TestEndpointRoute (test_of "6") w'))))
    (fst (Run sample_worker turns (worker_of (after TestEndpointRoute (test_of "6") w'))))
    integration_world_ok ltac:(vm_compute; reflexivity) E B ltac:(vm_compute; reflexivity)) with (id := 3) (rq := rq)
    as (row & ep & dl & body & s & a & t & L & J & _ & _ & _ & Q & S).
  - apply rtc_once. eapply later_request; [reflexivity| |apply surjective_pairing]. discriminate.
  - reflexivity.
  - apply surjective_pairing.
  - exact Hin.
  - exists ep, dl, body, a. rewrite <- S; [exact Q|]. rewrite X, <- J.
    rewrite W in L. vm_compute in L. injection L as <-. reflexivity.
Defined.

(** ** Single requests *)

(** An endpoint whose metadata is null: the rotation assigns to a nil map. *)
Example rotation_of_null_metadata_panics :
  fst (serve_sample_integration RotateSecretRoute (rotation "5") integration_world) = Err (Panic "assignment to entry in nil map").
Proof. vm_compute. reflexivity. Qed.

(** The date of a rotation is redacted in the audit log, since its key has "secret" in it. *)
Example rotation_date_redacted :
  map ev_afterValues (et_rows (ig_events (w_db rotated_world)))
  = [Some (json_text "{'secret':'[REDACTED]','secretRotatedAt':'[REDACTED]'}")].
Proof. vm_compute. reflexivity. Qed.

(** A name that is taken is answered by 500. *)
Example taken_name_fails :
  status CreateEndpointRoute (creation "new") integration_world = Some 201
  /\ status CreateEndpointRoute (creation "hook") integration_world = Some 500.
Proof. split; vm_compute; reflexivity. Qed.

Definition about_endpoint : Request := work_request [("idProject", "1"); ("integrationEndpoint", "4")] [].

(** Two tests of a user in a second are one delivery. *)
Example second_test_is_the_first :
  let w1 := after TestEndpointRoute about_endpoint integration_world in
  let w2 := after TestEndpointRoute about_endpoint w1 in
  status TestEndpointRoute about_endpoint w1 = Some 202
  /\ (size (ig_deliveries (w_db w1)), size (ig_deliveries (w_db w2))) = (3%nat, 3%nat)
  /\ (length (et_rows (ig_events (w_db w1))), length (et_rows (ig_events (w_db w2)))) = (1%nat, 2%nat).
Proof. split; [|split]; vm_compute; reflexivity. Qed.

(** A replay keeps the attempts: a dead letter that is replayed has a single one. *)
#[local] Instance deaf_transport : Transport := {|
  Integrations.marshal := fun _ => Some "{}";
  format_nano := format_micros;
  json_time := fun t => JStr (format_micros t);
  newRequest := fun _ => true;
  client_do := fun _ => None;
|}.

Definition about_delivery : Request := work_request [("idProject", "1"); ("integrationDelivery", "1")] [].

Definition standing (d : DeliveryRow) : string * Z := (dl_Status (dr_delivery d), dl_Attempts (dr_delivery d)).

Example replayed_dead_letter_has_one_attempt :
  let w := after ReplayRoute about_delivery rotated_world in
  status ReplayRoute about_delivery rotated_world = Some 202
  /\ standing <$> deliveries (worker_view (w_db w)) !! 1 = Some ("pending", 3)
  /\ standing <$> deliveries (w_db (snd (Dispatch sample_worker (sample_clock 5) 1 (worker_of w)))) !! 1 = Some ("dead_letter", 4).
Proof. split; [|split]; vm_compute; reflexivity. Qed.
