(* ===== verification/Grid.v ===== *)
(** * Grid operations: query snapshots and bulk jobs on projects

    The grid part of internal/persistence/mysql/browser_auth.go and the grid routes of
    internal/browserauth/admin.go.  A snapshot keeps the projects that a query selects for
    a quarter of an hour; a job archives, tags or exports those that are still there. *)

From stdpp Require Import pretty sorting.
From S2P Require Import Prelude GoStrings GoTime Json Redaction Effects.
From S2P Require Import JsonText JsonRoundTrip Http Contracts AccountTables Sessions Accounts Sql Desk AuditEvents Workspace.
From S2P Require Results.

(** ** Tables *)
Record SnapshotRow := {
  sn_id : string;
  sn_idCostumer : Z;
  sn_actorUserId : Z;
  sn_resourceType : string;
  sn_query : string;
  sn_entityIds : string;
  sn_total : Z;
  sn_expiresAt : time;
  sn_created_at : option time;
  sn_updated_at : option time;
}.

Record JobRow := {
  jb_id : string;
  jb_querySnapshotId : string;
  jb_idCostumer : Z;
  jb_actorUserId : Z;
  jb_resourceType : string;
  jb_action : string;
  jb_status : string;
  jb_payload : option string;
  jb_requestedCount : Z;
  jb_processedCount : Z;
  jb_failedCount : Z;
  jb_result : option string;
  jb_created_at : option time;
  jb_updated_at : option time;
}.

(** The columns archivedAt and tags of the projects are kept by their identifier. *)
Record GridTables := {
  gr_accounts : AccountTables;
  gr_events : EventTable;
  gr_archivedAt : gmap Z time;
  gr_tags : gmap Z string;
  gr_snapshots : list SnapshotRow;
  gr_jobs : list JobRow;
}.

#[export] Instance grid_desk : Desk GridTables := {|
  accounts := gr_accounts;
  with_accounts a d := {| gr_accounts := a; gr_events := gr_events d; gr_archivedAt := gr_archivedAt d; gr_tags := gr_tags d;
                          gr_snapshots := gr_snapshots d; gr_jobs := gr_jobs d |};
  events := gr_events;
  with_events t d := {| gr_accounts := gr_accounts d; gr_events := t; gr_archivedAt := gr_archivedAt d; gr_tags := gr_tags d;
                        gr_snapshots := gr_snapshots d; gr_jobs := gr_jobs d |};
|}.

#[export] Instance grid_desk_laws : DeskLaws GridTables.
Proof. split; [by intros []|done..]. Qed.

Definition grid_projects (d : GridTables) : list ProjectRow := at_projects (gr_accounts d).

(** The projects with their two columns. *)
Definition set_grid (l : list ProjectRow) (archived : gmap Z time) (tags : gmap Z string) (d : GridTables) : GridTables :=
  {| gr_accounts := with_projects l (gr_accounts d); gr_events := gr_events d; gr_archivedAt := archived; gr_tags := tags;
     gr_snapshots := gr_snapshots d; gr_jobs := gr_jobs d |}.

Definition add_snapshot (s : SnapshotRow) (d : GridTables) : GridTables :=
  {| gr_accounts := gr_accounts d; gr_events := gr_events d; gr_archivedAt := gr_archivedAt d; gr_tags := gr_tags d;
     gr_snapshots := gr_snapshots d ++ [s]; gr_jobs := gr_jobs d |}.

Definition add_job (j : JobRow) (d : GridTables) : GridTables :=
  {| gr_accounts := gr_accounts d; gr_events := gr_events d; gr_archivedAt := gr_archivedAt d; gr_tags := gr_tags d;
     gr_snapshots := gr_snapshots d; gr_jobs := gr_jobs d ++ [j] |}.

(** ** Structs *)
Record GridQuery := {
  gd_Search : string;
  gd_Sort : string;
  gd_Direction : string;
  gd_Filters : option (dict json);
  gd_Raw : dict json;
}.

Record GridQuerySnapshot := { qs_ID : string; qs_ResourceType : string; qs_Total : Z; qs_ExpiresAt : time }.

Record GridBulkJobCreate := {
  gc_QuerySnapshotID : string;
  gc_Action : string;
  gc_Tags : list string;
  gc_Payload : option (dict json);
}.

Record GridBulkJob := {
  bj_ID : string;
  bj_ResourceType : string;
  bj_Action : string;
  bj_Status : string;
  bj_RequestedCount : Z;
  bj_ProcessedCount : Z;
  bj_FailedCount : Z;
  bj_Result : option (dict json);
}.

Record GridBulkExport := { ge_Filename : string; ge_Payload : string }.

Definition maxGridSnapshotRows : nat := 1000.

(** ** Texts *)

(** [json.Marshal] and [json.Unmarshal] of a [[]int64]. *)
Definition ids_text (ids : list Z) : string := "[" +:+ join "," (map pretty ids) +:+ "]".

Definition id_element (v : syntax) : option Z :=
  match v with SNum t => parseInt t | SNull => Some 0 | _ => None end.

Fixpoint id_elements (l : list syntax) : option (list Z) :=
  match l with [] => Some [] | v :: l' => z ← id_element v; cons z <$> id_elements l' end.

Definition unmarshal_ids (text : string) : option (list Z) :=
  match parse_text text with
  | Some SNull => Some []
  | Some (SArr l) => id_elements l
  | _ => None
  end.

(** [_ = json.Unmarshal(text, &tags)] into an empty [[]string]: an element that is no
    string is left empty, and a value that is no array leaves the slice. *)
Definition unmarshal_tags (text : string) : list string :=
  match parse_text text with
  | Some (SArr l) => map (fun v => match v with SStr s => s | _ => "" end) l
  | _ => []
  end.

(** The loop over the tags: each once, where it is first. *)
Definition merged_tags (values : list string) : list string :=
  fst (fold_left (fun '(merged, seen) tag =>
    if existsb (String.eqb tag) seen then (merged, seen) else ((merged ++ [tag])%list, tag :: seen)) values ([], [])).

(** *** CSV: [csv.Writer] of encoding/csv *)
Definition comma : ascii := ","%char.
Definition line_feed : ascii := byte 10.
Definition carriage_return : ascii := byte 13.

Definition special (c : ascii) : bool :=
  Ascii.eqb c line_feed || Ascii.eqb c carriage_return || Ascii.eqb c quote || Ascii.eqb c comma.

(** [Writer.fieldNeedsQuotes]: [unicode.IsSpace] of the first rune among them. *)
Definition fieldNeedsQuotes (field : list ascii) : bool :=
  match field with
  | [] => false
  | _ => bool_decide (field = [backslash; "."%char]) || existsb special field
         || match strip_one space_encodings field with Some _ => true | None => false end
  end.

Definition csv_field (field : list ascii) : list ascii :=
  if fieldNeedsQuotes field
  then (quote :: concat (map (fun c => if Ascii.eqb c quote then [quote; quote] else [c]) field) ++ [quote])%list
  else field.

Fixpoint csv_fields (fields : list (list ascii)) : list ascii :=
  match fields with
  | [] => []
  | [f] => csv_field f
  | f :: rest => (csv_field f ++ comma :: csv_fields rest)%list
  end.

Definition csv_record (fields : list string) : list ascii := (csv_fields (map chars fields) ++ [line_feed])%list.

(** [safeCSVValue]. *)
Definition safeCSVValue (value : string) : string :=
  match chars value with
  | c :: _ => if existsb (Ascii.eqb c) ["="; "+"; "-"; "@"]%char then "'" +:+ value else value
  | [] => value
  end.

(** time.RFC3339, in UTC. *)
Definition archived_text (t : time) : string := of_chars (Results.date_time "T"%char (t - t mod second) ++ ["Z"%char])%list.

(** The five fields of a project. *)
Definition project_fields (archived : option time) (tags : option string) (p : ProjectRow) : list string :=
  [pretty (pr_id p); safeCSVValue (pr_name p); safeCSVValue (default "" (pr_description p));
   from_option archived_text "" archived; join "," (from_option unmarshal_tags [] tags)].

(** ** The repository *)
Section Repository.
Context `{MS : MySQL} `{F : Floats} `{JC : JsonColumn}.
Context (now : time) (sourceIP : string).
Notation R := (M GridTables).

(** *** Snapshots *)

(** [filters["id"].(float64)], of which the handler lets integers pass. *)
Definition id_filter (filters : option (dict json)) : option Z :=
  match jidx (default [] filters) "id" with JNum x => f_int x | _ => None end.

Definition name_filter (filters : option (dict json)) : option string :=
  match jidx (default [] filters) "name" with JStr s => Some s | _ => None end.

Definition snapshot_selects (tenantID : Z) (q : GridQuery) (archived : gmap Z time) (p : ProjectRow) : bool :=
  let pattern := "%" +:+ gd_Search q +:+ "%" in
  (pr_idCostumer p =? tenantID) && bool_decide (archived !! pr_id p = None)
  && (String.eqb (gd_Search q) "" || like (pr_name p) pattern || from_option (fun s => like s pattern) false (pr_description p))
  && from_option (fun id => pr_id p =? id) true (id_filter (gd_Filters q))
  && from_option (fun name => same (pr_name p) name) true (name_filter (gd_Filters q)).

(** The column that is sorted by; NULL comes first. *)
Definition project_le (sort : string) (a b : ProjectRow) : bool :=
  if String.eqb sort "name" then text_le (pr_name a) (pr_name b)
  else if String.eqb sort "description" then
    match pr_description a, pr_description b with
    | None, _ => true | Some _, None => false | Some x, Some y => text_le x y
    end
  else if String.eqb sort "created_at" then null_first (pr_created_at a) (pr_created_at b)
  else if String.eqb sort "updated_at" then null_first (pr_updated_at a) (pr_updated_at b)
  else pr_id a <=? pr_id b.

(** ORDER BY column direction, id. *)
Definition snapshot_le (q : GridQuery) (a b : ProjectRow) : bool :=
  let le := directed (gd_Direction q) (project_le (gd_Sort q)) in
  if le a b then (if le b a then pr_id a <=? pr_id b else true) else false.

Definition snapshot_ids (tenantID : Z) (q : GridQuery) (d : GridTables) : list Z :=
  take (S maxGridSnapshotRows) (map pr_id (order_by (snapshot_le q)
    (List.filter (snapshot_selects tenantID q (gr_archivedAt d)) (grid_projects d)))).

Definition quarter : Z := 15 * minute.

Definition new_snapshot (id : string) (actor : User) (resourceType query entities : string) (total : Z) : SnapshotRow :=
  {| sn_id := id; sn_idCostumer := activeTenant actor; sn_actorUserId := u_ID actor; sn_resourceType := resourceType;
     sn_query := query; sn_entityIds := entities; sn_total := total; sn_expiresAt := column_time (now + quarter);
     sn_created_at := Some (column_time now); sn_updated_at := Some (column_time now) |}.

(** [randomUUID]. *)
Definition grid_uuid : R string := zoom accounts with_accounts Accounts.randomUUID.

Definition CreateGridQuerySnapshot (actor : User) (resourceType : string) (q : GridQuery) : R GridQuerySnapshot :=
  let! ids := query "select browser grid snapshot projects" (snapshot_ids (activeTenant actor) q) in
  if (maxGridSnapshotRows <? length ids)%nat
  then fail (ValidationFailure [("query", ["The matching result exceeds the bulk operation limit."])])
  else
    let! id := grid_uuid in
    let total := Z.of_nat (length ids) in
    let! _ := exec_refusable "create browser grid query snapshot" (fun d =>
      query ← json_column (marshal (JObj (gd_Raw q)));
      entities ← json_column (ids_text ids);
      if existsb (fun s => same (sn_id s) id) (gr_snapshots d) then None
      else Some (add_snapshot (new_snapshot id actor resourceType query entities total) d, 0)) in
    ret {| qs_ID := id; qs_ResourceType := resourceType; qs_Total := total; qs_ExpiresAt := now + quarter |}.

(** [loadGridSnapshot]: the row and its identifiers. *)
Definition own_snapshot (actor : User) (id : string) (s : SnapshotRow) : bool :=
  same (sn_id s) id && (sn_idCostumer s =? activeTenant actor) && (sn_actorUserId s =? u_ID actor) && (now <? sn_expiresAt s).

Definition loadGridSnapshot (actor : User) (id : string) : R (SnapshotRow * list Z) :=
  let! row := query "load browser grid query snapshot" (fun d => List.find (own_snapshot actor id) (gr_snapshots d)) in
  match row with
  | None => fail ErrNotFound
  | Some s =>
      match unmarshal_ids (sn_entityIds s) with
      | None => fail (DatabaseFailure (safeDatabaseFailure "decode browser grid query snapshot entities" (OtherFault "json")))
      | Some ids => ret (s, ids)
      end
  end.

(** *** Jobs *)

(** The first loop: the projects that are still the customer's. *)
Fixpoint processed_of (tenantID : Z) (ids : list Z) : R (list Z) :=
  match ids with
  | [] => ret []
  | id :: ids' =>
      let! found := query "check browser grid bulk project ownership" (fun d => existsb (owns tenantID id) (grid_projects d)) in
      let! rest := processed_of tenantID ids' in
      ret (if found then id :: rest else rest)
  end.

Definition touch_project (tenantID id : Z) (p : ProjectRow) : ProjectRow :=
  if owns tenantID id p
  then {| pr_id := pr_id p; pr_name := pr_name p; pr_description := pr_description p; pr_idCostumer := pr_idCostumer p;
          pr_created_at := pr_created_at p; pr_updated_at := Some (column_time now) |}
  else p.

Definition archive_project (tenantID id : Z) (d : GridTables) : GridTables :=
  if existsb (owns tenantID id) (grid_projects d)
  then set_grid (map (touch_project tenantID id) (grid_projects d)) (<[id := column_time now]> (gr_archivedAt d)) (gr_tags d) d
  else d.

Definition tag_project (tenantID id : Z) (text : string) (d : GridTables) : GridTables :=
  if existsb (owns tenantID id) (grid_projects d)
  then set_grid (map (touch_project tenantID id) (grid_projects d)) (gr_archivedAt d) (<[id := text]> (gr_tags d)) d
  else d.

Fixpoint archive_all (tenantID : Z) (ids : list Z) : R unit :=
  match ids with
  | [] => ret tt
  | id :: ids' =>
      do! exec "archive browser grid bulk project" (archive_project tenantID id);
      archive_all tenantID ids'
  end.

Definition tags_of (id : Z) (d : GridTables) : list string := from_option unmarshal_tags [] (gr_tags d !! id).

Definition strings_text (l : list string) : string := marshal (JArr (map JStr l)).

Fixpoint tag_all (tenantID : Z) (tags : list string) (ids : list Z) : R unit :=
  match ids with
  | [] => ret tt
  | id :: ids' =>
      let! current := query "load browser grid bulk project tags" (fun d =>
        if existsb (owns tenantID id) (grid_projects d) then Some (tags_of id d) else None) in
      match current with
      | None => fail (DatabaseFailure (safeDatabaseFailure "load browser grid bulk project tags" (OtherFault "no rows")))
      | Some current =>
          let! _ := exec_refusable "tag browser grid bulk project" (fun d =>
            text ← json_column (strings_text (merged_tags (current ++ tags)));
            Some (tag_project tenantID id text d, 0)) in
          tag_all tenantID tags ids'
      end
  end.

(** What the action does to the projects. *)
Definition run_action (actor : User) (input : GridBulkJobCreate) (ids : list Z) : R unit :=
  if String.eqb (gc_Action input) "archive" then archive_all (activeTenant actor) ids
  else if String.eqb (gc_Action input) "tag" then tag_all (activeTenant actor) (gc_Tags input) ids
  else ret tt.

Definition missing_of (ids processed : list Z) : list Z := List.filter (fun id => negb (existsb (Z.eqb id) processed)) ids.

Definition job_result (action : string) (missing : list Z) : dict json :=
  [("exportAvailable", JBool (String.eqb action "export")); ("failedEntityIds", JArr (map jint missing))].

Definition job_status (total processed : Z) : string := if 0 <? total - processed then "partial" else "completed".

Definition new_job (id : string) (snapshot : SnapshotRow) (actor : User) (input : GridBulkJobCreate) (processed : Z)
    (payload : option string) (result : string) : JobRow :=
  {| jb_id := id; jb_querySnapshotId := sn_id snapshot; jb_idCostumer := activeTenant actor; jb_actorUserId := u_ID actor;
     jb_resourceType := sn_resourceType snapshot; jb_action := gc_Action input; jb_status := job_status (sn_total snapshot) processed;
     jb_payload := payload; jb_requestedCount := sn_total snapshot; jb_processedCount := processed;
     jb_failedCount := sn_total snapshot - processed; jb_result := Some result;
     jb_created_at := Some (column_time now); jb_updated_at := Some (column_time now) |}.

(** The audit event of a job has no project, and its target is the job. *)
Definition job_event (actor : User) (job : JobRow) (correlationId : string) (d : GridTables) : option EventRow :=
  before ← json_column "{}";
  after ← json_column (redacted_text (dict_of_list
    [("requestedCount", jint (jb_requestedCount job)); ("processedCount", jint (jb_processedCount job));
     ("failedCount", jint (jb_failedCount job)); ("status", JStr (jb_status job))]));
  Some {| ev_id := et_next (gr_events d); ev_actorUserId := Some (u_ID actor); ev_actorTenantId := Some (u_TenantID actor);
          ev_activeTenantId := activeTenant actor; ev_idProject := None; ev_action := "grid.bulk." +:+ jb_action job;
          ev_targetType := jb_resourceType job; ev_targetId := Some (jb_id job); ev_beforeValues := Some before;
          ev_afterValues := Some after; ev_result := "success"; ev_sourceIp := Some sourceIP; ev_correlationId := correlationId;
          ev_metadata := None; ev_created_at := column_time now |}.

Definition insert_job (job : JobRow) (d : GridTables) : option (GridTables * Z) :=
  if existsb (fun j => same (jb_id j) (jb_id job)) (gr_jobs d) then None else Some (add_job job d, 0).

(** What [GetGridBulkJob] reads of a row. *)
Definition bulk_job (job : JobRow) (result : option (dict json)) : GridBulkJob :=
  {| bj_ID := jb_id job; bj_ResourceType := jb_resourceType job; bj_Action := jb_action job; bj_Status := jb_status job;
     bj_RequestedCount := jb_requestedCount job; bj_ProcessedCount := jb_processedCount job;
     bj_FailedCount := jb_failedCount job; bj_Result := result |}.

(** The row of the job, when its JSON columns take their texts. *)
Definition job_row (id : string) (snapshot : SnapshotRow) (actor : User) (input : GridBulkJobCreate) (processed : Z)
    (result : dict json) : option JobRow :=
  payload ← json_nullable ((fun p => marshal (JObj p)) <$> gc_Payload input);
  text ← json_column (marshal (JObj result));
  Some (new_job id snapshot actor input processed payload text).

Definition CreateGridBulkJob (r : Request) (actor : User) (input : GridBulkJobCreate) : R GridBulkJob :=
  transaction "start browser grid bulk job" "commit browser grid bulk job" (
    let! (snapshot, ids) := loadGridSnapshot actor (gc_QuerySnapshotID input) in
    let! processed := processed_of (activeTenant actor) ids in
    do! run_action actor input processed;
    let count := Z.of_nat (length processed) in
    let result := job_result (gc_Action input) (missing_of ids processed) in
    let! id := grid_uuid in
    let job := job_row id snapshot actor input count result in
    let! _ := exec_refusable "create browser grid bulk job" (fun d => job ← job; insert_job job d) in
    let! correlationId := correlation r in
    let! _ := exec_refusable "record browser grid bulk audit" (fun d =>
      job ← job; row ← job_event actor job correlationId d; Some (add_event row d, ev_id row)) in
    ret {| bj_ID := id; bj_ResourceType := sn_resourceType snapshot; bj_Action := gc_Action input;
           bj_Status := job_status (sn_total snapshot) count; bj_RequestedCount := sn_total snapshot;
           bj_ProcessedCount := count; bj_FailedCount := sn_total snapshot - count; bj_Result := Some result |}).

Definition own_job (actor : User) (id : string) (j : JobRow) : bool :=
  same (jb_id j) id && (jb_idCostumer j =? activeTenant actor) && (jb_actorUserId j =? u_ID actor).

(** [loadGridJob] and [GetGridBulkJob]; a result that is NULL is not scanned into a string. *)
Definition GetGridBulkJob (actor : User) (id : string) : R GridBulkJob :=
  let! row := query "load browser grid bulk job" (fun d => List.find (own_job actor id) (gr_jobs d)) in
  match row with
  | None => fail ErrNotFound
  | Some job =>
      match jb_result job with
      | None => fail (DatabaseFailure (safeDatabaseFailure "load browser grid bulk job" (OtherFault "scan")))
      | Some text =>
          match unmarshalAny text with
          | Some (JObj result) => ret (bulk_job job (Some result))
          | Some JNull => ret (bulk_job job None)
          | _ => fail (DatabaseFailure (safeDatabaseFailure "decode browser grid bulk job result" (OtherFault "json")))
          end
      end
  end.

(** *** The export *)
Definition exported_fields (d : GridTables) (p : ProjectRow) : list string :=
  project_fields (gr_archivedAt d !! pr_id p) (gr_tags d !! pr_id p) p.

(** The records of the projects that are found. *)
Fixpoint export_records (tenantID : Z) (ids : list Z) : R (list (list string)) :=
  match ids with
  | [] => ret []
  | id :: ids' =>
      let! row := query "load browser grid export project" (fun d =>
        exported_fields d <$> List.find (owns tenantID id) (grid_projects d)) in
      let! rest := export_records tenantID ids' in
      ret (match row with Some fields => fields :: rest | None => rest end)
  end.

Definition csv_header : list string := ["id"; "name"; "description"; "archivedAt"; "tags"].

Definition csv_text (records : list (list string)) : string := of_chars (concat (map csv_record records)).

Definition ExportGridBulkJob (actor : User) (jobID : string) : R GridBulkExport :=
  let! job := GetGridBulkJob actor jobID in
  if negb (String.eqb (bj_Action job) "export") || negb (String.eqb (bj_Status job) "completed") then fail ErrConflict
  else
    let! snapshotID := query "load browser grid export snapshot id" (fun d =>
      jb_querySnapshotId <$> List.find (own_job actor jobID) (gr_jobs d)) in
    match snapshotID with
    | None => fail (DatabaseFailure (safeDatabaseFailure "load browser grid export snapshot id" (OtherFault "no rows")))
    | Some snapshotID =>
        do! round_trip "start browser grid export";
        let! (_, ids) := loadGridSnapshot actor snapshotID in
        let! records := export_records (activeTenant actor) ids in
        ret {| ge_Filename := "idelium-projects-" +:+ jobID +:+ ".csv"; ge_Payload := csv_text (csv_header :: records) |}
    end.
End Repository.

(** ** Validation *)
Definition invalid_number (v : json) : bool :=
  match v with JNum x => match f_int x with Some z => z <? 1 | None => true end | _ => true end.

Definition invalid_name (v : json) : bool := match v with JStr s => 200 <? slen s | _ => true end.

(** [validateGridSnapshotInput]. *)
Definition validateGridSnapshotInput (resourceType query search sort direction : string) (filters : option (dict json))
    : list (string * list string) :=
  let filters := default [] filters in
  ((if negb (String.eqb resourceType "projects") then [("resourceType", ["The selected resource type is invalid."])] else [])
   ++ (if (200 <? slen query) || (200 <? slen search) then [("query", ["The query must not exceed 200 characters."])] else [])
   ++ (if negb (existsb (String.eqb sort) [""; "id"; "name"; "description"; "created_at"; "updated_at"])
       then [("query.sort", ["The selected query sort is invalid."])] else [])
   ++ (if negb (existsb (String.eqb direction) [""; "asc"; "desc"])
       then [("query.direction", ["The selected query direction is invalid."])] else [])
   ++ (if existsb (fun kv => negb (existsb (String.eqb (fst kv)) ["id"; "name"])) filters
       then [("query.f", ["The query filter is invalid."])] else [])
   ++ (if existsb (fun kv => String.eqb (fst kv) "name" && invalid_name (snd kv)) filters
       then [("query.f.name", ["The query name filter is invalid."])] else [])
   ++ (if existsb (fun kv => String.eqb (fst kv) "id" && invalid_number (snd kv)) filters
       then [("query.f.id", ["The query id filter is invalid."])] else []))%list.

(** [gridUUIDPattern] and [gridTagPattern]. *)
Definition gridUUIDPattern : string -> bool := uuid_pattern (within 49 53).

Definition tag_char (c : ascii) : bool :=
  within 97 122 c || within 65 90 c || within 48 57 c || existsb (Ascii.eqb c) ["_"; "."; ":"; "-"]%char.

Definition gridTagPattern (s : string) : bool := negb (String.eqb s "") && forallb tag_char (chars s).

Definition valid_tag (v : json) : option string :=
  match v with JStr tag => if (40 <? slen tag) || negb (gridTagPattern tag) then None else Some tag | _ => None end.

(** The loop over the tags: those before the first that is not valid, each once, and
    whether all are. *)
Fixpoint valid_tags (l : list json) (tags : list string) : list string * bool :=
  match l with
  | [] => (tags, true)
  | v :: l' =>
      match valid_tag v with
      | None => (tags, false)
      | Some tag => valid_tags l' (if existsb (String.eqb tag) tags then tags else (tags ++ [tag])%list)
      end
  end.

(** [validateGridJobInput]: the snapshot and the action, and then the tags. *)
Definition job_failures (snapshotID action : string) : list (string * list string) :=
  ((if negb (gridUUIDPattern snapshotID) then [("querySnapshotId", ["The query snapshot id must be a valid UUID."])] else [])
   ++ (if negb (existsb (String.eqb action) ["archive"; "export"; "tag"]) then [("action", ["The selected action is invalid."])] else []))%list.

Definition validateGridJobInput (snapshotID action : string) (payload : option (dict json))
    : list string * list (string * list string) :=
  let failures := job_failures snapshotID action in
  if String.eqb action "tag" then
    match jidx (default [] payload) "tags" with
    | JArr ((_ :: _) as rawTags) =>
        if (10 <? length rawTags)%nat
        then ([], (failures ++ [("payload.tags", ["The payload tags field must contain between 1 and 10 items."])])%list)
        else
          let '(tags, valid) := valid_tags rawTags [] in
          (tags, (failures ++ if valid then [] else [("payload.tags", ["The payload tags format is invalid."])])%list)
    | _ => ([], (failures ++ [("payload.tags", ["The payload tags field must contain between 1 and 10 items."])])%list)
    end
  else ([], failures).

(** ** The routes *)
Inductive grid_data :=
| GrSnapshot (x : GridQuerySnapshot)
| GrJob (x : GridBulkJob)
| GrTooLarge                       (** GRID_SNAPSHOT_TOO_LARGE, with the limit *)
| GrFile (x : GridBulkExport).     (** text/csv, as an attachment *)

Notation greply := (desk_reply_of grid_data).

Record query_body := { qb_Q : string; qb_Search : string; qb_Sort : string; qb_Direction : string; qb_Filters : option (dict json) }.
Record snapshot_body := { sb_ResourceType : string; sb_Query : query_body }.

Definition no_query : query_body := {| qb_Q := ""; qb_Search := ""; qb_Sort := ""; qb_Direction := ""; qb_Filters := None |}.

Definition query_fields : list (string * setter query_body) :=
  [("q", to_string (fun s b => {| qb_Q := s; qb_Search := qb_Search b; qb_Sort := qb_Sort b; qb_Direction := qb_Direction b; qb_Filters := qb_Filters b |}));
   ("search", to_string (fun s b => {| qb_Q := qb_Q b; qb_Search := s; qb_Sort := qb_Sort b; qb_Direction := qb_Direction b; qb_Filters := qb_Filters b |}));
   ("sort", to_string (fun s b => {| qb_Q := qb_Q b; qb_Search := qb_Search b; qb_Sort := s; qb_Direction := qb_Direction b; qb_Filters := qb_Filters b |}));
   ("direction", to_string (fun s b => {| qb_Q := qb_Q b; qb_Search := qb_Search b; qb_Sort := qb_Sort b; qb_Direction := s; qb_Filters := qb_Filters b |}));
   ("f", to_map qb_Filters (fun m b => {| qb_Q := qb_Q b; qb_Search := qb_Search b; qb_Sort := qb_Sort b; qb_Direction := qb_Direction b; qb_Filters := m |}))].

(** A struct in a struct: its members are decoded in the same way. *)
Definition to_struct {A S} (fields : list (string * setter A)) (get : S -> A) (upd : A -> S -> S) : setter S := fun v s =>
  match fl_value v with
  | JObj d => (fun a => upd a s) <$> decode_members true fields (map (fun kv => (fst kv, {| fl_value := snd kv; fl_int := None |})) d) (get s)
  | JNull => Some s
  | _ => None
  end.

Definition snapshot_fields : list (string * setter snapshot_body) :=
  [("resourceType", to_string (fun s b => {| sb_ResourceType := s; sb_Query := sb_Query b |}));
   ("query", to_struct query_fields sb_Query (fun q b => {| sb_ResourceType := sb_ResourceType b; sb_Query := q |}))].

Record job_body := { jc_Snapshot : string; jc_Action : string; jc_Payload : option (dict json) }.

Definition job_fields : list (string * setter job_body) :=
  [("querySnapshotId", to_string (fun s b => {| jc_Snapshot := s; jc_Action := jc_Action b; jc_Payload := jc_Payload b |}));
   ("action", to_string (fun s b => {| jc_Snapshot := jc_Snapshot b; jc_Action := s; jc_Payload := jc_Payload b |}));
   ("payload", to_map jc_Payload (fun m b => {| jc_Snapshot := jc_Snapshot b; jc_Action := jc_Action b; jc_Payload := m |}))].

Section Handlers.
Context `{MS : MySQL} `{F : Floats} `{JC : JsonColumn}.
Context (now : time) (sourceIP : string).
Notation H := (M GridTables greply).

(** The query as it was given: encoded, and decoded into a map. *)
Definition raw_query (b : query_body) : dict json :=
  let encoded := marshal (JObj [("direction", JStr (qb_Direction b)); ("f", from_option JObj JNull (qb_Filters b));
                                ("q", JStr (qb_Q b)); ("search", JStr (qb_Search b)); ("sort", JStr (qb_Sort b))]) in
  match unmarshalAny encoded with Some (JObj d) => d | _ => [] end.

Definition grid_query (b : query_body) : GridQuery :=
  let search := trimSpace (qb_Q b) in
  {| gd_Search := if String.eqb search "" then trimSpace (qb_Search b) else search;
     gd_Sort := if String.eqb (qb_Sort b) "" then "id" else qb_Sort b;
     gd_Direction := if String.eqb (qb_Direction b) "" then "asc" else qb_Direction b;
     gd_Filters := qb_Filters b; gd_Raw := raw_query b |}.

Definition PostQuerySnapshot (r : Request) : H :=
  requireAnyCapability now r ["projects.read"; "projects.manage"] (fun user =>
    match decode_body snapshot_fields {| sb_ResourceType := ""; sb_Query := no_query |} r with
    | None => ret desk_unwritten
    | Some b =>
        let q := sb_Query b in
        match validateGridSnapshotInput (sb_ResourceType b) (qb_Q q) (qb_Search q) (qb_Sort q) (qb_Direction q) (qb_Filters q) with
        | [] =>
            let! x := attempt (CreateGridQuerySnapshot now user (sb_ResourceType b) (grid_query q)) in
            ret (match x with
                 | Ok s => written 201 (DData (GrSnapshot s))
                 | Err (ValidationFailure _) => written 422 (DData GrTooLarge)
                 | Err _ => desk_failed
                 end)
        | failures => ret (desk_errors failures)
        end
    end).

Definition PostBulkJob (r : Request) : H :=
  signed_in now r (fun user =>
    match decode_body job_fields {| jc_Snapshot := ""; jc_Action := ""; jc_Payload := None |} r with
    | None => ret desk_unwritten
    | Some b =>
        let '(tags, failures) := validateGridJobInput (jc_Snapshot b) (jc_Action b) (jc_Payload b) in
        match failures with
        | [] =>
            let required := if String.eqb (jc_Action b) "export" then "projects.read" else "projects.manage" in
            requireAnyCapabilityForUser user [required; "projects.manage"] (
              let! x := attempt (CreateGridBulkJob now sourceIP r user
                {| gc_QuerySnapshotID := jc_Snapshot b; gc_Action := jc_Action b; gc_Tags := tags; gc_Payload := jc_Payload b |}) in
              ret (match x with
                   | Ok j => written 202 (DData (GrJob j))
                   | Err ErrNotFound => desk_notFound
                   | Err _ => desk_failed
                   end))
        | _ => ret (desk_errors failures)
        end
    end).

Definition ShowGridBulkJob (r : Request) : H :=
  signed_in now r (fun user =>
    let jobID := pathValue r "jobId" in
    if negb (gridUUIDPattern jobID) then ret desk_notFound
    else
      let! x := attempt (GetGridBulkJob user jobID) in
      ret (match x with
           | Ok j => written 200 (DData (GrJob j))
           | Err ErrNotFound => desk_notFound
           | Err _ => desk_failed
           end)).

Definition GetGridExport (r : Request) : H :=
  requireAnyCapability now r ["projects.read"; "projects.manage"] (fun user =>
    let jobID := pathValue r "jobId" in
    if negb (gridUUIDPattern jobID) then ret desk_notFound
    else
      let! x := attempt (ExportGridBulkJob now user jobID) in
      ret (match x with
           | Ok e => written 200 (DData (GrFile e))
           | Err ErrNotFound => desk_notFound
           | Err ErrConflict => written 409 (DMessage "The export is not available.")
           | Err _ => desk_failed
           end)).

Inductive grid_route := SnapshotRoute | BulkJobRoute | ShowJobRoute | ExportJobRoute.

Definition serve_grid (rt : grid_route) : Request -> H :=
  match rt with
  | SnapshotRoute => PostQuerySnapshot
  | BulkJobRoute => PostBulkJob
  | ShowJobRoute => ShowGridBulkJob
  | ExportJobRoute => GetGridExport
  end.
End Handlers.
