(* ===== verification/GridTheorems.v ===== *)
(** * Theorems about grid operations

    What a snapshot selects, what a job does to the projects that are still there, and
    that the export of a job, read as CSV, gives the projects back. *)

From stdpp Require Import pretty sorting.
From S2P Require Import Prelude GoStrings GoTime Json Redaction Effects.
From S2P Require Import JsonText JsonRoundTrip Http Contracts AccountTables Sessions Accounts Sql AccountTheorems Desk AuditEvents Workspace Grid.
From S2P Require Import Paging RunTheorems CliTheorems SessionTheorems AccountHandlers WorkspaceReads EvidenceExports.

(** ** Arrays of integers *)
#[local] Instance integers : Floats := {|
  parseFloat t := z ← parseInt t; if String.eqb (pretty z) t then Some (Float64 (Some z) t t) else None;
  jsonFloat x := f_print x;
|}.

Lemma integer_parsed t x : @parseFloat integers t = Some x -> f_print x = t.
Proof. cbn. intros (z & _ & H)%bind_Some. destruct (String.eqb _ t); [by injection H as <-|done]. Qed.

#[local] Instance integers_laws : FloatsLaws integers.
Proof.
  split; intros t x L E; pose proof (integer_parsed t x E) as X; change (@jsonFloat integers x) with (f_print x); by rewrite X.
Qed.

Lemma join_comma l : chars (join "," l) = comma_separated (map chars l).
Proof.
  induction l as [|x [|y l] IH]; [done|done|].
  change (join "," (x :: y :: l)) with (x +:+ "," +:+ join "," (y :: l)). by rewrite !chars_app, IH.
Qed.

Lemma ids_text_marshal ids : ids_text ids = marshal (JArr (map jint ids)).
Proof.
  unfold marshal, ids_text. rewrite <- (of_chars_chars (_ +:+ _)). f_equal. rewrite !chars_app, join_comma. cbn [marshal_chars]. by rewrite !map_map.
Qed.

Lemma ids_read_back ids : Forall (fun z => in_int64 z = true) ids -> unmarshal_ids (ids_text ids) = Some ids.
Proof.
  intros H. unfold unmarshal_ids. rewrite ids_text_marshal.
  assert (W : wf_json (JArr (map jint ids))).
  { apply wf_arr, List.Forall_map. eapply List.Forall_impl; [|exact H]. intros z Hz. exists (pretty z). split; [apply pretty_literal|].
    cbn. rewrite (parseInt_pretty z Hz). cbn. by rewrite String.eqb_refl. }
  rewrite parse_marshal; [|exact W|].
  - cbn [syntax_of]. rewrite map_map. cbn. induction H as [|z ids Hz _ IH]; [done|]. cbn. rewrite (parseInt_pretty z Hz). cbn.
    inversion W. rewrite IH; [done|]. apply wf_arr. apply wf_arr in W. by inversion W.
  - cbn [height]. rewrite map_map. cbn. enough (max_of (map (fun _ : Z => 0) ids) <= 0) by (unfold maxNestingDepth; lia).
    apply max_of_le; [done|]. apply List.Forall_map. by apply List.Forall_forall.
Qed.

(** ** Reading CSV

    A reader of the format, independent of the writer: a field is plain up to a special
    byte, or between quotes with quotes doubled. *)
Fixpoint quoted_rest (l : list ascii) : option (list ascii * list ascii) :=
  match l with
  | [] => None
  | c :: l1 =>
      if Ascii.eqb c quote then
        match l1 with
        | [] => Some ([], [])
        | c2 :: l2 => if Ascii.eqb c2 quote then '(f, r) ← quoted_rest l2; Some (quote :: f, r) else Some ([], l1)
        end
      else '(f, r) ← quoted_rest l1; Some (c :: f, r)
  end.

Fixpoint plain_rest (l : list ascii) : list ascii * list ascii :=
  match l with
  | [] => ([], [])
  | c :: l1 => if special c then ([], l) else let '(f, r) := plain_rest l1 in (c :: f, r)
  end.

Definition read_field (l : list ascii) : option (list ascii * list ascii) :=
  match l with
  | c :: l1 => if Ascii.eqb c quote then quoted_rest l1 else Some (plain_rest l)
  | [] => Some ([], [])
  end.

Fixpoint read_record (fuel : nat) (l : list ascii) : option (list (list ascii) * list ascii) :=
  match fuel with
  | O => None
  | S fuel' =>
      '(f, r) ← read_field l;
      match r with
      | c :: r' =>
          if Ascii.eqb c comma then '(fs, r'') ← read_record fuel' r'; Some (f :: fs, r'')
          else if Ascii.eqb c line_feed then Some ([f], r') else None
      | [] => None
      end
  end.

Fixpoint read_records (fuel : nat) (l : list ascii) : option (list (list (list ascii))) :=
  match fuel, l with
  | _, [] => Some []
  | O, _ => None
  | S fuel', _ => '(record, r) ← read_record (S (length l)) l; cons record <$> read_records fuel' r
  end.

Definition csv_read (text : string) : option (list (list string)) :=
  map (map of_chars) <$> read_records (String.length text) (chars text).

(** What may follow a field. *)
Definition ends_field (l : list ascii) : Prop := exists c l', l = c :: l' /\ (c = comma \/ c = line_feed).

Lemma quoted_read f r :
  ends_field r ->
  quoted_rest (concat (map (fun c => if Ascii.eqb c quote then [quote; quote] else [c]) f) ++ quote :: r) = Some (f, r).
Proof.
  intros (e & r' & -> & He). induction f as [|c f IH].
  - cbn [map concat app quoted_rest]. change (Ascii.eqb quote quote) with true. cbn iota. by destruct He as [->| ->].
  - cbn [map concat]. rewrite <- app_assoc. destruct (Ascii.eqb_spec c quote) as [->|N]; cbn [app quoted_rest].
    + change (Ascii.eqb quote quote) with true. cbn iota. by rewrite IH.
    + apply Ascii.eqb_neq in N. rewrite N, IH. done.
Qed.

Lemma plain_read f r : ends_field r -> existsb special f = false -> plain_rest (f ++ r) = (f, r).
Proof.
  intros (e & r' & -> & He). induction f as [|c f IH]; cbn [app existsb plain_rest].
  - intros _. by destruct He as [->| ->].
  - intros [-> H]%orb_false_iff. by rewrite IH.
Qed.

Lemma field_read f r : ends_field r -> read_field (csv_field f ++ r) = Some (f, r).
Proof.
  intros E. unfold csv_field. destruct (fieldNeedsQuotes f) eqn:Q.
  - cbn [app read_field]. change (Ascii.eqb quote quote) with true. cbn iota. rewrite <- app_assoc. by apply quoted_read.
  - destruct f as [|c f].
    + destruct E as (e & r' & -> & He). cbn [app read_field plain_rest]. by destruct He as [->| ->].
    + cbn [fieldNeedsQuotes] in Q. apply orb_false_iff in Q as [Q _]. apply orb_false_iff in Q as [_ Q].
      cbn [app read_field]. pose proof Q as Q'. cbn [existsb] in Q'. apply orb_false_iff in Q' as [Q' _].
      unfold special in Q'. rewrite !orb_false_iff in Q'. destruct Q' as [[_ ->] _]. f_equal. by apply (plain_read (c :: f)).
Qed.

Lemma fields_read fs r n :
  fs <> [] -> (length fs <= n)%nat -> read_record n (csv_fields fs ++ line_feed :: r) = Some (fs, r).
Proof.
  revert n. induction fs as [|f fs IH]; [done|]. intros [|n] _ L; [cbn in L; lia|]. cbn [length] in L. destruct fs as [|g fs].
  - cbn [csv_fields read_record]. rewrite field_read; [done|]. eexists _, _. by split; [|right].
  - change (csv_fields (f :: g :: fs)) with (csv_field f ++ comma :: csv_fields (g :: fs))%list.
    rewrite <- app_assoc. cbn [app read_record]. rewrite field_read by (eexists _, _; by split; [|left]). cbn [mbind option_bind].
    change (Ascii.eqb comma comma) with true. cbn iota. rewrite IH by (done || cbn [length] in *; lia). done.
Qed.

Lemma fields_length fs : (length fs <= S (length (csv_fields fs)))%nat.
Proof.
  induction fs as [|f fs IH]; [cbn; lia|]. destruct fs as [|g fs]; [cbn; lia|].
  change (csv_fields (f :: g :: fs)) with (csv_field f ++ comma :: csv_fields (g :: fs))%list. rewrite length_app.
  cbn [length] in *. lia.
Qed.

Lemma records_read l n :
  Forall (fun record => record <> []) l -> (length (concat (map csv_record l)) <= n)%nat ->
  read_records n (concat (map csv_record l)) = Some (map (map chars) l).
Proof.
  intros H. revert n. induction H as [|record l Hr _ IH]; intros n L; [by destruct n|].
  cbn [map concat] in *. rewrite length_app in L. unfold csv_record at 1 in L. rewrite length_app in L. cbn [length] in L.
  destruct n as [|n]; [lia|]. set (rest := concat (map csv_record l)) in *. unfold csv_record at 1. rewrite <- app_assoc. cbn [app].
  destruct (csv_fields (map chars record) ++ line_feed :: rest)%list as [|c t] eqn:E; [by destruct (csv_fields (map chars record))|].
  cbn [read_records]. rewrite <- E. rewrite fields_read.
  - cbn [mbind option_bind]. rewrite IH by lia. done.
  - by destruct record.
  - rewrite length_app. cbn [length]. pose proof (fields_length (map chars record)). lia.
Qed.

Lemma csv_back records : Forall (fun record => record <> []) records -> csv_read (csv_text records) = Some records.
Proof.
  intros H. unfold csv_read, csv_text. rewrite chars_of_chars, <- length_chars, chars_of_chars, records_read by done.
  cbn. f_equal. rewrite map_map. etransitivity; [|apply map_id]. apply map_ext. intros record.
  rewrite map_map. etransitivity; [|apply map_id]. apply map_ext. intros s. apply of_chars_chars.
Qed.

(** ** Tags *)
Fixpoint firsts (acc l : list string) : list string :=
  match l with
  | [] => acc
  | x :: l' => firsts (if existsb (String.eqb x) acc then acc else (acc ++ [x])%list) l'
  end.

Lemma existsb_eqb x l : existsb (String.eqb x) l = true <-> In x l.
Proof.
  rewrite existsb_exists. split; [by intros (y & Hy & ->%String.eqb_eq)|]. intros H. exists x. by rewrite String.eqb_refl.
Qed.

Lemma merged_firsts l : merged_tags l = firsts [] l.
Proof.
  unfold merged_tags. enough (X : forall l acc seen, (forall x, existsb (String.eqb x) seen = existsb (String.eqb x) acc) ->
    fst (fold_left (fun '(merged, seen) tag =>
      if existsb (String.eqb tag) seen then (merged, seen) else ((merged ++ [tag])%list, tag :: seen)) l (acc, seen)) = firsts acc l)
    by by apply X.
  clear l. induction l as [|y l IH]; intros acc seen H; [done|]. cbn [fold_left firsts]. rewrite H.
  destruct (existsb (String.eqb y) acc); apply IH; [exact H|]. intros x. rewrite existsb_app. cbn. rewrite H, orb_false_r. apply orb_comm.
Qed.

Lemma firsts_app acc l1 l2 : firsts acc (l1 ++ l2) = firsts (firsts acc l1) l2.
Proof. revert acc. induction l1 as [|x l1 IH]; intros acc; [done|]. apply IH. Qed.

Lemma firsts_In acc l x : In x (firsts acc l) <-> In x acc \/ In x l.
Proof.
  revert acc. induction l as [|y l IH]; intros acc; [cbn; tauto|]. cbn [firsts]. rewrite IH. cbn [In].
  destruct (existsb (String.eqb y) acc) eqn:E; [apply existsb_eqb in E|].
  - split; [tauto|]. intros [H|[->|H]]; auto.
  - rewrite in_app_iff. cbn. tauto.
Qed.

Lemma firsts_NoDup acc l : List.NoDup acc -> List.NoDup (firsts acc l).
Proof.
  revert acc. induction l as [|y l IH]; intros acc N; [done|]. cbn [firsts]. apply IH.
  destruct (existsb (String.eqb y) acc) eqn:E; [done|]. apply NoDup_ListNoDup, NoDup_app. split_and!.
  - by apply NoDup_ListNoDup.
  - intros x Hx ->%list_elem_of_singleton. apply list_elem_of_In, existsb_eqb in Hx. congruence.
  - apply NoDup_singleton.
Qed.

Lemma firsts_known acc l : (forall x, In x l -> In x acc) -> firsts acc l = acc.
Proof.
  induction l as [|y l IH]; intros H; [done|]. cbn [firsts]. assert (E : existsb (String.eqb y) acc = true) by (apply existsb_eqb, H; by left).
  rewrite E. apply IH. intros x Hx. apply H. by right.
Qed.

Lemma firsts_fresh acc l : List.NoDup (acc ++ l) -> firsts acc l = (acc ++ l)%list.
Proof.
  revert acc. induction l as [|y l IH]; intros acc N; [by rewrite app_nil_r|]. cbn [firsts].
  destruct (existsb (String.eqb y) acc) eqn:E.
  - apply existsb_eqb in E. apply NoDup_remove_2 in N. destruct N. apply in_app_iff. by left.
  - rewrite IH; rewrite <- app_assoc; done.
Qed.

(** Each tag once; the ones that were there come first, and adding tags again changes
    nothing. *)
Lemma merged_spec l : List.NoDup (merged_tags l) /\ forall x, In x (merged_tags l) <-> In x l.
Proof.
  rewrite merged_firsts. split; [apply firsts_NoDup; constructor|]. intros x. rewrite firsts_In. cbn. tauto.
Qed.

Lemma merged_again old tags : merged_tags (merged_tags (old ++ tags) ++ tags) = merged_tags (old ++ tags).
Proof.
  destruct (merged_spec (old ++ tags)) as [N I]. set (m := merged_tags (old ++ tags)) in *.
  rewrite merged_firsts, firsts_app, (firsts_fresh [] m N), firsts_known; [done|].
  intros x Hx. apply I, in_app_iff. by right.
Qed.

(** The tags of a column that took the text of an array of strings. *)
Section TagColumn.
Context `{F : Floats} `{!FloatsLaws F} `{JC : JsonColumn} `{!JsonColumnLaws JC}.

Definition tag_of (v : json) : string := match v with JStr s => s | _ => "" end.

Lemma tags_of_value text l : unmarshalAny text = Some (JArr l) -> unmarshal_tags text = map tag_of l.
Proof.
  unfold unmarshalAny, unmarshal_tags. destruct (parse_text text) as [[| | | |vs|]|]; cbn; try done; try (by intros (? & ? & ?)%fmap_Some).
  match goal with |- JArr <$> ?r = _ -> _ => destruct r as [ws|] eqn:E; [|done] end. intros [= <-].
  revert ws E. induction vs as [|v vs IH]; intros ws; [by intros [= <-]|].
  intros (y & Ey & X)%bind_Some. apply bind_Some in X as (ys & Eys & [= <-]). cbn. f_equal; [|by apply IH].
  destruct v; cbn in Ey; simplify_eq; try done; by apply fmap_Some in Ey as (? & ? & ->).
Qed.

Lemma tags_valid text : Forall valid_utf8 (unmarshal_tags text).
Proof.
  unfold unmarshal_tags. destruct (parse_text text) as [[| | | |vs|]|] eqn:E; try by constructor.
  unfold parse_text, at_end in E. apply bind_Some in E as ([y r] & E & X). apply parsers_tame in E.
  destruct (skip_ws r); [|done]. injection X as ->. inversion E as [| | | |? ? _ H|]; subst. apply List.Forall_map.
  eapply List.Forall_impl; [|exact H]. intros v Hv. inversion Hv; done.
Qed.

Lemma strings_kept l text : Forall valid_utf8 l -> json_column (strings_text l) = Some text -> unmarshal_tags text = l.
Proof.
  intros V E. apply json_column_value in E. unfold strings_text in E. rewrite marshal_back in E.
  - apply tags_of_value in E. rewrite E. clear E. cbn. rewrite !map_map. induction V as [|x l Hx _ IH]; [done|]. cbn. rewrite repaired_valid by done.
    f_equal. apply IH.
  - apply wf_arr, List.Forall_map. by apply List.Forall_forall.
  - cbn [height]. rewrite map_map. cbn. enough (max_of (map (fun _ : string => 0) l) <= 0) by (unfold maxNestingDepth; lia).
    apply max_of_le; [done|]. apply List.Forall_map. by apply List.Forall_forall.
Qed.
End TagColumn.

(** ** What a job does to the projects *)

(** A column keeps an array of integers. *)
Class IntegerColumn (C : JsonColumn) :=
  column_ids : forall s s' ids, json_column s = Some s' -> unmarshal_ids s = Some ids -> unmarshal_ids s' = Some ids.

(** A project but for the time of its last change. *)
Definition lasting (p : ProjectRow) : Z * string * option string * Z * option time :=
  (pr_id p, pr_name p, pr_description p, pr_idCostumer p, pr_created_at p).

Definition owned (tenant id : Z) (d : GridTables) : bool := existsb (owns tenant id) (grid_projects d).

Section Jobs.
Context `{MS : MySQL} `{F : Floats} `{!FloatsLaws F} `{JC : JsonColumn} `{!JsonColumnLaws JC}.
Context (now : time) (sourceIP : string) (tenant : Z).
Implicit Types d : GridTables.

(** What does not change: the other tables, the projects of other customers, and of the
    projects everything but the time of the last change. *)
Record same_projects d d' : Prop := {
  sp_lasting : map lasting (grid_projects d') = map lasting (grid_projects d);
  sp_others : List.filter (fun p => negb (pr_idCostumer p =? tenant)) (grid_projects d')
              = List.filter (fun p => negb (pr_idCostumer p =? tenant)) (grid_projects d);
  sp_rest : with_projects [] (gr_accounts d') = with_projects [] (gr_accounts d);
  sp_events : gr_events d' = gr_events d;
  sp_snapshots : gr_snapshots d' = gr_snapshots d;
  sp_jobs : gr_jobs d' = gr_jobs d;
}.

Lemma same_projects_refl d : same_projects d d.
Proof. done. Qed.

Lemma same_projects_trans d1 d2 d3 : same_projects d1 d2 -> same_projects d2 d3 -> same_projects d1 d3.
Proof. intros [] []. split; congruence. Qed.

Lemma touched_lasting id l : map lasting (map (touch_project now tenant id) l) = map lasting l.
Proof. rewrite map_map. apply map_ext. intros p. unfold touch_project. by destruct (owns _ _ p). Qed.

Lemma touched_others id l :
  List.filter (fun p => negb (pr_idCostumer p =? tenant)) (map (touch_project now tenant id) l)
  = List.filter (fun p => negb (pr_idCostumer p =? tenant)) l.
Proof.
  induction l as [|p l IH]; [done|]. cbn [map List.filter].
  assert (C : pr_idCostumer (touch_project now tenant id p) = pr_idCostumer p) by (unfold touch_project; by destruct (owns _ _ p)).
  rewrite C, IH. destruct (pr_idCostumer p =? tenant) eqn:T; cbn [negb]; [done|].
  assert (touch_project now tenant id p = p) as ->; [|done]. unfold touch_project, owns. by rewrite T, andb_false_r.
Qed.

Lemma set_grid_same id archived tags d :
  same_projects d (set_grid (map (touch_project now tenant id) (grid_projects d)) archived tags d).
Proof. split; try done; [apply touched_lasting|apply touched_others]. Qed.

Lemma owned_same d d' id : same_projects d d' -> owned tenant id d' = owned tenant id d.
Proof.
  intros [L _ _ _ _ _]. unfold owned. revert L. generalize (grid_projects d) as l. induction (grid_projects d') as [|p l' IH]; intros [|q l]; try done.
  cbn [map existsb]. intros H. injection H as H1 H2 H3 H4 H5 H6. rewrite (IH l H6). unfold owns. by rewrite H1, H4.
Qed.

(** Archiving. *)
Record archived_by (ids : list Z) d d' : Prop := {
  ab_same : same_projects d d';
  ab_archived : forall id, gr_archivedAt d' !! id = if existsb (Z.eqb id) ids then Some (column_time now) else gr_archivedAt d !! id;
  ab_tags : gr_tags d' = gr_tags d;
}.

Lemma wp_archive ids d (Q : outcome unit -> GridTables -> Prop) :
  Forall (fun id => owned tenant id d = true) ids ->
  (forall d', archived_by ids d d' -> Q (Ok tt) d') -> (forall e d', Q (Err e) d') ->
  wp d (archive_all now tenant ids) Q.
Proof.
  intros H. revert d H Q. induction ids as [|id ids IH]; intros d H Q K X.
  { apply wp_ret, K. by split. }
  inversion H as [|? ? Hid Hids]; subst. unfold owned in Hid. apply wp_bind, wp_exec; [|intros; apply X].
  assert (S : same_projects d (archive_project now tenant id d)).
  { unfold archive_project. rewrite Hid. apply set_grid_same. }
  apply IH; [|intros d' [A B C]|exact X].
  - eapply List.Forall_impl; [|exact Hids]. intros x Hx. by rewrite (owned_same _ _ x S).
  - apply K. split.
    + by eapply same_projects_trans.
    + intros x. rewrite B. cbn [existsb]. destruct (existsb (Z.eqb x) ids); [by rewrite orb_true_r|]. rewrite orb_false_r.
      unfold archive_project. rewrite Hid. cbn. destruct (Z.eqb_spec x id) as [->|N]; [by rewrite lookup_insert_eq|by rewrite lookup_insert_ne by done].
    + rewrite C. unfold archive_project. by rewrite Hid.
Qed.

(** Tagging. *)
Record tagged_by (tags : list string) (ids : list Z) d d' : Prop := {
  tb_same : same_projects d d';
  tb_archived : gr_archivedAt d' = gr_archivedAt d;
  tb_tags : forall id, In id ids -> tags_of id d' = merged_tags (tags_of id d ++ tags);
  tb_others : forall id, ~ In id ids -> gr_tags d' !! id = gr_tags d !! id;
}.

Lemma tags_of_valid id d : Forall valid_utf8 (tags_of id d).
Proof. unfold tags_of. destruct (gr_tags d !! id); [apply tags_valid|constructor]. Qed.

Lemma wp_tag tags ids d (Q : outcome unit -> GridTables -> Prop) :
  Forall valid_utf8 tags -> Forall (fun id => owned tenant id d = true) ids ->
  (forall d', tagged_by tags ids d d' -> Q (Ok tt) d') -> (forall e d', Q (Err e) d') ->
  wp d (tag_all now tenant tags ids) Q.
Proof.
  intros V H. revert d H Q. induction ids as [|id ids IH]; intros d H Q K X.
  { apply wp_ret, K. by split. }
  inversion H as [|? ? Hid Hids]; subst. apply wp_bind, wp_query; [|intros; apply X]. unfold owned in Hid. rewrite Hid.
  apply wp_bind, wp_exec_refusable; [|intros; apply X]. intros d1 n (text & Ht & [= <- _])%bind_Some.
  assert (T : unmarshal_tags text = merged_tags (tags_of id d ++ tags)).
  { apply strings_kept; [|exact Ht]. apply List.Forall_forall. intros x Hx. apply merged_spec, in_app_iff in Hx.
    pose proof (tags_of_valid id d) as W. rewrite !List.Forall_forall in V, W. destruct Hx; auto. }
  assert (S : same_projects d (tag_project now tenant id text d)).
  { unfold tag_project. rewrite Hid. apply set_grid_same. }
  assert (G : forall x, gr_tags (tag_project now tenant id text d) !! x = if x =? id then Some text else gr_tags d !! x).
  { intros x. unfold tag_project. rewrite Hid. cbn. destruct (Z.eqb_spec x id) as [->|N]; [by rewrite lookup_insert_eq|by rewrite lookup_insert_ne by done]. }
  apply IH; [|intros d' [A B C D]|exact X].
  - eapply List.Forall_impl; [|exact Hids]. intros x Hx. by rewrite (owned_same _ _ x S).
  - apply K. split.
    + by eapply same_projects_trans.
    + rewrite B. unfold tag_project. by rewrite Hid.
    + assert (Own : tags_of id (tag_project now tenant id text d) = merged_tags (tags_of id d ++ tags)).
      { unfold tags_of at 1. rewrite G, Z.eqb_refl. exact T. }
      assert (Other : forall x, x <> id -> tags_of x (tag_project now tenant id text d) = tags_of x d).
      { intros x N. apply Z.eqb_neq in N. unfold tags_of. by rewrite G, N. }
      intros x Hx. destruct (in_dec Z.eq_dec x ids) as [I|I].
      * rewrite (C x I). destruct (Z.eq_dec x id) as [->|N]; [rewrite Own; apply merged_again|by rewrite Other].
      * destruct Hx as [<-|Hx]; [|done]. unfold tags_of at 1. rewrite (D id I), G, Z.eqb_refl. exact T.
    + intros x Hx. cbn in Hx. rewrite D by tauto. rewrite G. destruct (Z.eqb_spec x id) as [->|]; [tauto|done].
Qed.

(** The first loop finds the projects that are owned. *)
Lemma wp_processed ids d (Q : outcome (list Z) -> GridTables -> Prop) :
  Q (Ok (List.filter (fun id => owned tenant id d) ids)) d -> (forall e, Q (Err e) d) ->
  wp d (processed_of tenant ids) Q.
Proof.
  intros K X. revert Q K X. induction ids as [|id ids IH]; intros Q K X; [by apply wp_ret|].
  apply wp_bind, wp_query; [|intros; apply X]. apply wp_bind, IH; [|exact X]. apply wp_ret.
  cbn [List.filter] in K. unfold owned in K at 1. by destruct (existsb (owns tenant id) (grid_projects d)).
Qed.
End Jobs.

(** ** Requests as steps *)
Definition known_action (action : string) : Prop := In action ["archive"; "export"; "tag"].

(** A job: what it processed and what it did not, and its status. *)
Record job_ok (j : JobRow) : Prop := {
  jo_counts : jb_requestedCount j = jb_processedCount j + jb_failedCount j;
  jo_bounds : 0 <= jb_processedCount j <= Z.of_nat maxGridSnapshotRows /\ 0 <= jb_failedCount j <= Z.of_nat maxGridSnapshotRows;
  jo_status : jb_status j = "completed" <-> jb_failedCount j = 0;
  jo_action : known_action (jb_action j);
}.

Record snapshot_ok (s : SnapshotRow) (ids : list Z) : Prop := {
  so_ids : unmarshal_ids (sn_entityIds s) = Some ids;
  so_total : sn_total s = Z.of_nat (length ids);
  so_bound : (length ids <= maxGridSnapshotRows)%nat;
}.

Record grid_ok (d : GridTables) : Prop := {
  go_projects : Forall (fun p => in_int64 (pr_id p) = true) (grid_projects d);
  go_snapshots : Forall (fun s => exists ids, snapshot_ok s ids) (gr_snapshots d);
  go_jobs : Forall job_ok (gr_jobs d);
}.

(** The snapshot is the user's, for the active customer, and has not expired. *)
Definition usable_by (now : time) (actor : User) (s : SnapshotRow) : Prop :=
  sn_idCostumer s = activeTenant actor /\ sn_actorUserId s = u_ID actor /\ now < sn_expiresAt s.

Lemma own_usable `{MS : MySQL} now actor id s : own_snapshot now actor id s = true -> usable_by now actor s.
Proof. unfold own_snapshot. rewrite !andb_true_iff, !Z.eqb_eq, Z.ltb_lt. unfold usable_by. tauto. Qed.

Section Steps.
Context `{MS : MySQL} `{F : Floats} `{!FloatsLaws F} `{JC : JsonColumn} `{!JsonColumnLaws JC} `{!IntegerColumn JC}.
Context (now : time) (sourceIP : string).
Implicit Types d : GridTables.

(** What an action does to the projects that are there. *)
Definition acted (tenant : Z) (action : string) (tags : list string) (ids : list Z) d d' : Prop :=
  if String.eqb action "archive" then archived_by now tenant ids d d'
  else if String.eqb action "tag" then tagged_by tenant tags ids d d'
  else d' = d.

Definition there (tenant : Z) (ids : list Z) d : list Z := List.filter (fun id => owned tenant id d) ids.

(** The row of a job on a snapshot. *)
Record job_on (actor : User) (action : string) (s : SnapshotRow) (processed : list Z) (j : JobRow) : Prop := {
  jn_snapshot : jb_querySnapshotId j = sn_id s;
  jn_owner : jb_idCostumer j = activeTenant actor /\ jb_actorUserId j = u_ID actor;
  jn_action : jb_action j = action;
  jn_counts : jb_requestedCount j = sn_total s /\ jb_processedCount j = Z.of_nat (length processed)
              /\ jb_failedCount j = sn_total s - Z.of_nat (length processed);
  jn_status : jb_status j = job_status (sn_total s) (Z.of_nat (length processed));
}.

Record job_recorded (actor : User) (j : JobRow) (ev : EventRow) : Prop := {
  jr_action : ev_action ev = "grid.bulk." +:+ jb_action j;
  jr_target : ev_targetId ev = Some (jb_id j);
  jr_actor : ev_actorUserId ev = Some (u_ID actor) /\ ev_activeTenantId ev = activeTenant actor;
}.

Inductive grid_step (actor : User) d : grid_route -> GridTables -> Prop :=
| StepSnapshot s ids q :
    permitted actor ["projects.read"; "projects.manage"] = true -> sn_idCostumer s = activeTenant actor -> sn_actorUserId s = u_ID actor -> sn_expiresAt s = column_time (now + quarter) ->
    snapshot_ok s ids ->
    (forall id, In id ids <-> exists p, In p (grid_projects d) /\ pr_id p = id
                                        /\ snapshot_selects (activeTenant actor) q (gr_archivedAt d) p = true) ->
    (forall id, In id ids -> owned (activeTenant actor) id d = true /\ gr_archivedAt d !! id = None) ->
    grid_step actor d SnapshotRoute (add_snapshot s d)
| StepJob s ids action tags d1 j ev :
    permitted actor [if String.eqb action "export" then "projects.read" else "projects.manage"; "projects.manage"] = true ->
    In s (gr_snapshots d) -> usable_by now actor s -> unmarshal_ids (sn_entityIds s) = Some ids ->
    known_action action -> acted (activeTenant actor) action tags (there (activeTenant actor) ids d) d d1 ->
    job_on actor action s (there (activeTenant actor) ids d) j -> job_recorded actor j ev ->
    grid_step actor d BulkJobRoute (add_event ev (add_job j d1)).

Lemma acted_same tenant action tags ids d d' : acted tenant action tags ids d d' -> same_projects tenant d d'.
Proof.
  unfold acted. destruct (String.eqb action "archive"); [by intros []|]. destruct (String.eqb action "tag"); [by intros []|].
  intros ->. apply same_projects_refl.
Qed.

Lemma filter_bound {A} (f : A -> bool) l : (length (List.filter f l) <= length l)%nat.
Proof. induction l as [|x l IH]; cbn; [lia|]. destruct (f x); cbn; lia. Qed.

Lemma job_on_ok actor action s ids processed j :
  snapshot_ok s ids -> (length processed <= length ids)%nat -> known_action action -> job_on actor action s processed j -> job_ok j.
Proof.
  intros [_ T B] L K [_ _ A (C1 & C2 & C3) S]. split.
  - lia.
  - lia.
  - rewrite S, C3. unfold job_status. destruct (Z.ltb_spec 0 (sn_total s - Z.of_nat (length processed))); split; try done; lia.
  - by rewrite A.
Qed.

Lemma grid_step_ok actor d rt d' : grid_step actor d rt d' -> grid_ok d -> grid_ok d'.
Proof.
  intros [s ids q _ _ _ _ S _ _|s ids action tags d1 j ev _ Hs _ U K A J R] [P N G].
  - split; [exact P| |exact G]. cbn. apply List.Forall_app. split; [exact N|]. constructor; [by exists ids|done].
  - apply acted_same in A as A'. destruct A' as [L _ _ _ Sn Jb]. split; cbn.
    + change (grid_projects (add_event ev (add_job j d1))) with (grid_projects d1).
      enough (X : forall l l', map lasting l' = map lasting l -> Forall (fun p => in_int64 (pr_id p) = true) l ->
                    Forall (fun p => in_int64 (pr_id p) = true) l') by (by apply (X (grid_projects d))).
      clear. induction l as [|q l IH]; intros [|q' l'] E H; try done. injection E as E1 _ _ _ _ E. inversion H; subst.
      constructor; [congruence|by apply IH].
    + by rewrite Sn.
    + rewrite Jb. apply List.Forall_app. split; [exact G|]. constructor; [|done].
      rewrite List.Forall_forall in N. destruct (N s Hs) as (ids' & O). pose proof (so_ids _ _ O) as U'.
      rewrite U in U'. injection U' as <-. eapply job_on_ok; [exact O| |exact K|exact J]. apply filter_bound.
Qed.

(** *** Snapshots *)
Lemma snapshot_ids_selected tenant q d :
  (length (snapshot_ids tenant q d) <= maxGridSnapshotRows)%nat ->
  forall id, In id (snapshot_ids tenant q d) <->
    exists p, In p (grid_projects d) /\ pr_id p = id /\ snapshot_selects tenant q (gr_archivedAt d) p = true.
Proof.
  unfold snapshot_ids. set (l := map pr_id _). intros L.
  assert (E : take (S maxGridSnapshotRows) l = l).
  { apply take_ge. rewrite length_take in L. lia. }
  rewrite E. intros id. unfold l. rewrite in_map_iff. split.
  - intros (p & <- & Hp). apply order_by_In, filter_In in Hp as [Hp Hs]. by exists p.
  - intros (p & Hp & <- & Hs). exists p. split; [done|]. apply order_by_In, filter_In. by split.
Qed.

Lemma wp_snapshot d actor ty q :
  grid_ok d -> permitted actor ["projects.read"; "projects.manage"] = true ->
  wp d (CreateGridQuerySnapshot now actor ty q) (fun _ d' => d' = d \/ grid_step actor d SnapshotRoute d').
Proof.
  intros [P _ _] Pm. unfold CreateGridQuerySnapshot. apply wp_bind, wp_query; [|by left]. set (ids := snapshot_ids _ q d).
  destruct (Nat.ltb_spec maxGridSnapshotRows (length ids)) as [|B]; [apply wp_fail; by left|].
  apply wp_bind. unfold grid_uuid. apply wp_uuid. intros id. apply wp_bind, wp_exec_refusable; [|by left].
  intros d1 n (text & _ & X)%bind_Some. apply bind_Some in X as (entities & He & X).
  destruct (existsb _ (gr_snapshots d)); [done|]. injection X as <- _. apply wp_ret. right.
  pose proof (snapshot_ids_selected _ _ _ B) as Sel. fold ids in Sel.
  apply (StepSnapshot actor d _ ids q); [done..| |exact Sel|].
  2:{ intros z Hz. apply Sel in Hz as (p & Hp & <- & S). unfold snapshot_selects in S. rewrite !andb_true_iff in S.
      destruct S as [[[[S1 S2] _] _] _]. apply bool_decide_eq_true in S2. split; [|exact S2].
      apply existsb_exists. exists p. split; [exact Hp|]. unfold owns. by rewrite Z.eqb_refl, S1. }
  split; [|done|exact B]. cbn. eapply column_ids; [exact He|]. apply ids_read_back.
  apply List.Forall_forall. intros z Hz. apply Sel in Hz as (p & Hp & <- & _). rewrite List.Forall_forall in P. by apply P.
Qed.

(** *** Jobs *)
Lemma wp_load_snapshot d actor id (Q : outcome (SnapshotRow * list Z) -> GridTables -> Prop) :
  (forall s ids, In s (gr_snapshots d) -> same (sn_id s) id = true -> usable_by now actor s -> unmarshal_ids (sn_entityIds s) = Some ids ->
     Q (Ok (s, ids)) d) ->
  (forall e, Q (Err e) d) -> wp d (loadGridSnapshot now actor id) Q.
Proof.
  intros H X. apply wp_bind, wp_query; [|intros; apply X]. destruct (List.find _ _) as [s|] eqn:E; [|by apply wp_fail].
  apply find_some in E as [Hs O]. pose proof (own_usable _ _ _ _ O) as U'. unfold own_snapshot in O. rewrite !andb_true_iff in O.
  destruct (unmarshal_ids _) as [ids|] eqn:U; [|by apply wp_fail]. apply wp_ret, H; tauto.
Qed.

Lemma wp_run_action d actor input ids (Q : outcome unit -> GridTables -> Prop) :
  Forall valid_utf8 (gc_Tags input) -> Forall (fun id => owned (activeTenant actor) id d = true) ids ->
  (forall d', acted (activeTenant actor) (gc_Action input) (gc_Tags input) ids d d' -> Q (Ok tt) d') ->
  (forall e d', Q (Err e) d') -> wp d (run_action now actor input ids) Q.
Proof.
  intros V O H X. unfold run_action, acted in *. destruct (String.eqb _ "archive"); [by apply wp_archive|].
  destruct (String.eqb _ "tag"); [by apply wp_tag|]. by apply wp_ret, H.
Qed.

(** What a job that is created did, and what it answers. *)
Record job_done (actor : User) (input : GridBulkJobCreate) d (b : GridBulkJob) d' : Prop := {
  jd_step : exists s ids d1 j ev,
    In s (gr_snapshots d) /\ same (sn_id s) (gc_QuerySnapshotID input) = true /\ usable_by now actor s
    /\ unmarshal_ids (sn_entityIds s) = Some ids
    /\ acted (activeTenant actor) (gc_Action input) (gc_Tags input) (there (activeTenant actor) ids d) d d1
    /\ job_on actor (gc_Action input) s (there (activeTenant actor) ids d) j /\ job_recorded actor j ev
    /\ d' = add_event ev (add_job j d1)
    /\ b = bulk_job j (Some (job_result (gc_Action input) (missing_of ids (there (activeTenant actor) ids d))));
}.

Lemma wp_bulk_job d r actor input :
  Forall valid_utf8 (gc_Tags input) ->
  wp d (CreateGridBulkJob now sourceIP r actor input)
    (fun res d' => match res with Ok b => job_done actor input d b d' | Err _ => d' = d end).
Proof.
  intros V. unfold CreateGridBulkJob. apply wp_transaction; [|done]. apply wp_bind, wp_load_snapshot; [|done].
  intros s ids Hs Hn Ho Hu. apply wp_bind, wp_processed; [|done]. fold (there (activeTenant actor) ids d).
  apply wp_bind, wp_run_action; [exact V| | |done].
  { apply List.Forall_forall. intros id Hid. by apply filter_In in Hid as [_ Hid]. }
  intros d1 A. cbv zeta. apply wp_bind. unfold grid_uuid. apply wp_uuid. intros id.
  apply wp_bind, wp_exec_refusable; [|done]. intros d2 n (j & Hj & X)%bind_Some. unfold insert_job in X.
  destruct (existsb _ (gr_jobs d1)); [done|]. injection X as <- _.
  apply wp_bind, wp_correlation. intros c. apply wp_bind, wp_exec_refusable; [|done]. intros d3 n' Y. rewrite Hj in Y. cbn [mbind option_bind] in Y.
  apply bind_Some in Y as (ev & Hev & [= <- _]). apply wp_ret. split. exists s, ids, d1, j, ev.
  unfold job_row in Hj. apply bind_Some in Hj as (payload & _ & Hj). apply bind_Some in Hj as (text & _ & [= <-]).
  split_and!; [done..| | |done|done].
  - by split.
  - unfold job_event in Hev. apply bind_Some in Hev as (? & _ & Hev). apply bind_Some in Hev as (? & _ & [= <-]). by split.
Qed.

(** *** Routes *)
Definition grid_reading (rt : grid_route) : bool := match rt with ShowJobRoute | ExportJobRoute => true | _ => false end.

Lemma keeps_job actor id : keeps (GetGridBulkJob actor id).
Proof. apply keeps_bind; [apply keeps_query|]. intros [j|]; repeat case_match; auto with keeps. Qed.

Lemma keeps_load actor id : keeps (loadGridSnapshot now actor id).
Proof. apply keeps_bind; [apply keeps_query|]. intros [s|]; repeat case_match; auto with keeps. Qed.

Lemma keeps_records tenant ids : keeps (export_records tenant ids).
Proof.
  induction ids as [|id ids IH]; [apply keeps_ret|]. apply keeps_bind; [apply keeps_query|]. intros row.
  apply keeps_bind; [exact IH|]. intros rest. apply keeps_ret.
Qed.

Lemma keeps_export actor id : keeps (ExportGridBulkJob now actor id).
Proof.
  apply keeps_bind; [apply keeps_job|]. intros job. case_match; [apply keeps_fail|].
  apply keeps_bind; [apply keeps_query|]. intros [s|]; [|apply keeps_fail].
  apply keeps_bind; [intros d; by apply wp_round_trip|]. intros _. apply keeps_bind; [apply keeps_load|]. intros [x ids].
  apply keeps_bind; [apply keeps_records|]. intros l. apply keeps_ret.
Qed.

Lemma keeps_grid_reading rt r : grid_reading rt = true -> keeps (serve_grid now sourceIP rt r).
Proof.
  destruct rt; try discriminate; intros _; cbn [serve_grid].
  - apply keeps_signed_in. intros u. cbv zeta. case_match; [apply keeps_ret|].
    apply keeps_bind; [apply keeps_attempt, keeps_job|]. intros x. apply keeps_ret.
  - apply keeps_any_capability. intros u. cbv zeta. case_match; [apply keeps_ret|].
    apply keeps_bind; [apply keeps_attempt, keeps_export|]. intros x. apply keeps_ret.
Qed.

Lemma tag_utf8 tag : gridTagPattern tag = true -> valid_utf8 tag.
Proof.
  unfold gridTagPattern, valid_utf8. intros [_ H]%andb_true_iff. induction (chars tag) as [|c l IH]; [done|].
  cbn [forallb] in H. apply andb_true_iff in H as [Hc H]. rewrite sanitize_ascii; [by rewrite IH|].
  pose proof (all_bytes_spec (fun c => implb (tag_char c) (code c <? 128)) c ltac:(by vm_compute)) as X. cbn beta in X.
  by rewrite Hc in X.
Qed.

Lemma valid_tags_utf8 l tags : Forall valid_utf8 tags -> Forall valid_utf8 (fst (valid_tags l tags)).
Proof.
  revert tags. induction l as [|v l IH]; intros tags H; [exact H|]. cbn [valid_tags].
  destruct (valid_tag v) as [tag|] eqn:E; [|exact H]. apply IH. destruct (existsb _ tags); [exact H|].
  apply List.Forall_app. split; [exact H|]. constructor; [|done]. unfold valid_tag in E. destruct v; try done.
  destruct (40 <? _); [done|]. destruct (gridTagPattern s) eqn:T; [|done]. injection E as <-. by apply tag_utf8.
Qed.

Lemma valid_job id action payload tags :
  validateGridJobInput id action payload = (tags, []) -> known_action action /\ Forall valid_utf8 tags.
Proof.
  unfold validateGridJobInput. intros H. cbv zeta in H. set (failures := job_failures id action) in H.
  assert (X : failures = [] /\ Forall valid_utf8 tags).
  { destruct (String.eqb action "tag"); [|injection H as <- H; split; [exact H|constructor]].
    assert (N : forall e : string * list string, (failures ++ [e])%list <> []) by (intros e E; by apply app_eq_nil in E as [_ E]).
    destruct (jidx _ "tags") as [| | | |[|v l]|]; try by (injection H as _ H; destruct (N _ H)).
    destruct (10 <? _)%nat; [by injection H as _ H; destruct (N _ H)|].
    pose proof (valid_tags_utf8 (v :: l) [] ltac:(constructor)) as V. destruct (valid_tags (v :: l) []) as [ts ok].
    injection H as <- H. destruct ok; [|by destruct (N _ H)]. by rewrite app_nil_r in H. }
  destruct X as [X V]. split; [|exact V]. unfold failures, job_failures in X. apply app_eq_nil in X as [_ X]. unfold known_action.
  destruct (existsb (String.eqb action) _) eqn:E; [|done]. by apply existsb_eqb in E.
Qed.

Definition grid_requested (rt : grid_route) (r : Request) d d' : Prop :=
  d' = d \/ exists actor, asks_as now r d actor /\ grid_step actor d rt d'.

Lemma wp_serve_grid rt r d : grid_ok d -> wp d (serve_grid now sourceIP rt r) (fun _ d' => grid_requested rt r d d').
Proof.
  intros O. destruct (grid_reading rt) eqn:G.
  { eapply wp_weaken; [by apply keeps_grid_reading|]. intros _ d' ->. by left. }
  destruct rt; try discriminate G; cbn [serve_grid].
  - apply wp_any_capability; [|by left..]. intros actor Ha Hp.
    destruct (decode_body snapshot_fields _ r) as [b|]; [|apply wp_ret; by left]. cbv zeta.
    destruct (validateGridSnapshotInput _ _ _ _ _ _); [|apply wp_ret; by left].
    apply wp_bind, wp_attempt. eapply wp_weaken; [by apply wp_snapshot|]. intros x d' Hx.
    assert (X : grid_requested SnapshotRoute r d d') by (destruct Hx as [->|Hx]; [by left|right; by exists actor]).
    destruct x as [x|[]]; try apply wp_ret; exact X.
  - apply wp_signed_in; [|by left..]. intros actor Ha.
    destruct (decode_body job_fields _ r) as [b|]; [|apply wp_ret; by left].
    destruct (validateGridJobInput _ _ _) as [tags [|]] eqn:V; [|apply wp_ret; by left]. apply valid_job in V as [K U].
    cbv zeta. unfold requireAnyCapabilityForUser. destruct (permitted actor _) eqn:P; [|apply wp_ret; by left].
    apply wp_bind, wp_attempt. eapply wp_weaken; [by apply wp_bulk_job|]. intros x d' Hx.
    assert (X : grid_requested BulkJobRoute r d d').
    { destruct x as [b'|e]; [|left; exact Hx]. destruct Hx as [(s & ids & d1 & j & ev & Hs & _ & Ho & Hu & Hact & Hj & Hr & -> & _)].
      right. exists actor. split; [exact Ha|]. by eapply StepJob. }
    destruct x as [x|[]]; try apply wp_ret; exact X.
Qed.

(** Claim C21: a request about the grid is a step on the customer's projects.  Whatever
    the route, the request and the failures of the database, snapshots stay lists of at
    most a thousand identifiers with their number, and jobs stay sums of what they
    processed and what they did not; and either nothing changes, or the request carries
    the live session of an active user who may do it, and keeps the projects that its
    query selects, or runs a job on a snapshot that is the user's own and has not expired.
    A job archives or tags exactly the projects of the snapshot that are still the
    customer's, and is recorded with its audit event.  The other routes change nothing. *)
Theorem grid_requests_refine (rt : grid_route) (r : Request) (w w' : world GridTables) res :
  grid_ok (w_db w) -> serve_grid now sourceIP rt r w = (res, w') ->
  grid_ok (w_db w')
  /\ (grid_reading rt = true -> w_db w' = w_db w)
  /\ (w_db w' = w_db w \/ exists actor, asks_as now r (w_db w) actor /\ grid_step actor (w_db w) rt (w_db w')).
Proof.
  intros O H. pose proof (wp_elim _ _ _ _ _ (wp_serve_grid rt r (w_db w) O) H) as R. split_and!.
  - destruct R as [->|(actor & _ & S)]; [exact O|by eapply grid_step_ok].
  - intros G. exact (keeps_elim _ _ _ _ (keeps_grid_reading rt r G) H).
  - exact R.
Qed.
End Steps.

(** ** Jobs and exports *)
Section Exact.
Context `{MS : MySQL} `{F : Floats} `{!FloatsLaws F} `{JC : JsonColumn} `{!JsonColumnLaws JC}.
Context (now : time) (sourceIP : string).
Implicit Types d : GridTables.

Lemma missing_In ids tenant d id :
  In id (missing_of ids (there tenant ids d)) <-> In id ids /\ owned tenant id d = false.
Proof.
  unfold missing_of, there. rewrite filter_In, negb_true_iff. split; intros [I E]; (split; [exact I|]).
  - destruct (owned tenant id d) eqn:O; [|done]. assert (X : existsb (Z.eqb id) (List.filter (fun id => owned tenant id d) ids) = true);
      [|congruence]. apply existsb_exists. exists id. split; [by apply filter_In|apply Z.eqb_refl].
  - destruct (existsb _ _) eqn:X; [|done]. apply existsb_exists in X as (z & Hz & ->%Z.eqb_eq). apply filter_In in Hz as [_ Hz]. congruence.
Qed.

(** The archived projects and the tags after an action. *)
Definition archived_after (action : string) (there : list Z) d (id : Z) : option time :=
  if String.eqb action "archive" && existsb (Z.eqb id) there then Some (column_time now) else gr_archivedAt d !! id.

Definition tags_after (action : string) (tags : list string) (there : list Z) d (id : Z) : list string :=
  if String.eqb action "tag" && existsb (Z.eqb id) there then merged_tags (tags_of id d ++ tags) else tags_of id d.

Lemma acted_after tenant action tags ids d d' :
  acted now tenant action tags ids d d' ->
  same_projects tenant d d' /\ (forall id, gr_archivedAt d' !! id = archived_after action ids d id)
  /\ forall id, tags_of id d' = tags_after action tags ids d id.
Proof.
  intros A. split; [by eapply acted_same|]. unfold acted in A. unfold archived_after, tags_after.
  destruct (String.eqb_spec action "archive") as [->|N]; [|destruct (String.eqb_spec action "tag") as [->|N']].
  - destruct A as [_ A T]. split; [intros id; rewrite A; by destruct (existsb _ _)|]. intros id. unfold tags_of. by rewrite T.
  - destruct A as [_ A T O]. split; [intros id; by rewrite A|]. intros id. cbn [andb String.eqb].
    destruct (existsb (Z.eqb id) ids) eqn:E.
    + apply existsb_exists in E as (z & Hz & ->%Z.eqb_eq). by apply T.
    + unfold tags_of. rewrite O; [done|]. intros I. assert (X : existsb (Z.eqb id) ids = true); [|congruence].
      apply existsb_exists. exists id. by rewrite Z.eqb_refl.
  - by subst d'.
Qed.

(** Claim C22: a job does what it says, all of it or nothing.  When it is created, its
    snapshot is one of the user, for the active customer, that has not expired; the
    projects of the snapshot that are still the customer's are archived now, or get the
    tags that they do not have at the end of theirs, and no other project changes; the
    number it reports as processed is theirs, the others are listed as failed, and it is
    complete when there are none.  When it fails, nothing changes. *)
Theorem bulk_job_exact (r : Request) (actor : User) (input : GridBulkJobCreate) (w w' : world GridTables) res :
  Forall valid_utf8 (gc_Tags input) -> CreateGridBulkJob now sourceIP r actor input w = (res, w') ->
  let d := w_db w in let d' := w_db w' in
  match res with
  | Err _ => d' = d
  | Ok job =>
      exists s ids, In s (gr_snapshots d) /\ same (sn_id s) (gc_QuerySnapshotID input) = true /\ usable_by now actor s
      /\ unmarshal_ids (sn_entityIds s) = Some ids
      /\ let present := there (activeTenant actor) ids d in
         map lasting (grid_projects d') = map lasting (grid_projects d)
         /\ (forall id, gr_archivedAt d' !! id = archived_after (gc_Action input) present d id)
         /\ (forall id, tags_of id d' = tags_after (gc_Action input) (gc_Tags input) present d id)
         /\ bj_RequestedCount job = sn_total s /\ bj_ProcessedCount job = Z.of_nat (length present)
         /\ bj_FailedCount job = sn_total s - Z.of_nat (length present)
         /\ (bj_Status job = "completed" <-> sn_total s <= Z.of_nat (length present))
         /\ exists failed, bj_Result job = Some (job_result (gc_Action input) failed)
            /\ forall id, In id failed <-> In id ids /\ owned (activeTenant actor) id d = false
  end.
Proof.
  intros V H d d'. pose proof (wp_elim _ _ _ _ _ (wp_bulk_job now sourceIP (w_db w) r actor input V) H) as X. cbn beta in X.
  destruct res as [job|e]; [|exact X]. destruct X as [(s & ids & d1 & j & ev & Hs & Hn & Ho & Hu & A & [_ _ _ (C1 & C2 & C3) S] & _ & E & ->)].
  exists s, ids. split_and!; [done..|]. cbv zeta. apply acted_after in A as (P & A & T). subst d d'. rewrite E. split_and!; try done.
  - exact (sp_lasting _ _ _ P).
  - cbn. rewrite S. unfold job_status. destruct (Z.ltb_spec 0 (sn_total s - Z.of_nat (length (there (activeTenant actor) ids (w_db w)))));
      split; intros; try done; lia.
  - eexists. split; [reflexivity|]. apply missing_In.
Qed.

(** The records of an export. *)
Fixpoint exported (tenant : Z) d (ids : list Z) : list (list string) :=
  match ids with
  | [] => []
  | id :: ids' =>
      match List.find (owns tenant id) (grid_projects d) with
      | Some p => exported_fields d p :: exported tenant d ids'
      | None => exported tenant d ids'
      end
  end.

Lemma wp_records tenant ids d (Q : outcome (list (list string)) -> GridTables -> Prop) :
  Q (Ok (exported tenant d ids)) d -> (forall e, Q (Err e) d) -> wp d (export_records tenant ids) Q.
Proof.
  intros K X. revert Q K X. induction ids as [|id ids IH]; intros Q K X; [by apply wp_ret|].
  apply wp_bind, wp_query; [|intros; apply X]. apply wp_bind, IH; [|exact X]. apply wp_ret. cbn [exported] in K.
  by destruct (List.find (owns tenant id) (grid_projects d)).
Qed.

(** A spreadsheet takes no text that begins otherwise for a formula. *)
Definition formula (s : string) : bool :=
  match chars s with c :: _ => existsb (Ascii.eqb c) ["="; "+"; "-"; "@"]%char | [] => false end.

Lemma safe_value s : formula (safeCSVValue s) = false.
Proof.
  unfold safeCSVValue. destruct (chars s) as [|c l] eqn:E; [unfold formula; by rewrite E|].
  destruct (existsb (Ascii.eqb c) _) eqn:X; [done|]. unfold formula. by rewrite E.
Qed.

Lemma wp_job_row d actor id (Q : outcome GridBulkJob -> GridTables -> Prop) :
  (forall j b, List.find (own_job actor id) (gr_jobs d) = Some j -> bj_Action b = jb_action j -> bj_Status b = jb_status j -> Q (Ok b) d) ->
  (forall e, Q (Err e) d) -> wp d (GetGridBulkJob actor id) Q.
Proof.
  intros H X. apply wp_bind, wp_query; [|intros; apply X]. destruct (List.find _ _) as [j|] eqn:E; [|by apply wp_fail].
  repeat case_match; try (by apply wp_fail); apply wp_ret; by eapply H.
Qed.

Lemma wp_grid_export d actor id :
  wp d (ExportGridBulkJob now actor id) (fun res d' => d' = d /\ forall e, res = Ok e ->
    exists j s ids, List.find (own_job actor id) (gr_jobs d) = Some j /\ jb_action j = "export" /\ jb_status j = "completed"
      /\ In s (gr_snapshots d) /\ same (sn_id s) (jb_querySnapshotId j) = true /\ usable_by now actor s
      /\ unmarshal_ids (sn_entityIds s) = Some ids /\ e = {| ge_Filename := "idelium-projects-" +:+ id +:+ ".csv";
                ge_Payload := csv_text (csv_header :: exported (activeTenant actor) d ids) |}).
Proof.
  apply wp_bind, wp_job_row; [|done]. intros j b Hj Ea Es.
  destruct (String.eqb_spec (bj_Action b) "export") as [A|]; cbn [negb orb]; [|by apply wp_fail].
  destruct (String.eqb_spec (bj_Status b) "completed") as [S|]; cbn [negb]; [|by apply wp_fail].
  apply wp_bind, wp_query; [|done]. rewrite Hj. cbn [fmap option_fmap option_map]. apply wp_bind, wp_round_trip; [|done].
  apply wp_bind, wp_load_snapshot; [|done]. intros s ids Hs Hn Ho Hu. apply wp_bind, wp_records; [|done].
  apply wp_ret. split; [done|]. intros e [= <-]. exists j, s, ids. split_and!; try done; congruence.
Qed.

(** Claim C23: the export of a job gives the projects back.  It changes nothing; the job
    is the user's own, complete and an export, on a snapshot that has not expired; and
    read as CSV its text is the header and, in the order of the snapshot, one record of
    five fields for every project that is still the customer's.  No name and no
    description begins a formula. *)
Theorem export_reads_back (actor : User) (id : string) (w w' : world GridTables) e :
  ExportGridBulkJob now actor id w = (Ok e, w') ->
  w_db w' = w_db w
  /\ exists j s ids, In j (gr_jobs (w_db w)) /\ same (jb_id j) id = true /\ jb_idCostumer j = activeTenant actor
     /\ jb_actorUserId j = u_ID actor /\ jb_action j = "export" /\ jb_status j = "completed"
     /\ In s (gr_snapshots (w_db w)) /\ same (sn_id s) (jb_querySnapshotId j) = true /\ usable_by now actor s
     /\ unmarshal_ids (sn_entityIds s) = Some ids
     /\ csv_read (ge_Payload e) = Some (csv_header :: exported (activeTenant actor) (w_db w) ids)
     /\ forall fields, In fields (exported (activeTenant actor) (w_db w) ids) ->
          length fields = length csv_header /\ formula (nth 1 fields "") = false /\ formula (nth 2 fields "") = false.
Proof.
  intros H. destruct (wp_elim _ _ _ _ _ (wp_grid_export (w_db w) actor id) H) as [E X]. split; [exact E|].
  destruct (X e eq_refl) as (j & s & ids & Hj & A & S & Hs & Hn & Ho & Hu & ->). apply find_some in Hj as [Hj Hown].
  unfold own_job in Hown. rewrite !andb_true_iff, !Z.eqb_eq in Hown. destruct Hown as [[O1 O2] O3].
  assert (R : forall fields, In fields (exported (activeTenant actor) (w_db w) ids) -> exists p, fields = exported_fields (w_db w) p).
  { clear. induction ids as [|z ids IH]; intros fields; cbn [exported]; [done|].
    destruct (List.find _ _) as [p|]; [intros [<-|Hf]; [by exists p|by apply IH]|by apply IH]. }
  exists j, s, ids. split_and!; try done.
  - cbn [ge_Payload]. apply csv_back. constructor; [done|]. apply List.Forall_forall. intros fields Hf. by destruct (R fields Hf) as [p ->].
  - intros fields Hf. destruct (R fields Hf) as [p ->]. split_and!; [done|apply safe_value..].
Qed.
End Exact.

(** ** Grid operations of a customer *)
#[export] Instance text_column_ids : IntegerColumn text_column.
Proof. intros s s' ids. unfold json_column, text_column. destruct (parse_text s); [|done]. by intros [= ->]. Qed.

Definition first_id : string := "00000000-0000-4000-8000-000000000001".
Definition second_id : string := "00000000-0000-4000-8000-000000000002".
Definition third_id : string := "00000000-0000-4000-8000-000000000003".

Definition kept_projects (id : string) (ids : list Z) : SnapshotRow :=
  {| sn_id := id; sn_idCostumer := 8; sn_actorUserId := 2; sn_resourceType := "projects"; sn_query := "{}";
     sn_entityIds := ids_text ids; sn_total := Z.of_nat (length ids); sn_expiresAt := noon + minute;
     sn_created_at := None; sn_updated_at := None |}.

Definition export_job (id snapshot status : string) (processed failed : Z) : JobRow :=
  {| jb_id := id; jb_querySnapshotId := snapshot; jb_idCostumer := 8; jb_actorUserId := 2; jb_resourceType := "projects";
     jb_action := "export"; jb_status := status; jb_payload := None; jb_requestedCount := processed + failed;
     jb_processedCount := processed; jb_failedCount := failed; jb_result := Some "{}"; jb_created_at := None; jb_updated_at := None |}.

(** Customer 8 has project 1, with a tag, and project 3, which is archived; project 2 is
    of customer 7.  The administrator keeps the projects 1 and 3, and the projects 1 and
    2. *)
Definition grid_tables : GridTables :=
  {| gr_accounts := with_projects [sample_project 1 8; sample_project 2 7; sample_project 3 8] (w_db admin_world);
     gr_events := {| et_rows := []; et_next := 1 |}; gr_archivedAt := {[ 3 := 5 ]}; gr_tags := {[ 1 := json_text "['old','-1']" ]};
     gr_snapshots := [kept_projects first_id [1; 3]; kept_projects second_id [1; 2]];
     gr_jobs := [export_job third_id first_id "completed" 2 0] |}.

Definition grid_world : world GridTables := World grid_tables [] [].

Lemma grid_world_ok : grid_ok (w_db grid_world).
Proof.
  split; cbn.
  - by repeat constructor.
  - repeat constructor; [exists [1; 3]|exists [1; 2]]; split; try (vm_compute; reflexivity); cbn; unfold maxGridSnapshotRows; lia.
  - constructor; [|constructor]. split; cbn; unfold maxGridSnapshotRows; [lia|lia|done|]. right. by left.
Qed.

Definition serve_sample_grid (rt : grid_route) (r : Request) : M GridTables greply := serve_grid noon "10.0.0.1" rt r.
Definition status_of_grid (res : outcome greply) : option Z :=
  match res with Ok reply => Some (rp_status reply) | Err _ => None end.

#[local] Notation after rt r w := (snd (serve_sample_grid rt r w)).
#[local] Notation status rt r w := (status_of_grid (fst (serve_sample_grid rt r w))).

Definition job_request (snapshot action : string) (payload : json) : Request :=
  work_request [] [("querySnapshotId", text_field snapshot); ("action", text_field action);
                   ("payload", {| fl_value := payload; fl_int := None |})].

#[local] Notation archive_request := (job_request second_id "archive" JNull).

Lemma grid_requests_refine_witness :
  grid_ok (w_db grid_world)
  /\ status BulkJobRoute archive_request grid_world = Some 202
  /\ exists actor, asks_as noon archive_request (w_db grid_world) actor
       /\ grid_step noon actor (w_db grid_world) BulkJobRoute (w_db (after BulkJobRoute archive_request grid_world)).
Proof.
  split; [exact grid_world_ok|]. split; [vm_compute; reflexivity|].
  destruct (grid_requests_refine noon "10.0.0.1" BulkJobRoute archive_request grid_world (after BulkJobRoute archive_request grid_world)
    (fst (serve_sample_grid BulkJobRoute archive_request grid_world)) grid_world_ok (surjective_pairing _)) as (_ & _ & [E|H]); [|exact H].
  assert (N : length (gr_jobs (w_db (after BulkJobRoute archive_request grid_world))) <> length (gr_jobs (w_db grid_world)))
    by (vm_compute; discriminate).
  destruct N. by rewrite E.
Defined.

Definition tagging : GridBulkJobCreate :=
  {| gc_QuerySnapshotID := second_id; gc_Action := "tag"; gc_Tags := ["new"; "old"]; gc_Payload := None |}.

#[local] Notation tagged := (CreateGridBulkJob noon "10.0.0.1" archive_request admin_user tagging grid_world).

Definition job_numbers (res : outcome GridBulkJob) : option (Z * Z * string) :=
  match res with Ok b => Some (bj_ProcessedCount b, bj_FailedCount b, bj_Status b) | Err _ => None end.

Lemma bulk_job_exact_witness :
  exists job, fst tagged = Ok job /\ bj_ProcessedCount job = 1 /\ bj_FailedCount job = 1
    /\ tags_of 1 (w_db (snd tagged)) = ["old"; "-1"; "new"].
Proof.
  assert (N : job_numbers (fst tagged) = Some (1, 1, "partial")) by (vm_compute; reflexivity).
  destruct tagged as [res w'] eqn:E. cbn [fst snd] in *. destruct res as [job|e]; [|discriminate N].
  assert (V : Forall valid_utf8 (gc_Tags tagging)) by (repeat constructor).
  destruct (bulk_job_exact noon "10.0.0.1" archive_request admin_user tagging grid_world w' (Ok job) V E)
    as (s & ids & Hs & Ho & _ & Hu & _ & _ & T & _).
  exists job. split; [reflexivity|]. split; [by injection N|]. split; [by injection N|].
  rewrite (T 1). destruct Hs as [<-|[<-|[]]]; [vm_compute in Ho; discriminate Ho|].
  assert (I : unmarshal_ids (sn_entityIds (kept_projects second_id [1; 2])) = Some [1; 2]) by (vm_compute; reflexivity).
  rewrite I in Hu. injection Hu as <-. vm_compute. reflexivity.
Defined.

#[local] Notation export := (ExportGridBulkJob noon admin_user third_id grid_world).

Lemma export_reads_back_witness :
  exists e, fst export = Ok e
    /\ csv_read (ge_Payload e) = Some (csv_header :: exported 8 (w_db grid_world) [1; 3]).
Proof.
  assert (N : match fst export with Ok _ => true | Err _ => false end = true) by (vm_compute; reflexivity).
  destruct export as [res w'] eqn:E. cbn [fst] in *. destruct res as [e|]; [|discriminate N]. exists e. split; [reflexivity|].
  destruct (export_reads_back noon admin_user third_id grid_world w' e E) as (_ & j & s & ids & Hj & _ & _ & _ & _ & _ & Hs & Ho & _ & Hu & C & _).
  destruct Hj as [<-|[]]. destruct Hs as [<-|[<-|[]]]; [|vm_compute in Ho; discriminate Ho].
  assert (I : unmarshal_ids (sn_entityIds (kept_projects first_id [1; 3])) = Some [1; 3]) by (vm_compute; reflexivity).
  rewrite I in Hu. injection Hu as <-. exact C.
Defined.

(** ** Single requests *)

(** The tags of an export are not made safe: one that begins with a hyphen is exported as
    it is. *)
Example tag_exported_as_formula :
  match fst (ExportGridBulkJob noon admin_user third_id
    (World (set_grid (grid_projects grid_tables) (gr_archivedAt grid_tables) {[ 1 := json_text "['-1']" ]} grid_tables) [] [])) with
  | Ok e => (fun rows => map (fun row => nth 4 row "") rows) <$> csv_read (ge_Payload e)
  | Err _ => None
  end = Some ["tags"; "-1"; ""].
Proof. vm_compute. reflexivity. Qed.

(** A job that could not process everything says that its export is available, and the
    export is refused. *)
#[local] Notation partial := (serve_sample_grid BulkJobRoute (job_request second_id "export" JNull) grid_world).

Example partial_export_is_not_available :
  match fst partial with
  | Ok (Reply 202 _ (DData (GrJob b))) => Some (bj_Status b, jidx (default [] (bj_Result b)) "exportAvailable", 
      status ExportJobRoute (work_request [("jobId", bj_ID b)] []) (snd partial))
  | _ => None
  end = Some ("partial", JBool true, Some 409).
Proof. vm_compute. reflexivity. Qed.

(** Archiving a project again moves the time. *)
Example archived_again :
  gr_archivedAt grid_tables !! 3 = Some 5
  /\ gr_archivedAt (w_db (after BulkJobRoute (job_request first_id "archive" JNull) grid_world)) !! 3 = Some (column_time noon).
Proof. split; vm_compute; reflexivity. Qed.

(** A query that selects more than a thousand projects is refused. *)
Definition thousand_and_one : list ProjectRow := map (fun n => sample_project (Z.of_nat n) 8) (seq 1 1001).

Example too_many_projects :
  status SnapshotRoute (work_request [] [("resourceType", text_field "projects")])
    (World (set_grid thousand_and_one ∅ ∅ grid_tables) [] []) = Some 422
  /\ status SnapshotRoute (work_request [] [("resourceType", text_field "projects")])
    (World (set_grid (take 1000 thousand_and_one) ∅ ∅ grid_tables) [] []) = Some 201.
Proof. split; vm_compute; reflexivity. Qed.
