(* ===== verification/Agents.v ===== *)
(** * Agents: registration, approval, and what they gate

    internal/browserauth/agents.go and internal/persistence/mysql/agents.go.  A runner
    registers itself with an API key; somebody who may manage agents approves it.  The
    claim of a parallel run ([RunOps.validateParallelRunAgent]) reads the same rows. *)

From S2P Require Import Prelude GoStrings GoTime Json Redaction Effects RunTables Runs RunTokens RunOps RunCreate RunMachine LegacyAuth.
From S2P Require Import Paging RunTheorems CliTheorems SessionTheorems AccountHandlers AccountTheorems WorkspaceReads EvidenceExports.
From S2P Require Import JsonText JsonRoundTrip Http Contracts AccountTables Sessions Accounts Sql Desk Bodies.

(** ** Tables *)
Record RegistrationRow := {
  rg_id : Z;
  rg_idCostumer : Z;
  rg_agentId : string;
  rg_status : string;
  rg_version : option string;
  rg_runtimes : option string;
  rg_capabilities : option string;
  rg_identityProof : option string;
  rg_maxConcurrency : Z;
  rg_health : string;
  rg_lastSeenAt : option time;
  rg_created_at : option time;
  rg_updated_at : option time;
}.

Record AgentTables := {
  ag_accounts : AccountTables;
  ag_events : EventTable;
  ag_rows : list RegistrationRow;
  ag_next : Z;
}.

#[export] Instance agent_desk : Desk AgentTables := {|
  accounts := ag_accounts;
  with_accounts a d := {| ag_accounts := a; ag_events := ag_events d; ag_rows := ag_rows d; ag_next := ag_next d |};
  events := ag_events;
  with_events t d := {| ag_accounts := ag_accounts d; ag_events := t; ag_rows := ag_rows d; ag_next := ag_next d |};
|}.

#[export] Instance agent_desk_laws : DeskLaws AgentTables.
Proof. split; [by intros []|done..]. Qed.

Definition set_agents (l : list RegistrationRow) (next : Z) (d : AgentTables) : AgentTables :=
  {| ag_accounts := ag_accounts d; ag_events := ag_events d; ag_rows := l; ag_next := next |}.

(** ** Structs *)
Record AgentRegistration := {
  ar_ID : Z;
  ar_AgentID : string;
  ar_Status : string;
  ar_Version : option string;
  ar_Runtimes : json;
  ar_Capabilities : json;
  ar_IdentityProof : json;
  ar_MaxConcurrency : Z;
  ar_Health : string;
  ar_LastSeenAt : option time;
  ar_CreatedAt : option time;
  ar_UpdatedAt : option time;
}.

(** A nil interface is [JNull]. *)
Record AgentRegistrationInput := {
  ri_AgentID : string;
  ri_Version : option string;
  ri_Runtimes : json;
  ri_Capabilities : json;
  ri_IdentityProof : json;
  ri_MaxConcurrency : Z;
  ri_Health : string;
}.

(** ** The repository *)
Section Repository.
Context `{MS : MySQL} `{F : Floats} `{JC : JsonColumn}.
Context (now : time).
Notation R := (M AgentTables).

Definition decodeJSONValue (v : option string) : json :=
  match v with
  | None => JArr []
  | Some s => if String.eqb s "" then JArr [] else default (JArr []) (unmarshalAny s)
  end.

Definition scanAgent (r : RegistrationRow) : AgentRegistration :=
  {| ar_ID := rg_id r; ar_AgentID := rg_agentId r; ar_Status := rg_status r; ar_Version := rg_version r;
     ar_Runtimes := decodeJSONValue (rg_runtimes r); ar_Capabilities := decodeJSONValue (rg_capabilities r);
     ar_IdentityProof := decodeJSONValue (rg_identityProof r); ar_MaxConcurrency := rg_maxConcurrency r;
     ar_Health := rg_health r; ar_LastSeenAt := rg_lastSeenAt r; ar_CreatedAt := rg_created_at r;
     ar_UpdatedAt := rg_updated_at r |}.

Definition ListAgents (tenantID : Z) : R (list AgentRegistration) :=
  query "list agents" (fun d => map scanAgent (order_by (fun a b => text_le (rg_agentId a) (rg_agentId b))
    (List.filter (fun r => rg_idCostumer r =? tenantID) (ag_rows d)))).

(** WHERE idCostumer = ? AND agentId = ?, and WHERE id = ? AND idCostumer = ?. *)
Definition named_agent (tenantID : Z) (agentID : string) (r : RegistrationRow) : bool :=
  (rg_idCostumer r =? tenantID) && same (rg_agentId r) agentID.

Definition own_agent (tenantID id : Z) (r : RegistrationRow) : bool := (rg_id r =? id) && (rg_idCostumer r =? tenantID).

(** A JSON argument: "[]" for a nil interface. *)
Definition json_argument (v : json) : string := match v with JNull => "[]" | _ => marshal v end.

Definition default_health (h : string) : string := if String.eqb h "" then "unknown" else h.
Definition default_concurrency (n : Z) : Z := if n =? 0 then 1 else n.

(** The three JSON columns, when the server takes them. *)
Definition json_texts (input : AgentRegistrationInput) : option (string * string * string) :=
  runtimes ← json_column (json_argument (ri_Runtimes input));
  capabilities ← json_column (json_argument (ri_Capabilities input));
  proof ← json_column (json_argument (ri_IdentityProof input));
  Some (runtimes, capabilities, proof).

Definition new_agent (tenantID id : Z) (input : AgentRegistrationInput) (texts : string * string * string) : RegistrationRow :=
  let '(runtimes, capabilities, proof) := texts in
  {| rg_id := id; rg_idCostumer := tenantID; rg_agentId := ri_AgentID input; rg_status := "pending";
     rg_version := ri_Version input; rg_runtimes := Some runtimes; rg_capabilities := Some capabilities;
     rg_identityProof := Some proof; rg_maxConcurrency := default_concurrency (ri_MaxConcurrency input);
     rg_health := default_health (ri_Health input); rg_lastSeenAt := Some (column_time now);
     rg_created_at := Some (column_time now); rg_updated_at := Some (column_time now) |}.

Definition seen_again (input : AgentRegistrationInput) (texts : string * string * string) (r : RegistrationRow) : RegistrationRow :=
  let '(runtimes, capabilities, proof) := texts in
  {| rg_id := rg_id r; rg_idCostumer := rg_idCostumer r; rg_agentId := rg_agentId r; rg_status := rg_status r;
     rg_version := match ri_Version input with Some v => Some v | None => rg_version r end;
     rg_runtimes := Some runtimes; rg_capabilities := Some capabilities; rg_identityProof := Some proof;
     rg_maxConcurrency := default_concurrency (ri_MaxConcurrency input); rg_health := default_health (ri_Health input);
     rg_lastSeenAt := Some (column_time now); rg_created_at := rg_created_at r; rg_updated_at := Some (column_time now) |}.

Definition insert_agent (tenantID : Z) (input : AgentRegistrationInput) (d : AgentTables) : option (AgentTables * Z) :=
  texts ← json_texts input;
  if existsb (named_agent tenantID (ri_AgentID input)) (ag_rows d) then None
  else Some (set_agents (ag_rows d ++ [new_agent tenantID (ag_next d) input texts]) (ag_next d + 1) d, ag_next d).

Definition update_agent (tenantID id : Z) (input : AgentRegistrationInput) (d : AgentTables) : option (AgentTables * Z) :=
  texts ← json_texts input;
  Some (set_agents (map (fun r => if own_agent tenantID id r then seen_again input texts r else r) (ag_rows d)) (ag_next d) d, 0).

Definition no_rows {A} (op : string) : R A := fail (DatabaseFailure (safeDatabaseFailure op (OtherFault "no rows"))).

Definition RegisterAgent (tenantID : Z) (input : AgentRegistrationInput) : R (AgentRegistration * bool) :=
  transaction "start agent registration" "commit agent registration" (
    let! found := query "find agent registration" (fun d =>
      rg_id <$> List.find (named_agent tenantID (ri_AgentID input)) (ag_rows d)) in
    let! id := (match found with
      | Some id =>
          let! _ := exec_refusable "save agent registration" (update_agent tenantID id input) in ret id
      | None =>
          let! _ := exec_refusable "save agent registration" (insert_agent tenantID input) in
          let! id := query "read agent registration" (fun d =>
            rg_id <$> List.find (named_agent tenantID (ri_AgentID input)) (ag_rows d)) in
          match id with None => no_rows "read agent registration" | Some id => ret id end
      end) in
    let! row := query "scan agent registration" (fun d => List.find (own_agent tenantID id) (ag_rows d)) in
    match row with
    | None => no_rows "scan agent registration"
    | Some row => ret (scanAgent row, bool_decide (found = None))
    end).

Definition set_status (tenantID id : Z) (status : string) (r : RegistrationRow) : RegistrationRow :=
  if own_agent tenantID id r
  then {| rg_id := rg_id r; rg_idCostumer := rg_idCostumer r; rg_agentId := rg_agentId r; rg_status := status;
          rg_version := rg_version r; rg_runtimes := rg_runtimes r; rg_capabilities := rg_capabilities r;
          rg_identityProof := rg_identityProof r; rg_maxConcurrency := rg_maxConcurrency r; rg_health := rg_health r;
          rg_lastSeenAt := rg_lastSeenAt r; rg_created_at := rg_created_at r; rg_updated_at := Some (column_time now) |}
  else r.

(** The rows that an UPDATE really changes. *)
Definition changed_status (tenantID id : Z) (status : string) (r : RegistrationRow) : bool :=
  own_agent tenantID id r
  && negb (String.eqb (rg_status r) status && bool_decide (rg_updated_at r = Some (column_time now))).

Definition update_status (tenantID id : Z) (status : string) (d : AgentTables) : AgentTables * Z :=
  (set_agents (map (set_status tenantID id status) (ag_rows d)) (ag_next d) d,
   Z.of_nat (length (List.filter (changed_status tenantID id status) (ag_rows d)))).

Definition UpdateAgentStatus (tenantID id : Z) (status : string) : R AgentRegistration :=
  let! n := exec_count "update agent status" (update_status tenantID id status) in
  do! guard (negb (n =? 0)) ErrAgentNotFound;
  let! row := query "scan agent registration" (fun d => List.find (own_agent tenantID id) (ag_rows d)) in
  match row with None => no_rows "scan agent registration" | Some row => ret (scanAgent row) end.

(** ** The routes *)
Inductive agent_data := AgList (l : list AgentRegistration) | AgOne (a : AgentRegistration).

Notation greply := (desk_reply_of agent_data).
Notation H := (R greply).

Definition agent_message (status : Z) (text : string) : greply := written status (DMessage text).
Definition invalid_data : greply := agent_message 422 "The given data was invalid.".

Definition validAgentStatus (s : string) : bool := existsb (String.eqb s) ["approved"; "maintenance"; "draining"; "disabled"].
Definition validAgentHealth (s : string) : bool := existsb (String.eqb s) [""; "unknown"; "healthy"; "unhealthy"].

Definition Agents (r : Request) : H :=
  with_capability now r "agents.read" (fun user =>
    let! x := attempt (ListAgents (activeTenant user)) in
    ret (match x with Ok l => written 200 (DData (AgList l)) | Err _ => desk_failed end)).

Definition status_fields : list (string * setter string) := [("status", to_string (fun s _ => s))].

Definition UpdateAgentStatus_route (r : Request) : H :=
  with_capability now r "agents.manage" (fun user =>
    match parseInt (pathValue r "agentRegistration") with
    | None => ret desk_notFound
    | Some id =>
        match decode false status_fields "" (rq_body r) with
        | Decoded status =>
            if negb (validAgentStatus status) then ret invalid_data
            else
              let! x := attempt (UpdateAgentStatus (activeTenant user) id status) in
              ret (match x with
                   | Ok a => written 200 (DData (AgOne a))
                   | Err ErrAgentNotFound => desk_notFound
                   | Err _ => desk_failed
                   end)
        | _ => ret invalid_data
        end
    end).

Definition zero_input : AgentRegistrationInput :=
  {| ri_AgentID := ""; ri_Version := None; ri_Runtimes := JNull; ri_Capabilities := JNull; ri_IdentityProof := JNull;
     ri_MaxConcurrency := 0; ri_Health := "" |}.

Definition agent_fields : list (string * setter AgentRegistrationInput) :=
  [("agentId", to_string (fun s b => {| ri_AgentID := s; ri_Version := ri_Version b; ri_Runtimes := ri_Runtimes b;
      ri_Capabilities := ri_Capabilities b; ri_IdentityProof := ri_IdentityProof b; ri_MaxConcurrency := ri_MaxConcurrency b; ri_Health := ri_Health b |}));
   ("version", to_string_pointer (fun v b => {| ri_AgentID := ri_AgentID b; ri_Version := v; ri_Runtimes := ri_Runtimes b;
      ri_Capabilities := ri_Capabilities b; ri_IdentityProof := ri_IdentityProof b; ri_MaxConcurrency := ri_MaxConcurrency b; ri_Health := ri_Health b |}));
   ("runtimes", to_readable_any (fun v b => {| ri_AgentID := ri_AgentID b; ri_Version := ri_Version b; ri_Runtimes := v;
      ri_Capabilities := ri_Capabilities b; ri_IdentityProof := ri_IdentityProof b; ri_MaxConcurrency := ri_MaxConcurrency b; ri_Health := ri_Health b |}));
   ("capabilities", to_readable_any (fun v b => {| ri_AgentID := ri_AgentID b; ri_Version := ri_Version b; ri_Runtimes := ri_Runtimes b;
      ri_Capabilities := v; ri_IdentityProof := ri_IdentityProof b; ri_MaxConcurrency := ri_MaxConcurrency b; ri_Health := ri_Health b |}));
   ("identityProof", to_readable_any (fun v b => {| ri_AgentID := ri_AgentID b; ri_Version := ri_Version b; ri_Runtimes := ri_Runtimes b;
      ri_Capabilities := ri_Capabilities b; ri_IdentityProof := v; ri_MaxConcurrency := ri_MaxConcurrency b; ri_Health := ri_Health b |}));
   ("maxConcurrency", to_int (fun n b => {| ri_AgentID := ri_AgentID b; ri_Version := ri_Version b; ri_Runtimes := ri_Runtimes b;
      ri_Capabilities := ri_Capabilities b; ri_IdentityProof := ri_IdentityProof b; ri_MaxConcurrency := n; ri_Health := ri_Health b |}));
   ("health", to_string (fun s b => {| ri_AgentID := ri_AgentID b; ri_Version := ri_Version b; ri_Runtimes := ri_Runtimes b;
      ri_Capabilities := ri_Capabilities b; ri_IdentityProof := ri_IdentityProof b; ri_MaxConcurrency := ri_MaxConcurrency b; ri_Health := s |}))].

Definition valid_registration (b : AgentRegistrationInput) : bool :=
  negb (String.eqb (trimSpace (ri_AgentID b)) "") && (slen (ri_AgentID b) <=? 128)
  && (0 <=? ri_MaxConcurrency b) && (ri_MaxConcurrency b <=? 256) && validAgentHealth (ri_Health b).

(** [tenant]: what the API-key middleware put in the context. *)
Definition CLRegisterAgent (tenant : option LegacyAuth.TenantContext) (r : Request) : H :=
  match tenant with
  | None => ret (desk_reply unauthorized)
  | Some tc =>
      match decode false agent_fields zero_input (rq_body r) with
      | Decoded b =>
          if negb (valid_registration b) then ret invalid_data
          else
            let! x := attempt (RegisterAgent (tc_CustomerID tc) b) in
            ret (match x with
                 | Ok (a, created) => written (if created then 201 else 200) (DData (AgOne a))
                 | Err _ => desk_failed
                 end)
      | _ => ret invalid_data
      end
  end.

Inductive agent_route := AgentsRoute | AgentStatusRoute | RegisterAgentRoute.

Definition serve_agents (tenant : option LegacyAuth.TenantContext) (rt : agent_route) (r : Request) : H :=
  match rt with
  | AgentsRoute => Agents r
  | AgentStatusRoute => UpdateAgentStatus_route r
  | RegisterAgentRoute => CLRegisterAgent tenant r
  end.
End Repository.

(** ** What a claim reads of the rows *)
Definition claim_view `{F : Floats} (r : RegistrationRow) : AgentRow :=
  {| a_id := rg_id r; a_idCostumer := rg_idCostumer r; a_agentId := rg_agentId r; a_status := rg_status r;
     a_health := rg_health r; a_identityProof := rg_identityProof r ≫= unmarshalAny |}.

Definition with_registrations `{F : Floats} (d : AgentTables) (t : RunTables) : RunTables :=
  {| schedules := schedules t; next_schedule := next_schedule t; run_tokens := run_tokens t; next_token := next_token t;
     agent_registrations := map claim_view (ag_rows d); projects := projects t; test_cycles := test_cycles t;
     asset_versions := asset_versions t; audit_events := audit_events t |}.

(** ** What requests do *)
Section Requests.
Context `{MS : MySQL} `{!MySQLLaws MS} `{F : Floats} `{JC : JsonColumn}.
Implicit Types d : AgentTables.

(** A registration with this input: a new agent waits for its approval; an old one keeps
    its identity and its status. *)
Definition registers (now : time) (tenant : Z) (input : AgentRegistrationInput) d d' : Prop :=
  exists texts, json_texts input = Some texts /\
  ((existsb (named_agent tenant (ri_AgentID input)) (ag_rows d) = false
    /\ d' = set_agents (ag_rows d ++ [new_agent now tenant (ag_next d) input texts]) (ag_next d + 1) d)
   \/ exists old, List.find (named_agent tenant (ri_AgentID input)) (ag_rows d) = Some old
      /\ d' = set_agents (map (fun r => if own_agent tenant (rg_id old) r then seen_again now input texts r else r) (ag_rows d))
                (ag_next d) d).

(** A change of status, by a user who may manage the agents of the customer. *)
Definition decides (now : time) (r : Request) d (tenant id : Z) (status : string) d' : Prop :=
  (exists actor, asks_as now r d actor /\ In "agents.manage" (capabilitiesForRole (u_Role actor)) /\ activeTenant actor = tenant)
  /\ decode false status_fields "" (rq_body r) = Decoded status /\ parseInt (pathValue r "agentRegistration") = Some id
  /\ validAgentStatus status = true
  /\ d' = set_agents (map (set_status now tenant id status) (ag_rows d)) (ag_next d) d.

(** What a request may do to the tables. *)
Definition agent_step (now : time) (ctx : option LegacyAuth.TenantContext) (rt : agent_route) (r : Request) d d' : Prop :=
  match rt with
  | AgentsRoute => False
  | AgentStatusRoute => exists tenant id status, decides now r d tenant id status d'
  | RegisterAgentRoute => exists tc input, ctx = Some tc /\ decode false agent_fields zero_input (rq_body r) = Decoded input
      /\ valid_registration input = true /\ registers now (tc_CustomerID tc) input d d'
  end.

Lemma find_existsb {A} (p : A -> bool) l : existsb p l = match List.find p l with Some _ => true | None => false end.
Proof. induction l as [|x l IH]; [done|]. cbn. destruct (p x); [done|exact IH]. Qed.

Lemma set_agents_same d : set_agents (ag_rows d) (ag_next d) d = d.
Proof. by destruct d. Qed.

(** A registration is saved whole, with its agent as it is read back, or not at all. *)
Lemma wp_RegisterAgent now tenant input d (Q : outcome (AgentRegistration * bool) -> AgentTables -> Prop) :
  (forall a d', registers now tenant input d d' -> Q (Ok (a, negb (existsb (named_agent tenant (ri_AgentID input)) (ag_rows d)))) d') ->
  (forall m, Q (Err (DatabaseFailure m)) d) -> wp d (RegisterAgent now tenant input) Q.
Proof.
  intros H K. apply wp_transaction; [|done]. apply wp_bind, wp_query; [|done]. rewrite find_existsb in H.
  apply wp_bind. destruct (List.find _ (ag_rows d)) as [old|] eqn:E; cbn [fmap option_fmap option_map].
  - apply wp_bind, wp_exec_refusable; [|done]. intros d' n (texts & T & [= <- <-])%bind_Some. apply wp_ret.
    apply wp_bind, wp_query; [|done]. destruct (List.find (own_agent _ _) _); [|by apply wp_fail]. apply wp_ret, H.
    exists texts. split; [done|]. right. by exists old.
  - apply wp_bind, wp_exec_refusable; [|done]. intros d' n (texts & T & X)%bind_Some.
    rewrite find_existsb, E in X. injection X as <- <-. apply wp_bind, wp_query; [|done].
    destruct (rg_id <$> _) as [id|]; [|by apply wp_fail]. apply wp_ret, wp_bind, wp_query; [|done].
    destruct (List.find (own_agent _ _) _); [|by apply wp_fail]. apply wp_ret, H. exists texts. split; [done|]. left.
    by rewrite find_existsb, E.
Qed.

Lemma wp_UpdateAgentStatus now tenant id status d (Q : outcome AgentRegistration -> AgentTables -> Prop) :
  (forall x, Q x (set_agents (map (set_status now tenant id status) (ag_rows d)) (ag_next d) d)) ->
  (forall m, Q (Err (DatabaseFailure m)) d) -> wp d (UpdateAgentStatus now tenant id status) Q.
Proof.
  intros H K. apply wp_bind, wp_exec_count; [|done]. apply wp_bind, wp_guard; intros _; [|apply H].
  apply wp_bind, wp_query; [|intros; apply H]. destruct (List.find _ _); [apply wp_ret, H|apply wp_fail, H].
Qed.

Lemma wp_serve_agents now ctx rt r d (Q : outcome (desk_reply_of agent_data) -> AgentTables -> Prop) :
  (forall x d', d' = d \/ agent_step now ctx rt r d d' -> Q x d') -> wp d (serve_agents now ctx rt r) Q.
Proof.
  intros H. assert (N : forall x, Q x d) by (intros; apply H; by left). destruct rt; cbn [serve_agents].
  - apply wp_capability; [|done..]. intros actor _ _. apply wp_bind, wp_attempt, wp_query; intros; by apply wp_ret.
  - apply wp_capability; [|done..]. intros actor Ha Hc. destruct (parseInt _) as [id|] eqn:P; [|by apply wp_ret].
    destruct (decode _ _ _ _) as [status| |] eqn:B; [|by apply wp_ret..]. destruct (validAgentStatus status) eqn:V; [|by apply wp_ret].
    apply wp_bind, wp_attempt, wp_UpdateAgentStatus; [|intros; by apply wp_ret]. intros x.
    assert (Q' : forall y, Q y (set_agents (map (set_status now (activeTenant actor) id status) (ag_rows d)) (ag_next d) d)).
    { intros y. apply H. right. exists (activeTenant actor), id, status. repeat split; try done. by exists actor. }
    destruct x as [a|[]]; try apply wp_ret; apply Q'.
  - unfold CLRegisterAgent. destruct ctx as [tc|]; [|by apply wp_ret].
    destruct (decode _ _ _ _) as [b| |] eqn:B; [|by apply wp_ret..]. destruct (valid_registration b) eqn:V; [|by apply wp_ret].
    apply wp_bind, wp_attempt, wp_RegisterAgent; [|intros; by apply wp_ret]. intros a d' S. apply wp_ret, H. right.
    by exists tc, b.
Qed.

(** Requests one after the other, each at its time and meeting its failures; a request
    is seen with the tables that it starts from. *)
Record sent := { se_before : AgentTables; se_time : time; se_tenant : option LegacyAuth.TenantContext; se_route : agent_route; se_request : Request }.

Inductive served : AgentTables -> list sent -> AgentTables -> Prop :=
| served_none d : served d [] d
| served_one d now ctx rt r w w' x tr d' :
    w_db w = d -> serve_agents now ctx rt r w = (x, w') -> served (w_db w') tr d' ->
    served d ({| se_before := d; se_time := now; se_tenant := ctx; se_route := rt; se_request := r |} :: tr) d'.

(** The request approves an agent of the customer. *)
Definition approval (tenant : Z) (s : sent) : Prop :=
  se_route s = AgentStatusRoute
  /\ exists id d', decides (se_time s) (se_request s) (se_before s) tenant id "approved" d'.

(** The worker is registered with the customer and waits: no row of its name is approved. *)
Definition waiting (tenant : Z) (worker : string) d : Prop :=
  let rows := List.filter (fun r => (rg_idCostumer r =? tenant) && same (rg_agentId r) worker) (ag_rows d) in
  rows <> [] /\ Forall (fun r => rg_status r <> "approved") rows.

Lemma waiting_map tenant worker f d d' :
  ag_rows d' = map f (ag_rows d) ->
  (forall r, rg_idCostumer (f r) = rg_idCostumer r /\ rg_agentId (f r) = rg_agentId r) ->
  (forall r, rg_idCostumer r = tenant -> rg_status r <> "approved" -> rg_status (f r) <> "approved") ->
  waiting tenant worker d -> waiting tenant worker d'.
Proof.
  intros E I S. unfold waiting. rewrite E. clear E. revert S. generalize (ag_rows d) as l. clear d d'. intros l S.
  assert (X : List.filter (fun r => (rg_idCostumer r =? tenant) && same (rg_agentId r) worker) (map f l)
    = map f (List.filter (fun r => (rg_idCostumer r =? tenant) && same (rg_agentId r) worker) l)).
  { induction l as [|r l IH]; [done|]. cbn. destruct (I r) as [-> ->]. destruct (_ && _); cbn; by rewrite IH. }
  rewrite X. clear X. intros [N W]. split; [by destruct (List.filter _ l)|]. apply List.Forall_map. rewrite List.Forall_forall in *.
  intros r Hr. apply S; [|by apply W]. apply List.filter_In in Hr as [_ Hr]. lia.
Qed.

Lemma step_waits now ctx rt r d d' tenant worker :
  agent_step now ctx rt r d d' -> waiting tenant worker d ->
  waiting tenant worker d' \/ approval tenant {| se_before := d; se_time := now; se_tenant := ctx; se_route := rt; se_request := r |}.
Proof.
  destruct rt; cbn; [done| |].
  - intros (t & id & status & D) W. pose proof D as ((actor & Ha & Hc & Ht) & B & P & V & ->).
    destruct (decide (t = tenant /\ status = "approved")) as [[-> ->]|N].
    { right. split; [done|]. by exists id, (set_agents (map (set_status now tenant id "approved") (ag_rows d)) (ag_next d) d). }
    left. eapply waiting_map; [done|..|exact W]; intros r'; unfold set_status, own_agent; destruct (_ && _) eqn:O; cbn; try done.
    intros T _ ->. apply N. split; [lia|done].
  - intros (tc & input & -> & B & V & texts & T & [[N ->]|(old & O & ->)]) W; left.
    + destruct W as [W1 W2]. unfold waiting. cbn [ag_rows set_agents]. rewrite List.filter_app. split.
      { intros E. apply app_nil in E as [E _]. by destruct W1. }
      apply List.Forall_app. split; [exact W2|]. destruct texts as [[rt cp] pf]. cbn. by destruct (_ && _); repeat constructor.
    + eapply waiting_map; [done|..|exact W]; intros r'; destruct texts as [[rt cp] pf]; by destruct (own_agent _ _ _).
Qed.

Lemma served_waits d tr d' tenant worker :
  served d tr d' -> waiting tenant worker d -> waiting tenant worker d' \/ Exists (approval tenant) tr.
Proof.
  induction 1 as [d|d now ctx rt r w w' x tr d' Hw E S IH]; intros W; [by left|]. subst d.
  assert (X : w_db w' = w_db w \/ agent_step now ctx rt r (w_db w) (w_db w')).
  { refine (wp_elim _ w (fun _ e => e = w_db w \/ agent_step now ctx rt r (w_db w) e) _ _ _ E). apply wp_serve_agents. auto. }
  assert (Y : waiting tenant worker (w_db w') \/ approval tenant {| se_before := w_db w; se_time := now; se_tenant := ctx; se_route := rt; se_request := r |}).
  { destruct X as [->|X]; [by left|]. by eapply step_waits. }
  destruct Y as [Y|Y]; [|right; by left]. destruct (IH Y) as [Z|Z]; [by left|right; by right].
Qed.
End Requests.

(** ** What gates a claim *)
Definition same_agents (d d' : RunTables) : Prop := agent_registrations d' = agent_registrations d.

#[local] Instance same_agents_refl : Reflexive same_agents.
Proof. done. Qed.

#[local] Instance same_agents_trans : Transitive same_agents.
Proof. unfold same_agents. congruence. Qed.

Section Gate.
Context `{MS : MySQL} `{F : Floats} `{JC : JsonColumn} `{B : Bcrypt}.

Lemma agents_add_audit op e : preserves same_agents (exec op (add_audit e)).
Proof. by apply preserves_exec; [apply _..|]. Qed.

Lemma agents_update_tokens id c f d : same_agents d (fst (update_tokens id c f d)).
Proof. done. Qed.

#[local] Hint Resolve agents_add_audit agents_update_tokens : effects.

Lemma agents_before_claim m input :
  preserves same_agents (if cl_IssueWorkerToken input then let! t := issue_worker_token in ret (Some t) else ret None)
  /\ preserves same_agents (if String.eqb (cl_RunToken input) "" then ret tt else consume_with_audit m input).
Proof.
  split.
  - unfold issue_worker_token, randomParallelRunTokenPart, generateFromPassword. solve_preserves.
  - unfold consume_with_audit, consumeParallelRunToken, recordParallelRunTokenAudit. solve_preserves.
Qed.

(** A claim for a worker whose rows wait is refused in its transaction. *)
Lemma waiting_refused tenant worker d input runs :
  waiting tenant worker d -> agent_registrations runs = map claim_view (ag_rows d) ->
  cl_TenantID input = tenant -> cl_WorkerID input = worker ->
  wp runs (validateParallelRunAgent input) (fun x _ => exists e, x = Err e).
Proof.
  intros [N W] E <- <-. apply wp_bind, wp_query; [|by eexists]. rewrite E. clear E. revert N W.
  induction (ag_rows d) as [|r l IH]; [done|]. cbn. destruct (_ && _); [|exact IH]. intros _ W.
  inversion W as [|? ? A _]; subst. apply wp_bind, wp_guard; intros _; [|by eexists].
  apply wp_guard; [|by eexists]. by intros [X%String.eqb_eq _]%andb_true_iff.
Qed.

Lemma transaction_refused tenant worker d input hash runs :
  waiting tenant worker d -> agent_registrations runs = map claim_view (ag_rows d) ->
  cl_TenantID input = tenant -> cl_WorkerID input = worker ->
  wp runs (claim_transaction input hash) (fun x _ => exists e, x = Err e).
Proof.
  intros W E T K. apply wp_transaction; [|by eexists]. apply wp_bind, wp_query; [|by eexists].
  unfold parallelRunNotFound. destruct (select_schedule _ _ _ _) as [row|]; [|by apply wp_bind, wp_fail; eexists].
  apply wp_bind, wp_ret. do 2 (apply wp_bind, wp_guard; intros _; [|by eexists]).
  apply wp_bind. eapply wp_weaken; [by eapply waiting_refused|]. intros x d' [e ->]. by eexists.
Qed.

Lemma gate_refuses_claim tenant worker d m input runs x w w' :
  waiting tenant worker d -> w_db w = with_registrations d runs ->
  cl_TenantID input = tenant -> cl_WorkerID input = worker ->
  ClaimParallelRun m input w = (x, w') -> exists e, x = Err e.
Proof.
  intros W E T K X. assert (A : agent_registrations (w_db w) = map claim_view (ag_rows d)) by (by rewrite E).
  destruct (agents_before_claim m input) as [PI PC]. unfold ClaimParallelRun in X. unfold bind at 1 in X.
  specialize (PI w). unfold same_agents in PI. destruct_after PI as [[token|e1] w1]; simpl in PI; [|injection X as <- _; by eexists].
  unfold bind at 1 in X. specialize (PC w1). unfold same_agents in PC.
  destruct_after PC as [[u|e1] w2]; simpl in PC; [|injection X as <- _; by eexists].
  rewrite PI in PC. rewrite A in PC. unfold bind at 1 in X. destruct (claim_transaction _ _ w2) as [y w3] eqn:Y.
  destruct (wp_elim _ w2 _ _ _ (transaction_refused tenant worker d input _ _ W PC T K) Y) as [e ->].
  injection X as <- _. by eexists.
Qed.
End Gate.

(** Claim C24: an agent that waits runs nothing until somebody approves it.  Let every row
    of the worker's name, and there is one, be other than approved, and then any requests
    be served: registrations with any API key and any body, lists, changes of status,
    whatever fails among them.  Either a signed-in user who may manage the agents of that
    customer has set a status to approved, or a claim of a run for this worker, with
    whatever token and certificate, is refused and no run has changed. *)
Theorem approval_gates_claims `{MS : MySQL} `{!MySQLLaws MS} `{F : Floats} `{JC : JsonColumn} `{B : Bcrypt}
    d tr d' (runs : RunTables) m input x (w w' : world RunTables) :
  waiting (cl_TenantID input) (cl_WorkerID input) d -> served d tr d' ->
  w_db w = with_registrations d' runs -> ClaimParallelRun m input w = (x, w') ->
  Exists (approval (cl_TenantID input)) tr
  \/ (exists e, x = Err e) /\ schedules (w_db w') = schedules runs.
Proof.
  intros W S E X. destruct (served_waits _ _ _ _ _ S W) as [Y|Y]; [right|by left].
  destruct (gate_refuses_claim _ _ _ _ _ _ _ _ _ Y E eq_refl eq_refl X) as [e ->]. split; [by eexists|].
  destruct (claim_err _ _ _ _ _ X) as [-> _]. by rewrite E.
Qed.

(** ** Concrete agents *)
Definition waiting_agent : RegistrationRow :=
  {| rg_id := 4; rg_idCostumer := 8; rg_agentId := "w1"; rg_status := "pending"; rg_version := None;
     rg_runtimes := Some "[]"; rg_capabilities := Some "[]"; rg_identityProof := Some (json_text "{'certificateSha256':'AA'}");
     rg_maxConcurrency := 1; rg_health := "unknown"; rg_lastSeenAt := None; rg_created_at := None; rg_updated_at := None |}.

Definition agent_tables : AgentTables :=
  {| ag_accounts := w_db admin_world; ag_events := {| et_rows := []; et_next := 1 |}; ag_rows := [waiting_agent]; ag_next := 5 |}.

Definition key_of_8 : option LegacyAuth.TenantContext := Some {| tc_CustomerID := 8 |}.

(** A registration of w1 with a proof, by a holder of an API key of customer 8. *)
Definition registration (proof : string) : Request :=
  work_request [] [("agentId", text_field "w1");
                   ("identityProof", {| fl_value := JObj [("certificateSha256", JStr proof)]; fl_int := None |})].

Definition approve_request : Request := work_request [("agentRegistration", "4")] [("status", text_field "approved")].

Definition serve_sample_agents (rt : agent_route) (r : Request) : M AgentTables (desk_reply_of agent_data) :=
  serve_agents noon key_of_8 rt r.

#[local] Notation after rt r d := (w_db (snd (serve_sample_agents rt r (World d [] [])))).
#[local] Notation status rt r d := (match fst (serve_sample_agents rt r (World d [] [])) with Ok x => Some (rp_status x) | Err _ => None end).

(** A run of customer 8, and a claim of it with a certificate. *)
Definition run_of_8 : RunTables :=
  play {| schedules := ∅; next_schedule := 1; run_tokens := []; next_token := 1; agent_registrations := [];
          projects := {[ 1 := 8 ]}; test_cycles := {[ 5 := {| y_idProject := 1; y_idCostumer := 8; y_config := JObj [] |} ]};
          asset_versions := []; audit_events := [] |}
    [OpCreate {| p_TenantID := 8; p_ProjectID := 1; p_TestCycleID := 5; p_IdempotencyKey := "k";
                 p_RequestedConcurrency := 1; p_Metadata := []; p_Now := noon |} None].

Definition claim_of_8 (certificate : string) : ParallelRunClaim :=
  {| cl_TenantID := 8; cl_ActorUserID := None; cl_ActorTenantID := 8; cl_ProjectID := 1; cl_RunID := 1; cl_WorkerID := "w1";
     cl_Capabilities := []; cl_CapabilitiesSet := false; cl_RunToken := ""; cl_CertificateHash := certificate;
     cl_IssueWorkerToken := false; cl_Now := noon |}.

Definition claimed (certificate : string) (d : AgentTables) : outcome ParallelRun * world RunTables :=
  ClaimParallelRun sample_meta (claim_of_8 certificate) (World (with_registrations d run_of_8) [] []).

Definition claim_succeeds (certificate : string) (d : AgentTables) : bool :=
  match fst (claimed certificate d) with Ok _ => true | Err _ => false end.

(** The worker registers again, is approved, and claims. *)
Lemma approval_gates_claims_witness :
  let d1 := after RegisterAgentRoute (registration "BB") agent_tables in
  let d2 := after AgentStatusRoute approve_request d1 in
  waiting 8 "w1" agent_tables
  /\ claim_succeeds "bb" d1 = false /\ claim_succeeds "bb" d2 = true
  /\ exists s, approval 8 s /\ se_before s = d1.
Proof.
  intros d1 d2. assert (W : waiting 8 "w1" agent_tables) by (split; [done|by repeat constructor]).
  split; [exact W|]. split; [vm_compute; reflexivity|].
  assert (C : claim_succeeds "bb" d2 = true) by (vm_compute; reflexivity). split; [exact C|].
  pose (s1 := {| se_before := agent_tables; se_time := noon; se_tenant := key_of_8; se_route := RegisterAgentRoute; se_request := registration "BB" |}).
  pose (s2 := {| se_before := d1; se_time := noon; se_tenant := key_of_8; se_route := AgentStatusRoute; se_request := approve_request |}).
  assert (S : served agent_tables [s1; s2] d2).
  { eapply (served_one _ _ _ _ _ (World agent_tables [] [])); [done|apply surjective_pairing|].
    eapply (served_one _ _ _ _ _ (World d1 [] [])); [done|apply surjective_pairing|]. apply served_none. }
  destruct (approval_gates_claims agent_tables [s1; s2] d2 run_of_8 sample_meta (claim_of_8 "bb") _
    (World (with_registrations d2 run_of_8) [] []) _ W S eq_refl (surjective_pairing _))
    as [A|[[e E] _]].
  - apply List.Exists_cons in A as [[A _]|A]; [discriminate A|]. apply List.Exists_cons in A as [A|A]; [|apply List.Exists_nil in A; destruct A].
    exists s2. split; [exact A|reflexivity].
  - exfalso. unfold claim_succeeds, claimed in C. rewrite E in C. discriminate C.
Defined.

(** The status of an approved agent outlives the replacement of its identity: the holder of
    an API key registers the agent again with the proof of another certificate, and claims
    with that one. *)
Example registration_replaces_identity :
  let d2 := after AgentStatusRoute approve_request agent_tables in
  let d3 := after RegisterAgentRoute (registration "CC") d2 in
  (claim_succeeds "aa" d2, claim_succeeds "cc" d2) = (true, false)
  /\ (claim_succeeds "aa" d3, claim_succeeds "cc" d3) = (false, true)
  /\ map rg_status (ag_rows d3) = ["approved"].
Proof. repeat split; vm_compute; reflexivity. Qed.

(** Approving an agent twice within a second: the second answer is 404. *)
Example approved_twice :
  status AgentStatusRoute approve_request agent_tables = Some 200
  /\ status AgentStatusRoute approve_request (after AgentStatusRoute approve_request agent_tables) = Some 404.
Proof. split; vm_compute; reflexivity. Qed.

(** No request about agents leaves an event in the audit log. *)
Example approval_not_audited :
  ag_events (after AgentStatusRoute approve_request agent_tables) = ag_events agent_tables.
Proof. vm_compute. reflexivity. Qed.
