(* ===== verification/Middleware.v ===== *)
(** * The middleware chain

    internal/httpx (middleware.go, response.go), internal/health/handler.go, and the chain
    of internal/app/router.go around every route: correlation identifiers, security
    headers, the access log and panic recovery, over what net/http does with the calls of
    a handler.

    Durations and stacks are left out of the log entries. *)

From stdpp Require Import pretty.
From S2P Require Import Prelude GoStrings GoTime Json JsonText Effects.
From S2P Require Import Http Contracts Desk SessionTheorems CliTheorems EvidenceExports Agents.

(** ** Writers

    [http.ResponseWriter].  [true]: the call panics. *)
Class Writer (W : Type) := {
  set_header : string -> string -> W -> W;
  write_header : Z -> W -> W * bool;
  write : string -> W -> W * Z * bool;  (** with the bytes that were taken *)
}.

(** *** net/http *)
Record sent_head := { sh_status : Z; sh_header : dict string }.

(** The request is a HEAD; the header map; the head once it is sent; the Content-Length that
    was declared then; the bytes given to [Write] and those it took. *)
Record conn := {
  cn_head : bool;
  cn_header : dict string;
  cn_sent : option sent_head;
  cn_length : option Z;
  cn_written : Z;
  cn_body : string;
}.

(** What the client gets: the bytes that were taken for a HEAD are thrown away. *)
Definition sent_body (c : conn) : string := if cn_head c then "" else cn_body c.

Definition informational (status : Z) : bool := (100 <=? status) && (status <=? 199) && negb (status =? 101).

Definition body_allowed (status : Z) : bool :=
  negb (((100 <=? status) && (status <=? 199)) || (status =? 204) || (status =? 304)).

(** The Content-Length of the header map; one that is not a length is dropped from it. *)
Definition declared_length (h : dict string) : option Z :=
  value ← dget "Content-Length" h; v ← parseInt value; if 0 <=? v then Some v else None.

Definition send (status : Z) (c : conn) : conn :=
  let length := declared_length (cn_header c) in
  {| cn_head := cn_head c;
     cn_header := match length with Some _ => cn_header c | None => ddel "Content-Length" (cn_header c) end;
     cn_sent := Some {| sh_status := status; sh_header := cn_header c |}; cn_length := length;
     cn_written := cn_written c; cn_body := cn_body c |}.

(** A second call does nothing, a status outside 100-999 panics, and an informational one
    leaves the head to be sent. *)
Definition conn_write_header (status : Z) (c : conn) : conn * bool :=
  match cn_sent c with
  | Some _ => (c, false)
  | None =>
      if (status <? 100) || (999 <? status) then (c, true)
      else if informational status then (c, false)
      else (send status c, false)
  end.

Definition implicit_head (c : conn) : conn := match cn_sent c with None => send 200 c | Some _ => c end.

Definition take_bytes (payload : string) (c : conn) : conn * Z * bool :=
  let written := cn_written c + slen payload in
  let fits := match cn_length c with Some n => written <=? n | None => true end in
  ({| cn_head := cn_head c; cn_header := cn_header c; cn_sent := cn_sent c; cn_length := cn_length c; cn_written := written;
      cn_body := if fits then cn_body c +:+ payload else cn_body c |},
   if fits then slen payload else 0, false).

(** Nothing is taken for a status without a body, nor when more was given than was declared;
    for a HEAD the bytes count as taken. *)
Definition conn_write (payload : string) (c : conn) : conn * Z * bool :=
  let c := implicit_head c in
  if String.eqb payload "" then (c, 0, false)
  else
    match cn_sent c with
    | Some h => if body_allowed (sh_status h) then take_bytes payload c else (c, 0, false)
    | None => (c, 0, false)
    end.

#[export] Instance conn_writer : Writer conn := {|
  set_header k v c := {| cn_head := cn_head c; cn_header := dset k v (cn_header c); cn_sent := cn_sent c; cn_length := cn_length c;
                         cn_written := cn_written c; cn_body := cn_body c |};
  write_header := conn_write_header;
  write := conn_write;
|}.

(** *** [statusRecorder] *)
Record statusRecorder (W : Type) := Recorder { sr_writer : W; sr_status : Z; sr_bytes : Z }.
Arguments Recorder {W}.
Arguments sr_writer {W}.
Arguments sr_status {W}.
Arguments sr_bytes {W}.

Section Recorder.
Context {W : Type} `{Writer W}.

Definition recorder_write_header (status : Z) (r : statusRecorder W) : statusRecorder W * bool :=
  if negb (sr_status r =? 0) then (r, false)
  else let '(w, panics) := write_header status (sr_writer r) in (Recorder w status (sr_bytes r), panics).

Definition recorder_write (payload : string) (r : statusRecorder W) : statusRecorder W * Z * bool :=
  let '(r, panics) := if sr_status r =? 0 then recorder_write_header 200 r else (r, false) in
  if panics then (r, 0, true)
  else let '(w, written, panics) := write payload (sr_writer r) in
       (Recorder w (sr_status r) (sr_bytes r + written), written, panics).
End Recorder.

#[export] Instance recorder_writer {W} `{Writer W} : Writer (statusRecorder W) := {|
  set_header k v r := Recorder (set_header k v (sr_writer r)) (sr_status r) (sr_bytes r);
  write_header := recorder_write_header;
  write := recorder_write;
|}.

(** ** Handlers

    A handler of the routes is the calls that it makes, in order, and whether it panics
    after them; a call that panics ends it. *)
Inductive call := SetHeader (name value : string) | WriteHeader (status : Z) | Write (payload : string).

Record script := { sc_calls : list call; sc_panics : bool }.

Definition make_call {W} `{Writer W} (c : call) (w : W) : W * bool :=
  match c with
  | SetHeader k v => (set_header k v w, false)
  | WriteHeader status => write_header status w
  | Write payload => let '(w, _, panics) := write payload w in (w, panics)
  end.

Fixpoint make_calls {W} `{Writer W} (l : list call) (w : W) : W * bool :=
  match l with
  | [] => (w, false)
  | c :: l' => let '(w, panics) := make_call c w in if panics then (w, true) else make_calls l' w
  end.

(** The request as the chain sees it; [cx_correlation] is the value of its context. *)
Record context := { cx_method : string; cx_path : string; cx_header : dict string; cx_correlation : string }.

Inductive entry :=
| Recovered (correlation method path : string)
| Completed (correlation method path : string) (status bytes : Z).

(** [http.Handler] over any writer: the writer, the log, and whether it panics. *)
Definition Handler : Type := forall W, Writer W -> context -> W -> W * list entry * bool.

Definition of_script (f : context -> script) : Handler := fun W _ cx w =>
  let '(w, panics) := make_calls (sc_calls (f cx)) w in (w, [], panics || sc_panics (f cx)).

(** *** response.go *)
Section Chain.
Context `{F : Floats}.

Definition WriteJSON (status : Z) (payload : json) : list call :=
  [SetHeader "Content-Type" "application/json; charset=utf-8"; WriteHeader status; Write (marshal payload +:+ of_chars [byte 10])].

(** [ErrorResponse], in the order of its fields. *)
Definition error_response (code message correlation : string) : json :=
  JObj [("error", JObj ([("code", JStr code); ("message", JStr message)]
                        ++ (if String.eqb correlation "" then [] else [("correlationId", JStr correlation)])))].

Definition WriteError (cx : context) (status : Z) (code message : string) : list call :=
  WriteJSON status (error_response code message (cx_correlation cx)).

(** *** Correlation identifiers *)
Definition correlation_char (c : ascii) : bool :=
  within 97 122 c || within 65 90 c || within 48 57 c || existsb (Ascii.eqb c) ["."; "_"; ":"; "-"]%char.

Definition maxCorrelationIDLength : Z := 128.

Definition validCorrelationID (value : string) : bool :=
  negb (String.eqb value "" || (maxCorrelationIDLength <? slen value)) && forallb correlation_char (chars value).

(** What a fresh identifier is made of: sixteen random bytes, or the clock and the next
    number of the sequence. *)
Record source := { so_random : option string; so_now : time; so_sequence : Z }.

Definition digit36 (n : Z) : ascii := if n <? 10 then digit_char n else Ascii.ascii_of_nat (Z.to_nat (87 + n)).

Fixpoint base36_chars (fuel : nat) (n : Z) : list ascii :=
  match fuel with
  | O => []
  | S fuel' => if n <? 36 then [digit36 n] else (base36_chars fuel' (n / 36) ++ [digit36 (n mod 36)])%list
  end.

(** [strconv.FormatUint(n, 36)]: a uint64 has at most thirteen digits. *)
Definition base36 (n : Z) : list ascii := base36_chars 13 n.

(** [Format("20060102T150405.000000000")]. *)
Definition fallback_time (t : time) : list ascii :=
  let secs := t / second in
  let '(y, m, d) := civil_of_days (secs / 86400) in
  let sod := secs mod 86400 in
  (year_text y ++ pad_digits 2 m ++ pad_digits 2 d ++ "T"%char :: pad_digits 2 (sod / 3600) ++ pad_digits 2 (sod / 60 mod 60)
   ++ pad_digits 2 (sod mod 60) ++ "."%char :: pad_digits 9 (t mod second))%list.

Definition newCorrelationID (so : source) : string :=
  match so_random so with
  | Some identifier => hexEncode identifier
  | None => "request-" +:+ of_chars (fallback_time (so_now so) ++ "-"%char :: base36 ((so_sequence so + 1) mod 2 ^ 64))
  end.

(** The identifier of a request. *)
Definition correlation_of (so : source) (header : dict string) : string :=
  let correlationID := trimSpace (default "" (dget "X-Correlation-ID" header)) in
  if validCorrelationID correlationID then correlationID else newCorrelationID so.

Definition CorrelationID (so : source) (next : Handler) : Handler := fun W _ cx w =>
  let correlationID := correlation_of so (cx_header cx) in
  next W _ {| cx_method := cx_method cx; cx_path := cx_path cx; cx_header := cx_header cx; cx_correlation := correlationID |}
    (set_header "X-Correlation-ID" correlationID w).

(** *** The other middleware *)
Definition security_headers : list (string * string) :=
  [("X-Content-Type-Options", "nosniff"); ("X-Frame-Options", "DENY"); ("Referrer-Policy", "no-referrer");
   ("Content-Security-Policy", "default-src 'none'; frame-ancestors 'none'");
   ("Permissions-Policy", "camera=(), geolocation=(), microphone=()");
   ("Strict-Transport-Security", "max-age=31536000; includeSubDomains"); ("X-Permitted-Cross-Domain-Policies", "none")].

Definition SecureHeaders (next : Handler) : Handler := fun W _ cx w =>
  next W _ cx (fold_left (fun w kv => set_header (fst kv) (snd kv) w) security_headers w).

Definition Recoverer (next : Handler) : Handler := fun W _ cx w =>
  let '(w, log, panics) := next W _ cx w in
  if panics then
    let '(w, panics) := make_calls (WriteError cx 500 "INTERNAL_ERROR" "The request could not be completed.") w in
    (w, (log ++ [Recovered (cx_correlation cx) (cx_method cx) (cx_path cx)])%list, panics)
  else (w, log, false).

(** A panic of the next handler passes before anything is logged. *)
Definition AccessLogger (next : Handler) : Handler := fun W _ cx w =>
  let '(r, log, panics) := next (statusRecorder W) _ cx (Recorder w 0 0) in
  if panics then (sr_writer r, log, true)
  else
    let status := if sr_status r =? 0 then 200 else sr_status r in
    (sr_writer r, (log ++ [Completed (cx_correlation cx) (cx_method cx) (cx_path cx) status (sr_bytes r)])%list, false).

(** The chain of [NewRouter]. *)
Definition chain (so : source) (next : Handler) : Handler :=
  CorrelationID so (SecureHeaders (AccessLogger (Recoverer next))).

(** A connection before anything is written. *)
Definition fresh_conn (method : string) : conn :=
  {| cn_head := String.eqb method "HEAD"; cn_header := []; cn_sent := None; cn_length := None; cn_written := 0; cn_body := "" |}.

(** A request on a connection: [finishRequest] sends a head when nobody has. *)
Definition respond (so : source) (next : Handler) (method path : string) (header : dict string) : conn * list entry * bool :=
  let '(c, log, panics) := chain so next conn _ {| cx_method := method; cx_path := path; cx_header := header; cx_correlation := "" |}
                             (fresh_conn method) in
  (implicit_head c, log, panics).

(** *** internal/health/handler.go, and the routes that do not exist *)
Record Info := { bi_Service : string; bi_Version : string; bi_Commit : string }.

Definition info_members (i : Info) : list (string * json) :=
  [("service", JStr (bi_Service i)); ("version", JStr (bi_Version i)); ("commit", JStr (bi_Commit i))].

Definition no_store : call := SetHeader "Cache-Control" "no-store".

Definition Live (i : Info) (cx : context) : script :=
  {| sc_calls := no_store :: WriteJSON 200 (JObj (("status", JStr "ok") :: info_members i)); sc_panics := false |}.

(** [reachable]: what the check of the database found. *)
Definition Ready (i : Info) (reachable : bool) (cx : context) : script :=
  {| sc_calls := no_store ::
       (if reachable
        then WriteJSON 200 (JObj ([("status", JStr "ok"); ("dependencies", JObj [("database", JStr "ok")])] ++ info_members i))
        else WriteError cx 503 "DEPENDENCY_UNAVAILABLE" "Service dependencies are not ready.");
     sc_panics := false |}.

Definition NotFound (cx : context) : script :=
  {| sc_calls := WriteError cx 404 "ROUTE_NOT_FOUND" "The requested route does not exist."; sc_panics := false |}.

Definition MethodNotAllowed (cx : context) : script :=
  {| sc_calls := WriteError cx 405 "METHOD_NOT_ALLOWED" "The HTTP method is not supported for this route."; sc_panics := false |}.
End Chain.

(** ** Correlation identifiers are safe *)
Lemma within_code a b n : (n < 256)%nat -> within a b (Ascii.ascii_of_nat n) = (a <=? Z.of_nat n) && (Z.of_nat n <=? b).
Proof.
  intros H. unfold within, code. enough (Z.of_N (Ascii.N_of_ascii (Ascii.ascii_of_nat n)) = Z.of_nat n) as -> by done.
  rewrite <- (Ascii.nat_ascii_embedding n) at 2 by lia. unfold Ascii.nat_of_ascii. by rewrite N_nat_Z.
Qed.

Lemma digit36_char n : 0 <= n < 36 -> correlation_char (digit36 n) = true.
Proof.
  intros H. unfold digit36, digit_char, correlation_char.
  destruct (n <? 10) eqn:E; rewrite !within_code by lia; rewrite Z2Nat.id by lia.
  - enough ((48 <=? 48 + n) && (48 + n <=? 57) = true) as -> by (by rewrite !orb_true_r). lia.
  - enough ((97 <=? 87 + n) && (87 + n <=? 122) = true) as -> by done. lia.
Qed.

Lemma pad_digits_safe w n : forallb correlation_char (pad_digits w n) = true.
Proof.
  revert n. induction w as [|w IH]; intros n; [done|]. cbn [pad_digits]. rewrite forallb_app, IH. cbn.
  assert (B : 0 <= n mod 10 < 10) by (apply Z.mod_pos_bound; lia).
  pose proof (digit36_char (n mod 10) ltac:(lia)) as X. unfold digit36 in X.
  assert (n mod 10 <? 10 = true) as E by lia. rewrite E in X. by rewrite X.
Qed.

Lemma base36_safe fuel n : 0 <= n -> forallb correlation_char (base36_chars fuel n) = true /\ (length (base36_chars fuel n) <= fuel)%nat.
Proof.
  revert n. induction fuel as [|fuel IH]; intros n N; [done|]. cbn [base36_chars]. destruct (n <? 36) eqn:E.
  - cbn. rewrite digit36_char by lia. split; [done|lia].
  - destruct (IH (n / 36)) as [S L]; [apply Z.div_pos; lia|]. rewrite forallb_app, length_app, S. cbn.
    rewrite digit36_char by (apply Z.mod_pos_bound; lia). split; [done|lia].
Qed.

(** Thirteen digits are enough for a uint64: the digits give the number back. *)
Definition value36 (l : list Z) : Z := fold_left (fun acc d => acc * 36 + d) l 0.

Fixpoint digits36 (fuel : nat) (n : Z) : list Z :=
  match fuel with
  | O => []
  | S fuel' => if n <? 36 then [n] else (digits36 fuel' (n / 36) ++ [n mod 36])%list
  end.

Lemma base36_digits fuel n : base36_chars fuel n = map digit36 (digits36 fuel n).
Proof.
  revert n. induction fuel as [|fuel IH]; intros n; [done|]. cbn. destruct (n <? 36); [done|]. by rewrite map_app, IH.
Qed.

Lemma base36_fuel fuel n : 0 <= n < 36 ^ Z.of_nat fuel -> value36 (digits36 fuel n) = n.
Proof.
  revert n. induction fuel as [|fuel IH]; intros n N; [cbn in *; lia|]. cbn [digits36]. destruct (n <? 36) eqn:E; [unfold value36; cbn; lia|].
  unfold value36. rewrite fold_left_app. fold (value36 (digits36 fuel (n / 36))). rewrite IH; [cbn; pose proof (Z.div_mod n 36); lia|].
  rewrite Nat2Z.inj_succ, Z.pow_succ_r in N by lia. split; [apply Z.div_pos; lia|apply Z.div_lt_upper_bound; lia].
Qed.

Lemma is_hex_safe c : is_hex c = true -> correlation_char c = true.
Proof. by destruct c as [[] [] [] [] [] [] [] []]; vm_compute. Qed.

Lemma padded_length w n : length (pad_digits w n) = w.
Proof. revert n. induction w as [|w IH]; intros n; [done|]. cbn. rewrite length_app, IH. cbn. lia. Qed.

(** A fresh identifier from sixteen bytes, or from a time of a year of four digits. *)
Definition source_ok (so : source) : Prop :=
  match so_random so with Some b => String.length b = 16%nat | None => four_digit_year (so_now so) = true end.

Lemma newCorrelationID_valid so : source_ok so -> validCorrelationID (newCorrelationID so) = true.
Proof.
  unfold source_ok, validCorrelationID, newCorrelationID, maxCorrelationIDLength. destruct (so_random so) as [b|]; intros H.
  - assert (L : slen (hexEncode b) = 32) by (unfold slen; rewrite hexEncode_length, H; done).
    apply andb_true_iff. split; [destruct (hexEncode b); [done|rewrite L; done]|].
    apply forallb_forall. intros c Hc. apply is_hex_safe. pose proof (hexEncode_hex b) as X. rewrite List.Forall_forall in X. by apply X.
  - unfold four_digit_year in H. unfold fallback_time.
    set (q := (so_sequence so + 1) mod 2 ^ 64). assert (Q : 0 <= q) by (apply Z.mod_pos_bound; lia).
    destruct (base36_safe 13 q Q) as [S L]. fold (base36 q) in S, L. revert S L. generalize (base36 q) as digits. intros digits S L.
    rewrite (Z.div_div _ microsecond 1000000) in H by (unfold microsecond; lia). change (microsecond * 1000000) with second in H.
    destruct (civil_of_days _) as [[y m] d]. unfold year_text. rewrite H. unfold slen. rewrite <- length_chars, chars_app, chars_of_chars.
    repeat first [rewrite forallb_app | rewrite length_app | rewrite pad_digits_safe | rewrite padded_length | rewrite S | progress cbn [length forallb app andb]].
    rewrite andb_true_r. apply negb_true_iff, orb_false_iff. split; [done|]. apply Z.ltb_ge. cbn. lia.
Qed.

(** ** The recorder is transparent

    What it has noted is what was sent. *)
Record tracks (r : statusRecorder conn) : Prop := {
  tr_status : sr_status r = match cn_sent (sr_writer r) with Some h => sh_status h | None => 0 end;
  tr_sent : match cn_sent (sr_writer r) with Some h => sh_status h <> 0 | None => cn_body (sr_writer r) = "" end;
  tr_bytes : sr_bytes r = slen (cn_body (sr_writer r));
}.

Definition final (c : call) : Prop := match c with WriteHeader status => 200 <= status <= 999 | _ => True end.

Lemma append_empty s : s +:+ "" = s.
Proof. induction s as [|c s IH]; [done|]. exact (f_equal (String c) IH). Qed.

Lemma slen_app s t : slen (s +:+ t) = slen s + slen t.
Proof. unfold slen. rewrite <- !length_chars, chars_app, length_app. lia. Qed.

(** One call of [Write] on an open connection takes what it says. *)
Lemma conn_write_spec payload c h :
  cn_sent c = Some h ->
  exists c' taken, conn_write payload c = (c', slen taken, false) /\ cn_sent c' = Some h
    /\ cn_head c' = cn_head c /\ cn_header c' = cn_header c /\ cn_body c' = cn_body c +:+ taken.
Proof.
  intros S. unfold conn_write, implicit_head. rewrite S. cbv zeta.
  destruct (String.eqb payload ""); [by exists c, ""; rewrite append_empty|]. rewrite S.
  destruct (body_allowed _); [|by exists c, ""; rewrite append_empty]. unfold take_bytes. cbv zeta.
  destruct (match cn_length c with Some n => _ | None => true end).
  - eexists _, payload. split; [done|]. by split_and!.
  - eexists _, "". rewrite append_empty. split; [done|]. by split_and!.
Qed.

Lemma call_tracks c r :
  final c -> tracks r -> exists r', make_call c r = (r', false) /\ make_call c (sr_writer r) = (sr_writer r', false) /\ tracks r'.
Proof.
  intros Fc [T S B]. destruct r as [w st n]. cbn in T, S, B. destruct c as [k v|status|payload]; cbn [make_call].
  - eexists. split; [done|]. split; [done|]. by split.
  - cbn. unfold recorder_write_header. cbn. destruct (cn_sent w) as [h'|] eqn:X; cbn in *; subst st.
    + assert (sh_status h' =? 0 = false) as -> by lia. cbn. unfold conn_write_header. rewrite X.
      eexists. split; [done|]. split; [done|]. split; cbn; rewrite ?X; done.
    + unfold conn_write_header, informational. rewrite X.
      assert ((status <? 100) || (999 <? status) = false) as -> by lia.
      assert ((100 <=? status) && (status <=? 199) && negb (status =? 101) = false) as -> by lia. cbn.
      eexists. split; [done|]. split; [done|]. split; cbn; [done|lia|done].
  - cbn. unfold recorder_write, recorder_write_header. cbn.
    assert (O : exists h, cn_sent (implicit_head w) = Some h /\ sh_status h = (if st =? 0 then 200 else st) /\ sh_status h <> 0
      /\ cn_body (implicit_head w) = cn_body w /\ (if st =? 0 then conn_write_header 200 w else (w, false)) = (implicit_head w, false)).
    { unfold implicit_head, conn_write_header. destruct (cn_sent w) as [h|] eqn:X; subst st.
      - assert (sh_status h =? 0 = false) as -> by lia. by exists h.
      - cbn. eexists. by split_and!. }
    destruct O as (h & Oh & Os & O0 & Ob & Oe).
    assert (Ew : conn_write payload w = conn_write payload (implicit_head w)).
    { unfold conn_write. assert (implicit_head (implicit_head w) = implicit_head w) as ->; [|done].
      unfold implicit_head at 1. by rewrite Oh. }
    destruct (conn_write_spec payload (implicit_head w) h Oh) as (c' & taken & E & Sc & _ & _ & Bc). rewrite Ew, E.
    destruct (st =? 0) eqn:X0.
    + cbn in Oe |- *. rewrite Oe. cbn. rewrite E. eexists. split; [done|]. split; [done|].
      split; cbn; [by rewrite Sc, Os|by rewrite Sc|]. rewrite Bc, slen_app, Ob. lia.
    + cbn. rewrite Ew, E. eexists. split; [done|]. split; [done|].
      split; cbn; [by rewrite Sc, Os|by rewrite Sc|]. rewrite Bc, slen_app, Ob. lia.
Qed.

Lemma calls_track l r :
  Forall final l -> tracks r -> exists r', make_calls l r = (r', false) /\ make_calls l (sr_writer r) = (sr_writer r', false) /\ tracks r'.
Proof.
  intros H. revert r. induction H as [|c l Hc _ IH]; intros r T; [by exists r|].
  destruct (call_tracks c r Hc T) as (r1 & E & E' & T1). destruct (IH r1 T1) as (r' & X & X' & T'). exists r'.
  cbn [make_calls]. by rewrite E, E'.
Qed.

(** ** Headers *)

(** The header is set, and it is in the head if that is sent. *)
Definition carries (k v : string) (c : conn) : Prop :=
  dget k (cn_header c) = Some v /\ match cn_sent c with Some h => dget k (sh_header h) = Some v | None => True end.

Definition leaves (k : string) (c : call) : Prop := match c with SetHeader k' _ => k' <> k | _ => True end.

Lemma send_carries k v status c : k <> "Content-Length" -> dget k (cn_header c) = Some v -> carries k v (send status c).
Proof.
  intros N H. split; [|exact H]. cbn. destruct (declared_length _); [exact H|]. by rewrite dget_ddel_ne.
Qed.

Lemma implicit_carries k v c : k <> "Content-Length" -> carries k v c -> carries k v (implicit_head c).
Proof. intros N [H S]. unfold implicit_head. destruct (cn_sent c) eqn:E; [split; [done|by rewrite E]|by apply send_carries]. Qed.

Lemma call_carries k v c w w' p :
  k <> "Content-Length" -> leaves k c -> make_call c w = (w', p) -> carries k v w -> carries k v w'.
Proof.
  intros N L E [H S]. destruct c as [k' v'|status|payload]; cbn in *.
  - injection E as <- _. split; cbn; [by rewrite dget_dset_ne|done].
  - unfold conn_write_header in E. destruct (cn_sent w) as [h|] eqn:X; [by injection E as <- _; split; [|rewrite X]|].
    repeat case_match; injection E as <- _; [by split; [|rewrite X]..|by apply send_carries].
  - pose proof (implicit_carries k v w N (conj H S)) as [H' S'].
    assert (O : exists h, cn_sent (implicit_head w) = Some h)
      by (unfold implicit_head; destruct (cn_sent w) eqn:X; [by rewrite X; eexists|by eexists]).
    destruct O as [h Oh]. destruct (conn_write_spec payload (implicit_head w) h Oh) as (c' & taken & X & Sc & _ & Hc & _).
    assert (Ew : conn_write payload w = conn_write payload (implicit_head w)).
    { unfold conn_write. assert (implicit_head (implicit_head w) = implicit_head w) as ->; [|done].
      unfold implicit_head at 1. by rewrite Oh. }
    rewrite Ew, X in E. injection E as <- _. rewrite Oh in S'. split; [by rewrite Hc|]. by rewrite Sc.
Qed.

Lemma calls_carry k v l w w' p :
  k <> "Content-Length" -> Forall (leaves k) l -> make_calls l w = (w', p) -> carries k v w -> carries k v w'.
Proof.
  intros N H. revert w. induction H as [|c l Hc _ IH]; intros w; cbn [make_calls]; [by intros [= <- _]|].
  destruct (make_call c w) as [w1 []] eqn:E; [intros [= <- _]|intros X]; intros Cw; [|apply (IH w1 X)]; by eapply call_carries.
Qed.

Lemma call_head c w w' p : make_call c w = (w', p) -> cn_head w' = cn_head w.
Proof.
  destruct c as [k' v'|status|payload]; cbn.
  - by intros [= <- _].
  - unfold conn_write_header. repeat case_match; by intros [= <- _].
  - unfold conn_write, take_bytes, implicit_head. repeat case_match; by intros; simplify_eq/=.
Qed.

Lemma calls_head l w w' p : make_calls l w = (w', p) -> cn_head w' = cn_head w.
Proof.
  revert w. induction l as [|c l IH]; intros w; cbn [make_calls]; [by intros [= <- _]|].
  destruct (make_call c w) as [w1 []] eqn:E; [intros [= <- _]|intros X; rewrite (IH _ X)]; by eapply call_head.
Qed.

(** No Content-Length is declared. *)
Definition undeclared (c : conn) : Prop := dget "Content-Length" (cn_header c) = None /\ cn_length c = None.

Lemma send_undeclared status c : undeclared c -> undeclared (send status c).
Proof. intros [H L]. unfold undeclared, send, declared_length. cbn. rewrite H. cbn. by rewrite dget_ddel_eq. Qed.

Lemma implicit_undeclared c : undeclared c -> undeclared (implicit_head c).
Proof. unfold implicit_head. destruct (cn_sent c); [done|apply send_undeclared]. Qed.

Lemma call_undeclared c w w' p : leaves "Content-Length" c -> make_call c w = (w', p) -> undeclared w -> undeclared w'.
Proof.
  intros L E U. destruct c as [k' v'|status|payload]; cbn in *.
  - injection E as <- _. destruct U as [H S]. split; [cbn; by rewrite dget_dset_ne|done].
  - unfold conn_write_header in E. repeat case_match; injection E as <- _; try done. by apply send_undeclared.
  - apply implicit_undeclared in U. unfold conn_write, take_bytes in E. cbv zeta in E.
    repeat case_match; simplify_eq; destruct U; split; cbn; congruence.
Qed.

Lemma calls_undeclared l w w' p :
  Forall (leaves "Content-Length") l -> make_calls l w = (w', p) -> undeclared w -> undeclared w'.
Proof.
  intros H. revert w. induction H as [|c l Hc _ IH]; intros w; cbn [make_calls]; [by intros [= <- _]|].
  destruct (make_call c w) as [w1 []] eqn:E; [intros [= <- _]|intros X]; intros U; [|apply (IH w1 X)]; by eapply call_undeclared.
Qed.

Lemma write_undeclared payload c h :
  undeclared c -> cn_sent c = Some h ->
  cn_body (fst (fst (conn_write payload c))) = cn_body c +:+ (if body_allowed (sh_status h) then payload else "").
Proof.
  intros [_ L] S. unfold conn_write, implicit_head. rewrite S. cbv zeta.
  destruct (String.eqb_spec payload "") as [->|]; [cbn; by destruct (body_allowed _); rewrite append_empty|].
  rewrite S. destruct (body_allowed _); [|by rewrite append_empty]. unfold take_bytes. by rewrite L.
Qed.

(** ** What a request is answered, and what is logged *)
Section Exchange.
Context `{F : Floats} (so : source) (f : context -> script) (method path : string) (header : dict string).

(** The identifier, the context of the route, and the connection when its handler begins. *)
Definition request_id : string := correlation_of so header.

Definition route_context : context :=
  {| cx_method := method; cx_path := path; cx_header := header; cx_correlation := request_id |}.

Definition opened : conn :=
  fold_left (fun c kv => set_header (fst kv) (snd kv) c) (("X-Correlation-ID", request_id) :: security_headers)
    (fresh_conn method).

Definition envelope : list call := WriteError route_context 500 "INTERNAL_ERROR" "The request could not be completed.".

(** The connection after the handler, and after the recovery. *)
Definition handled : conn := fst (make_calls (sc_calls (f route_context)) opened).
Definition answered : conn := if sc_panics (f route_context) then fst (make_calls envelope handled) else handled.

Lemma answered_head : cn_head answered = String.eqb method "HEAD".
Proof.
  assert (H : cn_head handled = String.eqb method "HEAD")
    by (unfold handled; destruct (make_calls (sc_calls _) opened) as [c p] eqn:E; cbn [fst]; by rewrite (calls_head _ _ _ _ E)).
  unfold answered. destruct (sc_panics _); [|exact H].
  destruct (make_calls envelope handled) as [c p] eqn:E. cbn [fst]. by rewrite (calls_head _ _ _ _ E).
Qed.

Lemma envelope_final : Forall final envelope.
Proof. repeat constructor; cbn; lia. Qed.

Lemma respond_run :
  Forall final (sc_calls (f route_context)) ->
  respond so (of_script f) method path header
  = (implicit_head answered,
     ((if sc_panics (f route_context) then [Recovered request_id method path] else [])
      ++ [Completed request_id method path (match cn_sent answered with Some h => sh_status h | None => 200 end)
            (slen (cn_body answered))])%list, false).
Proof.
  intros H. destruct (calls_track _ (Recorder opened 0 0) H) as (r1 & E1 & X1 & T1); [by split|].
  cbn [sr_writer] in X1. unfold answered, handled. rewrite X1.
  unfold respond, chain, CorrelationID, SecureHeaders, AccessLogger, Recoverer, of_script. cbn [cx_correlation cx_method cx_path cx_header].
  fold request_id. fold route_context. change (fold_left _ security_headers _) with opened. rewrite E1. cbn [orb fst].
  assert (L : forall r, tracks r -> (if sr_status r =? 0 then 200 else sr_status r) = match cn_sent (sr_writer r) with Some h => sh_status h | None => 200 end).
  { intros r [T S B]. rewrite T. destruct (cn_sent (sr_writer r)) as [h|]; [|done]. by assert (sh_status h =? 0 = false) as -> by lia. }
  destruct (sc_panics _).
  - fold envelope. destruct (calls_track _ r1 envelope_final T1) as (r2 & E2 & X2 & T2). rewrite E2. cbn [fst]. rewrite X2. cbn [fst app].
    by rewrite (L r2 T2), (tr_bytes _ T2).
  - by rewrite (L r1 T1), (tr_bytes _ T1).
Qed.

(** Claim C26: the access log is the truth.  Whatever a handler writes in whatever order,
    with statuses from 200 on, and whether or not it panics, the request ends with one
    entry of the access log, whose status is the status that was sent and whose byte count
    is the number of bytes that net/http took for the body: those of the body that is sent,
    except that a HEAD request is sent no body.  A panic adds one entry before it; all
    carry one identifier, which is the client's when that is valid and else a fresh one,
    and is always valid. *)
Theorem exchange_logged :
  source_ok so -> Forall final (sc_calls (f route_context)) ->
  exists c h log,
    respond so (of_script f) method path header = (c, log, false)
    /\ cn_sent c = Some h
    /\ log = ((if sc_panics (f route_context) then [Recovered request_id method path] else [])
              ++ [Completed request_id method path (sh_status h) (slen (cn_body c))])%list
    /\ sent_body c = (if String.eqb method "HEAD" then "" else cn_body c)
    /\ validCorrelationID request_id = true
    /\ (forall given, dget "X-Correlation-ID" header = Some given -> validCorrelationID (trimSpace given) = true ->
         request_id = trimSpace given).
Proof.
  intros S H. rewrite (respond_run H). unfold implicit_head.
  assert (V : validCorrelationID request_id = true /\ forall given, dget "X-Correlation-ID" header = Some given ->
    validCorrelationID (trimSpace given) = true -> request_id = trimSpace given).
  { unfold request_id, correlation_of. split.
    - destruct (validCorrelationID (trimSpace _)) eqn:E; [exact E|by apply newCorrelationID_valid].
    - intros given -> X. change (default "" (Some given)) with given. by rewrite X. }
  destruct V as [V G].
  assert (B : sent_body answered = if String.eqb method "HEAD" then "" else cn_body answered)
    by (unfold sent_body; by rewrite answered_head).
  destruct (cn_sent answered) as [h|] eqn:E.
  - exists answered, h. eexists. split; [done|]. split; [exact E|]. done.
  - eexists _, _, _. split; [done|]. split; [done|]. done.
Qed.

(** The names that the chain sets. *)
Definition chain_names : list string := "X-Correlation-ID" :: map fst security_headers.

Lemma opened_carries k v : In (k, v) (("X-Correlation-ID", request_id) :: security_headers) -> carries k v opened.
Proof. intros H. split; [|done]. repeat (destruct H as [[= <- <-]|H]; [reflexivity|]). destruct H. Qed.

Lemma answered_carries k v c :
  In (k, v) (("X-Correlation-ID", request_id) :: security_headers) ->
  Forall (leaves k) (sc_calls (f route_context)) -> k <> "Content-Type" -> k <> "Content-Length" ->
  c = implicit_head answered -> carries k v c.
Proof.
  intros I L N N2 ->. apply implicit_carries; [exact N2|]. assert (A : carries k v answered).
  { unfold answered, handled. destruct (make_calls (sc_calls _) opened) as [c1 p1] eqn:E1.
    assert (C1 : carries k v c1) by (eapply calls_carry; [exact N2|exact L|exact E1|by apply opened_carries]). cbn [fst].
    destruct (sc_panics _); [|exact C1]. destruct (make_calls envelope c1) as [c2 p2] eqn:E2. cbn [fst].
    eapply calls_carry; [exact N2| |exact E2|exact C1]. repeat constructor. cbn. congruence. }
  exact A.
Qed.

(** Claim C27: every answer is protected, and a panic is answered.  Whatever a handler that
    leaves the headers of the chain alone writes, and whether or not it panics, the head
    that is sent has the identifier of the log and all security headers.  If the handler
    panics before it has sent anything, the answer is 500 with the stable envelope and that
    identifier, and nothing of the panic; once a status is sent it stays, and the envelope
    follows what was written - in the body, which a HEAD request is not sent, and unless
    the handler declared a Content-Length, which may leave the envelope no room. *)
Theorem exchange_answered :
  Forall final (sc_calls (f route_context)) ->
  Forall (fun k => Forall (leaves k) (sc_calls (f route_context))) chain_names ->
  exists c h,
    fst (fst (respond so (of_script f) method path header)) = c /\ cn_sent c = Some h
    /\ dget "X-Correlation-ID" (sh_header h) = Some request_id
    /\ (forall k v, In (k, v) security_headers -> dget k (sh_header h) = Some v)
    /\ (sc_panics (f route_context) = true ->
         let text := marshal (error_response "INTERNAL_ERROR" "The request could not be completed." request_id) +:+ of_chars [byte 10] in
         match cn_sent handled with
         | None => sh_status h = 500
                   /\ (Forall (leaves "Content-Length") (sc_calls (f route_context)) -> cn_body c = cn_body handled +:+ text)
         | Some h1 => h = h1
                   /\ (Forall (leaves "Content-Length") (sc_calls (f route_context)) ->
                        cn_body c = cn_body handled +:+ (if body_allowed (sh_status h1) then text else ""))
         end).
Proof.
  intros H L. rewrite (respond_run H). cbn [fst]. set (c := implicit_head answered).
  assert (S : exists h, cn_sent c = Some h) by (unfold c, implicit_head; destruct (cn_sent answered) eqn:E; [by rewrite E; eexists|by eexists]).
  destruct S as [h S]. exists c, h. split; [done|]. split; [exact S|]. rewrite List.Forall_forall in L.
  assert (K : forall k v, In (k, v) (("X-Correlation-ID", request_id) :: security_headers) -> dget k (sh_header h) = Some v).
  { intros k v I. destruct (answered_carries k v c I) as [_ X]; [|by repeat (destruct I as [[= <- _]|I]; [done|])|by repeat (destruct I as [[= <- _]|I]; [done|])|done|by rewrite S in X].
    apply L. unfold chain_names. change (In k (map fst (("X-Correlation-ID", request_id) :: security_headers))).
    change k with (fst (k, v)). by apply in_map. }
  split; [apply K; by left|]. split; [intros k v I; apply K; by right|]. intros P. set (text := marshal _ +:+ _).
  assert (A : answered = fst (make_calls envelope handled)) by (unfold answered; by rewrite P).
  assert (U : Forall (leaves "Content-Length") (sc_calls (f route_context)) -> undeclared handled).
  { intros Lv. unfold handled. destruct (make_calls (sc_calls _) opened) as [c1 p1] eqn:E1. eapply calls_undeclared; [exact Lv|exact E1|done]. }
  unfold c in *. clear K L c. rewrite A in *. clear A. set (typed := set_header "Content-Type" "application/json; charset=utf-8" handled).
  assert (Ut : undeclared handled -> undeclared typed) by (intros [X Y]; split; [cbn; by rewrite dget_dset_ne|done]).
  assert (B : forall w1 h1, conn_write_header 500 typed = (w1, false) -> cn_sent w1 = Some h1 ->
    cn_sent (fst (make_calls envelope handled)) = Some h1
    /\ (undeclared w1 -> cn_body (fst (make_calls envelope handled)) = cn_body w1 +:+ (if body_allowed (sh_status h1) then text else ""))).
  { intros w1 h1 E S1. unfold envelope, WriteError, WriteJSON. cbn [make_calls make_call]. fold typed.
    change (write_header 500 typed) with (conn_write_header 500 typed). rewrite E.
    change (cx_correlation route_context) with request_id. fold text. cbv beta iota. unfold write, conn_writer.
    destruct (conn_write_spec text w1 h1 S1) as (c' & taken & X & Sc & _). pose proof (fun u => write_undeclared text w1 h1 u S1) as Bu.
    rewrite X in Bu. rewrite X. by split. }
  assert (X : forall h1, cn_sent (fst (make_calls envelope handled)) = Some h1 -> h = h1 /\
      cn_body (implicit_head (fst (make_calls envelope handled))) = cn_body (fst (make_calls envelope handled)))
    by (intros h1 X; unfold implicit_head in *; rewrite X in *; by simplify_eq).
  unfold conn_write_header in B. change (cn_sent typed) with (cn_sent handled) in B.
  destruct (cn_sent handled) as [h1|] eqn:Sh.
  - destruct (B typed h1 eq_refl Sh) as [B1 B2]. destruct (X h1 B1) as [-> ->]. split; [done|]. intros Lv. by rewrite B2 by auto.
  - destruct (B (send 500 typed) _ eq_refl eq_refl) as [B1 B2]. destruct (X _ B1) as [-> ->]. split; [done|]. intros Lv.
    rewrite B2; [done|]. by apply send_undeclared, Ut, U.
Qed.
End Exchange.

(** ** Concrete exchanges *)
Definition given_id (id : string) : dict string := [("X-Correlation-ID", id)].

Definition sixteen : source := {| so_random := Some "0123456789abcdef"; so_now := 0; so_sequence := 0 |}.

Definition halfway (cx : context) : script := {| sc_calls := [WriteHeader 202; Write "half"]; sc_panics := true |}.
Definition crash (cx : context) : script := {| sc_calls := []; sc_panics := true |}.

Lemma exchange_logged_witness :
  exists c, respond sixteen (of_script halfway) "GET" "/x" (given_id " client-1 ")
    = (c, [Recovered "client-1" "GET" "/x"; Completed "client-1" "GET" "/x" 202 (slen (cn_body c))], false).
Proof.
  destruct (exchange_logged sixteen halfway "GET" "/x" (given_id " client-1 ")) as (c & h & log & E & S & -> & _ & _ & G).
  - reflexivity.
  - repeat constructor; cbn; lia.
  - assert (I : request_id sixteen (given_id " client-1 ") = "client-1") by (apply (G " client-1 "); vm_compute; reflexivity).
    rewrite I in E. exists c. rewrite E. cbn [app halfway sc_panics sc_calls].
    assert (X : option_map sh_status (cn_sent (fst (fst (respond sixteen (of_script halfway) "GET" "/x" (given_id " client-1 "))))) = Some 202)
      by (vm_compute; reflexivity).
    rewrite E in X. cbn [fst] in X. rewrite S in X. injection X as ->. reflexivity.
Defined.

Lemma exchange_answered_witness :
  exists c h, fst (fst (respond sixteen (of_script crash) "GET" "/x" (given_id "no spaces please"))) = c /\ cn_sent c = Some h
    /\ sh_status h = 500 /\ dget "X-Frame-Options" (sh_header h) = Some "DENY"
    /\ dget "X-Correlation-ID" (sh_header h) = Some "30313233343536373839616263646566".
Proof.
  destruct (exchange_answered sixteen crash "GET" "/x" (given_id "no spaces please")) as (c & h & E & S & I & K & P).
  - constructor.
  - repeat constructor.
  - exists c, h. split; [exact E|]. split; [exact S|]. destruct (P eq_refl) as [X _]. split; [exact X|].
    split; [apply K; cbn; tauto|]. rewrite I. vm_compute. reflexivity.
Defined.

(** A HEAD is logged with the bytes of the body that it is not sent, and what exceeds a
    declared length is neither taken nor counted. *)
Example head_logged_with_body :
  let '(c, log, _) := respond sixteen (of_script (fun _ => {| sc_calls := [Write "twelve bytes"]; sc_panics := false |})) "HEAD" "/x" [] in
  sent_body c = "" /\ match log with [Completed _ _ _ 200 bytes] => bytes = 12 | _ => False end.
Proof. vm_compute. split; reflexivity. Qed.

Example beyond_declared_length :
  let '(c, log, _) := respond sixteen (of_script (fun _ =>
    {| sc_calls := [SetHeader "Content-Length" "4"; Write "four"; Write "more"]; sc_panics := false |})) "GET" "/x" [] in
  sent_body c = "four" /\ match log with [Completed _ _ _ 200 bytes] => bytes = 4 | _ => False end.
Proof. vm_compute. split; reflexivity. Qed.

(** A status of the 100s is logged and is not the status that is sent. *)
Example informational_logged :
  let '(c, log, _) := respond sixteen (of_script (fun _ => {| sc_calls := [WriteHeader 103; WriteHeader 404]; sc_panics := false |})) "GET" "/x" [] in
  option_map sh_status (cn_sent c) = Some 200 /\ match log with [Completed _ _ _ status _] => status = 103 | _ => False end.
Proof. vm_compute. split; reflexivity. Qed.

(** The audit log takes the header as it came: the identifier that the chain refuses and
    replaces is the one of the event, and without a header the event has an identifier
    of its own. *)
Example audit_identifier_unchecked :
  let raw := "not safe" in
  validCorrelationID raw = false
  /\ fst (correlation {| rq_path := []; rq_header := given_id raw; rq_query := []; rq_cookie := None; rq_body := BodyEOF |}
           (World agent_tables [] [])) = Ok raw
  /\ correlation_of sixteen (given_id raw) <> raw.
Proof. split; [reflexivity|]. split; [reflexivity|]. vm_compute. discriminate. Qed.
