(* ===== verification/KeyAdmin.v ===== *)
(** * Legacy API keys in the browser

    internal/legacyapikeys/handler.go over mysql/legacy_key.go ([LegacyAuth]): a signed-in
    user reads what is known of the key of the customer, or replaces it and gets the new
    one, with which the command line then acts for the customer. *)

From S2P Require Import Prelude GoStrings GoTime Effects RunTables Secrets CliTables LegacyAuth.
From S2P Require Import RunTheorems CliTheorems.
From S2P Require Import Http Contracts AccountTables Sessions Accounts SessionTheorems AccountTheorems.

(** The accounts behind the session, and the tables of the command line. *)
Record KeyTables := { kt_accounts : AccountTables; kt_cli : CliTables }.

Definition with_kt_accounts (a : AccountTables) (d : KeyTables) : KeyTables := {| kt_accounts := a; kt_cli := kt_cli d |}.
Definition with_kt_cli (c : CliTables) (d : KeyTables) : KeyTables := {| kt_accounts := kt_accounts d; kt_cli := c |}.

(** A handler without a repository is one that [NewHandler] was not given. *)
Record KeyHandler := { kh_sessions : bool; kh_lifecycle : bool }.

Inductive key_payload :=
| KError (code message : string)
| KShown (meta : KeyMetadata)
| KReplaced (meta : KeyMetadata) (apiKey : string).

Notation kreply := (reply_of key_payload).

Inductive key_route := KeyShow | KeyReplace.

Section Handlers.
Context `{MS : MySQL} `{B : Bcrypt} (h : KeyHandler) (now : time).
Notation H := (M KeyTables kreply).

Definition key_failure (status : Z) (code message : string) : kreply := written status (KError code message).

(** [handler.user]. *)
Definition user (r : Request) (k : User -> H) : H :=
  if negb (kh_lifecycle h) then ret (key_failure 503 "LEGACY_API_KEY_UNAVAILABLE" "Legacy API-key storage is unavailable.")
  else
    let! u := (if kh_sessions h then zoom kt_accounts with_kt_accounts (AuthenticateRequest now r)
               else match rq_cookie r with
                    | Some value => if String.eqb value "" then ret None
                                    else fail (Panic "invalid memory address or nil pointer dereference")
                    | None => ret None
                    end) in
    match u with
    | None => ret (key_failure 401 "UNAUTHENTICATED" "An active browser session is required.")
    | Some u => k u
    end.

Definition Show_route (r : Request) : H :=
  user r (fun u =>
    let! x := attempt (zoom kt_cli with_kt_cli (Show (activeTenant u) now)) in
    ret (match x with
         | Ok v => written 200 (KShown v)
         | Err _ => key_failure 500 "LEGACY_API_KEY_UNAVAILABLE" "API-key metadata could not be loaded."
         end)).

Definition Replace_route (r : Request) : H :=
  user r (fun u =>
    let! x := attempt (zoom kt_cli with_kt_cli (Replace (activeTenant u) now)) in
    ret (match x with
         | Ok (secret, v) => written 200 (KReplaced v secret)
         | Err _ => key_failure 500 "LEGACY_API_KEY_UNAVAILABLE" "API key could not be rotated."
         end)).

Definition serve_keys (rt : key_route) (r : Request) : H :=
  match rt with KeyShow => Show_route r | KeyReplace => Replace_route r end.
End Handlers.

(** ** What a replacement does *)
Section Replacement.
Context `{MS : MySQL} `{B : Bcrypt}.
Implicit Types d : KeyTables.

(** The request carries the session of this active user. *)
Definition key_actor (now : time) (r : Request) d (actor : User) : Prop :=
  acts_for now r (kt_accounts d) actor /\ u_Status actor = "active".

Lemma wp_user h now r d (k : User -> M KeyTables kreply) (Q : outcome kreply -> KeyTables -> Prop) :
  (forall u, key_actor now r d u -> wp d (k u) Q) ->
  (forall s c m, s <> 200 -> Q (Ok (key_failure s c m)) d) -> (forall e, Q (Err e) d) -> wp d (user h now r k) Q.
Proof.
  intros K N E. unfold user, AuthenticateRequest, Get. assert (W : with_kt_accounts (kt_accounts d) d = d) by (by destruct d).
  destruct (kh_lifecycle h); cbn [negb]; [|by apply wp_ret, N].
  destruct (kh_sessions h); repeat wp_step; rewrite ?W; simplify_eq; try (by apply N); try apply E.
  destruct (String.eqb_spec (u_Status (user_of_session p)) "active") as [A|]; simplify_eq. apply K. split; [|exact A]. by eexists _, _.
Qed.

(** What a computation on the key tables makes of them, and of nothing else. *)
Lemma wp_replace tenant now (c : CliTables) :
  wp c (Replace tenant now) (fun x c' =>
    match x with
    | Ok (raw, _) => exists salt hash, bcrypt_generate salt raw = Some hash
        /\ exists audits, c' = with_key_audits audits (update_costumer tenant (set_key hash (now + keyLifetime)) c)
    | Err _ => c' = c
    end).
Proof.
  unfold Replace. apply wp_bind, wp_rand; [by apply wp_fail|]. intros b _. apply wp_bind, wp_rand; [by apply wp_fail|].
  intros salt _. destruct (Some salt ≫= _) as [hash|] eqn:G; [|by apply wp_fail]. cbn in G.
  apply wp_bind, wp_exec_count; [|done]. cbn [fst snd]. apply wp_bind, wp_guard; intros N.
  - apply wp_bind, wp_attempt, wp_exec; intros; apply wp_ret; exists salt, hash; (split; [exact G|]).
    + by eexists.
    + exists (key_audits c). by destruct c.
  - destruct c as [l a cf p1 p2 p3]. unfold update_costumer, with_costumers. cbn in *. f_equal.
    apply negb_false_iff, Z.eqb_eq in N. induction l as [|row l IH]; [done|]. cbn in *.
    destruct (CliTables.co_id row =? tenant); [cbn in N; lia|]. by rewrite IH.
Qed.

Lemma wp_zoom_replace tenant now d :
  wp d (zoom kt_cli with_kt_cli (Replace tenant now)) (fun x d' => exists c', d' = with_kt_cli c' d /\
    match x with
    | Ok (raw, _) => exists salt hash, bcrypt_generate salt raw = Some hash
        /\ exists audits, c' = with_key_audits audits (update_costumer tenant (set_key hash (now + keyLifetime)) (kt_cli d))
    | Err _ => c' = kt_cli d
    end).
Proof. apply wp_zoom. eapply wp_weaken; [apply wp_replace|]. intros x c' H. by exists c'. Qed.

Lemma zoom_result {A} (m : M CliTables A) (w : world KeyTables) x w' :
  zoom kt_cli with_kt_cli m w = (x, w') ->
  exists w1, m (World (kt_cli (w_db w)) (w_faults w) (w_random w)) = (x, w1) /\ kt_cli (w_db w') = w_db w1.
Proof. unfold zoom. destruct (m _) as [y w1]. intros [= <- <-]. by exists w1. Qed.

(** The new key opens the command line for the customer, and for nobody else, at any time
    before it expires.  The conditions: identifiers of customers are distinct and that of
    this one is not zero, and every other customer whose key has not expired has a key
    hash, which refuses the new key ([others_refuse]).  Where another customer has no hash
    at all, the reader stops there and nobody gets in. *)
Definition opens (tenant : Z) (now : time) (raw : string) (before after_ : CliTables) : Prop :=
  forall t rnd, NoDup (map CliTables.co_id (costumers before)) -> tenant <> 0 -> after (now + keyLifetime) t = true ->
    others_refuse tenant t raw before = true ->
    exists name, forall next, Middleware [raw] t next (World after_ [] rnd)
      = next {| LegacyAuth.cu_ID := tenant; LegacyAuth.cu_Name := name |} {| LegacyAuth.tc_CustomerID := tenant |}
          (World (update_costumer tenant (set_last_used t) after_) [] rnd).
End Replacement.

Section Requests.
Context `{MS : MySQL} `{L : BcryptLaws}.

Lemma replace_opens tenant now w raw meta w' :
  Replace tenant now w = (Ok (raw, meta), w') -> opens tenant now raw (w_db w) (w_db w').
Proof. intros E t rnd N Z T O. exact (proj1 (rotated_key_opens tenant now w w' raw meta t rnd E N Z T) O). Qed.

(** A request, as an answer and the tables it leaves. *)
Definition key_exchange (now : time) (rt : key_route) (r : Request) (d : KeyTables) (reply : kreply) (d' : KeyTables) : Prop :=
  kt_accounts d' = kt_accounts d
  /\ match rp_body reply with
     | KReplaced meta raw =>
         rt = KeyReplace /\ rp_status reply = 200 /\ exists actor, key_actor now r d actor
         /\ (exists salt hash audits, bcrypt_generate salt raw = Some hash
             /\ kt_cli d' = with_key_audits audits (update_costumer (activeTenant actor) (set_key hash (now + keyLifetime)) (kt_cli d)))
         /\ opens (activeTenant actor) now raw (kt_cli d) (kt_cli d')
     | KShown meta => rt = KeyShow /\ d' = d /\ exists actor row, key_actor now r d actor /\ In row (costumers (kt_cli d))
         /\ CliTables.co_id row = activeTenant actor /\ km_expiresAt meta = co_apiKeyExpiresAt row /\ km_lastUsedAt meta = co_apiKeyLastUsedAt row
     | KError _ _ => d' = d /\ rp_status reply <> 200
     end.

(** Claim C25: a replaced key is a key, where the other customers' rows let it be one.  A
    request of the browser about the key of the customer either shows what the row of the
    sender's customer says, or changes nothing and reports it, or, answered 200 with a new
    key, has changed that customer's key and no other customer.  Then the command line,
    given the new key before it expires, runs its handler as that customer, on condition
    that the identifiers of customers are distinct and the customer's is not zero, and that
    each other customer whose key has not expired has a key hash that refuses the new key:
    a single such row without a hash closes the command line to every key that is stored
    after it. *)
Theorem key_requests_exact h now rt r (w w' : world KeyTables) reply :
  serve_keys h now rt r w = (Ok reply, w') -> key_exchange now rt r (w_db w) reply (w_db w').
Proof.
  set (d := w_db w). intros E.
  refine (wp_elim _ w (fun x d' => match x with Ok reply => key_exchange now rt r d reply d' | Err _ => True end) (Ok reply) w' _ E).
  clear E w' reply. fold d. clearbody d. clear w.
  assert (N : forall s c m, s <> 200 -> key_exchange now rt r d (key_failure s c m) d) by done.
  destruct rt; cbn [serve_keys]; apply wp_user; try done; intros u U.
  - apply wp_bind, wp_attempt, wp_zoom. apply wp_bind, wp_query.
    + destruct (List.find _ _) as [row|] eqn:Fr; [apply wp_ret|apply wp_fail]; apply wp_ret; (destruct d as [a c]; cbn [kt_cli with_kt_cli kt_accounts] in * ).
      * apply List.find_some in Fr as [Fi Fe]. split; [done|]. cbn. split_and!; try done. exists u, row. split_and!; try done. lia.
      * by apply N.
    + intros m. apply wp_ret. destruct d as [a c]. by apply N.
  - apply wp_bind, wp_attempt. intros w Hw. pose proof (wp_zoom_replace (activeTenant u) now d w Hw) as Z.
    destruct (zoom kt_cli with_kt_cli (Replace (activeTenant u) now) w) as [x w'] eqn:E. cbn [fst snd] in *.
    destruct Z as (c & D & Z). apply zoom_result in E as (w1 & E & D1). destruct x as [[raw meta]|e].
    + apply wp_ret. rewrite D in *. split; [done|]. cbn. split; [done|]. split; [done|]. exists u. split; [exact U|].
      destruct Z as (salt & hash & G & audits & ->). split; [by exists salt, hash, audits|].
      apply replace_opens in E. rewrite Hw in E. cbn in E, D1. by rewrite D1.
    + subst c. assert (w_db w' = d) as -> by (rewrite D; by destruct d). by destruct e; try apply wp_ret; try apply N.
Qed.
End Requests.

(** ** Concrete requests *)
Definition member_session : string :=
  Eval vm_compute in match first_cookie (fst (signed_in "member@x")) with Some c => c | None => "" end.

(** The member of customer 8, and the keys of the customers. *)
Definition key_world : world KeyTables :=
  Eval vm_compute in World {| kt_accounts := w_db (snd (signed_in "member@x")); kt_cli := cli_tables |} []
    [Some (of_chars (repeat "k"%char 32)); Some (of_chars (repeat "s"%char 16))].

Definition member_request : Request :=
  {| rq_path := []; rq_header := []; rq_query := []; rq_cookie := Some member_session; rq_body := BodyEOF |}.

Definition replaced : outcome kreply * world KeyTables :=
  serve_keys {| kh_sessions := true; kh_lifecycle := true |} noon KeyReplace member_request key_world.

Definition new_key : option string :=
  match fst replaced with Ok reply => match rp_body reply with KReplaced _ raw => Some raw | _ => None end | Err _ => None end.

Lemma key_requests_exact_witness :
  exists raw name, new_key = Some raw /\ forall next,
    Middleware [raw] (noon + hour) next (World (kt_cli (w_db (snd replaced))) [] [])
    = next {| LegacyAuth.cu_ID := 8; LegacyAuth.cu_Name := name |} {| LegacyAuth.tc_CustomerID := 8 |}
        (World (update_costumer 8 (set_last_used (noon + hour)) (kt_cli (w_db (snd replaced)))) [] []).
Proof.
  assert (Nd : NoDup (map CliTables.co_id (costumers (kt_cli (w_db key_world))))) by (vm_compute; repeat constructor; set_solver).
  assert (K : new_key = Some "idk_a2tra2tra2tra2tra2tra2tra2tra2tra2tra2tra2s") by (vm_compute; reflexivity).
  assert (S : session_user member_session noon (kt_accounts (w_db key_world))
              = head (map (fun s => (s, sample_user 3 3 8 "member@x")) (at_sessions (kt_accounts (w_db key_world)))))
    by (vm_compute; reflexivity).
  unfold new_key in *. destruct replaced as [x w'] eqn:E. cbn [fst snd] in *. destruct x as [reply|]; [|discriminate K].
  pose proof (key_requests_exact _ noon KeyReplace member_request key_world w' reply E) as [_ X].
  destruct (rp_body reply) as [| |meta raw]; try discriminate K. injection K as ->.
  destruct X as (_ & _ & actor & [(cookie & su & C & Su & ->) _] & _ & O). injection C as <-. rewrite S in Su.
  cbn in Su. injection Su as <-.
  destruct (O (noon + hour) []) as [name N]; [exact Nd|done|reflexivity|vm_compute; reflexivity|].
  exists "idk_a2tra2tra2tra2tra2tra2tra2tra2tra2tra2tra2s", name. split; [reflexivity|]. exact N.
Defined.

(** The member has no capability for API keys, and has just replaced the key of the
    customer; the record of it does not say who did. *)
Example member_replaces_key :
  existsb (String.eqb "api_keys.manage") (capabilitiesForRole 3) = false
  /\ option_map rp_status (match fst replaced with Ok reply => Some reply | Err _ => None end) = Some 200
  /\ key_audits (kt_cli (w_db (snd replaced))) = [{| ka_activeTenantId := 8; ka_targetId := 8; ka_created_at := noon |}].
Proof. split_and!; vm_compute; reflexivity. Qed.
